(* ===== verification/_CoqProject ===== *)
-Q . S2P
Prelude.v
Identity.v
Json.v
Text.v
Db.v
Leases.v
Outbox.v
Lifecycle.v
SideEffects.v
Checkpoint.v
AuditTrail.v
Capabilities.v
Tools.v
Worker.v
Auth.v
RateLimit.v
Api.v
Ledger.v
Budget.v
Cache.v
Llm.v
Frame.v
Builds.v
ObjectStore.v
Chunking.v
Reindex.v
Canary.v
Documents.v
Sessions.v
Gaps.v
Chat.v
Onboarding.v
Datasets.v
Metrics.v
Gate.v
Judge.v
Settings.v
Access.v
Artifacts.v
Engine.v
Hybrid.v
Drafting.v
Cassette.v
Echo.v
Routes.v
Isolation.v
Confined.v
