(* ===== verification/Prelude.v ===== *)
(** A verification of the agentic platform.

    The program is a multi-tenant platform that answers questions over tenants' document
    collections and runs agents for them: a FastAPI service ([src/apps/api],
    [src/platform_core/api]), a relay ([src/apps/relay]) and workers ([src/apps/worker])
    around one PostgreSQL database, with Redis, an S3 bucket and a model provider beside it.
    The service admits a request, decides it and writes what is to be done into the database;
    the relay publishes the pointers of queued runs to a broker; a worker takes a run's lease
    and executes its workload ([src/workloads]), which calls the model through one client and
    writes its results under the lease.  Everything that must survive a crash, an impostor or
    a second copy of itself goes through rows of the database, and that is what is modelled.

    * How code becomes definitions

    A function of the source becomes a computation [M S A := S → result A * S] of
    [Prelude.v]: state passing over the state the code reads and writes, with Python's
    exceptions as the values of [exn].  The state of most code is [db] of [Db.v], a record of
    the tables; a statement is [select_where], [update_where] or an append over a table, and
    [tenant_session] conjoins the row-level-security predicate to every statement of its
    block, as the policies of [src/deploy/migrations/versions] do.  [tx] undoes a block that
    raises.  Code that also touches something outside the database (the ledger's memory, the
    response cache, the provider, the bucket, a client's own state) runs over a pair [db * W].
    The clock, fresh uuids, random draws and what other processes commit between two
    statements of one operation are arguments of the operation, so a theorem holds for every
    choice of them.  Where the interleaving of operations matters there is a transition
    system ([Lifecycle.v], [SideEffects.v]) or a list of committed operations ([exec_all] of
    [Builds.v], [Canary.v], [Documents.v], [Sessions.v], [Gaps.v], [Onboarding.v],
    [Datasets.v], [Budget.v]).

    Integers are Python's, so [Z]; times and intervals are microseconds in [Z].  A [str] is a
    string of code points below 256.  A float is the rational it denotes and arithmetic on it
    is exact ([Q]), with the code's own rounding written out ([round4], [timedelta_seconds],
    the [NUMERIC] columns of [Ledger.v]); a comparison that floats would decide by a last bit
    can differ.  JSON floats are carried by their [repr].

    * Files

    Foundations: [Prelude.v] (record update, the monad, statements, their lemmas and
    tactics), [Identity.v] ([platform_core/identity/principal.py]), [Json.v] ([json.dumps] as
    the digests use it), [Text.v] (string operations), [Db.v] ([platform_core/db]).

    Runs: [Leases.v] ([correctness/leases.py], [cancellation.py]), [Outbox.v]
    ([correctness/outbox.py], [apps/relay/main.py]), [Lifecycle.v] (the commits of all
    processes over the run table), [SideEffects.v] ([correctness/side_effects.py]),
    [Checkpoint.v] ([ports/checkpoint.py], [adapters/postgres/checkpoint.py]), [Tools.v]
    ([agent/tools.py], [api/routes/approvals.py]), [Worker.v] ([apps/worker]), [Echo.v] (a
    process killed at a crash point: [correctness/crash_points.py], [workloads/echo]).

    Authority: [AuditTrail.v] ([observability/audit.py]), [Capabilities.v]
    ([identity/capabilities.py]), [Auth.v] ([identity/auth.py]), [RateLimit.v]
    ([security/rate_limit.py]), [Api.v] ([api/policy.py], [api/route_table.py] and the
    middleware of [api/app.py]), [Settings.v] ([settings.py]: what a process refuses to start
    with, and the settings every other component reads), [Access.v] ([api/routes/auth.py],
    [api/routes/members.py]).

    Models: [Ledger.v] ([observability/ledger.py]), [Budget.v] (what any sequence of ledger
    operations can spend), [Cache.v] ([scaling/cache.py]), [Llm.v] ([observability/llm.py]),
    [Frame.v] (what a model call leaves alone), [Cassette.v] ([gates/cassette.py]).

    Corpora: [Builds.v] ([corpus/builds.py]), [ObjectStore.v]
    ([adapters/local/object_store.py]), [Chunking.v] ([corpus/chunking.py]), [Reindex.v]
    ([workloads/reindex]), [Canary.v] ([release/canary.py]), [Documents.v]
    ([api/routes/documents.py]).

    The API as a whole: [Routes.v] (the thin routes: [api/routes/runs.py], [usage.py],
    [tools.py], [audit.py] and the reading ones of [onboarding.py]), [Isolation.v] (every GET
    route, and what its answer can depend on), [Confined.v] (the writing routes, and what they
    can touch).

    Conversations: [Sessions.v] ([scaling/sessions.py]), [Gaps.v] ([corpus/gaps.py]),
    [Chat.v] ([workloads/chat/service.py] and the dense mode of [api/routes/query.py]),
    [Hybrid.v] ([workloads/graphrag/retriever.py], [service.py] and the graph mode of the
    same route), over the engine's seams in [Engine.v] ([workloads/graphrag/engine.py]) and
    the taxonomies on disk of [Artifacts.v] ([workloads/graphrag/artifacts.py]).

    Onboarding and evaluation: [Onboarding.v] ([workloads/onboarding/store.py]),
    [Drafting.v] ([workloads/onboarding/workload.py], [api/routes/onboarding.py]),
    [Datasets.v] ([gates/datasets.py], [gates/labels.py]), [Metrics.v] ([gates/metrics.py]),
    [Gate.v] ([gates/runner.py], [gates/promotion.py]), [Judge.v] ([gates/judge.py],
    [gates/annotator.py], [workloads/eval/workload.py]) and, in [Datasets.v], [Gate.v] and
    [Judge.v], their routes of [api/routes/eval.py].

    * Interfaces

    A component that uses another through a promise is proved against a class: [Table] and
    [TenantRow] ([Db.v]) give every table its lenses and its policy column; [AuditEnv]
    ([AuditTrail.v]) is the digest and the text functions of the trail; [CheckpointLog]
    ([Checkpoint.v]) is an append-only log, which the PostgreSQL store implements;
    [MetricsSource] is where the canary's measurements come from; [Embedder] ([Reindex.v]),
    [ChatClient] ([Chat.v]) and [EvalClient] ([Judge.v]) are what a workload asks of the model
    client and what it may count on the client not to touch.  These three are discharged
    by the client of [Llm.v] through [Frame.v] ([leaves_alone], [llm_embedder],
    [llm_client], [evaluator_client]).  [Scoped] ([Isolation.v]) and [Owned] ([Confined.v]) say
    of a table that a tenant's view of it is its own rows and that nobody else's matter to it.
    [GraphEngine] ([Hybrid.v]) and [DraftEngine]
    ([Drafting.v]) are what the platform asks of the graph engine, a tree outside this
    repository, and what the engine may not touch while it calls back; concrete ones are in
    the modules [HybridDemo] and [DraftingDemo].

    * Theorems

    Runs: a finished run stays as it finished until retention deletes it, and its row satisfies
    the table's invariant; each lease counts an attempt and the attempts are bounded; a holder
    that lost its lease can write nothing; one admission per idempotency key; a swept run is
    published again; an effect that needs reconciliation is repeated only after it raised; a
    write tool runs once per approval of its very arguments; a killed run, executed again,
    announces its message once and, if no other document has its bytes, finishes.

    Authority: no handler starts without a decision behind it and the startup check misses no
    route; a role or grant allows exactly what the table says; a token carries identity and
    never authority; only the password signs in; the chain of audit events verifies after any
    history of appends and retention; a deployed API that started fails closed, and the
    settings it started with fit the components they configure.

    Models: reservations bound what a tenant spends, a reservation is settled once, every
    call of the client library is reserved for and metered, a cached answer is the one stored for the same
    tenant and question, a recorded one is replayed as it was recorded.

    Corpora: the served build is always a complete one; a rebuild replaces it or leaves it, if
    the database answers after its promotion; a stored object answers only its tenant; no paragraph of a document is lost in chunking and
    chunks are well formed; one revision is active; a current document has its bytes.

    Conversations, onboarding and evaluation: a conversation is its last turns; a gap's key is
    its words; a turn is grounded in passages of the live build or refused, also over the
    graph, whose sources are ranked by the sum of their signals; a process has one engine and
    stored artifacts come back from its disk; a draft settles its session while
    nobody else touches it, and a domain has one draft at a time; only what was approved is
    published and one taxonomy is live, where no edit overlaps the approval; a version of a
    golden set is its content, labels tell who wrote an answer and every set is measured; a
    gate refuses regressions beyond its tolerance, where promotions do not overlap, and scores
    each item once; a verdict is the judge's or none, an evaluation promotes nothing,
    and drafts only fill blanks.

    The API as a whole: what the handler of a GET route answers depends on the caller's tenant
    alone and changes nothing; what the handler of a writing route does, even one that fails
    part way, no other tenant can see (three writing routes are left out, [elsewhere] of
    [Confined.v]); a cap binds from its change on.

    Where the code does not keep what it means to, the theorem carries the condition and an
    [Example] beside it shows what happens without it: [an_edit_outlives_its_status_check],
    [late_draft_overwrites_approved_bytes], [concurrent_promotions_regress],
    [tolerance_adds_up], [a_cancelled_draft_is_put_up_for_review],
    [overlapping_requests_both_draft], [a_repeated_key_blocks_the_domain],
    [a_twin_is_never_announced], [fault_after_promotion_empties_the_collection],
    [unchanged_answer_counts_as_an_edit], [a_nul_is_no_401] and the lemma
    [landed_and_raised_lands_again].

    * Parameters

    SHA-256 and SHA-1 (where a theorem needs them injective it names the collision instead),
    what a [jsonb] column gives back, [isoformat], the JWT library, the password hasher, the
    broker, workload handlers and tool handlers, path matching, JSON, UTF-8, HTML and CSV
    parsing, the tokenisers, the provider, the nearest-neighbour scan of pgvector, the month's
    start, [repr] of floats, the HMAC and the case folding of a login, the graph engine, its
    imports and its parser of taxonomies, PostgreSQL's text search, the existence of paths,
    whether PostgreSQL answers the function that sets caps, and the wording of reasons and log lines.  S3 is a map whose
    requests can fail, Redis a map with expiry times; the reply of the limiter's Redis script
    is an argument.  A theorem with a hypothesis on one of them has a witness in which it is a
    concrete function.

    * Fuel

    Loops over lists and rows are structural.  The retry loop of a model call is the code's
    three attempts ([dispatch_from 3]).  Batching ([groups], [batches]) recurses on fuel equal
    to the length of its list, each round consuming at least one element, so it is never short.
    The worker's and the relay's polling loops are not modelled: a theorem speaks of one pass,
    or of any list of them.

    * Not modelled

    Telemetry, logging and metrics; DDL, connection pools and role grants; Celery's and
    uvicorn's configuration and the process entry points; response rendering and the health
    probes; the graph engine's own code, a tree outside this repository, and the rebinding of
    its functions; scripts, tests and the web client.

    Retention: the pass over the audit trail is in [AuditTrail.v], the deletion of finished
    runs in [Lifecycle.v], those of expired sessions and of old gaps in [Sessions.v]
    and [Gaps.v].  The same function also deletes old evaluation runs, versions of golden sets, usage rows and budget reservations,
    which modelled code does read; these deletions are not modelled, and the theorems on
    [Datasets.v], [Gate.v], [Ledger.v] and [Budget.v] speak of histories without them.

    Concurrency: what others commit between two statements of one operation is an argument
    where the outcome hangs on it ([between] of [Outbox.v], [SideEffects.v], [Onboarding.v] and
    [Gate.v], [other] and [meanwhile] of [Drafting.v], [during] of [Llm.v]).  Otherwise an
    operation is one step; that is what its locks, its conditional updates or its constraints
    make of it, or, where it has none, the case in which nobody else writes its rows in
    between.  The driver refuses a string with a NUL; this is a guard where the string comes
    from a request ([no_nul], [jsonb_ok]). *)
From Stdlib Require Export ZArith QArith Qround Lia Bool Sorting.Sorted.
From Stdlib Require Ascii.
From stdpp Require Export base list strings relations gmap.
#[global] Close Scope Q_scope.
#[global] Open Scope string_scope.
#[global] Open Scope list_scope.
#[global] Open Scope Z_scope.

(** * Record update

    [UPDATE t SET a = x, b = y] touches some columns of a row and leaves the
    others: [r <| a := x |> <| b := y |>].  Each record declares its
    eta-expansion once ([Eta]); the setter of a field is read off from it. *)

Class Eta (R : Type) := eta : R → R.

Class Setter {R T : Type} (proj : R → T) := set_field : (T → T) → R → R.

Ltac derive_setter :=
  lazymatch goal with
  | |- @Setter ?R ?T ?proj =>
      let e := constr:(_ : Eta R) in
      let e := eval hnf in e in
      let p := eval pattern proj in e in
      lazymatch p with
      | ?g _ => exact (fun f => g (fun r => f (proj r)))
      end
  end.

#[export] Hint Extern 0 (Setter _) => derive_setter : typeclass_instances.

Declare Scope record_scope.
#[global] Open Scope record_scope.
Notation "r <| proj := v |>" := (set_field (proj := proj) (fun _ => v) r)
  (at level 1, left associativity, format "r  <| proj  :=  v |>") : record_scope.

(** * Values shared by every component *)

(** A [uuid] column.  The database draws it at random; operations that insert a
    row take the value drawn as an argument. *)
Abbreviation uuid := N (only parsing).

(** [timestamptz] and [interval] in microseconds, the resolution of both
    PostgreSQL and [datetime]. *)
Abbreviation timestamp := Z (only parsing).
Abbreviation interval := Z (only parsing).

Definition seconds (n : Z) : Z := n * 1000000.

(** What a [text] or [varchar] column, or a parameter compared with one, accepts. *)
Definition no_nul (s : string) : bool :=
  forallb (fun c => negb (Ascii.N_of_ascii c =? 0)%N) (String.list_ascii_of_string s).

(** The exceptions the modelled code raises or catches by type.  [OtherError]
    is any other subclass of [Exception], named by its class. *)
Inductive exn : Type :=
| ValueError (why : string)
| LookupError (why : string)
| PermissionError (why : string)
| RuntimeError (why : string)
| TypeError (why : string)
| IntegrityError (constraint : string)
| MultipleResultsFound
| RunCancelled
| EffectAlreadyRunning
| NeedsReconciliation (step : string) (attempt : Z)
| TransientError (retry_after : option Q)
| NotFoundError
| ConflictError
| BudgetExceededError
| CheckpointConflict
| NotAuthorized (reason : string)
| UnknownTool
| ToolConflict (why : string)
| ToolExecutionUnavailable (why : string)
| ApprovalRequired (approval : N)
| ApprovalInvalid
| AuditUnavailable
| NoLiveBuild
| SessionNotFound
| UnsupportedDocument
| HTTPException (status_code : Z)
| OtherError (class : string).

(** [type(exc).__name__]. *)
Definition exn_class (e : exn) : string :=
  match e with
  | ValueError _ => "ValueError"
  | LookupError _ => "LookupError"
  | PermissionError _ => "PermissionError"
  | RuntimeError _ => "RuntimeError"
  | TypeError _ => "TypeError"
  | IntegrityError _ => "IntegrityError"
  | MultipleResultsFound => "MultipleResultsFound"
  | RunCancelled => "RunCancelled"
  | EffectAlreadyRunning => "EffectAlreadyRunning"
  | NeedsReconciliation _ _ => "NeedsReconciliation"
  | TransientError _ => "TransientError"
  | NotFoundError => "NotFoundError"
  | ConflictError => "ConflictError"
  | BudgetExceededError => "BudgetExceededError"
  | CheckpointConflict => "CheckpointConflict"
  | NotAuthorized _ => "NotAuthorized"
  | UnknownTool => "UnknownTool"
  | ToolConflict _ => "ToolConflict"
  | ToolExecutionUnavailable _ => "ToolExecutionUnavailable"
  | ApprovalRequired _ => "ApprovalRequired"
  | ApprovalInvalid => "ApprovalInvalid"
  | AuditUnavailable => "AuditUnavailable"
  | NoLiveBuild => "NoLiveBuild"
  | SessionNotFound => "SessionNotFound"
  | UnsupportedDocument => "UnsupportedDocument"
  | HTTPException _ => "HTTPException"
  | OtherError c => c
  end.

(** [str(exc)], where the model carries the message. *)
Definition exn_str (e : exn) : string :=
  match e with
  | ValueError w | LookupError w | PermissionError w | RuntimeError w | TypeError w
  | IntegrityError w | NotAuthorized w | ToolConflict w | ToolExecutionUnavailable w => w
  | _ => ""
  end.

Inductive result (A : Type) : Type :=
| Ok (a : A)
| Raise (e : exn).
Arguments Ok {A} _.
Arguments Raise {A} _.

(** * Computations over a state that may raise

    [M S A] runs on a state and either returns or raises; the state it leaves
    behind is there in both cases.  [tx] is [with tenant_session(...)]: the
    block's writes commit when it returns and are rolled back when it raises. *)

Definition M (S A : Type) : Type := S → result A * S.

Definition ret {S A} (a : A) : M S A := fun s => (Ok a, s).

Definition raise {S A} (e : exn) : M S A := fun s => (Raise e, s).

Definition bind {S A B} (m : M S A) (k : A → M S B) : M S B :=
  fun s => match m s with
           | (Ok a, s') => k a s'
           | (Raise e, s') => (Raise e, s')
           end.

Definition get {S} : M S S := fun s => (Ok s, s).

Definition gets {S A} (f : S → A) : M S A := fun s => (Ok (f s), s).

Definition modify {S} (f : S → S) : M S unit := fun s => (Ok tt, f s).

Definition tx {S A} (m : M S A) : M S A :=
  fun s => match m s with
           | (Ok a, s') => (Ok a, s')
           | (Raise e, _) => (Raise e, s)
           end.

(** [try: m except E as e: h e] with [h e = None] for an exception the clause
    does not match. *)
Definition try_except {S A} (m : M S A) (h : exn → option (M S A)) : M S A :=
  fun s => match m s with
           | (Ok a, s') => (Ok a, s')
           | (Raise e, s') =>
               match h e with
               | Some k => k s'
               | None => (Raise e, s')
               end
           end.

(** [try: m finally: k]: [k] runs on the state [m] left, and [m]'s exception is
    re-raised unless [k] raises one of its own. *)
Definition try_finally {S A} (m : M S A) (k : M S unit) : M S A :=
  fun s => match m s with
           | (r, s') => match k s' with
                        | (Ok _, s'') => (r, s'')
                        | (Raise e, s'') => (Raise e, s'')
                        end
           end.

Definition when {S} (b : bool) (m : M S unit) : M S unit := if b then m else ret tt.

Definition guard {S} (b : bool) (e : exn) : M S unit := if b then ret tt else raise e.

Declare Scope monad_scope.
#[global] Open Scope monad_scope.
Notation "x <- m ;; k" := (bind m (fun x => k))
  (at level 100, m at next level, right associativity) : monad_scope.
Notation "m ;; k" := (bind m (fun _ => k))
  (at level 100, right associativity) : monad_scope.

Fixpoint for_each {S A} (xs : list A) (body : A → M S unit) : M S unit :=
  match xs with
  | [] => ret tt
  | x :: xs => body x ;; for_each xs body
  end.

(** * Tables

    A table is the list of its rows in physical order.  The operators below are
    the clauses of the SQL statements the code sends. *)

Definition select_where {A} (p : A → bool) (t : list A) : list A := List.filter p t.

Definition update_where {A} (p : A → bool) (f : A → A) (t : list A) : list A :=
  map (fun r => if p r then f r else r) t.

Definition delete_where {A} (p : A → bool) (t : list A) : list A :=
  List.filter (fun r => negb (p r)) t.

#[global] Arguments select_where : simpl never.
#[global] Arguments update_where : simpl never.
#[global] Arguments delete_where : simpl never.

(** [ORDER BY]: a stable insertion sort; [le] compares two rows by the listed
    keys, and rows it does not separate keep their physical order. *)
Fixpoint insert_by {A} (le : A → A → bool) (x : A) (l : list A) : list A :=
  match l with
  | [] => [x]
  | y :: l' => if le x y then x :: y :: l' else y :: insert_by le x l'
  end.

Fixpoint order_by {A} (le : A → A → bool) (l : list A) : list A :=
  match l with
  | [] => []
  | x :: l' => insert_by le x (order_by le l')
  end.

(** [.one_or_none()] and [.scalar_one_or_none()]. *)
Definition one_or_none {S A} (rows : list A) : M S (option A) :=
  match rows with
  | [] => ret None
  | [r] => ret (Some r)
  | _ => raise MultipleResultsFound
  end.

(** The [count] aggregate. *)
Definition count {A} (l : list A) : Z := Z.of_nat (length l).

Definition sum_Z (l : list Z) : Z := foldr Z.add 0 l.

Definition sum_Q (l : list Q) : Q := foldr Qplus 0%Q l.

(** [coalesce(max(x), d)]. *)
Definition max_or (d : Z) (l : list Z) : Z :=
  match l with
  | [] => d
  | x :: l' => foldr Z.max x l'
  end.

(** * Python values *)

(** Truthiness of an optional string: [None] and [""] are false. *)
Definition truthy (o : option string) : bool :=
  match o with
  | Some s => negb (String.eqb s "")
  | None => false
  end.

(** [a or b] on optional strings. *)
Definition py_or (a b : option string) : option string := if truthy a then a else b.

Definition is_some {A} (o : option A) : bool :=
  match o with Some _ => true | None => false end.

Definition is_none {A} (o : option A) : bool := negb (is_some o).

Definition coalesce {A} (o : option A) (d : A) : A :=
  match o with Some a => a | None => d end.

Definition coalesce_opt {A} (o d : option A) : option A :=
  match o with Some a => Some a | None => d end.

(** [s[:n]]. *)
Fixpoint str_take (n : Z) (s : string) : string :=
  match s with
  | EmptyString => ""
  | String c s' => if n <=? 0 then "" else String c (str_take (n - 1) s')
  end.

(** [s.startswith(p)]. *)
Fixpoint startswith (p s : string) : bool :=
  match p, s with
  | EmptyString, _ => true
  | String a p', String b s' => Ascii.eqb a b && startswith p' s'
  | String _ _, EmptyString => false
  end.

Definition str_len (s : string) : Z := Z.of_nat (String.length s).

(** [=] on a nullable column: NULL compares unequal to everything. *)
Definition eqb_opt {A} (eqb : A → A → bool) (o : option A) (a : A) : bool :=
  match o with Some b => eqb b a | None => false end.

(** [!=] in Python on optional values, where [None] equals [None]. *)
Definition opt_eqb {A} (eqb : A → A → bool) (o p : option A) : bool :=
  match o, p with
  | Some a, Some b => eqb a b
  | None, None => true
  | _, _ => false
  end.

(** * Rational arithmetic

    Python floats and PostgreSQL numerics are modelled as exact rationals. *)

Definition Qltb (a b : Q) : bool := negb (Qle_bool b a).

Definition Qmin_bool (a b : Q) : Q := if Qle_bool a b then a else b.

Definition Qmax_bool (a b : Q) : Q := if Qle_bool a b then b else a.

(** Round to the nearest integer, ties to even: [round(x)] and the conversion
    of seconds to microseconds in [timedelta]. *)
Definition round_half_even (q : Q) : Z :=
  let f := Qfloor q in
  let d := (q - inject_Z f)%Q in
  if Qltb d (1 # 2) then f
  else if Qltb (1 # 2) d then f + 1
  else if Z.even f then f else f + 1.

(** [timedelta(seconds=q)]. *)
Definition timedelta_seconds (q : Q) : Z := round_half_even (q * inject_Z 1000000).

(** [round(x, 4)]. *)
Definition round4 (q : Q) : Q := (round_half_even (q * inject_Z 10000) # 10000)%Q.

(** * Tactics *)

(** Case analysis on the scrutinee of a [match] or [if] of the goal (or of a
    hypothesis), keeping the equation. *)
Ltac break_goal :=
  match goal with
  | |- context [match ?x with _ => _ end] =>
      lazymatch x with
      | context [match _ with _ => _ end] => fail
      | _ => destruct x eqn:?
      end
  end.

Ltac break_hyp :=
  match goal with
  | H : context [match ?x with _ => _ end] |- _ =>
      lazymatch x with
      | context [match _ with _ => _ end] => fail
      | _ => destruct x eqn:?
      end
  end.

(** Boolean tests of the code to propositions. *)
Ltac bool_to_prop :=
  repeat match goal with
  | H : (_ && _)%bool = true |- _ => apply andb_prop in H; destruct H
  | H : (_ || _)%bool = false |- _ => apply orb_false_elim in H; destruct H
  | H : negb _ = true |- _ => apply negb_true_iff in H
  | H : negb _ = false |- _ => apply negb_false_iff in H
  | H : (_ =? _) = true |- _ => apply Z.eqb_eq in H
  | H : (_ =? _) = false |- _ => apply Z.eqb_neq in H
  | H : (_ <=? _) = true |- _ => apply Z.leb_le in H
  | H : (_ <=? _) = false |- _ => apply Z.leb_gt in H
  | H : (_ <? _) = true |- _ => apply Z.ltb_lt in H
  | H : (_ <? _) = false |- _ => apply Z.ltb_ge in H
  | H : (_ =? _)%N = true |- _ => apply N.eqb_eq in H
  | H : (_ =? _)%N = false |- _ => apply N.eqb_neq in H
  | H : (_ =? _)%string = true |- _ => apply String.eqb_eq in H
  | H : (_ =? _)%string = false |- _ => apply String.eqb_neq in H
  | H : bool_decide _ = true |- _ => apply bool_decide_eq_true in H
  | H : bool_decide _ = false |- _ => apply bool_decide_eq_false in H
  end.

(** Unfold the plumbing of [M] and reduce. *)
Ltac run_monad :=
  unfold bind, ret, raise, gets, get, modify, guard, when in *; cbn in *.


(** The value of a closed term, by one conversion the kernel evaluates. *)
Tactic Notation "computed" constr(t) "as" ident(E) :=
  let v := eval vm_compute in t in assert (E : t = v) by (vm_compute; reflexivity).

Ltac invc H := inversion H; subst; clear H.

(** * Tables: lemmas *)

Section tables.
Context {A : Type}.
Implicit Types (p : A → bool) (f : A → A) (t : list A).

Lemma length_update_where p f t : length (update_where p f t) = length t.
Proof. apply length_map. Qed.

Lemma in_update_where p f t r' :
  In r' (update_where p f t) ↔ ∃ r, In r t ∧ r' = if p r then f r else r.
Proof.
  unfold update_where. rewrite in_map_iff. split; intros (r & H1 & H2); eauto.
Qed.

Lemma in_delete_where p t r : In r (delete_where p t) ↔ In r t ∧ p r = false.
Proof. unfold delete_where. rewrite filter_In, negb_true_iff. done. Qed.

Lemma Forall_update_where (P : A → Prop) p f t :
  (∀ r, P r → p r = true → P (f r)) → Forall P t → Forall P (update_where p f t).
Proof.
  intros Hf. rewrite !List.Forall_forall. intros Ht r' Hr'.
  apply in_update_where in Hr' as (r & Hr & ->). destruct (p r) eqn:?; auto.
Qed.

Lemma Forall_delete_where (P : A → Prop) p t : Forall P t → Forall P (delete_where p t).
Proof.
  rewrite !List.Forall_forall. intros Ht r Hr.
  apply in_delete_where in Hr as [? _]. auto.
Qed.

Lemma map_update_where {K} (k : A → K) p f t :
  (∀ r, k (f r) = k r) → map k (update_where p f t) = map k t.
Proof.
  intros Hk. unfold update_where. rewrite map_map. apply map_ext.
  intros r. destruct (p r); auto.
Qed.

Lemma update_where_id p f t :
  (∀ r, In r t → p r = false) → update_where p f t = t.
Proof.
  intros H. unfold update_where. rewrite <- (map_id t) at 2.
  apply map_ext_in. intros r Hr. by rewrite (H r Hr).
Qed.

Lemma update_where_ext p q f g t :
  (∀ r, In r t → p r = q r ∧ (q r = true → f r = g r)) →
  update_where p f t = update_where q g t.
Proof.
  intros H. apply map_ext_in. intros r Hr. destruct (H r Hr) as [-> Hf].
  destruct (q r); auto.
Qed.

Lemma select_where_nil p t :
  select_where p t = [] ↔ ∀ r, In r t → p r = false.
Proof.
  unfold select_where. split.
  - intros H r Hr. destruct (p r) eqn:E; [|done].
    assert (Hin : In r (List.filter p t)) by (apply filter_In; auto).
    by rewrite H in Hin.
  - intros H. induction t as [|r t IH]; [done|]. cbn.
    rewrite (H r) by (left; done). apply IH. intros r' ?. apply H. by right.
Qed.

Lemma select_where_one p t r : select_where p t = [r] → In r t.
Proof. intros E. assert (H : In r (select_where p t)) by (rewrite E; by left). apply filter_In in H. apply H. Qed.

Lemma select_update_comm p q f t :
  (∀ r, In r t → p (f r) = p r) →
  select_where p (update_where q f t) = update_where q f (select_where p t).
Proof.
  unfold select_where, update_where. induction t as [|r t IH]; cbn; intros H; [done|].
  assert (Hr : p (if q r then f r else r) = p r) by (destruct (q r); auto).
  rewrite Hr. destruct (p r); cbn; rewrite IH; auto.
Qed.

(** Two passes of one idempotent update are one pass on the rows of either. *)
Lemma update_where_twice p q f t :
  (∀ r, f (f r) = f r) → (∀ r, p (f r) = p r) →
  update_where p f (update_where q f t) = update_where (fun r => q r || p r) f t.
Proof.
  intros Hf Hp. unfold update_where. rewrite map_map. apply map_ext. intros r.
  destruct (q r); cbn; [|done]. destruct (p (f r)); [apply Hf|done].
Qed.

Lemma select_delete_comm p q t :
  select_where p (delete_where q t) = delete_where q (select_where p t).
Proof.
  unfold select_where, delete_where. induction t as [|r t IH]; cbn; [done|].
  destruct (q r) eqn:Eq, (p r) eqn:Ep; cbn; rewrite ?Eq, ?Ep; cbn; by rewrite IH.
Qed.

Lemma delete_where_id p t : (∀ r, In r t → p r = false) → delete_where p t = t.
Proof.
  unfold delete_where. induction t as [|r t IH]; cbn; intros H; [done|].
  rewrite (H r) by (by left). cbn. rewrite IH; auto.
Qed.

Lemma delete_where_all p t : (∀ r, In r t → p r = true) → delete_where p t = [].
Proof.
  unfold delete_where. induction t as [|r t IH]; cbn; intros H; [done|].
  rewrite (H r) by (by left). cbn. apply IH; auto.
Qed.

Lemma delete_where_twice p q t : delete_where p (delete_where q t) = delete_where (fun r => q r || p r) t.
Proof.
  unfold delete_where. induction t as [|r t IH]; cbn; [done|].
  destruct (q r); cbn; [done|]. destruct (p r); cbn; by rewrite IH.
Qed.

Lemma delete_update_same q p f t : (∀ r, p r = true → q r = true) → (∀ r, q (f r) = q r) →
  delete_where q (update_where p f t) = delete_where q t.
Proof.
  intros Hp Hf. unfold delete_where, update_where. induction t as [|r t IH]; cbn; [done|].
  destruct (p r) eqn:E; rewrite ?Hf, IH; [|done]. by rewrite (Hp r E).
Qed.

Lemma select_update_same q p f t : (∀ r, p r = true → q r = false ∧ q (f r) = false) →
  select_where q (update_where p f t) = select_where q t.
Proof.
  intros H. unfold select_where, update_where. induction t as [|r t IH]; cbn; [done|].
  destruct (p r) eqn:E; rewrite IH; [|done]. by destruct (H r E) as [-> ->].
Qed.

Lemma delete_where_app p t t' : delete_where p (t ++ t') = delete_where p t ++ delete_where p t'.
Proof. apply List.filter_app. Qed.

Lemma select_where_app p t t' : select_where p (t ++ t') = select_where p t ++ select_where p t'.
Proof. apply List.filter_app. Qed.

(** A row found by its key: under a unique key, the only one. *)
Lemma key_unique {K} (k : A → K) t r r' :
  List.NoDup (map k t) → In r t → In r' t → k r = k r' → r = r'.
Proof.
  induction t as [|x t IH]; cbn; [done|].
  intros Hnd Hr Hr' Hk. invc Hnd.
  destruct Hr as [->|Hr], Hr' as [->|Hr']; auto.
  - exfalso. apply H1. rewrite Hk. by apply in_map.
  - exfalso. apply H1. rewrite <- Hk. by apply in_map.
Qed.

Lemma NoDup_map_filter {K} (k : A → K) p t :
  List.NoDup (map k t) → List.NoDup (map k (List.filter p t)).
Proof.
  induction t as [|x t IH]; cbn; [auto|]. intros Hnd. invc Hnd.
  destruct (p x); cbn; auto. constructor; auto.
  intros Hin. apply H1. apply in_map_iff in Hin as (y & Hy & Hin).
  apply filter_In in Hin as [Hin _]. rewrite <- Hy. by apply in_map.
Qed.

(** [WHERE id = :id]-style selections return at most one row. *)
Lemma select_by_key {K} (k : A → K) p t r :
  List.NoDup (map k t) → In r t → p r = true →
  (∀ r', In r' t → p r' = true → k r' = k r) → select_where p t = [r].
Proof.
  intros Hnd Hr Hp Hk. unfold select_where.
  assert (Hall : ∀ x, In x (List.filter p t) → x = r).
  { intros x Hx. apply filter_In in Hx as [Hx Hpx].
    apply (key_unique k t); auto. }
  assert (Hin : In r (List.filter p t)) by (apply filter_In; auto).
  pose proof (NoDup_map_filter k p t Hnd) as Hnd'.
  destruct (List.filter p t) as [|x [|y l]]; [done| |].
  - f_equal. apply Hall. by left.
  - exfalso. invc Hnd'. apply H1. rewrite (Hall x), (Hall y); cbn; auto.
Qed.

End tables.

Section ordering.
Context {A : Type} (le : A → A → bool).

Lemma insert_by_perm x l : Permutation (insert_by le x l) (x :: l).
Proof.
  induction l as [|y l IH]; cbn; [done|]. destruct (le x y); [done|].
  rewrite IH. constructor.
Qed.

Lemma order_by_perm l : Permutation (order_by le l) l.
Proof.
  induction l as [|x l IH]; cbn; [done|]. by rewrite insert_by_perm, IH.
Qed.

Lemma in_order_by x l : In x (order_by le l) ↔ In x l.
Proof.
  split; apply Permutation_in; [|symmetry]; apply order_by_perm.
Qed.

(** A row that comes strictly before every other one heads the ordered list. *)
Lemma order_by_snoc_first l x :
  (∀ y, In y l → le y x = false) → order_by le (l ++ [x]) = x :: order_by le l.
Proof.
  induction l as [|y l IH]; intros H; [done|]. cbn. rewrite IH by (intros z Hz; apply H; by right).
  cbn. by rewrite (H y) by (by left).
Qed.

(** Rows already in order stay where they are; rows in strictly descending order
    come out reversed. *)
Lemma order_by_in_order l : StronglySorted (fun a b => le a b = true) l → order_by le l = l.
Proof.
  induction 1 as [|x l _ IH Hx]; cbn; [done|]. rewrite IH.
  destruct l as [|y l]; cbn; [done|]. invc Hx. by rewrite H1.
Qed.

Lemma insert_by_last x l : Forall (fun y => le x y = false) l → insert_by le x l = l ++ [x].
Proof. induction 1 as [|y l Hy _ IH]; cbn; [done|]. by rewrite Hy, IH. Qed.

Lemma order_by_descending l : StronglySorted (fun a b => le a b = false) l → order_by le l = rev l.
Proof.
  induction 1 as [|x l _ IH Hx]; cbn; [done|]. rewrite IH. apply insert_by_last.
  rewrite List.Forall_forall in *. intros y Hy. apply Hx. by apply in_rev.
Qed.

Hypothesis le_total : ∀ x y, le x y = true ∨ le y x = true.
Hypothesis le_trans : ∀ x y z, le x y = true → le y z = true → le x z = true.

Lemma insert_by_sorted x l :
  StronglySorted (fun a b => le a b = true) l →
  StronglySorted (fun a b => le a b = true) (insert_by le x l).
Proof using le_total le_trans.
  induction 1 as [|y l Hs IH Hy]; cbn.
  { repeat constructor. }
  destruct (le x y) eqn:E.
  - constructor; [by constructor|]. constructor; [done|].
    eapply List.Forall_impl; [|exact Hy]. eauto.
  - constructor; [done|]. apply List.Forall_forall. intros z Hz.
    apply (Permutation_in _ (insert_by_perm x l)) in Hz as [<-|Hz].
    + destruct (le_total x y); congruence.
    + rewrite List.Forall_forall in Hy. auto.
Qed.

Lemma order_by_sorted l : StronglySorted (fun a b => le a b = true) (order_by le l).
Proof using le_total le_trans.
  induction l as [|x l IH]; cbn; [constructor|]. by apply insert_by_sorted.
Qed.

(** The first row of an ordered query precedes every row of the table. *)
Lemma order_by_head x l rest y :
  order_by le l = x :: rest → In y l → x = y ∨ le x y = true.
Proof using le_total le_trans.
  intros E Hy. pose proof (order_by_sorted l) as Hs. rewrite E in Hs. invc Hs.
  apply in_order_by in Hy. rewrite E in Hy. destruct Hy as [->|Hy]; [by left|right].
  rewrite List.Forall_forall in H2. auto.
Qed.

End ordering.

Lemma firstn_subset {A} n (l : list A) x : In x (firstn n l) → In x l.
Proof. intros Hx. rewrite <- (firstn_skipn n l). apply in_app_iff. by left. Qed.

Lemma NoDup_firstn {A} n (l : list A) : List.NoDup l → List.NoDup (firstn n l).
Proof. intros H. rewrite <- (firstn_skipn n l) in H. by apply List.NoDup_app_remove_r in H. Qed.

Section sorted.
Context {A : Type} (R : A → A → Prop).

Lemma StronglySorted_filter p l : StronglySorted R l → StronglySorted R (List.filter p l).
Proof.
  induction 1 as [|x l _ IH Hx]; cbn; [constructor|]. destruct (p x); [|done].
  constructor; [done|]. rewrite List.Forall_forall in *. intros y Hy.
  apply filter_In in Hy as [Hy _]. auto.
Qed.

Lemma StronglySorted_snoc l x : StronglySorted R l → Forall (fun y => R y x) l →
  StronglySorted R (l ++ [x]).
Proof.
  induction 1 as [|y l _ IH Hy]; intros Hx; cbn; [repeat constructor|]. invc Hx.
  constructor; [auto|]. apply Forall_app. split; [done|]. by constructor.
Qed.

Lemma StronglySorted_mid l x l' : StronglySorted R (l ++ x :: l') →
  Forall (fun y => R y x) l ∧ Forall (R x) l'.
Proof.
  induction l as [|y l IH]; cbn; intros H; invc H.
  - done.
  - destruct (IH H2) as [H4 H5]. split; [|done]. constructor; [|done].
    rewrite List.Forall_forall in H3. apply H3, in_app_iff. right. by left.
Qed.

Lemma StronglySorted_weaken (R' : A → A → Prop) l :
  (∀ a b, R a b → R' a b) → StronglySorted R l → StronglySorted R' l.
Proof.
  intros H. induction 1 as [|x l _ IH Hx]; constructor; auto.
  eapply List.Forall_impl; [|exact Hx]. auto.
Qed.

Lemma firstn_sorted n l : StronglySorted R l → StronglySorted R (firstn n l).
Proof.
  intros H. revert n. induction H as [|x l _ IH Hx]; intros [|n]; cbn; constructor; [done|].
  rewrite List.Forall_forall in *. intros y Hy. by apply Hx, (firstn_subset n).
Qed.

End sorted.

Lemma NoDup_snoc {A} (l : list A) x : List.NoDup l → ¬ In x l → List.NoDup (l ++ [x]).
Proof.
  intros Hl Hx. apply (Permutation_NoDup (Permutation_cons_append l x)). by constructor.
Qed.

(** * The monad: lemmas *)

(** A list without repeated keys is sorted by them in one way only. *)
Lemma sorted_by_key_unique {A K} (k : A → K) (le : A → A → bool) (l l' : list A) :
  (∀ x y, le x y = true → le y x = true → k x = k y) →
  StronglySorted (fun x y => le x y = true) l → StronglySorted (fun x y => le x y = true) l' →
  Permutation l l' → List.NoDup (map k l) → l = l'.
Proof.
  intros Ha Hl. revert l'. induction Hl as [|x l Hs IH Hx]; intros l' Hl' Hp Hnd.
  { by apply Permutation_nil in Hp. }
  destruct Hl' as [|y l' Hs' Hy]; [by apply Permutation_sym, Permutation_nil in Hp|].
  assert (x = y) as <-.
  { assert (Hxin : In x (y :: l')) by (apply (Permutation_in _ Hp); by left).
    assert (Hyin : In y (x :: l)) by (apply (Permutation_in _ (Permutation_sym Hp)); by left).
    rewrite List.Forall_forall in Hx, Hy.
    destruct Hxin as [->|Hxin]; [done|]. destruct Hyin as [->|Hyin]; [done|].
    apply (key_unique k (x :: l)); [done|by left|by right|].
    apply Ha; [by apply Hx|by apply Hy]. }
  f_equal. apply IH; [done|by eapply Permutation_cons_inv|by invc Hnd].
Qed.

Lemma tx_raise {S A} (m : M S A) s e s' : tx m s = (Raise e, s') → s' = s.
Proof. unfold tx. destruct (m s) as [[a|e'] s'']; congruence. Qed.

Lemma tx_ok {S A} (m : M S A) s a s' : tx m s = (Ok a, s') ↔ m s = (Ok a, s').
Proof. unfold tx. destruct (m s) as [[a'|e'] s'']; split; congruence. Qed.

Lemma bind_assoc_eq {S A B C} (m : M S A) (k : A → M S B) (h : B → M S C) s :
  (a <- m ;; b <- k a ;; h b) s = (b <- (a <- m ;; k a) ;; h b) s.
Proof. unfold bind. by destruct (m s) as [[a|e] s']. Qed.

Lemma run_bind {S A B} (m : M S A) (k : A → M S B) s a s' :
  m s = (Ok a, s') → bind m k s = k a s'.
Proof. intros E. unfold bind. by rewrite E. Qed.

Lemma run_bind_raise {S A B} (m : M S A) (k : A → M S B) s e s' :
  m s = (Raise e, s') → bind m k s = (Raise e, s').
Proof. intros E. unfold bind. by rewrite E. Qed.

Lemma bind_ok {S A B} (m : M S A) (k : A → M S B) s b s' :
  bind m k s = (Ok b, s') → ∃ a s1, m s = (Ok a, s1) ∧ k a s1 = (Ok b, s').
Proof. unfold bind. destruct (m s) as [[a|e] s1]; [eauto|congruence]. Qed.

Lemma bind_cases {S A B} (m : M S A) (k : A → M S B) s r s' : bind m k s = (r, s') →
  (∃ e, m s = (Raise e, s') ∧ r = Raise e) ∨ ∃ a s1, m s = (Ok a, s1) ∧ k a s1 = (r, s').
Proof. unfold bind. destruct (m s) as [[a|e] s1]; [eauto|]. intros [= <- <-]. eauto. Qed.

Lemma one_or_none_same {S A} (l : list A) (s : S) r s' : one_or_none l s = (r, s') → s' = s.
Proof. unfold one_or_none. destruct l as [|x [|y l]]; by intros [= _ <-]. Qed.

(** An invariant of the state is one of a computation when every step of it
    keeps it, whether it returns or raises. *)
Definition preserves {S A} (I : S → Prop) (m : M S A) : Prop :=
  ∀ s, I s → I (snd (m s)).

Section preserves.
Context {S : Type} (I : S → Prop).

Lemma preserves_ret {A} (a : A) : preserves I (ret a).
Proof. by intros s. Qed.

Lemma preserves_raise {A} e : preserves I (raise (A := A) e).
Proof. by intros s. Qed.

Lemma preserves_get : preserves I (get (S := S)).
Proof. by intros s. Qed.

Lemma preserves_gets {A} (f : S → A) : preserves I (gets f).
Proof. by intros s. Qed.

Lemma preserves_modify f : (∀ s, I s → I (f s)) → preserves I (modify f).
Proof. unfold preserves, modify; cbn; auto. Qed.

Lemma preserves_guard b e : preserves I (guard b e).
Proof. unfold preserves, guard; destruct b; done. Qed.

Lemma preserves_when b m : preserves I m → preserves I (when b m).
Proof. unfold preserves, when; destruct b; cbn; auto. Qed.

Lemma preserves_one_or_none {A} (l : list A) : preserves I (one_or_none l).
Proof. by destruct l as [|? [|]]; intros s. Qed.

Lemma preserves_bind {A B} (m : M S A) (k : A → M S B) :
  preserves I m → (∀ a, preserves I (k a)) → preserves I (bind m k).
Proof.
  intros Hm Hk s Hs. specialize (Hm s Hs). unfold bind.
  destruct (m s) as [[a|e] s']; cbn in *; [by apply Hk|done].
Qed.

Lemma preserves_tx {A} (m : M S A) : preserves I m → preserves I (tx m).
Proof.
  intros Hm s Hs. specialize (Hm s Hs). unfold tx.
  by destruct (m s) as [[a|e] s'].
Qed.

Lemma preserves_try_except {A} (m : M S A) h :
  preserves I m → (∀ e k, h e = Some k → preserves I k) → preserves I (try_except m h).
Proof.
  intros Hm Hh s Hs. specialize (Hm s Hs). unfold try_except.
  destruct (m s) as [[a|e] s']; cbn in *; [done|].
  destruct (h e) as [k|] eqn:E; [|done]. by apply (Hh e k).
Qed.

Lemma preserves_try_finally {A} (m : M S A) k :
  preserves I m → preserves I k → preserves I (try_finally m k).
Proof.
  intros Hm Hk s Hs. specialize (Hm s Hs). unfold try_finally.
  destruct (m s) as [r s']; cbn in *. specialize (Hk s' Hm).
  by destruct (k s') as [[a|e] s''].
Qed.

Lemma preserves_for_each {A} (xs : list A) body :
  (∀ x, preserves I (body x)) → preserves I (for_each xs body).
Proof.
  intros Hb. induction xs as [|x xs IH]; cbn; [apply preserves_ret|].
  apply preserves_bind; auto.
Qed.

End preserves.

Create HintDb platform.
#[export] Hint Resolve preserves_ret preserves_raise preserves_get preserves_gets
  preserves_guard preserves_one_or_none preserves_bind preserves_tx preserves_when
  preserves_try_finally preserves_for_each : platform.
#[export] Hint Resolve Forall_update_where Forall_delete_where : platform.

(** * Rounding *)

Lemma Qltb_true a b : Qltb a b = true ↔ (a < b)%Q.
Proof.
  unfold Qltb. rewrite negb_true_iff. split; intros H.
  - apply Qnot_le_lt. intros Hle. apply Qle_bool_iff in Hle. congruence.
  - destruct (Qle_bool b a) eqn:E; [|done]. apply Qle_bool_iff in E.
    exfalso. by apply (Qlt_not_le _ _ H).
Qed.

Lemma Qltb_false a b : Qltb a b = false ↔ (b <= a)%Q.
Proof. unfold Qltb. rewrite negb_false_iff. apply Qle_bool_iff. Qed.

Lemma round_half_even_bounds q :
  (Qfloor q <= round_half_even q <= Qfloor q + 1)%Z.
Proof. unfold round_half_even. repeat break_goal; lia. Qed.

Lemma round_half_even_mono a b : (a <= b)%Q → round_half_even a <= round_half_even b.
Proof.
  intros Hab. pose proof (Qfloor_resp_le _ _ Hab) as Hf.
  destruct (Z.eq_dec (Qfloor a) (Qfloor b)) as [E|E].
  - unfold round_half_even. rewrite <- E.
    destruct (Qltb (a - inject_Z (Qfloor a)) (1 # 2)) eqn:Ea1.
    { repeat break_goal; lia. }
    apply Qltb_false in Ea1.
    destruct (Qltb (b - inject_Z (Qfloor a)) (1 # 2)) eqn:Eb1.
    { apply Qltb_true in Eb1. exfalso. apply (Qlt_not_le _ _ Eb1).
      eapply Qle_trans; [exact Ea1|]. apply Qplus_le_compat; [done|apply Qle_refl]. }
    destruct (Qltb (1 # 2) (a - inject_Z (Qfloor a))) eqn:Ea2.
    { assert (Qltb (1 # 2) (b - inject_Z (Qfloor a)) = true) as ->; [|lia].
      apply Qltb_true in Ea2. apply Qltb_true. eapply Qlt_le_trans; [exact Ea2|].
      apply Qplus_le_compat; [done|apply Qle_refl]. }
    repeat break_goal; lia.
  - pose proof (round_half_even_bounds a). pose proof (round_half_even_bounds b). lia.
Qed.

Lemma round_half_even_int n : round_half_even (inject_Z n) = n.
Proof.
  unfold round_half_even. rewrite Qfloor_Z.
  assert (Qltb (inject_Z n - inject_Z n) (1 # 2) = true) as ->; [|done].
  apply Qltb_true. unfold Qminus. rewrite Qplus_opp_r. reflexivity.
Qed.

#[export] Instance round_half_even_proper : Proper (Qeq ==> eq) round_half_even.
Proof.
  intros a b E. apply Z.le_antisymm; apply round_half_even_mono; rewrite E; apply Qle_refl.
Qed.

Lemma round_half_even_nonneg q : (0 <= q)%Q → 0 <= round_half_even q.
Proof. intros H. rewrite <- (round_half_even_int 0). by apply round_half_even_mono. Qed.

(** * Sums *)

Lemma sum_Z_app l1 l2 : sum_Z (l1 ++ l2) = sum_Z l1 + sum_Z l2.
Proof. unfold sum_Z. induction l1 as [|x l IH]; cbn; lia. Qed.

Lemma sum_Z_nonneg l : Forall (fun x => 0 <= x) l → 0 <= sum_Z l.
Proof. unfold sum_Z. induction 1; cbn; lia. Qed.

Lemma max_or_ge d l x : In x l → x <= max_or d l.
Proof.
  destruct l as [|y l]; cbn; [done|]. intros [->|Hx].
  - induction l; cbn; lia.
  - induction l as [|z l IH]; cbn in *; [done|]. destruct Hx as [->|Hx]; [lia|].
    specialize (IH Hx). lia.
Qed.

Lemma max_or_in d l : l ≠ [] → In (max_or d l) l.
Proof.
  destruct l as [|y l]; [done|]. intros _. cbn [max_or].
  induction l as [|z l IH]; cbn [foldr]; [by left|].
  destruct (Z.max_spec z (foldr Z.max y l)) as [[_ ->]|[_ ->]].
  - destruct IH as [IH|IH]; [left; exact IH|]. right. by right.
  - right. by left.
Qed.
