(* ===== verification/Identity.v ===== *)
(** Who acts and on whose behalf: [platform_core/identity/principal.py].

    Roles, tenants, principals and the request context that flows from ingress
    through the queue to the model call.  A [str] is a sequence of code points
    below 256; [str.isalnum] is its restriction to that range's ASCII part, the
    only letters and digits the [tenant_slug_format] constraint admits. *)
From Stdlib Require Import Ascii.
From S2P Require Import Prelude.

Inductive Role := OWNER | OPERATOR | REVIEWER | VIEWER | SERVICE.

#[export] Instance role_eq_dec : EqDecision Role.
Proof. solve_decision. Defined.

Definition role_value (r : Role) : string :=
  match r with
  | OWNER => "owner"
  | OPERATOR => "operator"
  | REVIEWER => "reviewer"
  | VIEWER => "viewer"
  | SERVICE => "service"
  end.

Inductive ActorType := HUMAN | SERVICE_ACTOR | JOB.

#[export] Instance actor_type_eq_dec : EqDecision ActorType.
Proof. solve_decision. Defined.

Definition actor_type_value (a : ActorType) : string :=
  match a with
  | HUMAN => "human"
  | SERVICE_ACTOR => "service"
  | JOB => "job"
  end.

(** [str(uuid)]: thirty-two hexadecimal digits in groups of 8-4-4-4-12. *)
Definition hex_digit (n : N) : Ascii.ascii :=
  Ascii.ascii_of_N (if (n <? 10)%N then 48 + n else 87 + n)%N.

Fixpoint hex_digits (k : nat) (n : N) (acc : string) : string :=
  match k with
  | O => acc
  | S k' => hex_digits k' (n / 16)%N (String (hex_digit (n mod 16)%N) acc)
  end.

Definition uuid_str (u : uuid) : string :=
  let h := hex_digits 32 u "" in
  String.substring 0 8 h +:+ "-" +:+ String.substring 8 4 h +:+ "-" +:+
  String.substring 12 4 h +:+ "-" +:+ String.substring 16 4 h +:+ "-" +:+
  String.substring 20 12 h.

Record Tenant := mkTenant { tenant_uuid : uuid; slug : string }.

Definition is_alnum_char (c : Ascii.ascii) : bool :=
  let n := Ascii.N_of_ascii c in
  ((48 <=? n) && (n <=? 57) || (65 <=? n) && (n <=? 90) || (97 <=? n) && (n <=? 122))%N.

(** [s.replace("-", "").replace("_", "")]. *)
Fixpoint strip_separators (s : string) : string :=
  match s with
  | "" => ""
  | String c s' =>
      if (Ascii.eqb c "-"%char || Ascii.eqb c "_"%char)%bool then strip_separators s'
      else String c (strip_separators s')
  end.

Fixpoint all_chars (p : Ascii.ascii → bool) (s : string) : bool :=
  match s with
  | "" => true
  | String c s' => p c && all_chars p s'
  end.

(** [str.isalnum]: at least one character, and every one a letter or digit. *)
Definition isalnum (s : string) : bool :=
  negb (String.eqb s "") && all_chars is_alnum_char s.

(** [Tenant.__post_init__]: construction raises on a malformed slug. *)
Definition new_Tenant (id : uuid) (s : string) : result Tenant :=
  if negb (String.eqb s "") && isalnum (strip_separators s) then Ok (mkTenant id s)
  else Raise (ValueError "tenant slug must be alphanumeric with - or _").

Record Principal := mkPrincipal {
  principal_uuid : uuid;
  principal_tenant : Tenant;
  subject : string;
  roles : list Role;
  actor_type : ActorType
}.

#[export] Instance eta_principal : Eta Principal := fun p =>
  mkPrincipal (principal_uuid p) (principal_tenant p) (subject p) (roles p) (actor_type p).

Definition mem_role (r : Role) (rs : list Role) : bool :=
  existsb (fun x => bool_decide (x = r)) rs.

Definition has_role (p : Principal) (rs : list Role) : bool :=
  existsb (fun r => mem_role r (roles p)) rs.

Definition is_owner (p : Principal) : bool := mem_role OWNER (roles p).

Definition as_service (p : Principal) (name : string) : Principal :=
  p <| subject := "service:" +:+ name |>
    <| actor_type := SERVICE_ACTOR |>
    <| roles := [SERVICE] |>.

Definition audit_ref (p : Principal) : gmap string string :=
  <["principal_id" := uuid_str (principal_uuid p)]>
  (<["tenant_id" := uuid_str (tenant_uuid (principal_tenant p))]>
  (<["tenant_slug" := slug (principal_tenant p)]>
  (<["actor_type" := actor_type_value (actor_type p)]> ∅))).

Record RequestContext := mkContext {
  principal : Principal;
  request_id : uuid;
  run_id : option uuid;
  idempotency_key : option string;
  correlation_id : option uuid;
  causation_id : option uuid;
  ctx_started_at : timestamp;
  labels : gmap string string
}.

#[export] Instance eta_context : Eta RequestContext := fun c =>
  mkContext (principal c) (request_id c) (run_id c) (idempotency_key c)
    (correlation_id c) (causation_id c) (ctx_started_at c) (labels c).

Definition ctx_tenant (c : RequestContext) : Tenant := principal_tenant (principal c).

Definition tenant_of (c : RequestContext) : uuid := tenant_uuid (ctx_tenant c).

(** [child(step=..., **extra)], the fresh [uuid4()] an argument. *)
Definition child (c : RequestContext) (fresh : uuid) (step : string)
    (extra : gmap string string) : RequestContext :=
  c <| request_id := fresh |>
    <| causation_id := Some (request_id c) |>
    <| correlation_id := Some (coalesce (correlation_id c) (request_id c)) |>
    <| labels := extra ∪ <["step" := step]> (labels c) |>.

Definition run_id_str (r : option uuid) : string :=
  match r with Some u => uuid_str u | None => "None" end.

Definition cost_dimensions (c : RequestContext) : gmap string string :=
  filter (fun kv => kv.2 ≠ "") (labels c) ∪
  (<["tenant_id" := uuid_str (tenant_of c)]>
  (<["tenant_slug" := slug (ctx_tenant c)]>
  (<["principal_id" := uuid_str (principal_uuid (principal c))]>
  (<["run_id" := run_id_str (run_id c)]> ∅)))).

(** * Lemmas *)

Lemma mem_role_spec r rs : mem_role r rs = true ↔ In r rs.
Proof.
  unfold mem_role. rewrite existsb_exists. split.
  - intros (x & Hx & E). bool_to_prop. by subst.
  - intros H. exists r. split; [done|]. by apply bool_decide_eq_true.
Qed.

Lemma has_role_spec p rs : has_role p rs = true ↔ ∃ r, In r rs ∧ In r (roles p).
Proof.
  unfold has_role. rewrite existsb_exists. setoid_rewrite mem_role_spec. done.
Qed.

(** A derived context stays inside the tenant and the run of its parent. *)
Lemma child_scope c fresh step extra :
  ctx_tenant (child c fresh step extra) = ctx_tenant c ∧
  run_id (child c fresh step extra) = run_id c ∧
  is_some (correlation_id (child c fresh step extra)) = true.
Proof. by destruct c. Qed.

(** A service principal keeps its tenant and none of its authority. *)
Lemma as_service_scope p name r :
  principal_tenant (as_service p name) = principal_tenant p ∧
  (has_role (as_service p name) [r] = true ↔ r = SERVICE).
Proof.
  split; [done|]. rewrite has_role_spec. cbn. split.
  - intros (x & [->|[]] & [->|[]]). done.
  - intros ->. exists SERVICE. split; by left.
Qed.

Lemma cost_dimensions_lookup c k v :
  labels c !! k = Some v → v ≠ "" → cost_dimensions c !! k = Some v.
Proof.
  intros Hk Hv. unfold cost_dimensions. apply lookup_union_Some_l.
  by apply map_lookup_filter_Some.
Qed.

Lemma cost_dimensions_default c k :
  (∀ v, labels c !! k = Some v → v = "") →
  cost_dimensions c !! k =
  (<["tenant_id" := uuid_str (tenant_of c)]>
  (<["tenant_slug" := slug (ctx_tenant c)]>
  (<["principal_id" := uuid_str (principal_uuid (principal c))]>
  (<["run_id" := run_id_str (run_id c)]> (∅ : gmap string string))))) !! k.
Proof.
  intros H. unfold cost_dimensions. apply lookup_union_r.
  apply map_lookup_filter_None. right. intros v Hv Hne. by apply Hne, (H v).
Qed.

Lemma length_hex_digits k n rest : String.length (hex_digits k n rest) = (k + String.length rest)%nat.
Proof. revert n rest. induction k as [|k IH]; intros n rest; [done|]. cbn [hex_digits]. rewrite IH. cbn. lia. Qed.

(** * A small world the examples of the development are stated in *)

Module Demo.
Definition tenant_a : Tenant := mkTenant 1 "acme".
Definition tenant_b : Tenant := mkTenant 2 "globex".
Definition alice : Principal := mkPrincipal 11 tenant_a "alice@acme.test" [OWNER] HUMAN.
Definition bob : Principal := mkPrincipal 12 tenant_a "bob@acme.test" [REVIEWER] HUMAN.
Definition ctx : RequestContext :=
  mkContext alice 100 None (Some "k1") None None 0 (<["workload" := "echo"]> ∅).
End Demo.
