(* ===== verification/Json.v ===== *)
(** JSON values and the canonical text the digests are taken of.

    [json.dumps] is called in two configurations that matter for identity:
    [sort_keys=True, separators=(",", ":")] with [ensure_ascii] on
    (audit digests, dataset fingerprints, cache keys) and off (tool arguments and
    checkpoint state, then encoded as UTF-8).  A [str] is a sequence of code
    points below 256; a float is carried by its [repr], the text [json.dumps]
    prints for it.  A Python dict is the list of its items in insertion order. *)
From Stdlib Require Import Ascii.
From stdpp Require Import pretty.
From S2P Require Import Prelude.

Inductive json :=
| JNull
| JBool (b : bool)
| JInt (n : Z)
| JFloat (repr : string)
| JStr (s : string)
| JArr (l : list json)
| JObj (kvs : list (string * json)).

(** * Canonical form *)

Definition key_le (a b : string * json) : bool := String.leb a.1 b.1.

(** [sort_keys=True]: every object's items by key. *)
Fixpoint canonical (v : json) : json :=
  match v with
  | JArr l => JArr (map canonical l)
  | JObj kvs =>
      JObj (order_by key_le
        (map (fun kv => match kv with (k, x) => (k, canonical x) end) kvs))
  | _ => v
  end.

(** * Text *)

Definition byte (n : N) : string := String (ascii_of_N n) "".

Definition lower_hex (n : N) : ascii :=
  ascii_of_N (if (n <? 10)%N then 48 + n else 87 + n)%N.

Definition unicode_escape (n : N) : string :=
  "\u00" +:+ String (lower_hex (n / 16)) (String (lower_hex (n mod 16)) "").

(** One character inside a JSON string literal. *)
Definition escape_char (ensure_ascii : bool) (c : ascii) : string :=
  let n := N_of_ascii c in
  if (n =? 34)%N then String "\" (byte 34)
  else if (n =? 92)%N then "\\"
  else if (n =? 10)%N then "\n"
  else if (n =? 13)%N then "\r"
  else if (n =? 9)%N then "\t"
  else if (n =? 12)%N then "\f"
  else if (n =? 8)%N then "\b"
  else if (n <? 32)%N then unicode_escape n
  else if ensure_ascii && (126 <? n)%N then unicode_escape n
  else String c "".

Fixpoint escape (ensure_ascii : bool) (s : string) : string :=
  match s with
  | "" => ""
  | String c s' => escape_char ensure_ascii c +:+ escape ensure_ascii s'
  end.

Definition dumps_str (ensure_ascii : bool) (s : string) : string :=
  byte 34 +:+ (escape ensure_ascii s +:+ byte 34).

Fixpoint join (sep : string) (l : list string) : string :=
  match l with
  | [] => ""
  | [x] => x
  | x :: l' => x +:+ (sep +:+ join sep l')
  end.

(** [json.dumps(v, separators=("," + sp, ":" + sp))]. *)
Fixpoint dumps_sp (sp : string) (ensure_ascii : bool) (v : json) : string :=
  match v with
  | JNull => "null"
  | JBool true => "true"
  | JBool false => "false"
  | JInt n => pretty n
  | JFloat r => r
  | JStr s => dumps_str ensure_ascii s
  | JArr l => "[" +:+ (join (String "," sp) (map (dumps_sp sp ensure_ascii) l) +:+ "]")
  | JObj kvs =>
      "{" +:+ (join (String "," sp)
        (map (fun kv => match kv with
                        | (k, x) => dumps_str ensure_ascii k +:+ (String ":" sp +:+ dumps_sp sp ensure_ascii x)
                        end) kvs) +:+ "}")
  end.

(** [json.dumps(v, separators=(",", ":"))], and with the default separators. *)
Definition dumps (ensure_ascii : bool) (v : json) : string := dumps_sp "" ensure_ascii v.

Definition dumps_default (v : json) : string := dumps_sp " " true v.

(** [.encode("utf-8")] on code points below 256. *)
Fixpoint utf8 (s : string) : string :=
  match s with
  | "" => ""
  | String c s' =>
      let n := N_of_ascii c in
      if (n <? 128)%N then String c (utf8 s')
      else String (ascii_of_N (192 + n / 64)%N)
             (String (ascii_of_N (128 + n mod 64)%N) (utf8 s'))
  end.

(** [allow_nan=False] refuses the three values JSON has no text for. *)
Fixpoint finite (v : json) : bool :=
  match v with
  | JFloat r => negb (String.eqb r "NaN" || String.eqb r "Infinity" || String.eqb r "-Infinity")
  | JArr l => forallb finite l
  | JObj kvs => forallb (fun kv => match kv with (_, x) => finite x end) kvs
  | _ => true
  end.

(** What PostgreSQL reads as [jsonb]: no such float, and no escape [\u0000]. *)
Fixpoint jsonb_ok (v : json) : bool :=
  match v with
  | JStr s => no_nul s
  | JFloat _ => finite v
  | JArr l => forallb jsonb_ok l
  | JObj kvs => forallb (fun kv => match kv with (k, x) => no_nul k && jsonb_ok x end) kvs
  | _ => true
  end.

(** * Well-formed values

    What a Python value of type [json] satisfies: the text of a float is a
    number with a fraction or an exponent, so it is never the text of an int. *)

Definition number_char (c : ascii) : bool :=
  let n := N_of_ascii c in
  ((48 <=? n) && (n <=? 57) || (n =? 43) || (n =? 45) || (n =? 46) || (n =? 101))%N.

Definition int_char (c : ascii) : bool :=
  let n := N_of_ascii c in ((48 <=? n) && (n <=? 57) || (n =? 45))%N.

Fixpoint all_in (p : ascii → bool) (s : string) : bool :=
  match s with
  | "" => true
  | String c s' => p c && all_in p s'
  end.

Definition float_repr (s : string) : bool :=
  negb (String.eqb s "") && all_in number_char s && negb (all_in int_char s).

Fixpoint wf_json (v : json) : bool :=
  match v with
  | JFloat r => float_repr r
  | JArr l => forallb wf_json l
  | JObj kvs => forallb (fun kv => match kv with (_, x) => wf_json x end) kvs
  | _ => true
  end.

(** * Lemmas *)

#[local] Arguments String.append : simpl nomatch.

Section json_induction.
Variable P : json → Prop.
Hypothesis Hnull : P JNull.
Hypothesis Hbool : ∀ b, P (JBool b).
Hypothesis Hint : ∀ n, P (JInt n).
Hypothesis Hfloat : ∀ r, P (JFloat r).
Hypothesis Hstr : ∀ s, P (JStr s).
Hypothesis Harr : ∀ l, Forall P l → P (JArr l).
Hypothesis Hobj : ∀ kvs, Forall (fun kv => P kv.2) kvs → P (JObj kvs).

Fixpoint json_nested_ind (v : json) : P v :=
  match v with
  | JNull => Hnull
  | JBool b => Hbool b
  | JInt n => Hint n
  | JFloat r => Hfloat r
  | JStr s => Hstr s
  | JArr l =>
      Harr l ((fix go (l : list json) : Forall P l :=
        match l with
        | [] => List.Forall_nil P
        | x :: l' => @List.Forall_cons _ P x l' (json_nested_ind x) (go l')
        end) l)
  | JObj kvs =>
      Hobj kvs ((fix go (l : list (string * json)) : Forall (fun kv => P kv.2) l :=
        match l with
        | [] => List.Forall_nil _
        | (k, x) :: l' => @List.Forall_cons _ (fun kv => P kv.2) (k, x) l' (json_nested_ind x) (go l')
        end) kvs)
  end.
End json_induction.

Lemma sapp_assoc (a b c : string) : (a +:+ b) +:+ c = a +:+ (b +:+ c).
Proof. induction a as [|x a IH]; cbn; [done|]. by rewrite IH. Qed.

Lemma string_cons_inj (c d : ascii) (s t : string) : String c s = String d t → c = d ∧ s = t.
Proof. intros E. by inversion E. Qed.

Definition all_ascii : list ascii := map (fun n => ascii_of_nat n) (seq 0 256).

Lemma in_all_ascii c : In c all_ascii.
Proof.
  unfold all_ascii. apply in_map_iff. exists (nat_of_ascii c).
  split; [apply ascii_nat_embedding|]. apply in_seq. pose proof (nat_ascii_bounded c). lia.
Qed.

(** No escape is a prefix of another, and none starts with the quote. *)
Definition escape_code_ok (ea : bool) : bool :=
  forallb (fun c =>
    negb (startswith (byte 34) (escape_char ea c)) &&
    forallb (fun d => Ascii.eqb c d || negb (startswith (escape_char ea c) (escape_char ea d)))
      all_ascii) all_ascii.

Lemma escape_code_ok_true ea : escape_code_ok ea = true.
Proof. destruct ea; vm_compute; reflexivity. Qed.

Lemma prefix_app a b r r' :
  a +:+ r = b +:+ r' → startswith a b = true ∨ startswith b a = true.
Proof.
  revert b. induction a as [|x a IH]; intros b E; [by left|].
  destruct b as [|y b]; [by right|]. cbn in E.
  apply string_cons_inj in E as [-> E]. cbn. rewrite Ascii.eqb_refl. by apply IH.
Qed.

Lemma sapp_cons c (a b : string) : String c a +:+ b = String c (a +:+ b).
Proof. done. Qed.

Lemma sapp_cancel_l a r r' : a +:+ r = a +:+ r' → r = r'.
Proof. induction a as [|x a IH]; cbn; [done|]. intros E. apply string_cons_inj in E as [_ E]. by apply IH. Qed.

Lemma escape_char_prefix ea c d :
  startswith (escape_char ea c) (escape_char ea d) = true → c = d.
Proof.
  intros Hp. pose proof (escape_code_ok_true ea) as H.
  unfold escape_code_ok in H. rewrite forallb_forall in H.
  specialize (H c (in_all_ascii c)). apply andb_prop in H as [_ H].
  rewrite forallb_forall in H. specialize (H d (in_all_ascii d)).
  rewrite Hp in H. cbn in H. rewrite orb_false_r in H. by apply Ascii.eqb_eq in H.
Qed.

Lemma escape_char_inj ea c d r r' :
  escape_char ea c +:+ r = escape_char ea d +:+ r' → c = d ∧ r = r'.
Proof.
  intros E. assert (c = d) as <-.
  { destruct (prefix_app _ _ _ _ E) as [Hp|Hp]; apply escape_char_prefix in Hp; congruence. }
  split; [done|]. by apply sapp_cancel_l in E.
Qed.

Lemma escape_char_not_quote ea c r r' :
  escape_char ea c +:+ r = byte 34 +:+ r' → False.
Proof.
  intros E. pose proof (escape_code_ok_true ea) as H.
  unfold escape_code_ok in H. rewrite forallb_forall in H.
  specialize (H c (in_all_ascii c)). apply andb_prop in H as [H _]. bool_to_prop.
  destruct (escape_char ea c) as [|x s] eqn:Es.
  - pose proof (escape_char_prefix ea c "a"%char) as Hp.
    pose proof (escape_char_prefix ea c "b"%char) as Hp'.
    rewrite Es in Hp, Hp'. specialize (Hp eq_refl). specialize (Hp' eq_refl). congruence.
  - cbn in E. apply string_cons_inj in E as [-> _]. done.
Qed.

Lemma dumps_str_inj ea s t r r' :
  dumps_str ea s +:+ r = dumps_str ea t +:+ r' → s = t ∧ r = r'.
Proof.
  unfold dumps_str. cbn. intros E. apply string_cons_inj in E as [_ E].
  rewrite !sapp_assoc in E. revert t E. induction s as [|c s IH]; intros [|d t] E; cbn [escape] in E.
  - cbn in E. by apply string_cons_inj in E as [_ ->].
  - rewrite sapp_assoc in E. symmetry in E. by apply escape_char_not_quote in E.
  - rewrite sapp_assoc in E. by apply escape_char_not_quote in E.
  - rewrite !sapp_assoc in E. apply escape_char_inj in E as [-> E].
    apply IH in E as [-> ->]. done.
Qed.

(** A rest that cannot continue a number. *)
Definition delimited (r : string) : Prop :=
  match r with "" => True | String c _ => number_char c = false end.

Lemma all_in_split p a b r r' :
  all_in p a = true → all_in p b = true →
  (match r with "" => True | String c _ => p c = false end) →
  (match r' with "" => True | String c _ => p c = false end) →
  a +:+ r = b +:+ r' → a = b ∧ r = r'.
Proof.
  revert b. induction a as [|x a IH]; intros [|y b] Ha Hb Hr Hr' E; cbn in *.
  - done.
  - subst r. bool_to_prop. congruence.
  - subst r'. bool_to_prop. congruence.
  - apply string_cons_inj in E as [-> E]. bool_to_prop.
    destruct (IH b) as [-> ->]; auto.
Qed.

Lemma all_in_weaken p q s : (∀ c, p c = true → q c = true) → all_in p s = true → all_in q s = true.
Proof.
  intros H. induction s as [|c s IH]; cbn; [done|]. intros E. bool_to_prop.
  rewrite (H c), IH; done.
Qed.

Lemma all_in_app p a b : all_in p (a +:+ b) = all_in p a && all_in p b.
Proof. induction a as [|c a IH]; cbn; [done|]. rewrite IH. by rewrite andb_assoc. Qed.

Lemma int_is_number c : int_char c = true → number_char c = true.
Proof. unfold int_char, number_char. intros H. apply orb_prop in H as [->| ->]; rewrite ?orb_true_r; done. Qed.

Lemma pretty_char_int n : int_char (pretty_N_char n) = true.
Proof. destruct n as [|p]; [done|]. do 4 (try destruct p as [p|p|]); done. Qed.

Lemma pretty_N_go_chars n s : all_in int_char s = true → all_in int_char (pretty_N_go n s) = true.
Proof.
  revert s. induction (N.lt_wf_0 n) as [n _ IH]. intros s Hs.
  destruct (decide (0 < n)%N) as [Hn|Hn].
  - rewrite pretty_N_go_step by done. apply IH; [by apply N.div_lt|].
    cbn. by rewrite pretty_char_int, Hs.
  - assert (n = 0%N) as -> by lia. by rewrite pretty_N_go_0.
Qed.

Lemma pretty_Z_chars (n : Z) : all_in int_char (pretty n) = true ∧ pretty n ≠ "".
Proof.
  assert (HN : ∀ m : N, all_in int_char (pretty m) = true ∧ pretty m ≠ "").
  { intros m. unfold pretty, pretty_N. destruct (decide (m = 0%N)) as [->|Hm]; [done|].
    split; [by apply pretty_N_go_chars|]. rewrite pretty_N_go_step by lia.
    assert (Hlen : ∀ k s, s ≠ "" → pretty_N_go k s ≠ "").
    { intros k. induction (N.lt_wf_0 k) as [k _ IH]. intros s Hs.
      destruct (decide (0 < k)%N) as [Hk|Hk].
      - rewrite pretty_N_go_step by done. apply IH; [by apply N.div_lt|done].
      - assert (k = 0%N) as -> by lia. by rewrite pretty_N_go_0. }
    by apply Hlen. }
  destruct n as [|p|p]; [done|apply (HN (N.pos p))|].
  change (pretty (Z.neg p)) with ("-" +:+ pretty (N.pos p)).
  destruct (HN (N.pos p)) as [H1 _]. split; [|done]. rewrite all_in_app, H1. done.
Qed.

Section text.
Variable sp : string.

Definition is_number (v : json) : bool :=
  match v with JInt _ | JFloat _ => true | _ => false end.

(** The first character of a value's text says whether it is a number. *)
Lemma number_text ea v :
  is_number v = true → wf_json v = true →
  all_in number_char (dumps_sp sp ea v) = true ∧ ∃ c s, dumps_sp sp ea v = String c s ∧ number_char c = true.
Proof.
  assert (H : ∀ s, all_in number_char s = true → s ≠ "" →
    all_in number_char s = true ∧ ∃ c t, s = String c t ∧ number_char c = true).
  { intros [|c t] Hs Hne; [done|]. split; [done|]. exists c, t. cbn in Hs. by bool_to_prop. }
  destruct v as [| |n|r| | |]; try done; intros _ Hv; cbn [dumps_sp].
  - destruct (pretty_Z_chars n) as [Hc Hne]. apply H; [|done].
    eapply all_in_weaken; [exact int_is_number|done].
  - cbn in Hv. unfold float_repr in Hv. bool_to_prop. by apply H.
Qed.

Lemma other_text ea v :
  is_number v = false →
  ∃ c s, dumps_sp sp ea v = String c s ∧ number_char c = false ∧ c ≠ "]"%char ∧ c ≠ "}"%char.
Proof.
  destruct v as [|[]| | | | |]; try done; intros _; cbn; eexists _, _;
    repeat split; done.
Qed.

Lemma number_vs_other ea v v' r r' :
  is_number v = true → wf_json v = true → is_number v' = false →
  dumps_sp sp ea v +:+ r ≠ dumps_sp sp ea v' +:+ r'.
Proof.
  intros Hn Hv Hn' E. destruct (number_text ea v Hn Hv) as (_ & c & s & Ec & Hc).
  destruct (other_text ea v' Hn') as (d & t & Ed & Hd & _).
  rewrite Ec, Ed in E. cbn in E. apply string_cons_inj in E as [-> _]. congruence.
Qed.

Lemma numbers_inj ea v v' :
  is_number v = true → is_number v' = true → wf_json v = true → wf_json v' = true →
  dumps_sp sp ea v = dumps_sp sp ea v' → v = v'.
Proof.
  destruct v as [| |n|x| | |], v' as [| |n'|x'| | |]; try done; intros _ _ Hv Hv' E; cbn in *.
  - f_equal. by apply (inj pretty).
  - exfalso. unfold float_repr in Hv'. bool_to_prop.
    destruct (pretty_Z_chars n) as [Hc _]. congruence.
  - exfalso. unfold float_repr in Hv. bool_to_prop.
    destruct (pretty_Z_chars n') as [Hc _]. congruence.
  - by subst.
Qed.

Section join_inj.
Context {A : Type} (f : A → string) (ok : A → Prop) (cl : ascii).
Hypothesis Hcl : number_char cl = false.
Hypothesis Hcomma : cl ≠ ","%char.
Hypothesis Hhead : ∀ x r s, ok x → f x +:+ r ≠ String cl s.

Definition separable (x : A) : Prop :=
  ∀ y r r', ok y → delimited r → delimited r' → f x +:+ r = f y +:+ r' → x = y ∧ r = r'.

Definition join_rest (l : list A) : string :=
  match l with [] => "" | _ => String ","%char (sp +:+ join (String "," sp) (map f l)) end.

Lemma join_cons x l : join (String "," sp) (map f (x :: l)) = f x +:+ join_rest l.
Proof.
  destruct l as [|y l]; cbn; [|done]. induction (f x) as [|c s IH]; cbn; [done|]. by rewrite <- IH.
Qed.

Lemma delimited_rest l r : delimited (join_rest l +:+ String cl r).
Proof using Hcl. by destruct l. Qed.

Lemma join_inj l : Forall separable l → Forall ok l → ∀ l' r r', Forall ok l' →
  join (String "," sp) (map f l) +:+ String cl r = join (String "," sp) (map f l') +:+ String cl r' → l = l' ∧ r = r'.
Proof using Hcl Hcomma Hhead.
  induction l as [|x l IH]; intros Hs Ho [|y l'] r r' Ho' E.
  - cbn in E. by apply string_cons_inj in E as [_ ->].
  - exfalso. rewrite join_cons, sapp_assoc in E. symmetry in E. apply Hhead in E; [done|].
    by invc Ho'.
  - exfalso. rewrite join_cons, sapp_assoc in E. apply Hhead in E; [done|]. by invc Ho.
  - invc Hs. invc Ho. invc Ho'. rewrite !join_cons, !sapp_assoc in E.
    apply H1 in E as [-> E]; auto using delimited_rest.
    destruct l as [|x' l], l' as [|y' l']; cbn [join_rest] in E.
    + cbn in E. by apply string_cons_inj in E as [_ ->].
    + cbn in E. by apply string_cons_inj in E as [? _].
    + cbn in E. apply string_cons_inj in E as [? _]. congruence.
    + rewrite !sapp_cons in E. apply string_cons_inj in E as [_ E]. rewrite !sapp_assoc in E. apply sapp_cancel_l in E.
      destruct (IH H2 H4 _ _ _ H6 E) as [[= -> ->] ->]. done.
Qed.
End join_inj.

Lemma closing_head v ea r s cl :
  wf_json v = true → cl = "]"%char ∨ cl = "}"%char → dumps_sp sp ea v +:+ r ≠ String cl s.
Proof.
  intros Hv Hcl E. destruct (is_number v) eqn:Hn.
  - destruct (number_text ea v Hn Hv) as (_ & c & t & Ec & Hc). rewrite Ec in E.
    cbn in E. apply string_cons_inj in E as [-> _]. by destruct Hcl as [-> | ->].
  - destruct (other_text ea v Hn) as (c & t & Ec & _ & H1 & H2). rewrite Ec in E.
    cbn in E. apply string_cons_inj in E as [-> _]. by destruct Hcl as [-> | ->].
Qed.

Definition dumps_item (ea : bool) (kv : string * json) : string :=
  match kv with (k, x) => dumps_str ea k +:+ (String ":" sp +:+ dumps_sp sp ea x) end.

Lemma item_separable ea kv :
  separable (dumps_sp sp ea) (fun v => wf_json v = true) kv.2 →
  separable (dumps_item ea) (fun kv => wf_json kv.2 = true) kv.
Proof.
  destruct kv as [k x]. intros H [k' y] r r' Hy Hr Hr' E. cbn [dumps_item] in E.
  rewrite !sapp_assoc in E. apply dumps_str_inj in E as [-> E].
  rewrite !sapp_cons in E. apply string_cons_inj in E as [_ E]. rewrite ?sapp_assoc in E. apply sapp_cancel_l in E.
  apply H in E as [E ->]; try done. cbn in E. by subst.
Qed.

Lemma forallb_Forall {A} (p : A → bool) l : forallb p l = true ↔ Forall (fun x => p x = true) l.
Proof. rewrite forallb_forall, List.Forall_forall. done. Qed.

(** The text of a value determines it, whatever text follows. *)
Lemma dumps_separable ea v : wf_json v = true → separable (dumps_sp sp ea) (fun v => wf_json v = true) v.
Proof.
  induction v as [|b|n|x|x|l IH|l IH] using json_nested_ind; intros Hv v' r r' Hv' Hr Hr' E.
  all: match goal with |- ?w = _ ∧ _ => destruct (is_number w) eqn:Hn, (is_number v') eqn:Hn' end.
  all: try done.
  all: try (exfalso; by apply (number_vs_other ea _ _ _ _ Hn Hv Hn') in E).
  all: try (exfalso; symmetry in E; by apply (number_vs_other ea _ _ _ _ Hn' Hv' Hn) in E).
  all: try (destruct (number_text ea _ Hn Hv) as [Ha _], (number_text ea _ Hn' Hv') as [Hb _];
    destruct (all_in_split number_char _ _ r r' Ha Hb Hr Hr' E) as [Ed ->];
    split; [by apply (numbers_inj ea)|done]).
  all: try destruct b; destruct v' as [|[]|n'|x'|x'|l'|l']; try done.
  all: cbn [dumps_sp] in E; try (by apply string_cons_inj in E as [? _]).
  all: try (cbn in E; repeat (apply string_cons_inj in E as [_ E]); by subst).
  - by apply dumps_str_inj in E as [-> ->].
  - cbn in E. apply string_cons_inj in E as [_ E]. rewrite !sapp_assoc in E.
    cbn in Hv, Hv'. rewrite forallb_Forall in Hv, Hv'.
    apply (join_inj (dumps_sp sp ea) (fun v => wf_json v = true)) in E as [-> ->]; auto.
    + intros y s s' Hy. by apply closing_head; [|left].
    + rewrite List.Forall_forall in *. auto.
  - cbn in E. apply string_cons_inj in E as [_ E]. rewrite !sapp_assoc in E.
    cbn in Hv, Hv'. rewrite forallb_Forall in Hv, Hv'.
    apply (join_inj (dumps_item ea) (fun kv => wf_json kv.2 = true)) in E as [-> ->]; auto.
    + intros [k y] s s' Hy. cbn. intros E'. by apply string_cons_inj in E' as [? _].
    + rewrite List.Forall_forall in *. intros kv Hkv. apply item_separable, IH; [done|].
      specialize (Hv kv Hkv). by destruct kv.
    + eapply List.Forall_impl; [|exact Hv]. by intros [].
    + eapply List.Forall_impl; [|exact Hv']. by intros [].
Qed.

Lemma dumps_sp_inj ea v v' :
  wf_json v = true → wf_json v' = true → dumps_sp sp ea v = dumps_sp sp ea v' → v = v'.
Proof.
  intros Hv Hv' E. assert (Happ : ∀ s, s +:+ "" = s).
  { induction s as [|c s IH]; cbn; [done|]. by rewrite IH. }
  destruct (dumps_separable ea v Hv v' "" ""); try done. by rewrite !Happ.
Qed.

End text.

Lemma dumps_inj ea v v' :
  wf_json v = true → wf_json v' = true → dumps ea v = dumps ea v' → v = v'.
Proof. apply dumps_sp_inj. Qed.

(** [.encode("utf-8")] loses nothing. *)
Lemma utf8_inj s t : utf8 s = utf8 t → s = t.
Proof.
  revert t. induction s as [|c s IH]; intros [|d t] E; cbn in E.
  - done.
  - destruct (N_of_ascii d <? 128)%N; done.
  - destruct (N_of_ascii c <? 128)%N; done.
  - pose proof (N_ascii_bounded c) as Hc. pose proof (N_ascii_bounded d) as Hd.
    pose proof (ascii_N_embedding c) as Ec. pose proof (ascii_N_embedding d) as Ed.
    set (m := N_of_ascii c) in *. set (n := N_of_ascii d) in *.
    pose proof (N.div_lt_upper_bound m 64 4 ltac:(lia) ltac:(lia)).
    pose proof (N.div_lt_upper_bound n 64 4 ltac:(lia) ltac:(lia)).
    pose proof (N.mod_lt m 64 ltac:(lia)). pose proof (N.mod_lt n 64 ltac:(lia)).
    pose proof (N.div_mod m 64 ltac:(lia)). pose proof (N.div_mod n 64 ltac:(lia)).
    destruct (N.ltb_spec m 128), (N.ltb_spec n 128).
    + apply string_cons_inj in E as [-> E]. f_equal. by apply IH.
    + apply string_cons_inj in E as [E _]. subst c. exfalso. unfold m in *.
      rewrite N_ascii_embedding in * by lia. lia.
    + apply string_cons_inj in E as [E _]. subst d. exfalso. unfold n in *.
      rewrite N_ascii_embedding in * by lia. lia.
    + apply string_cons_inj in E as [E1 E]. apply string_cons_inj in E as [E2 E].
      apply (f_equal N_of_ascii) in E1, E2. rewrite !N_ascii_embedding in E1, E2 by lia.
      assert (c = d) as -> by (rewrite <- Ec, <- Ed; f_equal; lia).
      f_equal. by apply IH.
Qed.

Lemma wf_canonical v : wf_json v = true → wf_json (canonical v) = true.
Proof.
  induction v as [| | | | |l IH|l IH] using json_nested_ind; cbn; try done.
  - rewrite !forallb_Forall, Forall_map, !List.Forall_forall in *. eauto.
  - rewrite !forallb_forall. rewrite List.Forall_forall in IH. intros H [k x] Hin.
    apply in_order_by, in_map_iff in Hin as ([k' y] & [= <- <-] & Hin).
    apply (IH (k', y) Hin). by apply (H (k', y)).
Qed.

Lemma key_le_total a b : key_le a b = true ∨ key_le b a = true.
Proof. apply String.leb_total. Qed.

Lemma leb_trans s1 s2 s3 :
  String.leb s1 s2 = true → String.leb s2 s3 = true → String.leb s1 s3 = true.
Proof.
  intros H1 H2. apply Is_true_eq_true.
  assert (H : String.le s1 s3); [|exact H].
  apply (transitivity (R := String.le) (y := s2)); by apply Is_true_eq_left.
Qed.

Lemma key_le_trans a b c : key_le a b = true → key_le b c = true → key_le a c = true.
Proof. apply leb_trans. Qed.

(** A list without repeated keys is sorted in one way only. *)
Lemma sorted_items_unique (l l' : list (string * json)) :
  StronglySorted (fun a b => key_le a b = true) l →
  StronglySorted (fun a b => key_le a b = true) l' →
  Permutation l l' → List.NoDup (map fst l) → l = l'.
Proof. apply (sorted_by_key_unique fst). intros x y. apply String.leb_antisym. Qed.

(** Two dicts with the same items have the same canonical form. *)
Lemma canonical_perm l l' :
  Permutation l l' → List.NoDup (map fst l) → canonical (JObj l) = canonical (JObj l').
Proof.
  intros Hp Hnd. cbn. f_equal.
  set (g := fun kv => match kv with (k, x) => (k, canonical x) end).
  assert (Hfst : ∀ m, map fst (map g m) = map fst m).
  { intros m. rewrite map_map. apply map_ext. by intros []. }
  apply sorted_items_unique.
  - apply order_by_sorted; [apply key_le_total|apply key_le_trans].
  - apply order_by_sorted; [apply key_le_total|apply key_le_trans].
  - rewrite !order_by_perm. by apply Permutation_map.
  - apply (Permutation_NoDup (l := map fst (map g l))); [|by rewrite Hfst].
    apply Permutation_map, Permutation_sym, order_by_perm.
Qed.
