(* ===== verification/Text.v ===== *)
(** Text: the string operations of Python the code uses, and their lemmas.

    A string is a list of code points below 256. *)
From Stdlib Require Import Ascii.
From S2P Require Import Prelude Json.

Definition mem (l : list string) (s : string) : bool := existsb (String.eqb s) l.

Fixpoint contains (p s : string) : bool :=
  startswith p s || match s with String _ s' => contains p s' | EmptyString => false end.

(** * Python's string operations *)

(** [str.isspace], and [\s] of a pattern. *)
Definition isspace (c : ascii) : bool :=
  let n := N_of_ascii c in
  ((9 <=? n) && (n <=? 13) || (28 <=? n) && (n <=? 32) || (n =? 133) || (n =? 160))%N.

#[global] Arguments isspace : simpl never.

Fixpoint lstrip (s : string) : string :=
  match s with
  | String c s' => if isspace c then lstrip s' else s
  | EmptyString => ""
  end.

Fixpoint rstrip (s : string) : string :=
  match s with
  | EmptyString => ""
  | String c s' => match rstrip s' with
                   | EmptyString => if isspace c then "" else String c ""
                   | r => String c r
                   end
  end.

Definition strip (s : string) : string := rstrip (lstrip s).

Definition string_rev (s : string) : string := String.string_of_list_ascii (rev (String.list_ascii_of_string s)).

Definition nonempty (s : string) : bool := negb (String.eqb s "").

Definition newline : ascii := "010"%char.
Definition nl : string := String newline "".

(** [[0-9a-f]]. *)
Definition hex_char (c : ascii) : bool :=
  let n := N_of_ascii c in ((48 <=? n) && (n <=? 57) || (97 <=? n) && (n <=? 102))%N.

(** [s.split(c)] for a one-character separator. *)
Fixpoint split_on (c : ascii) (s : string) : list string :=
  match s with
  | EmptyString => [""]
  | String x s' =>
      if Ascii.eqb x c then "" :: split_on c s'
      else match split_on c s' with
           | w :: ws => String x w :: ws
           | [] => [String x ""]
           end
  end.

(** [s.split("\n\n")]. *)
Fixpoint split_blank (s : string) : list string :=
  match s with
  | EmptyString => [""]
  | String x s' =>
      match s' with
      | String y s'' =>
          if Ascii.eqb x newline && Ascii.eqb y newline then "" :: split_blank s''
          else match split_blank s' with
               | w :: ws => String x w :: ws
               | [] => [String x ""]
               end
      | EmptyString => [String x ""]
      end
  end.

(** [re.sub(r"\n{3,}", "\n\n", s)]: [n] newlines were seen just before. *)
Fixpoint collapse (n : Z) (s : string) : string :=
  match s with
  | EmptyString => ""
  | String c s' =>
      if Ascii.eqb c newline then if n <? 2 then String c (collapse (n + 1) s') else collapse n s'
      else String c (collapse 0 s')
  end.

Definition lower_char (c : ascii) : ascii :=
  let n := N_of_ascii c in
  if ((65 <=? n) && (n <=? 90) || (192 <=? n) && (n <=? 222) && negb (n =? 215))%N then ascii_of_N (n + 32) else c.

Fixpoint lower (s : string) : string :=
  match s with
  | EmptyString => ""
  | String c s' => String (lower_char c) (lower s')
  end.

Definition blank (s : string) : bool := negb (nonempty (strip s)).

Definition blank_line (a b : string) : string := a +:+ nl +:+ nl +:+ b.

(** * Prefixes and lengths *)

Lemma mem_spec l s : mem l s = true ↔ In s l.
Proof. unfold mem. rewrite existsb_exists. setoid_rewrite String.eqb_eq. split; [by intros (x & ? & ->)|by exists s]. Qed.

Lemma length_substring n m s : (n + m <= String.length s)%nat → String.length (String.substring n m s) = m.
Proof.
  revert n m. induction s as [|c s IH]; intros n m H; cbn in H.
  - by destruct n, m; cbn in *; try lia.
  - destruct n as [|n]; cbn.
    + destruct m as [|m]; [done|]. cbn. f_equal. apply (IH 0%nat). lia.
    + apply IH. lia.
Qed.

Lemma length_sapp (a b : string) : String.length (a +:+ b) = (String.length a + String.length b)%nat.
Proof. induction a as [|c a IH]; [done|]. change (S (String.length (a +:+ b)) = S (String.length a + String.length b)). by rewrite IH. Qed.

Lemma startswith_spec p s : startswith p s = true ↔ ∃ r, s = p +:+ r.
Proof.
  revert s. induction p as [|c p IH]; intros s; cbn [startswith].
  - split; [by exists s|done].
  - destruct s as [|x s]; [split; [done|by intros [r [=]]]|]. rewrite andb_true_iff, Ascii.eqb_eq, IH. split.
    + intros [-> [r ->]]. by exists r.
    + intros [r [= -> ->]]. split; [done|by exists r].
Qed.

Lemma sapp_length_inj a b r r' : String.length a = String.length b → a +:+ r = b +:+ r' → a = b.
Proof.
  revert b. induction a as [|x a IH]; intros [|y b]; cbn; [done..|]. intros [= Hl] [= -> H]. f_equal. by apply IH.
Qed.

Lemma startswith_app p q s : startswith (p +:+ q) s = true → startswith p s = true.
Proof.
  revert s. induction p as [|c p IH]; intros s; [done|]. destruct s as [|x s]; [done|].
  change (String c p +:+ q) with (String c (p +:+ q)). cbn [startswith]. rewrite !andb_true_iff.
  intros [-> H]. split; [done|by apply IH].
Qed.

(** * Ink: strings that stripping leaves alone *)

Definition starts_ink (s : string) : Prop := ∃ c r, s = String c r ∧ isspace c = false.
Definition ends_ink (s : string) : Prop := ∃ a c, s = a +:+ String c "" ∧ isspace c = false.
Definition inked (s : string) : Prop := starts_ink s ∧ ends_ink s.

Lemma sapp_nil (a : string) : a +:+ "" = a.
Proof. induction a as [|c a IH]; [done|]. change (String c (a +:+ "") = String c a). by rewrite IH. Qed.

Lemma lstrip_ink s : starts_ink s → lstrip s = s.
Proof. intros (c & r & -> & Hc). cbn. by rewrite Hc. Qed.

Lemma rstrip_ends a c : isspace c = false → rstrip (a +:+ String c "") = a +:+ String c "".
Proof.
  intros Hc. induction a as [|x a IH].
  { change ((if isspace c then "" else String c "") = String c ""). by rewrite Hc. }
  change (rstrip (String x (a +:+ String c "")) = String x (a +:+ String c "")). cbn [rstrip]. rewrite IH.
  by destruct a.
Qed.

Lemma rstrip_ink s : ends_ink s → rstrip s = s.
Proof. intros (a & c & -> & Hc). by apply rstrip_ends. Qed.

Lemma lstrip_starts s : lstrip s = "" ∨ starts_ink (lstrip s).
Proof.
  induction s as [|c s IH]; [by left|]. cbn. destruct (isspace c) eqn:E; [done|]. right. by exists c, s.
Qed.

Lemma rstrip_split s : rstrip s = "" ∨ ends_ink (rstrip s).
Proof.
  induction s as [|c s IH]; [by left|]. cbn. destruct (rstrip s) as [|x r] eqn:E.
  - destruct (isspace c) eqn:Ec; [by left|]. right. by exists "", c.
  - destruct IH as [[=]|(a & y & Ea & Hy)]. right. exists (String c a), y. by rewrite Ea.
Qed.

Lemma rstrip_starts s : starts_ink s → starts_ink (rstrip s).
Proof.
  intros (c & r & -> & Hc). cbn. destruct (rstrip r) as [|x t].
  - rewrite Hc. by exists c, "".
  - by exists c, (String x t).
Qed.

Lemma strip_inked s : strip s = "" ∨ inked (strip s).
Proof.
  unfold strip. destruct (lstrip_starts s) as [->|Hs]; [by left|].
  destruct (rstrip_split (lstrip s)) as [->|He]; [by left|]. right. split; [by apply rstrip_starts|done].
Qed.

Lemma strip_id s : inked s → strip s = s.
Proof. intros [H1 H2]. unfold strip. by rewrite lstrip_ink, rstrip_ink. Qed.

Lemma ends_app a s : ends_ink s → ends_ink (a +:+ s).
Proof. intros (b & c & -> & Hc). exists (a +:+ b), c. by rewrite sapp_assoc. Qed.

Lemma starts_app a s : starts_ink a → starts_ink (a +:+ s).
Proof. intros (c & r & -> & Hc). by exists c, (r +:+ s). Qed.

Lemma lstrip_app a s : starts_ink s → ∃ a', lstrip (a +:+ s) = a' +:+ s.
Proof.
  intros Hs. induction a as [|c a IH].
  - exists "". by apply lstrip_ink.
  - change (∃ a', (if isspace c then lstrip (a +:+ s) else String c (a +:+ s)) = a' +:+ s).
    destruct (isspace c); [done|]. by exists (String c a).
Qed.

(** What is stripped at the end of a text stays whole. *)
Lemma strip_keeps_tail a s : inked s → ∃ a', strip (a +:+ s) = a' +:+ s.
Proof.
  intros [H1 H2]. destruct (lstrip_app a s H1) as [a' E]. exists a'. unfold strip. rewrite E.
  apply rstrip_ink. by apply ends_app.
Qed.

Lemma blank_line_inked a b : inked a → inked b → inked (blank_line a b).
Proof.
  intros [H1 _] [_ H2]. split; [by apply starts_app|]. unfold blank_line. by do 3 apply ends_app.
Qed.

Lemma inked_nonempty s : inked s → s ≠ "".
Proof. intros [(c & r & -> & _) _]. done. Qed.

(** * Infixes *)

Definition infix (p s : string) : Prop := ∃ a b, s = a +:+ p +:+ b.

Lemma infix_refl p : infix p p.
Proof. exists "", "". cbn. by rewrite sapp_nil. Qed.

Lemma infix_trans p q r : infix p q → infix q r → infix p r.
Proof. intros (a & b & ->) (c & e & ->). exists (c +:+ a), (b +:+ e). by rewrite !sapp_assoc. Qed.

Lemma infix_left a b : infix a (blank_line a b).
Proof. exists "", (nl +:+ nl +:+ b). done. Qed.

Lemma infix_right a b : infix b (blank_line a b).
Proof. exists (a +:+ nl +:+ nl), "". unfold blank_line. by rewrite sapp_nil, !sapp_assoc. Qed.

Lemma strip_blank_line a p : inked p → inked (strip (blank_line a p)) ∧ infix p (strip (blank_line a p)).
Proof.
  intros Hp. assert (E : blank_line a p = (a +:+ nl +:+ nl) +:+ p) by (unfold blank_line; by rewrite !sapp_assoc).
  rewrite E. destruct (strip_keeps_tail (a +:+ nl +:+ nl) p Hp) as [a' Ea]. split.
  - destruct (strip_inked ((a +:+ nl +:+ nl) +:+ p)) as [H|H]; [|done]. exfalso. rewrite Ea in H.
    apply (inked_nonempty p Hp). destruct a'; [done|]. done.
  - rewrite Ea. exists a', "". by rewrite sapp_nil.
Qed.

(** * Stripping and infixes *)

Lemma lstrip_suffix s : ∃ a, s = a +:+ lstrip s.
Proof.
  induction s as [|c s [a E]]; [by exists ""|]. cbn. destruct (isspace c); [|by exists ""].
  exists (String c a). change (String c s = String c (a +:+ lstrip s)). by rewrite <- E.
Qed.

Lemma rstrip_prefix s : ∃ b, s = rstrip s +:+ b.
Proof.
  induction s as [|c s [b E]]; [by exists ""|]. cbn. destruct (rstrip s) as [|x r] eqn:Er.
  - destruct (isspace c); [by exists (String c s)|by exists s].
  - exists b. change (String c s = String c (String x r +:+ b)). by rewrite <- E.
Qed.

Lemma infix_of_strip s : infix (strip s) s.
Proof.
  destruct (lstrip_suffix s) as [a Ea]. destruct (rstrip_prefix (lstrip s)) as [b Eb]. exists a, b.
  unfold strip. by rewrite <- Eb.
Qed.

Lemma rstrip_app p b : ends_ink p → ∃ b', rstrip (p +:+ b) = p +:+ b'.
Proof.
  intros (a & c & -> & Hc). exists (rstrip b). rewrite sapp_assoc. induction a as [|x a IH].
  - change (match rstrip b with EmptyString => if isspace c then "" else String c "" | r => String c r end = String c (rstrip b)).
    rewrite Hc. by destruct (rstrip b).
  - change (rstrip (String x (a +:+ String c "" +:+ b)) = String x ((a +:+ String c "") +:+ rstrip b)). cbn [rstrip].
    change (a +:+ String c "" +:+ b) with (a +:+ (String c "" +:+ b)). rewrite IH. by destruct a.
Qed.

Lemma infix_in_strip p s : inked p → infix p s → infix p (strip s).
Proof.
  intros [H1 H2] (a & b & ->). assert (H3 : starts_ink (p +:+ b)) by by apply starts_app.
  destruct (lstrip_app a (p +:+ b) H3) as [a' Ea]. unfold strip. rewrite Ea.
  assert (H4 : ends_ink (a' +:+ p)) by by apply ends_app.
  destruct (rstrip_app (a' +:+ p) b H4) as [b' Eb]. rewrite sapp_assoc in Eb. rewrite Eb.
  exists a', b'. by rewrite sapp_assoc.
Qed.

Lemma infix_strip_eq p s t : inked p → strip s = strip t → infix p s → infix p t.
Proof.
  intros Hp E H. apply (infix_trans p (strip t)); [|apply infix_of_strip]. rewrite <- E. by apply infix_in_strip.
Qed.
