(* ===== verification/Db.v ===== *)
(** The database: rows, tables, tenant sessions
    ([platform_core/db/models.py], [platform_core/db/engine.py] and the
    migrations under [deploy/migrations/versions]).

    A row is a record of the columns the modelled statements read or write;
    surrogate keys no statement mentions are left out.  A check constraint of the
    form [status IN (...)] is the column's inductive type.  [tenant_session] puts
    every statement of its block under row-level security: the policy's predicate
    is conjoined to the statement's own ([visible]). *)
From S2P Require Import Prelude Json.

(** * Runs, their queue and their effects *)

Inductive run_status := pending | leased | succeeded | failed | cancelled.

#[export] Instance run_status_eq_dec : EqDecision run_status.
Proof. solve_decision. Defined.

Record run := mkRun {
  r_id : uuid;
  r_tenant : uuid;
  r_workload : string;
  r_status : run_status;
  r_key : option string;
  r_requested_by : option uuid;
  r_input : json;
  r_result : option json;
  r_error : option string;
  r_leased_by : option string;
  r_lease_expires_at : option timestamp;
  r_attempt : Z;
  r_max_attempts : Z;
  r_available_at : timestamp;
  r_last_enqueued_at : option timestamp;
  r_cancel_requested_at : option timestamp;
  r_cancel_requested_by : option uuid;
  r_priority : Z;
  r_release : option string;
  r_correlation : option uuid;
  r_created_at : timestamp;
  r_started_at : option timestamp;
  r_finished_at : option timestamp;
  r_last_heartbeat_at : option timestamp
}.

#[export] Instance eta_run : Eta run := fun r =>
  mkRun (r_id r) (r_tenant r) (r_workload r) (r_status r) (r_key r) (r_requested_by r)
    (r_input r) (r_result r) (r_error r) (r_leased_by r) (r_lease_expires_at r)
    (r_attempt r) (r_max_attempts r) (r_available_at r) (r_last_enqueued_at r)
    (r_cancel_requested_at r) (r_cancel_requested_by r) (r_priority r) (r_release r)
    (r_correlation r) (r_created_at r) (r_started_at r) (r_finished_at r)
    (r_last_heartbeat_at r).

Record outbox := mkOutbox {
  ob_id : Z;
  ob_tenant : uuid;
  ob_run : uuid;
  ob_workload : string;
  ob_payload : json;
  ob_trace : option json;
  ob_created_at : timestamp;
  ob_published_at : option timestamp;
  ob_attempts : Z;
  ob_last_error : option string
}.

#[export] Instance eta_outbox : Eta outbox := fun o =>
  mkOutbox (ob_id o) (ob_tenant o) (ob_run o) (ob_workload o) (ob_payload o) (ob_trace o)
    (ob_created_at o) (ob_published_at o) (ob_attempts o) (ob_last_error o).

Inductive effect_status := started | completed | effect_failed.

#[export] Instance effect_status_eq_dec : EqDecision effect_status.
Proof. solve_decision. Defined.

Record side_effect := mkSideEffect {
  se_tenant : uuid;
  se_run : uuid;
  se_step : string;
  se_status : effect_status;
  se_result : option json;
  se_started_at : timestamp;
  se_completed_at : option timestamp;
  se_attempt : Z;
  se_error : option string;
  se_claimed_by : option string;
  se_claim_expires_at : option timestamp
}.

#[export] Instance eta_side_effect : Eta side_effect := fun e =>
  mkSideEffect (se_tenant e) (se_run e) (se_step e) (se_status e) (se_result e)
    (se_started_at e) (se_completed_at e) (se_attempt e) (se_error e) (se_claimed_by e)
    (se_claim_expires_at e).

Record agent_checkpoint := mkAgentCheckpoint {
  cp_tenant : uuid;
  cp_thread : string;
  cp_step : Z;
  cp_run : option uuid;
  cp_state : json;
  cp_sha : string;
  cp_awaiting : option string;
  cp_created_by : option uuid;
  cp_created_at : timestamp
}.

(** * Agents, approvals and authority *)

Inductive approval_status := ap_pending | ap_approved | ap_rejected | ap_expired.

#[export] Instance approval_status_eq_dec : EqDecision approval_status.
Proof. solve_decision. Defined.

(** [side_effect IN ('none','write')]. *)
Inductive effect_class := no_effect | write_effect.

#[export] Instance effect_class_eq_dec : EqDecision effect_class.
Proof. solve_decision. Defined.

Record tool_approval := mkToolApproval {
  ta_id : uuid;
  ta_tenant : uuid;
  ta_run : uuid;
  ta_tool : string;
  ta_side_effect : effect_class;
  ta_arguments : json;
  ta_sha : string;
  ta_status : approval_status;
  ta_requested_by : uuid;
  ta_requested_at : timestamp;
  ta_decided_by : option uuid;
  ta_decided_at : option timestamp;
  ta_note : option string;
  ta_expires_at : timestamp;
  ta_consumed_at : option timestamp
}.

#[export] Instance eta_tool_approval : Eta tool_approval := fun a =>
  mkToolApproval (ta_id a) (ta_tenant a) (ta_run a) (ta_tool a) (ta_side_effect a)
    (ta_arguments a) (ta_sha a) (ta_status a) (ta_requested_by a) (ta_requested_at a)
    (ta_decided_by a) (ta_decided_at a) (ta_note a) (ta_expires_at a) (ta_consumed_at a).

Inductive execution_status := ex_started | ex_succeeded | ex_failed | ex_needs_reconciliation.

#[export] Instance execution_status_eq_dec : EqDecision execution_status.
Proof. solve_decision. Defined.

Record tool_execution := mkToolExecution {
  te_id : uuid;
  te_tenant : uuid;
  te_run : uuid;
  te_approval : option uuid;
  te_tool : string;
  te_side_effect : effect_class;
  te_sha : string;
  te_key : string;
  te_requested_by : option uuid;
  te_status : execution_status;
  te_result : option json;
  te_result_sha : option string;
  te_error : option string;
  te_started_at : timestamp;
  te_finished_at : option timestamp
}.

#[export] Instance eta_tool_execution : Eta tool_execution := fun x =>
  mkToolExecution (te_id x) (te_tenant x) (te_run x) (te_approval x) (te_tool x)
    (te_side_effect x) (te_sha x) (te_key x) (te_requested_by x) (te_status x)
    (te_result x) (te_result_sha x) (te_error x) (te_started_at x) (te_finished_at x).

Record capability_grant := mkGrant {
  cg_id : uuid;
  cg_tenant : uuid;
  cg_principal : uuid;
  cg_capability : string;
  cg_resource : string;
  cg_granted_by : option uuid;
  cg_granted_at : timestamp;
  cg_expires_at : option timestamp;
  cg_revoked_at : option timestamp;
  cg_revoked_by : option uuid
}.

#[export] Instance eta_grant : Eta capability_grant := fun g =>
  mkGrant (cg_id g) (cg_tenant g) (cg_principal g) (cg_capability g) (cg_resource g)
    (cg_granted_by g) (cg_granted_at g) (cg_expires_at g) (cg_revoked_at g) (cg_revoked_by g).

(** * The audit trail *)

Record audit_event := mkAuditEvent {
  ae_id : Z;
  ae_tenant : uuid;
  ae_principal : option uuid;
  ae_subject : string;
  ae_action : string;
  ae_resource_type : option string;
  ae_resource_id : option string;
  ae_outcome : string;
  ae_detail : json;
  ae_request : option uuid;
  ae_run : option uuid;
  ae_release : option string;
  ae_at : timestamp;
  ae_prev_hash : option string;
  ae_hash : string
}.

Record audit_chain_anchor := mkAnchor {
  an_tenant : uuid;
  an_through_event_id : Z;
  an_through_hash : string;
  an_events_anchored : Z;
  an_reason : string;
  an_anchored_at : timestamp
}.

#[export] Instance eta_anchor : Eta audit_chain_anchor := fun a =>
  mkAnchor (an_tenant a) (an_through_event_id a) (an_through_hash a) (an_events_anchored a)
    (an_reason a) (an_anchored_at a).

(** * Spend *)

Record tenant_row := mkTenantRow {
  tn_id : uuid;
  tn_slug : string;
  tn_daily_token_cap : option Z;
  tn_monthly_cost_cap_usd : option Q
}.

#[export] Instance eta_tenant_row : Eta tenant_row := fun t =>
  mkTenantRow (tn_id t) (tn_slug t) (tn_daily_token_cap t) (tn_monthly_cost_cap_usd t).

Record llm_usage := mkUsage {
  lu_tenant : uuid;
  lu_principal : option uuid;
  lu_run : option uuid;
  lu_workload : string;
  lu_task : string;
  lu_model : string;
  lu_input_tokens : Z;
  lu_output_tokens : Z;
  lu_cost_usd : Q;
  lu_cache_hit : bool;
  lu_usage_reported : bool;
  lu_release : option string;
  lu_at : timestamp
}.

(** [GENERATED ALWAYS AS (input_tokens + output_tokens)]. *)
Definition lu_total_tokens (u : llm_usage) : Z := lu_input_tokens u + lu_output_tokens u.

Inductive reservation_status := rs_reserved | rs_settled | rs_released | rs_expired.

#[export] Instance reservation_status_eq_dec : EqDecision reservation_status.
Proof. solve_decision. Defined.

Record budget_reservation := mkReservation {
  br_id : uuid;
  br_tenant : uuid;
  br_principal : option uuid;
  br_request : uuid;
  br_task : string;
  br_model : string;
  br_estimated_tokens : Z;
  br_estimated_cost_usd : Q;
  br_actual_tokens : option Z;
  br_actual_cost_usd : option Q;
  br_status : reservation_status;
  br_release_reason : option string;
  br_created_at : timestamp;
  br_expires_at : timestamp;
  br_settled_at : option timestamp
}.

#[export] Instance eta_reservation : Eta budget_reservation := fun b =>
  mkReservation (br_id b) (br_tenant b) (br_principal b) (br_request b) (br_task b)
    (br_model b) (br_estimated_tokens b) (br_estimated_cost_usd b) (br_actual_tokens b)
    (br_actual_cost_usd b) (br_status b) (br_release_reason b) (br_created_at b)
    (br_expires_at b) (br_settled_at b).

(** * Corpus *)

Inductive build_status := building | live | superseded | build_failed.

#[export] Instance build_status_eq_dec : EqDecision build_status.
Proof. solve_decision. Defined.

Record collection_build := mkBuild {
  cb_tenant : uuid;
  cb_collection : string;
  cb_version : Z;
  cb_status : build_status;
  cb_fingerprint : option string;
  cb_chunk_count : Z;
  cb_run : option uuid;
  cb_error : option string;
  cb_created_at : timestamp;
  cb_promoted_at : option timestamp
}.

#[export] Instance eta_build : Eta collection_build := fun b =>
  mkBuild (cb_tenant b) (cb_collection b) (cb_version b) (cb_status b) (cb_fingerprint b)
    (cb_chunk_count b) (cb_run b) (cb_error b) (cb_created_at b) (cb_promoted_at b).

Record chunk := mkChunk {
  ch_tenant : uuid;
  ch_document : uuid;
  ch_collection : string;
  ch_canonical_id : string;
  ch_ordinal : Z;
  ch_build_version : Z;
  ch_text : string;
  ch_meta : json;
  ch_embedding : option (list Q);
  ch_embedding_model : option string
}.

(** A document of a collection; superseded rows are its history. *)
Record document := mkDocument {
  dc_id : uuid;
  dc_tenant : uuid;
  dc_collection : string;
  dc_filename : string;
  dc_sha : string;
  dc_size : Z;
  dc_storage_key : string;
  dc_uploaded_by : option uuid;
  dc_created_at : timestamp;
  dc_superseded_at : option timestamp;
  dc_superseded_by : option uuid
}.

#[export] Instance eta_document : Eta document := fun x =>
  mkDocument (dc_id x) (dc_tenant x) (dc_collection x) (dc_filename x) (dc_sha x) (dc_size x)
    (dc_storage_key x) (dc_uploaded_by x) (dc_created_at x) (dc_superseded_at x) (dc_superseded_by x).

Record unanswered_question := mkUnanswered {
  uq_id : uuid;
  uq_tenant : uuid;
  uq_collection : string;
  uq_question : string;
  uq_key : string;
  uq_mode : option string;
  uq_occurrences : Z;
  uq_first_asked_at : timestamp;
  uq_last_asked_at : timestamp;
  uq_last_asked_by : option uuid;
  uq_seeded_into : option string;
  uq_seeded_at : option timestamp
}.

#[export] Instance eta_unanswered : Eta unanswered_question := fun x =>
  mkUnanswered (uq_id x) (uq_tenant x) (uq_collection x) (uq_question x) (uq_key x) (uq_mode x)
    (uq_occurrences x) (uq_first_asked_at x) (uq_last_asked_at x) (uq_last_asked_by x)
    (uq_seeded_into x) (uq_seeded_at x).

(** * Conversations *)

Record session_row := mkSessionRow {
  ss_id : string;
  ss_tenant : uuid;
  ss_principal : uuid;
  ss_workload : string;
  ss_state : json;
  ss_turn_count : Z;
  ss_updated_at : timestamp;
  ss_expires_at : timestamp
}.

#[export] Instance eta_session_row : Eta session_row := fun x =>
  mkSessionRow (ss_id x) (ss_tenant x) (ss_principal x) (ss_workload x) (ss_state x) (ss_turn_count x)
    (ss_updated_at x) (ss_expires_at x).

(** * Evaluation *)

Record eval_dataset := mkEvalDataset {
  ed_id : uuid;
  ed_tenant : uuid;
  ed_name : string;
  ed_collection : string;
  ed_sha : string;
  ed_items : json;
  ed_item_count : Z;
  ed_created_by : option uuid;
  ed_created_at : timestamp
}.

#[export] Instance eta_eval_dataset : Eta eval_dataset := fun x =>
  mkEvalDataset (ed_id x) (ed_tenant x) (ed_name x) (ed_collection x) (ed_sha x) (ed_items x)
    (ed_item_count x) (ed_created_by x) (ed_created_at x).

Record continuous_eval_policy := mkEvalPolicy {
  ep_id : uuid;
  ep_tenant : uuid;
  ep_dataset_name : string;
  ep_interval_seconds : Z;
  ep_top_k : Z;
  ep_next_run_at : timestamp;
  ep_last_scheduled_at : option timestamp;
  ep_last_run : option uuid;
  ep_created_by : option uuid;
  ep_updated_by : option uuid;
  ep_updated_at : timestamp
}.

#[export] Instance eta_eval_policy : Eta continuous_eval_policy := fun x =>
  mkEvalPolicy (ep_id x) (ep_tenant x) (ep_dataset_name x) (ep_interval_seconds x) (ep_top_k x)
    (ep_next_run_at x) (ep_last_scheduled_at x) (ep_last_run x) (ep_created_by x) (ep_updated_by x)
    (ep_updated_at x).

Inductive eval_status := ev_running | ev_completed | ev_failed.

#[export] Instance eval_status_eq_dec : EqDecision eval_status.
Proof. solve_decision. Defined.

(** [eval_run.metrics]: the time taken, how many items were judged, excluded by a reviewer,
    or met an unavailable judge, and the averages of the quality metrics. *)
Record eval_metrics := mkEvalMetrics {
  em_elapsed_s : Q;
  em_items_judged : Z;
  em_items_excluded : Z;
  em_judge_unavailable : Z;
  em_judge_model : option string;
  em_quality : list (string * (option Q * Z));
  em_top_k : Z
}.

Record eval_run := mkEvalRun {
  er_id : uuid;
  er_tenant : uuid;
  er_dataset : uuid;
  er_dataset_sha : string;
  er_code_rev : string;
  er_model_id : string;
  er_cassette_sha : option string;
  er_status : eval_status;
  er_answer_pass_rate : option Q;
  er_retrieval_recall : option Q;
  er_items_run : Z;
  er_items_scoreable : Z;
  er_metrics : option eval_metrics;
  er_started_at : timestamp;
  er_finished_at : option timestamp
}.

#[export] Instance eta_eval_run : Eta eval_run := fun x =>
  mkEvalRun (er_id x) (er_tenant x) (er_dataset x) (er_dataset_sha x) (er_code_rev x) (er_model_id x)
    (er_cassette_sha x) (er_status x) (er_answer_pass_rate x) (er_retrieval_recall x) (er_items_run x)
    (er_items_scoreable x) (er_metrics x) (er_started_at x) (er_finished_at x).

(** One scored item of a run; the columns of [detail] are fields of their own. *)
Record eval_result := mkEvalResult {
  vr_tenant : uuid;
  vr_eval_run : uuid;
  vr_item : string;
  vr_question : string;
  vr_passed : option bool;
  vr_must_cite : list string;
  vr_retrieved : list string;
  vr_recall : option Q;
  vr_answer : string;
  vr_evidence_found : list string;
  vr_reason : string;
  vr_error : string;
  vr_fix_surface : option string;
  vr_judge_unavailable : bool
}.

Inductive answer_source := as_empty | as_llm_drafted | as_sme_edited | as_sme_authored.

#[export] Instance answer_source_eq_dec : EqDecision answer_source.
Proof. solve_decision. Defined.

(** A reviewer's verdict on an item, kept by the name of its dataset. *)
Record eval_item_label := mkItemLabel {
  il_tenant : uuid;
  il_dataset_name : string;
  il_item : string;
  il_answer_source : answer_source;
  il_annotator_model : option string;
  il_annotated_at : option timestamp;
  il_confirmed : bool;
  il_confirmed_by : option uuid;
  il_confirmed_at : option timestamp;
  il_requires_kg_hop : bool;
  il_unusable_reason : option string;
  il_origin : string;
  il_updated_at : timestamp
}.

#[export] Instance eta_item_label : Eta eval_item_label := fun x =>
  mkItemLabel (il_tenant x) (il_dataset_name x) (il_item x) (il_answer_source x) (il_annotator_model x)
    (il_annotated_at x) (il_confirmed x) (il_confirmed_by x) (il_confirmed_at x) (il_requires_kg_hop x)
    (il_unusable_reason x) (il_origin x) (il_updated_at x).

(** The pointer promotion moves. *)
Record eval_baseline := mkEvalBaseline {
  eb_tenant : uuid;
  eb_dataset_name : string;
  eb_eval_run : uuid;
  eb_promoted_by : option uuid;
  eb_promoted_at : timestamp;
  eb_note : option string
}.

#[export] Instance eta_eval_baseline : Eta eval_baseline := fun x =>
  mkEvalBaseline (eb_tenant x) (eb_dataset_name x) (eb_eval_run x) (eb_promoted_by x) (eb_promoted_at x)
    (eb_note x).

(** * Onboarding *)

Inductive onboarding_status := on_drafting | on_draft_ready | on_approved | on_published | on_failed | on_cancelled.

#[export] Instance onboarding_status_eq_dec : EqDecision onboarding_status.
Proof. solve_decision. Defined.

Record onboarding_session := mkOnboarding {
  os_id : uuid;
  os_tenant : uuid;
  os_domain : string;
  os_collection : string;
  os_status : onboarding_status;
  os_progress : list json;
  os_stats : json;
  os_error : option string;
  os_run : option uuid;
  os_created_by : option uuid;
  os_created_at : timestamp;
  os_updated_at : timestamp;
  os_approved_by : option uuid;
  os_approved_at : option timestamp;
  os_published_at : option timestamp;
  os_schema_edited_by : option uuid;
  os_schema_edited_at : option timestamp
}.

#[export] Instance eta_onboarding : Eta onboarding_session := fun x =>
  mkOnboarding (os_id x) (os_tenant x) (os_domain x) (os_collection x) (os_status x) (os_progress x)
    (os_stats x) (os_error x) (os_run x) (os_created_by x) (os_created_at x) (os_updated_at x)
    (os_approved_by x) (os_approved_at x) (os_published_at x) (os_schema_edited_by x) (os_schema_edited_at x).

Record onboarding_artifact := mkArtifact {
  oa_tenant : uuid;
  oa_session : uuid;
  oa_kind : string;
  oa_name : string;
  oa_payload : json;
  oa_created_at : timestamp
}.

#[export] Instance eta_artifact : Eta onboarding_artifact := fun x =>
  mkArtifact (oa_tenant x) (oa_session x) (oa_kind x) (oa_name x) (oa_payload x) (oa_created_at x).

(** * Releases *)

Inductive release_status := rl_candidate | rl_canary | rl_active | rl_rolled_back | rl_retired.

#[export] Instance release_status_eq_dec : EqDecision release_status.
Proof. solve_decision. Defined.

Record release_row := mkRelease {
  rl_revision : string;
  rl_image_tag : string;
  rl_schema_version : string;
  rl_status : release_status;
  rl_weight : Z;
  rl_promoted_at : option timestamp;
  rl_rolled_back_at : option timestamp;
  rl_rollback_reason : option string;
  rl_created_at : timestamp
}.

#[export] Instance eta_release : Eta release_row := fun r =>
  mkRelease (rl_revision r) (rl_image_tag r) (rl_schema_version r) (rl_status r)
    (rl_weight r) (rl_promoted_at r) (rl_rolled_back_at r) (rl_rollback_reason r)
    (rl_created_at r).

Record observation := mkObservation {
  ro_revision : string;
  ro_route : string;
  ro_success : bool;
  ro_status_code : option Z;
  ro_latency_ms : Q;
  ro_at : timestamp
}.

(** * Who may act *)

Record principal_row := mkPrincipalRow {
  pr_id : uuid;
  pr_tenant : uuid;
  pr_subject : string;
  pr_actor_type : string;
  pr_roles : list string;
  pr_password_hash : option string;
  pr_disabled_at : option timestamp
}.

#[export] Instance eta_principal_row : Eta principal_row := fun p =>
  mkPrincipalRow (pr_id p) (pr_tenant p) (pr_subject p) (pr_actor_type p) (pr_roles p)
    (pr_password_hash p) (pr_disabled_at p).

(** * The state

    [audit_seq] is the identity sequence of [audit_event.id].  PostgreSQL does not
    give a sequence value back on rollback; giving it back, as [tx] does, leaves
    every number a fresh one. *)

Record db := mkDb {
  tenants : list tenant_row;
  runs : list run;
  outboxes : list outbox;
  side_effects : list side_effect;
  checkpoints : list agent_checkpoint;
  approvals : list tool_approval;
  executions : list tool_execution;
  grants : list capability_grant;
  audit_events : list audit_event;
  audit_anchors : list audit_chain_anchor;
  usages : list llm_usage;
  reservations : list budget_reservation;
  builds : list collection_build;
  chunks : list chunk;
  releases : list release_row;
  observations : list observation;
  principals : list principal_row;
  documents : list document;
  questions : list unanswered_question;
  sessions : list session_row;
  datasets : list eval_dataset;
  policies : list continuous_eval_policy;
  eval_runs : list eval_run;
  baselines : list eval_baseline;
  onboardings : list onboarding_session;
  artifacts : list onboarding_artifact;
  eval_results : list eval_result;
  item_labels : list eval_item_label;
  audit_seq : Z
}.

#[export] Instance eta_db : Eta db := fun d =>
  mkDb (tenants d) (runs d) (outboxes d) (side_effects d) (checkpoints d) (approvals d)
    (executions d) (grants d) (audit_events d) (audit_anchors d) (usages d)
    (reservations d) (builds d) (chunks d) (releases d) (observations d) (principals d)
    (documents d) (questions d) (sessions d) (datasets d) (policies d)
    (eval_runs d) (baselines d) (onboardings d) (artifacts d) (eval_results d) (item_labels d)
    (audit_seq d).

Definition empty_db : db := mkDb [] [] [] [] [] [] [] [] [] [] [] [] [] [] [] [] [] [] [] [] [] [] [] [] [] [] [] [] 1.

(** * Row-level security *)

Class TenantRow (R : Type) := row_tenant : R → uuid.

#[export] Instance tenant_run : TenantRow run := r_tenant.
#[export] Instance tenant_outbox : TenantRow outbox := ob_tenant.
#[export] Instance tenant_side_effect : TenantRow side_effect := se_tenant.
#[export] Instance tenant_checkpoint : TenantRow agent_checkpoint := cp_tenant.
#[export] Instance tenant_approval : TenantRow tool_approval := ta_tenant.
#[export] Instance tenant_execution : TenantRow tool_execution := te_tenant.
#[export] Instance tenant_grant : TenantRow capability_grant := cg_tenant.
#[export] Instance tenant_audit_event : TenantRow audit_event := ae_tenant.
#[export] Instance tenant_anchor : TenantRow audit_chain_anchor := an_tenant.
#[export] Instance tenant_usage : TenantRow llm_usage := lu_tenant.
#[export] Instance tenant_reservation : TenantRow budget_reservation := br_tenant.
#[export] Instance tenant_build : TenantRow collection_build := cb_tenant.
#[export] Instance tenant_chunk : TenantRow chunk := ch_tenant.
#[export] Instance tenant_principal : TenantRow principal_row := pr_tenant.
#[export] Instance tenant_documents : TenantRow document := dc_tenant.
#[export] Instance tenant_questions : TenantRow unanswered_question := uq_tenant.
#[export] Instance tenant_sessions : TenantRow session_row := ss_tenant.
#[export] Instance tenant_datasets : TenantRow eval_dataset := ed_tenant.
#[export] Instance tenant_policies : TenantRow continuous_eval_policy := ep_tenant.
#[export] Instance tenant_eval_runs : TenantRow eval_run := er_tenant.
#[export] Instance tenant_baselines : TenantRow eval_baseline := eb_tenant.
#[export] Instance tenant_onboardings : TenantRow onboarding_session := os_tenant.
#[export] Instance tenant_artifacts : TenantRow onboarding_artifact := oa_tenant.
#[export] Instance tenant_eval_results : TenantRow eval_result := vr_tenant.
#[export] Instance tenant_item_labels : TenantRow eval_item_label := il_tenant.

(** The tenant-isolation policy conjoined to a statement's predicate: what a
    statement of [tenant_session(t)] can see or touch. *)
Definition visible {R} `{TenantRow R} (t : uuid) (p : R → bool) (r : R) : bool :=
  (row_tenant r =? t)%N && p r.

(** * Statements

    [UPDATE ... WHERE p RETURNING *], [INSERT], [SELECT] and [DELETE] on the table
    of rows of type [R]. *)

Class Table (R : Type) := mkTable {
  rows : db → list R;
  put : list R → db → db;
  rows_put : ∀ l d, rows (put l d) = l;
  put_rows : ∀ d, put (rows d) d = d
}.
Arguments mkTable {R} _ _ _ _.

Ltac table get set := refine (mkTable get set _ _); [by intros ? []|by intros []].


#[export] Instance table_tenants : Table tenant_row.
Proof. table tenants (fun l d => d <| tenants := l |>). Defined.
#[export] Instance table_runs : Table run.
Proof. table runs (fun l d => d <| runs := l |>). Defined.
#[export] Instance table_outboxes : Table outbox.
Proof. table outboxes (fun l d => d <| outboxes := l |>). Defined.
#[export] Instance table_side_effects : Table side_effect.
Proof. table side_effects (fun l d => d <| side_effects := l |>). Defined.
#[export] Instance table_checkpoints : Table agent_checkpoint.
Proof. table checkpoints (fun l d => d <| checkpoints := l |>). Defined.
#[export] Instance table_approvals : Table tool_approval.
Proof. table approvals (fun l d => d <| approvals := l |>). Defined.
#[export] Instance table_executions : Table tool_execution.
Proof. table executions (fun l d => d <| executions := l |>). Defined.
#[export] Instance table_grants : Table capability_grant.
Proof. table grants (fun l d => d <| grants := l |>). Defined.
#[export] Instance table_audit_events : Table audit_event.
Proof. table audit_events (fun l d => d <| audit_events := l |>). Defined.
#[export] Instance table_audit_anchors : Table audit_chain_anchor.
Proof. table audit_anchors (fun l d => d <| audit_anchors := l |>). Defined.
#[export] Instance table_usages : Table llm_usage.
Proof. table usages (fun l d => d <| usages := l |>). Defined.
#[export] Instance table_reservations : Table budget_reservation.
Proof. table reservations (fun l d => d <| reservations := l |>). Defined.
#[export] Instance table_builds : Table collection_build.
Proof. table builds (fun l d => d <| builds := l |>). Defined.
#[export] Instance table_chunks : Table chunk.
Proof. table chunks (fun l d => d <| chunks := l |>). Defined.
#[export] Instance table_releases : Table release_row.
Proof. table releases (fun l d => d <| releases := l |>). Defined.
#[export] Instance table_principals : Table principal_row.
Proof. table principals (fun l d => d <| principals := l |>). Defined.
#[export] Instance table_observations : Table observation.
Proof. table observations (fun l d => d <| observations := l |>). Defined.
#[export] Instance table_documents : Table document.
Proof. table documents (fun l d => d <| documents := l |>). Defined.
#[export] Instance table_questions : Table unanswered_question.
Proof. table questions (fun l d => d <| questions := l |>). Defined.
#[export] Instance table_sessions : Table session_row.
Proof. table sessions (fun l d => d <| sessions := l |>). Defined.
#[export] Instance table_datasets : Table eval_dataset.
Proof. table datasets (fun l d => d <| datasets := l |>). Defined.
#[export] Instance table_policies : Table continuous_eval_policy.
Proof. table policies (fun l d => d <| policies := l |>). Defined.
#[export] Instance table_eval_runs : Table eval_run.
Proof. table eval_runs (fun l d => d <| eval_runs := l |>). Defined.
#[export] Instance table_baselines : Table eval_baseline.
Proof. table baselines (fun l d => d <| baselines := l |>). Defined.
#[export] Instance table_onboardings : Table onboarding_session.
Proof. table onboardings (fun l d => d <| onboardings := l |>). Defined.
#[export] Instance table_artifacts : Table onboarding_artifact.
Proof. table artifacts (fun l d => d <| artifacts := l |>). Defined.
#[export] Instance table_eval_results : Table eval_result.
Proof. table eval_results (fun l d => d <| eval_results := l |>). Defined.
#[export] Instance table_item_labels : Table eval_item_label.
Proof. table item_labels (fun l d => d <| item_labels := l |>). Defined.

Definition sql_select {R} `{Table R} (p : R → bool) : M db (list R) :=
  gets (fun d => select_where p (rows d)).

Definition sql_insert {R} `{Table R} (r : R) : M db unit :=
  modify (fun d => put (rows d ++ [r]) d).

Definition sql_update {R} `{Table R} (p : R → bool) (f : R → R) : M db (list R) :=
  fun d => (Ok (map f (select_where p (rows d))), put (update_where p f (rows d)) d).

Definition sql_delete {R} `{Table R} (p : R → bool) : M db Z :=
  fun d => (Ok (count (select_where p (rows d))), put (delete_where p (rows d)) d).

(** The transaction block [with tenant_session(t) as s: ...] over the database. *)
Definition tenant_session {A} (m : M db A) : M db A := tx m.

(** [with relay_session(...) as s: ...]: the credential whose policies admit
    every tenant's rows of three tables. *)
Definition relay_session {A} (m : M db A) : M db A := tx m.

(** A statement of the database inside a larger state. *)
Definition on_db {W A} (m : M db A) : M (db * W) A :=
  fun s => let (r, d) := m (fst s) in (r, (d, snd s)).

(** * Lemmas *)

(** A block that ran to the end of its transaction. *)
Lemma tx_row {A B} (m : M db A) (g : A → B) d a d' :
  m d = (Ok a, d') → (row <- tenant_session m ;; ret (g row)) d = (Ok (g a), d').
Proof. intros E. unfold bind, tenant_session, tx. by rewrite E. Qed.

Lemma on_db_inv {W A} (m : M db A) (s : db * W) r s' : on_db m s = (r, s') → m s.1 = (r, s'.1) ∧ s'.2 = s.2.
Proof. unfold on_db. destruct (m s.1) as [r0 d]. by intros [= -> <-]. Qed.

Section keyed.
Context {R K : Type} {T : Table R} (key : R → K).

(** An UPDATE whose predicate fixes a unique key touches one row or none. *)
Lemma update_by_key (p : R → bool) (f : R → R) (i : K) (d : db) :
  List.NoDup (map key (rows d)) → (∀ r, p r = true → key r = i) →
  let m := (updated <- sql_update p f ;; one_or_none updated) in
  (∀ r, In r (rows d) → p r = false) ∧ m d = (Ok None, d)
  ∨ ∃ r, In r (rows d) ∧ p r = true ∧
         m d = (Ok (Some (f r)), put (update_where p f (rows d)) d).
Proof.
  intros Hnd Hp m. unfold m, bind, sql_update.
  destruct (select_where p (rows d)) as [|r l] eqn:E.
  - left. pose proof (proj1 (select_where_nil p (rows d)) E) as E'. split; [done|]. cbn. by rewrite update_where_id, put_rows.
  - right. exists r.
    assert (Hr : In r (rows d) ∧ p r = true).
    { assert (Hin : In r (select_where p (rows d))) by (rewrite E; by left).
      by apply filter_In in Hin. }
    destruct Hr as [Hr Hpr]. repeat split; auto.
    rewrite (select_by_key key p (rows d) r) in E; auto.
    + by invc E.
    + intros r' _ Hr'. by rewrite (Hp r'), (Hp r).
Qed.

Lemma select_by_key_one (p : R → bool) (i : K) (d : db) :
  List.NoDup (map key (rows d)) → (∀ r, p r = true → key r = i) →
  let m := (found <- sql_select p ;; one_or_none found) in
  (∀ r, In r (rows d) → p r = false) ∧ m d = (Ok None, d)
  ∨ ∃ r, In r (rows d) ∧ p r = true ∧ m d = (Ok (Some r), d).
Proof.
  intros Hnd Hp m. unfold m, bind, sql_select, gets.
  destruct (select_where p (rows d)) as [|r l] eqn:E.
  - left. pose proof (proj1 (select_where_nil p (rows d)) E) as E'. done.
  - right. exists r.
    assert (Hr : In r (rows d) ∧ p r = true).
    { assert (Hin : In r (select_where p (rows d))) by (rewrite E; by left).
      by apply filter_In in Hin. }
    destruct Hr as [Hr Hpr]. repeat split; auto.
    rewrite (select_by_key key p (rows d) r) in E; auto.
    + by invc E.
    + intros r' _ Hr'. by rewrite (Hp r'), (Hp r).
Qed.

End keyed.

Section isolation.
Context {R : Type} `{TenantRow R}.

Lemma visible_tenant t p (r : R) : visible t p r = true → row_tenant r = t.
Proof. unfold visible. intros E. by bool_to_prop. Qed.

(** No statement of a tenant's session changes a row of another tenant. *)
Lemma update_visible_other t p f (l : list R) r :
  (∀ x, row_tenant (f x) = row_tenant x) →
  row_tenant r ≠ t → In r (update_where (visible t p) f l) ↔ In r l ∧ row_tenant r ≠ t.
Proof.
  intros Hf Hr. rewrite in_update_where. split.
  - intros (x & Hx & ->). destruct (visible t p x) eqn:E.
    + apply visible_tenant in E. rewrite Hf in Hr. done.
    + done.
  - intros [Hin _]. exists r. split; [done|].
    destruct (visible t p r) eqn:E; [|done]. by apply visible_tenant in E.
Qed.

Lemma delete_visible_other t p (l : list R) r :
  row_tenant r ≠ t → In r (delete_where (visible t p) l) ↔ In r l.
Proof.
  intros Hr. rewrite in_delete_where. split; [by intros []|]. intros Hin. split; [done|].
  destruct (visible t p r) eqn:E; [|done]. by apply visible_tenant in E.
Qed.

(** Nor does a query of it return one. *)
Lemma select_visible t p (l : list R) r :
  In r (select_where (visible t p) l) → row_tenant r = t ∧ In r l ∧ p r = true.
Proof.
  unfold select_where. rewrite filter_In. unfold visible. intros [Hin E].
  by bool_to_prop.
Qed.

End isolation.
