(* ===== verification/Leases.v ===== *)
(** Leases: work is held with a deadline, and a holder that dies loses its grip
    ([platform_core/correctness/leases.py], [platform_core/correctness/cancellation.py]
    and the UPDATE of [cancel_run] in [platform_core/api/routes/runs.py]).

    Each operation is one transaction; [now] is that transaction's [now()].
    [random()] and the set of rows other transactions hold locked are arguments.
    Backoff arithmetic is exact where the code uses floats. *)
From S2P Require Import Prelude Json Identity Db.

Record retry_settings := mkRetry {
  run_retry_base_seconds : Q;
  run_retry_max_seconds : Q;
  run_retry_jitter_ratio : Q
}.

Definition DEFAULT_LEASE : interval := seconds 60.

Definition HEARTBEAT_RATIO : Q := 3 # 10.

Definition total_seconds (d : interval) : Q := (d # 1000000)%Q.

(** [random.random()] is the argument [rnd]. *)
Definition retry_delay (st : retry_settings) (attempt : Z) (retry_after : option interval)
    (rnd : Q) : interval :=
  let exponential :=
    Qmin_bool (run_retry_max_seconds st)
      (run_retry_base_seconds st * inject_Z (2 ^ Z.max 0 (attempt - 1)))%Q in
  let floor := match retry_after with Some d => total_seconds d | None => 0%Q end in
  let base := Qmax_bool exponential floor in
  let jitter := (base * run_retry_jitter_ratio st * rnd)%Q in
  timedelta_seconds (Qmin_bool (run_retry_max_seconds st) (base + jitter)%Q).

Record LeasedRun := mkLeased {
  lr_run_id : uuid;
  lr_tenant : Tenant;
  lr_workload : string;
  lr_input : json;
  lr_attempt : Z;
  lr_max_attempts : Z;
  lr_leased_by : string;
  lr_lease_expires_at : timestamp
}.

Definition heartbeat_interval (run : LeasedRun) (now : timestamp) : interval :=
  let remaining := lr_lease_expires_at run - now in
  Z.max (seconds 1) (round_half_even (inject_Z remaining * HEARTBEAT_RATIO)).

(** * Acquisition *)

Definition claimable (now : timestamp) (r : run) : bool :=
  bool_decide (r_status r = pending) && (r_available_at r <=? now)
  && is_none (r_cancel_requested_at r) && (r_attempt r <? r_max_attempts r).

(** [ORDER BY priority DESC, available_at, created_at]. *)
Definition claim_order (a b : run) : bool :=
  if r_priority a =? r_priority b then
    if r_available_at a =? r_available_at b then r_created_at a <=? r_created_at b
    else r_available_at a <? r_available_at b
  else r_priority b <? r_priority a.

(** The SET clause of both acquisitions. *)
Definition take_lease (now : timestamp) (worker : string) (lease : interval) (r : run) : run :=
  r <| r_status := leased |>
    <| r_leased_by := Some worker |>
    <| r_lease_expires_at := Some (now + lease) |>
    <| r_last_heartbeat_at := Some now |>
    <| r_started_at := Some (coalesce (r_started_at r) now) |>
    <| r_attempt := r_attempt r + 1 |>.

Definition leased_run (tenant : Tenant) (worker : string) (r : run) : LeasedRun :=
  mkLeased (r_id r) tenant (r_workload r) (r_input r) (r_attempt r) (r_max_attempts r)
    worker (coalesce (r_lease_expires_at r) 0).

(** The WHERE clause of [acquire] inside the tenant's session; [locked] is what
    [SKIP LOCKED] skips. *)
Definition eligible (now : timestamp) (locked : uuid → bool) (t : uuid)
    (workload : option string) : run → bool :=
  visible t (fun r =>
    claimable now r
    && match workload with None => true | Some w => String.eqb (r_workload r) w end
    && negb (locked (r_id r))).

Definition next_run (now : timestamp) (locked : uuid → bool) (t : uuid)
    (workload : option string) (rs : list run) : list run :=
  firstn 1 (order_by claim_order (select_where (eligible now locked t workload) rs)).

Definition acquire (now : timestamp) (locked : uuid → bool) (tenant : Tenant)
    (worker_id : string) (workload : option string) (lease : interval)
    : M db (option LeasedRun) :=
  row <- tenant_session (
    d <- get ;;
    let next := next_run now locked (tenant_uuid tenant) workload (runs d) in
    updated <- sql_update
      (visible (tenant_uuid tenant) (fun r => existsb (fun n => r_id n =? r_id r)%N next))
      (take_lease now worker_id lease) ;;
    one_or_none updated) ;;
  ret (option_map (leased_run tenant worker_id) row).

Definition acquire_specific (now : timestamp) (tenant : Tenant) (run_id : uuid)
    (worker_id : string) (lease : interval) : M db (option LeasedRun) :=
  row <- tenant_session (
    updated <- sql_update
      (visible (tenant_uuid tenant) (fun r => (r_id r =? run_id)%N && claimable now r))
      (take_lease now worker_id lease) ;;
    one_or_none updated) ;;
  ret (option_map (leased_run tenant worker_id) row).

(** * The holder's operations *)

(** [WHERE id = :id AND status = 'leased' AND leased_by = :worker]. *)
Definition held_by (run : LeasedRun) (r : Db.run) : bool :=
  (r_id r =? lr_run_id run)%N && bool_decide (r_status r = leased)
  && eqb_opt String.eqb (r_leased_by r) (lr_leased_by run).

Definition not_cancelling (r : run) : bool := is_none (r_cancel_requested_at r).

(** One fenced UPDATE in the run's tenant session, and whether a row came back. *)
Definition fenced (run : LeasedRun) (p : Db.run → bool) (f : Db.run → Db.run) : M db bool :=
  row <- tenant_session (
    updated <- sql_update (visible (tenant_uuid (lr_tenant run)) p) f ;;
    one_or_none updated) ;;
  ret (is_some row).

Definition extend_lease (now : timestamp) (extend : interval) (r : run) : run :=
  r <| r_lease_expires_at := Some (now + extend) |> <| r_last_heartbeat_at := Some now |>.

Definition heartbeat (now : timestamp) (run : LeasedRun) (extend : interval) : M db bool :=
  fenced run (fun r => held_by run r && not_cancelling r) (extend_lease now extend).

(** [leased_by = NULL, lease_expires_at = NULL]. *)
Definition release_lease (r : run) : run :=
  r <| r_leased_by := None |> <| r_lease_expires_at := None |>.

Definition set_succeeded (now : timestamp) (res : json) (r : run) : run :=
  release_lease
    (r <| r_status := succeeded |> <| r_finished_at := Some now |> <| r_result := Some res |>).

(** [result or {}]: None and an empty dict are both stored as the empty object. *)
Definition complete (now : timestamp) (run : LeasedRun) (res : option json) : M db bool :=
  fenced run (fun r => held_by run r && not_cancelling r)
    (set_succeeded now (coalesce res (JObj []))).

Definition set_failed (now : timestamp) (error : string) (terminal : bool) (delay : interval)
    (r : run) : run :=
  let over := terminal || is_some (r_cancel_requested_at r) in
  release_lease
    (r <| r_status := if is_some (r_cancel_requested_at r) then cancelled
                      else if terminal then failed else pending |>
       <| r_error := Some error |>
       <| r_finished_at := if over then Some now else None |>
       <| r_available_at := if over then r_available_at r else now + delay |>).

Definition is_terminal (run : LeasedRun) (retryable : bool) : bool :=
  negb retryable || (lr_max_attempts run <=? lr_attempt run).

Definition fail (st : retry_settings) (now : timestamp) (rnd : Q) (run : LeasedRun)
    (error : string) (retryable : bool) (retry_after : option interval) : M db bool :=
  let terminal := is_terminal run retryable in
  let delay := if terminal then 0 else retry_delay st (lr_attempt run) retry_after rnd in
  fenced run (held_by run) (set_failed now (str_take 4000 error) terminal delay).

Definition set_cancelled (now : timestamp) (r : run) : run :=
  release_lease (r <| r_status := cancelled |> <| r_finished_at := Some now |>).

Definition acknowledge_cancellation (now : timestamp) (run : LeasedRun) : M db bool :=
  fenced run (fun r => held_by run r && is_some (r_cancel_requested_at r)) (set_cancelled now).

(** * The reaper *)

(** [lease_expires_at < now() - :grace]; a NULL deadline is never below it. *)
Definition expired (now : timestamp) (grace : interval) (r : run) : bool :=
  bool_decide (r_status r = leased)
  && match r_lease_expires_at r with Some e => e <? now - grace | None => false end.

(** [LEAST(:retry_max, :retry_base * power(2, GREATEST(attempt - 1, 0)) *
    (1 + :retry_jitter * random())) * interval '1 second']. *)
Definition reap_delay (st : retry_settings) (attempt : Z) (rnd : Q) : interval :=
  timedelta_seconds
    (Qmin_bool (run_retry_max_seconds st)
       (run_retry_base_seconds st * inject_Z (2 ^ Z.max (attempt - 1) 0)
        * (1 + run_retry_jitter_ratio st * rnd)))%Q.

Definition set_reaped (st : retry_settings) (now : timestamp) (rnd : uuid → Q) (r : run) : run :=
  let cancelling := is_some (r_cancel_requested_at r) in
  let exhausted := r_max_attempts r <=? r_attempt r in
  release_lease
    (r <| r_status := if cancelling then cancelled else if exhausted then failed else pending |>
       <| r_error := if cancelling then r_error r
                     else if exhausted then Some "lease expired and max attempts reached"
                     else r_error r |>
       <| r_finished_at := if cancelling || exhausted then Some now else None |>
       <| r_available_at := if cancelling || exhausted then r_available_at r
                            else now + reap_delay st (r_attempt r) (rnd (r_id r)) |>).

(** The second UPDATE: the dead attempt's step claims. *)
Definition release_claim (e : side_effect) : side_effect := e <| se_claim_expires_at := None |>.

Definition claim_of (ids : list uuid) (e : side_effect) : bool :=
  existsb (fun i => se_run e =? i)%N ids && bool_decide (se_status e = started).

Definition reap_expired (st : retry_settings) (now : timestamp) (rnd : uuid → Q)
    (grace : interval) : M db (list run) :=
  relay_session (
    reaped <- sql_update (expired now grace) (set_reaped st now rnd) ;;
    when (negb (count reaped =? 0))
      (sql_update (claim_of (map r_id reaped)) release_claim ;; ret tt) ;;
    ret reaped).

(** * Cancellation *)

(** The UPDATE of [cancel_run]. *)
Definition set_cancel_requested (now : timestamp) (by_ : uuid) (r : run) : run :=
  r <| r_cancel_requested_at := Some (coalesce (r_cancel_requested_at r) now) |>
    <| r_cancel_requested_by := Some (coalesce (r_cancel_requested_by r) by_) |>
    <| r_status := if bool_decide (r_status r = pending) then cancelled else r_status r |>
    <| r_finished_at := if bool_decide (r_status r = pending) then Some now
                        else r_finished_at r |>.

Definition cancellable (run_id : uuid) (r : run) : bool :=
  (r_id r =? run_id)%N
  && (bool_decide (r_status r = pending) || bool_decide (r_status r = leased)
      || bool_decide (r_status r = cancelled)).

Definition request_cancel (now : timestamp) (t : uuid) (run_id by_ : uuid) : M db (option run) :=
  tenant_session (
    updated <- sql_update (visible t (cancellable run_id)) (set_cancel_requested now by_) ;;
    one_or_none updated).

Definition cancellation_point (ctx : RequestContext) : M db unit :=
  match run_id ctx with
  | None => ret tt
  | Some id =>
      row <- tenant_session (
        found <- sql_select (visible (tenant_of ctx) (fun r => r_id r =? id)%N) ;;
        one_or_none found) ;;
      match row with
      | Some r =>
          if bool_decide (r_status r = cancelled) || is_some (r_cancel_requested_at r)
          then raise RunCancelled else ret tt
      | None => ret tt
      end
  end.

(** * Lemmas *)

Lemma cancellation_point_same ctx d : snd (cancellation_point ctx d) = d.
Proof.
  unfold cancellation_point. destruct (run_id ctx); [|done].
  unfold bind, tenant_session, tx, sql_select, gets, one_or_none. cbn [rows table_runs].
  destruct (select_where _ _) as [|r [|? ?]]; cbn; try done. by destruct (_ || _).
Qed.

(** ** Backoff *)

Record retry_settings_ok (st : retry_settings) : Prop := {
  base_pos : (0 < run_retry_base_seconds st)%Q;
  max_pos : (0 < run_retry_max_seconds st)%Q;
  jitter_nonneg : (0 <= run_retry_jitter_ratio st)%Q
}.

Lemma timedelta_mono a b : (a <= b)%Q → timedelta_seconds a <= timedelta_seconds b.
Proof. intros H. apply round_half_even_mono. apply Qmult_le_compat_r; [done|easy]. Qed.

Lemma Qmin_bool_le_l a b : (Qmin_bool a b <= a)%Q.
Proof.
  unfold Qmin_bool. destruct (Qle_bool a b) eqn:E; [apply Qle_refl|].
  apply Qlt_le_weak, Qnot_le_lt. intros H. apply Qle_bool_iff in H. congruence.
Qed.

Lemma Qmin_bool_glb a b c : (c <= a)%Q → (c <= b)%Q → (c <= Qmin_bool a b)%Q.
Proof. unfold Qmin_bool. by destruct (Qle_bool a b). Qed.

Lemma Qmin_bool_mono_r a b c : (b <= c)%Q → (Qmin_bool a b <= Qmin_bool a c)%Q.
Proof.
  intros H. apply Qmin_bool_glb; [apply Qmin_bool_le_l|]. unfold Qmin_bool.
  destruct (Qle_bool a b) eqn:E; [|done]. apply Qle_bool_iff in E. by eapply Qle_trans.
Qed.

Lemma Qmax_bool_ub_l a b : (a <= Qmax_bool a b)%Q.
Proof.
  unfold Qmax_bool. destruct (Qle_bool a b) eqn:E; [by apply Qle_bool_iff|apply Qle_refl].
Qed.

Lemma pow2_pos n : 0 <= n → 0 < 2 ^ n.
Proof. intros H. by apply Z.pow_pos_nonneg. Qed.

Lemma exponential_pos st attempt :
  retry_settings_ok st →
  (0 < Qmin_bool (run_retry_max_seconds st)
         (run_retry_base_seconds st * inject_Z (2 ^ Z.max 0 (attempt - 1))))%Q.
Proof.
  intros [Hb Hm _].
  assert (Hp : (0 < inject_Z (2 ^ Z.max 0 (attempt - 1)))%Q).
  { unfold Qlt, inject_Z. cbn [Qnum Qden]. pose proof (pow2_pos (Z.max 0 (attempt - 1))). lia. }
  unfold Qmin_bool. destruct (Qle_bool _ _); [done|].
  eapply Qle_lt_trans; [|by apply Qmult_lt_compat_r]. rewrite Qmult_0_l. apply Qle_refl.
Qed.

(** The delay, before jitter. *)
Definition backoff_base (st : retry_settings) (attempt : Z) (retry_after : option interval) : Q :=
  Qmax_bool
    (Qmin_bool (run_retry_max_seconds st)
       (run_retry_base_seconds st * inject_Z (2 ^ Z.max 0 (attempt - 1))))
    (match retry_after with Some d => total_seconds d | None => 0 end).

Lemma retry_delay_base st attempt retry_after rnd :
  retry_settings_ok st → (0 <= rnd)%Q →
  timedelta_seconds (Qmin_bool (run_retry_max_seconds st) (backoff_base st attempt retry_after))
  <= retry_delay st attempt retry_after rnd
  <= timedelta_seconds (run_retry_max_seconds st).
Proof.
  intros Hst Hr. pose proof (exponential_pos st attempt Hst) as Hpos. destruct Hst as [Hb Hm Hj].
  unfold retry_delay. cbn zeta. fold (backoff_base st attempt retry_after).
  assert (Hbase : (0 <= backoff_base st attempt retry_after)%Q).
  { eapply Qle_trans; [by apply Qlt_le_weak|apply Qmax_bool_ub_l]. }
  split; apply timedelta_mono; [|apply Qmin_bool_le_l].
  apply Qmin_bool_mono_r. rewrite <- (Qplus_0_r (backoff_base _ _ _)) at 1.
  apply Qplus_le_r. by repeat apply Qmult_le_0_compat.
Qed.

Lemma retry_delay_pos st attempt retry_after rnd :
  retry_settings_ok st → (0 <= rnd)%Q → 0 <= retry_delay st attempt retry_after rnd.
Proof.
  intros Hst Hr. pose proof (exponential_pos st attempt Hst) as Hpos.
  pose proof (retry_delay_base st attempt retry_after rnd Hst Hr) as [H _].
  etransitivity; [|exact H]. apply round_half_even_nonneg.
  apply Qmult_le_0_compat; [|easy]. destruct Hst as [_ Hm _].
  apply Qmin_bool_glb; [by apply Qlt_le_weak|].
  eapply Qle_trans; [by apply Qlt_le_weak|apply Qmax_bool_ub_l].
Qed.

(** ** Statements *)

Definition with_runs (d : db) (l : list run) : db := d <| runs := l |>.

Lemma held_by_id run r : held_by run r = true → r_id r = lr_run_id run.
Proof. unfold held_by. intros E. by bool_to_prop. Qed.

Lemma held_by_spec run r :
  held_by run r = true ↔
  r_id r = lr_run_id run ∧ r_status r = leased ∧ r_leased_by r = Some (lr_leased_by run).
Proof.
  unfold held_by, eqb_opt. split.
  - intros E. bool_to_prop. destruct (r_leased_by r); [|done]. bool_to_prop. by subst.
  - intros (-> & -> & ->). rewrite N.eqb_refl, String.eqb_refl. done.
Qed.

(** A fenced write either changes the one row its holder holds or nothing. *)
Lemma fenced_cases run p f d :
  List.NoDup (map r_id (runs d)) → (∀ r, p r = true → held_by run r = true) →
  (∀ r, In r (runs d) → visible (tenant_uuid (lr_tenant run)) p r = false)
    ∧ fenced run p f d = (Ok false, d)
  ∨ ∃ r, In r (runs d) ∧ visible (tenant_uuid (lr_tenant run)) p r = true
    ∧ fenced run p f d
      = (Ok true, with_runs d (update_where (visible (tenant_uuid (lr_tenant run)) p) f (runs d))).
Proof.
  intros Hnd Hp. set (t := tenant_uuid (lr_tenant run)).
  assert (Hid : ∀ r, visible t p r = true → r_id r = lr_run_id run).
  { intros r E. unfold visible in E. bool_to_prop. by apply held_by_id, Hp. }
  destruct (update_by_key (T := table_runs) r_id (visible t p) f (lr_run_id run) d Hnd Hid)
    as [[Hno E]|(r & Hr & Hpr & E)]; [left|right; exists r].
  - split; [done|]. exact (tx_row _ is_some d _ _ E).
  - repeat split; auto. exact (tx_row _ is_some d _ _ E).
Qed.

(** ** Acquisition *)

Lemma claim_order_total a b : claim_order a b = true ∨ claim_order b a = true.
Proof.
  unfold claim_order. repeat (case_match; bool_to_prop); rewrite ?Z.leb_le, ?Z.ltb_lt; lia.
Qed.

Lemma claim_order_trans a b c :
  claim_order a b = true → claim_order b c = true → claim_order a c = true.
Proof.
  unfold claim_order. intros H1 H2.
  repeat (case_match; bool_to_prop); rewrite ?Z.leb_le, ?Z.ltb_lt in *; lia.
Qed.

Lemma next_run_spec now locked t workload rs :
  match next_run now locked t workload rs with
  | [] => ∀ x, In x rs → eligible now locked t workload x = false
  | r :: rest =>
      rest = [] ∧ In r rs ∧ eligible now locked t workload r = true ∧
      ∀ x, In x rs → eligible now locked t workload x = true → x = r ∨ claim_order r x = true
  end.
Proof.
  unfold next_run. destruct (order_by _ _) as [|r l] eqn:E; cbn.
  - intros x Hx. destruct (eligible now locked t workload x) eqn:Ex; [|done]. exfalso.
    assert (Hin : In x (order_by claim_order (select_where (eligible now locked t workload) rs))).
    { apply in_order_by. by apply filter_In. }
    by rewrite E in Hin.
  - assert (Hin : In r (select_where (eligible now locked t workload) rs)).
    { rewrite <- (in_order_by claim_order), E. by left. }
    apply filter_In in Hin as [Hr He]. repeat split; auto. intros x Hx Hex.
    destruct (order_by_head claim_order claim_order_total claim_order_trans _ _ _ x E) as [->|H];
      auto. by apply filter_In.
Qed.

Lemma acquire_cases now locked tenant w workload lease d :
  List.NoDup (map r_id (runs d)) →
  (∀ x, In x (runs d) → eligible now locked (tenant_uuid tenant) workload x = false)
    ∧ acquire now locked tenant w workload lease d = (Ok None, d)
  ∨ ∃ r, In r (runs d) ∧ eligible now locked (tenant_uuid tenant) workload r = true
    ∧ (∀ x, In x (runs d) → eligible now locked (tenant_uuid tenant) workload x = true →
         x = r ∨ claim_order r x = true)
    ∧ acquire now locked tenant w workload lease d
      = (Ok (Some (leased_run tenant w (take_lease now w lease r))),
         with_runs d (update_where (fun x => r_id x =? r_id r)%N (take_lease now w lease) (runs d))).
Proof.
  intros Hnd. set (t := tenant_uuid tenant).
  pose proof (next_run_spec now locked t workload (runs d)) as Hspec.
  set (p := visible t (fun r =>
    existsb (fun n => r_id n =? r_id r)%N (next_run now locked t workload (runs d)))).
  set (m := updated <- sql_update p (take_lease now w lease) ;; one_or_none updated).
  assert (Hm : ∀ o d', m d = (Ok o, d') →
    acquire now locked tenant w workload lease d = (Ok (option_map (leased_run tenant w) o), d')).
  { intros o d' E. apply tx_row. exact E. }
  destruct (next_run now locked t workload (runs d)) as [|r rest] eqn:En; [left|right].
  - assert (Hno : ∀ x, p x = true → r_id x = 0%N).
    { unfold p, visible. intros x. cbn. by rewrite andb_false_r. }
    split; [done|]. apply (Hm None).
    destruct (update_by_key (T := table_runs) r_id p (take_lease now w lease) 0%N d Hnd Hno)
      as [[_ E]|(x & _ & Hx & _)]; [exact E|].
    unfold p, visible in Hx. cbn in Hx. by rewrite andb_false_r in Hx.
  - destruct Hspec as (-> & Hr & He & Hmin). exists r. repeat split; auto.
    assert (Hp : ∀ x, p x = true ↔ r_tenant x = t ∧ r_id x = r_id r).
    { intros x. unfold p, visible. cbn. rewrite orb_false_r, andb_true_iff, !N.eqb_eq.
      split; intros [? ?]; auto. }
    assert (Ht : r_tenant r = t) by (by apply visible_tenant in He).
    destruct (update_by_key (T := table_runs) r_id p (take_lease now w lease) (r_id r) d Hnd)
      as [[Hno E]|(x & Hx & Hpx & E)].
    { intros x Hx. by apply Hp. }
    { specialize (Hno r Hr). assert (p r = true) by (by apply Hp). congruence. }
    assert (x = r) as -> by (apply (key_unique r_id (runs d)); auto; by apply Hp).
    rewrite (Hm _ _ E). f_equal. apply (f_equal (with_runs d)). apply update_where_ext.
    intros y Hy. split; [|done]. apply eq_true_iff_eq. rewrite Hp, N.eqb_eq.
    split; [by intros []|]. intros Ey. split; [|done].
    by rewrite (key_unique r_id (runs d) y r Hnd Hy Hr Ey).
Qed.

Definition specific (now : timestamp) (t run_id : uuid) : run → bool :=
  visible t (fun r => (r_id r =? run_id)%N && claimable now r).

Lemma acquire_specific_cases now tenant id w lease d :
  List.NoDup (map r_id (runs d)) →
  (∀ x, In x (runs d) → specific now (tenant_uuid tenant) id x = false)
    ∧ acquire_specific now tenant id w lease d = (Ok None, d)
  ∨ ∃ r, In r (runs d) ∧ specific now (tenant_uuid tenant) id r = true
    ∧ acquire_specific now tenant id w lease d
      = (Ok (Some (leased_run tenant w (take_lease now w lease r))),
         with_runs d (update_where (fun x => r_id x =? r_id r)%N (take_lease now w lease) (runs d))).
Proof.
  intros Hnd. set (t := tenant_uuid tenant).
  assert (Hid : ∀ r, specific now t id r = true → r_id r = id).
  { intros r E. unfold specific, visible in E. by bool_to_prop. }
  destruct (update_by_key (T := table_runs) r_id (specific now t id) (take_lease now w lease)
    id d Hnd Hid) as [[Hno E]|(r & Hr & Hpr & E)]; [left|right; exists r].
  - split; [done|]. exact (tx_row _ (option_map (leased_run tenant w)) d _ _ E).
  - repeat split; auto.
    pose proof (tx_row _ (option_map (leased_run tenant w)) d _ _ E) as E'.
    etransitivity; [exact E'|]. f_equal. apply (f_equal (with_runs d)).
    apply update_where_ext. intros y Hy. split; [|done]. apply eq_true_iff_eq.
    rewrite N.eqb_eq. split.
    + intros Ey. by rewrite (Hid y Ey), (Hid r Hpr).
    + intros Ey. by rewrite (key_unique r_id (runs d) y r Hnd Hy Hr Ey).
Qed.

(** ** The reaper *)

Definition reap_claims (ids : list uuid) (es : list side_effect) : list side_effect :=
  update_where (claim_of ids) release_claim es.

Lemma claim_of_nil e : claim_of [] e = false.
Proof. done. Qed.

Lemma reap_expired_eq st now rnd grace d :
  reap_expired st now rnd grace d =
  (let gone := select_where (expired now grace) (runs d) in
   (Ok (map (set_reaped st now rnd) gone),
    (with_runs d (update_where (expired now grace) (set_reaped st now rnd) (runs d)))
      <| side_effects := reap_claims (map r_id gone) (side_effects d) |>)).
Proof.
  unfold reap_expired, relay_session, tx, bind, sql_update. cbn [rows put table_runs].
  cbn zeta.
  assert (Hids : map r_id (map (set_reaped st now rnd) (select_where (expired now grace) (runs d)))
                 = map r_id (select_where (expired now grace) (runs d))).
  { rewrite map_map. by apply map_ext. }
  rewrite Hids. destruct (select_where (expired now grace) (runs d)) as [|r l] eqn:E.
  - cbn. unfold reap_claims. rewrite (update_where_id (claim_of [])) by done.
    by destruct d.
  - cbn. unfold when. assert ((count (set_reaped st now rnd r :: map (set_reaped st now rnd) l) =? 0)
      = false) as ->; [|done]. apply Z.eqb_neq. unfold count. cbn [length]. lia.
Qed.

Lemma set_reaped_not_expired st now rnd grace r :
  expired now grace (set_reaped st now rnd r) = false.
Proof.
  unfold expired, set_reaped. cbn. destruct (is_some (r_cancel_requested_at r)); [done|].
  by destruct (r_max_attempts r <=? r_attempt r).
Qed.

(** * What the leases guarantee *)

Module LeaseDemo.
Definition st : retry_settings := mkRetry 2 300 (1 # 4).
Definition row (id : uuid) (status : run_status) (holder : option string) (attempt : Z)
    (expires : option timestamp) (priority created : Z) : run :=
  mkRun id 1 "echo" status None None (JObj []) None None holder expires attempt 3
    created None None None priority None None created None None None.
Definition d : db :=
  empty_db <| runs := [ row 1 pending None 0 None 0 30; row 2 pending None 0 None 5 20;
                        row 3 leased (Some "w2") 2 (Some 400) 0 10 ] |>.
Definition zombie : LeasedRun := mkLeased 3 Demo.tenant_a "echo" (JObj []) 1 3 "w1" 90.
Definition holder : LeasedRun := mkLeased 3 Demo.tenant_a "echo" (JObj []) 2 3 "w2" 400.
Lemma lease_ids : List.NoDup (map r_id (runs d)).
Proof. vm_compute. repeat (constructor; [intros H; cbn in H; intuition discriminate|]). constructor. Qed.
End LeaseDemo.

(** A handle no row honours writes nothing. *)
Lemma unheld_writes_nothing run d :
  List.NoDup (map r_id (runs d)) → (∀ r, In r (runs d) → held_by run r = false) →
  (∀ now extend, heartbeat now run extend d = (Ok false, d)) ∧
  (∀ now res, complete now run res d = (Ok false, d)) ∧
  (∀ st now rnd err retryable after, fail st now rnd run err retryable after d = (Ok false, d)) ∧
  (∀ now, acknowledge_cancellation now run d = (Ok false, d)).
Proof.
  intros Hids Hno.
  assert (H : ∀ p f, (∀ r, p r = true → held_by run r = true) → fenced run p f d = (Ok false, d)).
  { intros p f Hp. destruct (fenced_cases run p f d Hids Hp) as [[_ E]|(r & Hr & Hv & _)]; [done|].
    unfold visible in Hv. bool_to_prop. specialize (Hno r Hr). specialize (Hp r H0). congruence. }
  repeat split; intros; apply H; intros r E; by bool_to_prop.
Qed.

(** Completion writes exactly the outcome of the holder's own run: it returns
    [True] iff a row of the tenant is leased by this worker with no cancellation
    pending, and then that row alone becomes [succeeded] with the result stored and
    the lease released. *)
Theorem complete_spec now run res d :
  List.NoDup (map r_id (runs d)) →
  let mine r := visible (tenant_uuid (lr_tenant run)) (fun r => held_by run r && not_cancelling r) r in
  (∀ r, In r (runs d) → mine r = false) ∧ complete now run res d = (Ok false, d)
  ∨ ∃ r, In r (runs d) ∧ mine r = true ∧
      complete now run res d =
        (Ok true, with_runs d (map (fun x => if (r_id x =? lr_run_id run)%N
          then set_succeeded now (coalesce res (JObj [])) x else x) (runs d))).
Proof.
  intros Hids mine. set (f := set_succeeded now (coalesce res (JObj []))).
  destruct (fenced_cases run (fun r => held_by run r && not_cancelling r) f d Hids)
    as [[Hno E]|(r & Hr & Hv & E)].
  { intros r E. by bool_to_prop. }
  - by left.
  - right. exists r. repeat split; auto. unfold complete. fold f. rewrite E.
    f_equal. apply (f_equal (with_runs d)). apply map_ext_in. intros x Hx. fold mine in Hv.
    assert (Hid : r_id r = lr_run_id run).
    { unfold mine, visible in Hv. bool_to_prop. by apply held_by_id. }
    destruct (r_id x =? lr_run_id run)%N eqn:Ex; bool_to_prop.
    + by rewrite (key_unique r_id (runs d) x r Hids Hx Hr ltac:(congruence)), Hv.
    + destruct (visible _ _ x) eqn:Ev; [|done]. unfold visible in Ev. bool_to_prop.
      by apply held_by_id in H0.
Qed.

Lemma complete_spec_witness :
  ∃ d', complete 100 LeaseDemo.holder (Some (JInt 7)) LeaseDemo.d = (Ok true, d') ∧
        map r_status (runs d') = [pending; pending; succeeded].
Proof.
  destruct (complete_spec 100 LeaseDemo.holder (Some (JInt 7)) LeaseDemo.d) as [[H _]|(r & _ & _ & E)].
  - exact LeaseDemo.lease_ids.
  - exfalso. specialize (H (LeaseDemo.row 3 leased (Some "w2") 2 (Some 400) 0 10)).
    cbn in H. discriminate H. auto.
  - eexists. split; [exact E|]. vm_compute. reflexivity.
Defined.

(** [acquire] leases a run whenever one is eligible, and of the eligible ones
    it takes the first by priority, then availability, then age; that run alone
    becomes [leased] with its attempt counted, and rows locked by a concurrent
    acquisition are never taken. *)
Theorem acquire_spec now locked tenant w workload lease d :
  List.NoDup (map r_id (runs d)) →
  let can := eligible now locked (tenant_uuid tenant) workload in
  (∀ x, In x (runs d) → can x = false) ∧ acquire now locked tenant w workload lease d = (Ok None, d)
  ∨ ∃ r, In r (runs d) ∧ can r = true ∧ locked (r_id r) = false ∧
      (∀ x, In x (runs d) → can x = true → x = r ∨ claim_order r x = true) ∧
      acquire now locked tenant w workload lease d =
        (Ok (Some (mkLeased (r_id r) tenant (r_workload r) (r_input r) (r_attempt r + 1)
                     (r_max_attempts r) w (now + lease))),
         with_runs d (map (fun x => if (r_id x =? r_id r)%N then take_lease now w lease x else x)
                        (runs d))).
Proof.
  intros Hids can.
  destruct (acquire_cases now locked tenant w workload lease d Hids)
    as [H|(r & Hr & He & Hmin & E)]; [by left|right].
  exists r. repeat split; auto. unfold eligible, visible in He. by bool_to_prop.
Qed.

Lemma acquire_spec_witness :
  ∃ h d', acquire 100 (fun _ => false) Demo.tenant_a "w9" None DEFAULT_LEASE LeaseDemo.d
          = (Ok (Some h), d') ∧ lr_run_id h = 2%N ∧ map r_status (runs d') = [pending; leased; leased].
Proof.
  destruct (acquire_spec 100 (fun _ => false) Demo.tenant_a "w9" None DEFAULT_LEASE LeaseDemo.d
    LeaseDemo.lease_ids) as [[H _]|(r & Hr & _ & _ & Hmin & E)].
  - specialize (H _ (or_introl eq_refl)). vm_compute in H. discriminate H.
  - eexists _, _. split; [exact E|]. cbn [lr_run_id].
    assert (r_id r = 2%N) as Hid.
    { destruct (Hmin _ (or_intror (or_introl eq_refl)) eq_refl) as [<-|Hle]; [reflexivity|].
      destruct Hr as [<-|[<-|[<-|[]]]]; [vm_compute in Hle; discriminate Hle|reflexivity|].
      vm_compute in E. discriminate E. }
    rewrite Hid. split; [reflexivity|vm_compute; reflexivity].
Defined.

Lemma expired_spec now grace r : expired now grace r = true ↔
  r_status r = leased ∧ ∃ e, r_lease_expires_at r = Some e ∧ e + grace < now.
Proof.
  unfold expired. rewrite andb_true_iff, bool_decide_eq_true. apply and_iff_compat_l.
  destruct (r_lease_expires_at r) as [e|].
  - rewrite Z.ltb_lt. split; [intros H; exists e; split; [done|lia]|intros (? & [= <-] & H); lia].
  - split; [done|by intros (? & ? & _)].
Qed.

(** The reaper acts on exactly the expired leases, those of leased rows whose end
    lies more than the grace period in the past: no row that was not expired changes, every expired one ends cancelled (if cancellation was requested),
    failed (if its attempts are exhausted) or pending again, none is left expired,
    and the step claims it releases are the [started] ones of the reaped runs. *)
Theorem reap_spec st now rnd grace d rows d' :
  reap_expired st now rnd grace d = (Ok rows, d') →
  (∀ r, expired now grace r = true ↔
     r_status r = leased ∧ ∃ e, r_lease_expires_at r = Some e ∧ e + grace < now) ∧
  (∀ r', In r' (runs d') → ∃ r, In r (runs d) ∧
     if expired now grace r then
       r_id r' = r_id r ∧ r_leased_by r' = None ∧ r_attempt r' = r_attempt r ∧
       r_status r' = (if is_some (r_cancel_requested_at r) then cancelled
                      else if r_max_attempts r <=? r_attempt r then failed else pending)
     else r' = r) ∧
  (∀ r', In r' (runs d') → expired now grace r' = false) ∧
  (∀ e', In e' (side_effects d') → ∃ e, In e (side_effects d) ∧
     if bool_decide (se_status e = started) &&
        existsb (fun r => (r_id r =? se_run e)%N && expired now grace r) (runs d)
     then e' = release_claim e else e' = e).
Proof.
  rewrite reap_expired_eq. cbn zeta. intros [= <- <-]. cbn [runs side_effects with_runs].
  split; [intros r; apply expired_spec|split; [|split]].
  - intros r' (r & Hr & ->)%in_update_where. exists r. split; [done|].
    by destruct (expired now grace r).
  - intros r' (r & Hr & ->)%in_update_where. destruct (expired now grace r) eqn:E; [|done].
    apply set_reaped_not_expired.
  - intros e' (e & He & ->)%in_update_where. exists e. split; [done|]. unfold claim_of.
    assert (existsb (fun i => se_run e =? i)%N (map r_id (select_where (expired now grace) (runs d)))
      = existsb (fun r => (r_id r =? se_run e)%N && expired now grace r) (runs d)) as ->.
    { apply eq_true_iff_eq. rewrite !existsb_exists. split.
      - intros (i & (r & <- & [Hr Ex]%filter_In)%in_map_iff & Ei). exists r.
        split; [done|]. by rewrite N.eqb_sym, Ei, Ex.
      - intros (r & Hr & Ex). bool_to_prop. exists (r_id r). split; [|by apply N.eqb_eq].
        by apply in_map, filter_In. }
    rewrite andb_comm. by destruct (_ && _).
Qed.

Lemma reap_spec_witness :
  ∃ rows d', reap_expired LeaseDemo.st 500 (fun _ => 0%Q) 0 LeaseDemo.d = (Ok rows, d') ∧
    map r_status (runs d') = [pending; pending; pending] ∧
    ∀ r', In r' (runs d') → expired 500 0 r' = false.
Proof.
  eexists _, _. split; [vm_compute; reflexivity|]. split; [reflexivity|].
  eapply (reap_spec LeaseDemo.st 500 (fun _ => 0%Q) 0 LeaseDemo.d). vm_compute. reflexivity.
Defined.

(** The retry delay is at least the smaller of the configured maximum and the
    larger of the exponential backoff and the provider's guidance, and never more
    than the configured maximum - so it does fall below guidance that exceeds the
    maximum. *)
Theorem retry_delay_bounds st attempt after rnd :
  retry_settings_ok st → (0 <= rnd)%Q →
  let expo := Qmin_bool (run_retry_max_seconds st)
                (run_retry_base_seconds st * inject_Z (2 ^ Z.max 0 (attempt - 1)))%Q in
  let guidance := match after with Some d => total_seconds d | None => 0%Q end in
  0 <= retry_delay st attempt after rnd ∧
  timedelta_seconds (Qmin_bool (run_retry_max_seconds st) (Qmax_bool expo guidance))
    <= retry_delay st attempt after rnd <= timedelta_seconds (run_retry_max_seconds st).
Proof.
  intros Hst Hr. split; [by apply retry_delay_pos|by apply retry_delay_base].
Qed.

Lemma retry_delay_bounds_witness :
  retry_delay LeaseDemo.st 1 (Some (seconds 400)) 0 = seconds 300 ∧
  retry_delay LeaseDemo.st 3 None 0 = seconds 8 ∧
  0 <= retry_delay LeaseDemo.st 3 None (1 # 2) <= seconds 300.
Proof.
  split; [vm_compute; reflexivity|]. split; [vm_compute; reflexivity|].
  destruct (retry_delay_bounds LeaseDemo.st 3 None (1 # 2)) as (H1 & _ & H2).
  - constructor; reflexivity || discriminate.
  - discriminate.
  - split; [exact H1|exact H2].
Defined.
