(* ===== verification/Outbox.v ===== *)
(** The transactional outbox: intent is recorded with the run and published later
    ([platform_core/correctness/outbox.py], [apps/relay/main.py]).

    [enqueue_run] takes part in its caller's transaction.  Its fast-path SELECT and
    its INSERT are two statements; [between] is what other transactions commit in
    the meantime.  The broker, the error text and the trace carrier are
    parameters. *)
From S2P Require Import Prelude Json Identity Db.

(** * Admission *)

(** The conflict target [(tenant_id, idempotency_key)]; a NULL key is distinct
    from every other. *)
Definition same_key (t : uuid) (key : option string) (r : run) : bool :=
  (r_tenant r =? t)%N &&
  match key with Some k => eqb_opt String.eqb (r_key r) k | None => false end.

Definition new_run (now : timestamp) (fresh : uuid) (ctx : RequestContext) (workload : string)
    (payload : json) (key : option string) (max_attempts : Z) (release : string) : run :=
  mkRun fresh (tenant_of ctx) workload pending key (Some (principal_uuid (principal ctx)))
    payload None None None None 0 max_attempts now None None None 0 (Some release)
    (Some (coalesce (correlation_id ctx) (request_id ctx))) now None None None.

(** [INSERT ... ON CONFLICT (tenant_id, idempotency_key) DO UPDATE SET workload =
    run.workload RETURNING id, (xmax = 0) AS inserted]. *)
Definition insert_run (r : run) : M db (uuid * bool) :=
  existing <- sql_select (same_key (r_tenant r) (r_key r)) ;;
  match existing with
  | x :: _ => ret (r_id x, false)
  | [] => sql_insert r ;; ret (r_id r, true)
  end.

Definition new_outbox (now : timestamp) (serial : Z) (ctx : RequestContext) (run_id : uuid)
    (workload : string) (payload trace : json) : outbox :=
  mkOutbox serial (tenant_of ctx) run_id workload payload (Some trace) now None 0 None.

Definition enqueue_run (now : timestamp) (fresh : uuid) (serial : Z) (between : db → db)
    (release : string) (trace : json) (ctx : RequestContext) (workload : string)
    (payload : json) (idempotency_key : option string) (max_attempts : Z)
    : M db (uuid * bool) :=
  let key := py_or idempotency_key (Identity.idempotency_key ctx) in
  existing <-
    (if truthy key then
       found <- sql_select (visible (tenant_of ctx) (same_key (tenant_of ctx) key)) ;;
       one_or_none found
     else ret None) ;;
  match existing with
  | Some r => ret (r_id r, false)
  | None =>
      modify between ;;
      row <- insert_run (new_run now fresh ctx workload payload key max_attempts release) ;;
      let '(id, inserted) := row in
      if negb inserted then ret (id, false)
      else
        sql_insert (new_outbox now serial ctx id workload payload trace) ;;
        ret (id, true)
  end.

(** * The relay *)

Record OutboxRow := mkOutboxRow {
  or_id : Z;
  or_tenant : uuid;
  or_run : uuid;
  or_workload : string;
  or_payload : json;
  or_trace : json
}.

Definition entry_of (o : outbox) : OutboxRow :=
  mkOutboxRow (ob_id o) (ob_tenant o) (ob_run o) (ob_workload o) (ob_payload o)
    (coalesce (ob_trace o) (JObj [])).

Definition unpublished (o : outbox) : bool := is_none (ob_published_at o).

(** [row_number() OVER (PARTITION BY tenant_id ORDER BY id)] over the unpublished
    rows. *)
Definition position (os : list outbox) (o : outbox) : Z :=
  count (select_where (fun x => unpublished x && (ob_tenant x =? ob_tenant o)%N
                                && (ob_id x <=? ob_id o)) os).

(** [ORDER BY pos, id]. *)
Definition drain_order (os : list outbox) (a b : outbox) : bool :=
  if position os a =? position os b then ob_id a <=? ob_id b
  else position os a <? position os b.

(** The rows of one pass: a round-robin over tenants, oldest first, of which the
    rows locked by other relay replicas are skipped. *)
Definition candidates (n : nat) (os : list outbox) : list outbox :=
  firstn n (order_by (drain_order os) (select_where unpublished os)).

Definition drain_batch (n : nat) (locked : Z → bool) (os : list outbox) : list outbox :=
  select_where (fun o => negb (locked (ob_id o))) (candidates n os).

Section drain.
Variable publish : OutboxRow → result unit.
Variable error_text : exn → string.

Definition mark_failed (e : exn) (o : outbox) : outbox :=
  o <| ob_attempts := ob_attempts o + 1 |>
    <| ob_last_error := Some (str_take 2000 (error_text e)) |>.

Definition mark_published (now : timestamp) (o : outbox) : outbox :=
  o <| ob_published_at := Some now |>.

Definition mark_enqueued (now : timestamp) (r : run) : run :=
  r <| r_last_enqueued_at := Some now |>.

(** One turn of the loop: whether the row counts as published. *)
Definition drain_one (now : timestamp) (o : outbox) : M db bool :=
  match publish (entry_of o) with
  | Raise e => sql_update (fun x => ob_id x =? ob_id o) (mark_failed e) ;; ret false
  | Ok _ =>
      sql_update (fun x => ob_id x =? ob_id o) (mark_published now) ;;
      sql_update (fun r => r_id r =? ob_run o)%N (mark_enqueued now) ;;
      ret true
  end.

Fixpoint drain_rows (now : timestamp) (os : list outbox) : M db Z :=
  match os with
  | [] => ret 0
  | o :: os' =>
      ok <- drain_one now o ;;
      n <- drain_rows now os' ;;
      ret (if ok then n + 1 else n)
  end.

Definition drain (now : timestamp) (locked : Z → bool) (batch_size : nat) : M db Z :=
  relay_session (
    os <- gets outboxes ;;
    drain_rows now (drain_batch batch_size locked os)).

End drain.

(** [(count, age in seconds of the oldest)] of the unpublished rows. *)
Definition backlog (now : timestamp) (d : db) : Z * Q :=
  let rows := select_where unpublished (outboxes d) in
  (count rows,
   match map ob_created_at rows with
   | [] => 0%Q
   | c :: cs => Qmake (now - foldr Z.min c cs) 1000000
   end).

Definition poison_rows (min_attempts : Z) (d : db) : list outbox :=
  firstn 100 (order_by (fun a b => ob_attempts b <=? ob_attempts a)
    (select_where (fun o => unpublished o && (min_attempts <=? ob_attempts o)) (outboxes d))).

(** * Lemmas *)

(** [UNIQUE (tenant_id, idempotency_key)], NULLs distinct. *)
Definition keys_unique (rs : list run) : Prop :=
  ∀ r r', In r rs → In r' rs → r_tenant r = r_tenant r' → r_key r = r_key r' →
  is_some (r_key r) = true → r_id r = r_id r'.

Definition conflicts (t : uuid) (key : option string) (rs : list run) : list run :=
  select_where (same_key t key) rs.

Lemma same_key_spec t key r :
  same_key t key r = true ↔ r_tenant r = t ∧ r_key r = key ∧ is_some key = true.
Proof.
  unfold same_key, eqb_opt. rewrite andb_true_iff, N.eqb_eq.
  destruct key as [k|], (r_key r) as [k'|]; rewrite ?String.eqb_eq; split;
    intros H; destruct_and?; simplify_eq; naive_solver.
Qed.

Lemma find_existing t key d :
  List.NoDup (map r_id (runs d)) → keys_unique (runs d) →
  (found <- sql_select (visible t (same_key t key)) ;; one_or_none found) d
  = (Ok (match conflicts t key (runs d) with r :: _ => Some r | [] => None end), d).
Proof.
  intros Hids Hkeys. unfold bind, sql_select, gets. cbn [rows table_runs].
  assert (Hv : select_where (visible t (same_key t key)) (runs d) = conflicts t key (runs d)).
  { unfold conflicts, select_where. apply filter_ext. intros r. unfold visible, same_key.
    unfold row_tenant, tenant_run. by destruct (r_tenant r =? t)%N. }
  rewrite Hv. destruct (conflicts t key (runs d)) as [|r l] eqn:E; [done|].
  assert (Hin : In r (conflicts t key (runs d))) by (rewrite E; by left).
  apply filter_In in Hin as [Hr Hk].
  unfold conflicts in E. rewrite (select_by_key r_id _ (runs d) r) in E; auto.
  { by invc E. }
  intros r' Hr' Hk'. apply same_key_spec in Hk as (Ht & Hke & Hs), Hk' as (Ht' & Hke' & _).
  apply Hkeys; auto; congruence.
Qed.

(** The three ways an admission can go: resolved by the fast path, resolved by
    the unique constraint, or admitted together with its outbox row. *)
Lemma enqueue_cases now fresh serial between rel trace ctx wl payload ik maxa d :
  List.NoDup (map r_id (runs d)) → keys_unique (runs d) →
  let key := py_or ik (Identity.idempotency_key ctx) in
  let t := tenant_of ctx in
  let d1 := between d in
  let m := enqueue_run now fresh serial between rel trace ctx wl payload ik maxa d in
  (∃ r, In r (runs d) ∧ same_key t key r = true ∧ m = (Ok (r_id r, false), d))
  ∨ (truthy key = true → conflicts t key (runs d) = []) ∧
    ((∃ r, In r (runs d1) ∧ same_key t key r = true ∧ m = (Ok (r_id r, false), d1))
     ∨ conflicts t key (runs d1) = [] ∧
       m = (Ok (fresh, true),
            d1 <| runs := runs d1 ++ [new_run now fresh ctx wl payload key maxa rel] |>
               <| outboxes := outboxes d1 ++ [new_outbox now serial ctx fresh wl payload trace] |>)).
Proof.
  intros Hids Hkeys key t d1 m.
  assert (Htail : ∀ d0,
    (modify between ;;
     row <- insert_run (new_run now fresh ctx wl payload key maxa rel) ;;
     let '(id, inserted) := row in
     if negb inserted then ret (id, false)
     else sql_insert (new_outbox now serial ctx id wl payload trace) ;; ret (id, true)) d0
    = (let d1 := between d0 in
       match conflicts t key (runs d1) with
       | r :: _ => (Ok (r_id r, false), d1)
       | [] => (Ok (fresh, true),
            d1 <| runs := runs d1 ++ [new_run now fresh ctx wl payload key maxa rel] |>
               <| outboxes := outboxes d1 ++ [new_outbox now serial ctx fresh wl payload trace] |>)
       end)).
  { intros d0. unfold bind, modify, insert_run, sql_select, gets. cbn.
    unfold conflicts. fold t.
    destruct (select_where (same_key t key) (runs (between d0))) as [|r l]; reflexivity. }
  assert (Hend : m = match conflicts t key (runs d1) with
       | r :: _ => (Ok (r_id r, false), d1)
       | [] => (Ok (fresh, true),
            d1 <| runs := runs d1 ++ [new_run now fresh ctx wl payload key maxa rel] |>
               <| outboxes := outboxes d1 ++ [new_outbox now serial ctx fresh wl payload trace] |>)
       end → (∃ r, In r (runs d1) ∧ same_key t key r = true ∧ m = (Ok (r_id r, false), d1))
     ∨ conflicts t key (runs d1) = [] ∧
       m = (Ok (fresh, true),
            d1 <| runs := runs d1 ++ [new_run now fresh ctx wl payload key maxa rel] |>
               <| outboxes := outboxes d1 ++ [new_outbox now serial ctx fresh wl payload trace] |>)).
  { intros ->. destruct (conflicts t key (runs d1)) as [|r l] eqn:E; [by right|left].
    assert (Hin : In r (conflicts t key (runs d1))) by (rewrite E; by left).
    apply filter_In in Hin as []. eauto. }
  unfold m, enqueue_run in *. fold key t in Hend |- *. destruct (truthy key).
  - unfold bind at 1. unfold bind at 1 in Hend. rewrite find_existing in Hend |- * by done.
    destruct (conflicts t key (runs d)) as [|r l] eqn:E.
    + right. split; [done|]. apply Hend. by rewrite Htail.
    + left. assert (Hin : In r (conflicts t key (runs d))) by (rewrite E; by left).
      apply filter_In in Hin as []. eauto.
  - right. split; [done|]. apply Hend. unfold bind at 1, ret at 1. by rewrite Htail.
Qed.

Section order.
Variable os : list outbox.
Hypothesis ids : List.NoDup (map ob_id os).

Lemma drain_order_total a b : drain_order os a b = true ∨ drain_order os b a = true.
Proof using. unfold drain_order. repeat (case_match; bool_to_prop); rewrite ?Z.leb_le, ?Z.ltb_lt; lia. Qed.

Lemma drain_order_trans a b c :
  drain_order os a b = true → drain_order os b c = true → drain_order os a c = true.
Proof using.
  unfold drain_order. intros H1 H2.
  repeat (case_match; bool_to_prop); rewrite ?Z.leb_le, ?Z.ltb_lt in *; lia.
Qed.

Lemma drain_order_antisym a b :
  In a os → In b os → drain_order os a b = true → drain_order os b a = true → a = b.
Proof using ids.
  intros Ha Hb. unfold drain_order. intros H1 H2. apply (key_unique ob_id os); auto.
  repeat (case_match; bool_to_prop); rewrite ?Z.leb_le, ?Z.ltb_lt in *; lia.
Qed.

(** Rows of one tenant are ranked by age. *)
Lemma position_lt a b :
  In b os → unpublished b = true → ob_tenant a = ob_tenant b → ob_id a < ob_id b →
  position os a < position os b.
Proof using.
  unfold position, select_where, count. intros Hb Hub Ht Hid.
  set (p := fun x => unpublished x && (ob_tenant x =? ob_tenant a)%N && (ob_id x <=? ob_id a)).
  set (q := fun x => unpublished x && (ob_tenant x =? ob_tenant b)%N && (ob_id x <=? ob_id b)).
  assert (Hpq : ∀ x, p x = true → q x = true).
  { intros x. unfold p, q. rewrite Ht. intros E. bool_to_prop.
    rewrite H, H1, N.eqb_refl. cbn. apply Z.leb_le. lia. }
  assert (Hqb : q b = true).
  { unfold q. rewrite Hub, N.eqb_refl. cbn. apply Z.leb_le. lia. }
  assert (Hpb : p b = false).
  { unfold p. destruct (unpublished b), (ob_tenant b =? ob_tenant a)%N; cbn; try done.
    apply Z.leb_gt. lia. }
  clearbody p q. clear Ht Hid Hub ids. induction os as [|x l IH]; [done|].
  assert (Hle : (length (List.filter p l) <= length (List.filter q l))%nat).
  { clear IH Hb. induction l as [|y l IH]; cbn; [lia|]. destruct (p y) eqn:Ey.
    - rewrite (Hpq y Ey). cbn. lia.
    - destruct (q y); cbn; lia. }
  cbn. destruct Hb as [->|Hb].
  - rewrite Hpb, Hqb. cbn [length]. lia.
  - specialize (IH Hb). destruct (p x) eqn:Ex.
    + rewrite (Hpq x Ex). cbn [length]. lia.
    + destruct (q x); cbn [length]; lia.
Qed.

Lemma position_ge_1 a : In a os → unpublished a = true → 1 <= position os a.
Proof using.
  intros Ha Hu. unfold position, count.
  assert (In a (select_where (fun x => unpublished x && (ob_tenant x =? ob_tenant a)%N
    && (ob_id x <=? ob_id a)) os)) as Hin.
  { apply filter_In. split; [done|]. rewrite Hu, N.eqb_refl. cbn. apply Z.leb_refl. }
  destruct (select_where _ os); [done|]. cbn [length]. lia.
Qed.

Lemma candidates_in n o : In o (candidates n os) → In o os ∧ unpublished o = true.
Proof using.
  intros H. unfold candidates in H.
  assert (Hin : In o (order_by (drain_order os) (select_where unpublished os))).
  { rewrite <- (firstn_skipn n). apply in_app_iff. by left. }
  apply in_order_by, filter_In in Hin. done.
Qed.

(** The batch is closed under the order: what precedes a row of it is in it. *)
Lemma candidates_closed n x y :
  In x os → unpublished x = true → In y (candidates n os) → drain_order os x y = true →
  In x (candidates n os).
Proof using ids.
  intros Hx Hu Hy Hxy. unfold candidates in *.
  set (l := order_by (drain_order os) (select_where unpublished os)) in *.
  assert (Hxl : In x l) by (apply in_order_by, filter_In; done).
  rewrite <- (firstn_skipn n l) in Hxl. apply in_app_iff in Hxl as [?|Hxs]; [done|].
  assert (Hyx : drain_order os y x = true).
  { pose proof (order_by_sorted (drain_order os) drain_order_total drain_order_trans
      (select_where unpublished os)) as Hs. fold l in Hs.
    rewrite <- (firstn_skipn n l) in Hs.
    clear -Hs Hy Hxs. induction (firstn n l) as [|z m IH]; [done|]. cbn in Hs. invc Hs.
    destruct Hy as [->|Hy]; [|by apply IH]. rewrite List.Forall_forall in H2.
    apply H2, in_app_iff. by right. }
  assert (Hyos : In y os) by (by apply (candidates_in n) in Hy as []).
  by rewrite (drain_order_antisym x y Hx Hyos Hxy Hyx).
Qed.
End order.

(** ** Fairness *)

Definition backlogged_tenants (os : list outbox) : list uuid :=
  List.nodup N.eq_dec (map ob_tenant (select_where unpublished os)).

(** The oldest unpublished row of its tenant. *)
Definition oldest (os : list outbox) (o : outbox) : Prop :=
  In o os ∧ unpublished o = true ∧
  ∀ x, In x os → unpublished x = true → ob_tenant x = ob_tenant o → ob_id o <= ob_id x.

Lemma oldest_position os o :
  List.NoDup (map ob_id os) → oldest os o → position os o = 1.
Proof.
  intros Hnd (Ho & Hu & Hmin). unfold position.
  rewrite (select_by_key ob_id _ os o Hnd Ho); [done| |].
  - rewrite Hu, N.eqb_refl. cbn. apply Z.leb_refl.
  - intros x Hx E. bool_to_prop. specialize (Hmin x Hx H H1). lia.
Qed.

(** Two rows of a batch prefix ranked first belong to different tenants. *)
Lemma first_ranked_distinct os l :
  List.NoDup (map ob_id os) → List.NoDup l →
  (∀ x, In x l → In x os ∧ unpublished x = true ∧ position os x = 1) →
  List.NoDup (map ob_tenant l).
Proof.
  intros Hids Hnd Hl. induction Hnd as [|x l Hx Hnd IH]; cbn; constructor.
  - intros Hin. apply in_map_iff in Hin as (y & Et & Hy).
    destruct (Hl x ltac:(by left)) as (Hx' & Hux & Hpx).
    destruct (Hl y ltac:(by right)) as (Hy' & Huy & Hpy).
    destruct (Z.lt_trichotomy (ob_id x) (ob_id y)) as [H|[H|H]].
    + pose proof (position_lt os x y Hy' Huy (eq_sym Et) H). lia.
    + by rewrite (key_unique ob_id os x y Hids Hx' Hy' H) in Hx.
    + pose proof (position_lt os y x Hx' Hux Et H). lia.
  - apply IH. intros y Hy. apply Hl. by right.
Qed.

(** A batch with room for every tenant holds every tenant's oldest row. *)
Lemma candidates_fair n os o :
  List.NoDup (map ob_id os) → oldest os o →
  (length (backlogged_tenants os) <= n)%nat → In o (candidates n os).
Proof.
  intros Hids Hold Hn. pose proof (oldest_position os o Hids Hold) as Hpos.
  pose proof Hold as (Ho & Hu & Hmin).
  destruct (in_dec Z.eq_dec (ob_id o) (map ob_id (candidates n os))) as [Hin|Hout].
  { apply in_map_iff in Hin as (y & Ey & Hy).
    pose proof (candidates_in os n y Hy) as [Hyos _].
    by rewrite <- (key_unique ob_id os y o Hids Hyos Ho Ey). }
  exfalso.
  assert (Hno : ¬ In o (candidates n os)) by (intros H; apply Hout, in_map_iff; eauto).
  assert (Hall : ∀ y, In y (candidates n os) →
    In y os ∧ unpublished y = true ∧ position os y = 1).
  { intros y Hy. destruct (candidates_in os n y Hy) as [Hyos Hyu]. repeat split; auto.
    pose proof (position_ge_1 os y Hyos Hyu).
    destruct (drain_order_total os o y) as [H'|H'].
    - by destruct Hno; apply (candidates_closed os Hids n o y).
    - unfold drain_order in H'. rewrite Hpos in H'.
      destruct (position os y =? 1) eqn:E; bool_to_prop; lia. }
  set (l := order_by (drain_order os) (select_where unpublished os)).
  assert (Hndl : List.NoDup l).
  { apply (Permutation_NoDup (Permutation_sym (order_by_perm _ _))).
    apply (NoDup_map_inv ob_id). by apply NoDup_map_filter. }
  assert (Hlen : length (candidates n os) = n).
  { unfold candidates. fold l. rewrite firstn_length_le; [done|].
    destruct (Nat.le_gt_cases n (length l)) as [|Hlt]; [done|]. exfalso. apply Hno.
    unfold candidates. fold l. rewrite firstn_all2 by lia.
    apply in_order_by, filter_In. done. }
  assert (Hnd : List.NoDup (map ob_tenant (o :: candidates n os))).
  { apply (first_ranked_distinct os); [done| |].
    - constructor; [done|]. by apply NoDup_firstn.
    - intros x [<-|Hx]; auto. }
  assert (Hincl : incl (map ob_tenant (o :: candidates n os)) (backlogged_tenants os)).
  { intros t Ht. apply in_map_iff in Ht as (x & <- & Hx). apply nodup_In.
    apply in_map, filter_In. destruct Hx as [<-|Hx]; [done|].
    by destruct (Hall x Hx) as (? & ? & _). }
  pose proof (NoDup_incl_length Hnd Hincl) as Hbound.
  rewrite length_map in Hbound. cbn [length] in Hbound. lia.
Qed.

(** ** What one pass does *)

Section drain_effect.
Variable publish : OutboxRow → result unit.
Variable error_text : exn → string.
Variable now : timestamp.

Definition delivered (o : outbox) : bool :=
  match publish (entry_of o) with Ok _ => true | Raise _ => false end.

(** A row after a pass over the batch [os]. *)
Definition drained (os : list outbox) (x : outbox) : outbox :=
  match List.find (fun o => ob_id o =? ob_id x) os with
  | Some o => match publish (entry_of o) with
              | Ok _ => mark_published now x
              | Raise e => mark_failed error_text e x
              end
  | None => x
  end.

Definition enqueued_by (os : list outbox) (r : run) : bool :=
  existsb (fun o => delivered o && (r_id r =? ob_run o)%N) os.

Lemma find_none_fresh (os : list outbox) i :
  ¬ In i (map ob_id os) → List.find (fun o => ob_id o =? i) os = None.
Proof.
  intros H. destruct (List.find _ os) as [o|] eqn:E; [|done].
  apply find_some in E as [Ho E]. bool_to_prop. exfalso. apply H. subst. by apply in_map.
Qed.

Lemma drained_cons o os x :
  ¬ In (ob_id o) (map ob_id os) →
  drained os (if ob_id x =? ob_id o
              then match publish (entry_of o) with
                   | Ok _ => mark_published now x
                   | Raise e => mark_failed error_text e x
                   end
              else x)
  = drained (o :: os) x.
Proof.
  intros Ho. unfold drained. cbn [List.find]. rewrite (Z.eqb_sym (ob_id o) (ob_id x)).
  destruct (ob_id x =? ob_id o) eqn:E; [|done]. bool_to_prop.
  pose proof (find_none_fresh os (ob_id o) Ho) as Hf.
  destruct (publish (entry_of o)) as [[]|e]; cbn; rewrite E, Hf; done.
Qed.

Lemma drain_rows_spec os d :
  List.NoDup (map ob_id os) →
  drain_rows publish error_text now os d =
  (Ok (count (select_where delivered os)),
   d <| outboxes := map (drained os) (outboxes d) |>
     <| runs := update_where (enqueued_by os) (mark_enqueued now) (runs d) |>).
Proof.
  revert d. induction os as [|o os IH]; intros d Hnd; cbn [drain_rows].
  - unfold ret, drained, count. cbn. rewrite map_id. rewrite update_where_id by done. by destruct d.
  - cbn [map] in Hnd. invc Hnd. unfold bind at 1. unfold drain_one.
    assert (Hdel : delivered o = match publish (entry_of o) with Ok _ => true | Raise _ => false end)
      by done.
    set (g := fun x => if ob_id x =? ob_id o
              then match publish (entry_of o) with
                   | Ok _ => mark_published now x
                   | Raise e => mark_failed error_text e x
                   end
              else x).
    assert (Hmap : ∀ l, map (drained os) (map g l) = map (drained (o :: os)) l).
    { intros l. rewrite map_map. apply map_ext. intros x. by apply drained_cons. }
    assert (Hruns : ∀ l, update_where (enqueued_by os) (mark_enqueued now)
      (if delivered o then update_where (fun r => r_id r =? ob_run o)%N (mark_enqueued now) l else l)
      = update_where (enqueued_by (o :: os)) (mark_enqueued now) l).
    { intros l. unfold update_where, enqueued_by. cbn [existsb].
      destruct (delivered o); cbn [andb orb]; [|done]. rewrite map_map. apply map_ext. intros r.
      destruct (r_id r =? ob_run o)%N eqn:E; cbn; [|done]. by destruct (existsb _ os). }
    unfold select_where in *. cbn [List.filter]. rewrite Hdel in *.
    destruct (publish (entry_of o)) as [[]|e]; unfold bind, sql_update, ret; cbn;
      rewrite IH by done; cbn; f_equal; try (unfold count; cbn [length]; f_equal; lia).
    all: unfold set_field; cbn; f_equal; [apply Hruns|apply Hmap].
Qed.

Lemma drain_eq locked n d :
  List.NoDup (map ob_id (outboxes d)) →
  drain publish error_text now locked n d =
  (let os := drain_batch n locked (outboxes d) in
   (Ok (count (select_where delivered os)),
    d <| outboxes := map (drained os) (outboxes d) |>
      <| runs := update_where (enqueued_by os) (mark_enqueued now) (runs d) |>)).
Proof.
  intros Hnd. unfold drain, relay_session, tx, bind, gets.
  rewrite drain_rows_spec; [done|]. unfold drain_batch. apply NoDup_map_filter.
  unfold candidates.
  assert (List.NoDup (map ob_id (order_by (drain_order (outboxes d))
    (select_where unpublished (outboxes d))))) as Hl.
  { apply (Permutation_NoDup (Permutation_map ob_id (Permutation_sym (order_by_perm _ _)))).
    by apply NoDup_map_filter. }
  rewrite <- firstn_map. by apply NoDup_firstn.
Qed.

End drain_effect.

(** * What the outbox guarantees *)

Module OutboxDemo.
Definition msg (id : Z) (t : uuid) (published : option timestamp) : outbox :=
  mkOutbox id t (Z.to_N (100 + id)) "echo" (JObj []) None id published 0 None.
Definition os : list outbox :=
  [msg 1 1 None; msg 2 1 None; msg 3 1 (Some 5); msg 4 1 None; msg 5 2 None; msg 6 3 None].
Definition d : db := empty_db <| outboxes := os |>.
Definition broker (e : OutboxRow) : result unit :=
  if (or_tenant e =? 3)%N then Raise (TransientError None) else Ok tt.
Lemma outbox_ids : List.NoDup (map ob_id os).
Proof. vm_compute. repeat (constructor; [intros H; cbn in H; intuition discriminate|]). constructor. Qed.
End OutboxDemo.

(** C10: admission is atomic and idempotent.  Whatever other transactions commit
    between its lookup and its insert, a request resolves to the existing run of
    its key with nothing written, or inserts exactly one pending run together with
    its outbox row; and repeating it afterwards resolves to the same run. *)
Theorem enqueue_once now fresh serial between rel trace ctx wl payload ik maxa d :
  let key := py_or ik (Identity.idempotency_key ctx) in
  let t := tenant_of ctx in
  List.NoDup (map r_id (runs d)) → keys_unique (runs d) →
  ∃ id created d',
    enqueue_run now fresh serial between rel trace ctx wl payload ik maxa d = (Ok (id, created), d') ∧
    (if created
     then conflicts t key (runs (between d)) = [] ∧
          runs d' = runs (between d) ++ [new_run now id ctx wl payload key maxa rel] ∧
          outboxes d' = outboxes (between d) ++ [new_outbox now serial ctx id wl payload trace]
     else (d' = d ∨ d' = between d) ∧ ∃ r, In r (runs d') ∧ r_id r = id ∧ same_key t key r = true) ∧
    (truthy key = true → ∀ now' fresh' serial' between' rel' trace' wl' payload' maxa',
       List.NoDup (map r_id (runs d')) → keys_unique (runs d') →
       enqueue_run now' fresh' serial' between' rel' trace' ctx wl' payload' ik maxa' d'
         = (Ok (id, false), d')).
Proof.
  intros key t Hids Hkeys.
  assert (Hagain : ∀ d' r, In r (runs d') → same_key t key r = true → truthy key = true →
    ∀ now' fresh' serial' between' rel' trace' wl' payload' maxa',
       List.NoDup (map r_id (runs d')) → keys_unique (runs d') →
       enqueue_run now' fresh' serial' between' rel' trace' ctx wl' payload' ik maxa' d'
         = (Ok (r_id r, false), d')).
  { intros d' r Hr Hk Hkey now' fresh' serial' between' rel' trace' wl' payload' maxa' Hids' Hkeys'.
    destruct (enqueue_cases now' fresh' serial' between' rel' trace' ctx wl' payload' ik maxa' d'
      Hids' Hkeys') as [(r' & Hr' & Hk' & ->)|[Hno _]].
    - do 3 f_equal. fold t key in Hk'. apply same_key_spec in Hk as (? & ? & ?), Hk' as (? & ? & ?).
      apply Hkeys'; auto; congruence.
    - specialize (Hno Hkey). exfalso. unfold conflicts in Hno. fold t key in Hno.
      pose proof (proj1 (select_where_nil _ _) Hno r Hr). congruence. }
  destruct (enqueue_cases now fresh serial between rel trace ctx wl payload ik maxa d Hids Hkeys)
    as [(r & Hr & Hk & E)|[_ [(r & Hr & Hk & E)|[Hno E]]]]; eexists _, _, _; split; try exact E.
  - split; [split; [by left|by exists r]|]. intros Hkey. by apply Hagain.
  - split; [split; [by right|by exists r]|]. intros Hkey. by apply Hagain.
  - split; [done|]. intros Hkey. set (r := new_run now fresh ctx wl payload key maxa rel).
    apply (Hagain _ r); [apply in_app_iff; right; by left| |done].
    apply same_key_spec. repeat split. unfold truthy in Hkey. by destruct key.
Qed.

Lemma enqueue_once_witness :
  ∃ id created d', enqueue_run 5 42 1 (fun d => d) "r1" (JObj []) Demo.ctx "echo" (JObj []) None 3
    empty_db = (Ok (id, created), d') ∧ created = true ∧
    enqueue_run 9 43 2 (fun d => d) "r1" (JObj []) Demo.ctx "echo" (JObj []) None 3 d'
      = (Ok (id, false), d').
Proof.
  destruct (enqueue_once 5 42 1 (fun d => d) "r1" (JObj []) Demo.ctx "echo" (JObj []) None 3 empty_db)
    as (id & created & d' & E & _ & Hagain).
  - constructor.
  - intros r r' [].
  - exists id, created, d'. split; [exact E|]. vm_compute in E. injection E as E1 E2 E3. subst.
    split; [reflexivity|]. apply Hagain; [reflexivity| |].
    + repeat constructor. intros [].
    + intros r r' [<-|[]] [<-|[]]; reflexivity.
Defined.

(** One relay pass is a fair round-robin: within a tenant it takes rows oldest
    first, and when the batch has room for every tenant with a backlog it contains
    the oldest unpublished row of each, however deep another tenant's backlog. *)
Theorem drain_is_fair n os :
  List.NoDup (map ob_id os) →
  (∀ x y, In y (candidates n os) → In x os → unpublished x = true →
          ob_tenant x = ob_tenant y → ob_id x < ob_id y → In x (candidates n os)) ∧
  ((length (backlogged_tenants os) <= n)%nat → ∀ o, oldest os o → In o (candidates n os)).
Proof.
  intros Hids. split.
  - intros x y Hy Hx Hu Ht Hlt. apply (candidates_closed os Hids n x y); auto.
    pose proof (candidates_in os n y Hy) as [Hyos Hyu].
    pose proof (position_lt os x y Hyos Hyu Ht Hlt). unfold drain_order.
    destruct (position os x =? position os y) eqn:E; bool_to_prop; [lia|]. by apply Z.ltb_lt.
  - intros Hn o Ho. by apply candidates_fair.
Qed.

Lemma drain_is_fair_witness :
  map ob_id (candidates 3 OutboxDemo.os) = [1; 5; 6] ∧
  In (OutboxDemo.msg 6 3 None) (candidates 3 OutboxDemo.os).
Proof.
  split; [vm_compute; reflexivity|].
  apply (drain_is_fair 3 OutboxDemo.os OutboxDemo.outbox_ids).
  - vm_compute. repeat constructor.
  - split; [right; right; right; right; right; left; reflexivity|]. split; [reflexivity|].
    intros x Hx _ Ht. repeat (destruct Hx as [<-|Hx]; [try discriminate Ht; vm_compute; discriminate|]).
    destruct Hx.
Defined.

(** Publication is at least once.  A pass marks published exactly the rows of
    its batch the broker accepted, and marks their runs enqueued; a row the broker
    refused stays unpublished with its attempt counted and its error kept, and
    every other row is left alone. *)
Theorem drain_marks_what_was_accepted publish error_text now locked n d k d' :
  List.NoDup (map ob_id (outboxes d)) →
  drain publish error_text now locked n d = (Ok k, d') →
  let batch := drain_batch n locked (outboxes d) in
  k = count (select_where (delivered publish) batch) ∧
  (∀ o, In o (outboxes d) →
     ∃ o', In o' (outboxes d') ∧ ob_id o' = ob_id o ∧
       if existsb (fun b => ob_id b =? ob_id o) batch then
         match publish (entry_of o) with
         | Ok _ => ob_published_at o' = Some now ∧ ob_attempts o' = ob_attempts o
         | Raise e => ob_published_at o' = None ∧ ob_attempts o' = ob_attempts o + 1 ∧
                      ob_last_error o' = Some (str_take 2000 (error_text e))
         end
       else o' = o) ∧
  (∀ r', In r' (runs d') → ∃ r, In r (runs d) ∧
     r' = if existsb (fun b => delivered publish b && (r_id r =? ob_run b)%N) batch
          then mark_enqueued now r else r).
Proof.
  intros Hids E batch. rewrite drain_eq in E by done. cbn zeta in E. invc E. fold batch.
  split; [done|]. split.
  - intros o Ho. exists (drained publish error_text now batch o). cbn.
    split; [by apply in_map|]. unfold drained.
    destruct (List.find (fun b => ob_id b =? ob_id o) batch) as [b|] eqn:Ef.
    + pose proof (find_some _ _ Ef) as [Hb Eb].
      assert (Hex : existsb (fun b => ob_id b =? ob_id o) batch = true)
        by (apply existsb_exists; eauto).
      bool_to_prop. unfold batch, drain_batch in Hb. apply filter_In in Hb as [Hb _].
      pose proof (candidates_in _ _ _ Hb) as [Hbos Hbu].
      assert (b = o) as -> by (by apply (key_unique ob_id (outboxes d))).
      rewrite Hex. destruct (publish (entry_of o)); cbn; (split; [done|]); [done|].
      unfold unpublished, is_none in Hbu. by destruct (ob_published_at o).
    + split; [done|]. assert (existsb (fun b => ob_id b =? ob_id o) batch = false) as ->; [|done].
      apply not_true_iff_false. intros (b & Hb & Eb)%existsb_exists.
      pose proof (find_none _ _ Ef b Hb). cbn in *. congruence.
  - intros r' (r & Hr & ->)%in_update_where. by exists r.
Qed.

Lemma drain_marks_what_was_accepted_witness :
  ∃ d', drain OutboxDemo.broker (fun _ => "TransientError") 50 (fun _ => false) 3 OutboxDemo.d
        = (Ok 2, d') ∧
  map ob_published_at (outboxes d') = [Some 50; None; Some 5; None; Some 50; None] ∧
  map ob_attempts (outboxes d') = [0; 0; 0; 0; 0; 1] ∧
  2 = count (select_where (delivered OutboxDemo.broker)
               (drain_batch 3 (fun _ => false) (outboxes OutboxDemo.d))).
Proof.
  eexists. split; [vm_compute; reflexivity|]. split; [reflexivity|]. split; [reflexivity|].
  apply (drain_marks_what_was_accepted OutboxDemo.broker (fun _ => "TransientError") 50
    (fun _ => false) 3 OutboxDemo.d 2 _ OutboxDemo.outbox_ids eq_refl).
Defined.
