(* ===== verification/Lifecycle.v ===== *)
(** The life of a run: the commits of every process that touches the [run] table,
    as a labelled transition system.

    A state is the database and the lease handle each worker process holds in
    memory.  A step is one committed transaction ([enqueue_run], the lease
    operations, [cancel_run]'s UPDATE, the reaper, a relay pass) or the loss of a
    handle (a crash, or [execute_leased] giving up).  Retention, the last part of a
    sweep, deletes what finished long ago.  A worker executes one run at
    a time ([apps/worker/runner.py]), so it leases only when it holds none, and it
    drops its handle with the releasing write whatever that returned. *)
From S2P Require Import Prelude Json Identity Db Leases Outbox.

(** * What every row of [run] satisfies *)

Definition finished (st : run_status) : bool :=
  match st with
  | succeeded | failed | cancelled => true
  | pending | leased => false
  end.

Record run_wf (r : run) : Prop := {
  wf_attempts : 0 <= r_attempt r <= r_max_attempts r;
  wf_leased : r_status r = leased →
    is_some (r_leased_by r) = true ∧ is_some (r_lease_expires_at r) = true;
  wf_released : r_status r ≠ leased → r_leased_by r = None ∧ r_lease_expires_at r = None;
  wf_finished : finished (r_status r) = is_some (r_finished_at r);
  wf_cancelling : is_some (r_cancel_requested_at r) = true →
    r_status r = leased ∨ r_status r = cancelled;
  wf_cancelled : r_status r = cancelled → is_some (r_cancel_requested_at r) = true;
  wf_pending : r_status r = pending → r_attempt r < r_max_attempts r;
  wf_tried : r_status r ≠ pending → r_status r ≠ cancelled → 1 <= r_attempt r;
  wf_result : r_status r = succeeded → is_some (r_result r) = true;
  wf_error : r_status r = failed → is_some (r_error r) = true
}.

(** What no operation on a run may change. *)
Definition same_identity (r r' : run) : Prop :=
  r_id r' = r_id r ∧ r_tenant r' = r_tenant r ∧ r_key r' = r_key r ∧
  r_max_attempts r' = r_max_attempts r ∧ r_workload r' = r_workload r ∧ r_input r' = r_input r.

(** What no operation may change once the run has finished. *)
Definition same_outcome (r r' : run) : Prop :=
  r_status r' = r_status r ∧ r_attempt r' = r_attempt r ∧ r_result r' = r_result r ∧
  r_error r' = r_error r ∧ r_finished_at r' = r_finished_at r.

(** * Retention

    The part of [platform_enforce_retention] (migration 0023) that reaches runs: its
    parameter check, and [DELETE FROM run] with the rows the foreign keys of outbox,
    side effect, checkpoint, approval and execution take along ([ON DELETE CASCADE])
    and the references of policies it clears ([ON DELETE SET NULL]). *)

Definition past_retention (cutoff : timestamp) (r : run) : bool :=
  finished (r_status r) &&
  match r_finished_at r with Some at_ => at_ <? cutoff | None => false end.

(** [finished_at < now() - make_interval(days => p_run_days)]. *)
Definition run_cutoff (now : timestamp) (days : Z) : timestamp := now - days * seconds 86400.

Definition dropped (cutoff : timestamp) (d : db) (id : uuid) : bool :=
  existsb (fun r => (r_id r =? id)%N && past_retention cutoff r) (runs d).

Definition dropped_opt (cutoff : timestamp) (d : db) (id : option uuid) : bool :=
  match id with Some i => dropped cutoff d i | None => false end.

Definition delete_runs (cutoff : timestamp) (d : db) : db :=
  d <| runs := select_where (fun r => negb (past_retention cutoff r)) (runs d) |>
    <| outboxes := select_where (fun o => negb (dropped cutoff d (ob_run o))) (outboxes d) |>
    <| side_effects := select_where (fun e => negb (dropped cutoff d (se_run e))) (side_effects d) |>
    <| checkpoints := select_where (fun c => negb (dropped_opt cutoff d (cp_run c))) (checkpoints d) |>
    <| approvals := select_where (fun a => negb (dropped cutoff d (ta_run a))) (approvals d) |>
    <| executions := select_where (fun x => negb (dropped cutoff d (te_run x))) (executions d) |>
    <| policies := update_where (fun p => dropped_opt cutoff d (ep_last_run p))
         (fun p => p <| ep_last_run := None |>) (policies d) |>.

Definition retain_runs (now : timestamp) (days : Z) : M db Z :=
  relay_session (
    guard ((1 <=? days) && (days <=? 3650)) (OtherError "RaiseException") ;;
    gone <- gets (fun d => select_where (past_retention (run_cutoff now days)) (runs d)) ;;
    modify (delete_runs (run_cutoff now days)) ;;
    ret (count gone)).

(** * States and steps *)

Record sys := mkSys { store : db; handles : gmap string LeasedRun }.

Inductive label :=
| Lenqueue (id : uuid) (created : bool)
| Lacquire (w : string) (id : uuid)
| Lheartbeat (w : string) (held : bool)
| Lcomplete (w : string) (held : bool)
| Lfail (w : string) (held : bool)
| Lacknowledge (w : string) (held : bool)
| Lcrash (w : string)
| Lreap (ids : list uuid)
| Lcancel (id : uuid)
| Ldrain (n : Z)
| Lretain (cutoff : timestamp) (n : Z).

Inductive step (st : retry_settings) : sys → label → sys → Prop :=
| step_enqueue d d' hs now fresh serial rel trace ctx wl payload key maxa id created :
    1 <= maxa → ¬ In fresh (map r_id (runs d)) → ¬ In serial (map ob_id (outboxes d)) →
    enqueue_run now fresh serial (fun d => d) rel trace ctx wl payload key maxa d
      = (Ok (id, created), d') →
    step st (mkSys d hs) (Lenqueue id created) (mkSys d' hs)
| step_acquire d d' hs now locked tenant w wl lease h :
    hs !! w = None →
    acquire now locked tenant w wl lease d = (Ok (Some h), d') →
    step st (mkSys d hs) (Lacquire w (lr_run_id h)) (mkSys d' (<[w := h]> hs))
| step_acquire_specific d d' hs now tenant id w lease h :
    hs !! w = None →
    acquire_specific now tenant id w lease d = (Ok (Some h), d') →
    step st (mkSys d hs) (Lacquire w (lr_run_id h)) (mkSys d' (<[w := h]> hs))
| step_heartbeat d d' hs now w h extend b :
    hs !! w = Some h → heartbeat now h extend d = (Ok b, d') →
    step st (mkSys d hs) (Lheartbeat w b) (mkSys d' hs)
| step_complete d d' hs now w h res b :
    hs !! w = Some h → complete now h res d = (Ok b, d') →
    step st (mkSys d hs) (Lcomplete w b) (mkSys d' (delete w hs))
| step_fail d d' hs now rnd w h err retryable retry_after b :
    hs !! w = Some h → fail st now rnd h err retryable retry_after d = (Ok b, d') →
    step st (mkSys d hs) (Lfail w b) (mkSys d' (delete w hs))
| step_acknowledge d d' hs now w h b :
    hs !! w = Some h → acknowledge_cancellation now h d = (Ok b, d') →
    step st (mkSys d hs) (Lacknowledge w b) (mkSys d' (delete w hs))
| step_crash d hs w :
    step st (mkSys d hs) (Lcrash w) (mkSys d (delete w hs))
| step_reap d d' hs now rnd grace rows :
    reap_expired st now rnd grace d = (Ok rows, d') →
    step st (mkSys d hs) (Lreap (map r_id rows)) (mkSys d' hs)
| step_cancel d d' hs now t id by_ r :
    request_cancel now t id by_ d = (Ok (Some r), d') →
    step st (mkSys d hs) (Lcancel id) (mkSys d' hs)
| step_drain d d' hs publish error_text now locked n k :
    drain publish error_text now locked n d = (Ok k, d') →
    step st (mkSys d hs) (Ldrain k) (mkSys d' hs)
| step_retain d d' hs now days n :
    retain_runs now days d = (Ok n, d') →
    step st (mkSys d hs) (Lretain (run_cutoff now days) n) (mkSys d' hs).

(** [gen_random_uuid()] gives no run the id of one that was ever admitted, deleted ones
    included. *)
Definition unused (l : label) (tr : list label) : Prop :=
  ∀ id, l = Lenqueue id true → ¬ In (Lenqueue id true) tr.

(** A history, its last event first. *)
Inductive history (st : retry_settings) : list label → sys → Prop :=
| history_start hs d : runs d = [] → outboxes d = [] → hs = ∅ → history st [] (mkSys d hs)
| history_step tr s l s' :
    history st tr s → step st s l s' → unused l tr → history st (l :: tr) s'.

(** How it goes on: [tr'] is what happens after [tr], its last event first. *)
Inductive later (st : retry_settings) (tr : list label) (s : sys) : list label → sys → Prop :=
| later_now : later st tr s [] s
| later_step tr' s1 l s2 :
    later st tr s tr' s1 → step st s1 l s2 → unused l (tr' ++ tr) → later st tr s (l :: tr') s2.

Lemma later_history st tr s tr' s' :
  history st tr s → later st tr s tr' s' → history st (tr' ++ tr) s'.
Proof. intros Hh. induction 1; [done|]. by eapply history_step. Qed.

Definition leases_of (id : uuid) (tr : list label) : Z :=
  count (select_where (fun l => match l with Lacquire _ i => (i =? id)%N | _ => false end) tr).

(** * The invariant *)

Record sys_inv (s : sys) : Prop := {
  inv_ids : List.NoDup (map r_id (runs (store s)));
  inv_serials : List.NoDup (map ob_id (outboxes (store s)));
  inv_keys : keys_unique (runs (store s));
  inv_rows : Forall run_wf (runs (store s));
  inv_holder : ∀ w h, handles s !! w = Some h → lr_leased_by h = w;
  inv_handle : ∀ w h r, handles s !! w = Some h → In r (runs (store s)) →
    held_by h r = true → lr_attempt h = r_attempt r ∧ lr_max_attempts h = r_max_attempts r
}.

(** * Rows *)

Ltac wf_row :=
  intros []; constructor; cbn; intros;
  try solve [done | lia | congruence | intuition (auto; try congruence; try lia)].

Lemma claimable_spec now r :
  claimable now r = true →
  r_status r = pending ∧ r_available_at r <= now ∧ r_cancel_requested_at r = None ∧
  r_attempt r < r_max_attempts r.
Proof.
  unfold claimable, is_none. intros E. bool_to_prop. destruct (r_cancel_requested_at r); done.
Qed.

Lemma wf_take_lease now w lease r :
  run_wf r → claimable now r = true → run_wf (take_lease now w lease r).
Proof.
  intros Hwf Hc. apply claimable_spec in Hc as (Es & _ & Ec & Hlt). revert Hwf. wf_row.
  - rewrite Es in *. cbn in *. congruence.
Qed.

Lemma wf_extend_lease now extend r :
  run_wf r → r_status r = leased → run_wf (extend_lease now extend r).
Proof. intros Hwf Es. revert Hwf. wf_row. Qed.

Lemma wf_set_succeeded now res r :
  run_wf r → r_status r = leased → r_cancel_requested_at r = None → run_wf (set_succeeded now res r).
Proof.
  intros Hwf Es Ec. revert Hwf. wf_row. by rewrite Ec in *.
Qed.

Lemma wf_set_failed now err terminal delay r :
  run_wf r → r_status r = leased → (terminal = false → r_attempt r < r_max_attempts r) →
  run_wf (set_failed now err terminal delay r).
Proof.
  intros [] Es Ht. specialize (wf_tried0 ltac:(congruence) ltac:(congruence)).
  unfold set_failed. destruct (r_cancel_requested_at r) eqn:Ec, terminal;
    constructor; cbn; rewrite ?Ec; cbn; intros; try done; auto.
Qed.

Lemma wf_set_cancelled now r :
  run_wf r → r_status r = leased → is_some (r_cancel_requested_at r) = true →
  run_wf (set_cancelled now r).
Proof. intros Hwf Es Ec. revert Hwf. wf_row. Qed.

Lemma wf_set_reaped st now rnd r :
  run_wf r → r_status r = leased → run_wf (set_reaped st now rnd r).
Proof.
  intros [] Es. specialize (wf_tried0 ltac:(congruence) ltac:(congruence)).
  unfold set_reaped.
  destruct (r_cancel_requested_at r) eqn:Ec, (r_max_attempts r <=? r_attempt r) eqn:Ea;
    bool_to_prop; constructor; cbn; rewrite ?Ec; cbn; intros; try done; auto.
Qed.

Lemma wf_set_cancel_requested now by_ r :
  run_wf r → finished (r_status r) = false ∨ r_status r = cancelled →
  run_wf (set_cancel_requested now by_ r).
Proof.
  intros [] Hs. unfold set_cancel_requested.
  destruct (r_status r) eqn:Es; cbn in *; destruct Hs as [Hs|Hs]; try done;
    constructor; cbn; rewrite ?Es; cbn; intros; try done; auto.
Qed.

Lemma wf_mark_enqueued now r : run_wf r → run_wf (mark_enqueued now r).
Proof. wf_row. Qed.

Lemma wf_new_run now fresh ctx wl payload key maxa rel :
  1 <= maxa → run_wf (new_run now fresh ctx wl payload key maxa rel).
Proof. intros H. constructor; cbn; intros; try done; lia. Qed.

(** * One step on one row *)

Definition bump (l : label) (r : run) : Z :=
  match l with
  | Lacquire _ i => if (i =? r_id r)%N then 1 else 0
  | _ => 0
  end.

(** The row [r'] a step labelled [l] may leave in place of [r]. *)
Record row_step (l : label) (r r' : run) : Prop := {
  rs_wf : run_wf r';
  rs_identity : same_identity r r';
  rs_outcome : finished (r_status r) = true → same_outcome r r';
  rs_attempt : r_attempt r' = r_attempt r + bump l r;
  rs_held : ∀ h, held_by h r' = true →
    bump l r = 0 ∧ held_by h r = true ∨ l = Lacquire (lr_leased_by h) (r_id r);
  rs_enqueued : is_some (r_last_enqueued_at r) = true → is_some (r_last_enqueued_at r') = true;
  rs_cancelling : is_some (r_cancel_requested_at r) = true →
    is_some (r_cancel_requested_at r') = true
}.

Definition quiet (l : label) : Prop := ∀ r, bump l r = 0.

Lemma row_step_refl l r : run_wf r → bump l r = 0 → row_step l r r.
Proof. intros Hwf Hb. constructor; [done|by repeat split|by repeat split|rewrite Hb; lia|by left|done|done]. Qed.

(** A statement that leaves no lease behind, or keeps its holder. *)
Lemma row_step_quiet l r r' :
  quiet l → run_wf r' → same_identity r r' →
  (finished (r_status r) = true → same_outcome r r') → r_attempt r' = r_attempt r →
  (∀ h, held_by h r' = true → held_by h r = true) →
  (is_some (r_last_enqueued_at r) = true → is_some (r_last_enqueued_at r') = true) →
  (is_some (r_cancel_requested_at r) = true → is_some (r_cancel_requested_at r') = true) →
  row_step l r r'.
Proof. intros Hq ? ? ? Ha ? ? ?. constructor; auto. rewrite Ha, (Hq r). lia. Qed.

Lemma held_released h r : r_leased_by r = None → held_by h r = false.
Proof. unfold held_by. intros ->. by rewrite andb_false_r. Qed.

Lemma step_row_take now w lease r :
  run_wf r → claimable now r = true →
  row_step (Lacquire w (r_id r)) r (take_lease now w lease r).
Proof.
  intros Hwf Hc. pose proof (claimable_spec _ _ Hc) as (Es & _ & _ & _). constructor.
  - by apply wf_take_lease.
  - repeat split.
  - rewrite Es. done.
  - cbn. by rewrite N.eqb_refl.
  - intros h Hh. right. apply held_by_spec in Hh as (_ & _ & E). cbn in E. congruence.
  - done.
  - done.
Qed.

Lemma step_row_extend l now extend r :
  quiet l → run_wf r → r_status r = leased → row_step l r (extend_lease now extend r).
Proof.
  intros Hq Hwf Es. apply row_step_quiet; auto; try (by repeat split).
  by apply wf_extend_lease.
Qed.

Lemma step_row_succeed l now res r :
  quiet l → run_wf r → r_status r = leased → r_cancel_requested_at r = None →
  row_step l r (set_succeeded now res r).
Proof.
  intros Hq Hwf Es Ec. apply row_step_quiet; auto; try (by repeat split).
  - by apply wf_set_succeeded.
  - by rewrite Es.
  - intros h. by rewrite held_released.
Qed.

Lemma step_row_fail l now err terminal delay r :
  quiet l → run_wf r → r_status r = leased →
  (terminal = false → r_attempt r < r_max_attempts r) →
  row_step l r (set_failed now err terminal delay r).
Proof.
  intros Hq Hwf Es Ht. apply row_step_quiet; auto; try (by repeat split).
  - by apply wf_set_failed.
  - by rewrite Es.
  - intros h. by rewrite held_released.
Qed.

Lemma step_row_cancelled l now r :
  quiet l → run_wf r → r_status r = leased → is_some (r_cancel_requested_at r) = true →
  row_step l r (set_cancelled now r).
Proof.
  intros Hq Hwf Es Ec. apply row_step_quiet; auto; try (by repeat split).
  - by apply wf_set_cancelled.
  - by rewrite Es.
  - intros h. by rewrite held_released.
Qed.

Lemma step_row_reaped l st now rnd r :
  quiet l → run_wf r → r_status r = leased → row_step l r (set_reaped st now rnd r).
Proof.
  intros Hq Hwf Es. apply row_step_quiet; auto; try (by repeat split).
  - by apply wf_set_reaped.
  - by rewrite Es.
  - intros h. by rewrite held_released.
Qed.

Lemma step_row_cancel l now by_ r :
  quiet l → run_wf r → finished (r_status r) = false ∨ r_status r = cancelled →
  row_step l r (set_cancel_requested now by_ r).
Proof.
  intros Hq Hwf Hs. apply row_step_quiet; auto; try (by repeat split).
  - by apply wf_set_cancel_requested.
  - intros Hf. destruct Hs as [Hs|Hs]; [congruence|].
    unfold same_outcome. cbn. by rewrite Hs.
  - intros h. rewrite !held_by_spec. cbn. destruct (r_status r); cbn; intros (? & ? & ?); done.
Qed.

Lemma step_row_enqueued l now r : quiet l → run_wf r → row_step l r (mark_enqueued now r).
Proof. intros Hq Hwf. apply row_step_quiet; auto; try (by repeat split). by apply wf_mark_enqueued. Qed.

(** * One step on the table *)

Definition rows_step (l : label) (rs rs' : list run) : Prop :=
  ∃ g, rs' = map g rs ∧ ∀ r, In r rs → row_step l r (g r).

Lemma rows_step_update l p f rs :
  Forall run_wf rs →
  (∀ r, In r rs → p r = true → row_step l r (f r)) →
  (∀ r, In r rs → p r = false → bump l r = 0) →
  rows_step l rs (update_where p f rs).
Proof.
  rewrite List.Forall_forall. intros Hwf Hf Hb. eexists. split; [reflexivity|].
  intros r Hr. cbn. destruct (p r) eqn:E; auto. apply row_step_refl; auto.
Qed.

Lemma rows_step_refl l rs : quiet l → Forall run_wf rs → rows_step l rs rs.
Proof.
  rewrite List.Forall_forall. intros Hq Hwf. exists (fun r => r). split; [by rewrite map_id|].
  intros r Hr. apply row_step_refl; auto.
Qed.

Lemma fenced_rows l run p f d b d' :
  quiet l → List.NoDup (map r_id (runs d)) → Forall run_wf (runs d) →
  (∀ r, p r = true → held_by run r = true) →
  (∀ r, In r (runs d) → p r = true → row_step l r (f r)) →
  fenced run p f d = (Ok b, d') →
  rows_step l (runs d) (runs d') ∧ outboxes d' = outboxes d.
Proof.
  intros Hq Hids Hwf Hp Hf E.
  destruct (fenced_cases run p f d Hids Hp) as [[_ E']|(r & _ & _ & E')];
    rewrite E' in E; invc E.
  - split; [by apply rows_step_refl|done].
  - split; [|done]. apply rows_step_update; auto.
    intros r0 Hr0 Hv. unfold visible in Hv. bool_to_prop. auto.
Qed.

(** What a step does to the tables: every row moves on by a [row_step], or one
    new run arrives together with its outbox row. *)
Definition admits (l : label) (d d' : db) : Prop :=
  ∃ r ob, l = Lenqueue (r_id r) true ∧
    runs d' = runs d ++ [r] ∧ outboxes d' = outboxes d ++ [ob] ∧
    ¬ In (r_id r) (map r_id (runs d)) ∧ ¬ In (ob_id ob) (map ob_id (outboxes d)) ∧
    ob_run ob = r_id r ∧ unpublished ob = true ∧ run_wf r ∧ r_attempt r = 0 ∧ r_status r = pending ∧
    ∀ x, In x (runs d) → r_tenant x = r_tenant r → r_key x = r_key r →
         is_some (r_key x) = true → False.

(** Every outbox row stays, and one that has become published has had its run
    marked as enqueued. *)
Definition pointers_step (d d' : db) : Prop :=
  map ob_id (outboxes d') = map ob_id (outboxes d) ∧
  ∀ o, In o (outboxes d) → ∃ o', In o' (outboxes d') ∧ ob_run o' = ob_run o ∧
    (unpublished o' = false → unpublished o = false ∨
     ∀ r', In r' (runs d') → r_id r' = ob_run o → is_some (r_last_enqueued_at r') = true).

Definition moves (l : label) (d d' : db) : Prop :=
  rows_step l (runs d) (runs d') ∧ pointers_step d d'.

(** Retention: rows that finished before the cutoff go, with their outbox rows. *)
Definition deletes (l : label) (d d' : db) : Prop :=
  ∃ cutoff n, l = Lretain cutoff n ∧
    runs d' = select_where (fun r => negb (past_retention cutoff r)) (runs d) ∧
    outboxes d' = select_where (fun o => negb (dropped cutoff d (ob_run o))) (outboxes d).

Lemma past_retention_spec cutoff r :
  past_retention cutoff r = true →
  finished (r_status r) = true ∧ ∃ at_, r_finished_at r = Some at_ ∧ at_ < cutoff.
Proof.
  unfold past_retention. destruct (r_finished_at r); intros E; bool_to_prop; try done.
  split; [done|]. eexists. split; [done|]. lia.
Qed.

Lemma retain_step now days d n d' :
  retain_runs now days d = (Ok n, d') → deletes (Lretain (run_cutoff now days) n) d d'.
Proof.
  unfold retain_runs, relay_session. intros E. apply (proj1 (tx_ok _ _ _ _)) in E.
  unfold bind, guard, gets, modify, ret in E. destruct (_ && _); [|done]. invc E. by eexists _, _.
Qed.

Lemma pointers_same d d' : outboxes d' = outboxes d → pointers_step d d'.
Proof. intros E. split; [by rewrite E|]. intros o Ho. exists o. rewrite E. auto. Qed.

Lemma enqueue_step now fresh serial rel trace ctx wl payload key maxa d id created d' :
  List.NoDup (map r_id (runs d)) → keys_unique (runs d) → Forall run_wf (runs d) → 1 <= maxa →
  ¬ In fresh (map r_id (runs d)) → ¬ In serial (map ob_id (outboxes d)) →
  enqueue_run now fresh serial (fun d => d) rel trace ctx wl payload key maxa d
    = (Ok (id, created), d') →
  moves (Lenqueue id created) d d' ∨ admits (Lenqueue id created) d d'.
Proof.
  intros Hids Hkeys Hwf Hmax Hfresh Hserial E.
  assert (Hq : quiet (Lenqueue id created)) by done.
  destruct (enqueue_cases now fresh serial (fun d => d) rel trace ctx wl payload key maxa d
    Hids Hkeys) as [(r & Hr & Hk & E')|[_ [(r & Hr & Hk & E')|[Hno E']]]];
    cbn zeta in *; rewrite E' in E; invc E.
  1, 2: by left; split; [apply rows_step_refl|apply pointers_same].
  right. exists (new_run now id ctx wl payload (py_or key (Identity.idempotency_key ctx)) maxa rel),
    (new_outbox now serial ctx id wl payload trace). split; [reflexivity|]. repeat (split; [reflexivity || done|]).
  split; [by apply wf_new_run|]. repeat (split; [reflexivity|]).
  intros x Hx Ht Hkx Hs. unfold conflicts in Hno.
  pose proof (proj1 (select_where_nil _ _) Hno x Hx) as Hf. cbn in Ht, Hkx.
  assert (Htrue : same_key (tenant_of ctx) (py_or key (Identity.idempotency_key ctx)) x = true).
  { apply same_key_spec. by rewrite <- Hkx. }
  congruence.
Qed.

Lemma acquire_step now locked tenant w wl lease d h d' :
  List.NoDup (map r_id (runs d)) → Forall run_wf (runs d) →
  acquire now locked tenant w wl lease d = (Ok (Some h), d') →
  moves (Lacquire w (lr_run_id h)) d d' ∧ lr_leased_by h = w ∧
  ∃ r, In r (runs d) ∧ claimable now r = true ∧
       h = leased_run tenant w (take_lease now w lease r).
Proof.
  intros Hids Hwf E.
  destruct (acquire_cases now locked tenant w wl lease d Hids)
    as [[_ E']|(r & Hr & He & _ & E')]; rewrite E' in E; invc E.
  assert (Hc : claimable now r = true).
  { unfold eligible, visible in He. by bool_to_prop. }
  split; [|eauto]. split; [|by apply pointers_same]. apply rows_step_update; [done| |].
  - intros x Hx Ex. apply N.eqb_eq in Ex.
    rewrite (key_unique r_id (runs d) x r Hids Hx Hr Ex). cbn. apply step_row_take; [|done].
    by apply (proj1 (List.Forall_forall _ _) Hwf).
  - intros x _ Ex. cbn. rewrite N.eqb_sym. by rewrite Ex.
Qed.

Lemma acquire_specific_step now tenant id w lease d h d' :
  List.NoDup (map r_id (runs d)) → Forall run_wf (runs d) →
  acquire_specific now tenant id w lease d = (Ok (Some h), d') →
  moves (Lacquire w (lr_run_id h)) d d' ∧ lr_leased_by h = w ∧
  ∃ r, In r (runs d) ∧ claimable now r = true ∧
       h = leased_run tenant w (take_lease now w lease r).
Proof.
  intros Hids Hwf E.
  destruct (acquire_specific_cases now tenant id w lease d Hids)
    as [[_ E']|(r & Hr & He & E')]; rewrite E' in E; invc E.
  assert (Hc : claimable now r = true).
  { unfold specific, visible in He. by bool_to_prop. }
  split; [|eauto]. split; [|by apply pointers_same]. apply rows_step_update; [done| |].
  - intros x Hx Ex. apply N.eqb_eq in Ex.
    rewrite (key_unique r_id (runs d) x r Hids Hx Hr Ex). cbn. apply step_row_take; [|done].
    by apply (proj1 (List.Forall_forall _ _) Hwf).
  - intros x _ Ex. cbn. rewrite N.eqb_sym. by rewrite Ex.
Qed.

Lemma reap_step st now rnd grace d rows d' :
  Forall run_wf (runs d) → reap_expired st now rnd grace d = (Ok rows, d') →
  moves (Lreap (map r_id rows)) d d'.
Proof.
  intros Hwf E. rewrite reap_expired_eq in E. cbn zeta in E. invc E.
  split; [|by apply pointers_same]. apply rows_step_update; [done| |done].
  intros r Hr Ex. unfold expired in Ex. bool_to_prop. apply step_row_reaped; [done| |done].
  by apply (proj1 (List.Forall_forall _ _) Hwf).
Qed.

Lemma cancel_step now t id by_ d r d' :
  List.NoDup (map r_id (runs d)) → Forall run_wf (runs d) →
  request_cancel now t id by_ d = (Ok (Some r), d') → moves (Lcancel id) d d'.
Proof.
  intros Hids Hwf E. unfold request_cancel, tenant_session in E. apply (proj1 (tx_ok _ _ _ _)) in E.
  assert (Hp : ∀ x, visible t (cancellable id) x = true →
    r_id x = id ∧ (finished (r_status x) = false ∨ r_status x = cancelled)).
  { intros x Hx. unfold visible, cancellable in Hx. bool_to_prop. split; [done|].
    destruct (r_status x); cbn in *; auto. }
  destruct (update_by_key (T := table_runs) r_id (visible t (cancellable id))
    (set_cancel_requested now by_) id d Hids) as [[_ E']|(x & _ & _ & E')].
  - intros x Hx. by apply Hp.
  - pose proof (eq_trans (eq_sym E') E) as Ee. invc Ee.
  - pose proof (eq_trans (eq_sym E') E) as Ee. invc Ee.
    split; [|by apply pointers_same]. apply rows_step_update; [done| |done].
    intros y Hy Ey. apply step_row_cancel; [done| |by apply Hp].
    by apply (proj1 (List.Forall_forall _ _) Hwf).
Qed.

Lemma drain_step publish error_text now locked n d k d' :
  Forall run_wf (runs d) → List.NoDup (map ob_id (outboxes d)) →
  drain publish error_text now locked n d = (Ok k, d') → moves (Ldrain k) d d'.
Proof.
  intros Hwf Hser E. rewrite drain_eq in E by done. cbn zeta in E. invc E. split.
  - apply rows_step_update; [done| |done]. intros r Hr _. apply step_row_enqueued; [done|].
    by apply (proj1 (List.Forall_forall _ _) Hwf).
  - split.
    { cbn. rewrite map_map. apply map_ext. intros o. unfold drained.
      destruct (List.find _ _) as [o'|]; [|done]. by destruct (publish (entry_of o')). }
    intros o Ho. cbn. set (os := drain_batch n locked (outboxes d)).
    exists (drained publish error_text now os o). split; [by apply in_map|].
    unfold drained. destruct (List.find _ os) as [o'|] eqn:Ef; [|by split; [|left]].
    apply find_some in Ef as [Ho' Eid]. bool_to_prop.
    assert (o' = o) as ->.
    { apply (key_unique ob_id (outboxes d)); auto.
      unfold os, drain_batch in Ho'. apply filter_In in Ho' as [Ho' _].
      by apply candidates_in in Ho' as []. }
    destruct (publish (entry_of o)) as [[]|e] eqn:Ep; (split; [done|]); [|by left].
    intros _. right. intros r' (r & Hr & ->)%in_update_where Er.
    assert (enqueued_by publish os r = true) as ->; [|done].
    apply existsb_exists. exists o. split; [done|]. unfold delivered. rewrite Ep. cbn.
    destruct (enqueued_by publish os r); by apply N.eqb_eq.
Qed.

(** The four fenced operations. *)
Lemma holder_step l run p f d b d' :
  quiet l → List.NoDup (map r_id (runs d)) → Forall run_wf (runs d) →
  (∀ r, p r = true → held_by run r = true) →
  (∀ r, In r (runs d) → run_wf r → r_status r = leased → held_by run r = true → p r = true →
        row_step l r (f r)) →
  fenced run p f d = (Ok b, d') → moves l d d'.
Proof.
  intros Hq Hids Hwf Hp Hf E.
  assert (Hrows : ∀ r, In r (runs d) → p r = true → row_step l r (f r)).
  { intros r Hr Ep. pose proof (proj1 (held_by_spec run r) (Hp r Ep)) as (_ & Es & _).
    apply Hf; auto. by apply (proj1 (List.Forall_forall _ _) Hwf). }
  destruct (fenced_rows l run p f d b d' Hq Hids Hwf Hp Hrows E) as [? Eo].
  split; [done|]. by apply pointers_same.
Qed.

Lemma step_tables st s l s' :
  sys_inv s → step st s l s' →
  moves l (store s) (store s') ∨ admits l (store s) (store s') ∨ deletes l (store s) (store s').
Proof.
  intros [Hids Hser Hkeys Hwf Hown Hh] Hs. destruct Hs; cbn [store handles] in *.
  - destruct (enqueue_step now fresh serial rel trace ctx wl payload key maxa d id created d'); auto.
  - left. by eapply acquire_step.
  - left. by eapply acquire_specific_step.
  - left. eapply holder_step in H0; try done.
    + intros r E. by bool_to_prop.
    + intros r _ Hr Es _ _. by apply step_row_extend.
  - left. eapply holder_step in H0; try done.
    + intros r E. by bool_to_prop.
    + intros r _ Hr Es _ E. bool_to_prop. apply step_row_succeed; try done.
      unfold not_cancelling, is_none in *. by destruct (r_cancel_requested_at r).
  - left. eapply holder_step in H0; try done.
    intros r Hin Hr Es Hheld _. apply step_row_fail; try done.
    unfold is_terminal. intros Et. bool_to_prop.
    destruct (Hh w h r H Hin Hheld) as [<- <-]. lia.
  - left. eapply holder_step in H0; try done.
    + intros r E. by bool_to_prop.
    + intros r _ Hr Es _ E. bool_to_prop. by apply step_row_cancelled.
  - left. split; [by apply rows_step_refl|by apply pointers_same].
  - left. by eapply reap_step.
  - left. by eapply cancel_step.
  - left. by eapply drain_step.
  - right. right. by apply retain_step.
Qed.

(** * The invariant is kept *)

Definition same_handles (l : label) (s s' : sys) : Prop :=
  (∀ w i, l ≠ Lacquire w i) ∧ ∀ w h, handles s' !! w = Some h → handles s !! w = Some h.

Definition new_handle (l : label) (s s' : sys) : Prop :=
  ∃ w h r, l = Lacquire w (lr_run_id h) ∧ handles s' = <[w := h]> (handles s) ∧
    lr_leased_by h = w ∧ In r (runs (store s)) ∧ r_id r = lr_run_id h ∧
    lr_attempt h = r_attempt r + 1 ∧ lr_max_attempts h = r_max_attempts r.

Lemma step_handles st s l s' :
  sys_inv s → step st s l s' → same_handles l s s' ∨ new_handle l s s'.
Proof.
  intros [Hids _ _ Hwf _ _] Hs. destruct Hs; cbn [store handles] in *.
  2: right; apply acquire_step in H0 as (_ & Hw & r & Hr & _ & ->); try done;
     exists w, (leased_run tenant w (take_lease now w lease r)), r; by repeat split.
  2: right; apply acquire_specific_step in H0 as (_ & Hw & r & Hr & _ & ->); try done;
     exists w, (leased_run tenant w (take_lease now w lease r)), r; by repeat split.
  all: left; split; [done|]; cbn; intros w' h'; try done.
  all: by intros [_ ?]%lookup_delete_Some.
Qed.

Lemma moves_row l d d' r' :
  moves l d d' → In r' (runs d') → ∃ r, In r (runs d) ∧ row_step l r r'.
Proof.
  intros [(g & E & Hg) _]. rewrite E. intros (r & <- & Hr)%in_map_iff. eauto.
Qed.

Lemma moves_ids l d d' : moves l d d' → map r_id (runs d') = map r_id (runs d).
Proof.
  intros [(g & -> & Hg) _]. rewrite map_map. apply map_ext_in. intros r Hr.
  by apply Hg in Hr as [_ (? & _) _ _ _ _ _].
Qed.

Lemma moves_handle_inv l s s' w h r' :
  sys_inv s → moves l (store s) (store s') → same_handles l s s' ∨ new_handle l s s' →
  handles s' !! w = Some h → In r' (runs (store s')) → held_by h r' = true →
  lr_attempt h = r_attempt r' ∧ lr_max_attempts h = r_max_attempts r'.
Proof.
  intros [Hids _ _ _ Hown Hh] Hm Hhs Hw Hr' Hheld.
  destruct (moves_row _ _ _ _ Hm Hr') as (r & Hr & [_ (Eid & _ & _ & Emax & _) _ Ea Hfrom _ _]).
  rewrite Ea, Emax. pose proof (held_by_id _ _ Hheld) as Hid. rewrite Eid in Hid.
  destruct Hhs as [[Hno Hsub]|(w0 & h0 & r0 & -> & Eh & Hown0 & Hr0 & Hid0 & Ha0 & Hm0)].
  - destruct (Hfrom h Hheld) as [[-> Hold]|Hacq]; [|by apply Hno in Hacq].
    rewrite Z.add_0_r. apply (Hh w); auto.
  - rewrite Eh in Hw. apply lookup_insert_Some in Hw as [[-> <-]|[Hne Hw]].
    + assert (r0 = r) as -> by (apply (key_unique r_id (runs (store s))); auto; congruence).
      cbn. rewrite Hid0, N.eqb_refl. done.
    + destruct (Hfrom h Hheld) as [[-> Hold]|[= E1 E2]].
      * rewrite Z.add_0_r. by apply (Hh w).
      * exfalso. apply Hne. rewrite <- (Hown w h Hw). congruence.
Qed.

Lemma deletes_row l d d' r : deletes l d d' → In r (runs d') → In r (runs d).
Proof. intros (cutoff & n & _ & E & _). rewrite E. by intros [? _]%filter_In. Qed.

Lemma deletes_inv l s s' :
  sys_inv s → deletes l (store s) (store s') → same_handles l s s' ∨ new_handle l s s' →
  (∀ w h, handles s' !! w = Some h → lr_leased_by h = w) → sys_inv s'.
Proof.
  intros [Hids Hser Hkeys Hwf Hown Hh] Hd Hhand Hown'.
  assert (Hsub : ∀ r, In r (runs (store s')) → In r (runs (store s))) by (intros r; by eapply deletes_row).
  destruct Hd as (cutoff & n & -> & Er & Eo).
  destruct Hhand as [[_ Hsame]|(? & ? & ? & ? & _)]; [|done].
  constructor; [rewrite Er; by apply NoDup_map_filter|rewrite Eo; by apply NoDup_map_filter| | |done|eauto].
  - intros x y Hx Hy. by apply Hkeys; apply Hsub.
  - rewrite List.Forall_forall in *. auto.
Qed.

Lemma step_inv st s l s' : sys_inv s → step st s l s' → sys_inv s'.
Proof.
  intros Hinv Hs. pose proof (step_tables st s l s' Hinv Hs) as Htab.
  pose proof (step_handles st s l s' Hinv Hs) as Hhand.
  pose proof Hinv as [Hids Hser Hkeys Hwf Hown Hh].
  assert (Hown' : ∀ w h, handles s' !! w = Some h → lr_leased_by h = w).
  { destruct Hhand as [[_ Hsub]|(w0 & h0 & r0 & _ & Eh & Ho & _)]; [eauto|].
    intros w h. rewrite Eh. intros [[<- <-]|[_ ?]]%lookup_insert_Some; eauto. }
  destruct Htab as [Hm|[(r & ob & -> & Er & Eo & Hnew & Hnewob & _ & _ & Hr & _ & Hp & Hfree)|Hd]].
  - constructor; [by rewrite (moves_ids _ _ _ Hm)|by rewrite (proj1 (proj2 Hm))| | |done|].
    + intros x' y' Hx' Hy' Et Ek Hs'.
      destruct (moves_row _ _ _ _ Hm Hx') as (x & Hx & [_ (-> & Etx & Ekx & _) _ _ _ _ _]).
      destruct (moves_row _ _ _ _ Hm Hy') as (y & Hy & [_ (-> & Ety & Eky & _) _ _ _ _ _]).
      apply Hkeys; congruence.
    + apply List.Forall_forall. intros x' Hx'.
      by destruct (moves_row _ _ _ _ Hm Hx') as (x & _ & []).
    + intros w h r' Hw Hr' Hheld. by eapply moves_handle_inv.
  - constructor; rewrite ?Er, ?Eo, ?map_app; try done.
    + by apply NoDup_snoc.
    + by apply NoDup_snoc.
    + intros x y [Hx|[<-|[]]]%in_app_iff [Hy|[<-|[]]]%in_app_iff Et Ek Hs'; auto.
      * by destruct (Hfree x Hx Et Ek Hs').
      * rewrite Ek in Hs'. by destruct (Hfree y Hy (eq_sym Et) (eq_sym Ek) Hs').
    + apply Forall_app. auto.
    + destruct Hhand as [[_ Hsub]|(? & ? & ? & ? & _)]; [|done].
      intros w h x Hw [Hx|[<-|[]]]%in_app_iff Hheld; eauto.
      apply held_by_spec in Hheld as (_ & ? & _). congruence.
  - by apply (deletes_inv l s s').
Qed.

Lemma history_inv st tr s : history st tr s → sys_inv s.
Proof.
  induction 1 as [hs d Hr Ho Hh|tr s l s' _ IH Hs _]; [|by eapply step_inv].
  subst hs. constructor; cbn; rewrite ?Hr, ?Ho; try by constructor.
  all: try (by intros ?? []).
  all: intros *; by rewrite lookup_empty.
Qed.

(** * Pointers *)

(** Every run has an outbox row that is still to be published or has been handed
    to the broker. *)
Definition pointers_ok (d : db) : Prop :=
  ∀ r, In r (runs d) → ∃ o, In o (outboxes d) ∧ ob_run o = r_id r ∧
    (unpublished o = true ∨ is_some (r_last_enqueued_at r) = true).

Lemma step_pointers st s l s' :
  sys_inv s → step st s l s' → pointers_ok (store s) → pointers_ok (store s').
Proof.
  intros Hinv Hs Hp r' Hr'. destruct (step_tables st s l s' Hinv Hs)
    as [Hm|[(r & ob & -> & Er & Eo & _ & _ & Eob & Eu & _)|Hd]].
  - destruct (moves_row _ _ _ _ Hm Hr') as (r & Hr & [_ (Eid & _) _ _ _ Henq _]).
    destruct (Hp r Hr) as (o & Ho & Eo & Hun).
    destruct Hm as [_ [_ Hptr]]. destruct (Hptr o Ho) as (o' & Ho' & Eo' & Hpub).
    exists o'. split; [done|]. split; [congruence|].
    destruct (unpublished o') eqn:Eu; [by left|right].
    destruct (Hpub eq_refl) as [Eu'|Hall].
    + apply Henq. destruct Hun; congruence.
    + apply Hall; congruence.
  - rewrite Er in Hr'. rewrite Eo. apply in_app_iff in Hr' as [Hr'|[<-|[]]].
    + destruct (Hp r' Hr') as (o & Ho & Hrest). exists o. split; [|done]. apply in_app_iff. by left.
    + exists ob. split; [apply in_app_iff; right; by left|]. split; [done|].
      by left.
  - pose proof (deletes_row _ _ _ _ Hd Hr') as Hr. destruct (Hp r' Hr) as (o & Ho & Eo & Hun).
    destruct Hd as (cutoff & n & -> & Er & Eob). exists o. split; [|done]. rewrite Eob.
    apply filter_In. split; [done|]. rewrite Er in Hr'. apply filter_In in Hr' as [_ Hkeep].
    apply negb_true_iff, not_true_iff_false. intros (x & Hx & Ex)%existsb_exists. bool_to_prop.
    rewrite (key_unique r_id (runs (store s)) x r' (inv_ids _ Hinv) Hx Hr) in H0 by congruence.
    by rewrite H0 in Hkeep.
Qed.

(** * Leases counted *)

Lemma leases_of_cons id l tr :
  leases_of id (l :: tr) =
  match l with Lacquire _ i => if (i =? id)%N then 1 else 0 | _ => 0 end + leases_of id tr.
Proof.
  unfold leases_of, select_where, count. cbn [List.filter].
  destruct l; try lia. destruct (id0 =? id)%N; cbn [length]; lia.
Qed.

(** A run in the table was admitted, and so was one whose lease was taken. *)
Lemma admitted_ids st tr s :
  history st tr s →
  (∀ r, In r (runs (store s)) → In (Lenqueue (r_id r) true) tr) ∧
  ∀ w i, In (Lacquire w i) tr → In (Lenqueue i true) tr.
Proof.
  induction 1 as [hs d Er|tr s l s' Hh [IHr IHl] Hs _].
  { split; [|by intros ?? []]. cbn. rewrite Er. by intros ? []. }
  pose proof (history_inv _ _ _ Hh) as Hinv. split.
  - intros r' Hr'. destruct (step_tables st s l s' Hinv Hs) as [Hm|[(r & ob & -> & Er & _)|Hd]].
    + destruct (moves_row _ _ _ _ Hm Hr') as (r & Hr & [_ (-> & _) _ _ _ _ _]). right. auto.
    + rewrite Er in Hr'. apply in_app_iff in Hr' as [Hr'|[<-|[]]]; [right; auto|by left].
    + right. by apply IHr, (deletes_row l (store s) (store s')).
  - intros w i [->|Hin]; [|right; eauto].
    destruct (step_handles st s _ s' Hinv Hs)
      as [[Hno _]|(w' & h & r & [= -> ->] & _ & _ & Hr & <- & _)]; [by destruct (Hno w i)|].
    right. auto.
Qed.

Lemma leases_counted st tr s r :
  history st tr s → In r (runs (store s)) → r_attempt r = leases_of (r_id r) tr.
Proof.
  intros Hh. revert r. induction Hh as [hs d Er|tr s l s' Hh IH Hs Hun]; intros r' Hr'.
  - cbn in Hr'. by rewrite Er in Hr'.
  - pose proof (history_inv _ _ _ Hh) as Hinv. rewrite leases_of_cons.
    destruct (step_tables st s l s' Hinv Hs)
      as [Hm|[(r & ob & -> & Er & _ & Hnew & _ & _ & _ & _ & Ha & _)|Hd]].
    + destruct (moves_row _ _ _ _ Hm Hr') as (r & Hr & [_ (Eid & _) _ Ea _ _ _]).
      rewrite Ea, Eid, (IH r Hr). unfold bump. destruct l; lia.
    + rewrite Er in Hr'. apply in_app_iff in Hr' as [Hr'|[<-|[]]]; [by rewrite (IH r')|].
      rewrite Ha. unfold leases_of. rewrite (proj2 (select_where_nil _ _)); [done|].
      intros l Hl. destruct l; try done. apply N.eqb_neq. intros ->.
      by apply (Hun (r_id r) eq_refl), (proj2 (admitted_ids _ _ _ Hh) w).
    + rewrite (IH r' (deletes_row _ _ _ _ Hd Hr')). by destruct Hd as (? & ? & -> & _).
Qed.

(** * Histories that go on *)

Record row_reach (r r' : run) : Prop := {
  rr_identity : same_identity r r';
  rr_outcome : finished (r_status r) = true → same_outcome r r';
  rr_cancelling : is_some (r_cancel_requested_at r) = true →
    is_some (r_cancel_requested_at r') = true
}.

#[export] Instance row_reach_refl : Reflexive row_reach.
Proof. intros r. constructor; [by repeat split|by repeat split|done]. Qed.

#[export] Instance row_reach_trans : Transitive row_reach.
Proof.
  intros r1 r2 r3 [I1 O1 C1] [I2 O2 C2]. constructor.
  - unfold same_identity in *. intuition congruence.
  - intros Hf. specialize (O1 Hf). unfold same_outcome in *.
    assert (finished (r_status r2) = true) as Hf2 by (by rewrite (proj1 O1)).
    specialize (O2 Hf2). intuition congruence.
  - auto.
Qed.

Lemma row_step_reach l r r' : row_step l r r' → row_reach r r'.
Proof. by intros []. Qed.

(** The only thing that deletes a row: a retention pass over a run that had finished
    before the pass's cutoff. *)
Definition retained_away (tr : list label) (r : run) : Prop :=
  ∃ cutoff n at_, In (Lretain cutoff n) tr ∧ finished (r_status r) = true ∧
    r_finished_at r = Some at_ ∧ at_ < cutoff.

Lemma step_row_reach st tr s l s' r :
  history st tr s → step st s l s' → unused l tr → In r (runs (store s)) →
  (∀ r', In r' (runs (store s')) → r_id r' = r_id r → row_reach r r') ∧
  ((∃ r', In r' (runs (store s')) ∧ row_reach r r') ∨ retained_away [l] r).
Proof.
  intros Hh Hs Hun Hr. pose proof (history_inv _ _ _ Hh) as Hinv.
  pose proof (inv_ids _ Hinv) as Hids.
  destruct (step_tables st s l s' Hinv Hs) as [Hm|[(r0 & ob & -> & E & _ & Hnew & _)|Hd]].
  - split.
    + intros r' Hr' Eid. destruct (moves_row _ _ _ _ Hm Hr') as (r0 & Hr0 & H0).
      pose proof (rs_identity _ _ _ H0) as (E0 & _).
      rewrite (key_unique r_id (runs (store s)) r r0); auto; [|congruence]. by eapply row_step_reach.
    + left. destruct Hm as [(g & E & Hg) _]. exists (g r). rewrite E. split; [by apply in_map|].
      by eapply row_step_reach, Hg.
  - split; [|left; exists r; split; [rewrite E, in_app_iff; auto|done]].
    intros r'. rewrite E. intros [Hr'|[<-|[]]]%in_app_iff Eid.
    + by rewrite (key_unique r_id (runs (store s)) r r').
    + destruct Hnew. rewrite Eid. by apply in_map.
  - split.
    + intros r' Hr' Eid. apply (deletes_row _ _ _ _ Hd) in Hr'.
      by rewrite (key_unique r_id (runs (store s)) r r').
    + destruct Hd as (cutoff & n & -> & E & _). destruct (past_retention cutoff r) eqn:Ep.
      * right. apply past_retention_spec in Ep as (? & at_ & ? & ?). exists cutoff, n, at_. split; [by left|done].
      * left. exists r. rewrite E. split; [|done]. apply filter_In. by rewrite Ep.
Qed.

(** A row of the next state is an old one, or the one just admitted. *)
Lemma step_rows_back st tr s l s' r' :
  history st tr s → step st s l s' → In r' (runs (store s')) →
  (∃ r, In r (runs (store s)) ∧ r_id r' = r_id r) ∨ l = Lenqueue (r_id r') true.
Proof.
  intros Hh Hs Hr'. pose proof (history_inv _ _ _ Hh) as Hinv.
  destruct (step_tables st s l s' Hinv Hs) as [Hm|[(r0 & ob & -> & E & _)|Hd]].
  - destruct (moves_row _ _ _ _ Hm Hr') as (r & Hr & [_ (E & _) _ _ _ _ _]). left. eauto.
  - rewrite E in Hr'. apply in_app_iff in Hr' as [Hr'|[<-|[]]]; [left; eauto|by right].
  - left. exists r'. split; [by eapply deletes_row|done].
Qed.

(** A row of a past state, in every later one. *)
Lemma later_row st tr s tr' s' r :
  history st tr s → later st tr s tr' s' → In r (runs (store s)) →
  (∀ r', In r' (runs (store s')) → r_id r' = r_id r → row_reach r r') ∧
  ((∃ r', In r' (runs (store s')) ∧ row_reach r r') ∨
   ∃ r1, row_reach r r1 ∧ retained_away tr' r1).
Proof.
  intros Hh Hl Hr. induction Hl as [|tr' s1 l s2 Hl [IHall IHone] Hs Hun].
  { split; [|by left; exists r].
    intros r' Hr' Eid. by rewrite (key_unique r_id (runs (store s)) r r' (inv_ids _ (history_inv _ _ _ Hh))). }
  pose proof (later_history _ _ _ _ _ Hh Hl) as Hh1.
  assert (Hpast : ∀ r1, row_reach r r1 → retained_away tr' r1 → ∃ r1, row_reach r r1 ∧ retained_away (l :: tr') r1).
  { intros r1 Hr1 (c & n & a & Hin & Hrest). exists r1. split; [done|]. exists c, n, a. split; [by right|done]. }
  assert (Hone : (∃ r', In r' (runs (store s2)) ∧ row_reach r r') ∨
    ∃ r1, row_reach r r1 ∧ retained_away (l :: tr') r1).
  { destruct IHone as [(r1 & Hr1 & H1)|(r1 & H1 & H2)]; [|by right; eauto].
    destruct (step_row_reach _ _ _ _ _ _ Hh1 Hs Hun Hr1) as [_ [(r2 & Hr2 & H2)|(c & n & a & [->|[]] & Hrest)]].
    - left. exists r2. split; [done|]. by transitivity r1.
    - right. exists r1. split; [done|]. exists c, n, a. split; [by left|done]. }
  split; [|done]. intros r' Hr' Eid.
  destruct (step_rows_back st (tr' ++ tr) s1 l s2 r' Hh1 Hs Hr') as [(r1 & Hr1 & E1)|Hl'].
  - transitivity r1; [apply IHall; [done|congruence]|].
    by apply (proj1 (step_row_reach _ _ _ _ _ _ Hh1 Hs Hun Hr1)).
  - exfalso. apply (Hun (r_id r') Hl'). rewrite Eid. apply in_app_iff. right.
    by apply (proj1 (admitted_ids _ _ _ Hh)).
Qed.

(** * Losing a lease *)

(** The events that take run [id] away from worker [w]: another worker's lease, the
    reaper, or the releasing write of [w] itself. *)
Definition loses (w : string) (id : uuid) (l : label) : Prop :=
  match l with
  | Lacquire w' i => w' ≠ w ∧ i = id
  | Lreap ids => In id ids
  | Lcomplete w' held | Lfail w' held | Lacknowledge w' held => w' = w ∧ held = true
  | _ => False
  end.

Definition unheld (h : LeasedRun) (d : db) : Prop := ∀ r, In r (runs d) → held_by h r = false.

Lemma fenced_loses run p f d d' :
  List.NoDup (map r_id (runs d)) → (∀ r, p r = true → held_by run r = true) →
  (∀ r, r_leased_by (f r) = None) → fenced run p f d = (Ok true, d') → unheld run d'.
Proof.
  intros Hids Hp Hf E. destruct (fenced_cases run p f d Hids Hp) as [[_ E']|(r & Hr & Hv & E')];
    rewrite E' in E; invc E.
  intros x' (x & Hx & ->)%in_update_where. destruct (visible _ p x) eqn:Ex; [by apply held_released|].
  apply not_true_iff_false. intros Hh. unfold visible in Hv. bool_to_prop.
  assert (x = r) as ->; [|unfold visible in Ex; rewrite H, H0 in Ex; by rewrite N.eqb_refl in Ex].
  apply (key_unique r_id (runs d)); auto. rewrite (held_by_id _ _ Hh). symmetry. by apply held_by_id, Hp.
Qed.

Lemma reap_loses st now rnd grace d rows d' h :
  List.NoDup (map r_id (runs d)) → reap_expired st now rnd grace d = (Ok rows, d') →
  In (lr_run_id h) (map r_id rows) → unheld h d'.
Proof.
  intros Hids E Hin. rewrite reap_expired_eq in E. cbn zeta in E. invc E.
  apply in_map_iff in Hin as (x & Ex & (y & <- & Hy)%in_map_iff).
  apply filter_In in Hy as [Hy Hex]. intros r' (r & Hr & ->)%in_update_where.
  destruct (expired now grace r) eqn:Er; [by apply held_released|].
  apply not_true_iff_false. intros Hh%held_by_id. cbn in Ex.
  rewrite (key_unique r_id (runs d) r y) in Er; auto; congruence.
Qed.

Lemma taken_unheld w h d d' :
  moves (Lacquire w (lr_run_id h)) d d' → w ≠ lr_leased_by h → unheld h d'.
Proof.
  intros Hm Hne r' Hr'. apply not_true_iff_false. intros Hheld.
  destruct (moves_row _ _ _ _ Hm Hr') as (r & Hr & Hrs).
  destruct (rs_held _ _ _ Hrs h Hheld) as [[Hb Hold]|E]; [|congruence].
  cbn in Hb. by rewrite (held_by_id _ _ Hold), N.eqb_refl in Hb.
Qed.

Lemma step_loses st s l s' w h :
  sys_inv s → step st s l s' → lr_leased_by h = w →
  (∀ h', handles s !! w = Some h' → h' = h) → loses w (lr_run_id h) l → unheld h (store s').
Proof.
  intros Hinv Hs Hw Honly Hl. pose proof (inv_ids _ Hinv) as Hids.
  destruct Hs; cbn [store handles loses] in *; try done.
  - apply acquire_step in H0 as [Hm _]; [|done|by apply (inv_rows _ Hinv)].
    destruct Hl as [? Hid]. rewrite Hid in Hm. eapply taken_unheld; [exact Hm|congruence].
  - apply acquire_specific_step in H0 as [Hm _]; [|done|by apply (inv_rows _ Hinv)].
    destruct Hl as [? Hid]. rewrite Hid in Hm. eapply taken_unheld; [exact Hm|congruence].
  - destruct Hl as [-> ->]. apply Honly in H as ->. eapply fenced_loses in H0; try done.
    intros r E. by bool_to_prop.
  - destruct Hl as [-> ->]. apply Honly in H as ->. by eapply fenced_loses in H0.
  - destruct Hl as [-> ->]. apply Honly in H as ->. eapply fenced_loses in H0; try done.
    intros r E. by bool_to_prop.
  - by eapply reap_loses.
Qed.

Lemma step_unheld st s l s' h :
  sys_inv s → step st s l s' → (∀ i, l ≠ Lacquire (lr_leased_by h) i) →
  unheld h (store s) → unheld h (store s').
Proof.
  intros Hinv Hs Hno Hu r' Hr'. apply not_true_iff_false. intros Hheld.
  destruct (step_tables st s l s' Hinv Hs) as [Hm|[(r & ob & -> & E & _ & _ & _ & _ & _ & _ & _ & Ep & _)|Hd]].
  - destruct (moves_row _ _ _ _ Hm Hr') as (r & Hr & Hrs).
    destruct (rs_held _ _ _ Hrs h Hheld) as [[_ Hold]|El]; [|by apply Hno in El].
    by rewrite (Hu r Hr) in Hold.
  - rewrite E in Hr'. apply in_app_iff in Hr' as [Hr'|[<-|[]]]; [by rewrite (Hu r') in Hheld|].
    apply held_by_spec in Hheld as (_ & ? & _). congruence.
  - by rewrite (Hu r' (deletes_row _ _ _ _ Hd Hr')) in Hheld.
Qed.

Lemma step_handle_kept st s l s' w h :
  sys_inv s → step st s l s' → (∀ i, l ≠ Lacquire w i) →
  (∀ h', handles s !! w = Some h' → h' = h) → ∀ h', handles s' !! w = Some h' → h' = h.
Proof.
  intros Hinv Hs Hno Honly h' Hh'.
  destruct (step_handles st s l s' Hinv Hs) as [[_ Hsub]|(w0 & h0 & r & -> & Eh & _)]; [by auto|].
  rewrite Eh in Hh'. apply lookup_insert_Some in Hh' as [[-> _]|[_ ?]]; [by destruct (Hno (lr_run_id h0))|auto].
Qed.

Lemma later_unheld st tr s tr' s' w h :
  history st tr s → later st tr s tr' s' → lr_leased_by h = w → handles s !! w = Some h →
  (∀ i, ¬ In (Lacquire w i) tr') → Exists (loses w (lr_run_id h)) tr' → unheld h (store s').
Proof.
  intros Hh Hl Hw Hs. intros Hno Hlost.
  assert ((∀ h', handles s' !! w = Some h' → h' = h) ∧
          (Exists (loses w (lr_run_id h)) tr' → unheld h (store s'))) as [_ H]; [|auto].
  clear Hlost. induction Hl as [|tr1 s1 l s2 Hl IH Hstep _].
  { split; [|by intros ?%Exists_nil]. intros h'. congruence. }
  destruct IH as [Honly Hun]; [intros i Hi; by apply (Hno i); right|].
  pose proof (history_inv _ _ _ (later_history _ _ _ _ _ Hh Hl)) as Hinv.
  assert (Hl' : ∀ i, l ≠ Lacquire w i) by (intros i ->; by apply (Hno i); left).
  split; [by eapply step_handle_kept|]. intros [He|He]%Exists_cons; [by eapply step_loses|].
  eapply step_unheld; [done|done|by rewrite Hw|auto].
Qed.

(** * What holds of every history *)

Module LifecycleDemo.
Definition st : retry_settings := mkRetry 2 300 (1 # 4).
Definition enq := enqueue_run 5 42 1 (fun d => d) "r1" (JObj []) Demo.ctx "echo" (JObj []) None 3.
Definition d1 : db := snd (enq empty_db).
Definition take := acquire 10 (fun _ => false) Demo.tenant_a "w1" None DEFAULT_LEASE.
Definition d2 : db := snd (take d1).
Definition h : LeasedRun := mkLeased 42 Demo.tenant_a "echo" (JObj []) 1 3 "w1" (10 + DEFAULT_LEASE).
Definition s2 : sys := mkSys d2 {[ "w1" := h ]}.
Definition d3 : db := snd (request_cancel 15 1 42 11 d2).
Definition s3 : sys := mkSys d3 {[ "w1" := h ]}.
Definition d4 : db := snd (complete 20 h None d2).
Definition s4 : sys := mkSys d4 ∅.
Definition d5 : db := snd (acknowledge_cancellation 21 h d3).
Definition s5 : sys := mkSys d5 ∅.

Lemma hist1 : history st [Lenqueue 42 true] (mkSys d1 ∅).
Proof.
  eapply history_step; [by apply (history_start st ∅ empty_db)| |by intros ? _ []].
  eapply (step_enqueue st empty_db _ ∅ 5 42 1 "r1" (JObj []) Demo.ctx "echo" (JObj []) None 3 42 true);
    [lia|by intros []|by intros []|vm_compute; reflexivity].
Qed.

Lemma hist2 : history st [Lacquire "w1" 42; Lenqueue 42 true] s2.
Proof.
  eapply history_step; [exact hist1| |done].
  eapply (step_acquire st d1 _ ∅ 10 (fun _ => false) Demo.tenant_a "w1" None DEFAULT_LEASE h);
    [done|vm_compute; reflexivity].
Qed.

Lemma go3 : step st s2 (Lcancel 42) s3.
Proof. eapply (step_cancel st d2 d3 _ 15 1 42 11). vm_compute. reflexivity. Qed.

Lemma go4 : step st s2 (Lcomplete "w1" true) s4.
Proof.
  assert (s4 = mkSys d4 (delete "w1" {[ "w1" := h ]})) as ->; [done|].
  eapply (step_complete st d2 d4 _ 20 "w1" h None true); [done|vm_compute; reflexivity].
Qed.

Lemma hist4 : history st [Lcomplete "w1" true; Lacquire "w1" 42; Lenqueue 42 true] s4.
Proof. by eapply history_step; [exact hist2|exact go4|]. Qed.

(** Thirty one days later retention deletes it. *)
Definition s6 : sys := mkSys (snd (retain_runs (seconds (31 * 86400)) 30 d4)) ∅.
Definition month_old : timestamp := run_cutoff (seconds (31 * 86400)) 30.
Lemma go6 : step st s4 (Lretain month_old 1) s6.
Proof. eapply (step_retain st d4 _ ∅ (seconds (31 * 86400)) 30 1). vm_compute. reflexivity. Qed.

(** A second worker leases the run once the reaper has put it back. *)
Definition d7 : db := snd (reap_expired st (seconds 100) (fun _ => 0%Q) 0 d2).
Definition s7 : sys := mkSys d7 {[ "w1" := h ]}.
Definition take2 := acquire (seconds 200) (fun _ => false) Demo.tenant_a "w2" None DEFAULT_LEASE.
Definition h2 : LeasedRun :=
  mkLeased 42 Demo.tenant_a "echo" (JObj []) 2 3 "w2" (seconds 200 + DEFAULT_LEASE).
Definition d8 : db := snd (take2 d7).
Definition s8 : sys := mkSys d8 (<[ "w2" := h2 ]> {[ "w1" := h ]}).

Lemma go7 : step st s2 (Lreap [42%N]) s7.
Proof.
  eapply (step_reap st d2 d7 _ (seconds 100) (fun _ => 0%Q) 0 (runs d7)). vm_compute. reflexivity.
Qed.

Lemma go8 : step st s7 (Lacquire "w2" 42) s8.
Proof.
  eapply (step_acquire st d7 d8 _ (seconds 200) (fun _ => false) Demo.tenant_a "w2" None DEFAULT_LEASE h2);
    [done|vm_compute; reflexivity].
Qed.

Lemma go5 : step st s3 (Lacknowledge "w1" true) s5.
Proof.
  assert (s5 = mkSys d5 (delete "w1" {[ "w1" := h ]})) as ->; [done|].
  eapply (step_acknowledge st d3 d5 _ 21 "w1" h true); [done|vm_compute; reflexivity].
Qed.

Definition first (d : db) : run :=
  List.hd (new_run 0 0 Demo.ctx "" JNull None 0 "") (runs d).
Lemma first_in d : negb (count (runs d) =? 0) = true → In (first d) (runs d).
Proof. unfold first, count. destruct (runs d); [done|]. intros _. by left. Qed.
End LifecycleDemo.

(** C16: in every reachable state the run table is well formed: ids and idempotency
    keys are unique, attempts never exceed the maximum, exactly the leased rows
    carry a holder and a deadline, exactly the finished ones a finish time, a
    pending row always has an attempt left, and a succeeded (failed) row has its
    result (error). *)
Theorem run_table_invariant st tr s :
  history st tr s →
  List.NoDup (map r_id (runs (store s))) ∧ keys_unique (runs (store s)) ∧
  Forall run_wf (runs (store s)).
Proof. intros Hh. by destruct (history_inv _ _ _ Hh). Qed.

Lemma run_table_invariant_witness :
  Forall run_wf (runs LifecycleDemo.d2) ∧ map r_status (runs LifecycleDemo.d2) = [leased].
Proof.
  split; [|reflexivity].
  exact (proj2 (proj2 (run_table_invariant _ _ _ LifecycleDemo.hist2))).
Defined.

(** C1: a finished run is final.  Whatever happens afterwards - a late worker, the
    reaper, a cancellation, a redelivered pointer, retention - as long as the run is in the
    table it has the identity, status, attempts, result, error and finish time it finished
    with; and only retention removes it, with a cutoff later than its finish time. *)
Theorem finished_runs_are_final st tr s tr' s' r :
  history st tr s → later st tr s tr' s' → In r (runs (store s)) → finished (r_status r) = true →
  (∀ r', In r' (runs (store s')) → r_id r' = r_id r → same_identity r r' ∧ same_outcome r r') ∧
  (In (r_id r) (map r_id (runs (store s'))) ∨
   ∃ cutoff n at_, In (Lretain cutoff n) tr' ∧ r_finished_at r = Some at_ ∧ at_ < cutoff).
Proof.
  intros Hh Hl Hr Hf. destruct (later_row st tr s tr' s' r Hh Hl Hr) as [Hall Hone]. split.
  - intros r' Hr' E. destruct (Hall r' Hr' E). auto.
  - destruct Hone as [(r' & Hr' & [(E & _) _ _])|(r1 & [_ Ho _] & c & n & a & Hin & _ & Ea & Hlt)].
    + left. rewrite <- E. by apply in_map.
    + right. exists c, n, a. destruct (Ho Hf) as (_ & _ & _ & _ & E). by rewrite <- E.
Qed.

Lemma finished_runs_are_final_witness :
  let r := LifecycleDemo.first LifecycleDemo.d4 in
  r_status r = succeeded ∧ runs (store LifecycleDemo.s6) = [] ∧
  (In (r_id r) (map r_id (runs (store LifecycleDemo.s6))) ∨
   ∃ cutoff n at_, In (Lretain cutoff n) [Lretain LifecycleDemo.month_old 1] ∧
     r_finished_at r = Some at_ ∧ at_ < cutoff).
Proof.
  split; [vm_compute; reflexivity|]. split; [vm_compute; reflexivity|].
  apply (finished_runs_are_final LifecycleDemo.st
    [Lcomplete "w1" true; Lacquire "w1" 42; Lenqueue 42 true] LifecycleDemo.s4
    [Lretain LifecycleDemo.month_old 1] LifecycleDemo.s6 (LifecycleDemo.first LifecycleDemo.d4)).
  - exact LifecycleDemo.hist4.
  - eapply later_step; [apply later_now|exact LifecycleDemo.go6|done].
  - apply LifecycleDemo.first_in. vm_compute. reflexivity.
  - vm_compute. reflexivity.
Defined.

(** C15: a run is leased at most [max_attempts] times, in every history: its attempt
    counter is exactly the number of times any worker took its lease. *)
Theorem attempts_count_leases st tr s r :
  history st tr s → In r (runs (store s)) →
  r_attempt r = leases_of (r_id r) tr ∧ leases_of (r_id r) tr <= r_max_attempts r.
Proof.
  intros Hh Hr. pose proof (leases_counted _ _ _ _ Hh Hr) as <-. split; [done|].
  pose proof (inv_rows _ (history_inv _ _ _ Hh)) as Hwf. rewrite List.Forall_forall in Hwf.
  by destruct (Hwf r Hr) as [[_ ?] _ _ _ _ _ _ _ _ _].
Qed.

Lemma attempts_count_leases_witness :
  let r := LifecycleDemo.first LifecycleDemo.d2 in
  r_attempt r = 1 ∧ r_attempt r = leases_of (r_id r) [Lacquire "w1" 42; Lenqueue 42 true].
Proof.
  split; [vm_compute; reflexivity|].
  apply (attempts_count_leases _ _ _ _ LifecycleDemo.hist2), LifecycleDemo.first_in.
  vm_compute. reflexivity.
Defined.

(** C8: a worker that lost its run cannot write to it.  Once another worker has leased the
    run, the reaper has taken it or the worker's own releasing write has gone through, then
    in every later state in which the worker has leased nothing anew - whatever others do to
    the run in between, leasing it again included - the handle's heartbeat, completion, failure and
    cancellation acknowledgement report [False] and leave the database exactly as it was. *)
Theorem stale_holder_is_fenced st tr s tr' s' w h :
  history st tr s → handles s !! w = Some h → later st tr s tr' s' →
  (∀ i, ¬ In (Lacquire w i) tr') → Exists (loses w (lr_run_id h)) tr' →
  let d := store s' in
  (∀ now extend, heartbeat now h extend d = (Ok false, d)) ∧
  (∀ now res, complete now h res d = (Ok false, d)) ∧
  (∀ st now rnd err retryable after, fail st now rnd h err retryable after d = (Ok false, d)) ∧
  (∀ now, acknowledge_cancellation now h d = (Ok false, d)).
Proof.
  intros Hh Hw Hl Hno Hlost. pose proof (history_inv _ _ _ Hh) as Hinv. apply unheld_writes_nothing.
  - apply inv_ids, (history_inv st (tr' ++ tr)). by eapply later_history.
  - apply (later_unheld st tr s tr' s' w h); auto. by apply (inv_holder _ Hinv).
Qed.

Lemma stale_holder_is_fenced_witness :
  let d := store LifecycleDemo.s8 in
  complete (seconds 210) LifecycleDemo.h None d = (Ok false, d) ∧
  fst (complete (seconds 210) LifecycleDemo.h2 None d) = Ok true.
Proof.
  split; [|vm_compute; reflexivity].
  destruct (stale_holder_is_fenced LifecycleDemo.st [Lacquire "w1" 42; Lenqueue 42 true]
    LifecycleDemo.s2 [Lacquire "w2" 42; Lreap [42%N]] LifecycleDemo.s8 "w1" LifecycleDemo.h
    LifecycleDemo.hist2) as (_ & Hc & _).
  - reflexivity.
  - eapply later_step; [eapply later_step; [apply later_now|exact LifecycleDemo.go7|done]
                       |exact LifecycleDemo.go8|done].
  - intros i [E|[E|[]]]; discriminate E.
  - apply Exists_cons_hd. split; [discriminate|reflexivity].
  - exact (Hc (seconds 210) None).
Defined.

(** A cancelled run never succeeds: once cancellation is requested, the run is,
    in every later state that still has it, held by the worker that was running it or
    already [cancelled]. *)
Theorem cancelled_run_never_succeeds st tr s tr' s' r :
  history st tr s → later st tr s tr' s' → In r (runs (store s)) →
  is_some (r_cancel_requested_at r) = true →
  ∀ r', In r' (runs (store s')) → r_id r' = r_id r →
    same_identity r r' ∧ (r_status r' = leased ∨ r_status r' = cancelled).
Proof.
  intros Hh Hl Hr Hc r' Hr' E.
  destruct (proj1 (later_row st tr s tr' s' r Hh Hl Hr) r' Hr' E) as [Hid _ Hc'].
  split; [done|].
  pose proof (inv_rows _ (history_inv _ _ _ (later_history _ _ _ _ _ Hh Hl))) as Hwf.
  rewrite List.Forall_forall in Hwf. by apply (Hwf r' Hr'), Hc'.
Qed.

Lemma cancelled_run_never_succeeds_witness :
  let r := LifecycleDemo.first LifecycleDemo.d3 in
  let r' := LifecycleDemo.first LifecycleDemo.d5 in
  r_status r = leased ∧ r_status r' = cancelled ∧
  same_identity r r' ∧ (r_status r' = leased ∨ r_status r' = cancelled).
Proof.
  split; [vm_compute; reflexivity|]. split; [vm_compute; reflexivity|].
  apply (cancelled_run_never_succeeds LifecycleDemo.st
    [Lcancel 42; Lacquire "w1" 42; Lenqueue 42 true] LifecycleDemo.s3 [Lacknowledge "w1" true]
    LifecycleDemo.s5).
  - eapply history_step; [exact LifecycleDemo.hist2|exact LifecycleDemo.go3|done].
  - eapply later_step; [apply later_now|exact LifecycleDemo.go5|done].
  - apply LifecycleDemo.first_in. vm_compute. reflexivity.
  - vm_compute. reflexivity.
  - apply LifecycleDemo.first_in. vm_compute. reflexivity.
  - vm_compute. reflexivity.
Defined.

(** Two workers never hold one run: of all the lease handles in memory at any
    time, at most one is honoured by the database for a given row, and its attempt
    number is the row's current one - so a woken worker's stale handle is never
    mistaken for the holder's. *)
Theorem one_holder_per_run st tr s w1 w2 h1 h2 r :
  history st tr s → handles s !! w1 = Some h1 → handles s !! w2 = Some h2 →
  In r (runs (store s)) → held_by h1 r = true → held_by h2 r = true →
  w1 = w2 ∧ lr_attempt h1 = r_attempt r.
Proof.
  intros Hh H1 H2 Hr E1 E2. destruct (history_inv _ _ _ Hh) as [_ _ _ _ Hown Hh'].
  split; [|by apply (Hh' w1)].
  rewrite <- (Hown _ _ H1), <- (Hown _ _ H2).
  apply held_by_spec in E1 as (_ & _ & E1), E2 as (_ & _ & E2). congruence.
Qed.

Lemma one_holder_per_run_witness :
  "w1" = "w1" ∧ lr_attempt LifecycleDemo.h = r_attempt (LifecycleDemo.first LifecycleDemo.d2).
Proof.
  apply (one_holder_per_run _ _ _ "w1" "w1" LifecycleDemo.h LifecycleDemo.h
    (LifecycleDemo.first LifecycleDemo.d2) LifecycleDemo.hist2); try (vm_compute; reflexivity).
  apply LifecycleDemo.first_in. vm_compute. reflexivity.
Defined.

(** No admitted run is lost between the database and the broker: in every
    reachable state each run has an outbox row which is either still unpublished -
    the relay will take it - or was published and left its mark on the run - the
    sweeper republishes from that. *)
Theorem every_run_has_a_pointer st tr s :
  history st tr s →
  ∀ r, In r (runs (store s)) → ∃ o, In o (outboxes (store s)) ∧ ob_run o = r_id r ∧
    (unpublished o = true ∨ is_some (r_last_enqueued_at r) = true).
Proof.
  intros Hh. change (pointers_ok (store s)).
  induction Hh as [hs d Hr|tr s l s' Hh IH Hs _].
  - intros r Hin. cbn in Hin. by rewrite Hr in Hin.
  - apply (step_pointers st s l s'); [by apply (history_inv st tr)|done|done].
Qed.

Lemma every_run_has_a_pointer_witness :
  let r := LifecycleDemo.first LifecycleDemo.d2 in
  ∃ o, In o (outboxes LifecycleDemo.d2) ∧ ob_run o = r_id r ∧
    (unpublished o = true ∨ is_some (r_last_enqueued_at r) = true).
Proof.
  apply (every_run_has_a_pointer _ _ _ LifecycleDemo.hist2), LifecycleDemo.first_in.
  vm_compute. reflexivity.
Defined.
