(* ===== verification/SideEffects.v ===== *)
(** Side effects keyed on [(run_id, step)]
    ([platform_core/correctness/side_effects.py]).

    [perform_once] runs over a state [db * W]: the database and whatever the effect
    touches outside it.  Its three commits - claim, outcome of a failure, outcome of
    a success - happen at three clock readings.  [between] is what other
    transactions commit between the claim's SELECT (which locks an existing row) and
    its INSERT.  [crash_points.maybe_crash] kills the process and never returns: it
    is the crash step of the transition system below. *)
From S2P Require Import Prelude Json Identity Db Leases.

Inductive RetryPolicy := SAFE_TO_REPEAT | NEEDS_RECONCILIATION.

#[export] Instance retry_policy_eq_dec : EqDecision RetryPolicy.
Proof. solve_decision. Defined.

Record EffectOutcome := mkOutcome { eo_result : json; eo_repeated : bool; eo_attempt : Z }.

Definition DEFAULT_CLAIM_TTL : interval := seconds 300.

Definition of_step (run : uuid) (step : string) (e : side_effect) : bool :=
  (se_run e =? run)%N && String.eqb (se_step e) step.

(** [claim_expires_at IS NOT NULL AND claim_expires_at > now()]. *)
Definition claim_live (now : timestamp) (e : side_effect) : bool :=
  match se_claim_expires_at e with Some x => now <? x | None => false end.

(** What the claim transaction decides. *)
Inductive claimed :=
| Stored (o : EffectOutcome)
| Proceed (attempt : Z).

Definition new_claim (now : timestamp) (t run : uuid) (step claimant : string) (ttl : interval)
    : side_effect :=
  mkSideEffect t run step started None now None 1 None (Some claimant) (Some (now + ttl)).

(** [UPDATE side_effect SET status = 'started', attempt = :a, started_at = now(),
    error = NULL, claimed_by = :by, claim_expires_at = now() + :ttl]: the retake of
    an abandoned claim (whose status already is [started]) and of a failed one. *)
Definition retake (now : timestamp) (attempt : Z) (claimant : string) (ttl : interval)
    (e : side_effect) : side_effect :=
  e <| se_status := started |>
    <| se_attempt := attempt |>
    <| se_started_at := now |>
    <| se_error := None |>
    <| se_claimed_by := Some claimant |>
    <| se_claim_expires_at := Some (now + ttl) |>.

(** [INSERT INTO side_effect], the unique constraint on [(run_id, step)] turned
    into [EffectAlreadyRunning]. *)
Definition insert_claim (e : side_effect) : M db unit :=
  clash <- sql_select (of_step (se_run e) (se_step e)) ;;
  match clash with
  | [] => sql_insert e
  | _ => raise EffectAlreadyRunning
  end.

(** The claim transaction.  Every raise comes before the first write, so there is
    nothing to roll back. *)
Definition claim (now : timestamp) (between : db → db) (t run : uuid) (step claimant : string)
    (policy : RetryPolicy) (ttl : interval) : M db claimed :=
  found <- sql_select (visible t (of_step run step)) ;;
  existing <- one_or_none found ;;
  match existing with
  | None =>
      modify between ;;
      insert_claim (new_claim now t run step claimant ttl) ;;
      ret (Proceed 1)
  | Some e =>
      let again := se_attempt e + 1 in
      let take := sql_update (visible t (of_step run step)) (retake now again claimant ttl) ;;
                  ret (Proceed again) in
      match se_status e with
      | completed => ret (Stored (mkOutcome (coalesce (se_result e) JNull) true (se_attempt e)))
      | started =>
          if claim_live now e then raise EffectAlreadyRunning
          else if bool_decide (policy = NEEDS_RECONCILIATION)
          then raise (NeedsReconciliation step (se_attempt e))
          else take
      | effect_failed => take
      end
  end.

Definition mark_effect_failed (error : string) (e : side_effect) : side_effect :=
  e <| se_status := effect_failed |> <| se_error := Some error |> <| se_claim_expires_at := None |>.

Definition mark_completed (now : timestamp) (res : json) (e : side_effect) : side_effect :=
  e <| se_status := completed |> <| se_completed_at := Some now |> <| se_result := Some res |>
    <| se_claim_expires_at := None |>.

Definition record_failure (t run : uuid) (step error : string) : M db unit :=
  tenant_session (sql_update (visible t (of_step run step)) (mark_effect_failed error) ;; ret tt).

Definition record_success (now : timestamp) (t run : uuid) (step : string) (res : json) : M db unit :=
  tenant_session (sql_update (visible t (of_step run step)) (mark_completed now res) ;; ret tt).

Section perform_once.
Variable W : Type.
Variable error_text : exn → string.

Definition perform_once (t_claim t_done : timestamp) (between : db → db) (claimant : string)
    (ctx : RequestContext) (step : string) (effect : M (db * W) json) (policy : RetryPolicy)
    (ttl : interval) : M (db * W) EffectOutcome :=
  match run_id ctx with
  | None => raise (ValueError "perform_once requires a RequestContext with a durable run_id")
  | Some run =>
      on_db (cancellation_point ctx) ;;
      c <- on_db (claim t_claim between (tenant_of ctx) run step claimant policy ttl) ;;
      match c with
      | Stored o => ret o
      | Proceed attempt =>
          res <- try_except
            (on_db (cancellation_point ctx) ;; effect)
            (fun e => Some (on_db (record_failure (tenant_of ctx) run step
                                     (str_take 2000 (error_text e))) ;; raise e)) ;;
          on_db (record_success t_done (tenant_of ctx) run step res) ;;
          ret (mkOutcome res false attempt)
      end
  end.

End perform_once.

(** [SELECT step, status, attempt, started_at, error ... WHERE status <> 'completed'
    ORDER BY started_at]. *)
Definition incomplete_effects (ctx : RequestContext) (run : uuid) (d : db) : list side_effect :=
  order_by (fun a b => se_started_at a <=? se_started_at b)
    (select_where (visible (tenant_of ctx)
       (fun e => (se_run e =? run)%N && negb (bool_decide (se_status e = completed))))
       (side_effects d)).

(** * The processes of one step

    The attempts of every process on one [(run_id, step)]: a process claims, its
    effect lands, and it records the outcome; the effect may raise before it has landed or
    after (an answer that timed out), and the process may die anywhere in between.
    [es_landed] counts how often the effect was applied, [es_raised] how often it raised
    although it had been. *)

Record effect_sys := mkEffectSys {
  es_db : db;
  es_inflight : list (string * bool);   (* claimant, whether its effect has landed *)
  es_landed : nat;
  es_raised : nat
}.

Inductive effect_step (t run : uuid) (step : string) (policy : RetryPolicy)
    : effect_sys → effect_sys → Prop :=
| es_claim d d' fl n k now claimant ttl attempt :
    claim now (fun d => d) t run step claimant policy ttl d = (Ok (Proceed attempt), d') →
    effect_step t run step policy (mkEffectSys d fl n k)
      (mkEffectSys d' (fl ++ [(claimant, false)]) n k)
| es_land d fl1 fl2 n k c :
    effect_step t run step policy (mkEffectSys d (fl1 ++ (c, false) :: fl2) n k)
      (mkEffectSys d (fl1 ++ (c, true) :: fl2) (S n) k)
| es_raise d d' fl1 fl2 n k c error (landed : bool) :
    record_failure t run step error d = (Ok tt, d') →
    effect_step t run step policy (mkEffectSys d (fl1 ++ (c, landed) :: fl2) n k)
      (mkEffectSys d' (fl1 ++ fl2) n (if landed then S k else k))
| es_complete d d' fl1 fl2 n k c now res :
    record_success now t run step res d = (Ok tt, d') →
    effect_step t run step policy (mkEffectSys d (fl1 ++ (c, true) :: fl2) n k)
      (mkEffectSys d' (fl1 ++ fl2) n k)
| es_crash d fl1 fl2 n k p :
    effect_step t run step policy (mkEffectSys d (fl1 ++ p :: fl2) n k)
      (mkEffectSys d (fl1 ++ fl2) n k)
| es_reaped d fl n k ids :
    effect_step t run step policy (mkEffectSys d fl n k)
      (mkEffectSys (d <| side_effects := reap_claims ids (side_effects d) |>) fl n k).

(** * Lemmas *)

Definition effect_keys (es : list side_effect) : list (uuid * string) :=
  map (fun e => (se_run e, se_step e)) es.

(** [UNIQUE (run_id, step)], and the row of this step belongs to the run's tenant. *)
Record effects_ok (t run : uuid) (step : string) (es : list side_effect) : Prop := {
  eff_unique : List.NoDup (effect_keys es);
  eff_tenant : ∀ e, In e es → of_step run step e = true → se_tenant e = t
}.

Lemma of_step_key run step e : of_step run step e = true ↔ (se_run e, se_step e) = (run, step).
Proof.
  unfold of_step. rewrite andb_true_iff, N.eqb_eq, String.eqb_eq. split; [by intros [-> ->]|].
  by intros [= -> ->].
Qed.

Definition rows_of (t run : uuid) (step : string) (d : db) : list side_effect :=
  select_where (visible t (of_step run step)) (side_effects d).

(** The step has no row or one. *)
Lemma rows_of_cases t run step d :
  effects_ok t run step (side_effects d) →
  (rows_of t run step d = [] ∧ ∀ e, In e (side_effects d) → of_step run step e = false) ∨
  ∃ e, rows_of t run step d = [e] ∧ In e (side_effects d) ∧ of_step run step e = true ∧
       se_tenant e = t.
Proof.
  intros [Hu Ht]. unfold rows_of. destruct (select_where _ _) as [|e l] eqn:E.
  - left. split; [done|]. intros e He. destruct (of_step run step e) eqn:Es; [|done].
    pose proof (proj1 (select_where_nil _ _) E e He) as Hv. unfold visible in Hv.
    pose proof (Ht e He Es) as Hte. unfold row_tenant, tenant_side_effect in Hv.
    rewrite Hte, N.eqb_refl, Es in Hv. done.
  - right. exists e.
    assert (Hin : In e (select_where (visible t (of_step run step)) (side_effects d)))
      by (rewrite E; by left).
    apply filter_In in Hin as [He Hv]. unfold visible in Hv. bool_to_prop.
    split; [|auto]. rewrite <- E.
    apply (select_by_key (fun e => (se_run e, se_step e))); auto.
    + unfold visible. apply andb_true_iff. split; [by apply N.eqb_eq|done].
    + intros e' He' Hv'. unfold visible in Hv'. bool_to_prop.
      apply of_step_key in H0, H2. congruence.
Qed.

Lemma claim_eq now between t run step claimant policy ttl d :
  effects_ok t run step (side_effects d) →
  claim now between t run step claimant policy ttl d =
  match rows_of t run step d with
  | [] =>
      let d1 := between d in
      if existsb (of_step run step) (side_effects d1) then (Raise EffectAlreadyRunning, d1)
      else (Ok (Proceed 1),
            d1 <| side_effects := side_effects d1 ++ [new_claim now t run step claimant ttl] |>)
  | e :: _ =>
      let d' := d <| side_effects := update_where (visible t (of_step run step))
                       (retake now (se_attempt e + 1) claimant ttl) (side_effects d) |> in
      match se_status e with
      | completed => (Ok (Stored (mkOutcome (coalesce (se_result e) JNull) true (se_attempt e))), d)
      | started =>
          if claim_live now e then (Raise EffectAlreadyRunning, d)
          else if bool_decide (policy = NEEDS_RECONCILIATION)
          then (Raise (NeedsReconciliation step (se_attempt e)), d)
          else (Ok (Proceed (se_attempt e + 1)), d')
      | effect_failed => (Ok (Proceed (se_attempt e + 1)), d')
      end
  end.
Proof.
  intros Hok. unfold claim. unfold bind at 1, sql_select, gets. cbn [rows table_side_effects].
  fold (rows_of t run step d).
  destruct (rows_of_cases t run step d Hok) as [[-> _]|(e & -> & _)];
    unfold bind at 1; cbn [one_or_none]; unfold ret at 1.
  - unfold bind, modify, insert_claim, sql_select, gets. cbn.
    assert (Hex : existsb (of_step run step) (side_effects (between d))
                  = negb (count (select_where (of_step run step) (side_effects (between d))) =? 0)).
    { unfold select_where. induction (side_effects (between d)) as [|x l IH]; [done|].
      cbn. destruct (of_step run step x); [done|]. by rewrite IH. }
    rewrite Hex. by destruct (select_where (of_step run step) (side_effects (between d))).
  - destruct (se_status e); [|done|done]. destruct (claim_live now e); [done|].
    by destruct (bool_decide (policy = NEEDS_RECONCILIATION)).
Qed.

(** ** The step relation *)

Lemma effect_keys_update p f es :
  (∀ e, se_run (f e) = se_run e ∧ se_step (f e) = se_step e) →
  effect_keys (update_where p f es) = effect_keys es.
Proof. intros Hf. apply map_update_where. intros e. by destruct (Hf e) as [-> ->]. Qed.

Lemma effects_ok_update t run step p f es :
  (∀ e, se_run (f e) = se_run e ∧ se_step (f e) = se_step e ∧ se_tenant (f e) = se_tenant e) →
  effects_ok t run step es → effects_ok t run step (update_where p f es).
Proof.
  intros Hf [Hu Ht]. constructor.
  - rewrite effect_keys_update; [done|]. intros e. by destruct (Hf e) as (? & ? & _).
  - intros e' (e & He & ->)%in_update_where Hs. destruct (p e); [|by apply Ht].
    destruct (Hf e) as (Er & Es & ->). apply Ht; [done|].
    unfold of_step in *. by rewrite <- Er, <- Es.
Qed.

Lemma rows_of_update t run step f d e :
  (∀ e, se_run (f e) = se_run e ∧ se_step (f e) = se_step e ∧ se_tenant (f e) = se_tenant e) →
  effects_ok t run step (side_effects d) → rows_of t run step d = [e] →
  rows_of t run step (d <| side_effects :=
    update_where (visible t (of_step run step)) f (side_effects d) |>) = [f e].
Proof.
  intros Hf Hok E. destruct (rows_of_cases t run step d Hok) as [[E' _]|(e' & E' & He & Hs & Ht)];
    rewrite E' in E; invc E.
  unfold rows_of. cbn. destruct (Hf e) as (Er & Es & Et).
  assert (Hv : ∀ x, of_step run step x = true → se_tenant x = se_tenant e →
    visible (se_tenant e) (of_step run step) x = true).
  { intros x Hx Hxt. unfold visible. rewrite Hx. unfold row_tenant, tenant_side_effect.
    by rewrite Hxt, N.eqb_refl. }
  apply (select_by_key (fun e => (se_run e, se_step e))).
  - pose proof (effect_keys_update (visible (se_tenant e) (of_step run step)) f (side_effects d)) as H.
    unfold effect_keys in H. rewrite H; [apply Hok|]. intros x. by destruct (Hf x) as (? & ? & _).
  - apply in_update_where. exists e. by rewrite (Hv e).
  - apply Hv; [|done]. unfold of_step in *. by rewrite Er, Es.
  - intros x _ Hx. unfold visible in Hx. bool_to_prop. apply of_step_key in H0.
    rewrite Er, Es, H0. symmetry. by apply of_step_key.
Qed.

(** What the row of the step says about the processes and the landings, under the
    policy that never repeats a claimed step. *)
Definition inflight_ok (e : option side_effect) (fl : list (string * bool)) (n k : nat) : Prop :=
  match e with
  | None => fl = [] ∧ n = 0%nat ∧ k = 0%nat
  | Some e =>
      match se_status e with
      | completed => fl = [] ∧ n = S k
      | effect_failed => fl = [] ∧ n = k
      | started => (fl = [] ∧ (k <= n <= S k)%nat) ∨ (∃ c, fl = [(c, false)] ∧ n = k)
                   ∨ (∃ c, fl = [(c, true)] ∧ n = S k)
      end
  end.

Definition step_inv (t run : uuid) (step : string) (s : effect_sys) : Prop :=
  effects_ok t run step (side_effects (es_db s)) ∧
  inflight_ok (List.hd_error (rows_of t run step (es_db s))) (es_inflight s) (es_landed s) (es_raised s).

Lemma singleton_split {A} (l1 l2 : list A) (x y : A) :
  l1 ++ x :: l2 = [y] → l1 = [] ∧ l2 = [] ∧ x = y.
Proof. destruct l1 as [|z [|? l1]]; cbn; intros E; simplify_eq; done. Qed.

Lemma nil_split {A} (l1 l2 : list A) (x : A) : l1 ++ x :: l2 ≠ [].
Proof. by destruct l1. Qed.

(** A process in flight means the row is [started] and it is the only one. *)
Lemma inflight_one e fl1 fl2 c b n k :
  inflight_ok e (fl1 ++ (c, b) :: fl2) n k →
  fl1 = [] ∧ fl2 = [] ∧ n = (if b then S k else k) ∧
  ∃ x, e = Some x ∧ se_status x = started.
Proof.
  unfold inflight_ok. destruct e as [x|].
  - destruct (se_status x) eqn:Es.
    + intros [[H _]|[(c' & H & ->)|(c' & H & ->)]]; [by apply nil_split in H| |];
        apply singleton_split in H as (-> & -> & [= -> ->]); eauto 10.
    + intros [H _]. by apply nil_split in H.
    + intros [H _]. by apply nil_split in H.
  - intros [H _]. by apply nil_split in H.
Qed.

Lemma record_failure_eq t run step error d :
  record_failure t run step error d =
  (Ok tt, d <| side_effects := update_where (visible t (of_step run step))
                 (mark_effect_failed error) (side_effects d) |>).
Proof. done. Qed.

Lemma record_success_eq now t run step res d :
  record_success now t run step res d =
  (Ok tt, d <| side_effects := update_where (visible t (of_step run step))
                 (mark_completed now res) (side_effects d) |>).
Proof. done. Qed.

(** An UPDATE of the step's own row, when there is one in flight. *)
Lemma step_inv_update t run step d f x :
  (∀ e, se_run (f e) = se_run e ∧ se_step (f e) = se_step e ∧ se_tenant (f e) = se_tenant e) →
  effects_ok t run step (side_effects d) → List.hd_error (rows_of t run step d) = Some x →
  let d' := d <| side_effects := update_where (visible t (of_step run step)) f (side_effects d) |> in
  effects_ok t run step (side_effects d') ∧ List.hd_error (rows_of t run step d') = Some (f x).
Proof.
  intros Hf Hok Hhd. split; [by apply effects_ok_update|].
  assert (E : rows_of t run step d = [x]).
  { destruct (rows_of_cases t run step d Hok) as [[E _]|(e & E & _)]; rewrite E in *; cbn in *;
      congruence. }
  by rewrite (rows_of_update t run step f d x Hf Hok E).
Qed.

Lemma claim_keeps t run step d d' now claimant ttl attempt fl n k :
  step_inv t run step (mkEffectSys d fl n k) →
  claim now (fun d => d) t run step claimant NEEDS_RECONCILIATION ttl d = (Ok (Proceed attempt), d') →
  step_inv t run step (mkEffectSys d' (fl ++ [(claimant, false)]) n k).
Proof.
  intros [Hok Hfl] E. cbn [es_db es_inflight es_landed] in *. rewrite claim_eq in E by done.
  destruct (rows_of_cases t run step d Hok) as [[Er Hno]|(e & Er & He & Hs & Ht)];
    rewrite Er in *; cbn in Hfl, E.
  - assert (existsb (of_step run step) (side_effects d) = false) as Hex.
    { apply not_true_iff_false. intros (x & Hx & Hsx)%existsb_exists. rewrite Hno in Hsx; done. }
    rewrite Hex in E. invc E. destruct Hfl as (-> & -> & ->).
    set (c := new_claim now t run step claimant ttl).
    assert (Hok' : effects_ok t run step (side_effects d ++ [c])).
    { destruct Hok as [Hu Ht]. constructor.
      - unfold effect_keys. rewrite map_app. cbn.
        apply (Permutation_NoDup (Permutation_cons_append _ _)). constructor; [|done].
        intros (x & Hk & Hx)%in_map_iff. apply of_step_key in Hk. rewrite Hno in Hk; done.
      - intros x [Hx|[<-|[]]]%in_app_iff; [by apply Ht|done]. }
    split; [exact Hok'|]. cbn.
    assert (rows_of t run step (d <| side_effects := side_effects d ++ [c] |>) = [c]) as ->.
    { unfold rows_of, select_where. cbn. rewrite List.filter_app. unfold rows_of, select_where in Er.
      rewrite Er. cbn. unfold visible, of_step, row_tenant, tenant_side_effect. cbn.
      by rewrite !N.eqb_refl, String.eqb_refl. }
    right. left. by exists claimant.
  - destruct (se_status e) eqn:Es; [|done|].
    + destruct (claim_live now e); done.
    + injection E as <- <-. destruct Hfl as [-> ->].
      destruct (step_inv_update t run step d (retake now (se_attempt e + 1) claimant ttl) e)
        as [H1 H2]; [done|done|by rewrite Er|].
      split; [exact H1|]. cbn in H2 |- *. rewrite H2. right. left. by exists claimant.
Qed.

Lemma effect_step_keeps t run step s s' :
  step_inv t run step s → effect_step t run step NEEDS_RECONCILIATION s s' → step_inv t run step s'.
Proof.
  intros Hinv Hs. destruct Hs.
  - by eapply claim_keeps.
  - destruct Hinv as [Hok Hfl]. split; [done|]. cbn [es_db es_inflight es_landed es_raised] in *.
    destruct (inflight_one _ _ _ _ _ _ _ Hfl) as (-> & -> & -> & x & -> & Es).
    cbn. rewrite Es. right. right. by exists c.
  - destruct Hinv as [Hok Hfl]. cbn [es_db es_inflight es_landed es_raised] in Hok, Hfl.
    destruct (inflight_one _ _ _ _ _ _ _ Hfl) as (-> & -> & -> & x & Ex & Es).
    rewrite record_failure_eq in H. injection H as <-.
    destruct (step_inv_update t run step d (mark_effect_failed error) x) as [H1 H2]; [done|done|done|].
    split; [exact H1|]. cbn in H2 |- *. rewrite H2. cbn. by destruct landed.
  - destruct Hinv as [Hok Hfl]. cbn [es_db es_inflight es_landed es_raised] in Hok, Hfl.
    destruct (inflight_one _ _ _ _ _ _ _ Hfl) as (-> & -> & -> & x & Ex & Es).
    rewrite record_success_eq in H. injection H as <-.
    destruct (step_inv_update t run step d (mark_completed now res) x) as [H1 H2]; [done|done|done|].
    split; [exact H1|]. cbn in H2 |- *. by rewrite H2.
  - destruct Hinv as [Hok Hfl]. split; [done|]. cbn [es_db es_inflight es_landed es_raised] in *. destruct p as [c b].
    destruct (inflight_one _ _ _ _ _ _ _ Hfl) as (-> & -> & -> & x & -> & Es).
    cbn. rewrite Es. left. split; [done|]. destruct b; lia.
  - destruct Hinv as [Hok Hfl]. cbn [es_db es_inflight es_landed es_raised] in Hok, Hfl.
    assert (Hok' : effects_ok t run step (reap_claims ids (side_effects d))).
    { by apply effects_ok_update. }
    split; [exact Hok'|]. cbn. unfold rows_of, reap_claims. cbn.
    rewrite select_update_comm by done. fold (rows_of t run step d).
    destruct (rows_of t run step d) as [|e l]; cbn in *; [done|].
    unfold update_where. cbn. by destruct (claim_of ids e).
Qed.

(** * What [perform_once] guarantees *)

Module EffectDemo.
Definition ctx : RequestContext := Demo.ctx <| Identity.run_id := Some 42%N |>.
Definition row (st : effect_status) (expires : option timestamp) : side_effect :=
  mkSideEffect 1 42 "announce" st (Some (JInt 7)) 0 None 1 None (Some "h:1:1") expires.
Definition d (st : effect_status) (expires : option timestamp) : db :=
  empty_db <| side_effects := [row st expires] |>.
Definition send : M (db * nat) json := fun s => (Ok (JStr "sent"), (fst s, S (snd s))).
Definition send_and_raise : M (db * nat) json :=
  fun s => (Raise (RuntimeError "timeout"), (fst s, S (snd s))).
Definition sent : effect_sys :=
  mkEffectSys (empty_db <| side_effects := [new_claim 5 1 42 "announce" "h:1:1" DEFAULT_CLAIM_TTL] |>)
    [("h:1:1", true)] 1 0.

Lemma rows_ok st expires : effects_ok 1 42 "announce" (side_effects (d st expires)).
Proof.
  constructor; [|by intros e [<-|[]]].
  repeat constructor. intros [].
Qed.
End EffectDemo.

(** [perform_once] on every branch.  A completed step returns the stored result
    and runs nothing; a step held by a live claim, and an abandoned one whose policy
    needs reconciliation, raise and change nothing; otherwise the effect runs
    exactly once on the claimed state, its result is stored and returned, or its
    exception recorded and re-raised. *)
Theorem perform_once_spec (W : Type) error_text t0 t1 claimant ctx run step
    (effect : M (db * W) json) policy ttl d w :
  let t := tenant_of ctx in
  run_id ctx = Some run → effects_ok t run step (side_effects d) →
  (∀ d', runs d' = runs d → cancellation_point ctx d' = (Ok tt, d')) →
  let go := perform_once W error_text t0 t1 (fun d => d) claimant ctx step effect policy ttl (d, w) in
  let execute attempt d1 :=
    match effect (d1, w) with
    | (Ok v, (d2, w2)) =>
        (Ok (mkOutcome v false attempt), (snd (record_success t1 t run step v d2), w2))
    | (Raise e, (d2, w2)) =>
        (Raise e, (snd (record_failure t run step (str_take 2000 (error_text e)) d2), w2))
    end in
  let retaken e := d <| side_effects := update_where (visible t (of_step run step))
                          (retake t0 (se_attempt e + 1) claimant ttl) (side_effects d) |> in
  match rows_of t run step d with
  | [] => go = execute 1 (d <| side_effects :=
                            side_effects d ++ [new_claim t0 t run step claimant ttl] |>)
  | e :: _ =>
      match se_status e with
      | completed => go = (Ok (mkOutcome (coalesce (se_result e) JNull) true (se_attempt e)), (d, w))
      | started =>
          if claim_live t0 e then go = (Raise EffectAlreadyRunning, (d, w))
          else if bool_decide (policy = NEEDS_RECONCILIATION)
          then go = (Raise (NeedsReconciliation step (se_attempt e)), (d, w))
          else go = execute (se_attempt e + 1) (retaken e)
      | effect_failed => go = execute (se_attempt e + 1) (retaken e)
      end
  end.
Proof.
  intros t Hrun Hok Hc. cbn zeta.
  set (go := perform_once _ _ _ _ _ _ _ _ _ _ _ _).
  set (finish := fun c => match c with
    | (Ok (Stored o), d1) => (Ok o, (d1, w))
    | (Ok (Proceed attempt), d1) =>
        match effect (d1, w) with
        | (Ok v, (d2, w2)) =>
            (Ok (mkOutcome v false attempt), (snd (record_success t1 t run step v d2), w2))
        | (Raise e, (d2, w2)) =>
            (Raise e, (snd (record_failure t run step (str_take 2000 (error_text e)) d2), w2))
        end
    | (Raise e, d1) => (Raise e, (d1, w))
    end).
  assert (Hgo : ∀ r d1, claim t0 (fun d => d) t run step claimant policy ttl d = (r, d1) →
    runs d1 = runs d → go = finish (r, d1)).
  { intros r d1 E Er. unfold go, perform_once. rewrite Hrun.
    unfold bind at 1, on_db at 1. cbn [fst snd]. rewrite (Hc d) by done.
    unfold bind at 1, on_db at 1. cbn [fst snd]. fold t. rewrite E.
    destruct r as [[o|attempt]|e]; cbn; [done| |done].
    unfold bind at 1, try_except, bind at 1, on_db at 1. cbn [fst snd]. rewrite (Hc d1) by done.
    destruct (effect (d1, w)) as [[v|e] [d2 w2]]; cbn; done. }
  pose proof (claim_eq t0 (fun d => d) t run step claimant policy ttl d Hok) as E.
  destruct (rows_of_cases t run step d Hok) as [[Er Hno]|(e & Er & _)]; rewrite Er in E |- *.
  - assert (existsb (of_step run step) (side_effects d) = false) as Hex.
    { apply not_true_iff_false. intros (x & Hx & Hsx)%existsb_exists. rewrite Hno in Hsx; done. }
    cbn zeta in E. rewrite Hex in E. by rewrite (Hgo _ _ E).
  - cbn zeta in E. destruct (se_status e); [destruct (claim_live t0 e);
      [|destruct (bool_decide _)]| |]; by rewrite (Hgo _ _ E).
Qed.

Lemma perform_once_spec_witness :
  (let go st ex policy := fst (perform_once nat (fun _ => "") 100 101 (fun d => d) "h:2:2"
      EffectDemo.ctx "announce" EffectDemo.send policy DEFAULT_CLAIM_TTL (EffectDemo.d st ex, O)) in
   go started (Some 500) SAFE_TO_REPEAT = Raise EffectAlreadyRunning ∧
   go started None NEEDS_RECONCILIATION = Raise (NeedsReconciliation "announce" 1) ∧
   go effect_failed None NEEDS_RECONCILIATION = Ok (mkOutcome (JStr "sent") false 2)) ∧
  perform_once nat (fun _ => "") 100 101 (fun d => d) "h:2:2" EffectDemo.ctx "announce"
    EffectDemo.send NEEDS_RECONCILIATION DEFAULT_CLAIM_TTL (EffectDemo.d completed None, O)
  = (Ok (mkOutcome (JInt 7) true 1), (EffectDemo.d completed None, O)).
Proof.
  split; [split; [|split]; vm_compute; reflexivity|].
  apply (perform_once_spec nat (fun _ => "") 100 101 "h:2:2" EffectDemo.ctx 42 "announce"
    EffectDemo.send NEEDS_RECONCILIATION DEFAULT_CLAIM_TTL (EffectDemo.d completed None) O).
  - reflexivity.
  - apply EffectDemo.rows_ok.
  - intros d' E. unfold cancellation_point, tenant_session, bind, sql_select, gets, tx.
    cbn [Identity.run_id EffectDemo.ctx rows table_runs]. cbn. rewrite E. reflexivity.
Defined.

(** C3: a step declared [NEEDS_RECONCILIATION] is repeated only after it raised.  In every
    interleaving of any number of processes that claim it, die before or after it landed,
    report failures or have their claims released by the reaper - with no assumption on how
    long an effect takes - it is applied at most once more than the number of times it raised
    although it had landed; so at most once where an effect that raises has not landed. *)
Theorem reconciled_effect_repeats_only_after_raising t run step d s :
  effects_ok t run step (side_effects d) → rows_of t run step d = [] →
  rtc (effect_step t run step NEEDS_RECONCILIATION) (mkEffectSys d [] 0 0) s →
  (es_raised s <= es_landed s <= 1 + es_raised s)%nat.
Proof.
  intros Hok Hno Hr.
  assert (Hinv : step_inv t run step s).
  { assert (H0 : step_inv t run step (mkEffectSys d [] 0 0)) by (split; cbn; [done|by rewrite Hno]).
    revert H0. induction Hr as [|s1 s2 s3 H12 _ IH]; [done|]. intros H1.
    by apply IH, (effect_step_keeps _ _ _ s1). }
  destruct Hinv as [_ H]. unfold inflight_ok in H.
  destruct (List.hd_error _) as [e|]; [destruct (se_status e)|];
    repeat match goal with
           | H : _ ∨ _ |- _ => destruct H
           | H : ∃ _, _ |- _ => destruct H
           | H : _ ∧ _ |- _ => destruct H
           end; lia.
Qed.

Lemma reconciled_effect_repeats_only_after_raising_witness :
  let s := EffectDemo.sent in (es_raised s <= es_landed s <= 1 + es_raised s)%nat.
Proof.
  apply (reconciled_effect_repeats_only_after_raising 1 42 "announce" empty_db).
  - constructor; [constructor|intros e []].
  - reflexivity.
  - eapply rtc_l.
    + eapply (es_claim 1 42 "announce" NEEDS_RECONCILIATION empty_db _ [] 0 0 5 "h:1:1"
        DEFAULT_CLAIM_TTL 1). vm_compute. reflexivity.
    + apply rtc_once. exact (es_land 1 42 "announce" NEEDS_RECONCILIATION _ [] [] 0 0 "h:1:1").
Defined.

(** The exception is real: a message that was sent and whose sender then raised (it timed out
    reading the answer) is recorded as failed, and the next attempt sends it again, whatever
    the policy. *)
Lemma landed_and_raised_lands_again :
  let attempt now effect := perform_once nat (fun _ => "timeout") now (now + 1) (fun d => d) "h:1:1"
    EffectDemo.ctx "announce" effect NEEDS_RECONCILIATION DEFAULT_CLAIM_TTL in
  let s1 := attempt 5 EffectDemo.send_and_raise (empty_db, O) in
  fst s1 = Raise (RuntimeError "timeout") ∧ snd (snd s1) = 1%nat ∧
  map se_status (side_effects (fst (snd s1))) = [effect_failed] ∧
  let s2 := attempt 10 EffectDemo.send (snd s1) in
  fst s2 = Ok (mkOutcome (JStr "sent") false 2) ∧ snd (snd s2) = 2%nat.
Proof. vm_compute. repeat split. Qed.

(** The outcome write is not fenced on the claimant.  Under [SAFE_TO_REPEAT], a
    first worker that outlives its claim and then fails overwrites the [completed]
    row of the worker that took over, and the step, already reported complete, is
    executed once more. *)
Theorem late_failure_reopens_completed_step now1 now2 now3 ttl t run step res error d :
  let claim_by c now d := claim now (fun d => d) t run step c SAFE_TO_REPEAT ttl d in
  0 < ttl → now1 + ttl <= now2 → effects_ok t run step (side_effects d) →
  rows_of t run step d = [] →
  ∃ d1 d2 d3 d4 d5,
    claim_by "a" now1 d = (Ok (Proceed 1), d1) ∧
    claim_by "b" now2 d1 = (Ok (Proceed 2), d2) ∧
    record_success now2 t run step res d2 = (Ok tt, d3) ∧
    claim_by "c" now3 d3 = (Ok (Stored (mkOutcome res true 2)), d3) ∧
    record_failure t run step error d3 = (Ok tt, d4) ∧
    claim_by "c" now3 d4 = (Ok (Proceed 3), d5).
Proof.
  intros claim_by Httl Hlate Hok Hno.
  assert (Hex : existsb (of_step run step) (side_effects d) = false).
  { apply not_true_iff_false. intros (x & Hx & Hsx)%existsb_exists.
    destruct (rows_of_cases t run step d Hok) as [[_ H]|(e & E & _)]; [by rewrite H in Hsx|].
    by rewrite Hno in E. }
  set (e0 := new_claim now1 t run step "a" ttl).
  set (d1 := d <| side_effects := side_effects d ++ [e0] |>).
  assert (Hok1 : step_inv t run step (mkEffectSys d1 [("a", false)] 0 0)).
  { apply (claim_keeps t run step d d1 now1 "a" ttl 1 [] 0 0).
    - split; cbn; [done|by rewrite Hno].
    - rewrite claim_eq by done. rewrite Hno. cbn zeta. by rewrite Hex. }
  destruct Hok1 as [Hok1 _]. cbn [es_db] in Hok1.
  assert (Er1 : rows_of t run step d1 = [e0]).
  { destruct (rows_of_cases t run step d1 Hok1) as [[_ H]|(e & E & He & Hs & _)].
    - specialize (H e0 ltac:(apply in_app_iff; right; by left)).
      unfold of_step in H. cbn in H. by rewrite N.eqb_refl, String.eqb_refl in H.
    - rewrite E. f_equal. apply in_app_iff in He as [He|[<-|[]]]; [|done].
      exfalso. apply not_true_iff_false in Hex. apply Hex. apply existsb_exists. eauto. }
  set (upd := fun f (d : db) => d <| side_effects :=
    update_where (visible t (of_step run step)) f (side_effects d) |>).
  set (d2 := upd (retake now2 2 "b" ttl) d1). set (d3 := upd (mark_completed now2 res) d2).
  set (d4 := upd (mark_effect_failed error) d3).
  assert (Hupd : ∀ f d e,
    (∀ e, se_run (f e) = se_run e ∧ se_step (f e) = se_step e ∧ se_tenant (f e) = se_tenant e) →
    effects_ok t run step (side_effects d) ∧ rows_of t run step d = [e] →
    effects_ok t run step (side_effects (upd f d)) ∧ rows_of t run step (upd f d) = [f e]).
  { intros f d0 e Hf [Ho Er]. split; [by apply effects_ok_update|by apply rows_of_update]. }
  destruct (Hupd (retake now2 2 "b" ttl) d1 e0 ltac:(done) (conj Hok1 Er1)) as [Hok2 Er2].
  destruct (Hupd (mark_completed now2 res) d2 _ ltac:(done) (conj Hok2 Er2)) as [Hok3 Er3].
  destruct (Hupd (mark_effect_failed error) d3 _ ltac:(done) (conj Hok3 Er3)) as [Hok4 Er4].
  exists d1, d2, d3, d4. eexists. unfold claim_by. repeat split.
  - rewrite claim_eq by done. rewrite Hno. cbn zeta. by rewrite Hex.
  - rewrite claim_eq by done. rewrite Er1. cbn. unfold claim_live. cbn.
    assert (now2 <? now1 + ttl = false) as -> by (apply Z.ltb_ge; lia). done.
  - rewrite claim_eq by exact Hok3. fold d3 in Er3. rewrite Er3. done.
  - rewrite claim_eq by exact Hok4. fold d4 in Er4. rewrite Er4. done.
Qed.

Lemma late_failure_reopens_completed_step_witness :
  ∃ d1 d2 d3 d4 d5 : db,
    claim 0 (fun d => d) 1 42 "s" "a" SAFE_TO_REPEAT 10 empty_db = (Ok (Proceed 1), d1) ∧
    claim 20 (fun d => d) 1 42 "s" "b" SAFE_TO_REPEAT 10 d1 = (Ok (Proceed 2), d2) ∧
    record_success 20 1 42 "s" JNull d2 = (Ok tt, d3) ∧
    claim 30 (fun d => d) 1 42 "s" "c" SAFE_TO_REPEAT 10 d3
      = (Ok (Stored (mkOutcome JNull true 2)), d3) ∧
    record_failure 1 42 "s" "late" d3 = (Ok tt, d4) ∧
    claim 30 (fun d => d) 1 42 "s" "c" SAFE_TO_REPEAT 10 d4 = (Ok (Proceed 3), d5).
Proof.
  apply (late_failure_reopens_completed_step 0 20 30 10 1 42 "s" JNull "late" empty_db).
  - lia.
  - lia.
  - constructor; [constructor|intros e []].
  - reflexivity.
Defined.
