(* ===== verification/Checkpoint.v ===== *)
(** Durable agent checkpoints: the port ([platform_core/ports/checkpoint.py]) and its
    PostgreSQL store ([platform_core/adapters/postgres/checkpoint.py]).

    [CheckpointLog] is what callers rely on - an append-only log per tenant and
    thread - and the store is its instance.  [sha256] is a parameter; a jsonb column
    gives back a value with the same canonical form, which is what is stored. *)
From S2P Require Import Prelude Json Identity Db.

Record Checkpoint := mkCheckpoint {
  thread_id : string;
  ck_tenant : uuid;
  ck_step : Z;
  ck_state : json;
  ck_created_at : timestamp;
  awaiting : option string
}.

(** * The port: what a caller may assume *)

Class CheckpointLog (St : Type) := {
  log_ok : St → Prop;
  log_append : timestamp → RequestContext → string → json → option string → M St Checkpoint;
  log_load : RequestContext → string → option Z → M St (option Checkpoint);
  log_history : RequestContext → string → Z → M St (list Checkpoint)
}.

(** The whole log of a thread, newest first. *)
Definition whole_log {St} `{CheckpointLog St} (ctx : RequestContext) (thread : string) (s : St)
    : result (list Checkpoint) :=
  fst (log_history ctx thread 500 s).

Class CheckpointLogLaws (St : Type) `{CheckpointLog St} := {
  (** an append that succeeds is the newest entry, and keeps the log usable *)
  append_latest : ∀ now ctx thread st aw s c s', log_ok s →
    log_append now ctx thread st aw s = (Ok c, s') →
    log_ok s' ∧ log_load ctx thread None s' = (Ok (Some c), s');
  (** it numbers the entry after every earlier one and changes none of them *)
  append_keeps : ∀ now ctx thread st aw s c s' ctx' thread' step c', log_ok s →
    log_append now ctx thread st aw s = (Ok c, s') →
    log_load ctx' thread' (Some step) s = (Ok (Some c'), s) →
    log_load ctx' thread' (Some step) s' = (Ok (Some c'), s') ∧
    (tenant_of ctx' = tenant_of ctx → thread' = thread → step < ck_step c);
  (** an append that raises changes nothing *)
  append_raises : ∀ now ctx thread st aw s e s',
    log_append now ctx thread st aw s = (Raise e, s') → s' = s
}.

(** * The store *)

Section store.
Variable sha256 : string → string.
Variable max_state_bytes : Z.

Definition validate_metadata (thread : string) (aw : option string) : result unit :=
  if (String.eqb thread "" || (200 <? str_len thread))%bool
  then Raise (ValueError "checkpoint thread_id must contain 1-200 characters")
  else match aw with
       | Some a => if (String.eqb a "" || (128 <? str_len a))%bool
                   then Raise (ValueError "checkpoint awaiting must contain 1-128 characters")
                   else Ok tt
       | None => Ok tt
       end.

Definition encode_state (state : json) : result string :=
  match state with
  | JObj _ => if finite state then Ok (utf8 (dumps false (canonical state)))
              else Raise (ValueError "checkpoint state must contain finite JSON values")
  | _ => Raise (ValueError "checkpoint state must be a JSON object")
  end.

Definition lift_result {S A} (r : result A) : M S A :=
  match r with Ok a => ret a | Raise e => raise e end.

(** Encode, normalise and bound a state: its digest and the value stored. *)
Definition bounded_state (state : json) : result (string * json) :=
  match encode_state state with
  | Raise e => Raise e
  | Ok encoded =>
      if max_state_bytes <? str_len encoded
      then Raise (ValueError "checkpoint state exceeds checkpoint_max_state_bytes")
      else Ok (sha256 encoded, canonical state)
  end.

Definition same_step (t : uuid) (thread : string) (step : Z) (c : agent_checkpoint) : bool :=
  (cp_tenant c =? t)%N && String.eqb (cp_thread c) thread && (cp_step c =? step).

Definition of_thread (thread : string) (c : agent_checkpoint) : bool :=
  String.eqb (cp_thread c) thread.

Definition checkpoint_row (ctx : RequestContext) (thread : string) (step : Z) (state : json)
    (sha : string) (aw : option string) (created_at : timestamp) : agent_checkpoint :=
  mkAgentCheckpoint (tenant_of ctx) thread step (run_id ctx) state sha aw
    (Some (principal_uuid (principal ctx))) created_at.

(** [INSERT INTO agent_checkpoint], raising on the unique constraint. *)
Definition insert_checkpoint (c : agent_checkpoint) : M db unit :=
  clash <- sql_select (same_step (cp_tenant c) (cp_thread c) (cp_step c)) ;;
  match clash with
  | [] => sql_insert c
  | _ => raise (IntegrityError "agent_checkpoint_thread_step_uniq")
  end.

Definition checkpoint_of (c : agent_checkpoint) : Checkpoint :=
  mkCheckpoint (cp_thread c) (cp_tenant c) (cp_step c) (cp_state c) (cp_created_at c) (cp_awaiting c).

Definition save (ctx : RequestContext) (c : Checkpoint) : M db unit :=
  guard (ck_tenant c =? tenant_of ctx)%N
    (ValueError "checkpoint tenant does not match request context") ;;
  lift_result (validate_metadata (thread_id c) (awaiting c)) ;;
  guard (0 <=? ck_step c) (ValueError "checkpoint step cannot be negative") ;;
  bounded <- lift_result (bounded_state (ck_state c)) ;;
  let '(digest, normalized) := bounded in
  let row := checkpoint_row ctx (thread_id c) (ck_step c) normalized digest (awaiting c)
               (ck_created_at c) in
  tenant_session (
    conflict <- sql_select (same_step (tenant_of ctx) (thread_id c) (ck_step c)) ;;
    match conflict with
    | [] => sql_insert row
    | _ =>
        found <- sql_select (visible (tenant_of ctx)
                   (fun x => of_thread (thread_id c) x && (cp_step x =? ck_step c))) ;;
        existing <- one_or_none found ;;
        match existing with
        | None => raise (OtherError "NoResultFound")
        | Some x =>
            if negb (String.eqb (cp_sha x) digest)
               || negb (opt_eqb String.eqb (cp_awaiting x) (awaiting c))
               || negb (opt_eqb N.eqb (cp_run x) (run_id ctx))
            then raise CheckpointConflict else ret tt
        end
    end).

(** [now] is [datetime.now(UTC)]; the advisory lock makes the block atomic per
    thread. *)
Definition append (now : timestamp) (ctx : RequestContext) (thread : string) (state : json)
    (aw : option string) : M db Checkpoint :=
  lift_result (validate_metadata thread aw) ;;
  bounded <- lift_result (bounded_state state) ;;
  let '(digest, normalized) := bounded in
  step <- tenant_session (
    mine <- sql_select (visible (tenant_of ctx) (of_thread thread)) ;;
    let step := max_or (-1) (map cp_step mine) + 1 in
    insert_checkpoint (checkpoint_row ctx thread step normalized digest aw now) ;;
    ret step) ;;
  ret (mkCheckpoint thread (tenant_of ctx) step normalized now aw).

Definition newest_first (a b : agent_checkpoint) : bool := cp_step b <=? cp_step a.

Definition load (ctx : RequestContext) (thread : string) (step : option Z)
    : M db (option Checkpoint) :=
  rows <- sql_select (visible (tenant_of ctx) (fun c => of_thread thread c &&
            match step with Some k => cp_step c =? k | None => true end)) ;;
  let ordered := match step with Some _ => rows | None => order_by newest_first rows end in
  ret (option_map checkpoint_of (List.hd_error ordered)).

Definition history (ctx : RequestContext) (thread : string) (limit : Z) : M db (list Checkpoint) :=
  guard ((1 <=? limit) && (limit <=? 500))
    (ValueError "checkpoint history limit must be between 1 and 500") ;;
  rows <- sql_select (visible (tenant_of ctx) (of_thread thread)) ;;
  ret (map checkpoint_of (firstn (Z.to_nat limit) (order_by newest_first rows))).

Definition delete_thread (ctx : RequestContext) (thread : string) : M db Z :=
  tenant_session (sql_delete (visible (tenant_of ctx) (of_thread thread))).

End store.

(** * Lemmas *)

Definition cp_key (c : agent_checkpoint) : uuid * string * Z := (cp_tenant c, cp_thread c, cp_step c).

(** [UNIQUE (tenant_id, thread_id, step)] and [CHECK (step >= 0)]. *)
Definition checkpoints_ok (d : db) : Prop :=
  List.NoDup (map cp_key (checkpoints d)) ∧ Forall (fun c => 0 <= cp_step c) (checkpoints d).

Lemma same_step_key t thread step c :
  same_step t thread step c = true ↔ cp_key c = (t, thread, step).
Proof.
  unfold same_step, cp_key. rewrite !andb_true_iff, N.eqb_eq, String.eqb_eq, Z.eqb_eq.
  split; [by intros [[-> ->] ->]|by intros [= -> -> ->]].
Qed.

Definition thread_rows (t : uuid) (thread : string) (d : db) : list agent_checkpoint :=
  select_where (visible t (of_thread thread)) (checkpoints d).

Lemma in_thread_rows t thread d c :
  In c (thread_rows t thread d) ↔ In c (checkpoints d) ∧ cp_tenant c = t ∧ cp_thread c = thread.
Proof.
  unfold thread_rows, select_where. rewrite filter_In. unfold visible, of_thread.
  rewrite andb_true_iff, N.eqb_eq, String.eqb_eq. done.
Qed.

Definition next_step (t : uuid) (thread : string) (d : db) : Z :=
  max_or (-1) (map cp_step (thread_rows t thread d)) + 1.

Lemma next_step_gt t thread d c : In c (thread_rows t thread d) → cp_step c < next_step t thread d.
Proof.
  intros Hc. unfold next_step. pose proof (max_or_ge (-1) (map cp_step (thread_rows t thread d))
    (cp_step c) ltac:(by apply in_map)). lia.
Qed.

Lemma next_step_nonneg t thread d : checkpoints_ok d → 0 <= next_step t thread d.
Proof.
  intros [_ Hpos]. unfold next_step. destruct (thread_rows t thread d) as [|c l] eqn:E; [cbn; lia|].
  assert (Hc : In c (thread_rows t thread d)) by (rewrite E; by left).
  pose proof (next_step_gt _ _ _ _ Hc) as Hgt. unfold next_step in Hgt. rewrite E in Hgt.
  apply in_thread_rows in Hc as [Hc _]. rewrite List.Forall_forall in Hpos. specialize (Hpos c Hc). lia.
Qed.

Section append.
Variable sha256 : string → string.
Variable max_state_bytes : Z.

Definition with_checkpoints (d : db) (l : list agent_checkpoint) : db := d <| checkpoints := l |>.

(** An append either refuses its input or adds one row after every other of the
    thread. *)
Lemma append_eq now ctx thread state aw d :
  append sha256 max_state_bytes now ctx thread state aw d =
  match validate_metadata thread aw with
  | Raise e => (Raise e, d)
  | Ok _ =>
      match bounded_state sha256 max_state_bytes state with
      | Raise e => (Raise e, d)
      | Ok (digest, normalized) =>
          let step := next_step (tenant_of ctx) thread d in
          (Ok (mkCheckpoint thread (tenant_of ctx) step normalized now aw),
           with_checkpoints d (checkpoints d ++
             [checkpoint_row ctx thread step normalized digest aw now]))
      end
  end.
Proof.
  unfold append. destruct (validate_metadata thread aw) as [[]|e]; [|done].
  unfold bind at 1. cbn [lift_result ret].
  unfold bind at 1. destruct (bounded_state sha256 max_state_bytes state) as [[digest normalized]|e];
    [|done]. unfold ret at 1 2. cbn [lift_result].
  unfold ret at 1. unfold bind at 1, tenant_session, tx, bind, sql_select, gets. cbn [rows table_checkpoints].
  fold (thread_rows (tenant_of ctx) thread d). fold (next_step (tenant_of ctx) thread d).
  unfold insert_checkpoint, bind, sql_select, gets. cbn [rows table_checkpoints cp_tenant cp_thread
    cp_step checkpoint_row].
  assert (select_where (same_step (tenant_of ctx) thread (next_step (tenant_of ctx) thread d))
    (checkpoints d) = []) as ->; [|done].
  apply select_where_nil. intros c Hc. apply not_true_iff_false. intros Hs.
  apply same_step_key in Hs. unfold cp_key in Hs. injection Hs as Ht Hth Hst.
  assert (Hin : In c (thread_rows (tenant_of ctx) thread d)) by (by apply in_thread_rows).
  apply next_step_gt in Hin. lia.
Qed.

Lemma append_ok_inv now ctx thread state aw d c d' :
  append sha256 max_state_bytes now ctx thread state aw d = (Ok c, d') →
  ∃ row, d' = with_checkpoints d (checkpoints d ++ [row]) ∧ checkpoint_of row = c ∧
    cp_tenant row = tenant_of ctx ∧ cp_thread row = thread ∧
    cp_step row = next_step (tenant_of ctx) thread d ∧ cp_state row = canonical state ∧
    cp_awaiting row = aw.
Proof.
  rewrite append_eq. destruct (validate_metadata thread aw) as [[]|e]; [|done].
  unfold bounded_state. destruct (encode_state state) as [enc|e]; [|done].
  destruct (max_state_bytes <? str_len enc); [done|]. cbn zeta. intros [= <- <-].
  by eexists.
Qed.

Lemma append_ok_keeps now ctx thread state aw d c d' :
  checkpoints_ok d → append sha256 max_state_bytes now ctx thread state aw d = (Ok c, d') →
  checkpoints_ok d'.
Proof.
  intros [Hnd Hpos] (row & -> & _ & Et & Eth & Es & _)%append_ok_inv. split; cbn.
  - rewrite map_app. cbn. apply (Permutation_NoDup (Permutation_cons_append _ _)).
    constructor; [|done]. intros (x & Hk & Hx)%in_map_iff. unfold cp_key in Hk.
    injection Hk as Ht Hth Hst.
    assert (Hin : In x (thread_rows (tenant_of ctx) thread d))
      by (apply in_thread_rows; split; [done|split; congruence]).
    apply next_step_gt in Hin. lia.
  - apply Forall_app. split; [done|]. constructor; [|constructor]. rewrite Es.
    by apply next_step_nonneg.
Qed.

End append.

(** ** Reading back *)

Definition at_step (thread : string) (step : option Z) (c : agent_checkpoint) : bool :=
  of_thread thread c && match step with Some k => cp_step c =? k | None => true end.

Lemma load_eq ctx thread step d :
  load ctx thread step d =
  (let rows := select_where (visible (tenant_of ctx) (at_step thread step)) (checkpoints d) in
   let ordered := match step with Some _ => rows | None => order_by newest_first rows end in
   (Ok (option_map checkpoint_of (List.hd_error ordered)), d)).
Proof. done. Qed.

Lemma load_latest_rows ctx thread d :
  load ctx thread None d =
  (Ok (option_map checkpoint_of
         (List.hd_error (order_by newest_first (thread_rows (tenant_of ctx) thread d)))), d).
Proof.
  rewrite load_eq. cbn zeta. do 4 f_equal. unfold thread_rows, select_where. f_equal.
  apply filter_ext. intros c. unfold visible, at_step. by rewrite andb_true_r.
Qed.

Lemma thread_rows_snoc t thread d row :
  cp_tenant row = t → cp_thread row = thread →
  thread_rows t thread (with_checkpoints d (checkpoints d ++ [row])) = thread_rows t thread d ++ [row].
Proof.
  intros Et Eth. unfold thread_rows, select_where. cbn. rewrite List.filter_app. f_equal. cbn.
  unfold visible, of_thread, row_tenant, tenant_checkpoint. by rewrite Et, Eth, N.eqb_refl, String.eqb_refl.
Qed.

Lemma newest_row_first t thread d row :
  cp_step row = next_step t thread d →
  order_by newest_first (thread_rows t thread d ++ [row])
  = row :: order_by newest_first (thread_rows t thread d).
Proof.
  intros Es. apply order_by_snoc_first. intros c Hc. unfold newest_first.
  apply next_step_gt in Hc. apply Z.leb_gt. lia.
Qed.

Lemma load_step_snoc ctx thread k d row c :
  load ctx thread (Some k) d = (Ok (Some c), d) →
  cp_step row = next_step (cp_tenant row) (cp_thread row) d →
  load ctx thread (Some k) (with_checkpoints d (checkpoints d ++ [row]))
    = (Ok (Some c), with_checkpoints d (checkpoints d ++ [row])) ∧
  (tenant_of ctx = cp_tenant row → thread = cp_thread row → k < cp_step row).
Proof.
  rewrite !load_eq. cbn zeta. intros [= E] Es.
  destruct (select_where (visible (tenant_of ctx) (at_step thread (Some k))) (checkpoints d))
    as [|x l] eqn:Ex; [done|]. cbn in E. injection E as <-.
  assert (Hx : In x (select_where (visible (tenant_of ctx) (at_step thread (Some k))) (checkpoints d)))
    by (rewrite Ex; by left).
  apply select_visible in Hx as (Ht & Hx & Ha). unfold at_step, of_thread in Ha. bool_to_prop.
  unfold row_tenant, tenant_checkpoint in Ht. split.
  - do 2 f_equal. unfold select_where in *. cbn [with_checkpoints checkpoints].
    unfold with_checkpoints. cbn. rewrite List.filter_app, Ex. done.
  - intros E1 E2. assert (Hin : In x (thread_rows (cp_tenant row) (cp_thread row) d)).
    { apply in_thread_rows. split; [done|]. split; congruence. }
    apply next_step_gt in Hin. lia.
Qed.

(** * The store implements the port *)

Section instance.
Variable sha256 : string → string.
Variable max_state_bytes : Z.

#[local] Instance postgres_checkpoints : CheckpointLog db := {
  log_ok := checkpoints_ok;
  log_append := append sha256 max_state_bytes;
  log_load := load;
  log_history := history
}.

#[local] Instance postgres_checkpoint_laws : CheckpointLogLaws db.
Proof.
  constructor.
  - intros now ctx thread st aw d c d' Hok E. 
    split; [exact (append_ok_keeps _ _ now ctx thread st aw d c d' Hok E)|].
    apply append_ok_inv in E as (row & -> & <- & Et & Eth & Es & _). cbn [log_load postgres_checkpoints].
    rewrite load_latest_rows, thread_rows_snoc, newest_row_first by done. done.
  - intros now ctx thread st aw d c d' ctx' thread' k c' Hok E.
    apply append_ok_inv in E as (row & -> & <- & Et & Eth & Es & _). intros Hl.
    destruct (load_step_snoc ctx' thread' k d row c' Hl ltac:(by rewrite Et, Eth)) as [H1 H2].
    split; [exact H1|]. intros E1 E2. apply H2; congruence.
  - intros now ctx thread st aw d e d'. cbn [log_append postgres_checkpoints]. rewrite append_eq.
    destruct (validate_metadata thread aw) as [[]|]; [|intros E; by inversion E].
    destruct (bounded_state sha256 max_state_bytes st) as [[]|]; [done|intros E; by inversion E].
Qed.
End instance.
#[export] Existing Instance postgres_checkpoints.
#[export] Existing Instance postgres_checkpoint_laws.

(** * What the store guarantees *)

Section save_lemmas.
Variable sha256 : string → string.
Variable max_state_bytes : Z.

Lemma encode_state_ok state enc :
  encode_state state = Ok enc → enc = utf8 (dumps false (canonical state)).
Proof. unfold encode_state. destruct state; try done. destruct (finite _); [|done]. by intros [= <-]. Qed.

(** The text a digest is taken of identifies the state up to key order. *)
Lemma encode_state_inj x y enc :
  wf_json x = true → wf_json y = true → encode_state x = Ok enc → encode_state y = Ok enc →
  canonical x = canonical y.
Proof.
  intros Hx Hy Ex%encode_state_ok Ey%encode_state_ok. apply (dumps_inj false).
  - by apply wf_canonical.
  - by apply wf_canonical.
  - apply utf8_inj. congruence.
Qed.

Lemma finite_canonical x : finite (canonical x) = finite x.
Proof.
  induction x as [| | | | |l IH|l IH] using json_nested_ind; cbn; try done.
  - induction IH as [|v l Hv _ IHl]; cbn; [done|]. by rewrite Hv, IHl.
  - set (g := fun kv => match kv with (k, x) => (k, canonical x) end).
    set (p := fun kv : string * json => match kv with (_, x) => finite x end).
    assert (Hp : ∀ m m', Permutation m m' → forallb p m = forallb p m').
    { induction 1 as [|v m m' _ IHm|v w m|m1 m2 m3 _ IH1 _ IH2]; cbn; [done|by rewrite IHm| |congruence].
      by destruct (p v), (p w). }
    rewrite (Hp _ _ (order_by_perm key_le (map g l))).
    induction IH as [|[k v] l Hv _ IHl]; cbn in *; [done|]. by rewrite Hv, IHl.
Qed.

Lemma encode_state_perm l l' :
  Permutation l l' → List.NoDup (map fst l) → encode_state (JObj l) = encode_state (JObj l').
Proof.
  intros Hp Hnd. unfold encode_state.
  rewrite <- (finite_canonical (JObj l)), <- (finite_canonical (JObj l')).
  by rewrite (canonical_perm l l' Hp Hnd).
Qed.

Lemma bounded_state_ok state digest normalized :
  bounded_state sha256 max_state_bytes state = Ok (digest, normalized) →
  ∃ enc, encode_state state = Ok enc ∧ digest = sha256 enc.
Proof.
  unfold bounded_state. destruct (encode_state state) as [enc|e]; [|done].
  destruct (max_state_bytes <? str_len enc); [done|]. intros [= <- _]. eauto.
Qed.

Definition valid_save (ctx : RequestContext) (c : Checkpoint) : Prop :=
  ck_tenant c = tenant_of ctx ∧ validate_metadata (thread_id c) (awaiting c) = Ok tt ∧ 0 <= ck_step c.

(** What [save] does with a valid checkpoint, by what is at its step. *)
Lemma save_eq ctx c digest normalized d :
  checkpoints_ok d → valid_save ctx c →
  bounded_state sha256 max_state_bytes (ck_state c) = Ok (digest, normalized) →
  save sha256 max_state_bytes ctx c d =
  match select_where (same_step (tenant_of ctx) (thread_id c) (ck_step c)) (checkpoints d) with
  | [] => (Ok tt, with_checkpoints d (checkpoints d ++
            [checkpoint_row ctx (thread_id c) (ck_step c) normalized digest (awaiting c)
               (ck_created_at c)]))
  | x :: _ =>
      if String.eqb (cp_sha x) digest && opt_eqb String.eqb (cp_awaiting x) (awaiting c)
         && opt_eqb N.eqb (cp_run x) (run_id ctx)
      then (Ok tt, d) else (Raise CheckpointConflict, d)
  end.
Proof.
  intros [Hnd _] (Et & Ev & Es) Ea. unfold save.
  rewrite Et, N.eqb_refl, Ev, (proj2 (Z.leb_le _ _) Es), Ea. cbn [guard lift_result].
  unfold tenant_session, tx, bind, sql_select, gets, ret, one_or_none, raise.
  cbn [rows table_checkpoints].
  destruct (select_where (same_step _ _ _) (checkpoints d)) as [|x l] eqn:E; [done|].
  assert (Hx : In x (select_where (same_step (tenant_of ctx) (thread_id c) (ck_step c)) (checkpoints d)))
    by (rewrite E; by left).
  apply filter_In in Hx as [Hx Hs].
  assert (select_where (visible (tenant_of ctx)
    (fun x => of_thread (thread_id c) x && (cp_step x =? ck_step c))) (checkpoints d) = [x]) as Hv.
  { apply (select_by_key cp_key); auto.
    - unfold same_step in Hs. bool_to_prop. unfold visible, of_thread, row_tenant, tenant_checkpoint.
      by rewrite H, H1, H0, N.eqb_refl, String.eqb_refl, Z.eqb_refl.
    - intros y _ Hy. unfold visible, of_thread, row_tenant, tenant_checkpoint in Hy.
      rewrite andb_assoc in Hy. apply same_step_key in Hy, Hs. congruence. }
  rewrite Hv. cbn.
  destruct (cp_sha x =? digest)%string, (opt_eqb String.eqb (cp_awaiting x) (awaiting c)),
    (opt_eqb N.eqb (cp_run x) (run_id ctx)); done.
Qed.

Lemma same_step_snoc ctx c normalized digest d :
  select_where (same_step (tenant_of ctx) (thread_id c) (ck_step c)) (checkpoints d) = [] →
  let row := checkpoint_row ctx (thread_id c) (ck_step c) normalized digest (awaiting c) (ck_created_at c) in
  select_where (same_step (tenant_of ctx) (thread_id c) (ck_step c)) (checkpoints d ++ [row]) = [row].
Proof.
  intros E row. unfold select_where in *. rewrite List.filter_app, E. cbn.
  unfold same_step. cbn. by rewrite N.eqb_refl, String.eqb_refl, Z.eqb_refl.
Qed.

Lemma opt_eqb_refl {A} (eqb : A → A → bool) o : (∀ a, eqb a a = true) → opt_eqb eqb o o = true.
Proof. destruct o; cbn; auto. Qed.
Lemma opt_eqb_iff {A} (eqb : A → A → bool) o p :
  (∀ a b, eqb a b = true ↔ a = b) → opt_eqb eqb o p = true ↔ o = p.
Proof. intros H. destruct o, p; cbn; rewrite ?H; split; congruence. Qed.

Lemma save_ok_inv ctx c d d' :
  checkpoints_ok d → valid_save ctx c → save sha256 max_state_bytes ctx c d = (Ok tt, d') →
  ∃ digest normalized x l,
    bounded_state sha256 max_state_bytes (ck_state c) = Ok (digest, normalized) ∧
    select_where (same_step (tenant_of ctx) (thread_id c) (ck_step c)) (checkpoints d') = x :: l ∧
    cp_sha x = digest ∧ cp_awaiting x = awaiting c ∧ cp_run x = run_id ctx ∧ checkpoints_ok d'.
Proof.
  intros Hok Hv E. destruct (bounded_state sha256 max_state_bytes (ck_state c)) as [[digest normalized]|e] eqn:Ea.
  - exists digest, normalized. rewrite (save_eq ctx c digest normalized d Hok Hv Ea) in E.
    destruct (select_where _ (checkpoints d)) as [|x l] eqn:Es.
    + injection E as <-. eexists _, []. split; [done|]. cbn [with_checkpoints checkpoints].
      split; [by apply (same_step_snoc ctx c normalized digest d)|]. repeat split; cbn.
      * rewrite map_app. apply (Permutation_NoDup (Permutation_cons_append _ _)).
        constructor; [|apply Hok]. intros (y & Hk & Hy)%in_map_iff.
        pose proof (proj1 (select_where_nil _ _) Es y Hy) as Hn. apply not_true_iff_false in Hn.
        apply Hn, same_step_key. by rewrite Hk.
      * apply Forall_app. split; [apply Hok|]. constructor; [apply Hv|constructor].
    + destruct (_ && _ && _) eqn:Eb in E; [|done]. injection E as <-. exists x, l. bool_to_prop.
      repeat split; auto; [by apply (opt_eqb_iff String.eqb); [intros; apply String.eqb_eq|]
        |by apply (opt_eqb_iff N.eqb); [intros; apply N.eqb_eq|]|apply Hok|apply Hok].
  - exfalso. unfold save, bind, guard in E. destruct Hv as (Et & Ev & Es).
    rewrite Et, N.eqb_refl, Ev, (proj2 (Z.leb_le _ _) Es), Ea in E. done.
Qed.
End save_lemmas.

Module CheckpointDemo.
Definition sha (s : string) : string := s.   (* a collision-free digest *)
Definition st1 : json := JObj [("phase", JStr "run_started"); ("attempt", JInt 1)].
Definition st1' : json := JObj [("attempt", JInt 1); ("phase", JStr "run_started")].
Definition st2 : json := JObj [("phase", JStr "cancelled")].
Definition go := append sha 1000 5 Demo.ctx "run:1" st1 None empty_db.
Definition ck (st : json) : Checkpoint := mkCheckpoint "run:1" 1 0 st 5 None.
Definition saved : db := snd (save sha 1000 Demo.ctx (ck st1) empty_db).
End CheckpointDemo.

(** An append adds exactly one entry: numbered after every entry of its thread,
    returned by [load] as the latest, first in [history] before the unchanged rest,
    with every earlier step of every tenant and thread still loading as before. *)
Theorem checkpoint_append_spec sha256 limit_bytes now ctx thread st aw d c d' :
  checkpoints_ok d → append sha256 limit_bytes now ctx thread st aw d = (Ok c, d') →
  checkpoints_ok d' ∧
  ck_step c = next_step (tenant_of ctx) thread d ∧ ck_state c = canonical st ∧ awaiting c = aw ∧
  load ctx thread None d' = (Ok (Some c), d') ∧
  (∀ limit old, 2 <= limit <= 500 → history ctx thread (limit - 1) d = (Ok old, d) →
     history ctx thread limit d' = (Ok (c :: old), d')) ∧
  (∀ ctx' thread' k c', load ctx' thread' (Some k) d = (Ok (Some c'), d) →
     load ctx' thread' (Some k) d' = (Ok (Some c'), d')).
Proof.
  intros Hok E. split; [by eapply append_ok_keeps|].
  apply append_ok_inv in E as (row & -> & <- & Et & Eth & Es & Est & Ea).
  repeat split; auto.
  - rewrite load_latest_rows, thread_rows_snoc, newest_row_first by done. done.
  - intros limit old Hl. unfold history, bind, guard, sql_select, gets. cbn [rows table_checkpoints].
    rewrite (proj2 (Z.leb_le 1 limit)), (proj2 (Z.leb_le limit 500)),
      (proj2 (Z.leb_le 1 (limit - 1))), (proj2 (Z.leb_le (limit - 1) 500)) by lia.
    cbn [andb ret]. unfold ret. fold (thread_rows (tenant_of ctx) thread d). intros [= <-].
    pose proof (thread_rows_snoc (tenant_of ctx) thread d row Et Eth) as Er.
    unfold thread_rows in Er at 1. rewrite Er, newest_row_first by done.
    replace (Z.to_nat limit) with (S (Z.to_nat (limit - 1))) by lia. done.
  - intros ctx' thread' k c' Hl.
    by destruct (load_step_snoc ctx' thread' k d row c' Hl ltac:(by rewrite Et, Eth)) as [H1 _].
Qed.

Lemma checkpoint_append_spec_witness :
  ∃ c d', CheckpointDemo.go = (Ok c, d') ∧ ck_step c = 0 ∧
          load Demo.ctx "run:1" None d' = (Ok (Some c), d').
Proof.
  eexists _, _. split; [vm_compute; reflexivity|]. split; [reflexivity|].
  eapply (checkpoint_append_spec CheckpointDemo.sha 1000 5 Demo.ctx "run:1" CheckpointDemo.st1 None
    empty_db).
  - split; constructor.
  - vm_compute. reflexivity.
Defined.

(** A step is written once.  Saving the same state at it again - its dict keys
    in any order - succeeds and changes nothing; saving a different state or a
    different [awaiting] there is refused with nothing written, unless the digest
    collides. *)
Theorem save_is_write_once sha256 limit_bytes ctx c c2 d d' digest normalized :
  checkpoints_ok d → valid_save ctx c → valid_save ctx c2 →
  thread_id c2 = thread_id c → ck_step c2 = ck_step c →
  wf_json (ck_state c) = true → wf_json (ck_state c2) = true →
  bounded_state sha256 limit_bytes (ck_state c2) = Ok (digest, normalized) →
  save sha256 limit_bytes ctx c d = (Ok tt, d') →
  (awaiting c2 = awaiting c ∧ encode_state (ck_state c2) = encode_state (ck_state c) ∧
     save sha256 limit_bytes ctx c2 d' = (Ok tt, d'))
  ∨ ((awaiting c2 ≠ awaiting c ∨ canonical (ck_state c2) ≠ canonical (ck_state c)) ∧
     save sha256 limit_bytes ctx c2 d' = (Raise CheckpointConflict, d'))
  ∨ ∃ a b, a ≠ b ∧ sha256 a = sha256 b.
Proof.
  intros Hok Hv Hv2 Eth Es Hwf Hwf2 Ea2 E.
  destruct (save_ok_inv _ _ ctx c d d' Hok Hv E) as (dg & n & x & l & Ea & Ex & Hsha & Haw & Hrun & Hok').
  rewrite (save_eq _ _ ctx c2 digest normalized d' Hok' Hv2 Ea2), Eth, Es, Ex, Hsha, Haw, Hrun.
  rewrite (opt_eqb_refl N.eqb (run_id ctx) N.eqb_refl), andb_true_r.
  apply bounded_state_ok in Ea as (enc & Een & ->), Ea2 as (enc2 & Een2 & ->).
  destruct (sha256 enc =? sha256 enc2)%string eqn:Esha; cycle 1.
  { right; left. split; [right; intros Hc|done]. apply String.eqb_neq in Esha. apply Esha.
    apply encode_state_ok in Een, Een2. congruence. }
  apply String.eqb_eq in Esha. cbn [andb].
  destruct (String.string_dec enc enc2) as [<-|Hne]; [|right; right; by exists enc, enc2].
  destruct (opt_eqb String.eqb (awaiting c) (awaiting c2)) eqn:Eaw.
  - left. apply opt_eqb_iff in Eaw; [|intros; apply String.eqb_eq]. rewrite Een, Een2. auto.
  - right; left. split; [left; intros Ha|done]. rewrite Ha in Eaw.
    by rewrite (opt_eqb_refl String.eqb _ String.eqb_refl) in Eaw.
Qed.

Lemma save_is_write_once_witness :
  save CheckpointDemo.sha 1000 Demo.ctx (CheckpointDemo.ck CheckpointDemo.st2) CheckpointDemo.saved
  = (Raise CheckpointConflict, CheckpointDemo.saved).
Proof.
  destruct (save_is_write_once CheckpointDemo.sha 1000 Demo.ctx (CheckpointDemo.ck CheckpointDemo.st1)
    (CheckpointDemo.ck CheckpointDemo.st2) empty_db CheckpointDemo.saved
    (CheckpointDemo.sha (utf8 (dumps false CheckpointDemo.st2))) CheckpointDemo.st2)
    as [(_ & H & _)|[[_ H]|(a & b & Hne & H)]];
    [split; constructor|by repeat split|by repeat split|done|done|done|done| | | | |].
  - by vm_compute.
  - by vm_compute.
  - vm_compute in H. discriminate.
  - exact H.
  - exfalso. exact (Hne H).
Defined.
