(* ===== verification/AuditTrail.v ===== *)
(** The append-only, hash-chained audit trail: [platform_core/observability/audit.py],
    with the retention of its oldest events (the audit part of
    [platform_enforce_retention], migration 0023).

    [sha256] (on bytes, as hexadecimal text), [datetime.isoformat] and what a
    [jsonb] column gives back for a value are parameters: every theorem holds for
    any choice of them.  The advisory lock makes each append atomic per tenant. *)
From S2P Require Import Prelude Json Identity Db.

Inductive Outcome := ALLOWED | DENIED | SUCCEEDED | FAILED.

Definition outcome_str (o : Outcome) : string :=
  match o with
  | ALLOWED => "allowed"
  | DENIED => "denied"
  | SUCCEEDED => "succeeded"
  | FAILED => "failed"
  end.

Definition opt_str (o : option string) : json :=
  match o with Some s => JStr s | None => JNull end.

(** Why a chain does not verify, with the values the report prints. *)
Inductive break_reason :=
| BeforeAnchor (event anchor : Z)
| BrokenLink (event : Z) (claims expected : option string)
| AlteredRow (event : Z).

Record ChainVerification := mkVerification {
  tenant_slug : string;
  events_checked : Z;
  intact : bool;
  first_break_id : option Z;
  reason : option break_reason;
  anchor_event_id : option Z;
  events_anchored : Z
}.

Section audit.
Variable sha256 : string → string.
Variable isoformat : timestamp → string.
Variable jsonb : json → json.

(** * Appending *)

Definition digest_payload (tenant_id : uuid) (actor_subject action : string)
    (resource_type resource_id : option string) (outcome : string) (detail : json) (at_ : string)
    (prev_hash : option string) : json :=
  JObj [("tenant_id", JStr (uuid_str tenant_id)); ("actor_subject", JStr actor_subject);
        ("action", JStr action); ("resource_type", opt_str resource_type);
        ("resource_id", opt_str resource_id); ("outcome", JStr outcome); ("detail", detail);
        ("at", JStr at_); ("prev_hash", opt_str prev_hash)].

Definition digest (tenant_id : uuid) (actor_subject action : string)
    (resource_type resource_id : option string) (outcome : string) (detail : json) (at_ : string)
    (prev_hash : option string) : string :=
  sha256 (utf8 (dumps true (canonical (digest_payload tenant_id actor_subject action
    resource_type resource_id outcome detail at_ prev_hash)))).

Definition id_le (a b : audit_event) : bool := ae_id a <=? ae_id b.
Definition id_ge (a b : audit_event) : bool := ae_id b <=? ae_id a.

(** The tail of a tenant's chain: its newest event, or the retention anchor. *)
Definition chain_tail (t : uuid) : M db (option string) :=
  events <- sql_select (visible t (fun e => (ae_tenant e =? t)%N)) ;;
  anchors <- sql_select (visible t (fun a => (an_tenant a =? t)%N)) ;;
  ret (coalesce_opt (option_map ae_hash (List.hd_error (order_by id_ge events)))
         (option_map an_through_hash (List.hd_error anchors))).

(** The columns' declared lengths. *)
Definition fits (width : Z) (s : string) : bool := str_len s <=? width.

Definition opt_fits (width : Z) (o : option string) : bool :=
  match o with Some s => fits width s | None => true end.

Definition columns_fit (e : audit_event) : bool :=
  fits 320 (ae_subject e) && fits 96 (ae_action e) && opt_fits 64 (ae_resource_type e)
  && opt_fits 200 (ae_resource_id e) && fits 16 (ae_outcome e) && opt_fits 64 (ae_release e)
  && opt_fits 64 (ae_prev_hash e) && fits 64 (ae_hash e).

(** [INSERT INTO audit_event], the id drawn from its sequence. *)
Definition insert_audit (row : Z → audit_event) : M db unit :=
  id <- gets audit_seq ;;
  guard (columns_fit (row id)) (OtherError "DataError") ;;
  modify (fun d => d <| audit_seq := id + 1 |>) ;;
  sql_insert (row id).

Definition ctx_request (ctx : option RequestContext) : option uuid := option_map request_id ctx.
Definition ctx_run (ctx : option RequestContext) : option uuid := mbind run_id ctx.

(** Read the tail, take the digest, insert: the statements both entry points send. *)
Definition append_link (now : timestamp) (release : option string) (ctx : option RequestContext)
    (actor : Principal) (action : string) (outcome : Outcome)
    (resource_type resource_id : option string) (detail : json) : M db string :=
  let t := tenant_uuid (principal_tenant actor) in
  prev <- chain_tail t ;;
  let h := digest t (subject actor) action resource_type resource_id (outcome_str outcome) detail
             (isoformat now) prev in
  insert_audit (fun id => mkAuditEvent id t (Some (principal_uuid actor)) (subject actor) action
    resource_type resource_id (outcome_str outcome) (jsonb detail) (ctx_request ctx) (ctx_run ctx)
    release now prev h) ;;
  ret h.

(** [principal or (ctx.principal if ctx else None)]. *)
Definition actor_of (ctx : option RequestContext) (p : option Principal) : option Principal :=
  coalesce_opt p (option_map principal ctx).

(** [detail or {}]. *)
Definition detail_or (detail : option json) : json :=
  match detail with
  | None | Some JNull => JObj []
  | Some d => d
  end.

(** [scope] is the transaction's [app.tenant_id]. *)
Definition append_in_session (now : timestamp) (release : option string) (scope : option uuid)
    (ctx : option RequestContext) (action : string) (outcome : Outcome) (p : option Principal)
    (resource_type resource_id : option string) (detail : option json) : M db string :=
  match actor_of ctx p with
  | None => raise AuditUnavailable
  | Some actor =>
      guard (eqb_opt N.eqb scope (tenant_uuid (principal_tenant actor))) AuditUnavailable ;;
      append_link now release ctx actor action outcome resource_type resource_id (detail_or detail)
  end.

Definition record (now : timestamp) (release : option string) (ctx : option RequestContext)
    (action : string) (outcome : Outcome) (p : option Principal)
    (resource_type resource_id : option string) (detail : option json) (required : bool)
    : M db (option string) :=
  match actor_of ctx p with
  | None => if required then raise AuditUnavailable else ret None
  | Some actor =>
      try_except
        (h <- tenant_session (append_link now release ctx actor action outcome
                resource_type resource_id (detail_or detail)) ;;
         ret (Some h))
        (fun _ => Some (if required then raise AuditUnavailable else ret None))
  end.

Definition recent (ctx : RequestContext) (limit : Z) : M db (list audit_event) :=
  events <- sql_select (visible (tenant_of ctx) (fun _ => true)) ;;
  ret (firstn (Z.to_nat (Z.min (Z.max limit 1) 500)) (order_by id_ge events)).

(** * Verification *)

Definition event_digest (e : audit_event) : string :=
  digest (ae_tenant e) (ae_subject e) (ae_action e) (ae_resource_type e) (ae_resource_id e)
    (ae_outcome e) (ae_detail e) (isoformat (ae_at e)) (ae_prev_hash e).

(** The loop over a tenant's events: the first that breaks the chain. *)
Fixpoint first_break (anchor_id : option Z) (expected_prev : option string)
    (events : list audit_event) : option (Z * break_reason) :=
  match events with
  | [] => None
  | row :: rest =>
      if match anchor_id with Some a => ae_id row <=? a | None => false end
      then Some (ae_id row, BeforeAnchor (ae_id row) (coalesce anchor_id 0))
      else if negb (opt_eqb String.eqb (ae_prev_hash row) expected_prev)
      then Some (ae_id row, BrokenLink (ae_id row) (ae_prev_hash row) expected_prev)
      else if negb (String.eqb (event_digest row) (ae_hash row))
      then Some (ae_id row, AlteredRow (ae_id row))
      else first_break anchor_id (Some (ae_hash row)) rest
  end.

Definition verify_chain (tenant_id : uuid) (slug : string) : M db ChainVerification :=
  found <- sql_select (visible tenant_id (fun a => (an_tenant a =? tenant_id)%N)) ;;
  anchor <- one_or_none found ;;
  events <- sql_select (visible tenant_id (fun e => (ae_tenant e =? tenant_id)%N)) ;;
  let rows := order_by id_le events in
  let anchor_id := option_map an_through_event_id anchor in
  let anchored := coalesce (option_map an_events_anchored anchor) 0 in
  ret (match first_break anchor_id (option_map an_through_hash anchor) rows with
       | None => mkVerification slug (count rows) true None None anchor_id anchored
       | Some (id, why) =>
           mkVerification slug (count rows) false (Some id) (Some why) anchor_id anchored
       end).

(** * Retention of the oldest events *)

Record boundary := mkBoundary {
  bd_id : Z;
  bd_tenant : uuid;
  bd_hash : string;
  bd_pos : Z
}.

(** The newest of a tenant's [batch] oldest events that are older than [cutoff]. *)
Definition boundary_of (cutoff : timestamp) (batch : Z) (events : list audit_event) (t : uuid)
    : option boundary :=
  let mine := firstn (Z.to_nat batch)
    (order_by id_le (select_where (fun e => (ae_tenant e =? t)%N && (ae_at e <? cutoff)) events)) in
  option_map (fun e => mkBoundary (ae_id e) t (ae_hash e) (count mine)) (List.hd_error (rev mine)).

Definition event_tenants (events : list audit_event) : list uuid :=
  order_by N.leb (nodup N.eq_dec (map ae_tenant events)).

Definition boundaries (cutoff : timestamp) (batch : Z) (d : db) : list boundary :=
  omap (boundary_of cutoff batch (audit_events d)) (event_tenants (audit_events d)).

Definition advance_anchor (why : string) (now : timestamp) (b : boundary) (a : audit_chain_anchor)
    : audit_chain_anchor :=
  a <| an_through_event_id := bd_id b |>
    <| an_through_hash := bd_hash b |>
    <| an_events_anchored := an_events_anchored a + bd_pos b |>
    <| an_reason := why |>
    <| an_anchored_at := now |>.

(** [INSERT ... ON CONFLICT (tenant_id) DO UPDATE]. *)
Definition upsert_anchor (why : string) (now : timestamp) (b : boundary) : M db unit :=
  conflict <- sql_select (fun a => (an_tenant a =? bd_tenant b)%N) ;;
  match conflict with
  | [] => sql_insert (mkAnchor (bd_tenant b) (bd_id b) (bd_hash b) (bd_pos b) why now)
  | _ => sql_update (fun a => (an_tenant a =? bd_tenant b)%N) (advance_anchor why now b) ;; ret tt
  end.

Definition purged (b : boundary) (e : audit_event) : bool :=
  (ae_tenant e =? bd_tenant b)%N && (ae_id e <=? bd_id b).

Definition purge_through (why : string) (now : timestamp) (b : boundary) : M db unit :=
  upsert_anchor why now b ;;
  sql_delete (purged b) ;;
  ret tt.

Definition day : interval := 86400000000.

(** The audit loop of [platform_enforce_retention], one transaction. *)
Definition retain_audit (now : timestamp) (why : string) (audit_days batch : Z) : M db unit :=
  relay_session (
    guard ((1 <=? audit_days) && (audit_days <=? 3650) && (1 <=? batch) && (batch <=? 1000))
      (OtherError "RaiseException") ;;
    bs <- gets (boundaries (now - audit_days * day) batch) ;;
    for_each bs (purge_through why now)).

(** * Lemmas *)

(** ** One chain *)

Fixpoint chained (prev : option string) (l : list audit_event) : Prop :=
  match l with
  | [] => True
  | e :: rest => ae_prev_hash e = prev ∧ ae_hash e = event_digest e ∧ chained (Some (ae_hash e)) rest
  end.

Definition last_hash (prev : option string) (l : list audit_event) : option string :=
  coalesce_opt (option_map ae_hash (List.hd_error (rev l))) prev.

Lemma last_hash_cons prev e l : last_hash prev (e :: l) = last_hash (Some (ae_hash e)) l.
Proof.
  unfold last_hash. cbn [rev]. destruct (rev l) as [|x m]; done.
Qed.

Lemma chained_snoc prev l e :
  chained prev l → ae_prev_hash e = last_hash prev l → ae_hash e = event_digest e →
  chained prev (l ++ [e]).
Proof.
  revert prev. induction l as [|x l IH]; intros prev; cbn; [done|].
  rewrite last_hash_cons. intros (H1 & H2 & H3) Hp Hd. auto.
Qed.

Lemma chained_split prev l e l' : chained prev (l ++ e :: l') → chained (Some (ae_hash e)) l'.
Proof.
  revert prev. induction l as [|x l IH]; intros prev; cbn; [by intros (_ & _ & ?)|].
  intros (_ & _ & H). by eapply IH.
Qed.

Lemma opt_eqb_string (a b : option string) : opt_eqb String.eqb a b = true ↔ a = b.
Proof. destruct a, b; cbn; rewrite ?String.eqb_eq; split; congruence. Qed.

(** The loop finds no break exactly in a chain that starts after the anchor. *)
Lemma first_break_none anchor_id prev l :
  first_break anchor_id prev l = None ↔
  chained prev l ∧ Forall (fun e => ∀ a, anchor_id = Some a → a < ae_id e) l.
Proof.
  revert prev. induction l as [|e l IH]; intros prev; cbn.
  { split; [by repeat constructor|done]. }
  rewrite Forall_cons_iff. destruct anchor_id as [a|].
  - destruct (ae_id e <=? a) eqn:Ea; [|].
    { split; [done|]. intros [_ [H _]]. bool_to_prop. specialize (H a eq_refl). lia. }
    destruct (opt_eqb String.eqb (ae_prev_hash e) prev) eqn:Ep; cbn [negb]; [apply opt_eqb_string in Ep|];
      [|split; [done|intros [[E _] _]; apply opt_eqb_string in E; congruence]].
    destruct (event_digest e =? ae_hash e)%string eqn:Ed; cbn [negb]; bool_to_prop; [|split; [done|intros [(_ & E & _) _]; congruence]].
    rewrite IH. split.
    + intros [H1 H2]. repeat split; auto. intros ? [= <-]. done.
    + by intros [(_ & _ & H1) [_ H2]].
  - destruct (opt_eqb String.eqb (ae_prev_hash e) prev) eqn:Ep; cbn [negb]; [apply opt_eqb_string in Ep|];
      [|split; [done|intros [[E _] _]; apply opt_eqb_string in E; congruence]].
    destruct (event_digest e =? ae_hash e)%string eqn:Ed; cbn [negb]; bool_to_prop; [|split; [done|intros [(_ & E & _) _]; congruence]].
    rewrite IH. split.
    + intros [H1 H2]. by repeat split; auto.
    + by intros [(_ & _ & H1) [_ H2]].
Qed.

(** ** The tables *)

Definition tenant_events (t : uuid) (d : db) : list audit_event :=
  select_where (fun e => (ae_tenant e =? t)%N) (audit_events d).

Definition tenant_anchors (t : uuid) (d : db) : list audit_chain_anchor :=
  select_where (fun a => (an_tenant a =? t)%N) (audit_anchors d).

Definition anchor_hash (t : uuid) (d : db) : option string :=
  option_map an_through_hash (List.hd_error (tenant_anchors t d)).

Definition id_lt (a b : audit_event) : Prop := ae_id a < ae_id b.

Record audit_inv (d : db) : Prop := {
  inv_ids : StronglySorted id_lt (audit_events d);
  inv_seq : Forall (fun e => ae_id e < audit_seq d) (audit_events d);
  inv_anchors : List.NoDup (map an_tenant (audit_anchors d));
  inv_anchored : ∀ a, In a (audit_anchors d) → an_through_event_id a < audit_seq d ∧
    Forall (fun e => an_through_event_id a < ae_id e) (tenant_events (an_tenant a) d);
  inv_chain : ∀ t, chained (anchor_hash t d) (tenant_events t d)
}.

Lemma events_visible t d :
  select_where (visible t (fun e => (ae_tenant e =? t)%N)) (audit_events d) = tenant_events t d.
Proof.
  apply filter_ext. intros e. unfold visible, row_tenant, tenant_audit_event.
  by destruct (ae_tenant e =? t)%N.
Qed.

Lemma anchors_visible t d :
  select_where (visible t (fun a => (an_tenant a =? t)%N)) (audit_anchors d) = tenant_anchors t d.
Proof.
  apply filter_ext. intros a. unfold visible, row_tenant, tenant_anchor.
  by destruct (an_tenant a =? t)%N.
Qed.

Lemma tenant_events_sorted t d : audit_inv d → StronglySorted id_lt (tenant_events t d).
Proof. intros H. apply StronglySorted_filter, H. Qed.

Lemma tenant_events_in_order t d : audit_inv d → order_by id_le (tenant_events t d) = tenant_events t d.
Proof.
  intros H. apply order_by_in_order. eapply StronglySorted_weaken; [|by apply tenant_events_sorted].
  unfold id_lt, id_le. intros a b Hab. apply Z.leb_le. lia.
Qed.

Lemma chain_tail_eq t d :
  audit_inv d → chain_tail t d = (Ok (last_hash (anchor_hash t d) (tenant_events t d)), d).
Proof.
  intros H. unfold chain_tail, bind, sql_select, gets. cbn [rows table_audit_events table_audit_anchors].
  rewrite events_visible, anchors_visible, (order_by_descending id_ge); [done|].
  eapply StronglySorted_weaken; [|by apply tenant_events_sorted].
  unfold id_lt, id_ge. intros a b Hab. apply Z.leb_gt. lia.
Qed.

Lemma tenant_anchors_one t d :
  audit_inv d → tenant_anchors t d = [] ∨ ∃ a, In a (audit_anchors d) ∧ an_tenant a = t ∧ tenant_anchors t d = [a].
Proof.
  intros H. unfold tenant_anchors. destruct (select_where _ _) as [|a l] eqn:E; [by left|right].
  assert (Ha : In a (select_where (fun a => (an_tenant a =? t)%N) (audit_anchors d))) by (rewrite E; by left).
  apply filter_In in Ha as [Ha Ht]. exists a. split; [done|]. bool_to_prop. split; [done|].
  rewrite <- E. apply (select_by_key an_tenant); [apply H|done|by apply N.eqb_eq|].
  intros r _ Hr. bool_to_prop. congruence.
Qed.

(** The report, once the anchor of the tenant is found. *)
Lemma verify_chain_eq d t slug :
  audit_inv d →
  let anchor := List.hd_error (tenant_anchors t d) in
  let anchor_id := option_map an_through_event_id anchor in
  let anchored := coalesce (option_map an_events_anchored anchor) 0 in
  let n := count (tenant_events t d) in
  verify_chain t slug d =
  (Ok match first_break anchor_id (anchor_hash t d) (tenant_events t d) with
      | None => mkVerification slug n true None None anchor_id anchored
      | Some (id, why) => mkVerification slug n false (Some id) (Some why) anchor_id anchored
      end, d).
Proof.
  intros H. cbn zeta. unfold verify_chain, anchor_hash. unfold bind at 1, sql_select at 1, gets at 1.
  cbn [rows table_audit_anchors]. rewrite anchors_visible.
  destruct (tenant_anchors_one t d H) as [E|(a & _ & _ & E)]; rewrite E;
    unfold bind, one_or_none, ret, sql_select, gets; cbn [rows table_audit_events];
    by rewrite events_visible, tenant_events_in_order.
Qed.

(** Under the invariant a verification reports an intact chain. *)
Lemma audit_inv_verifies d t slug :
  audit_inv d → ∃ v, verify_chain t slug d = (Ok v, d) ∧ intact v = true ∧
    events_checked v = count (tenant_events t d) ∧ first_break_id v = None.
Proof.
  intros H. rewrite verify_chain_eq by done. cbn zeta.
  rewrite (proj2 (first_break_none _ _ (tenant_events t d))); [by eexists|].
  split; [apply (inv_chain d H)|].
  destruct (tenant_anchors_one t d H) as [E|(a & Ha & Ht & E)]; rewrite E; cbn.
  - by apply List.Forall_forall.
  - destruct (inv_anchored d H a Ha) as [_ Hf]. rewrite Ht in Hf.
    eapply List.Forall_impl; [|exact Hf]. cbn. intros e He ? [= <-]. done.
Qed.

(** ** Appending keeps the invariant *)

(** A detail that comes back from a [jsonb] column with the same canonical form. *)
Definition jsonb_stable (v : json) : Prop := canonical (jsonb v) = canonical v.

Lemma digest_canonical t subj act rt rid o v v' at_ prev :
  canonical v = canonical v' → digest t subj act rt rid o v at_ prev = digest t subj act rt rid o v' at_ prev.
Proof. intros E. unfold digest, digest_payload. cbn [canonical map]. by rewrite E. Qed.

Lemma tenant_events_snoc t d e l :
  audit_events d = l ++ [e] →
  tenant_events t d = select_where (fun e => (ae_tenant e =? t)%N) l ++
                      (if (ae_tenant e =? t)%N then [e] else []).
Proof. intros E. unfold tenant_events. rewrite E, select_where_app. unfold select_where at 2. cbn. by destruct (ae_tenant e =? t)%N. Qed.

Lemma insert_audit_inv row d :
  let e := row (audit_seq d) in
  let t := ae_tenant e in
  audit_inv d → ae_id e = audit_seq d → ae_prev_hash e = last_hash (anchor_hash t d) (tenant_events t d) →
  ae_hash e = event_digest e → audit_inv (d <| audit_seq := audit_seq d + 1 |> <| audit_events := audit_events d ++ [e] |>).
Proof.
  intros e t H Hid Hp Hh. set (d' := d <| audit_seq := audit_seq d + 1 |> <| audit_events := audit_events d ++ [e] |>).
  assert (Ht : ∀ u, tenant_events u d' = tenant_events u d ++ (if (t =? u)%N then [e] else []))
    by (intros u; exact (tenant_events_snoc u d' e (audit_events d) eq_refl)).
  assert (Hlt : Forall (fun y => id_lt y e) (audit_events d)).
  { eapply List.Forall_impl; [|apply (inv_seq d H)]. unfold id_lt. intros y Hy. lia. }
  constructor; cbn.
  - apply StronglySorted_snoc; [apply H|done].
  - apply Forall_app. split; [|constructor; [lia|constructor]].
    eapply List.Forall_impl; [|apply (inv_seq d H)]. cbn. lia.
  - apply H.
  - intros a Ha. destruct (inv_anchored d H a Ha) as [Hs Hf]. split; [lia|]. rewrite Ht.
    apply Forall_app. split; [done|]. destruct (t =? an_tenant a)%N; [|constructor]. constructor; [lia|constructor].
  - intros u. rewrite Ht. destruct (t =? u)%N eqn:E; [|rewrite app_nil_r; apply (inv_chain d H)].
    bool_to_prop. subst u. apply chained_snoc; [apply (inv_chain d H)|done|done].
Qed.

Lemma append_link_inv now release ctx actor action outcome rt rid detail d :
  audit_inv d → jsonb_stable detail →
  audit_inv (snd (append_link now release ctx actor action outcome rt rid detail d)).
Proof.
  intros H Hj. unfold append_link. set (t := tenant_uuid (principal_tenant actor)).
  unfold bind at 1. rewrite chain_tail_eq by done. unfold bind at 1, insert_audit, bind, gets, guard.
  destruct (columns_fit _); [|done]. unfold ret, modify, sql_insert. cbn [snd rows put table_audit_events].
  change (put (R := audit_event)) with (fun l (d : db) => d <| audit_events := l |>).
  apply (insert_audit_inv (fun id => mkAuditEvent id t _ _ _ _ _ _ (jsonb detail) _ _ _ _ _ _) d); try done.
  unfold event_digest. cbn. by apply digest_canonical.
Qed.

Lemma append_in_session_inv now release scope ctx action outcome p rt rid detail d :
  audit_inv d → jsonb_stable (detail_or detail) →
  audit_inv (snd (append_in_session now release scope ctx action outcome p rt rid detail d)).
Proof.
  intros H Hj. unfold append_in_session. destruct (actor_of ctx p) as [actor|]; [|done].
  unfold bind, guard. destruct (eqb_opt _ _ _); [|done]. by apply append_link_inv.
Qed.

Lemma record_inv now release ctx action outcome p rt rid detail required d :
  audit_inv d → jsonb_stable (detail_or detail) →
  audit_inv (snd (record now release ctx action outcome p rt rid detail required d)).
Proof.
  intros H Hj. unfold record. destruct (actor_of ctx p) as [actor|]; [|by destruct required].
  unfold try_except, bind, tenant_session, tx.
  pose proof (append_link_inv now release ctx actor action outcome rt rid (detail_or detail) d H Hj) as Hi.
  destruct (append_link _ _ _ _ _ _ _ _ _ d) as [[h|e] d']; [done|by destruct required].
Qed.

(** ** Retention keeps the invariant *)

Definition anchor_for (b : boundary) (a : audit_chain_anchor) : bool := (an_tenant a =? bd_tenant b)%N.

Definition anchored (why : string) (now : timestamp) (b : boundary) (l : list audit_chain_anchor)
    : list audit_chain_anchor :=
  match select_where (anchor_for b) l with
  | [] => l ++ [mkAnchor (bd_tenant b) (bd_id b) (bd_hash b) (bd_pos b) why now]
  | _ => update_where (anchor_for b) (advance_anchor why now b) l
  end.

Lemma purge_through_eq why now b d :
  purge_through why now b d =
  (Ok tt, d <| audit_anchors := anchored why now b (audit_anchors d) |>
            <| audit_events := delete_where (purged b) (audit_events d) |>).
Proof.
  unfold purge_through, upsert_anchor, anchored, bind, sql_select, gets. cbn [rows table_audit_anchors].
  change (λ a, (an_tenant a =? bd_tenant b)%N) with (anchor_for b).
  destruct (select_where (anchor_for b) (audit_anchors d)); done.
Qed.

(** The anchor a tenant has after one boundary is passed. *)
Definition next_anchor (why : string) (now : timestamp) (b : boundary) (l : list audit_chain_anchor)
    : audit_chain_anchor :=
  mkAnchor (bd_tenant b) (bd_id b) (bd_hash b) (sum_Z (map an_events_anchored l) + bd_pos b) why now.

Lemma anchored_tenant why now b d d' t :
  audit_inv d → audit_anchors d' = anchored why now b (audit_anchors d) →
  tenant_anchors t d' = if (t =? bd_tenant b)%N then [next_anchor why now b (tenant_anchors t d)]
                        else tenant_anchors t d.
Proof.
  intros H E. unfold tenant_anchors at 1. rewrite E. unfold anchored.
  assert (Hb : select_where (anchor_for b) (audit_anchors d) = tenant_anchors (bd_tenant b) d) by done.
  rewrite Hb. destruct (tenant_anchors_one (bd_tenant b) d H) as [E0|(a & Ha & Hat & E0)]; rewrite E0.
  - rewrite select_where_app. fold (tenant_anchors t d). unfold select_where. cbn.
    rewrite N.eqb_sym. destruct (t =? bd_tenant b)%N eqn:Et; [|by rewrite app_nil_r].
    bool_to_prop. subst t. rewrite E0. done.
  - rewrite select_update_comm by done. fold (tenant_anchors t d).
    destruct (t =? bd_tenant b)%N eqn:Et; bool_to_prop.
    + subst t. rewrite E0. unfold update_where, anchor_for. cbn. rewrite Hat, N.eqb_refl.
      unfold next_anchor, advance_anchor. cbn. rewrite Z.add_0_r.
      unfold set_field. cbn. by rewrite Hat.
    + apply update_where_id. intros x Hx. apply filter_In in Hx as [_ Hx]. unfold anchor_for.
      bool_to_prop. by apply N.eqb_neq; congruence.
Qed.

Lemma anchored_keys why now b d :
  audit_inv d → List.NoDup (map an_tenant (anchored why now b (audit_anchors d))).
Proof.
  intros H. unfold anchored. destruct (select_where _ _) eqn:E.
  - rewrite map_app. cbn. apply (Permutation_NoDup (Permutation_cons_append _ _)).
    constructor; [|apply H]. intros (a & Ea & Ha)%in_map_iff.
    pose proof (proj1 (select_where_nil _ _) E a Ha) as Hn. unfold anchor_for in Hn. bool_to_prop. done.
  - rewrite map_update_where by done. apply H.
Qed.

Definition boundary_valid (d : db) (b : boundary) : Prop :=
  ∃ pre e post, tenant_events (bd_tenant b) d = pre ++ e :: post ∧
    ae_id e = bd_id b ∧ ae_hash e = bd_hash b.

Lemma purged_events b d pre e post :
  audit_inv d → tenant_events (bd_tenant b) d = pre ++ e :: post → ae_id e = bd_id b →
  delete_where (purged b) (tenant_events (bd_tenant b) d) = post.
Proof.
  intros H E Hid. rewrite E. pose proof (tenant_events_sorted (bd_tenant b) d H) as Hs.
  rewrite E in Hs. apply StronglySorted_mid in Hs as [Hpre Hpost]. rewrite List.Forall_forall in *.
  assert (Ht : ∀ x, In x (pre ++ e :: post) → ae_tenant x = bd_tenant b).
  { intros x Hx. rewrite <- E in Hx. apply filter_In in Hx as [_ Hx]. by bool_to_prop. }
  change (pre ++ e :: post) with (pre ++ [e] ++ post). rewrite !delete_where_app.
  rewrite (delete_where_all _ pre), (delete_where_all _ [e]), (delete_where_id _ post); [done| | |].
  - intros x Hx. unfold purged. apply andb_false_iff. right. apply Z.leb_gt.
    specialize (Hpost x Hx). unfold id_lt in Hpost. lia.
  - intros x [<-|[]]. unfold purged. rewrite Ht by (apply in_elt). rewrite N.eqb_refl. apply Z.leb_le. lia.
  - intros x Hx. unfold purged. rewrite Ht by (apply in_app_iff; by left). rewrite N.eqb_refl.
    apply Z.leb_le. specialize (Hpre x Hx). unfold id_lt in Hpre. lia.
Qed.

Lemma purged_tenant why now b d d' t :
  d' = snd (purge_through why now b d) →
  tenant_events t d' = if (t =? bd_tenant b)%N then delete_where (purged b) (tenant_events t d)
                       else tenant_events t d.
Proof.
  intros ->. rewrite purge_through_eq. unfold tenant_events. cbn. rewrite select_delete_comm.
  destruct (t =? bd_tenant b)%N eqn:E; [done|]. apply delete_where_id. intros x Hx.
  apply filter_In in Hx as [_ Hx]. bool_to_prop. unfold purged. apply andb_false_iff. left.
  apply N.eqb_neq. congruence.
Qed.

Lemma purge_through_inv why now b d :
  audit_inv d → boundary_valid d b → audit_inv (snd (purge_through why now b d)).
Proof.
  intros H (pre & e & post & E & Hid & Hh). set (d' := snd (purge_through why now b d)).
  assert (Hev : ∀ t, tenant_events t d' = if (t =? bd_tenant b)%N then post else tenant_events t d).
  { intros t. rewrite (purged_tenant why now b d d' t eq_refl).
    destruct (t =? bd_tenant b)%N eqn:Et; [|done]. bool_to_prop. subst t. by apply (purged_events b d pre e). }
  assert (Hd' : audit_anchors d' = anchored why now b (audit_anchors d) ∧
                audit_events d' = delete_where (purged b) (audit_events d) ∧ audit_seq d' = audit_seq d).
  { unfold d'. by rewrite purge_through_eq. }
  destruct Hd' as (Ha & He & Hq). pose proof (tenant_events_sorted (bd_tenant b) d H) as Hs. rewrite E in Hs.
  apply StronglySorted_mid in Hs as [_ Hpost].
  constructor.
  - rewrite He. apply StronglySorted_filter, H.
  - rewrite He, Hq. apply Forall_delete_where, H.
  - rewrite Ha. by apply anchored_keys.
  - intros a Hin. rewrite Hq, Hev.
    assert (Hin' : In a (tenant_anchors (an_tenant a) d')) by (apply filter_In; by rewrite N.eqb_refl).
    rewrite (anchored_tenant why now b d d') in Hin' by done.
    destruct (an_tenant a =? bd_tenant b)%N eqn:Et.
    + destruct Hin' as [<-|[]]. cbn. split.
      * rewrite <- Hid. assert (Hine : In e (tenant_events (bd_tenant b) d)) by (rewrite E; apply in_elt).
        apply filter_In in Hine as [Hine _]. pose proof (inv_seq d H) as Hf. rewrite List.Forall_forall in Hf. auto.
      * rewrite <- Hid. exact Hpost.
    + apply filter_In in Hin' as [Hin' _]. by apply (inv_anchored d H).
  - intros t. unfold anchor_hash. rewrite (anchored_tenant why now b d d'), Hev by done.
    destruct (t =? bd_tenant b)%N eqn:Et; [|apply (inv_chain d H)]. cbn. rewrite <- Hh.
    pose proof (inv_chain d H (bd_tenant b)) as Hc. rewrite E in Hc. by eapply chained_split.
Qed.

(** The boundaries of a pass: one per tenant, each at an event of that tenant. *)
Lemma boundary_of_valid cutoff batch d t b :
  audit_inv d → boundary_of cutoff batch (audit_events d) t = Some b →
  bd_tenant b = t ∧ boundary_valid d b.
Proof.
  intros H. unfold boundary_of. destruct (rev _) as [|e l] eqn:E; [done|]. cbn. intros [= <-]. cbn.
  split; [done|]. assert (He : In e (tenant_events t d)).
  { assert (Hin : In e (rev (firstn (Z.to_nat batch) (order_by id_le
      (select_where (fun e => (ae_tenant e =? t)%N && (ae_at e <? cutoff)) (audit_events d))))))
      by (rewrite E; by left).
    apply in_rev, (firstn_subset (Z.to_nat batch)), in_order_by, filter_In in Hin as [Hin Hp].
    bool_to_prop. apply filter_In. split; [done|]. by apply N.eqb_eq. }
  apply in_split in He as (pre & post & Ep). by exists pre, e, post.
Qed.

Lemma boundaries_valid cutoff batch d :
  audit_inv d → Forall (boundary_valid d) (boundaries cutoff batch d) ∧
  List.NoDup (map bd_tenant (boundaries cutoff batch d)).
Proof.
  intros H. unfold boundaries. set (f := boundary_of cutoff batch (audit_events d)).
  assert (Hf : ∀ t b, f t = Some b → bd_tenant b = t ∧ boundary_valid d b)
    by (intros t b; by apply boundary_of_valid).
  assert (Hnd : List.NoDup (event_tenants (audit_events d))).
  { eapply Permutation_NoDup; [symmetry; apply order_by_perm|apply NoDup_nodup]. }
  induction Hnd as [|t l Ht Hnd [IH1 IH2]]; cbn; [by repeat constructor|].
  destruct (f t) as [b|] eqn:E; [|done]. apply Hf in E as [Et Hb]. cbn. split; [by constructor|].
  constructor; [|done]. intros (b' & Eb & Hb')%in_map_iff.
  apply list_elem_of_In, list_elem_of_omap in Hb' as (t' & Ht' & E'). apply Hf in E' as [Et' _].
  apply Ht. apply list_elem_of_In in Ht'. congruence.
Qed.

(** What a pass does, tenant by tenant. *)
Lemma purge_all why now bs d :
  audit_inv d → Forall (boundary_valid d) bs → List.NoDup (map bd_tenant bs) →
  ∃ d', for_each bs (purge_through why now) d = (Ok tt, d') ∧ audit_inv d' ∧
    (∀ t, (∀ b, In b bs → bd_tenant b ≠ t) →
       tenant_events t d' = tenant_events t d ∧ tenant_anchors t d' = tenant_anchors t d) ∧
    (∀ b, In b bs →
       tenant_events (bd_tenant b) d' = delete_where (purged b) (tenant_events (bd_tenant b) d) ∧
       tenant_anchors (bd_tenant b) d' = [next_anchor why now b (tenant_anchors (bd_tenant b) d)]).
Proof.
  intros H Hv Hnd. revert d H Hv. induction bs as [|b bs IH]; intros d H Hv.
  { exists d. split; [done|]. split; [done|]. split; [done|]. by intros b []. }
  invc Hnd. invc Hv. cbn [for_each]. set (d1 := snd (purge_through why now b d)).
  assert (Hr : purge_through why now b d = (Ok tt, d1)) by (unfold d1; by rewrite purge_through_eq).
  assert (Hi : audit_inv d1) by (by apply purge_through_inv).
  assert (Hsame : ∀ t, bd_tenant b ≠ t → tenant_events t d1 = tenant_events t d ∧ tenant_anchors t d1 = tenant_anchors t d).
  { intros t Ht. rewrite (purged_tenant why now b d d1 t eq_refl), (anchored_tenant why now b d d1 t H);
      [|unfold d1; by rewrite purge_through_eq].
    destruct (t =? bd_tenant b)%N eqn:E; [bool_to_prop; congruence|done]. }
  assert (Hne : ∀ b', In b' bs → bd_tenant b ≠ bd_tenant b').
  { intros b' Hb' E. apply H2. rewrite E. by apply in_map. }
  destruct (IH H3 d1 Hi) as (d' & E & Hi' & Ho & Hin).
  { rewrite List.Forall_forall in *. intros b' Hb'. specialize (H5 b' Hb').
    unfold boundary_valid. by rewrite (proj1 (Hsame _ (Hne b' Hb'))). }
  exists d'. unfold bind. rewrite Hr. split; [done|]. split; [done|]. split.
  - intros t Ht. destruct (Hsame t (Ht b (or_introl eq_refl))) as [<- <-]. apply Ho. intros; apply Ht; by right.
  - intros b' [<-|Hb'].
    + destruct (Ho (bd_tenant b)) as [-> ->]; [intros b' Hb' Eb; by apply (Hne b' Hb')|].
      rewrite (purged_tenant why now b d d1 _ eq_refl), (anchored_tenant why now b d d1 _ H), N.eqb_refl;
        [done|unfold d1; by rewrite purge_through_eq].
    + destruct (Hsame _ (Hne b' Hb')) as [<- <-]. by apply Hin.
Qed.

Lemma retain_audit_inv now why days batch d : audit_inv d → audit_inv (snd (retain_audit now why days batch d)).
Proof.
  intros H. unfold retain_audit, relay_session, tx, bind, guard, gets, ret.
  destruct (_ && _) eqn:E; [|done]. destruct (boundaries_valid (now - days * day) batch d H) as [Hv Hnd].
  destruct (purge_all why now _ d H Hv Hnd) as (d' & Ep & Hi & _). by rewrite Ep.
Qed.

(** When no later event carries an earlier time, the old events of a tenant are
    the first ones, and the boundary's position counts what it removes. *)
Definition in_time_order (l : list audit_event) : Prop := StronglySorted (fun a b => ae_at a <= ae_at b) l.

Lemma old_prefix cutoff l :
  in_time_order l →
  ∃ l', l = select_where (fun e => ae_at e <? cutoff) l ++ l' ∧ Forall (fun e => cutoff <= ae_at e) l'.
Proof.
  unfold select_where. induction 1 as [|e l Hs (l' & E & Hl') He]; cbn; [by exists []|].
  destruct (ae_at e <? cutoff) eqn:Ea; bool_to_prop.
  - exists l'. split; [by rewrite E at 1|done].
  - assert (Hall : Forall (fun x => cutoff <= ae_at x) l).
    { rewrite List.Forall_forall in *. intros x Hx. specialize (He x Hx). lia. }
    exists (e :: l). split; [|by constructor]. assert (List.filter (fun e => ae_at e <? cutoff) l = []) as ->; [|done].
    apply select_where_nil. intros x Hx. rewrite List.Forall_forall in Hall. apply Z.ltb_ge. auto.
Qed.

Lemma tenant_old t cutoff d :
  select_where (fun e => (ae_tenant e =? t)%N && (ae_at e <? cutoff)) (audit_events d) =
  select_where (fun e => ae_at e <? cutoff) (tenant_events t d).
Proof.
  unfold tenant_events, select_where. induction (audit_events d) as [|e l IH]; cbn; [done|].
  destruct (ae_tenant e =? t)%N; cbn; [|done]. by destruct (ae_at e <? cutoff); rewrite IH.
Qed.

(** How many events of a tenant a pass removes. *)
Definition removable (cutoff : timestamp) (batch : Z) (t : uuid) (d : db) : nat :=
  Nat.min (Z.to_nat batch) (length (select_where (fun e => ae_at e <? cutoff) (tenant_events t d))).

Lemma boundary_removes cutoff batch d t :
  audit_inv d → in_time_order (tenant_events t d) →
  match boundary_of cutoff batch (audit_events d) t with
  | None => removable cutoff batch t d = O
  | Some b => delete_where (purged b) (tenant_events t d) = skipn (removable cutoff batch t d) (tenant_events t d) ∧
              bd_pos b = Z.of_nat (removable cutoff batch t d)
  end.
Proof.
  intros H Ho. destruct (old_prefix cutoff _ Ho) as (young & Ey & _).
  unfold boundary_of, removable. rewrite tenant_old. set (old := select_where _ (tenant_events t d)) in *.
  assert (Hsub : StronglySorted id_lt old) by (apply StronglySorted_filter; by apply tenant_events_sorted).
  rewrite order_by_in_order;
    [|eapply StronglySorted_weaken; [|exact Hsub]; unfold id_lt, id_le; intros a c Hac; apply Z.leb_le; lia].
  rewrite <- (length_firstn (Z.to_nat batch) old). set (mine := firstn (Z.to_nat batch) old).
  assert (Esplit : tenant_events t d = mine ++ (skipn (Z.to_nat batch) old ++ young)).
  { unfold mine. by rewrite app_assoc, firstn_skipn. }
  destruct (rev mine) as [|e r] eqn:Er; cbn.
  - apply (f_equal (@rev _)) in Er. rewrite rev_involutive in Er. by rewrite Er.
  - apply (f_equal (@rev _)) in Er. rewrite rev_involutive in Er. cbn in Er.
    split; [|done]. rewrite Esplit, skipn_app, skipn_all, Nat.sub_diag. cbn.
    rewrite <- Esplit. change t with (bd_tenant (mkBoundary (ae_id e) t (ae_hash e) (count mine))).
    apply (purged_events _ d (rev r) e); [done| |done]. cbn. rewrite Esplit, Er, <- app_assoc. done.
Qed.

End audit.

(** * Guarantees *)

(** The rows a verification walks. *)
Definition chain_rows (t : uuid) (d : db) : list audit_event := order_by id_le (tenant_events t d).

Section guarantees.
Variable sha256 : string → string.
Variable isoformat : timestamp → string.
Variable jsonb : json → json.

(** Everything that happens to the audit tables: events recorded on their own or in
    the transaction of the change they describe, retention passes, and any code
    that leaves them alone. *)
Inductive audit_step : db → db → Prop :=
| au_record now release ctx action outcome p rt rid detail required d d' r :
    jsonb_stable jsonb (detail_or detail) →
    record sha256 isoformat jsonb now release ctx action outcome p rt rid detail required d = (r, d') →
    audit_step d d'
| au_in_session now release scope ctx action outcome p rt rid detail d d' r :
    jsonb_stable jsonb (detail_or detail) →
    tenant_session (append_in_session sha256 isoformat jsonb now release scope ctx action outcome p
      rt rid detail) d = (r, d') →
    audit_step d d'
| au_retain now why days batch d d' r :
    retain_audit now why days batch d = (r, d') → audit_step d d'
| au_other d d' :
    audit_events d' = audit_events d → audit_anchors d' = audit_anchors d → audit_seq d' = audit_seq d →
    audit_step d d'.

Lemma audit_inv_empty : audit_inv sha256 isoformat empty_db.
Proof. constructor; cbn; try done; constructor. Qed.

Lemma audit_step_inv d d' :
  audit_step d d' → audit_inv sha256 isoformat d → audit_inv sha256 isoformat d'.
Proof.
  intros Hs H. destruct Hs as [now release ctx action o p rt rid detail req d d' r Hj E
    |now release scope ctx action o p rt rid detail d d' r Hj E|now why days batch d d' r E|d d' E1 E2 E3].
  - pose proof (record_inv sha256 isoformat jsonb now release ctx action o p rt rid detail req d H Hj) as Hi.
    by rewrite E in Hi.
  - unfold tenant_session, tx in E.
    pose proof (append_in_session_inv sha256 isoformat jsonb now release scope ctx action o p rt rid detail d H Hj) as Hi.
    destruct (append_in_session _ _ _ _ _ _ _ _ _ _ _ _ _ d) as [[h|e] d1]; by injection E as _ <-.
  - pose proof (retain_audit_inv sha256 isoformat now why days batch d H) as Hi. by rewrite E in Hi.
  - destruct H as [H1 H2 H3 H4 H5].
    constructor; unfold anchor_hash, tenant_anchors, tenant_events; rewrite ?E1, ?E2, ?E3; done.
Qed.

(** ** What a digest pins down *)

(** The content of an event its digest covers. *)
Definition sealed (e : audit_event) :=
  (uuid_str (ae_tenant e), ae_subject e, ae_action e, ae_resource_type e, ae_resource_id e,
   ae_outcome e, canonical (ae_detail e), isoformat (ae_at e)).

Definition collision : Prop := ∃ a b, a ≠ b ∧ sha256 a = sha256 b.

Definition payload_of (e : audit_event) : json :=
  canonical (digest_payload (ae_tenant e) (ae_subject e) (ae_action e) (ae_resource_type e)
    (ae_resource_id e) (ae_outcome e) (ae_detail e) (isoformat (ae_at e)) (ae_prev_hash e)).

Lemma opt_str_inj a b : opt_str a = opt_str b → a = b.
Proof. destruct a, b; cbn; congruence. Qed.

Lemma canonical_opt_str o : canonical (opt_str o) = opt_str o.
Proof. by destruct o. Qed.

(** The payload's keys in the order [sort_keys] prints them. *)
Lemma sorted_payload (t subj act rt rid o det at_ prev : json) :
  order_by key_le [("tenant_id", t); ("actor_subject", subj); ("action", act); ("resource_type", rt);
    ("resource_id", rid); ("outcome", o); ("detail", det); ("at", at_); ("prev_hash", prev)] =
  [("action", act); ("actor_subject", subj); ("at", at_); ("detail", det); ("outcome", o);
   ("prev_hash", prev); ("resource_id", rid); ("resource_type", rt); ("tenant_id", t)].
Proof. vm_compute. reflexivity. Qed.

Lemma payload_of_inj e e' :
  payload_of e = payload_of e' → sealed e = sealed e' ∧ ae_prev_hash e = ae_prev_hash e'.
Proof.
  unfold payload_of, digest_payload, sealed. cbn [canonical map]. rewrite !canonical_opt_str.
  rewrite !sorted_payload. intros E. injection E. intros. repeat match goal with
  | H : opt_str _ = opt_str _ |- _ => apply opt_str_inj in H end. split; congruence.
Qed.

Lemma wf_payload e : wf_json (ae_detail e) = true → wf_json (payload_of e) = true.
Proof.
  intros H. apply wf_canonical. cbn. rewrite H.
  by destruct (ae_resource_type e), (ae_resource_id e), (ae_prev_hash e).
Qed.

Lemma event_digest_inj e e' :
  wf_json (ae_detail e) = true → wf_json (ae_detail e') = true →
  event_digest sha256 isoformat e = event_digest sha256 isoformat e' →
  (sealed e = sealed e' ∧ ae_prev_hash e = ae_prev_hash e') ∨ collision.
Proof.
  intros Hw Hw' E.
  change (sha256 (utf8 (dumps true (payload_of e))) = sha256 (utf8 (dumps true (payload_of e')))) in E.
  destruct (String.string_dec (utf8 (dumps true (payload_of e))) (utf8 (dumps true (payload_of e'))))
    as [Eq|Hne]; [left|right; by eexists _, _].
  apply payload_of_inj. apply (dumps_inj true); [by apply wf_payload..|]. by apply utf8_inj.
Qed.

Lemma chained_snoc_inv prev l e :
  chained sha256 isoformat prev (l ++ [e]) →
  chained sha256 isoformat prev l ∧ ae_prev_hash e = last_hash prev l ∧
  ae_hash e = event_digest sha256 isoformat e.
Proof.
  revert prev. induction l as [|x l IH]; intros prev; cbn; [by intros (H1 & H2 & _)|].
  rewrite last_hash_cons. intros (H1 & H2 & H3). apply IH in H3. tauto.
Qed.

Lemma last_hash_snoc prev l e : last_hash prev (l ++ [e]) = Some (ae_hash e).
Proof. unfold last_hash. by rewrite rev_app_distr. Qed.

(** Chains with one start, one length and one end hold the same events. *)
Lemma chained_determined prev l : ∀ l',
  chained sha256 isoformat prev l → chained sha256 isoformat prev l' → length l = length l' →
  last_hash prev l = last_hash prev l' →
  Forall (fun e => wf_json (ae_detail e) = true) (l ++ l') →
  map sealed l = map sealed l' ∨ collision.
Proof.
  induction l as [|e l IH] using rev_ind; intros l' Hc Hc' Hlen Hlast Hw.
  { left. by destruct l'. }
  destruct l' as [|e' l' _] using rev_ind; rewrite !length_app in Hlen; cbn in Hlen; [lia|].
  rewrite !last_hash_snoc in Hlast. injection Hlast as Hlast.
  apply chained_snoc_inv in Hc as (Hc & Hp & Hd), Hc' as (Hc' & Hp' & Hd').
  rewrite !Forall_app in Hw. destruct Hw as [[Hw1 Hw2] [Hw3 Hw4]]. invc Hw2. invc Hw4.
  destruct (event_digest_inj e e') as [[Es Ep]|Hcol]; [done|done|congruence| |by right].
  destruct (IH l') as [E|Hcol]; [done|done|lia|congruence|by apply Forall_app| |by right].
  left. rewrite !map_app, E. cbn. by rewrite Es.
Qed.

Lemma verify_chain_inv d t slug v :
  verify_chain sha256 isoformat t slug d = (Ok v, d) → intact v = true →
  chained sha256 isoformat (anchor_hash t d) (chain_rows t d) ∧ events_checked v = count (chain_rows t d).
Proof.
  unfold verify_chain, anchor_hash, chain_rows. unfold bind at 1, sql_select at 1, gets at 1.
  cbn [rows table_audit_anchors]. rewrite anchors_visible.
  assert (Hb : ∀ anchor_id prev m, (let rows := order_by id_le (tenant_events t d) in
      match first_break sha256 isoformat anchor_id prev rows with
      | None => mkVerification slug (count rows) true None None anchor_id m
      | Some (id, why) => mkVerification slug (count rows) false (Some id) (Some why) anchor_id m
      end) = v → intact v = true →
    chained sha256 isoformat prev (order_by id_le (tenant_events t d)) ∧
    events_checked v = count (order_by id_le (tenant_events t d))).
  { intros a prev m. cbn zeta. destruct (first_break _ _ _ _ _) as [[id why]|] eqn:E; intros <-; [done|].
    by apply first_break_none in E as [? _]. }
  destruct (tenant_anchors t d) as [|a [|? ?]]; unfold bind, one_or_none, ret, sql_select, gets, raise;
    cbn [rows table_audit_events]; rewrite ?events_visible; intros [= E] Hi; [|by eapply Hb].
  by eapply Hb.
Qed.

(** Events checked plus events anchored. *)
Lemma report_total d t slug v :
  audit_inv sha256 isoformat d → verify_chain sha256 isoformat t slug d = (Ok v, d) →
  events_checked v + events_anchored v =
  count (tenant_events t d) + sum_Z (map an_events_anchored (tenant_anchors t d)).
Proof.
  intros H. rewrite (verify_chain_eq sha256 isoformat d t slug H). cbn zeta. intros [= <-].
  destruct (tenant_anchors_one sha256 isoformat t d H) as [E|(a & _ & _ & E)]; rewrite E;
    destruct (first_break _ _ _ _ _) as [[id why]|]; cbn; lia.
Qed.

Lemma removable_le cutoff batch t d : (removable cutoff batch t d <= length (tenant_events t d))%nat.
Proof.
  unfold removable, select_where. pose proof (List.filter_length_le (fun e => ae_at e <? cutoff) (tenant_events t d)). lia.
Qed.

Lemma removable_old cutoff batch t d :
  in_time_order (tenant_events t d) →
  Forall (fun e => ae_at e < cutoff) (firstn (removable cutoff batch t d) (tenant_events t d)).
Proof.
  intros Ho. destruct (old_prefix cutoff _ Ho) as (young & Ey & _). unfold removable.
  set (old := select_where _ (tenant_events t d)) in *. rewrite Ey, firstn_app.
  replace (Nat.min _ _ - length old)%nat with O by lia. rewrite app_nil_r.
  apply List.Forall_forall. intros e He. apply firstn_subset, filter_In in He as [_ He]. by bool_to_prop.
Qed.

Lemma retain_audit_run now why days batch d r :
  1 <= days <= 3650 → 1 <= batch <= 1000 →
  for_each (boundaries (now - days * day) batch d) (purge_through why now) d = (Ok tt, r) →
  retain_audit now why days batch d = (Ok tt, r).
Proof.
  intros Hd Hb E. unfold retain_audit, relay_session, tx, bind, guard, gets, ret.
  rewrite !(proj2 (Z.leb_le _ _)) by lia. cbn [andb]. by rewrite E.
Qed.

(** A pass meets a tenant at its boundary or not at all. *)
Lemma pass_on_tenant cutoff batch d t :
  (boundary_of cutoff batch (audit_events d) t = None ∧
   ∀ b, In b (boundaries cutoff batch d) → bd_tenant b ≠ t) ∨
  ∃ b, boundary_of cutoff batch (audit_events d) t = Some b ∧ bd_tenant b = t ∧
       In b (boundaries cutoff batch d).
Proof.
  assert (Hb : ∀ t b, boundary_of cutoff batch (audit_events d) t = Some b → bd_tenant b = t).
  { intros u b. unfold boundary_of. destruct (List.hd_error _); [|done]. by intros [= <-]. }
  destruct (boundary_of cutoff batch (audit_events d) t) as [b|] eqn:E; [right|left].
  - exists b. split; [done|]. split; [by apply Hb|]. unfold boundaries.
    apply list_elem_of_In, list_elem_of_omap. exists t. split; [|done]. apply list_elem_of_In, in_order_by, nodup_In.
    unfold boundary_of in E. destruct (List.hd_error (rev _)) as [e|] eqn:Eh; [|done].
    destruct (rev _) as [|x r] eqn:Er; [done|]. injection Eh as ->.
    assert (He : In e (rev (firstn (Z.to_nat batch) (order_by id_le
      (select_where (fun e => (ae_tenant e =? t)%N && (ae_at e <? cutoff)) (audit_events d))))))
      by (rewrite Er; by left).
    apply in_rev, firstn_subset, in_order_by, filter_In in He as [He Hp]. bool_to_prop. subst t. by apply in_map.
  - split; [done|]. intros b Hin Et. unfold boundaries in Hin.
    apply list_elem_of_In, list_elem_of_omap in Hin as (u & _ & Eu). pose proof (Hb u b Eu). congruence.
Qed.

End guarantees.

Module AuditDemo.
Definition sha (s : string) : string := "h" +:+ str_take 40 s.
Definition iso (t : timestamp) : string := pretty.pretty t.
Definition jb (v : json) : json := v.
Definition log (now : timestamp) (action : string) (d : db) : db :=
  snd (record sha iso jb now None (Some Demo.ctx) action SUCCEEDED None None None None false d).
Definition d1 : db := log 100 "run.cancel" empty_db.
Definition d2 : db := log 90000000000 "run.cancel" d1.
(* a long transaction writes last with the oldest timestamp *)
Definition late : db := log (day * 5) "b" (log (day * 9) "a" empty_db).
End AuditDemo.

(** C7: the chain of every tenant verifies in every reachable state: whatever
    events are recorded - alone or inside a business transaction, committed or
    rolled back, for any tenants in any order - and whatever retention passes cut
    off its beginning, [verify_chain] reports it intact and counts every event. *)
Theorem audit_chain_always_verifies sha256 isoformat jsonb d t slug :
  rtc (audit_step sha256 isoformat jsonb) empty_db d →
  ∃ v, verify_chain sha256 isoformat t slug d = (Ok v, d) ∧ intact v = true ∧
       first_break_id v = None ∧ events_checked v = count (tenant_events t d).
Proof.
  intros Hr. assert (H : audit_inv sha256 isoformat d).
  { revert Hr. generalize (audit_inv_empty sha256 isoformat). generalize empty_db.
    intros d0 H0 Hr. induction Hr as [d0|d0 d1 d Hs _ IH]; [done|]. apply IH. by eapply audit_step_inv. }
  destruct (audit_inv_verifies sha256 isoformat d t slug H) as (v & E & H1 & H2 & H3). eauto.
Qed.

Lemma audit_chain_always_verifies_witness :
  ∃ v, verify_chain AuditDemo.sha AuditDemo.iso 1 "acme" AuditDemo.d2 = (Ok v, AuditDemo.d2) ∧
       intact v = true ∧ first_break_id v = None ∧
       events_checked v = count (tenant_events 1 AuditDemo.d2).
Proof.
  apply (audit_chain_always_verifies AuditDemo.sha AuditDemo.iso AuditDemo.jb AuditDemo.d2 1 "acme").
  eapply (rtc_l _ _ AuditDemo.d1); [|eapply (rtc_l _ _ AuditDemo.d2); [|apply rtc_refl]].
  - eapply (au_record _ _ _ 100 None (Some Demo.ctx) "run.cancel" SUCCEEDED None None None None false);
      [reflexivity|apply surjective_pairing].
  - eapply (au_record _ _ _ 90000000000 None (Some Demo.ctx) "run.cancel" SUCCEEDED None None None None false);
      [reflexivity|apply surjective_pairing].
Defined.

(** The chain is tamper-evident.  Two states of a tenant's trail that both
    verify, from the same anchor, with the same number of events and the same
    newest digest, hold the same events - actor, action, resource, outcome, detail
    and time of every one, in the same order - or exhibit a digest collision.  So
    whoever noted a count and a digest detects any later rewriting. *)
Theorem intact_chain_is_tamper_evident sha256 isoformat d d' t slug v v' :
  verify_chain sha256 isoformat t slug d = (Ok v, d) → intact v = true →
  verify_chain sha256 isoformat t slug d' = (Ok v', d') → intact v' = true →
  anchor_hash t d' = anchor_hash t d → events_checked v' = events_checked v →
  last_hash None (chain_rows t d') = last_hash None (chain_rows t d) →
  Forall (fun e => wf_json (ae_detail e) = true) (audit_events d ++ audit_events d') →
  map (sealed isoformat) (chain_rows t d) = map (sealed isoformat) (chain_rows t d')
  ∨ collision sha256.
Proof.
  intros E Hi E' Hi' Ha Hn Hl Hw.
  apply verify_chain_inv in E as [Hc Ec]; [|done]. apply verify_chain_inv in E' as [Hc' Ec']; [|done].
  rewrite Ha in Hc'. unfold count in *.
  apply (chained_determined sha256 isoformat (anchor_hash t d)); [done|done|lia| |].
  - unfold last_hash in *. destruct (rev (chain_rows t d)), (rev (chain_rows t d')); cbn in *; congruence.
  - apply Forall_app in Hw as [Hw Hw']. apply Forall_app.
    split; apply List.Forall_forall; intros e He; apply in_order_by, filter_In in He as [He _];
      rewrite List.Forall_forall in *; auto.
Qed.

Lemma intact_chain_is_tamper_evident_witness :
  map (sealed AuditDemo.iso) (chain_rows 1 AuditDemo.d2) = map (sealed AuditDemo.iso) (chain_rows 1 AuditDemo.d2)
  ∨ collision AuditDemo.sha.
Proof.
  refine (intact_chain_is_tamper_evident AuditDemo.sha AuditDemo.iso AuditDemo.d2 AuditDemo.d2 1 "acme"
    _ _ _ _ _ _ eq_refl eq_refl eq_refl _); [| |vm_compute; reflexivity|vm_compute; reflexivity|].
  - vm_compute. reflexivity.
  - vm_compute. reflexivity.
  - vm_compute. repeat constructor.
Defined.

(** One retention pass removes, for a tenant whose events are in time order,
    exactly its oldest [batch] events past the retention period, and only those;
    the rest still verifies, and the events checked and the events anchored
    together still count the whole history. *)
Theorem retention_spec sha256 isoformat now why days batch d t slug v :
  audit_inv sha256 isoformat d → in_time_order (tenant_events t d) →
  1 <= days <= 3650 → 1 <= batch <= 1000 →
  verify_chain sha256 isoformat t slug d = (Ok v, d) →
  ∃ d' v', retain_audit now why days batch d = (Ok tt, d') ∧
    let n := removable (now - days * day) batch t d in
    tenant_events t d' = skipn n (tenant_events t d) ∧
    Forall (fun e => ae_at e < now - days * day) (firstn n (tenant_events t d)) ∧
    verify_chain sha256 isoformat t slug d' = (Ok v', d') ∧ intact v' = true ∧
    events_checked v' + events_anchored v' = events_checked v + events_anchored v.
Proof.
  intros H Ho Hd Hb Ev. set (cutoff := now - days * day).
  destruct (boundaries_valid sha256 isoformat cutoff batch d H) as [Hv Hnd].
  destruct (purge_all sha256 isoformat why now _ d H Hv Hnd) as (d' & Ep & Hi & Hother & Hb').
  exists d'. destruct (audit_inv_verifies sha256 isoformat d' t slug Hi) as (v' & Ev' & Hint & _).
  exists v'. split; [by apply retain_audit_run|].
  pose proof (boundary_removes sha256 isoformat cutoff batch d t H Ho) as Hr.
  pose proof (removable_old cutoff batch t d Ho) as Hold.
  destruct (pass_on_tenant cutoff batch d t) as [[Eb Hnone]|(b & Eb & Et & Hin)].
  - rewrite Eb in Hr. destruct (Hother t Hnone) as [He Ha]. cbn zeta. rewrite Hr, He. cbn. repeat split; auto.
    rewrite (report_total sha256 isoformat d' t slug v'), (report_total sha256 isoformat d t slug v), He, Ha by done. done.
  - rewrite Eb in Hr. destruct (Hb' b Hin) as [He Ha]. rewrite Et in He, Ha. destruct Hr as [Hs Hp].
    cbn zeta. rewrite He. repeat split; auto.
    rewrite (report_total sha256 isoformat d' t slug v'), (report_total sha256 isoformat d t slug v), He, Ha, Hs by done.
    cbn. rewrite Hp. unfold count. rewrite length_skipn. pose proof (removable_le cutoff batch t d). lia.
Qed.

Lemma audit_demo_inv : audit_inv AuditDemo.sha AuditDemo.iso AuditDemo.d2.
Proof.
  apply (record_inv AuditDemo.sha AuditDemo.iso AuditDemo.jb); [|reflexivity].
  apply (record_inv AuditDemo.sha AuditDemo.iso AuditDemo.jb); [apply audit_inv_empty|reflexivity].
Qed.

Lemma retention_spec_witness :
  ∃ d' v', retain_audit (day * 31) "r" 30 100 AuditDemo.d2 = (Ok tt, d') ∧
    tenant_events 1 d' = skipn 1 (tenant_events 1 AuditDemo.d2) ∧
    verify_chain AuditDemo.sha AuditDemo.iso 1 "acme" d' = (Ok v', d') ∧ intact v' = true.
Proof.
  destruct (retention_spec AuditDemo.sha AuditDemo.iso (day * 31) "r" 30 100 AuditDemo.d2 1 "acme"
    (mkVerification "acme" 2 true None None None 0)) as (d' & v' & E & H1 & _ & H2 & H3 & _).
  - exact audit_demo_inv.
  - vm_compute. repeat constructor; discriminate.
  - lia.
  - lia.
  - vm_compute. reflexivity.
  - exists d', v'. repeat split; auto.
Defined.

(** Out of time order the boundary's position undercounts: both events are
    removed, the younger one before its retention period has passed, and one is
    reported as anchored. *)
Lemma retention_undercounts_out_of_order :
  let d' := snd (retain_audit (day * 40) "r" 33 100 AuditDemo.late) in
  map ae_at (tenant_events 1 AuditDemo.late) = [day * 9; day * 5] ∧
  tenant_events 1 d' = [] ∧ map an_events_anchored (tenant_anchors 1 d') = [1].
Proof. vm_compute. repeat split. Qed.

(** * The trail as other components use it *)

(** The choices a deployment makes, fixed once for every client. *)
Class AuditEnv := mkAuditEnv {
  env_sha256 : string → string;
  env_isoformat : timestamp → string;
  env_jsonb : json → json;
  env_release : option string
}.

(** [audit.record(ctx, ...)] and [audit.append_in_session(s, ctx, ...)] in a session
    of the context's own tenant. *)
Definition audit_record `{AuditEnv} (now : timestamp) (ctx : RequestContext) (action : string)
    (outcome : Outcome) (resource_type resource_id : string) (detail : json) (required : bool)
    : M db (option string) :=
  record env_sha256 env_isoformat env_jsonb now env_release (Some ctx) action outcome None
    (Some resource_type) (Some resource_id) (Some detail) required.

Definition audit_in_session `{AuditEnv} (now : timestamp) (scope : uuid) (ctx : RequestContext)
    (action : string) (outcome : Outcome) (resource_type resource_id : string) (detail : json)
    : M db string :=
  append_in_session env_sha256 env_isoformat env_jsonb now env_release (Some scope) (Some ctx) action
    outcome None (Some resource_type) (Some resource_id) (Some detail).

(** Writing to the trail changes nothing else. *)
Definition only_audit (d d' : db) : Prop :=
  d' = d <| audit_seq := audit_seq d' |> <| audit_events := audit_events d' |>.

#[export] Instance only_audit_refl : Reflexive only_audit.
Proof. by intros []. Qed.

#[export] Instance only_audit_trans : Transitive only_audit.
Proof. intros d1 d2 d3 E1 E2. unfold only_audit in *. rewrite E2, E1. by destruct d1. Qed.

Lemma only_audit_keeps {A} (f : db → A) d d' :
  only_audit d d' → (∀ s e, f (d <| audit_seq := s |> <| audit_events := e |>) = f d) → f d' = f d.
Proof. intros E Hf. rewrite E. apply Hf. Qed.

Lemma append_link_only_audit sha iso jb now release ctx actor action outcome rt rid detail d :
  only_audit d (snd (append_link sha iso jb now release ctx actor action outcome rt rid detail d)).
Proof.
  unfold append_link, insert_audit, chain_tail, bind, sql_select, gets, guard.
  unfold ret at 1 2 3. cbv beta zeta iota.
  match goal with |- context [columns_fit ?e] => destruct (columns_fit e) end; [|reflexivity].
  by destruct d.
Qed.

Lemma audit_record_only_audit `{AuditEnv} now ctx action outcome rt rid detail required d r d' :
  audit_record now ctx action outcome rt rid detail required d = (r, d') → only_audit d d'.
Proof.
  unfold audit_record, record, try_except, tenant_session, tx, bind. cbn [actor_of coalesce_opt option_map].
  pose proof (append_link_only_audit env_sha256 env_isoformat env_jsonb now env_release (Some ctx)
    (principal ctx) action outcome (Some rt) (Some rid) (detail_or (Some detail)) d) as Hf.
  destruct (append_link _ _ _ _ _ _ _ _ _ _ _ _ d) as [[h|e] d1].
  - by intros [= _ <-].
  - destruct required; intros [= _ <-]; reflexivity.
Qed.

Lemma audit_in_session_only_audit `{AuditEnv} now scope ctx action outcome rt rid detail d r d' :
  audit_in_session now scope ctx action outcome rt rid detail d = (r, d') → only_audit d d'.
Proof.
  unfold audit_in_session, append_in_session, bind, guard. cbn [actor_of coalesce_opt option_map].
  destruct (eqb_opt _ _ _); [|intros [= _ <-]; reflexivity].
  pose proof (append_link_only_audit env_sha256 env_isoformat env_jsonb now env_release (Some ctx)
    (principal ctx) action outcome (Some rt) (Some rid) (detail_or (Some detail)) d) as Hf.
  intros E. unfold ret in E. rewrite E in Hf. done.
Qed.

(** A record that is not required never raises. *)
Lemma audit_record_best_effort `{AuditEnv} now ctx action outcome rt rid detail d :
  ∃ h d', audit_record now ctx action outcome rt rid detail false d = (Ok h, d').
Proof.
  unfold audit_record, record, try_except. cbn [actor_of coalesce_opt option_map].
  destruct (bind _ _ d) as [[h|e] d1]; by eexists _, _.
Qed.

(** Exactly one event was put on the trail: this one. *)
Definition event_added (ctx : RequestContext) (action : string) (outcome : Outcome) (rt rid : string) (d d' : db) : Prop :=
  ∃ e, audit_events d' = audit_events d ++ [e] ∧ ae_tenant e = tenant_of ctx ∧
    ae_principal e = Some (principal_uuid (principal ctx)) ∧ ae_action e = action ∧
    ae_resource_type e = Some rt ∧ ae_resource_id e = Some rid ∧ ae_outcome e = outcome_str outcome.

Lemma append_link_event `{AuditEnv} now ctx action outcome rt rid detail d h d' :
  append_link env_sha256 env_isoformat env_jsonb now env_release (Some ctx) (principal ctx) action outcome (Some rt) (Some rid) detail d
    = (Ok h, d') → event_added ctx action outcome rt rid d d'.
Proof.
  unfold append_link, insert_audit, chain_tail, bind, sql_select, gets, guard. unfold ret at 1 2 3. cbv beta zeta iota.
  match goal with |- context [columns_fit ?e] => destruct (columns_fit e) end; [|done].
  unfold modify, sql_insert, ret. intros [= _ <-]. eexists. split; [by destruct d|]. by cbn.
Qed.

(** A record that is required and does not raise has put its event on the trail. *)
Lemma audit_record_required `{AuditEnv} now ctx action outcome rt rid detail d h d' :
  audit_record now ctx action outcome rt rid detail true d = (Ok h, d') → event_added ctx action outcome rt rid d d'.
Proof.
  unfold audit_record, record, try_except, tenant_session, tx, bind. cbn [actor_of coalesce_opt option_map].
  destruct (append_link _ _ _ _ _ _ _ _ _ _ _ _ d) as [[h'|e] d1] eqn:E; [|done]. intros [= _ <-]. by apply append_link_event in E.
Qed.

(** So has one that is part of a transaction that goes on. *)
Lemma audit_in_session_event `{AuditEnv} now scope ctx action outcome rt rid detail d h d' :
  audit_in_session now scope ctx action outcome rt rid detail d = (Ok h, d') → event_added ctx action outcome rt rid d d'.
Proof.
  unfold audit_in_session, append_in_session, bind, guard. cbn [actor_of coalesce_opt option_map].
  destruct (eqb_opt _ _ _); [|done]. unfold ret at 1. intros E. by apply append_link_event in E.
Qed.
