(* ===== verification/Capabilities.v ===== *)
(** What an actor may do: [platform_core/identity/capabilities.py].

    Roles map to capabilities in one table; capabilities can also be granted
    directly, scoped to a resource.  [db_fault] is the exception a lookup meets when
    the database cannot be reached.  Foreign keys to the principal table are not
    modelled. *)
From S2P Require Import Prelude Json Identity Db AuditTrail.

Inductive Capability :=
| SESSION_READ | QUERY_READ | DOCUMENT_READ | RUN_READ | EVAL_READ | USAGE_READ | AUDIT_READ
| SCHEMA_READ
| DOCUMENT_INGEST | DOCUMENT_DELETE | DATA_ERASE | RUN_CANCEL | EVAL_RUN
| SCHEMA_AUTHOR | SCHEMA_APPROVE | BUDGET_MANAGE | MEMBER_MANAGE | RELEASE_PROMOTE
| TOOL_INVOKE_READONLY | TOOL_INVOKE_WRITE | TOOL_APPROVE.

#[export] Instance capability_eq_dec : EqDecision Capability.
Proof. solve_decision. Defined.

Definition capability_str (c : Capability) : string :=
  match c with
  | SESSION_READ => "session:read"
  | QUERY_READ => "query:read"
  | DOCUMENT_READ => "document:read"
  | RUN_READ => "run:read"
  | EVAL_READ => "eval:read"
  | USAGE_READ => "usage:read"
  | AUDIT_READ => "audit:read"
  | SCHEMA_READ => "schema:read"
  | DOCUMENT_INGEST => "document:ingest"
  | DOCUMENT_DELETE => "document:delete"
  | DATA_ERASE => "data:erase"
  | RUN_CANCEL => "run:cancel"
  | EVAL_RUN => "eval:run"
  | SCHEMA_AUTHOR => "schema:author"
  | SCHEMA_APPROVE => "schema:approve"
  | BUDGET_MANAGE => "budget:manage"
  | MEMBER_MANAGE => "member:manage"
  | RELEASE_PROMOTE => "release:promote"
  | TOOL_INVOKE_READONLY => "tool:invoke:readonly"
  | TOOL_INVOKE_WRITE => "tool:invoke:write"
  | TOOL_APPROVE => "tool:approve"
  end.

(** [frozenset(Capability)]. *)
Definition all_capabilities : list Capability :=
  [SESSION_READ; QUERY_READ; DOCUMENT_READ; RUN_READ; EVAL_READ; USAGE_READ; AUDIT_READ; SCHEMA_READ;
   DOCUMENT_INGEST; DOCUMENT_DELETE; DATA_ERASE; RUN_CANCEL; EVAL_RUN; SCHEMA_AUTHOR; SCHEMA_APPROVE;
   BUDGET_MANAGE; MEMBER_MANAGE; RELEASE_PROMOTE; TOOL_INVOKE_READONLY; TOOL_INVOKE_WRITE; TOOL_APPROVE].

Definition role_capabilities (r : Role) : list Capability :=
  match r with
  | OWNER => all_capabilities
  | OPERATOR =>
      [SESSION_READ; QUERY_READ; DOCUMENT_READ; DOCUMENT_INGEST; RUN_READ; RUN_CANCEL; EVAL_READ;
       EVAL_RUN; USAGE_READ; SCHEMA_READ; TOOL_INVOKE_READONLY]
  | REVIEWER =>
      [SESSION_READ; QUERY_READ; DOCUMENT_READ; RUN_READ; EVAL_READ; SCHEMA_READ; SCHEMA_APPROVE;
       TOOL_APPROVE; AUDIT_READ]
  | VIEWER => [SESSION_READ; QUERY_READ; DOCUMENT_READ; RUN_READ; EVAL_READ]
  | SERVICE => []
  end.

Definition in_caps (c : Capability) (l : list Capability) : bool :=
  existsb (fun x => bool_decide (x = c)) l.

Definition self_approval_forbidden (c : Capability) : bool := in_caps c [SCHEMA_APPROVE; TOOL_APPROVE].

Definition capabilities_of (p : Principal) : list Capability := concat (map role_capabilities (roles p)).

(** The grants that apply: [:pid] holds [:cap] on [:res] or everywhere, now. *)
Definition live_grant (now : timestamp) (pid : uuid) (cap resource : string) (g : capability_grant) : bool :=
  (cg_principal g =? pid)%N && String.eqb (cg_capability g) cap
  && (String.eqb (cg_resource g) resource || String.eqb (cg_resource g) "*")
  && match cg_expires_at g with None => true | Some e => now <? e end
  && is_none (cg_revoked_at g).

Section capabilities.
Context `{AuditEnv}.
Variable db_fault : option exn.

Definition has_grant (now : timestamp) (p : Principal) (c : Capability) (resource : string) : M db bool :=
  try_except
    (found <- tenant_session (
       match db_fault with Some e => raise e | None => ret tt end ;;
       sql_select (visible (tenant_uuid (principal_tenant p))
         (live_grant now (principal_uuid p) (capability_str c) resource))) ;;
     ret (negb (length found =? 0)%nat))
    (fun _ => Some (ret false)).

Definition allows (now : timestamp) (p : Principal) (c : Capability) (resource : option string)
    (subject_principal : option uuid) : M db (bool * string) :=
  if self_approval_forbidden c && eqb_opt N.eqb subject_principal (principal_uuid p)
  then ret (false, "self-approval forbidden")
  else if in_caps c (capabilities_of p) then ret (true, "role grant")
  else
    granted <- (if truthy resource then has_grant now p c (coalesce resource "") else ret false) ;;
    if (granted : bool) then ret (true, "resource grant") else ret (false, "no grant").

Definition require (now : timestamp) (p : Principal) (c : Capability) (resource : option string)
    (subject_principal : option uuid) : M db unit :=
  decision <- allows now p c resource subject_principal ;;
  guard (fst decision) (NotAuthorized (snd decision)).

Definition same_grant (t to : uuid) (cap resource : string) (g : capability_grant) : bool :=
  (cg_tenant g =? t)%N && (cg_principal g =? to)%N && String.eqb (cg_capability g) cap
  && String.eqb (cg_resource g) resource.

Definition renew_grant (now : timestamp) (granter : uuid) (expires_at : option timestamp)
    (g : capability_grant) : capability_grant :=
  g <| cg_revoked_at := None |> <| cg_expires_at := expires_at |>
    <| cg_granted_by := Some granter |> <| cg_granted_at := now |>.

(** [INSERT ... ON CONFLICT (...) DO UPDATE ... RETURNING id], the id drawn [fresh]. *)
Definition upsert_grant (now : timestamp) (fresh : uuid) (granter : Principal) (to : uuid)
    (cap resource : string) (expires_at : option timestamp) : M db uuid :=
  let t := tenant_uuid (principal_tenant granter) in
  updated <- sql_update (same_grant t to cap resource)
               (renew_grant now (principal_uuid granter) expires_at) ;;
  match updated with
  | g :: _ => ret (cg_id g)
  | [] =>
      sql_insert (mkGrant fresh t to cap resource (Some (principal_uuid granter)) now expires_at None None) ;;
      ret fresh
  end.

Definition grant_detail (id : uuid) (cap resource : string) (expires_at : option timestamp) : json :=
  JObj [("grant_id", JStr (uuid_str id)); ("capability", JStr cap); ("resource", JStr resource);
        ("expires_at", opt_str (option_map env_isoformat expires_at))].

Definition grant (now : timestamp) (fresh : uuid) (granter : Principal) (to : uuid) (c : Capability)
    (resource : string) (expires_at : option timestamp) (audit_context : option RequestContext)
    : M db uuid :=
  let t := tenant_uuid (principal_tenant granter) in
  require now granter MEMBER_MANAGE None None ;;
  guard (in_caps c (capabilities_of granter))
    (NotAuthorized "cannot grant a capability the granter does not hold") ;;
  tenant_session (
    id <- upsert_grant now fresh granter to (capability_str c) resource expires_at ;;
    match audit_context with
    | Some ctx =>
        audit_in_session now t ctx "member.capability.granted" SUCCEEDED "principal" (uuid_str to)
          (grant_detail id (capability_str c) resource expires_at) ;; ret tt
    | None => ret tt
    end ;;
    ret id).

Definition revocable (id : uuid) (g : capability_grant) : bool :=
  (cg_id g =? id)%N && is_none (cg_revoked_at g).

Definition set_revoked (now : timestamp) (by_ : uuid) (g : capability_grant) : capability_grant :=
  g <| cg_revoked_at := Some now |> <| cg_revoked_by := Some by_ |>.

Definition revoke (now : timestamp) (revoker : Principal) (id : uuid)
    (audit_context : option RequestContext) : M db bool :=
  let t := tenant_uuid (principal_tenant revoker) in
  require now revoker MEMBER_MANAGE None None ;;
  tenant_session (
    updated <- sql_update (visible t (revocable id)) (set_revoked now (principal_uuid revoker)) ;;
    revoked <- one_or_none updated ;;
    match revoked, audit_context with
    | Some g, Some ctx =>
        audit_in_session now t ctx "member.capability.revoked" SUCCEEDED "principal"
          (uuid_str (cg_principal g))
          (JObj [("grant_id", JStr (uuid_str id)); ("capability", JStr (cg_capability g));
                 ("resource", JStr (cg_resource g))]) ;; ret tt
    | _, _ => ret tt
    end ;;
    ret (is_some revoked)).

(** * Lemmas *)

Lemma in_caps_spec c l : in_caps c l = true ↔ In c l.
Proof.
  unfold in_caps. rewrite existsb_exists. split.
  - intros (x & Hx & E). bool_to_prop. by subst.
  - intros Hc. exists c. split; [done|]. by apply bool_decide_eq_true.
Qed.

Lemma capabilities_of_spec p c : In c (capabilities_of p) ↔ ∃ r, In r (roles p) ∧ In c (role_capabilities r).
Proof.
  unfold capabilities_of. rewrite in_concat. setoid_rewrite in_map_iff. split.
  - intros (l & (r & <- & Hr) & Hc). eauto.
  - intros (r & Hr & Hc). exists (role_capabilities r). eauto.
Qed.

Lemma capability_str_inj c c' : capability_str c = capability_str c' → c = c'.
Proof. destruct c, c'; done. Qed.

(** Only the owner role carries the authority to manage members. *)
Lemma member_manage_is_owner p : In MEMBER_MANAGE (capabilities_of p) ↔ In OWNER (roles p).
Proof.
  rewrite capabilities_of_spec. split.
  - intros ([] & Hr & Hc); [done|..]; exfalso; cbn in Hc;
      repeat match goal with Hc : _ ∨ _ |- _ => destruct Hc as [Hc|Hc]; [discriminate|] end; done.
  - intros Hr. exists OWNER. split; [done|]. apply in_caps_spec. vm_compute. reflexivity.
Qed.

Lemma has_grant_eq now p c resource d :
  has_grant now p c resource d =
  (Ok match db_fault with
      | Some _ => false
      | None => existsb (visible (tenant_uuid (principal_tenant p))
                  (live_grant now (principal_uuid p) (capability_str c) resource)) (grants d)
      end, d).
Proof.
  unfold has_grant, try_except, tenant_session, tx, bind, sql_select, gets.
  destruct db_fault as [e|]; [done|]. cbn [ret rows table_grants]. unfold ret, select_where.
  do 2 f_equal. induction (grants d) as [|g l IH]; cbn; [done|].
  destruct (visible _ _ g); cbn; [done|]. exact IH.
Qed.

(** The decision as a condition on the principal, the table and the clock. *)
Definition permitted (now : timestamp) (p : Principal) (c : Capability) (resource : option string)
    (subject_principal : option uuid) (d : db) : Prop :=
  ¬ (In c [SCHEMA_APPROVE; TOOL_APPROVE] ∧ subject_principal = Some (principal_uuid p)) ∧
  ((∃ r, In r (roles p) ∧ In c (role_capabilities r))
   ∨ ∃ res g, resource = Some res ∧ res ≠ "" ∧ db_fault = None ∧ In g (grants d) ∧
       cg_tenant g = tenant_uuid (principal_tenant p) ∧ cg_principal g = principal_uuid p ∧
       cg_capability g = capability_str c ∧ (cg_resource g = res ∨ cg_resource g = "*") ∧
       (∀ e, cg_expires_at g = Some e → now < e) ∧ cg_revoked_at g = None).

Lemma live_grant_spec now pid cap res g :
  live_grant now pid cap res g = true ↔
  cg_principal g = pid ∧ cg_capability g = cap ∧ (cg_resource g = res ∨ cg_resource g = "*") ∧
  (∀ e, cg_expires_at g = Some e → now < e) ∧ cg_revoked_at g = None.
Proof.
  unfold live_grant, is_none. rewrite !andb_true_iff, orb_true_iff, N.eqb_eq, !String.eqb_eq.
  destruct (cg_expires_at g) as [e|], (cg_revoked_at g); cbn; rewrite ?Z.ltb_lt; split;
    intros Hg; repeat match goal with Hg : _ ∧ _ |- _ => destruct Hg end; repeat split; auto; try done; try congruence.
Qed.

Lemma allows_eq now p c resource subject_principal d :
  ∃ b why, allows now p c resource subject_principal d = (Ok (b, why), d) ∧
    (b = true ↔ permitted now p c resource subject_principal d).
Proof.
  unfold allows, permitted.
  destruct (self_approval_forbidden c && eqb_opt N.eqb subject_principal (principal_uuid p)) eqn:Es.
  { eexists _, _. split; [reflexivity|]. split; [done|]. intros [Hn _]. exfalso. apply Hn. bool_to_prop.
    split; [by apply in_caps_spec|]. destruct subject_principal; cbn in *; [|done]. bool_to_prop. congruence. }
  assert (Hself : ¬ (In c [SCHEMA_APPROVE; TOOL_APPROVE] ∧ subject_principal = Some (principal_uuid p))).
  { intros [Hc ->]. cbn [eqb_opt] in Es. rewrite N.eqb_refl, andb_true_r in Es.
    apply in_caps_spec in Hc. unfold self_approval_forbidden in Es. congruence. }
  destruct (in_caps c (capabilities_of p)) eqn:Ec.
  { eexists _, _. split; [reflexivity|]. apply in_caps_spec, capabilities_of_spec in Ec. tauto. }
  assert (Hrole : ¬ ∃ r, In r (roles p) ∧ In c (role_capabilities r)).
  { intros Hr. apply capabilities_of_spec, in_caps_spec in Hr. congruence. }
  destruct resource as [res|]; cbn [truthy]; unfold bind; cycle 1.
  { eexists _, _. split; [reflexivity|]. split; [done|]. intros [_ [Hr|(? & ? & E & _)]]; [done|congruence]. }
  destruct (String.eqb res "") eqn:Er; cbn [negb coalesce]; bool_to_prop.
  { eexists _, _. split; [reflexivity|]. split; [done|]. intros [_ [Hr|(? & ? & E & Hne & _)]]; [done|congruence]. }
  rewrite has_grant_eq. set (b := match db_fault with Some _ => false | None => _ end).
  assert (Hb : b = true ↔ db_fault = None ∧ ∃ g, In g (grants d) ∧
    visible (tenant_uuid (principal_tenant p)) (live_grant now (principal_uuid p) (capability_str c) res) g = true).
  { unfold b. destruct db_fault; [split; [done|by intros []]|]. rewrite existsb_exists. tauto. }
  assert (Hiff : b = true ↔ permitted now p c (Some res) subject_principal d).
  { rewrite Hb. unfold permitted, visible. setoid_rewrite andb_true_iff. setoid_rewrite live_grant_spec.
    setoid_rewrite N.eqb_eq. unfold row_tenant, tenant_grant. split.
    - intros (Hf & g & Hg & Ht & H1 & H2 & H3 & H4 & H5). split; [done|]. right. exists res, g. tauto.
    - intros [_ [Hr|(res' & g & [= <-] & _ & Hf & Hg & Ht & H1 & H2 & H3 & H4 & H5)]]; [done|].
      split; [done|]. exists g. tauto. }
  unfold permitted in Hiff. destruct b; eexists _, _; (split; [reflexivity|exact Hiff]).
Qed.

Lemma require_eq now p c resource subject_principal d :
  permitted now p c resource subject_principal d ∧
    require now p c resource subject_principal d = (Ok tt, d)
  ∨ ¬ permitted now p c resource subject_principal d ∧
    ∃ why, require now p c resource subject_principal d = (Raise (NotAuthorized why), d).
Proof.
  unfold require, bind. destruct (allows_eq now p c resource subject_principal d) as (b & why & E & Hb).
  rewrite E. destruct b; cbn.
  - left. split; [by apply Hb|done].
  - right. split; [intros Hp; apply Hb in Hp; done|by exists why].
Qed.

Lemma permitted_member_manage now p d :
  permitted now p MEMBER_MANAGE None None d ↔ In OWNER (roles p).
Proof.
  unfold permitted. rewrite <- capabilities_of_spec, member_manage_is_owner. split.
  - intros [_ [Ho|(? & ? & E & _)]]; [done|congruence].
  - intros Ho. split; [by intros [_ E]|by left].
Qed.

Definition granted_row (now : timestamp) (granter : Principal) (to : uuid) (c : Capability)
    (resource : string) (expires_at : option timestamp) (g : capability_grant) : Prop :=
  cg_tenant g = tenant_uuid (principal_tenant granter) ∧ cg_principal g = to ∧
  cg_capability g = capability_str c ∧ cg_resource g = resource ∧ cg_revoked_at g = None ∧
  cg_expires_at g = expires_at ∧ cg_granted_by g = Some (principal_uuid granter) ∧ cg_granted_at g = now.

Lemma upsert_grant_eq now fresh granter to c resource expires_at d :
  ∃ id d1 g, upsert_grant now fresh granter to (capability_str c) resource expires_at d = (Ok id, d1) ∧
    In g (grants d1) ∧ cg_id g = id ∧ granted_row now granter to c resource expires_at g ∧
    ∀ g', same_grant (tenant_uuid (principal_tenant granter)) to (capability_str c) resource g' = false →
      (In g' (grants d1) ↔ In g' (grants d)).
Proof.
  unfold upsert_grant. set (t := tenant_uuid (principal_tenant granter)).
  set (q := same_grant t to (capability_str c) resource).
  set (f := renew_grant now (principal_uuid granter) expires_at).
  unfold bind, sql_update, sql_insert, modify, ret. cbn [rows put table_grants].
  destruct (select_where q (grants d)) as [|g0 l] eqn:E; cbn [map].
  - eexists _, _, (mkGrant fresh t to (capability_str c) resource (Some (principal_uuid granter)) now expires_at None None).
    split; [reflexivity|]. cbn [rows put table_grants grants]. rewrite update_where_id by (by apply select_where_nil).
    split; [apply in_app_iff; right; by left|]. split; [done|]. split; [by repeat split|].
    intros g' Hq. cbn. rewrite in_app_iff. split; [|auto]. intros [Hin|[<-|[]]]; [done|].
    unfold q, same_grant in Hq. cbn in Hq. by rewrite !N.eqb_refl, !String.eqb_refl in Hq.
  - assert (Hg0 : In g0 (select_where q (grants d))) by (rewrite E; by left).
    apply filter_In in Hg0 as [Hin Hq]. exists (cg_id g0), (d <| grants := update_where q f (grants d) |>), (f g0).
    split; [done|]. cbn. split; [apply in_update_where; exists g0; by rewrite Hq|]. split; [done|].
    split. { unfold q, same_grant in Hq. bool_to_prop. by repeat split. }
    intros g' Hq'. rewrite in_update_where. split.
    + intros (x & Hx & ->). destruct (q x) eqn:Ex; [|done].
      exfalso. apply not_true_iff_false in Hq'. apply Hq'. exact Ex.
    + intros Hg'. exists g'. by rewrite Hq'.
Qed.

End capabilities.

Module CapabilitiesDemo.
#[export] Instance env : AuditEnv := mkAuditEnv AuditDemo.sha AuditDemo.iso AuditDemo.jb None.
Definition viewer : Principal := mkPrincipal 13 Demo.tenant_a "carol@acme.test" [VIEWER] HUMAN.
(* carol may read usage of one resource until t = 50 *)
Definition g1 : capability_grant := mkGrant 70 1 13 "usage:read" "docs" (Some 11%N) 0 (Some 50) None None.
Definition d1 : db := empty_db <| grants := [g1] |>.
End CapabilitiesDemo.

(** Authorization is deny-by-default.  [allows] never fails and changes nothing;
    it says yes exactly when the action is not a self-approval and either a role of
    the principal carries the capability, or an unexpired, unrevoked grant of it
    names the resource asked for (or every resource).  A lookup the database cannot
    answer is a refusal, and where no resource is asked for no grant counts, not
    even one for every resource. *)
Theorem allows_spec db_fault now p c resource subject_principal d :
  (∃ b why, allows db_fault now p c resource subject_principal d = (Ok (b, why), d) ∧
     (b = true ↔ permitted db_fault now p c resource subject_principal d)) ∧
  (db_fault ≠ None ∨ resource = None ∨ resource = Some "" →
     permitted db_fault now p c resource subject_principal d → ∃ r, In r (roles p) ∧ In c (role_capabilities r)).
Proof.
  split; [apply allows_eq|]. intros Hno [_ [Hr|(res & g & E & Hne & Hf & _)]]; [done|].
  destruct Hno as [Hno|[Hno|Hno]]; congruence.
Qed.

(** Who may grant.  [grant] is refused, with nothing written, to everyone who is
    not an owner of the tenant.  An owner's grant - new, or renewing an existing row
    of that principal, capability and resource - leaves exactly one such row,
    unrevoked, with the given expiry and the granter's name on it; the grants of
    everyone else are untouched; and if the audit event that belongs to it cannot be
    written the grant is not made either. *)
Theorem grant_spec `{AuditEnv} db_fault now fresh granter to c resource expires_at actx d r d' :
  grant db_fault now fresh granter to c resource expires_at actx d = (r, d') →
  (¬ In OWNER (roles granter) ∧ d' = d ∧ ∃ why, r = Raise (NotAuthorized why)) ∨
  (In OWNER (roles granter) ∧ d' = d ∧ ∃ e, r = Raise e) ∨
  (In OWNER (roles granter) ∧ ∃ id g, r = Ok id ∧ In g (grants d') ∧ cg_id g = id ∧
     granted_row now granter to c resource expires_at g ∧
     ∀ g', same_grant (tenant_uuid (principal_tenant granter)) to (capability_str c) resource g' = false →
       (In g' (grants d') ↔ In g' (grants d))).
Proof.
  unfold grant, bind at 1. destruct (require_eq db_fault now granter MEMBER_MANAGE None None d)
    as [[Hp E]|[Hp (why & E)]]; rewrite E, permitted_member_manage in *; cycle 1.
  { intros [= <- <-]. left. eauto. }
  assert (in_caps c (capabilities_of granter) = true) as Hc.
  { apply in_caps_spec, capabilities_of_spec. exists OWNER. split; [done|]. apply in_caps_spec. by destruct c. }
  unfold bind at 1. rewrite Hc. cbn [guard]. unfold ret at 1, tenant_session, tx.
  destruct (upsert_grant_eq now fresh granter to c resource expires_at d) as (id & d1 & g & Eu & Hg & Hid & Hrow & Ho).
  unfold bind at 1. rewrite Eu. intros Er. right.
  destruct actx as [ctx|]; unfold bind, ret in Er; cycle 1.
  { injection Er as <- <-. right. split; [done|]. by exists id, g. }
  destruct (audit_in_session _ _ _ _ _ _ _ _ d1) as [[h|e] d2] eqn:Ea; injection Er as <- <-.
  - right. split; [done|]. apply audit_in_session_only_audit in Ea. apply (only_audit_keeps grants) in Ea; [|done].
    exists id, g. rewrite Ea. exact (conj eq_refl (conj Hg (conj Hid (conj Hrow Ho)))).
  - left. eauto.
Qed.

Lemma grant_spec_witness :
  ∃ id g d', grant (H := CapabilitiesDemo.env) None 5 80 Demo.alice 13 QUERY_READ "docs" None None CapabilitiesDemo.d1
    = (Ok id, d') ∧ In g (grants d') ∧ cg_id g = id.
Proof.
  destruct (grant (H := CapabilitiesDemo.env) None 5 80 Demo.alice 13 QUERY_READ "docs" None None CapabilitiesDemo.d1)
    as [r d'] eqn:E.
  destruct (grant_spec None 5 80 Demo.alice 13 QUERY_READ "docs" None None CapabilitiesDemo.d1 r d' E)
    as [(Hn & _)|[(_ & _ & e & Er)|(_ & id & g & Er & Hg & Hid & _)]].
  - exfalso. apply Hn. by left.
  - exfalso. vm_compute in E. congruence.
  - exists id, g, d'. by subst r.
Defined.

(** Revocation.  [revoke] too is refused to non-owners with nothing written; an
    owner's revocation of a live grant of the tenant marks that row and no other,
    after which the row authorises nothing at any time; it answers false, and
    changes nothing, for a grant that is unknown, of another tenant or already
    revoked. *)
Theorem revoke_spec `{AuditEnv} db_fault now revoker id actx d r d' :
  List.NoDup (map cg_id (grants d)) →
  revoke db_fault now revoker id actx d = (r, d') →
  let t := tenant_uuid (principal_tenant revoker) in
  (¬ In OWNER (roles revoker) ∧ d' = d ∧ ∃ why, r = Raise (NotAuthorized why)) ∨
  (In OWNER (roles revoker) ∧ d' = d ∧ ∃ e, r = Raise e) ∨
  (In OWNER (roles revoker) ∧ r = Ok false ∧ d' = d ∧
     ∀ g, In g (grants d) → cg_id g = id → cg_tenant g = t → cg_revoked_at g ≠ None) ∨
  (In OWNER (roles revoker) ∧ r = Ok true ∧ ∃ g, In g (grants d) ∧ cg_id g = id ∧ cg_tenant g = t ∧
     grants d' = update_where (visible t (revocable id)) (set_revoked now (principal_uuid revoker)) (grants d) ∧
     (∀ g', In g' (grants d') → cg_id g' = id → ∀ now' pid cap res, live_grant now' pid cap res g' = false) ∧
     ∀ g', cg_id g' ≠ id → (In g' (grants d') ↔ In g' (grants d))).
Proof.
  intros Hids. unfold revoke, bind at 1. cbn zeta. set (t := tenant_uuid (principal_tenant revoker)).
  destruct (require_eq db_fault now revoker MEMBER_MANAGE None None d) as [[Hp E]|[Hp (why & E)]];
    rewrite E, permitted_member_manage in *; cycle 1.
  { intros [= <- <-]. left. eauto. }
  set (q := visible t (revocable id)). set (f := set_revoked now (principal_uuid revoker)).
  assert (Hq : ∀ g, q g = true ↔ cg_tenant g = t ∧ cg_id g = id ∧ cg_revoked_at g = None).
  { intros g. unfold q, visible, revocable, is_none, row_tenant, tenant_grant.
    rewrite !andb_true_iff, !N.eqb_eq. destruct (cg_revoked_at g); cbn; intuition congruence. }
  unfold tenant_session, tx. rewrite bind_assoc_eq.
  destruct (update_by_key (T := table_grants) cg_id q f id d) as [[Hn Eu]|(g & Hg & Hqg & Eu)];
    [done|by intros g (_ & ? & _)%Hq| |]; cbv zeta in Eu; unfold bind at 1; rewrite Eu; intros Er; right.
  - injection Er as <- <-. right. left. repeat split; auto. intros g Hg Hi Ht Hr.
    specialize (Hn g Hg). apply not_true_iff_false in Hn. apply Hn. by apply Hq.
  - apply Hq in Hqg as Hg'. destruct Hg' as (Ht & Hi & Hrev).
    assert (Hres : ∀ d1, grants d1 = update_where q f (grants d) → (∃ g, In g (grants d) ∧ cg_id g = id ∧ cg_tenant g = t ∧
      grants d1 = update_where q f (grants d) ∧
      (∀ g', In g' (grants d1) → cg_id g' = id → ∀ now' pid cap res, live_grant now' pid cap res g' = false) ∧
      ∀ g', cg_id g' ≠ id → (In g' (grants d1) ↔ In g' (grants d)))).
    { intros d1 E1. exists g. rewrite E1. repeat split; auto.
      - intros g' (x & Hx & ->)%in_update_where Hid now' pid cap res. apply not_true_iff_false.
        intros (_ & _ & _ & _ & Hnone)%live_grant_spec.
        assert (x = g) as -> by (apply (key_unique cg_id (grants d)); auto; destruct (q x); cbn in Hid; congruence).
        rewrite Hqg in Hnone. done.
      - intros (x & Hx & ->)%in_update_where. destruct (q x) eqn:Ex; [|done]. apply Hq in Ex. cbn in *. tauto.
      - intros Hg'. apply in_update_where. exists g'. split; [done|]. destruct (q g') eqn:Ex; [|done].
        apply Hq in Ex. tauto. }
    destruct actx as [ctx|]; unfold bind, ret in Er; cycle 1.
    { injection Er as <- <-. right. right. split; [done|]. split; [done|]. by apply Hres. }
    destruct (audit_in_session _ _ _ _ _ _ _ _ _) as [[h|e] d2] eqn:Ea; injection Er as <- <-.
    + right. right. split; [done|]. split; [done|]. apply Hres.
      apply audit_in_session_only_audit in Ea. apply (only_audit_keeps grants) in Ea; [|done]. by rewrite Ea.
    + left. eauto.
Qed.

Lemma revoke_spec_witness :
  ∃ d', revoke (H := CapabilitiesDemo.env) None 5 Demo.alice 70 None CapabilitiesDemo.d1 = (Ok true, d') ∧
    ∀ g', In g' (grants d') → cg_id g' = 70%N → ∀ now' pid cap res, live_grant now' pid cap res g' = false.
Proof.
  destruct (revoke (H := CapabilitiesDemo.env) None 5 Demo.alice 70 None CapabilitiesDemo.d1) as [r d'] eqn:E.
  destruct (revoke_spec None 5 Demo.alice 70 None CapabilitiesDemo.d1 r d'
    (List.NoDup_cons (l := []) 70%N (fun Hin => Hin) (List.NoDup_nil _)) E)
    as [(_ & _ & why & Er)|[(_ & _ & e & Er)|[(_ & Er & _)|(_ & Er & g & _ & _ & _ & _ & Hlive & _)]]];
    subst r; vm_compute in E; try discriminate E.
  exists d'. split; [|exact Hlive]. by rewrite <- E.
Defined.
