(* ===== verification/Tools.v ===== *)
(** Governed tools: [platform_core/agent/tools.py] and the approval gate of
    [platform_core/api/routes/approvals.py].

    A handler and an argument validator are parameters of a tool; a handler runs on
    the database like any code of the platform and may return, raise or be given up
    on after its timeout.  [now] is the time of the statements before the handler and
    [done_at] of those after it.  Spans and metrics are not modelled. *)
From Stdlib Require Import Ascii.
From S2P Require Import Prelude Json Identity Db Leases Checkpoint AuditTrail Capabilities.

Inductive handler_result :=
| Returned (v : json)
| TimedOut.

Record ToolSpec := mkToolSpec {
  ts_name : string;
  ts_description : string;
  ts_side_effect : effect_class;
  ts_capability : Capability;
  ts_handler : RequestContext → json → M db handler_result;
  ts_requires_approval : bool;
  ts_timeout_seconds : option Q;
  ts_validate_arguments : option (json → result json)
}.

Definition in_range (lo hi : N) (c : ascii) : bool := ((lo <=? N_of_ascii c) && (N_of_ascii c <=? hi))%N.

Definition name_char (c : ascii) : bool :=
  in_range 97 122 c || in_range 48 57 c || Ascii.eqb c "_"%char || Ascii.eqb c "."%char
  || Ascii.eqb c "-"%char.

(** [^[a-z][a-z0-9_.-]{1,127}$]. *)
Definition valid_tool_name (s : string) : bool :=
  match s with
  | "" => false
  | String c rest => in_range 97 122 c && all_in name_char rest && (1 <=? str_len rest) && (str_len rest <=? 127)
  end.

Definition is_write (e : effect_class) : bool := bool_decide (e = write_effect).

(** [ToolSpec.__post_init__]. *)
Definition new_ToolSpec (spec : ToolSpec) : result ToolSpec :=
  if negb (valid_tool_name (ts_name spec)) then Raise (ValueError "invalid tool name")
  else if is_write (ts_side_effect spec) && negb (ts_requires_approval spec)
  then Raise (ValueError "write tools must require approval")
  else match ts_timeout_seconds spec with
       | Some q => if Qle_bool q 0 then Raise (ValueError "tool timeout must be positive") else Ok spec
       | None => Ok spec
       end.

Record ToolInvocation := mkInvocation {
  ti_execution : uuid;
  ti_tool : string;
  ti_status : execution_status;
  ti_result : option json;
  ti_replayed : bool
}.

Abbreviation registry := (gmap string ToolSpec) (only parsing).

Definition register (spec : ToolSpec) (reg : registry) : result registry :=
  match reg !! ts_name spec with
  | Some _ => Raise (ValueError "tool is already registered")
  | None => Ok (<[ts_name spec := spec]> reg)
  end.

Definition get_tool (reg : registry) (name : string) : result ToolSpec :=
  match reg !! name with Some spec => Ok spec | None => Raise UnknownTool end.

Definition name_le (a b : ToolSpec) : bool := String.leb (ts_name a) (ts_name b).

Definition describe (reg : registry) : list (string * string * effect_class * bool * string) :=
  map (fun s => (ts_name s, ts_description s, ts_side_effect s, ts_requires_approval s,
                 capability_str (ts_capability s)))
    (order_by name_le (map snd (map_to_list reg))).

Record tool_settings := mkToolSettings {
  tool_max_arguments_bytes : Z;
  checkpoint_max_state_bytes : Z;
  tool_approval_ttl_seconds : Z
}.

(** [_canonical]. *)
Definition canonical_bytes (v : json) : result string :=
  if finite v then Ok (utf8 (dumps false (canonical v)))
  else Raise (ValueError "tool values must be finite JSON").

(** * Receipts *)

Definition resolve_existing (x : tool_execution) (tool_name arguments_sha : string)
    : result ToolInvocation :=
  if negb (String.eqb (te_tool x) tool_name) || negb (String.eqb (te_sha x) arguments_sha)
  then Raise (ToolConflict "idempotency key was already used for another tool invocation")
  else match te_status x with
       | ex_succeeded => Ok (mkInvocation (te_id x) tool_name (te_status x) (te_result x) true)
       | _ => Raise (ToolExecutionUnavailable "automatic replay is refused")
       end.

Definition with_key (key : string) (x : tool_execution) : bool := String.eqb (te_key x) key.

Definition existing (ctx : RequestContext) (key : string) : M db (option tool_execution) :=
  tenant_session (
    found <- sql_select (visible (tenant_of ctx) (with_key key)) ;;
    one_or_none found).

(** Failure of the attempt: [needs_reconciliation] for a write. *)
Definition failure_status (e : effect_class) : execution_status :=
  match e with write_effect => ex_needs_reconciliation | no_effect => ex_failed end.

Definition started_execution (id : uuid) (x : tool_execution) : bool :=
  (te_id x =? id)%N && bool_decide (te_status x = ex_started).

Definition set_execution_failed (status : execution_status) (error : string) (now : timestamp)
    (x : tool_execution) : tool_execution :=
  x <| te_status := status |> <| te_error := Some (str_take 2000 error) |> <| te_finished_at := Some now |>.

Definition finish_failure (now : timestamp) (ctx : RequestContext) (id : uuid)
    (status : execution_status) (error : string) : M db unit :=
  tenant_session (
    sql_update (visible (tenant_of ctx) (started_execution id)) (set_execution_failed status error now) ;;
    ret tt).

Definition set_execution_succeeded (result : json) (sha : string) (now : timestamp) (x : tool_execution)
    : tool_execution :=
  x <| te_status := ex_succeeded |> <| te_result := Some result |>
    <| te_result_sha := Some sha |> <| te_finished_at := Some now |>.

(** How one attempt at the handler ended, as the two [except] clauses see it. *)
Inductive attempt :=
| Finished (v : json)
| AttemptTimedOut
| AttemptFailed (e : exn).

Definition is_timeout (e : exn) : bool :=
  match e with OtherError c => String.eqb c "TimeoutError" | _ => false end.

Definition attempt_handler (spec : ToolSpec) (ctx : RequestContext) (arguments : json) : M db attempt :=
  try_except
    (cancellation_point ctx ;;
     r <- ts_handler spec ctx arguments ;;
     match r with
     | TimedOut => ret AttemptTimedOut
     | Returned (JObj kvs) => ret (Finished (JObj kvs))
     | Returned _ => raise (TypeError "tool handlers must return a JSON object")
     end)
    (fun e => Some (ret (if is_timeout e then AttemptTimedOut else AttemptFailed e))).

Section tools.
Context `{AuditEnv}.
Variable settings : tool_settings.

(** * Approvals *)

(** A request for the same call that can still be used. *)
Definition open_request (now : timestamp) (run : uuid) (tool sha : string) (by_ : uuid) (a : tool_approval)
    : bool :=
  (ta_run a =? run)%N && String.eqb (ta_tool a) tool && String.eqb (ta_sha a) sha
  && (ta_requested_by a =? by_)%N
  && (bool_decide (ta_status a = ap_pending) || bool_decide (ta_status a = ap_approved))
  && is_none (ta_consumed_at a) && (now <? ta_expires_at a).

Definition latest_request (a b : tool_approval) : bool := ta_requested_at b <=? ta_requested_at a.

Definition run_visible (ctx : RequestContext) (run : uuid) : M db bool :=
  found <- sql_select (visible (tenant_of ctx) (fun r => r_id r =? run)%N) ;;
  ret (negb (length found =? 0)%nat).

Definition new_approval (now : timestamp) (fresh : uuid) (ctx : RequestContext) (spec : ToolSpec)
    (run : uuid) (arguments : json) (sha : string) : tool_approval :=
  mkToolApproval fresh (tenant_of ctx) run (ts_name spec) (ts_side_effect spec)
    (env_jsonb (canonical arguments)) sha ap_pending (principal_uuid (principal ctx)) now None None None
    (now + seconds (tool_approval_ttl_seconds settings)) None.

(** The transaction of [_request_approval]: the request, and whether it is new. *)
Definition insert_approval (now : timestamp) (fresh : uuid) (ctx : RequestContext) (spec : ToolSpec)
    (run : uuid) (arguments : json) (sha : string) : M db (uuid * bool) :=
  tenant_session (
    present <- run_visible ctx run ;;
    guard present (ToolConflict "run not found") ;;
    open <- sql_select (visible (tenant_of ctx)
              (open_request now run (ts_name spec) sha (principal_uuid (principal ctx)))) ;;
    match order_by latest_request open with
    | a :: _ => ret (ta_id a, false)
    | [] =>
        taken <- sql_select (fun a => ta_id a =? fresh)%N ;;
        guard (length taken =? 0)%nat (IntegrityError "tool_approval_pkey") ;;
        sql_insert (new_approval now fresh ctx spec run arguments sha) ;;
        ret (fresh, true)
    end).

Definition request_approval (now : timestamp) (fresh : uuid) (ctx : RequestContext) (spec : ToolSpec)
    (run : uuid) (arguments : json) (sha : string) : M db uuid :=
  made <- insert_approval now fresh ctx spec run arguments sha ;;
  let '(id, is_new) := made in
  (if (is_new : bool) then
     audit_record now ctx "tool.approval.request" SUCCEEDED "tool_approval" (uuid_str id)
       (JObj [("tool", JStr (ts_name spec)); ("arguments_sha256", JStr sha)]) false ;; ret tt
   else ret tt) ;;
  ret id.

Definition decidable (now : timestamp) (id : uuid) (a : tool_approval) : bool :=
  (ta_id a =? id)%N && bool_decide (ta_status a = ap_pending) && (now <? ta_expires_at a).

Definition set_decided (now : timestamp) (approved : bool) (by_ : uuid) (note : option string)
    (a : tool_approval) : tool_approval :=
  a <| ta_status := if approved then ap_approved else ap_rejected |> <| ta_decided_by := Some by_ |>
    <| ta_decided_at := Some now |> <| ta_note := note |>.

Definition approval_status_str (s : approval_status) : string :=
  match s with
  | ap_pending => "pending"
  | ap_approved => "approved"
  | ap_rejected => "rejected"
  | ap_expired => "expired"
  end.

(** The conditional UPDATE of [decide] with its audit event. *)
Definition write_decision (now : timestamp) (ctx : RequestContext) (id : uuid) (approved : bool)
    (note : option string) : M db (option tool_approval) :=
  tenant_session (
    rows <- sql_update (visible (tenant_of ctx) (decidable now id))
              (set_decided now approved (principal_uuid (principal ctx)) note) ;;
    updated <- one_or_none rows ;;
    match updated with
    | Some a =>
        audit_in_session now (tenant_of ctx) ctx "tool.approval.decide" SUCCEEDED "tool_approval"
          (uuid_str id) (JObj [("decision", JStr (approval_status_str (ta_status a)))]) ;; ret tt
    | None => ret tt
    end ;;
    ret updated).

(** The reads and the write of the handler share a transaction in the source; the
    refusal's audit event commits on a connection of its own. *)
Definition decide (now : timestamp) (ctx : RequestContext) (id : uuid) (approved : bool)
    (note : option string) : M db (uuid * approval_status) :=
  found <- tenant_session (
    rows <- sql_select (visible (tenant_of ctx) (fun a => ta_id a =? id)%N) ;;
    one_or_none rows) ;;
  match found with
  | None => raise (HTTPException 404)
  | Some row =>
      guard (bool_decide (ta_status row = ap_pending)) (HTTPException 409) ;;
      try_except
        (require None now (principal ctx) TOOL_APPROVE None (Some (ta_requested_by row)))
        (fun e => match e with
                  | NotAuthorized reason => Some (
                      audit_record now ctx "tool.approval.decide" DENIED "tool_approval" (uuid_str id)
                        (JObj [("reason", JStr reason)]) false ;;
                      raise (HTTPException 403))
                  | _ => None
                  end) ;;
      updated <- write_decision now ctx id approved note ;;
      match updated with
      | None => raise (HTTPException 409)
      | Some a => ret (ta_id a, ta_status a)
      end
  end.

Definition list_approvals (status : approval_status) (ctx : RequestContext)
    : M db (list (tool_approval * bool)) :=
  rows <- sql_select (visible (tenant_of ctx) (fun a => bool_decide (ta_status a = status))) ;;
  ret (map (fun a => (a, (ta_requested_by a =? principal_uuid (principal ctx))%N))
        (firstn 100 (order_by latest_request rows))).

(** * Starting an execution *)

Definition consumable (now : timestamp) (run : uuid) (tool sha : string) (id : option uuid)
    (a : tool_approval) : bool :=
  eqb_opt N.eqb id (ta_id a) && (ta_run a =? run)%N && String.eqb (ta_tool a) tool
  && String.eqb (ta_sha a) sha && bool_decide (ta_status a = ap_approved)
  && is_none (ta_consumed_at a) && (now <? ta_expires_at a).

Definition set_consumed (now : timestamp) (a : tool_approval) : tool_approval :=
  a <| ta_consumed_at := Some now |>.

Definition new_execution (now : timestamp) (fresh : uuid) (ctx : RequestContext) (spec : ToolSpec)
    (run : uuid) (approval : option uuid) (sha key : string) : tool_execution :=
  mkToolExecution fresh (tenant_of ctx) run approval (ts_name spec) (ts_side_effect spec) sha key
    (Some (principal_uuid (principal ctx))) ex_started None None None now None.

(** [INSERT ... SELECT ... FROM run ... ON CONFLICT DO NOTHING RETURNING id], with
    the foreign key on [approval_id]. *)
Definition insert_execution (now : timestamp) (fresh : uuid) (ctx : RequestContext) (spec : ToolSpec)
    (run : uuid) (approval : option uuid) (sha key : string) : M db (option uuid) :=
  present <- run_visible ctx run ;;
  conflict <- sql_select (fun x => (te_tenant x =? tenant_of ctx)%N && with_key key x) ;;
  match (present : bool), conflict with
  | true, [] =>
      referenced <- sql_select (fun a => eqb_opt N.eqb approval (ta_id a)) ;;
      guard (is_none approval || negb (length referenced =? 0)%nat)
        (IntegrityError "tool_execution_approval_id_fkey") ;;
      taken <- sql_select (fun x => te_id x =? fresh)%N ;;
      guard (length taken =? 0)%nat (IntegrityError "tool_execution_pkey") ;;
      sql_insert (new_execution now fresh ctx spec run approval sha key) ;;
      ret (Some fresh)
  | _, _ => ret None
  end.

Definition start_execution (now : timestamp) (fresh : uuid) (ctx : RequestContext) (spec : ToolSpec)
    (run : uuid) (approval : option uuid) (sha key : string) : M db (uuid + tool_execution) :=
  tenant_session (
    inserted <- insert_execution now fresh ctx spec run approval sha key ;;
    match inserted with
    | None =>
        found <- sql_select (visible (tenant_of ctx) (with_key key)) ;;
        raced <- one_or_none found ;;
        match raced with
        | None => raise (ToolConflict "run not found")
        | Some x => ret (inr x)
        end
    | Some id =>
        if ts_requires_approval spec then
          rows <- sql_update (visible (tenant_of ctx) (consumable now run (ts_name spec) sha approval))
                    (set_consumed now) ;;
          consumed <- one_or_none rows ;;
          match consumed with
          | None => raise ApprovalInvalid
          | Some _ => ret (inl id)
          end
        else ret (inl id)
    end).

(** * Running the handler *)

Definition record_outcome (now : timestamp) (ctx : RequestContext) (outcome : Outcome) (id : uuid)
    (detail : list (string * json)) : M db unit :=
  audit_record now ctx "tool.execute" outcome "tool_execution" (uuid_str id) (JObj detail) false ;;
  ret tt.

Definition status_str (s : execution_status) : string :=
  match s with
  | ex_started => "started"
  | ex_succeeded => "succeeded"
  | ex_failed => "failed"
  | ex_needs_reconciliation => "needs_reconciliation"
  end.

(** Commit the result on the receipt. *)
Definition commit_result (now : timestamp) (ctx : RequestContext) (id : uuid) (result : json) (sha : string)
    : M db unit :=
  try_except
    (tenant_session (
       rows <- sql_update (visible (tenant_of ctx) (started_execution id))
                 (set_execution_succeeded (env_jsonb (canonical result)) sha now) ;;
       updated <- one_or_none rows ;;
       guard (is_some updated) (ToolConflict "tool execution receipt was no longer started")))
    (fun _ => Some (raise (ToolExecutionUnavailable "completed but its result could not be committed"))).

Definition run_thread (run : uuid) : string := "run:" +:+ uuid_str run.

Definition store_append (now : timestamp) (ctx : RequestContext) (run : uuid) (state : list (string * json))
    (aw : option string) : M db Checkpoint :=
  append env_sha256 (checkpoint_max_state_bytes settings) now ctx (run_thread run) (JObj state) aw.

(** [invoke] from the handler on. *)
Definition execute (done_at : timestamp) (ctx : RequestContext) (spec : ToolSpec) (run : uuid)
    (id : uuid) (validated : json) : M db ToolInvocation :=
  let tool := ts_name spec in
  let status := failure_status (ts_side_effect spec) in
  outcome <- attempt_handler spec ctx validated ;;
  match outcome with
  | AttemptTimedOut =>
      finish_failure done_at ctx id status "tool timeout" ;;
      record_outcome done_at ctx FAILED id
        [("tool", JStr tool); ("status", JStr (status_str status)); ("reason", JStr "timeout")] ;;
      raise (ToolExecutionUnavailable "timed out")
  | AttemptFailed e =>
      finish_failure done_at ctx id status (exn_class e +:+ ": " +:+ exn_str e) ;;
      record_outcome done_at ctx FAILED id
        [("tool", JStr tool); ("status", JStr (status_str status)); ("error_type", JStr (exn_class e))] ;;
      raise (ToolExecutionUnavailable "failed")
  | Finished result =>
      encoded <- lift_result (canonical_bytes result) ;;
      (if checkpoint_max_state_bytes settings <? str_len encoded then
         finish_failure done_at ctx id ex_failed "tool result exceeds retained result limit" ;;
         raise (ToolExecutionUnavailable "tool result exceeds retained result limit")
       else
         let result_sha := env_sha256 encoded in
         commit_result done_at ctx id result result_sha ;;
         store_append done_at ctx run
           [("phase", JStr "tool_succeeded"); ("tool_name", JStr tool); ("execution_id", JStr (uuid_str id));
            ("result_sha256", JStr result_sha)] None ;;
         record_outcome done_at ctx SUCCEEDED id
           [("tool", JStr tool); ("result_sha256", JStr result_sha)] ;;
         ret (mkInvocation id tool ex_succeeded (Some result) false))
  end.

Definition durable_key (idempotency_key : string) : string :=
  "invoke:v1:" +:+ env_sha256 (utf8 idempotency_key).

(** Ask for an approval, note it in the run's checkpoint thread, and stop. *)
Definition await_approval (now : timestamp) (fresh : uuid) (ctx : RequestContext) (spec : ToolSpec)
    (run : uuid) (validated : json) (sha : string) : M db ToolInvocation :=
  id <- request_approval now fresh ctx spec run validated sha ;;
  store_append now ctx run
    [("phase", JStr "awaiting_tool_approval"); ("tool_name", JStr (ts_name spec));
     ("arguments_sha256", JStr sha); ("approval_id", JStr (uuid_str id))]
    (Some ("tool_approval:" +:+ uuid_str id)) ;;
  raise (ApprovalRequired id).

(** What [invoke] settles before it touches a receipt: the tool, its validated
    arguments and their digest. *)
Definition checked_call (now : timestamp) (reg : registry) (ctx : RequestContext) (tool_name : string)
    (arguments : json) (run : uuid) (idempotency_key : string) : M db (ToolSpec * json * string) :=
  cancellation_point ctx ;;
  spec <- lift_result (get_tool reg tool_name) ;;
  require None now (principal ctx) (ts_capability spec) (Some tool_name) None ;;
  guard (match run_id ctx with Some r => (r =? run)%N | None => true end)
    (ToolConflict "invocation run does not match request context") ;;
  guard ((1 <=? str_len idempotency_key) && (str_len idempotency_key <=? 160))
    (ValueError "idempotency_key must contain 1-160 characters") ;;
  validated <- match ts_validate_arguments spec with
               | Some f => lift_result (f arguments)
               | None => ret arguments
               end ;;
  encoded <- lift_result (canonical_bytes validated) ;;
  guard (str_len encoded <=? tool_max_arguments_bytes settings)
    (ValueError "tool arguments exceed tool_max_arguments_bytes") ;;
  ret (spec, validated, env_sha256 encoded).

Definition invoke (now done_at : timestamp) (fresh_approval fresh_execution : uuid) (reg : registry)
    (ctx : RequestContext) (tool_name : string) (arguments : json) (run : uuid)
    (idempotency_key : string) (approval : option uuid) : M db ToolInvocation :=
  call <- checked_call now reg ctx tool_name arguments run idempotency_key ;;
  let '(spec, validated, sha) := call in
  let key := durable_key idempotency_key in
  found <- existing ctx key ;;
  match found with
  | Some x => lift_result (resolve_existing x (ts_name spec) sha)
  | None =>
      if ts_requires_approval spec && is_none approval
      then await_approval now fresh_approval ctx spec run validated sha
      else
        started <- start_execution now fresh_execution ctx spec run approval sha key ;;
        match started with
        | inr raced => lift_result (resolve_existing raced (ts_name spec) sha)
        | inl id => execute done_at ctx spec run id validated
        end
  end.

(** * The gate as a transition system

    One step per transaction of the tool runtime, for any actors in any order. *)
Inductive tool_step : db → db → Prop :=
| tool_request now fresh ctx spec run arguments sha d d' r :
    insert_approval now fresh ctx spec run arguments sha d = (r, d') → tool_step d d'
| tool_decide now ctx id approved note d d' r :
    decide now ctx id approved note d = (r, d') → tool_step d d'
| tool_start now fresh ctx spec run approval sha key d d' r :
    new_ToolSpec spec = Ok spec →
    start_execution now fresh ctx spec run approval sha key d = (r, d') → tool_step d d'
| tool_fail now ctx id status error d d' r :
    finish_failure now ctx id status error d = (r, d') → tool_step d d'
| tool_commit now ctx id result sha d d' r :
    commit_result now ctx id result sha d = (r, d') → tool_step d d'
| tool_other d d' :
    approvals d' = approvals d → executions d' = executions d → tool_step d d'.

(** The approval that justifies an execution: of the same call, given by someone
    else, and used up. *)
Definition justifies (a : tool_approval) (x : tool_execution) : Prop :=
  te_approval x = Some (ta_id a) ∧ ta_tenant a = te_tenant x ∧ ta_run a = te_run x ∧
  ta_tool a = te_tool x ∧ ta_sha a = te_sha x ∧ ta_status a = ap_approved ∧ ta_consumed_at a ≠ None.

Record tool_inv (d : db) : Prop := {
  tv_approval_ids : List.NoDup (map ta_id (approvals d));
  tv_execution_ids : List.NoDup (map te_id (executions d));
  tv_keys : List.NoDup (map (fun x => (te_tenant x, te_key x)) (executions d));
  tv_checked : Forall (fun a => (ta_status a = ap_approved → ta_decided_by a ≠ None) ∧
                                ta_decided_by a ≠ Some (ta_requested_by a)) (approvals d);
  tv_justified : ∀ x, In x (executions d) → te_side_effect x = write_effect →
    ∃ a, In a (approvals d) ∧ justifies a x;
  tv_single : ∀ x y, In x (executions d) → In y (executions d) →
    te_side_effect x = write_effect → te_side_effect y = write_effect →
    te_approval x = te_approval y → x = y
}.

(** What never changes about a receipt. *)
Definition receipt (x : tool_execution) :=
  (te_id x, te_tenant x, te_run x, te_approval x, te_tool x, te_side_effect x, te_sha x, te_key x).

Lemma tool_inv_same d d' :
  approvals d' = approvals d → executions d' = executions d → tool_inv d → tool_inv d'.
Proof. intros E1 E2 [H1 H2 H3 H4 H5 H6]. constructor; rewrite ?E1, ?E2; done. Qed.

Lemma tool_inv_empty d : approvals d = [] → executions d = [] → tool_inv d.
Proof. intros E1 E2. constructor; rewrite ?E1, ?E2; try constructor; by intros ? []. Qed.

Lemma update_receipts_inv p f d d' :
  (∀ x, receipt (f x) = receipt x) → executions d' = update_where p f (executions d) →
  approvals d' = approvals d → tool_inv d → tool_inv d'.
Proof.
  intros Hf E Ea [H1 H2 H3 H4 H5 H6].
  assert (Hr : ∀ x', In x' (executions d') → ∃ x, In x (executions d) ∧ receipt x' = receipt x ∧
    x' = if p x then f x else x).
  { rewrite E. intros x' (x & Hx & ->)%in_update_where. exists x. split; [done|]. split; [|done].
    by destruct (p x). }
  constructor; rewrite ?Ea; auto.
  - rewrite E, map_update_where; [done|]. intros x. by injection (Hf x).
  - rewrite E, map_update_where; [done|]. intros x. injection (Hf x). congruence.
  - intros x' Hx' Hw. destruct (Hr x' Hx') as (x & Hx & Er & _). injection Er as E1 E2 E3 E4 E5 E6 E7 E8.
    destruct (H5 x Hx ltac:(congruence)) as (a & Ha & Hj). exists a. split; [done|].
    unfold justifies in *. intuition congruence.
  - intros x' y' Hx' Hy' Hwx Hwy Ee. destruct (Hr x' Hx') as (x & Hx & Ex & ->), (Hr y' Hy') as (y & Hy & Ey & ->).
    injection Ex as E1 E2 E3 E4 E5 E6 E7 E8. injection Ey as F1 F2 F3 F4 F5 F6 F7 F8.
    rewrite (H6 x y); auto; congruence.
Qed.

Lemma finish_failure_inv now ctx id status error d r d' :
  finish_failure now ctx id status error d = (r, d') → tool_inv d → tool_inv d'.
Proof. intros [= _ <-] Hi. by eapply (update_receipts_inv _ _ d); [|reflexivity|reflexivity|]. Qed.

Lemma commit_result_inv now ctx id result sha d r d' :
  commit_result now ctx id result sha d = (r, d') → tool_inv d → tool_inv d'.
Proof.
  unfold commit_result, try_except, tenant_session, tx, bind, sql_update, one_or_none, guard.
  cbn [rows table_executions put].
  destruct (map _ (select_where _ _)) as [|x [|y l]]; cbn; intros [= _ <-]; try done.
  intros Hi. by eapply (update_receipts_inv _ _ d); [|reflexivity|reflexivity|].
Qed.

Lemma insert_approval_inv now fresh ctx spec run arguments sha d r d' :
  insert_approval now fresh ctx spec run arguments sha d = (r, d') → tool_inv d → tool_inv d'.
Proof.
  unfold insert_approval, tenant_session, tx, run_visible, bind, sql_select, gets, guard, ret, raise.
  cbn [rows table_runs table_approvals]. destruct (negb _); [|intros [= _ <-]; done].
  destruct (order_by _ _); [|intros [= _ <-]; done].
  destruct (select_where (fun a => ta_id a =? fresh)%N _) as [|? ?] eqn:E; [|intros [= _ <-]; done].
  intros [= _ <-] [H1 H2 H3 H4 H5 H6]. constructor; cbn; auto.
  - rewrite map_app. apply (Permutation_NoDup (Permutation_cons_append _ _)). constructor; [|done].
    intros (a & Ha & Hin)%in_map_iff. pose proof (proj1 (select_where_nil _ _) E a Hin) as Hn. cbn in Ha, Hn.
    by bool_to_prop.
  - apply Forall_app. split; [done|]. constructor; [|constructor]. done.
  - intros x Hx Hw. destruct (H5 x Hx Hw) as (a & Ha & Hj). exists a. split; [|done]. apply in_app_iff. by left.
Qed.

(** Approving changes pending requests only, and never one's own. *)
Lemma write_decision_inv now ctx id approved note d r d' :
  (∀ a, In a (approvals d) → ta_id a = id → ta_requested_by a ≠ principal_uuid (principal ctx)) →
  write_decision now ctx id approved note d = (r, d') → tool_inv d → tool_inv d'.
Proof.
  intros Hself. unfold write_decision, tenant_session, tx, bind, sql_update, one_or_none, ret, raise.
  cbn [rows table_approvals put]. set (q := visible _ _). set (f := set_decided _ _ _ _).
  assert (Hstep : ∀ d1, approvals d1 = update_where q f (approvals d) → executions d1 = executions d →
    tool_inv d → tool_inv d1).
  { intros d1 E1 E2 [H1 H2 H3 H4 H5 H6]. constructor; rewrite ?E1, ?E2; auto.
    - by rewrite map_update_where.
    - rewrite List.Forall_forall in *. intros a' (a & Ha & ->)%in_update_where.
      destruct (q a) eqn:Eq; [|by apply H4]. unfold q, visible, decidable in Eq. bool_to_prop. cbn.
      split; [done|]. intros [= E]. by apply (Hself a).
    - intros x Hx Hw. destruct (H5 x Hx Hw) as (a & Ha & Hj). exists a. split; [|done].
      apply in_update_where. exists a. split; [done|]. destruct (q a) eqn:Eq; [|done].
      unfold q, visible, decidable in Eq. bool_to_prop. unfold justifies in Hj. intuition congruence. }
  destruct (map f _) as [|a [|b l]]; cbn [one_or_none].
  - intros [= _ <-]. by apply Hstep.
  - destruct (audit_in_session _ _ _ _ _ _ _ _ _) as [[h|e] d1] eqn:Ea; intros [= _ <-]; [|done].
    apply audit_in_session_only_audit in Ea. apply Hstep.
    + by rewrite (only_audit_keeps approvals _ _ Ea).
    + by rewrite (only_audit_keeps executions _ _ Ea).
  - intros [= _ <-]. done.
Qed.

Lemma decide_inv now ctx id approved note d r d' :
  decide now ctx id approved note d = (r, d') → tool_inv d → tool_inv d'.
Proof.
  unfold decide. intros E Hi. unfold bind at 1, tenant_session, tx in E.
  destruct (select_by_key_one (T := table_approvals) ta_id (visible (tenant_of ctx) (fun a => ta_id a =? id)%N) id d)
    as [[Hn Es]|(row & Hrow & Hq & Es)]; [apply Hi|intros a Ha; unfold visible in Ha; by bool_to_prop| |];
    cbv zeta in Es; rewrite Es in E.
  { by injection E as _ <-. }
  unfold visible in Hq. bool_to_prop. unfold bind at 1, guard in E.
  destruct (bool_decide (ta_status row = ap_pending)); [|by injection E as _ <-].
  unfold ret at 1 in E. unfold bind at 1, try_except in E.
  destruct (require_eq None now (principal ctx) TOOL_APPROVE None (Some (ta_requested_by row)) d)
    as [[Hp Er]|[Hp (why & Er)]]; rewrite Er in E.
  - assert (Hself : ∀ a, In a (approvals d) → ta_id a = id → ta_requested_by a ≠ principal_uuid (principal ctx)).
    { intros a Ha Hid Hself. destruct Hp as [Hp _]. apply Hp. split; [right; by left|].
      f_equal. rewrite <- Hself. f_equal. apply (key_unique ta_id (approvals d)); [apply Hi|done|done|congruence]. }
    unfold bind in E. destruct (write_decision now ctx id approved note d) as [[u|e] d1] eqn:Ew.
    + assert (d' = d1) as -> by (by destruct u as [a|]; injection E as _ <-). by eapply write_decision_inv.
    + injection E as _ <-. by eapply write_decision_inv.
  - unfold bind in E. destruct (audit_record_best_effort now ctx "tool.approval.decide" DENIED "tool_approval"
      (uuid_str id) (JObj [("reason", JStr why)]) d) as (h & d1 & Ea). rewrite Ea in E. injection E as _ <-.
    apply audit_record_only_audit in Ea. revert Hi. apply tool_inv_same.
    + by apply (only_audit_keeps approvals).
    + by apply (only_audit_keeps executions).
Qed.

(** ** Starting *)

Lemma insert_execution_eq now fresh ctx spec run approval sha key d :
  (∃ r, insert_execution now fresh ctx spec run approval sha key d = (r, d) ∧ ∀ id, r ≠ Ok (Some id)) ∨
  insert_execution now fresh ctx spec run approval sha key d =
    (Ok (Some fresh), d <| executions := executions d ++ [new_execution now fresh ctx spec run approval sha key] |>) ∧
  (∀ x, In x (executions d) → te_id x ≠ fresh ∧ (te_tenant x, te_key x) ≠ (tenant_of ctx, key)).
Proof.
  unfold insert_execution, run_visible, bind, sql_select, gets, guard, ret, raise.
  cbn [rows table_runs table_executions table_approvals]. destruct (negb _); [|left; by eexists].
  destruct (select_where (fun x => _ && _) (executions d)) as [|? ?] eqn:Ek; [|left; by eexists].
  destruct (is_none approval || _)%bool; [|left; by eexists].
  destruct (select_where (fun x => te_id x =? fresh)%N (executions d)) as [|? ?] eqn:Ei; [|left; by eexists].
  right. split; [done|]. intros x Hx.
  pose proof (proj1 (select_where_nil _ _) Ek x Hx) as Hk. pose proof (proj1 (select_where_nil _ _) Ei x Hx) as Hid.
  cbn in Hid. bool_to_prop. split; [done|]. intros [= E1 E2]. unfold with_key in Hk. cbn in Hk.
  by rewrite E1, E2, N.eqb_refl, String.eqb_refl in Hk.
Qed.

Lemma consume_inv now run approval d x a :
  let q := visible (te_tenant x) (consumable now run (te_tool x) (te_sha x) approval) in
  let d1 := d <| executions := executions d ++ [x] |>
              <| approvals := update_where q (set_consumed now) (approvals d) |> in
  tool_inv d → te_run x = run → te_approval x = approval → In a (approvals d) → q a = true →
  (∀ y, In y (executions d) → te_id y ≠ te_id x ∧ (te_tenant y, te_key y) ≠ (te_tenant x, te_key x)) →
  tool_inv d1.
Proof.
  intros q d1 [H1 H2 H3 H4 H5 H6] Hrun Hap Ha Hq Hfresh.
  assert (Hqa : te_approval x = Some (ta_id a) ∧ ta_tenant a = te_tenant x ∧ ta_run a = run ∧ ta_tool a = te_tool x ∧
    ta_sha a = te_sha x ∧ ta_status a = ap_approved ∧ ta_consumed_at a = None).
  { unfold q, visible, consumable, is_none in Hq. rewrite Hap. destruct approval; [|bool_to_prop; done].
    cbn in Hq. destruct (ta_consumed_at a); bool_to_prop; [done|]. unfold row_tenant, tenant_approval in *.
    repeat split; congruence. }
  destruct Hqa as (Q1 & Q2 & Q3 & Q4 & Q5 & Q6 & Q7).
  assert (Hnew : ∀ y, In y (executions d) → te_side_effect y = write_effect → te_approval y ≠ te_approval x).
  { intros y Hy Hw E. destruct (H5 y Hy Hw) as (b & Hb & J1 & _ & _ & _ & _ & _ & J7).
    assert (b = a) as -> by (apply (key_unique ta_id (approvals d)); auto; congruence). done. }
  constructor; cbn.
  - by rewrite map_update_where.
  - rewrite map_app. apply (Permutation_NoDup (Permutation_cons_append _ _)). constructor; [|done].
    intros (y & Ey & Hy)%in_map_iff. by destruct (Hfresh y Hy).
  - rewrite map_app. apply (Permutation_NoDup (Permutation_cons_append _ _)). constructor; [|done].
    intros (y & Ey & Hy)%in_map_iff. by destruct (Hfresh y Hy).
  - rewrite List.Forall_forall in *. intros b' (b & Hb & ->)%in_update_where. specialize (H4 b Hb). by destruct (q b).
  - intros y [Hy|[<-|[]]]%in_app_iff Hw.
    + destruct (H5 y Hy Hw) as (b & Hb & J). exists (if q b then set_consumed now b else b).
      split; [apply in_update_where; eauto|]. destruct (q b); [|done]. unfold justifies in *. cbn. intuition done.
    + exists (set_consumed now a). split; [apply in_update_where; exists a; by rewrite Hq|].
      unfold justifies. cbn. repeat split; congruence.
  - intros y z [Hy|[<-|[]]]%in_app_iff [Hz|[<-|[]]]%in_app_iff Wy Wz E; auto.
    + by apply Hnew in E.
    + symmetry in E. by apply Hnew in E.
Qed.

Lemma add_readonly_inv d x :
  tool_inv d → te_side_effect x = no_effect →
  (∀ y, In y (executions d) → te_id y ≠ te_id x ∧ (te_tenant y, te_key y) ≠ (te_tenant x, te_key x)) →
  tool_inv (d <| executions := executions d ++ [x] |>).
Proof.
  intros [H1 H2 H3 H4 H5 H6] Hn Hfresh. constructor; cbn; auto.
  - rewrite map_app. apply (Permutation_NoDup (Permutation_cons_append _ _)). constructor; [|done].
    intros (y & Ey & Hy)%in_map_iff. by destruct (Hfresh y Hy).
  - rewrite map_app. apply (Permutation_NoDup (Permutation_cons_append _ _)). constructor; [|done].
    intros (y & Ey & Hy)%in_map_iff. by destruct (Hfresh y Hy).
  - intros y [Hy|[<-|[]]]%in_app_iff Hw; [auto|congruence].
  - intros y z [Hy|[<-|[]]]%in_app_iff [Hz|[<-|[]]]%in_app_iff Wy Wz E; auto; congruence.
Qed.

Lemma valid_write_needs_approval spec :
  new_ToolSpec spec = Ok spec → ts_requires_approval spec = false → ts_side_effect spec = no_effect.
Proof.
  unfold new_ToolSpec, is_write. destruct (negb (valid_tool_name _)); [done|].
  destruct (ts_side_effect spec); [done|]. intros E Hr. by rewrite Hr in E.
Qed.

Lemma start_execution_inv now fresh ctx spec run approval sha key d r d' :
  new_ToolSpec spec = Ok spec →
  start_execution now fresh ctx spec run approval sha key d = (r, d') → tool_inv d → tool_inv d'.
Proof.
  intros Hspec. unfold start_execution, tenant_session, tx. unfold bind at 1.
  destruct (insert_execution_eq now fresh ctx spec run approval sha key d) as [(r1 & -> & Hr1)|[-> Hfresh]].
  { destruct r1 as [[id|]|e]; [by destruct (Hr1 id)| |by intros [= _ <-]].
    unfold bind, sql_select, gets. destruct (select_where _ _) as [|x [|y l]]; cbn; by intros [= _ <-]. }
  set (x := new_execution now fresh ctx spec run approval sha key) in *.
  destruct (ts_requires_approval spec) eqn:Er; cycle 1.
  { intros [= _ <-] Hi. apply add_readonly_inv; [done|by apply valid_write_needs_approval|done]. }
  unfold bind, sql_update, one_or_none. cbn [rows put table_approvals].
  set (d1 := d <| executions := executions d ++ [x] |>). change (approvals d1) with (approvals d).
  set (q := visible _ _). destruct (select_where q (approvals d)) as [|a [|b l]] eqn:E; cbn [map].
  - by intros [= _ <-].
  - intros [= _ <-] Hi. assert (Ha : In a (select_where q (approvals d))) by (rewrite E; by left).
    apply filter_In in Ha as [Ha Hq]. by apply (consume_inv now run approval d x a).
  - by intros [= _ <-].
Qed.

Lemma tool_step_inv d d' : tool_step d d' → tool_inv d → tool_inv d'.
Proof.
  intros [now fresh ctx spec run arguments sha d1 d2 r E|now ctx id ap note d1 d2 r E
    |now fresh ctx spec run ap sha key d1 d2 r Hs E|now ctx id st er d1 d2 r E|now ctx id res sha d1 d2 r E|d1 d2 E1 E2].
  - by eapply insert_approval_inv.
  - by eapply decide_inv.
  - by eapply start_execution_inv.
  - by eapply finish_failure_inv.
  - by eapply commit_result_inv.
  - by apply tool_inv_same.
Qed.

Lemma tool_reaches_inv d d' : rtc tool_step d d' → tool_inv d → tool_inv d'.
Proof. induction 1; eauto using tool_step_inv. Qed.

(** ** Calls are paths of the system *)

Definition steps {A} (m : M db A) : Prop := ∀ d, rtc tool_step d (snd (m d)).

(** Code that leaves the two tables alone. *)
Definition off_gate {A} (m : M db A) : Prop :=
  ∀ d, approvals (snd (m d)) = approvals d ∧ executions (snd (m d)) = executions d.

Lemma off_gate_steps {A} (m : M db A) : off_gate m → steps m.
Proof. intros Hm d. apply rtc_once, tool_other; apply Hm. Qed.

Lemma steps_bind {A B} (m : M db A) (k : A → M db B) : steps m → (∀ a, steps (k a)) → steps (bind m k).
Proof.
  intros Hm Hk d. specialize (Hm d). unfold bind. destruct (m d) as [[a|e] d1]; cbn in *; [|done].
  etransitivity; [exact Hm|apply Hk].
Qed.

Lemma steps_try {A} (m : M db A) h : steps m → (∀ e k, h e = Some k → steps k) → steps (try_except m h).
Proof.
  intros Hm Hh d. specialize (Hm d). unfold try_except. destruct (m d) as [[a|e] d1]; cbn in *; [done|].
  destruct (h e) as [k|] eqn:E; [|done]. etransitivity; [exact Hm|by apply (Hh e)].
Qed.

Lemma steps_ret {A} (a : A) : steps (ret a).
Proof. intros d. apply rtc_refl. Qed.

Lemma steps_raise {A} e : steps (raise (A := A) e).
Proof. intros d. apply rtc_refl. Qed.

Lemma steps_lift {A} (r : result A) : steps (lift_result r).
Proof. destruct r; intros d; apply rtc_refl. Qed.

Lemma steps_guard b e : steps (guard b e).
Proof. destruct b; intros d; apply rtc_refl. Qed.

Lemma require_same f now p c res subj d : snd (require f now p c res subj d) = d.
Proof. destruct (require_eq f now p c res subj d) as [[_ E]|[_ (why & E)]]; by rewrite E. Qed.

Lemma existing_same ctx key d : snd (existing ctx key d) = d.
Proof.
  unfold existing, tenant_session, tx, bind, sql_select, gets, one_or_none. cbn [rows table_executions].
  by destruct (select_where _ _) as [|r [|? ?]].
Qed.

Lemma steps_same {A} (m : M db A) : (∀ d, snd (m d) = d) → steps m.
Proof. intros Hm d. rewrite Hm. apply rtc_refl. Qed.

Lemma store_append_off_gate now ctx run state aw : off_gate (store_append now ctx run state aw).
Proof.
  intros d. unfold store_append. rewrite append_eq. destruct (validate_metadata _ _); [|done].
  by destruct (bounded_state _ _ _) as [[]|].
Qed.

Lemma record_outcome_off_gate now ctx o id detail : off_gate (record_outcome now ctx o id detail).
Proof.
  intros d. unfold record_outcome, bind.
  destruct (audit_record_best_effort now ctx "tool.execute" o "tool_execution" (uuid_str id) (JObj detail) d)
    as (h & d1 & E). rewrite E. cbn. apply audit_record_only_audit in E.
  split; [by apply (only_audit_keeps approvals)|by apply (only_audit_keeps executions)].
Qed.

Lemma request_approval_steps now fresh ctx spec run args sha : steps (request_approval now fresh ctx spec run args sha).
Proof.
  apply steps_bind; [|intros [id []]; apply steps_bind; intros; try apply steps_ret].
  - intros d. eapply rtc_once, tool_request. apply surjective_pairing.
  - apply off_gate_steps. intros d. unfold bind.
    destruct (audit_record_best_effort now ctx "tool.approval.request" SUCCEEDED "tool_approval" (uuid_str id)
      (JObj [("tool", JStr (ts_name spec)); ("arguments_sha256", JStr sha)]) d) as (h & d1 & E).
    rewrite E. apply audit_record_only_audit in E.
    split; [by apply (only_audit_keeps approvals)|by apply (only_audit_keeps executions)].
Qed.

Lemma finish_failure_steps now ctx id status error : steps (finish_failure now ctx id status error).
Proof. intros d. eapply rtc_once, tool_fail. apply surjective_pairing. Qed.

Lemma commit_result_steps now ctx id res sha : steps (commit_result now ctx id res sha).
Proof. intros d. eapply rtc_once, tool_commit. apply surjective_pairing. Qed.

Lemma attempt_handler_steps spec ctx args : (∀ args, steps (ts_handler spec ctx args)) → steps (attempt_handler spec ctx args).
Proof.
  intros Hh. apply steps_try; [|intros e k [= <-]; apply steps_ret].
  apply steps_bind; [apply steps_same; intros; apply cancellation_point_same|]. intros _.
  apply steps_bind; [apply Hh|]. intros [[]|]; try apply steps_ret; apply steps_raise.
Qed.

Create HintDb gate.

#[local] Hint Resolve steps_ret steps_raise steps_lift steps_guard finish_failure_steps commit_result_steps
  request_approval_steps : gate.

Lemma execute_steps done_at ctx spec run id validated :
  (∀ args, steps (ts_handler spec ctx args)) → steps (execute done_at ctx spec run id validated).
Proof.
  intros Hh. assert (Hr : ∀ o det, steps (record_outcome done_at ctx o id det))
    by (intros; apply off_gate_steps, record_outcome_off_gate).
  assert (Hs : ∀ st aw, steps (store_append done_at ctx run st aw))
    by (intros; apply off_gate_steps, store_append_off_gate).
  unfold execute. apply steps_bind; [by apply attempt_handler_steps|].
  intros [v| |e]; repeat (apply steps_bind; [auto with gate|intros ?]); auto with gate.
  destruct (_ <? _); repeat (apply steps_bind; [auto with gate|intros ?]); auto with gate.
Qed.

(** A registry as [register] builds it, of tools whose handlers touch approvals and
    receipts only by going through the runtime. *)
Definition governed (reg : registry) : Prop :=
  ∀ name spec, reg !! name = Some spec →
    new_ToolSpec spec = Ok spec ∧ ∀ ctx args, steps (ts_handler spec ctx args).

Lemma checked_call_inv now reg ctx name args run key d r d' :
  checked_call now reg ctx name args run key d = (r, d') →
  d' = d ∧ ∀ spec v sha, r = Ok (spec, v, sha) → reg !! name = Some spec.
Proof.
  unfold checked_call. intros E. unfold bind at 1 in E. pose proof (cancellation_point_same ctx d) as Hc.
  destruct (cancellation_point ctx d) as [[[]|e] d1]; cbn in Hc; subst d1; [|by injection E as <- <-].
  unfold get_tool in E. unfold bind at 1 in E. destruct (reg !! name) as [spec|] eqn:Er; cbn in E; [|by injection E as <- <-].
  unfold bind at 1 in E. pose proof (require_same None now (principal ctx) (ts_capability spec) (Some name) None d) as Hq.
  destruct (require _ _ _ _ _ _ d) as [[[]|e] d1]; cbn in Hq; subst d1; [|by injection E as <- <-].
  unfold bind, guard in E. destruct (match run_id ctx with Some _ => _ | None => _ end); [|by injection E as <- <-].
  unfold ret at 1 in E. destruct (_ && _); [|by injection E as <- <-]. unfold ret at 1 in E.
  destruct (ts_validate_arguments spec) as [f|];
    [destruct (f args) as [v|e]; cbn [lift_result] in E; [|by injection E as <- <-]|];
    unfold ret at 1 in E;
    (destruct (canonical_bytes _) as [enc|e]; cbn [lift_result] in E; [|by injection E as <- <-]);
    unfold ret at 1 in E; destruct (str_len enc <=? _); injection E as <- <-; split; try done; by intros ? ? ? [= <- <- <-].
Qed.

Lemma start_execution_steps now fresh ctx spec run ap sha key :
  new_ToolSpec spec = Ok spec → steps (start_execution now fresh ctx spec run ap sha key).
Proof. intros Hs d. eapply rtc_once, tool_start; [done|apply surjective_pairing]. Qed.

Lemma invoke_steps now done_at fa fe reg ctx name args run key ap :
  governed reg → steps (invoke now done_at fa fe reg ctx name args run key ap).
Proof.
  intros Hg d. unfold invoke, bind at 1.
  destruct (checked_call now reg ctx name args run key d) as [[[[spec v] sha]|e] d1] eqn:E;
    apply checked_call_inv in E as [-> Hspec]; [|done].
  destruct (Hg name spec (Hspec _ _ _ eq_refl)) as [Hv Hh]. revert d.
  change (steps (found <- existing ctx (durable_key key) ;;
    match found with
    | Some x => lift_result (resolve_existing x (ts_name spec) sha)
    | None => if ts_requires_approval spec && is_none ap then await_approval now fa ctx spec run v sha
              else started <- start_execution now fe ctx spec run ap sha (durable_key key) ;;
                   match started with
                   | inr raced => lift_result (resolve_existing raced (ts_name spec) sha)
                   | inl id => execute done_at ctx spec run id v
                   end
    end)).
  apply steps_bind; [apply steps_same; intros; apply existing_same|]. intros [x|]; [auto with gate|].
  destruct (ts_requires_approval spec && is_none ap).
  - apply steps_bind; [auto with gate|]. intros id. apply steps_bind; [|auto with gate].
    apply off_gate_steps, store_append_off_gate.
  - apply steps_bind; [by apply start_execution_steps|]. intros [id|x]; [by apply execute_steps|auto with gate].
Qed.

End tools.

Module ToolsDemo.
#[export] Instance env : AuditEnv := mkAuditEnv AuditDemo.sha AuditDemo.iso AuditDemo.jb None.
Definition conf : tool_settings := mkToolSettings 1000 1000 3600.
Definition noop (out : handler_result) (ctx : RequestContext) (args : json) : M db handler_result := ret out.
Definition spec (out : handler_result) : ToolSpec :=
  mkToolSpec "crm.update" "Change a record." write_effect TOOL_INVOKE_WRITE (noop out) true None None.
Definition reg (out : handler_result) : registry := <["crm.update" := spec out]> ∅.
Definition args : json := JObj [("id", JInt 7)].
Definition run1 : run := LeaseDemo.row 42 leased (Some "h:1:1") 1 (Some 100) 0 10.
Definition d0 : db := empty_db <| runs := [run1] |>.
Definition call (out : handler_result) (key : string) (ap : option uuid) : M db ToolInvocation :=
  invoke conf 10 20 500 600 (reg out) Demo.ctx "crm.update" args 42 key ap.
Definition ok : handler_result := Returned (JObj [("done", JBool true)]).
(* asked for, approved by bob, executed *)
Definition d1 : db := snd (call ok "k" None d0).
Definition d2 : db := snd (decide 12 (Demo.ctx <| principal := Demo.bob |>) 500 true None d1).
Definition d3 : db := snd (call ok "k" (Some 500%N) d2).
End ToolsDemo.

(** C2: no write without its own approval.  In every state the tool runtime can
    reach - any interleaving of requests, decisions, executions, failures and
    commits by any actors - every receipt of a write tool is justified by an
    approval of the same tenant, run, tool and argument digest that is approved, by
    somebody other than its requester, and used up; and no two receipts share one. *)
Theorem write_effects_are_approved_once `{AuditEnv} settings d0 d x :
  tool_inv d0 → rtc (tool_step settings) d0 d → In x (executions d) → te_side_effect x = write_effect →
  (∃ a by_, In a (approvals d) ∧ justifies a x ∧ ta_decided_by a = Some by_ ∧ by_ ≠ ta_requested_by a) ∧
  (∀ y, In y (executions d) → te_side_effect y = write_effect → te_approval y = te_approval x → y = x).
Proof.
  intros H0 Hr Hx Hw. destruct (tool_reaches_inv settings d0 d Hr H0) as [H1 H2 H3 H4 H5 H6]. split; [|auto].
  destruct (H5 x Hx Hw) as (a & Ha & Hj). rewrite List.Forall_forall in H4.
  destruct (H4 a Ha) as [Hd Hne]. destruct Hj as (J1 & J2 & J3 & J4 & J5 & J6 & J7).
  destruct (ta_decided_by a) as [by_|] eqn:E; [|by destruct (Hd J6)].
  exists a, by_. split; [done|]. split; [by repeat split|]. split; [done|]. congruence.
Qed.

(** Every call goes through the gate.  Whatever a caller passes - tool,
    arguments, idempotency key, approval id - [invoke] on a registry of valid tools
    is a path of the gate's transition system, whether it returns or raises, and so
    keeps its invariant. *)
Theorem invoke_goes_through_the_gate `{AuditEnv} settings now done_at fa fe reg ctx name args run key ap d :
  governed settings reg →
  let d' := snd (invoke settings now done_at fa fe reg ctx name args run key ap d) in
  rtc (tool_step settings) d d' ∧ (tool_inv d → tool_inv d').
Proof.
  intros Hg d'. assert (Hr : rtc (tool_step settings) d d') by (by apply invoke_steps).
  split; [done|]. by apply (tool_reaches_inv settings).
Qed.

Lemma demo_governed out : governed (H := ToolsDemo.env) ToolsDemo.conf (ToolsDemo.reg out).
Proof.
  intros name spec. unfold ToolsDemo.reg. rewrite lookup_insert_Some, lookup_empty.
  intros [[_ <-]|[_ E]]; [|done]. split; [reflexivity|]. intros ctx args. apply steps_ret.
Qed.

Lemma invoke_goes_through_the_gate_witness :
  rtc (tool_step (H := ToolsDemo.env) ToolsDemo.conf) ToolsDemo.d2 ToolsDemo.d3.
Proof.
  exact (proj1 (invoke_goes_through_the_gate (H := ToolsDemo.env) ToolsDemo.conf 10 20 500 600
    (ToolsDemo.reg ToolsDemo.ok) Demo.ctx "crm.update" ToolsDemo.args 42 "k" (Some 500%N) ToolsDemo.d2
    (demo_governed ToolsDemo.ok))).
Defined.

Lemma demo_path : rtc (tool_step (H := ToolsDemo.env) ToolsDemo.conf) ToolsDemo.d0 ToolsDemo.d3.
Proof.
  transitivity ToolsDemo.d1; [by apply (invoke_steps (H := ToolsDemo.env)), demo_governed|].
  transitivity ToolsDemo.d2; [|by apply (invoke_steps (H := ToolsDemo.env)), demo_governed].
  eapply rtc_once, (tool_decide (H := ToolsDemo.env)). apply surjective_pairing.
Qed.

Lemma write_effects_are_approved_once_witness :
  ∃ x a by_, In x (executions ToolsDemo.d3) ∧ In a (approvals ToolsDemo.d3) ∧ justifies a x ∧
    ta_decided_by a = Some by_ ∧ by_ ≠ ta_requested_by a.
Proof.
  eassert (Hx : In _ (executions ToolsDemo.d3)) by (vm_compute; left; reflexivity).
  destruct (write_effects_are_approved_once (H := ToolsDemo.env) ToolsDemo.conf ToolsDemo.d0 ToolsDemo.d3 _
    (tool_inv_empty ToolsDemo.d0 eq_refl eq_refl) demo_path Hx eq_refl) as [(a & by_ & Ha & Hj & Hd & Hn) _].
  eexists _, a, by_. split; [exact Hx|]. split; [exact Ha|]. split; [exact Hj|]. split; [exact Hd|exact Hn].
Defined.

(** An idempotency key buys one execution.  Once a receipt exists under a
    tenant's key, [invoke] with that key never runs a handler and changes nothing:
    it answers with the stored result if the receipt succeeded for the same tool and
    the same argument digest, and raises in every other case - also while the first
    call is still running, or after it failed. *)
Theorem invoke_never_replays `{AuditEnv} settings now done_at fa fe reg ctx name args run key ap d x :
  List.NoDup (map (fun x => (te_tenant x, te_key x)) (executions d)) →
  In x (executions d) → te_tenant x = tenant_of ctx → te_key x = durable_key key →
  ∃ r, invoke settings now done_at fa fe reg ctx name args run key ap d = (r, d) ∧
    ∀ i, r = Ok i → ∃ spec validated sha,
      checked_call settings now reg ctx name args run key d = (Ok (spec, validated, sha), d) ∧
      te_status x = ex_succeeded ∧ te_tool x = ts_name spec ∧ te_sha x = sha ∧
      i = mkInvocation (te_id x) (ts_name spec) ex_succeeded (te_result x) true.
Proof.
  intros Hnd Hx Ht Hk. unfold invoke, bind at 1.
  destruct (checked_call settings now reg ctx name args run key d) as [[[[spec v] sha]|e] d1] eqn:E;
    apply (checked_call_inv settings) in E as Hs; destruct Hs as [-> _]; [|by eexists].
  assert (Hex : existing ctx (durable_key key) d = (Ok (Some x), d)).
  { unfold existing, tenant_session, tx, bind, sql_select, gets. cbn [rows table_executions].
    rewrite (select_by_key (fun x => (te_tenant x, te_key x)) _ (executions d) x); [done|done|done| |].
    - unfold visible, with_key, row_tenant, tenant_execution. by rewrite Ht, Hk, N.eqb_refl, String.eqb_refl.
    - intros y _ Hy. unfold visible, with_key, row_tenant, tenant_execution in Hy. bool_to_prop. congruence. }
  unfold bind. rewrite Hex. exists (resolve_existing x (ts_name spec) sha). split; [by destruct (resolve_existing _ _ _)|].
  intros i. unfold resolve_existing. destruct (negb _ || negb _) eqn:Em; [done|]. bool_to_prop.
  destruct (te_status x) eqn:Est; try done. intros [= <-]. exists spec, v, sha. auto.
Qed.

Lemma invoke_never_replays_witness :
  ∃ i, invoke (H := ToolsDemo.env) ToolsDemo.conf 30 40 501 601 (ToolsDemo.reg TimedOut) Demo.ctx "crm.update"
    ToolsDemo.args 42 "k" None ToolsDemo.d3 = (Ok i, ToolsDemo.d3) ∧ ti_replayed i = true.
Proof.
  eassert (Hx : In _ (executions ToolsDemo.d3)) by (vm_compute; left; reflexivity).
  destruct (invoke_never_replays (H := ToolsDemo.env) ToolsDemo.conf 30 40 501 601 (ToolsDemo.reg TimedOut) Demo.ctx
    "crm.update" ToolsDemo.args 42 "k" None ToolsDemo.d3 _
    (List.NoDup_cons (l := []) _ (fun Hin => Hin) (List.NoDup_nil _)) Hx eq_refl eq_refl) as ([i|e] & E & Hi).
  - exists i. split; [exact E|]. destruct (Hi i eq_refl) as (? & ? & ? & _ & _ & _ & _ & ->). reflexivity.
  - exfalso. apply (f_equal fst) in E. vm_compute in E. discriminate E.
Defined.

Section outcomes.
Context `{AuditEnv}.
Variable settings : tool_settings.

(** The receipt an execution leaves, by how its handler ended. *)
Definition receipt_after (done_at : timestamp) (ctx : RequestContext) (spec : ToolSpec) (id : uuid)
    (outcome : attempt) (l : list tool_execution) : list tool_execution :=
  let q := visible (tenant_of ctx) (started_execution id) in
  let failed := failure_status (ts_side_effect spec) in
  match outcome with
  | AttemptTimedOut => update_where q (set_execution_failed failed "tool timeout" done_at) l
  | AttemptFailed e => update_where q (set_execution_failed failed (exn_class e +:+ ": " +:+ exn_str e) done_at) l
  | Finished v =>
      match canonical_bytes v with
      | Raise _ => l
      | Ok bytes =>
          if checkpoint_max_state_bytes settings <? str_len bytes
          then update_where q (set_execution_failed ex_failed "tool result exceeds retained result limit" done_at) l
          else update_where q (set_execution_succeeded (env_jsonb (canonical v)) (env_sha256 bytes) done_at) l
      end
  end.

Lemma finish_failure_eq now ctx id status error d :
  finish_failure now ctx id status error d =
  (Ok tt, d <| executions := update_where (visible (tenant_of ctx) (started_execution id))
                               (set_execution_failed status error now) (executions d) |>).
Proof. done. Qed.

Lemma commit_result_eq now ctx id v sha d x :
  List.NoDup (map te_id (executions d)) → In x (executions d) →
  visible (tenant_of ctx) (started_execution id) x = true →
  commit_result now ctx id v sha d =
  (Ok tt, d <| executions := update_where (visible (tenant_of ctx) (started_execution id))
                (set_execution_succeeded (env_jsonb (canonical v)) sha now) (executions d) |>).
Proof.
  intros Hnd Hx Hq. unfold commit_result, try_except, tenant_session, tx, bind, sql_update.
  cbn [rows put table_executions]. rewrite (select_by_key te_id _ (executions d) x); [done|done|done|done|].
  intros y _ Hy. unfold visible, started_execution in Hq, Hy. bool_to_prop. congruence.
Qed.

Lemma record_outcome_run now ctx o id detail d :
  ∃ d', record_outcome now ctx o id detail d = (Ok tt, d') ∧ executions d' = executions d.
Proof.
  pose proof (record_outcome_off_gate now ctx o id detail d) as [_ Hf]. revert Hf. unfold record_outcome, bind.
  destruct (audit_record_best_effort now ctx "tool.execute" o "tool_execution" (uuid_str id) (JObj detail) d)
    as (h & d1 & E). rewrite E. cbn. eauto.
Qed.

Lemma attempt_handler_off_gate spec ctx args :
  (∀ args, off_gate (ts_handler spec ctx args)) → off_gate (attempt_handler spec ctx args).
Proof.
  intros Hh d. unfold attempt_handler, try_except, bind.
  pose proof (cancellation_point_same ctx d) as Hc. destruct (cancellation_point ctx d) as [[u|e] d1]; cbn in Hc; subst d1;
    [|done].
  specialize (Hh args d). destruct (ts_handler spec ctx args d) as [[[[]|]|e] d1]; exact Hh.
Qed.

(** Storing the checkpoint and the audit event after the commit. *)
Lemma after_commit done_at ctx run id spec v sha d :
  let r := (store_append settings done_at ctx run
              [("phase", JStr "tool_succeeded"); ("tool_name", JStr (ts_name spec));
               ("execution_id", JStr (uuid_str id)); ("result_sha256", JStr sha)] None ;;
            record_outcome done_at ctx SUCCEEDED id [("tool", JStr (ts_name spec)); ("result_sha256", JStr sha)] ;;
            ret (mkInvocation id (ts_name spec) ex_succeeded (Some v) false)) d in
  executions (snd r) = executions d ∧
  (fst r = Ok (mkInvocation id (ts_name spec) ex_succeeded (Some v) false) ∨ ∃ e, fst r = Raise e).
Proof.
  cbv zeta. unfold bind. match goal with |- context [store_append settings done_at ctx run ?st None d] =>
    pose proof (store_append_off_gate settings done_at ctx run st None d) as [_ Hs];
    destruct (store_append settings done_at ctx run st None d) as [[c|e] d1] end; cbn [snd fst] in *; [|eauto].
  match goal with |- context [record_outcome ?n ?c ?oc ?i ?det ?d2] =>
    destruct (record_outcome_run n c oc i det d2) as (d3 & -> & E3) end. cbn. rewrite E3. auto.
Qed.

Lemma attempt_handler_ok spec ctx args d :
  ∃ outcome, fst (attempt_handler spec ctx args d) = Ok outcome.
Proof.
  unfold attempt_handler, try_except. destruct (bind _ _ d) as [[a|e] d1]; [by exists a|].
  destruct (is_timeout e); by eexists.
Qed.
End outcomes.

(** What an execution leaves behind.  For a started receipt, whatever the
    handler does: a timeout or an exception is reported as unavailable and marks
    the receipt [needs_reconciliation] if the tool writes and [failed] otherwise; a
    result within the limit is stored with its digest and returned, or an error
    after the commit is raised; a result over the limit marks even a write merely
    [failed]; and a result that is not finite JSON leaves the receipt started.  No
    other receipt changes. *)
Theorem execute_spec `{AuditEnv} settings done_at ctx spec run id validated d x :
  List.NoDup (map te_id (executions d)) → In x (executions d) →
  visible (tenant_of ctx) (started_execution id) x = true →
  (∀ args, off_gate (ts_handler spec ctx args)) →
  let outcome := fst (attempt_handler spec ctx validated d) in
  let '(r, d') := execute settings done_at ctx spec run id validated d in
  ∃ o, outcome = Ok o ∧
    executions d' = receipt_after settings done_at ctx spec id o (executions d) ∧
    match o with
    | Finished v =>
        match canonical_bytes v with
        | Ok bytes => if checkpoint_max_state_bytes settings <? str_len bytes
                      then ∃ why, r = Raise (ToolExecutionUnavailable why)
                      else r = Ok (mkInvocation id (ts_name spec) ex_succeeded (Some v) false) ∨ ∃ e, r = Raise e
        | Raise e => r = Raise e
        end
    | _ => ∃ why, r = Raise (ToolExecutionUnavailable why)
    end.
Proof.
  intros Hnd Hx Hq Hh outcome. subst outcome. unfold execute, bind at 1.
  pose proof (attempt_handler_off_gate spec ctx validated Hh d) as [_ He].
  destruct (attempt_handler_ok spec ctx validated d) as (o & Eo).
  destruct (attempt_handler spec ctx validated d) as [r1 d1]. cbn [fst snd] in *. subst r1.
  destruct o as [v| |e].
  - unfold bind at 1. destruct (canonical_bytes v) as [bytes|e] eqn:Ec; cbn [lift_result]; unfold ret at 1, raise at 1.
    2:{ exists (Finished v). cbn. by rewrite Ec. }
    destruct (checkpoint_max_state_bytes settings <? str_len bytes) eqn:El.
    { exists (Finished v). cbn. rewrite Ec, El, <- He. eauto. }
    unfold bind at 1. rewrite <- He in Hnd, Hx. rewrite (commit_result_eq done_at ctx id v _ d1 x Hnd Hx Hq).
    match goal with |- let '(_, _) := ?m ?d2 in _ => pose proof (after_commit settings done_at ctx run id spec v
      (env_sha256 bytes) d2) as Ha; destruct (m d2) as [r d3] end.
    exists (Finished v). cbn [receipt_after]. rewrite Ec, El, <- He. cbn in Ha. destruct Ha as [-> Ha]. split; [done|]. split; [done|exact Ha].
  - unfold bind at 1. rewrite finish_failure_eq. unfold bind at 1.
    match goal with |- context [record_outcome ?n ?c ?oc ?i ?det ?d2] =>
      destruct (record_outcome_run n c oc i det d2) as (d3 & -> & E3) end.
    exists AttemptTimedOut. cbn. rewrite E3, <- He. cbn. eauto.
  - unfold bind at 1. rewrite finish_failure_eq. unfold bind at 1.
    match goal with |- context [record_outcome ?n ?c ?oc ?i ?det ?d2] =>
      destruct (record_outcome_run n c oc i det d2) as (d3 & -> & E3) end.
    exists (AttemptFailed e). cbn. rewrite E3, <- He. cbn. eauto.
Qed.

Module ToolsStarted.
Definition x : tool_execution :=
  new_execution 10 600 Demo.ctx (ToolsDemo.spec TimedOut) 42 (Some 500%N) "h" "key".
Definition d : db := ToolsDemo.d2 <| executions := [x] |>.
End ToolsStarted.

Lemma execute_spec_witness :
  ∃ r d', execute (H := ToolsDemo.env) ToolsDemo.conf 20 Demo.ctx (ToolsDemo.spec TimedOut) 42 600 ToolsDemo.args
            ToolsStarted.d = (r, d') ∧
    executions d' = receipt_after (H := ToolsDemo.env) ToolsDemo.conf 20 Demo.ctx (ToolsDemo.spec TimedOut) 600
      AttemptTimedOut (executions ToolsStarted.d) ∧
    map te_status (executions d') = [ex_needs_reconciliation].
Proof.
  pose proof (execute_spec (H := ToolsDemo.env) ToolsDemo.conf 20 Demo.ctx (ToolsDemo.spec TimedOut) 42 600
    ToolsDemo.args ToolsStarted.d ToolsStarted.x (List.NoDup_cons (l := []) _ (fun Hin => Hin) (List.NoDup_nil _))
    (or_introl eq_refl) eq_refl (fun args d => conj eq_refl eq_refl)) as Hs.
  destruct (execute (H := ToolsDemo.env) ToolsDemo.conf 20 Demo.ctx (ToolsDemo.spec TimedOut) 42 600 ToolsDemo.args
    ToolsStarted.d) as [r d'].
  destruct Hs as (o & Eo & Hex & _). vm_compute in Eo. injection Eo as <-.
  exists r, d'. split; [reflexivity|]. split; [exact Hex|]. rewrite Hex. vm_compute. reflexivity.
Defined.
