(* ===== verification/Worker.v ===== *)
(** The worker: [apps/worker/runner.py], its task handlers [apps/worker/tasks.py] and
    the queue adapter [platform_core/adapters/local/celery_queue.py].

    A workload handler is a computation on the database; since other processes commit
    while it runs, what they do is part of it.  [lost] is what the heartbeat thread had
    found when the handler returned.  [now] is the time of the statements before the
    handler, [done_at] of those after it.  Process kills ([maybe_crash]) are the crash
    step of the transition system in [Lifecycle]; signals, spans and the polling sleep
    are not modelled. *)
From stdpp Require Import pretty.
From S2P Require Import Prelude Json Identity Db Leases Outbox Checkpoint.

Definition handler := RequestContext → json → M db json.

Definition workloads := gmap string handler.

Definition register_workload (name : string) (h : handler) (ws : workloads) : workloads :=
  <[name := h]> ws.

(** [INSERT INTO principal ... ON CONFLICT (tenant_id, subject) DO UPDATE SET
    actor_type = 'service' RETURNING id], the id drawn [fresh]. *)
Definition worker_row (t : uuid) (p : principal_row) : bool :=
  (pr_tenant p =? t)%N && String.eqb (pr_subject p) "service:worker".

Definition upsert_worker (fresh t : uuid) : M db uuid :=
  updated <- sql_update (worker_row t) (fun p => p <| pr_actor_type := "service" |>) ;;
  match updated with
  | p :: _ => ret (pr_id p)
  | [] =>
      sql_insert (mkPrincipalRow fresh t "service:worker" "service" ["service"] None None) ;;
      ret fresh
  end.

Definition service_principal (fresh : uuid) (tenant : Tenant) : M db Principal :=
  id <- tenant_session (upsert_worker fresh (tenant_uuid tenant)) ;;
  ret (mkPrincipal id tenant "service:worker" [SERVICE] SERVICE_ACTOR).

(** [Heartbeater._loop] at the given times: whether the lease was found lost. *)
Fixpoint beat_loop (run : LeasedRun) (lease : interval) (ticks : list timestamp) : M db bool :=
  match ticks with
  | [] => ret false
  | now :: ticks' =>
      held <- heartbeat now run lease ;;
      if (held : bool) then beat_loop run lease ticks' else ret true
  end.

Definition raise_if_lost (lost : bool) : M db unit := guard (negb lost) (TransientError None).

Inductive run_outcome :=
| NoHandler
| CancelledOutcome
| ReconciliationOutcome (step : string)
| RetryOutcome
| FailedOutcome
| LeaseLost
| SucceededOutcome (result : json)
| TenantGone
| NotAvailable.

Section worker.
Variable sha256 : string → string.
Variable checkpoint_max_state_bytes : Z.
Variable st : retry_settings.

Definition run_thread_id (run : LeasedRun) : string := "run:" +:+ uuid_str (lr_run_id run).

Definition note (now : timestamp) (ctx : RequestContext) (run : LeasedRun) (state : list (string * json))
    (aw : option string) : M db unit :=
  append sha256 checkpoint_max_state_bytes now ctx (run_thread_id run) (JObj state) aw ;; ret tt.

(** [timedelta(seconds=exc.retry_after_s)]. *)
Definition guidance (retry_after : option Q) : option interval := option_map timedelta_seconds retry_after.

(** Give the lease up as the attempt's exception demands, after noting the phase. *)
Definition on_exception (done_at : timestamp) (rnd : Q) (ctx : RequestContext) (run : LeasedRun) (e : exn)
    : M db run_outcome :=
  match e with
  | RunCancelled =>
      try_finally (note done_at ctx run [("phase", JStr "cancelled")] None)
        (acknowledge_cancellation done_at run ;; ret tt) ;;
      ret CancelledOutcome
  | NeedsReconciliation step _ =>
      try_finally
        (note done_at ctx run [("phase", JStr "needs_reconciliation"); ("step", JStr step)] (Some "reconciliation"))
        (fail st done_at rnd run (exn_str e) false None ;; ret tt) ;;
      ret (ReconciliationOutcome step)
  | TransientError retry_after =>
      try_finally
        (note done_at ctx run [("phase", JStr "retry_pending"); ("error_type", JStr "TransientError")] (Some "retry"))
        (fail st done_at rnd run (exn_str e) true (guidance retry_after) ;; ret tt) ;;
      ret RetryOutcome
  | _ =>
      try_finally
        (note done_at ctx run [("phase", JStr "failed"); ("error_type", JStr (exn_class e))] None)
        (fail st done_at rnd run (exn_class e +:+ ": " +:+ exn_str e) false None ;; ret tt) ;;
      ret FailedOutcome
  end.

(** The handler between its two cancellation points, as a value. *)
Definition run_handler (h : handler) (lost : bool) (ctx : RequestContext) (input : json)
    : M db (json + exn) :=
  try_except
    (cancellation_point ctx ;;
     result <- h ctx input ;;
     cancellation_point ctx ;;
     raise_if_lost lost ;;
     ret (inl result))
    (fun e => Some (ret (inr e))).

(** [result or {}] sees only None and the empty dict as false here. *)
Definition result_or (result : json) : option json :=
  match result with JNull => None | v => Some v end.

Definition finish (done_at : timestamp) (ctx : RequestContext) (run : LeasedRun) (result : json)
    : M db run_outcome :=
  note done_at ctx run
    [("phase", JStr "handler_completed");
     ("result_sha256", JStr (sha256 (utf8 (dumps_default (canonical result)))))] None ;;
  done <- complete done_at run (result_or result) ;;
  if (done : bool) then
    note done_at ctx run [("phase", JStr "run_succeeded")] None ;;
    ret (SucceededOutcome result)
  else ret LeaseLost.

Definition worker_context (p : Principal) (run : LeasedRun) (request : uuid) (now : timestamp) : RequestContext :=
  mkContext p request (Some (lr_run_id run)) None None None now
    (<["workload" := lr_workload run]> (<["task" := lr_workload run]> ∅)).

Definition execute_leased (now done_at : timestamp) (rnd : Q) (fresh request : uuid) (lost : bool)
    (ws : workloads) (run : LeasedRun) : M db run_outcome :=
  match ws !! lr_workload run with
  | None =>
      fail st now rnd run ("no handler for workload '" +:+ lr_workload run +:+ "'") false None ;;
      ret NoHandler
  | Some h =>
      p <- service_principal fresh (lr_tenant run) ;;
      let ctx := worker_context p run request now in
      note now ctx run
        [("phase", JStr "run_started"); ("workload", JStr (lr_workload run)); ("attempt", JInt (lr_attempt run))] None ;;
      ended <- run_handler h lost ctx (lr_input run) ;;
      match ended with
      | inr e => on_exception done_at rnd ctx run e
      | inl result => finish done_at ctx run result
      end
  end.

Definition execute_one (now done_at : timestamp) (rnd : Q) (fresh request : uuid) (lost : bool)
    (ws : workloads) (locked : uuid → bool) (tenant : Tenant) (wid : string)
    : M db (option run_outcome) :=
  leased <- acquire now locked tenant wid None DEFAULT_LEASE ;;
  match leased with
  | None => ret None
  | Some run =>
      outcome <- execute_leased now done_at rnd fresh request lost ws run ;;
      ret (Some outcome)
  end.

(** * Tasks *)

(** [_tenant]: the row behind a queue pointer. *)
Definition tenant_for (t : uuid) : M db (option Tenant) :=
  found <- sql_select (fun r => tn_id r =? t)%N ;;
  row <- one_or_none found ;;
  match row with
  | None => ret None
  | Some r => tenant <- lift_result (new_Tenant (tn_id r) (tn_slug r)) ;; ret (Some tenant)
  end.

(** One delivered pointer. *)
Definition execute_run (now done_at : timestamp) (rnd : Q) (fresh request : uuid) (lost : bool)
    (ws : workloads) (tenant_id run_id : uuid) (wid : string) : M db run_outcome :=
  found <- tenant_for tenant_id ;;
  match found with
  | None => ret TenantGone
  | Some tenant =>
      leased <- acquire_specific now tenant run_id wid DEFAULT_LEASE ;;
      match leased with
      | None => ret NotAvailable
      | Some run => execute_leased now done_at rnd fresh request lost ws run
      end
  end.

(** The polling worker: one run of each tenant with work, per pass. *)
Definition has_work (now : timestamp) (r : run) : bool :=
  bool_decide (r_status r = pending) && (r_attempt r <? r_max_attempts r)
  && (r_available_at r <=? now) && is_none (r_cancel_requested_at r).

Definition tenants_with_work (now : timestamp) (d : db) : list uuid :=
  firstn 50 (order_by N.leb
    (select_where (fun t => existsb (fun r => tn_id r =? t)%N (tenants d))
       (nodup N.eq_dec (map r_tenant (select_where (has_work now) (runs d)))))).

(** * The sweep *)

Definition LOST_POINTER_AFTER : interval := seconds 45.

(** Claimable, and no pointer in flight that could still reach a worker. *)
Definition stranded (now : timestamp) (r : run) : bool :=
  has_work now r &&
  match r_last_enqueued_at r with
  | None => true
  | Some t => (r_attempt r =? 0) && (t <? now - LOST_POINTER_AFTER)
              || (0 <? r_attempt r) && (t <? r_available_at r)
  end.

Fixpoint index_of (id : uuid) (l : list run) : Z :=
  match l with
  | [] => 0
  | r :: l' => if (r_id r =? id)%N then 0 else 1 + index_of id l'
  end.

(** [row_number() OVER (PARTITION BY tenant_id ORDER BY priority DESC, available_at,
    created_at)]; rows it does not separate are numbered in their physical order. *)
Definition sweep_position (rs : list run) (r : run) : Z :=
  1 + index_of (r_id r) (order_by claim_order (select_where (fun x => r_tenant x =? r_tenant r)%N rs)).

Definition sweep_order (rs : list run) (a b : run) : bool :=
  if sweep_position rs a =? sweep_position rs b then r_available_at a <=? r_available_at b
  else sweep_position rs a <? sweep_position rs b.

Definition stranded_batch (now : timestamp) (d : db) : list run :=
  let rs := select_where (stranded now) (runs d) in
  firstn 100 (order_by (sweep_order rs) rs).

Variable publish : run → result unit.

(** One stranded run: mark it only if the broker accepted the pointer. *)
Definition republish_one (now : timestamp) (r : run) : M db bool :=
  match publish r with
  | Raise _ => ret false
  | Ok _ =>
      relay_session (sql_update (fun x => r_id x =? r_id r)%N (mark_enqueued now) ;; ret true)
  end.

Fixpoint republish (now : timestamp) (rs : list run) : M db Z :=
  match rs with
  | [] => ret 0
  | r :: rs' =>
      ok <- republish_one now r ;;
      n <- republish now rs' ;;
      ret (if ok then n + 1 else n)
  end.

(** The correctness part of [sweep]: how many leases were reaped and how many
    pointers sent again. *)
Definition sweep (now : timestamp) (rnd : uuid → Q) : M db (Z * Z) :=
  reaped <- reap_expired st now rnd 0 ;;
  batch <- relay_session (gets (stranded_batch now)) ;;
  n <- republish now batch ;;
  ret (count reaped, n).

(** * Depth of the queue *)

Definition depth (now : timestamp) (workload : option string) (d : db) : Z * Q :=
  let rows := select_where (fun r => bool_decide (r_status r = pending) && (r_available_at r <=? now)
                && is_none (r_cancel_requested_at r)
                && match workload with None => true | Some w => String.eqb (r_workload r) w end) (runs d) in
  (count rows,
   match map r_created_at rows with
   | [] => 0%Q
   | c :: cs => ((now - foldr Z.min c cs) # 1000000)%Q
   end).

(** * Lemmas *)

(** ** Settling a run *)

Definition failed_row (done_at : timestamp) (rnd : Q) (run : LeasedRun) (error : string) (retryable : bool)
    (retry_after : option interval) : Db.run → Db.run :=
  let terminal := is_terminal run retryable in
  set_failed done_at (str_take 4000 error) terminal
    (if terminal then 0 else retry_delay st (lr_attempt run) retry_after rnd).

(** What happens to the row a worker holds, by how its handler ended. *)
Definition settled_row (done_at : timestamp) (rnd : Q) (run : LeasedRun) (ended : json + exn) (r : Db.run)
    : Db.run :=
  match ended with
  | inl v => if not_cancelling r then set_succeeded done_at (coalesce (result_or v) (JObj [])) r else r
  | inr RunCancelled => if not_cancelling r then r else set_cancelled done_at r
  | inr (NeedsReconciliation step n) =>
      failed_row done_at rnd run (exn_str (NeedsReconciliation step n)) false None r
  | inr (TransientError after) => failed_row done_at rnd run (exn_str (TransientError after)) true (guidance after) r
  | inr e => failed_row done_at rnd run (exn_class e +:+ ": " +:+ exn_str e) false None r
  end.

Definition settled (done_at : timestamp) (rnd : Q) (run : LeasedRun) (ended : json + exn) (rs : list Db.run)
    : list Db.run :=
  update_where (visible (tenant_uuid (lr_tenant run)) (held_by run)) (settled_row done_at rnd run ended) rs.

Lemma fenced_runs run p f d :
  List.NoDup (map r_id (runs d)) → (∀ r, p r = true → held_by run r = true) →
  ∃ b, fenced run p f d = (Ok b, with_runs d (update_where (visible (tenant_uuid (lr_tenant run)) p) f (runs d))).
Proof.
  intros Hnd Hp. destruct (fenced_cases run p f d Hnd Hp) as [[Hno E]|(r & _ & _ & E)]; rewrite E; [|by eexists].
  exists false. rewrite update_where_id by done. by destruct d.
Qed.

(** A fenced write on part of the held rows, as one on all of them. *)
Lemma fenced_settles run p f g d :
  List.NoDup (map r_id (runs d)) → (∀ r, p r = true → held_by run r = true) →
  (∀ r, held_by run r = true → g r = if p r then f r else r) →
  ∃ b, fenced run p f d = (Ok b, with_runs d
    (update_where (visible (tenant_uuid (lr_tenant run)) (held_by run)) g (runs d))).
Proof.
  intros Hnd Hp Hg. destruct (fenced_runs run p f d Hnd Hp) as [b ->]. exists b. do 2 f_equal.
  unfold update_where. apply map_ext. intros r. unfold visible.
  destruct (row_tenant r =? _)%N; cbn [andb]; [|done].
  destruct (held_by run r) eqn:Eh; [by rewrite Hg|].
  destruct (p r) eqn:Ep; [|done]. apply Hp in Ep. congruence.
Qed.

Lemma note_runs now ctx run state aw d : runs (snd (note now ctx run state aw d)) = runs d.
Proof.
  unfold note, bind. rewrite append_eq. destruct (validate_metadata _ _); [|done].
  by destruct (bounded_state _ _ _) as [[]|].
Qed.

(** Whatever becomes of the checkpoint, the lease operation runs. *)
Lemma try_note now ctx run state aw (m : M db bool) (o : run_outcome) d rs :
  (∀ d1, runs d1 = runs d → ∃ b d2, m d1 = (Ok b, d2) ∧ runs d2 = rs) →
  ∃ r d', (try_finally (note now ctx run state aw) (m ;; ret tt) ;; ret o) d = (r, d') ∧ runs d' = rs ∧
          (r = Ok o ∨ ∃ e, r = Raise e).
Proof.
  intros Hm. unfold bind at 1, try_finally. pose proof (note_runs now ctx run state aw d) as Hn.
  destruct (note now ctx run state aw d) as [r d1]. cbn in Hn. destruct (Hm d1 Hn) as (b & d2 & E & Hr).
  unfold bind. rewrite E. cbn. destruct r; eexists _, _; (split; [reflexivity|]); eauto.
Qed.

Lemma fail_settles done_at rnd run error retryable after d :
  List.NoDup (map r_id (runs d)) →
  ∃ b d', fail st done_at rnd run error retryable after d = (Ok b, d') ∧
    runs d' = update_where (visible (tenant_uuid (lr_tenant run)) (held_by run))
                (failed_row done_at rnd run error retryable after) (runs d).
Proof.
  intros Hnd. destruct (fenced_runs run (held_by run) (failed_row done_at rnd run error retryable after) d Hnd
    ltac:(done)) as [b E]. exists b. eexists. split; [exact E|done].
Qed.

Definition outcome_of (e : exn) : run_outcome :=
  match e with
  | RunCancelled => CancelledOutcome
  | NeedsReconciliation step _ => ReconciliationOutcome step
  | TransientError _ => RetryOutcome
  | _ => FailedOutcome
  end.

Lemma on_exception_settles done_at rnd ctx run e d :
  List.NoDup (map r_id (runs d)) →
  ∃ r d', on_exception done_at rnd ctx run e d = (r, d') ∧
    runs d' = settled done_at rnd run (inr e) (runs d) ∧ (r = Ok (outcome_of e) ∨ ∃ e', r = Raise e').
Proof.
  intros Hnd. unfold on_exception.
  assert (Hf : ∀ error retryable after state aw (o : run_outcome), settled done_at rnd run (inr e) (runs d) =
      update_where (visible (tenant_uuid (lr_tenant run)) (held_by run))
        (failed_row done_at rnd run error retryable after) (runs d) →
    ∃ r d', (try_finally (note done_at ctx run state aw)
      (fail st done_at rnd run error retryable after ;; ret tt) ;; ret o) d = (r, d') ∧
      runs d' = settled done_at rnd run (inr e) (runs d) ∧ (r = Ok o ∨ ∃ e', r = Raise e')).
  { intros error retryable after state aw o Es. apply try_note. intros d1 E1.
    destruct (fail_settles done_at rnd run error retryable after d1) as (b & d2 & E & Er); [by rewrite E1|].
    exists b, d2. split; [done|]. by rewrite Er, E1, Es. }
  destruct e; lazymatch goal with
    | |- context [settled _ _ _ (inr RunCancelled) _] => clear Hf
    | |- context [settled _ _ _ (inr (NeedsReconciliation ?s ?n)) _] =>
        exact (Hf (exn_str (NeedsReconciliation s n)) false None _ _ _ eq_refl)
    | |- context [settled _ _ _ (inr (TransientError ?after)) _] =>
        exact (Hf (exn_str (TransientError after)) true (guidance after) _ _ _ eq_refl)
    | |- context [settled _ _ _ (inr ?e) _] =>
        exact (Hf (exn_class e +:+ ": " +:+ exn_str e) false None _ _ _ eq_refl)
    end.
  apply try_note. intros d1 E1.
  destruct (fenced_settles run (fun r => held_by run r && is_some (r_cancel_requested_at r)) (set_cancelled done_at)
    (settled_row done_at rnd run (inr RunCancelled)) d1) as [b E].
  - by rewrite E1.
  - intros r Hr. by bool_to_prop.
  - intros r Hh. cbn. unfold not_cancelling, is_none. rewrite Hh. by destruct (r_cancel_requested_at r).
  - exists b. eexists. split; [exact E|]. cbn. by rewrite E1.
Qed.

Lemma finish_settles done_at rnd ctx run v d :
  List.NoDup (map r_id (runs d)) →
  ∃ r d', finish done_at ctx run v d = (r, d') ∧
    (runs d' = settled done_at rnd run (inl v) (runs d) ∧ (r = Ok (SucceededOutcome v) ∨ r = Ok LeaseLost ∨ ∃ e, r = Raise e)
     ∨ runs d' = runs d ∧ ∃ e, r = Raise e).
Proof.
  intros Hnd. unfold finish, bind at 1.
  match goal with |- context [note done_at ctx run ?state None d] =>
    pose proof (note_runs done_at ctx run state None d) as Hn; destruct (note done_at ctx run state None d) as [[[]|e] d1] end;
    cbn in Hn; [|eexists _, _; split; [reflexivity|]; right; eauto].
  destruct (fenced_settles run (fun r => held_by run r && not_cancelling r)
    (set_succeeded done_at (coalesce (result_or v) (JObj []))) (settled_row done_at rnd run (inl v)) d1) as [b E].
  - by rewrite Hn.
  - intros r Hr. by bool_to_prop.
  - intros r Hh. cbn. by rewrite Hh.
  - unfold bind at 1, complete. rewrite E. destruct b.
    + unfold bind at 1. match goal with |- context [note done_at ctx run ?state None ?d2] =>
        pose proof (note_runs done_at ctx run state None d2) as Hn2; destruct (note done_at ctx run state None d2) as [[[]|e] d3] end;
        cbn in Hn2; eexists _, _; (split; [reflexivity|]); left; (split; [unfold settled; by rewrite Hn2, Hn|eauto]).
    + eexists _, _. split; [reflexivity|]. left. split; [unfold settled; cbn; by rewrite Hn|]. right. by left.
Qed.

Lemma service_principal_runs fresh tenant d :
  ∃ p d', service_principal fresh tenant d = (Ok p, d') ∧ runs d' = runs d ∧ principal_tenant p = tenant ∧
    roles p = [SERVICE].
Proof.
  unfold service_principal, upsert_worker, tenant_session, tx, bind, sql_update, sql_insert, modify, ret.
  cbn [rows put table_principals].
  destruct (map _ (select_where (worker_row (tenant_uuid tenant)) (principals d))) as [|x l];
    eexists _, _; (split; [reflexivity|]); by repeat split.
Qed.

(** ** Delivery *)

Lemma tenant_for_cases t d :
  List.NoDup (map tn_id (tenants d)) →
  (∀ r, In r (tenants d) → ∃ tenant, new_Tenant (tn_id r) (tn_slug r) = Ok tenant) →
  tenant_for t d = (Ok None, d) ∨ ∃ tenant, tenant_for t d = (Ok (Some tenant), d) ∧ tenant_uuid tenant = t.
Proof.
  intros Hids Hok. unfold tenant_for. rewrite bind_assoc_eq.
  destruct (select_by_key_one (T := table_tenants) tn_id (fun r => tn_id r =? t)%N t d Hids)
    as [[_ E]|(r & Hr & Ht & E)]; [intros r Hr; by bool_to_prop| |]; cbv zeta in E;
    rewrite (run_bind _ _ _ _ _ E).
  - by left.
  - right. destruct (Hok r Hr) as (tenant & Et). exists tenant. unfold bind. rewrite Et. split; [done|].
    bool_to_prop. unfold new_Tenant in Et. destruct (_ && _) in Et; [|done]. by injection Et as <-.
Qed.

(** ** The sweep *)

Lemma reap_ids now rnd d :
  ∃ rows d1, reap_expired st now rnd 0 d = (Ok rows, d1) ∧ map r_id (runs d1) = map r_id (runs d).
Proof.
  rewrite reap_expired_eq. eexists _, _. split; [reflexivity|]. cbn. by rewrite map_update_where.
Qed.

Definition accepts (b : Db.run) : bool := match publish b with Ok _ => true | Raise _ => false end.

Definition accepted_in (bs : list Db.run) (r : Db.run) : bool :=
  existsb (fun b => (r_id b =? r_id r)%N && accepts b) bs.

Lemma republish_eq now bs d :
  ∃ d', republish now bs d = (Ok (count (List.filter accepts bs)), d') ∧
    runs d' = update_where (accepted_in bs) (mark_enqueued now) (runs d).
Proof.
  revert d. induction bs as [|b bs IH]; intros d; cbn [republish List.filter].
  - exists d. split; [done|]. symmetry. by apply update_where_id.
  - destruct (publish b) as [u|e] eqn:Ep.
    + set (d1 := d <| runs := update_where (fun x => r_id x =? r_id b)%N (mark_enqueued now) (runs d) |>).
      assert (Hone : republish_one now b d = (Ok true, d1)) by (unfold republish_one; by rewrite Ep).
      destruct (IH d1) as (d' & E & Er). rewrite (run_bind _ _ _ _ _ Hone), (run_bind _ _ _ _ _ E).
      assert (Ha : accepts b = true) by (unfold accepts; by rewrite Ep).
      exists d'. rewrite Ha. split; [unfold count, ret; cbn [length]; do 2 f_equal; lia|].
      rewrite Er. change (runs d1) with (update_where (fun x => r_id x =? r_id b)%N (mark_enqueued now) (runs d)).
      rewrite update_where_twice by done. apply update_where_ext. intros x _. split; [|done].
      unfold accepted_in. cbn [existsb]. by rewrite Ha, andb_true_r, N.eqb_sym.
    + destruct (IH d) as (d' & E & Er).
      assert (Hone : republish_one now b d = (Ok false, d)) by (unfold republish_one; by rewrite Ep).
      rewrite (run_bind _ _ _ _ _ Hone), (run_bind _ _ _ _ _ E). assert (Ha : accepts b = false) by (unfold accepts; by rewrite Ep).
      exists d'. rewrite Ha. split; [done|]. rewrite Er. apply update_where_ext. intros x _. split; [|done]. unfold accepted_in.
      cbn [existsb]. by rewrite Ha, andb_false_r.
Qed.

Lemma in_stranded_batch now d r :
  In r (runs d) → stranded now r = true → (length (select_where (stranded now) (runs d)) <= 100)%nat →
  In r (stranded_batch now d).
Proof.
  intros Hr Hs Hlen. unfold stranded_batch. rewrite firstn_all2.
  - apply in_order_by, filter_In. done.
  - by rewrite (Permutation_length (order_by_perm _ _)).
Qed.

Lemma stranded_batch_subset now d r : In r (stranded_batch now d) → In r (runs d).
Proof. intros Hr. by apply firstn_subset, in_order_by, filter_In in Hr as [Hr _]. Qed.

(** A run just marked is not stranded: its pointer is newer than it is due. *)
Lemma mark_not_stranded now r : stranded now (mark_enqueued now r) = false.
Proof.
  unfold stranded, has_work, mark_enqueued, LOST_POINTER_AFTER, seconds. cbn.
  destruct (r_available_at r <=? now) eqn:Ea; rewrite ?andb_false_r; [|done]. bool_to_prop.
  assert ((now <? now - 45 * 1000000) = false) as -> by (apply Z.ltb_ge; lia).
  assert ((now <? r_available_at r) = false) as -> by (apply Z.ltb_ge; lia).
  by rewrite !andb_false_r.
Qed.

Lemma run_handler_total h lost ctx input d : ∃ ended d', run_handler h lost ctx input d = (Ok ended, d').
Proof. unfold run_handler, try_except. destruct (bind _ _ d) as [[a|e] d1]; by eexists _, _. Qed.

End worker.

Module WorkerDemo.
Definition sha (s : string) : string := s.
Definition conf : retry_settings := LeaseDemo.st.
Definition row : run := LeaseDemo.row 42 pending None 0 None 0 10.
Definition d0 : db := empty_db <| runs := [row] |> <| tenants := [mkTenantRow 1 "acme" None None] |>.
Definition returns (v : json) : handler := fun _ _ => ret v.
Definition raises (e : exn) : handler := fun _ _ => raise e.
Definition ws (h : handler) : workloads := register_workload "echo" h ∅.
Definition lease1 : LeasedRun := mkLeased 42 Demo.tenant_a "echo" (JObj []) 1 3 "w1" 60000010.
Definition leased_db : db := snd (acquire_specific 10 Demo.tenant_a 42 "w1" DEFAULT_LEASE d0).
Definition deliver (h : handler) (d : db) : result run_outcome * db :=
  execute_run sha 1000 conf 10 20 (1 # 2) 900 901 false (ws h) 1 42 "w1" d.
End WorkerDemo.

Lemma worker_demo_ids d ctx d0 d1 r1 :
  List.NoDup (map r_id (runs d)) → runs d0 = runs d →
  run_handler (WorkerDemo.raises RunCancelled) false ctx (JObj []) d0 = (r1, d1) → List.NoDup (map r_id (runs d1)).
Proof.
  intros Hnd E. unfold run_handler, try_except, bind, WorkerDemo.raises, raise.
  assert (Hc : snd (cancellation_point ctx d0) = d0).
  { unfold cancellation_point. destruct (run_id ctx); [|done].
    unfold bind, tenant_session, tx, sql_select, gets, one_or_none. cbn [rows table_runs].
    destruct (select_where _ _) as [|x [|? ?]]; cbn; try done. by destruct (_ || _). }
  destruct (cancellation_point ctx d0) as [[u|e] d2]; cbn in Hc; subst d2; intros [= _ <-]; by rewrite E.
Qed.

(** A worker settles exactly what it holds.  However its handler ends - a result,
    a cancellation, a step that needs reconciliation, a transient failure, any other
    exception - the run's row goes from the state the handler left to the one that
    ending calls for, if and only if this worker still holds its lease: otherwise no
    row changes.  A checkpoint that cannot be written does not stop a failed or
    cancelled attempt from giving its lease up; on the success path it leaves the
    run leased, for the reaper. *)
Theorem worker_settles_what_it_holds sha256 limit st now done_at rnd fresh request lost ws run h d r d' :
  ws !! lr_workload run = Some h →
  (∀ ctx d0 d1 r1, runs d0 = runs d → run_handler h lost ctx (lr_input run) d0 = (r1, d1) → List.NoDup (map r_id (runs d1))) →
  execute_leased sha256 limit st now done_at rnd fresh request lost ws run d = (r, d') →
  (runs d' = runs d ∧ ∃ e, r = Raise e) ∨
  ∃ ctx d0 d1 ended, tenant_of ctx = tenant_uuid (lr_tenant run) ∧ run_id ctx = Some (lr_run_id run) ∧
    runs d0 = runs d ∧ run_handler h lost ctx (lr_input run) d0 = (Ok ended, d1) ∧
    match ended with
    | inr e => runs d' = settled st done_at rnd run ended (runs d1) ∧ (r = Ok (outcome_of e) ∨ ∃ e', r = Raise e')
    | inl v => runs d' = settled st done_at rnd run ended (runs d1) ∧
                 (r = Ok (SucceededOutcome v) ∨ r = Ok LeaseLost ∨ ∃ e, r = Raise e)
               ∨ runs d' = runs d1 ∧ ∃ e, r = Raise e
    end.
Proof.
  intros Hw Hids. unfold execute_leased. rewrite Hw. unfold bind at 1.
  destruct (service_principal_runs fresh (lr_tenant run) d) as (p & d0 & -> & E0 & Ep & _).
  set (ctx := worker_context p run request now). unfold bind at 1.
  match goal with |- context [note sha256 limit now ctx run ?state None d0] =>
    pose proof (note_runs sha256 limit now ctx run state None d0) as Hn;
    destruct (note sha256 limit now ctx run state None d0) as [[[]|e] d2] end; cbn in Hn.
  2:{ intros [= <- <-]. left. split; [congruence|eauto]. }
  unfold bind at 1. destruct (run_handler_total h lost ctx (lr_input run) d2) as (ended & d1 & Eh).
  rewrite Eh. intros E. right. exists ctx, d2, d1, ended.
  assert (Hnd : List.NoDup (map r_id (runs d1))) by (eapply Hids; [|exact Eh]; congruence).
  split; [unfold tenant_of, ctx_tenant; cbn; by rewrite Ep|]. split; [done|]. split; [congruence|]. split; [done|].
  destruct ended as [v|e].
  - destruct (finish_settles sha256 limit st done_at rnd ctx run v d1 Hnd) as (r1 & d3 & E1 & H1).
    rewrite E1 in E. injection E as <- <-. exact H1.
  - destruct (on_exception_settles sha256 limit st done_at rnd ctx run e d1 Hnd) as (r1 & d3 & E1 & H1).
    rewrite E1 in E. injection E as <- <-. exact H1.
Qed.

Lemma worker_settles_what_it_holds_witness :
  ∃ d', execute_leased WorkerDemo.sha 1000 WorkerDemo.conf 10 20 (1 # 2) 900 901 false
      (WorkerDemo.ws (WorkerDemo.raises RunCancelled)) WorkerDemo.lease1 WorkerDemo.leased_db = (Ok CancelledOutcome, d') ∧
    map r_status (runs d') = [leased].
Proof.
  destruct (execute_leased WorkerDemo.sha 1000 WorkerDemo.conf 10 20 (1 # 2) 900 901 false
    (WorkerDemo.ws (WorkerDemo.raises RunCancelled)) WorkerDemo.lease1 WorkerDemo.leased_db) as [r d'] eqn:E.
  destruct (worker_settles_what_it_holds WorkerDemo.sha 1000 WorkerDemo.conf 10 20 (1 # 2) 900 901 false
    (WorkerDemo.ws (WorkerDemo.raises RunCancelled)) WorkerDemo.lease1 (WorkerDemo.raises RunCancelled) WorkerDemo.leased_db
    r d' eq_refl (fun ctx d0 d1 r1 => worker_demo_ids WorkerDemo.leased_db ctx d0 d1 r1
      (List.NoDup_cons (l := []) _ (fun Hin => Hin) (List.NoDup_nil _))) E) as [[_ (e & Er)]|(ctx & d0 & d1 & ended & _ & _ & E0 & Eh & H)].
  - exfalso. subst r. vm_compute in E. discriminate E.
  - exists d'. split.
    + apply (f_equal fst) in E. vm_compute in E. by rewrite <- E.
    + apply (f_equal snd) in E. cbn [snd] in E. rewrite <- E. vm_compute. reflexivity.
Defined.

(** A duplicate delivery is harmless.  A pointer to a run that is not claimable -
    leased, finished, cancelled, not yet due, out of attempts, of another tenant, or
    unknown - or to a tenant that is gone is dropped with the database unchanged. *)
Theorem duplicate_delivery_is_harmless sha256 limit st now done_at rnd fresh request lost ws tenant_id id wid d :
  List.NoDup (map r_id (runs d)) → List.NoDup (map tn_id (tenants d)) →
  (∀ t, In t (tenants d) → ∃ tenant, new_Tenant (tn_id t) (tn_slug t) = Ok tenant) →
  (∀ r, In r (runs d) → r_id r = id → r_tenant r = tenant_id → claimable now r = false) →
  ∃ o, execute_run sha256 limit st now done_at rnd fresh request lost ws tenant_id id wid d = (Ok o, d) ∧
    (o = TenantGone ∨ o = NotAvailable).
Proof.
  intros Hids Htids Hok Hno. unfold execute_run, bind at 1.
  destruct (tenant_for_cases tenant_id d Htids Hok) as [->|(tenant & -> & Et)]; [eauto|].
  unfold bind. destruct (acquire_specific_cases now tenant id wid DEFAULT_LEASE d Hids) as [[_ ->]|(r & Hr & Hs & _)]; [eauto|].
  unfold specific, visible in Hs. bool_to_prop. exfalso.
  assert (claimable now r = false) by (apply Hno; [done|done|unfold row_tenant, tenant_run in *; congruence]). congruence.
Qed.

Lemma duplicate_delivery_is_harmless_witness :
  ∃ o, WorkerDemo.deliver (WorkerDemo.returns JNull) WorkerDemo.leased_db = (Ok o, WorkerDemo.leased_db) ∧
    (o = TenantGone ∨ o = NotAvailable).
Proof.
  apply (duplicate_delivery_is_harmless WorkerDemo.sha 1000 WorkerDemo.conf 10 20 (1 # 2) 900 901 false
    (WorkerDemo.ws (WorkerDemo.returns JNull)) 1 42 "w1" WorkerDemo.leased_db).
  - exact (List.NoDup_cons (l := []) _ (fun Hin => Hin) (List.NoDup_nil _)).
  - exact (List.NoDup_cons (l := []) _ (fun Hin => Hin) (List.NoDup_nil _)).
  - intros t [<-|[]]. eexists. vm_compute. reflexivity.
  - intros r [<-|[]] _ _. vm_compute. reflexivity.
Defined.

Lemma not_stranded_pointed now r : stranded now r = false → claimable now r = true →
  ∃ t, r_last_enqueued_at r = Some t ∧ (r_attempt r = 0 → now - LOST_POINTER_AFTER <= t) ∧
       (0 < r_attempt r → r_available_at r <= t).
Proof.
  intros Hs Hc. assert (Hw : has_work now r = true) by (unfold has_work, claimable in *; rewrite !andb_true_iff in *; tauto).
  unfold stranded in Hs. rewrite Hw in Hs. cbn [andb] in Hs.
  destruct (r_last_enqueued_at r) as [t|]; [|done]. exists t. split; [done|].
  apply orb_false_iff in Hs as [H1 H2]. split; intros Ha.
  - rewrite Ha in H1. cbn [andb Z.eqb] in H1. by apply Z.ltb_ge.
  - rewrite (proj2 (Z.ltb_lt _ _) Ha) in H2. cbn [andb] in H2. by apply Z.ltb_ge.
Qed.

(** C17: the sweep is a complete backstop.  It reaps, then marks as enqueued exactly
    the stranded runs of its batch the broker accepted, changing nothing else; and if
    the broker accepts and at most a hundred runs are stranded, then afterwards every
    run that could be leased has had a pointer published: within the last interval when
    it is waiting for its first attempt, since it became available otherwise. *)
Theorem sweep_spec st publish now rnd d :
  List.NoDup (map r_id (runs d)) →
  ∃ rows d1 n d', reap_expired st now rnd 0 d = (Ok rows, d1) ∧
    sweep st publish now rnd d = (Ok (count rows, n), d') ∧
    let accepted r := existsb (fun b => (r_id b =? r_id r)%N && match publish b with Ok _ => true | Raise _ => false end)
                        (stranded_batch now d1) in
    runs d' = update_where accepted (mark_enqueued now) (runs d1) ∧
    n = count (List.filter (fun b => match publish b with Ok _ => true | Raise _ => false end) (stranded_batch now d1)) ∧
    ((∀ b, ∃ u, publish b = Ok u) → (length (select_where (stranded now) (runs d1)) <= 100)%nat →
       ∀ r, In r (runs d') → claimable now r = true →
         ∃ t, r_last_enqueued_at r = Some t ∧ (r_attempt r = 0 → now - LOST_POINTER_AFTER <= t) ∧
              (0 < r_attempt r → r_available_at r <= t)).
Proof.
  intros Hids. destruct (reap_ids st now rnd d) as (rows & d1 & Er & Hk).
  assert (Hids1 : List.NoDup (map r_id (runs d1))) by congruence.
  destruct (republish_eq publish now (stranded_batch now d1) d1) as (d' & E & Hruns).
  exists rows, d1. eexists _, d'. split; [done|]. split.
  { unfold sweep, bind. rewrite Er. unfold relay_session, tx, gets. rewrite E. done. }
  cbn zeta. split; [exact Hruns|]. split; [done|].
  intros Hpub Hlen r Hr. apply not_stranded_pointed. revert r Hr. intros r Hr.
  rewrite Hruns in Hr. apply in_update_where in Hr as (x & Hx & ->).
  destruct (accepted_in _ _ _) eqn:Ex; [apply mark_not_stranded|].
  apply not_true_iff_false. intros Hs. apply not_true_iff_false in Ex. apply Ex, existsb_exists.
  exists x. split; [by apply in_stranded_batch|]. unfold accepts. destruct (Hpub x) as [u ->]. by rewrite N.eqb_refl.
Qed.

Lemma sweep_spec_witness :
  ∃ rows d1 d', reap_expired WorkerDemo.conf 20 (fun _ => 0%Q) 0 WorkerDemo.d0 = (Ok rows, d1) ∧
    sweep WorkerDemo.conf (fun _ => Ok tt) 20 (fun _ => 0%Q) WorkerDemo.d0 = (Ok (count rows, 1), d') ∧
    ∀ r, In r (runs d') → claimable 20 r = true → ∃ t, r_last_enqueued_at r = Some t.
Proof.
  destruct (sweep_spec WorkerDemo.conf (fun _ => Ok tt) 20 (fun _ => 0%Q) WorkerDemo.d0
    (List.NoDup_cons (l := []) _ (fun Hin => Hin) (List.NoDup_nil _))) as (rows & d1 & n & d' & Er & Es & _ & Hn & Hall).
  assert (Hd1 : d1 = snd (reap_expired WorkerDemo.conf 20 (fun _ => 0%Q) 0 WorkerDemo.d0)) by (by rewrite Er).
  exists rows, d1, d'. split; [exact Er|]. split.
  - rewrite Es, Hn, Hd1. vm_compute. reflexivity.
  - intros r Hr Hc. destruct (Hall (fun b => ex_intro _ tt eq_refl)) with (r := r) as (t & Ht & _); [|done|done|by exists t].
    rewrite Hd1. vm_compute. repeat constructor.
Defined.

(** Polling never misses and never spins.  Each tenant a polling pass visits has a
    run it can lease (none being locked by another worker); and every tenant that has
    one is visited, when at most fifty do. *)
Theorem poll_finds_work now d :
  List.NoDup (map r_id (runs d)) →
  (∀ tenant wid lease, In (tenant_uuid tenant) (tenants_with_work now d) →
     ∃ run d', acquire now (fun _ => false) tenant wid None lease d = (Ok (Some run), d') ∧
               lr_tenant run = tenant) ∧
  ((length (nodup N.eq_dec (map r_tenant (select_where (has_work now) (runs d)))) <= 50)%nat →
   ∀ r, In r (runs d) → claimable now r = true → (∃ t, In t (tenants d) ∧ tn_id t = r_tenant r) →
     In (r_tenant r) (tenants_with_work now d)).
Proof.
  intros Hids. assert (Hw : ∀ r, has_work now r = claimable now r).
  { intros r. unfold has_work, claimable.
    by destruct (bool_decide _), (r_attempt r <? r_max_attempts r), (r_available_at r <=? now), (is_none _). }
  split.
  - intros tenant wid lease Hin. unfold tenants_with_work in Hin.
    apply firstn_subset, in_order_by, filter_In in Hin as [Hin _].
    apply nodup_In, in_map_iff in Hin as (r & Et & Hr). apply filter_In in Hr as [Hr Hc]. rewrite Hw in Hc.
    destruct (acquire_cases now (fun _ => false) tenant wid None lease d Hids) as [[Hno _]|(x & _ & _ & _ & E)].
    + specialize (Hno r Hr). unfold eligible, visible, row_tenant, tenant_run in Hno. cbn in Hno.
      by rewrite Et, N.eqb_refl, Hc in Hno.
    + eexists _, _. split; [exact E|done].
  - intros Hlen r Hr Hc (t & Ht & Et). unfold tenants_with_work. rewrite firstn_all2.
    + apply in_order_by, filter_In. split.
      * apply nodup_In, in_map, filter_In. by rewrite Hw.
      * apply existsb_exists. exists t. by rewrite Et, N.eqb_refl.
    + rewrite (Permutation_length (order_by_perm _ _)). unfold select_where at 1.
      etransitivity; [apply List.filter_length_le|exact Hlen].
Qed.

Lemma poll_finds_work_witness :
  In 1%N (tenants_with_work 20 WorkerDemo.d0) ∧
  ∃ run d', acquire 20 (fun _ => false) Demo.tenant_a "w" None 5 WorkerDemo.d0 = (Ok (Some run), d').
Proof.
  assert (H1 : In 1%N (tenants_with_work 20 WorkerDemo.d0)) by (vm_compute; by left).
  split; [exact H1|].
  destruct (proj1 (poll_finds_work 20 WorkerDemo.d0 (List.NoDup_cons (l := []) _ (fun Hin => Hin) (List.NoDup_nil _)))
    Demo.tenant_a "w" 5 H1) as (run & d' & E & _).
  exists run, d'. exact E.
Defined.
