(* ===== verification/Auth.v ===== *)
(** Authentication: [platform_core/identity/auth.py].

    The JWT library and the password hasher are parameters.  [jwt_decode now token] is
    [jwt.decode] with the pinned algorithm, secret, audience and issuer of the settings
    at time [now]: the claims, or [None] for any [PyJWTError].  [db_fault] is the
    [SQLAlchemyError] an identity lookup meets when the database cannot be reached.
    A claim that should be a uuid is read in the form [str(uuid)] writes. *)
From Stdlib Require Import Ascii.
From S2P Require Import Prelude Identity Text Db Checkpoint.

Definition AuthenticationError : exn := OtherError "AuthenticationError".
Definition AuthenticationBackendUnavailable : exn := OtherError "AuthenticationBackendUnavailable".

Record claims := mkClaims {
  cl_sub : string;
  cl_tid : string;
  cl_tsl : string;
  cl_sbj : string;
  cl_rol : list string;
  cl_typ : string;
  cl_iat : Z;
  cl_nbf : Z;
  cl_exp : Z;
  cl_jti : uuid
}.

(** * Parsing *)

Definition hex_value (c : ascii) : option N :=
  let n := N_of_ascii c in
  if ((48 <=? n) && (n <=? 57))%N then Some (n - 48)%N
  else if ((97 <=? n) && (n <=? 102))%N then Some (n - 87)%N
  else None.

Fixpoint hex_number (s : string) (acc : N) : option N :=
  match s with
  | "" => Some acc
  | String c s' =>
      if Ascii.eqb c "-"%char then hex_number s' acc
      else match hex_value c with
           | Some v => hex_number s' (16 * acc + v)%N
           | None => None
           end
  end.

(** [uuid.UUID(s)] on the canonical form. *)
Definition parse_uuid (s : string) : option uuid :=
  match hex_number s 0%N with
  | Some u => if String.eqb (uuid_str u) s then Some u else None
  | None => None
  end.

Definition role_of_value (s : string) : option Role :=
  List.find (fun r => String.eqb (role_value r) s) [OWNER; OPERATOR; REVIEWER; VIEWER; SERVICE].

Definition actor_type_of_value (s : string) : option ActorType :=
  List.find (fun a => String.eqb (actor_type_value a) s) [HUMAN; SERVICE_ACTOR; JOB].

(** [frozenset(Role(r) for r in l)]: [None] when a name is not a role. *)
Fixpoint roles_of_values (l : list string) : option (list Role) :=
  match l with
  | [] => Some []
  | s :: l' =>
      match role_of_value s, roles_of_values l' with
      | Some r, Some rs => Some (r :: rs)
      | _, _ => None
      end
  end.

Definition is_blank (c : ascii) : bool := Ascii.eqb c " "%char.

(** [s.partition(" ")]: the text before the first blank, and after it. *)
Fixpoint partition (s : string) : string * string :=
  match s with
  | "" => ("", "")
  | String c s' =>
      if is_blank c then ("", s')
      else let '(a, b) := partition s' in (String c a, b)
  end.

Definition token_from_header (authorization : option string) : option string :=
  match authorization with
  | None | Some "" => None
  | Some a =>
      let '(scheme, credentials) := partition a in
      let token := strip credentials in
      if negb (String.eqb (lower scheme) "bearer") || String.eqb token "" then None else Some token
  end.

Section auth.
Variable jwt_encode : claims → string.
Variable jwt_decode : timestamp → string → option claims.
Variable verify_principal_state : bool.
Variable access_token_ttl_seconds : Z.
Variable db_fault : option exn.

(** [int(now.timestamp())]. *)
Definition unix (t : timestamp) : Z := t / 1000000.

Definition role_name_le (a b : string) : bool := String.leb a b.

(** [ttl or timedelta(...)]: a zero [ttl] is no [ttl]. *)
Definition lifetime (ttl : option interval) : interval :=
  match ttl with
  | Some t => if t =? 0 then seconds access_token_ttl_seconds else t
  | None => seconds access_token_ttl_seconds
  end.

Definition claims_of (now : timestamp) (jti : uuid) (ttl : option interval) (p : Principal) : claims :=
  let expires := now + lifetime ttl in
  mkClaims (uuid_str (principal_uuid p)) (uuid_str (tenant_uuid (principal_tenant p)))
    (slug (principal_tenant p)) (subject p) (order_by role_name_le (map role_value (roles p)))
    (actor_type_value (actor_type p)) (unix now) (unix now) (unix expires) jti.

Definition issue_token (now : timestamp) (jti : uuid) (ttl : option interval) (p : Principal) : string :=
  jwt_encode (claims_of now jti ttl p).

(** The claims that identify: tenant, principal id, actor type. *)
Definition identity_claims (c : claims) : result (Tenant * uuid * ActorType) :=
  match parse_uuid (cl_tid c), parse_uuid (cl_sub c), actor_type_of_value (cl_typ c) with
  | Some tid, Some sub, Some typ =>
      match new_Tenant tid (cl_tsl c) with
      | Ok tenant => Ok (tenant, sub, typ)
      | Raise _ => Raise AuthenticationError
      end
  | _, _, _ => Raise AuthenticationError
  end.

(** The principal a verified token speaks for, from the row of the database. *)
Definition current_principal (tenant : Tenant) (id : uuid) (typ : ActorType) (c : claims)
    (row : option principal_row) : result Principal :=
  match row with
  | None => Raise AuthenticationError
  | Some r =>
      if is_some (pr_disabled_at r) then Raise AuthenticationError
      else if negb (String.eqb (pr_subject r) (cl_sbj c)) then Raise AuthenticationError
      else match actor_type_of_value (pr_actor_type r) with
           | None => Raise (ValueError "not a valid ActorType")
           | Some a =>
               if negb (bool_decide (a = typ)) then Raise AuthenticationError
               else match roles_of_values (pr_roles r) with
                    | None => Raise AuthenticationError
                    | Some rs => Ok (mkPrincipal id tenant (pr_subject r) rs a)
                    end
           end
  end.

Definition principal_lookup (tenant : Tenant) (id : uuid) : M db (option principal_row) :=
  try_except
    (tenant_session (
       match db_fault with Some e => raise e | None => ret tt end ;;
       found <- sql_select (visible (tenant_uuid tenant) (fun p => pr_id p =? id)%N) ;;
       one_or_none found))
    (fun _ => Some (raise AuthenticationBackendUnavailable)).

Definition decode_token (now : timestamp) (token : string) : M db Principal :=
  match jwt_decode now token with
  | None => raise AuthenticationError
  | Some c =>
      who <- lift_result (identity_claims c) ;;
      let '(tenant, id, typ) := who in
      if negb verify_principal_state then
        match roles_of_values (cl_rol c) with
        | Some rs => ret (mkPrincipal id tenant (cl_sbj c) rs typ)
        | None => raise AuthenticationError
        end
      else
        row <- principal_lookup tenant id ;;
        lift_result (current_principal tenant id typ c row)
  end.

(** * Credentials *)

Variable verify_hash : string → string → bool.
Variable needs_rehash : string → bool.
Variable hasher_hash : string → string.

(** Lengths are counted in bytes where Python counts code points. *)
Definition hash_password (password : string) : result string :=
  if str_len password <? 12 then Raise (ValueError "password must be at least 12 characters")
  else Ok (hasher_hash password).

(** [verify_password]: whether it matches, and the hash to store instead. *)
Definition verify_password (stored password : string) : bool * option string :=
  if negb (verify_hash stored password) then (false, None)
  else if needs_rehash stored then (true, Some (hasher_hash password))
  else (true, None).

Definition set_password (h : string) (p : principal_row) : principal_row := p <| pr_password_hash := Some h |>.

(** A parameter of a statement with a NUL is refused by the driver: [DataError], which no
    caller catches. *)
Definition authenticate (tenant_slug subject password : string) : M db Principal :=
  guard (no_nul tenant_slug) (OtherError "DataError") ;;
  found <- sql_select (fun t => String.eqb (tn_slug t) tenant_slug) ;;
  row <- one_or_none found ;;
  match row with
  | None => raise AuthenticationError
  | Some t =>
      tenant <- lift_result (new_Tenant (tn_id t) (tn_slug t)) ;;
      guard (no_nul subject) (OtherError "DataError") ;;
      prow <- tenant_session (
        found <- sql_select (visible (tn_id t) (fun p => String.eqb (pr_subject p) subject)) ;;
        one_or_none found) ;;
      match prow with
      | None => raise AuthenticationError
      | Some p =>
          guard (truthy (pr_password_hash p)) AuthenticationError ;;
          let '(ok, rehashed) := verify_password (coalesce (pr_password_hash p) "") password in
          guard (ok && is_none (pr_disabled_at p)) AuthenticationError ;;
          match rehashed with
          | Some h => tenant_session (
              sql_update (visible (tn_id t) (fun x => pr_id x =? pr_id p)%N) (set_password h) ;; ret tt)
          | None => ret tt
          end ;;
          match roles_of_values (pr_roles p), actor_type_of_value (pr_actor_type p) with
          | Some rs, Some a => ret (mkPrincipal (pr_id p) tenant (pr_subject p) rs a)
          | _, _ => raise (ValueError "not a valid Role or ActorType")
          end
      end
  end.

(** * Lemmas *)

Lemma parse_uuid_sound s u : parse_uuid s = Some u → uuid_str u = s.
Proof.
  unfold parse_uuid. destruct (hex_number s 0%N) as [v|]; [|done].
  destruct (uuid_str v =? s)%string eqn:E; [|done]. intros [= <-]. by apply String.eqb_eq.
Qed.

Lemma role_of_value_inv r : role_of_value (role_value r) = Some r.
Proof. by destruct r. Qed.

Lemma actor_type_of_value_inv a : actor_type_of_value (actor_type_value a) = Some a.
Proof. by destruct a. Qed.

(** ** Reading back what [str(uuid)] writes *)

Lemma hex_value_digit d : (d < 16)%N → hex_value (hex_digit d) = Some d ∧ hex_digit d ≠ "-"%char.
Proof.
  intros H. assert (Hd : In d (map N.of_nat (seq 0 16))).
  { apply in_map_iff. exists (N.to_nat d). rewrite N2Nat.id. split; [done|]. apply in_seq. lia. }
  cbn in Hd. by repeat destruct Hd as [<-|Hd].
Qed.

Lemma hex_number_app a b acc : hex_number (a +:+ b) acc =
  match hex_number a acc with Some v => hex_number b v | None => None end.
Proof.
  revert acc. induction a as [|c a IH]; intros acc; [done|].
  change (String c a +:+ b) with (String c (a +:+ b)). cbn [hex_number].
  destruct (Ascii.eqb c "-"); [apply IH|]. destruct (hex_value c); [apply IH|done].
Qed.

Lemma hex_number_digits k n rest acc :
  hex_number (hex_digits k n rest) acc = hex_number rest (acc * 16 ^ N.of_nat k + n mod 16 ^ N.of_nat k)%N.
Proof.
  revert n rest. induction k as [|k IH]; intros n rest.
  - cbn [hex_digits]. change (16 ^ N.of_nat 0)%N with 1%N. rewrite N.mod_1_r. f_equal. lia.
  - cbn [hex_digits]. rewrite IH. cbn [hex_number].
    assert (Hd : (n mod 16 < 16)%N) by (apply N.mod_lt; lia).
    destruct (hex_value_digit _ Hd) as [Hv Hne]. rewrite Hv.
    destruct (Ascii.eqb_spec (hex_digit (n mod 16)) "-"); [done|]. f_equal.
    rewrite Nat2N.inj_succ, N.pow_succ_r', N.Div0.mod_mul_r. lia.
Qed.

(** Thirty-two characters, cut in five with dashes between. *)
Lemma hex_number_grouped h acc : String.length h = 32%nat →
  hex_number (String.substring 0 8 h +:+ "-" +:+ String.substring 8 4 h +:+ "-" +:+
    String.substring 12 4 h +:+ "-" +:+ String.substring 16 4 h +:+ "-" +:+ String.substring 20 12 h) acc =
  hex_number h acc.
Proof.
  intros Hl.
  assert (Hh : h = String.substring 0 8 h +:+ String.substring 8 4 h +:+ String.substring 12 4 h +:+
                   String.substring 16 4 h +:+ String.substring 20 12 h).
  { do 32 (destruct h as [|? h]; [discriminate Hl|]). destruct h; [done|discriminate Hl]. }
  assert (Hd : ∀ s v, hex_number ("-" +:+ s) v = hex_number s v) by done.
  assert (Happ : ∀ a b c, (∀ v, hex_number b v = hex_number c v) → ∀ v, hex_number (a +:+ b) v = hex_number (a +:+ c) v).
  { intros a b c Hbc v. rewrite !hex_number_app. by destruct (hex_number a v). }
  rewrite Hh at 6. repeat (apply Happ; intros v; rewrite Hd; clear acc; rename v into acc). done.
Qed.

Lemma parse_uuid_str u : (u < 2 ^ 128)%N → parse_uuid (uuid_str u) = Some u.
Proof.
  intros Hu. unfold parse_uuid.
  assert (E : hex_number (uuid_str u) 0 = Some u).
  { unfold uuid_str. rewrite hex_number_grouped by apply length_hex_digits.
    rewrite hex_number_digits. cbn [hex_number]. f_equal. rewrite N.mod_small; [lia|]. exact Hu. }
  by rewrite E, String.eqb_refl.
Qed.

Lemma roles_of_values_inv rs : roles_of_values (map role_value rs) = Some rs.
Proof.
  induction rs as [|r rs IH]; [done|]. cbn [map roles_of_values]. by rewrite role_of_value_inv, IH.
Qed.

Lemma roles_of_values_map l rs : roles_of_values l = Some rs → l = map role_value rs.
Proof.
  revert rs. induction l as [|s l IH]; cbn [roles_of_values]; intros rs; [by intros [= <-]|].
  destruct (role_of_value s) as [r|] eqn:E; [|done]. destruct (roles_of_values l) as [rs'|]; [|done].
  intros [= <-]. cbn. rewrite (IH rs' eq_refl). f_equal.
  unfold role_of_value in E. apply find_some in E as [_ E]. symmetry. by apply String.eqb_eq.
Qed.

Lemma lookup_eq tenant id d :
  List.NoDup (map pr_id (principals d)) →
  principal_lookup tenant id d =
  match db_fault with
  | Some _ => (Raise AuthenticationBackendUnavailable, d)
  | None => (Ok (List.hd_error (select_where (visible (tenant_uuid tenant) (fun p => pr_id p =? id)%N) (principals d))), d)
  end.
Proof.
  intros Hnd. unfold principal_lookup. destruct db_fault; [done|].
  assert (Hk : ∀ p, visible (tenant_uuid tenant) (fun p => pr_id p =? id)%N p = true → pr_id p = id).
  { intros p. unfold visible. intros E. by bool_to_prop. }
  unfold try_except, tenant_session, tx. unfold bind at 1, ret at 1.
  destruct (select_by_key_one (T := table_principals) pr_id _ id d Hnd Hk) as [[Hn E]|(p & Hp & Hq & E)];
    cbv zeta in E; rewrite E.
  - by rewrite (proj2 (select_where_nil _ (principals d)) Hn).
  - rewrite (select_by_key pr_id _ (principals d) p Hnd Hp Hq); [done|].
    intros p' _ Hq'. by rewrite (Hk p Hq), (Hk p' Hq').
Qed.

Lemma current_principal_ok tenant id typ c row p :
  current_principal tenant id typ c row = Ok p →
  ∃ r, row = Some r ∧ pr_disabled_at r = None ∧ pr_subject r = cl_sbj c ∧
    actor_type_of_value (pr_actor_type r) = Some typ ∧ roles_of_values (pr_roles r) = Some (roles p) ∧
    p = mkPrincipal id tenant (pr_subject r) (roles p) typ.
Proof.
  unfold current_principal. destruct row as [r|]; [|done].
  destruct (pr_disabled_at r) eqn:Ed; [done|]. cbn [is_some].
  destruct (pr_subject r =? cl_sbj c)%string eqn:Es; [|done]. cbn [negb].
  destruct (actor_type_of_value (pr_actor_type r)) as [a|] eqn:Ea; [|done].
  destruct (bool_decide (a = typ)) eqn:Et; [|done]. cbn [negb]. bool_to_prop. subst a.
  destruct (roles_of_values (pr_roles r)) as [rs|] eqn:Er; [|done]. intros [= <-]. exists r. repeat split; auto.
Qed.

(** What [jwt.decode] makes of an encoded token: its claims, from [nbf] and [iat] until
    [exp]. *)
Definition in_force (c : claims) (t : timestamp) : bool :=
  (seconds (cl_nbf c) <=? t) && (seconds (cl_iat c) <=? t) && (t <? seconds (cl_exp c)).

Definition jwt_reads_back (c : claims) : Prop :=
  ∀ t, jwt_decode t (jwt_encode c) = if in_force c t then Some c else None.

(** A principal as the tables hold them. *)
Definition well_formed (p : Principal) : Prop :=
  (principal_uuid p < 2 ^ 128)%N ∧ (tenant_uuid (principal_tenant p) < 2 ^ 128)%N ∧
  new_Tenant (tenant_uuid (principal_tenant p)) (slug (principal_tenant p)) = Ok (principal_tenant p).

Lemma identity_claims_of now jti ttl p : well_formed p →
  identity_claims (claims_of now jti ttl p) = Ok (principal_tenant p, principal_uuid p, actor_type p).
Proof.
  intros (Hp & Ht & Hs). unfold identity_claims, claims_of. cbn [cl_tid cl_sub cl_typ cl_tsl].
  by rewrite !parse_uuid_str, actor_type_of_value_inv, Hs.
Qed.

(** The row that lets a token's holder in, with the roles it now has. *)
Definition current_row (p q : Principal) (d : db) (r : principal_row) : Prop :=
  In r (principals d) ∧ pr_tenant r = tenant_uuid (principal_tenant p) ∧ pr_id r = principal_uuid p ∧
  pr_disabled_at r = None ∧ pr_subject r = subject p ∧ pr_actor_type r = actor_type_value (actor_type p) ∧
  pr_roles r = map role_value (roles q) ∧ q = p <| roles := roles q |>.

Lemma actor_type_of_value_sound s a : actor_type_of_value s = Some a → s = actor_type_value a.
Proof. unfold actor_type_of_value. intros E. apply find_some in E as [_ E]. symmetry. by apply String.eqb_eq. Qed.

Lemma current_principal_iff p now jti ttl d q :
  List.NoDup (map pr_id (principals d)) →
  current_principal (principal_tenant p) (principal_uuid p) (actor_type p) (claims_of now jti ttl p)
    (List.hd_error (select_where (visible (tenant_uuid (principal_tenant p)) (fun r => pr_id r =? principal_uuid p)%N)
       (principals d))) = Ok q ↔
  ∃ r, current_row p q d r.
Proof.
  intros Hnd. split.
  - intros E. apply current_principal_ok in E as (r & Hr & H1 & H2 & H3 & H4 & H5). exists r.
    destruct (select_where _ _) as [|r' rest] eqn:Es; [done|]. injection Hr as ->.
    assert (Hin : In r (select_where (visible (tenant_uuid (principal_tenant p))
      (fun r => pr_id r =? principal_uuid p)%N) (principals d))) by (rewrite Es; by left).
    unfold select_where in Hin. apply filter_In in Hin as [Hin Hv]. unfold visible in Hv. bool_to_prop.
    repeat split; try done.
    + by apply actor_type_of_value_sound.
    + by apply roles_of_values_map.
    + rewrite H5, H2. by destruct p.
  - intros (r & Hin & Ht & Hi & H1 & H2 & H3 & H4 & H5).
    rewrite (select_by_key pr_id _ (principals d) r Hnd Hin).
    + cbn [List.hd_error current_principal]. unfold current_principal.
      rewrite H1, H2. cbn [is_some cl_sbj claims_of]. rewrite String.eqb_refl, H3, actor_type_of_value_inv. cbn [negb].
      rewrite bool_decide_true by done. rewrite H4, roles_of_values_inv. rewrite H5. by destruct p.
    + unfold visible, row_tenant, tenant_principal. by rewrite Ht, Hi, !N.eqb_refl.
    + intros r' _ Hv. unfold visible in Hv. bool_to_prop. congruence.
Qed.

Lemma decode_token_same now token d : snd (decode_token now token d) = d.
Proof.
  unfold decode_token. destruct (jwt_decode now token) as [c|]; [|done].
  unfold bind, lift_result. destruct (identity_claims c) as [[[tenant id] typ]|]; [|done].
  destruct (negb verify_principal_state); [by destruct (roles_of_values _)|].
  assert (E : snd (principal_lookup tenant id d) = d).
  { unfold principal_lookup, try_except, tenant_session, tx, bind, sql_select, gets, one_or_none.
    destruct db_fault; [done|]. cbn. by destruct (select_where _ _) as [|? []]. }
  unfold ret at 1. destruct (principal_lookup tenant id d) as [[row|e] d1]; cbn in E; subst d1; [|done].
  by destruct (current_principal _ _ _ _ _).
Qed.

(** A principal that decoding gives back is one the database now vouches for. *)
Lemma decode_token_current now token d q d' :
  decode_token now token d = (Ok q, d') →
  ∃ c tenant id typ, jwt_decode now token = Some c ∧ identity_claims c = Ok (tenant, id, typ) ∧
    principal_tenant q = tenant ∧ principal_uuid q = id ∧ actor_type q = typ ∧ subject q = cl_sbj c ∧
    if verify_principal_state
    then db_fault = None ∧ (List.NoDup (map pr_id (principals d)) → ∃ r, current_row q q d r)
    else roles_of_values (cl_rol c) = Some (roles q).
Proof.
  unfold decode_token. destruct (jwt_decode now token) as [c|]; [|done].
  destruct (identity_claims c) as [[[tenant id] typ]|e] eqn:Ei; [|done].
  rewrite (run_bind _ _ d (tenant, id, typ) d) by done. cbv beta iota.
  intros E. exists c, tenant, id, typ. destruct verify_principal_state; cbn [negb] in E.
  - apply bind_ok in E as (row & d1 & El & Ec).
    destruct (current_principal tenant id typ c row) as [p|] eqn:Ep; [|done]. injection Ec as -> _.
    apply current_principal_ok in Ep as (r & -> & H1 & H2 & H3 & H4 & H5).
    assert (Hf : db_fault = None).
    { unfold principal_lookup, try_except, tenant_session, tx, bind in El. by destruct db_fault. }
    rewrite H5. cbn. repeat split; auto. intros Hnd. rewrite (lookup_eq tenant id d Hnd), Hf in El.
    injection El as El _. destruct (select_where _ _) as [|r' rest] eqn:Es; [done|]. injection El as ->.
    assert (Hin : In r (select_where (visible (tenant_uuid tenant) (fun r => pr_id r =? id)%N) (principals d)))
      by (rewrite Es; by left).
    unfold select_where in Hin. apply filter_In in Hin as [Hin Hv]. unfold visible in Hv. bool_to_prop.
    exists r. repeat split; cbn; try done.
    + by apply actor_type_of_value_sound.
    + by apply roles_of_values_map.
  - destruct (roles_of_values (cl_rol c)) as [rs|]; [|done]. injection E as <- _. by cbn.
Qed.

End auth.

(** A token presented while it lasts gives back the principal it was issued for, if the row
    is still what it was. *)
Lemma issued_token_decodes jwt_encode jwt_decode ttl_seconds p now now' jti ttl d r :
  jwt_reads_back jwt_encode jwt_decode (claims_of ttl_seconds now jti ttl p) → well_formed p →
  List.NoDup (map pr_id (principals d)) → current_row p p d r →
  seconds (unix now) <= now' < seconds (unix (now + lifetime ttl_seconds ttl)) →
  decode_token jwt_decode true None now' (issue_token jwt_encode ttl_seconds now jti ttl p) d = (Ok p, d).
Proof.
  intros Hjwt Hwf Hnd Hr Ht. unfold decode_token, issue_token. rewrite (Hjwt now'). unfold in_force.
  cbn [claims_of cl_nbf cl_iat cl_exp]. rewrite (proj2 (Z.leb_le _ _) (proj1 Ht)), (proj2 (Z.ltb_lt _ _) (proj2 Ht)). cbn [andb].
  rewrite (identity_claims_of ttl_seconds now jti ttl p Hwf).
  rewrite (run_bind _ _ d (principal_tenant p, principal_uuid p, actor_type p) d) by done. cbv beta iota. cbn [negb].
  unfold bind. rewrite (lookup_eq None _ _ d Hnd).
  by rewrite (proj2 (current_principal_iff ttl_seconds p now jti ttl d p Hnd) (ex_intro _ r Hr)).
Qed.

Module AuthDemo.
Definition alice : Principal := mkPrincipal 11 Demo.tenant_a "alice@acme.test" [OPERATOR; OWNER] HUMAN.
Definition now : timestamp := 5000000.
Definition c0 : claims := claims_of 900 now 77 None alice.
Definition encode (_ : claims) : string := "signed".
Definition decode (t : timestamp) (s : string) : option claims :=
  if String.eqb s "signed" && in_force c0 t then Some c0 else None.
Definition alice_row : principal_row := mkPrincipalRow 11 1 "alice@acme.test" "human" ["viewer"] None None.
Definition d1 : db := empty_db <| principals := [alice_row] |>.
End AuthDemo.

(** C9: a token is evidence of identity, the database of authority.  A token issued at [now]
    for a principal is accepted from then until its lifetime (the configured one when no
    other, or a zero one, is asked for) has passed, and never otherwise; decoding it writes
    nothing.  With principal state verified, the caller it stands for is exactly the row the
    token names, if that row is in the token's tenant, not disabled, and still has the
    subject and actor type the token was issued for; its roles are those of the row at
    decoding time, not those of the token.  When the database cannot be read nobody is
    authenticated.  Only with verification switched off do the token's own roles count. *)
Theorem token_carries_identity_not_authority jwt_encode jwt_decode verify ttl_seconds db_fault p now now' jti ttl d r d' :
  let c := claims_of ttl_seconds now jti ttl p in
  jwt_reads_back jwt_encode jwt_decode c → well_formed p → List.NoDup (map pr_id (principals d)) →
  decode_token jwt_decode verify db_fault now' (issue_token jwt_encode ttl_seconds now jti ttl p) d = (r, d') →
  d' = d ∧
  (now' < seconds (unix now) ∨ seconds (unix (now + lifetime ttl_seconds ttl)) <= now' → r = Raise AuthenticationError) ∧
  (seconds (unix now) <= now' < seconds (unix (now + lifetime ttl_seconds ttl)) →
     if verify then
       (db_fault ≠ None → r = Raise AuthenticationBackendUnavailable) ∧
       (db_fault = None → ∀ q, r = Ok q ↔ ∃ row, current_row p q d row)
     else ∃ rs, Permutation rs (roles p) ∧ r = Ok (p <| roles := rs |>)).
Proof.
  intros c Hjwt Hwf Hnd E.
  pose proof (decode_token_same jwt_decode verify db_fault now' (issue_token jwt_encode ttl_seconds now jti ttl p) d) as Hd.
  rewrite E in Hd. cbn in Hd. subst d'. split; [done|].
  unfold decode_token in E. change (issue_token jwt_encode ttl_seconds now jti ttl p) with (jwt_encode c) in E.
  rewrite (Hjwt now') in E. unfold in_force in E. cbn [c claims_of cl_nbf cl_iat cl_exp] in E.
  split; intros Ht.
  - destruct (seconds (unix now) <=? now') eqn:E1, (now' <? seconds (unix (now + lifetime ttl_seconds ttl))) eqn:E2;
      bool_to_prop; try lia; cbn [andb] in E; by injection E as <-.
  - rewrite (proj2 (Z.leb_le _ _) (proj1 Ht)), (proj2 (Z.ltb_lt _ _) (proj2 Ht)) in E. cbn [andb] in E.
    unfold c in E. rewrite (identity_claims_of ttl_seconds now jti ttl p Hwf) in E.
    rewrite (run_bind _ _ d (principal_tenant p, principal_uuid p, actor_type p) d) in E by done.
    cbv beta iota in E. destruct verify; cbn [negb] in E.
    + unfold bind in E. rewrite (lookup_eq db_fault _ _ d Hnd) in E. split.
      * intros Hf. destruct db_fault; [|done]. by injection E as <-.
      * intros Hf q. rewrite Hf in E. rewrite <- (current_principal_iff ttl_seconds p now jti ttl d q Hnd).
        destruct (current_principal _ _ _ _ _); injection E as <-; split; congruence.
    + cbn [cl_rol claims_of cl_sbj] in E.
      assert (Hperm : Permutation (order_by role_name_le (map role_value (roles p))) (map role_value (roles p)))
        by apply order_by_perm.
      destruct (Permutation_map_inv _ _ Hperm) as (rs & Ers & Hrs).
      rewrite Ers, roles_of_values_inv in E. injection E as <-. exists rs. split; [by symmetry|].
      by destruct p.
Qed.

Lemma token_carries_identity_not_authority_witness :
  decode_token AuthDemo.decode true None 6000000 (issue_token AuthDemo.encode 900 AuthDemo.now 77 None AuthDemo.alice)
    AuthDemo.d1 = (Ok (AuthDemo.alice <| roles := [VIEWER] |>), AuthDemo.d1).
Proof.
  destruct (decode_token AuthDemo.decode true None 6000000
    (issue_token AuthDemo.encode 900 AuthDemo.now 77 None AuthDemo.alice) AuthDemo.d1) as [r d'] eqn:E.
  destruct (token_carries_identity_not_authority AuthDemo.encode AuthDemo.decode true 900 None AuthDemo.alice
    AuthDemo.now 6000000 77 None AuthDemo.d1 r d') as (-> & _ & H).
  - intros t. reflexivity.
  - by vm_compute.
  - exact (List.NoDup_cons (l := []) _ (fun Hin => Hin) (List.NoDup_nil _)).
  - exact E.
  - destruct H as [_ H]; [by vm_compute|]. f_equal. apply (H eq_refl).
    exists AuthDemo.alice_row. repeat split. by left.
Defined.
