(* ===== verification/RateLimit.v ===== *)
(** The fixed-window limiter: [platform_core/security/rate_limit.py].

    The distributed window is a script in Redis, whose reply is an argument; the
    in-process fallback is modelled whole.  Its clock is a timestamp. *)
From S2P Require Import Prelude.

(** * Admission control *)

Record LimitDecision := mkLimitDecision {
  ld_allowed : bool;
  ld_limit : Z;
  ld_remaining : Z;
  ld_retry_after_seconds : Z
}.

(** [RateLimiter._decision]. *)
Definition limit_decision (count ttl limit window_seconds : Z) : LimitDecision :=
  let retry_after := Z.max 1 (if 0 <? ttl then ttl else window_seconds) in
  mkLimitDecision (count <=? limit) limit (Z.max 0 (limit - count))
    (if limit <? count then retry_after else 0).

(** The in-process windows: count and end of each key's window. *)
Notation windows := (gmap string (Z * timestamp)).

Definition window_of (now : timestamp) (window_seconds : Z) (key : string) (w : windows) : Z * timestamp :=
  let '(count, expires_at) := default (0, now + seconds window_seconds) (w !! key) in
  if expires_at <=? now then (0, now + seconds window_seconds) else (count, expires_at).

(** Over ten thousand keys, the expired ones are dropped. *)
Definition bounded_windows (now : timestamp) (w : windows) : windows :=
  if (10000 <? Z.of_nat (size w)) then filter (fun kv => now < kv.2.2) w else w.

Definition check_local (now : timestamp) (limit window_seconds : Z) (key : string) (w : windows)
    : LimitDecision * windows :=
  let '(count, expires_at) := window_of now window_seconds key w in
  let w' := bounded_windows now (<[key := (count + 1, expires_at)]> w) in
  let ttl := Z.max 1 (Z.quot (expires_at - now) 1000000) in
  (limit_decision (count + 1) ttl limit window_seconds, w').

Inductive environment := local_env | ci | staging | production.

Definition deployed (e : environment) : bool :=
  match e with staging | production => true | _ => false end.

Record limiter_settings := mkLimiterSettings {
  ls_rate_limit_enabled : bool;
  ls_rate_limit_fail_closed : bool;
  ls_environment : environment
}.

Definition RateLimitUnavailable : exn := OtherError "RateLimitUnavailable".

(** [RateLimiter.check]; [redis] is the reply of the window script, [None] for a
    [RedisError]. *)
Definition limiter_check (st : limiter_settings) (redis : option (Z * Z)) (now : timestamp)
    (limit window_seconds : Z) (key : string) : M windows LimitDecision :=
  if negb (ls_rate_limit_enabled st) then ret (mkLimitDecision true limit limit 0)
  else match redis with
       | Some (count, ttl) => ret (limit_decision count ttl limit window_seconds)
       | None =>
           if deployed (ls_environment st) then
             if ls_rate_limit_fail_closed st then raise RateLimitUnavailable
             else ret (mkLimitDecision true limit limit 0)
           else fun w => let '(decision, w') := check_local now limit window_seconds key w in (Ok decision, w')
       end.


(** * The fallback window *)

Section window.
Variable limit window_seconds : Z.

(** Calls in order, each at its time and for its key; the decisions they get. *)
Fixpoint serve (calls : list (timestamp * string)) (w : windows) : list (string * LimitDecision) * windows :=
  match calls with
  | [] => ([], w)
  | (now, key) :: rest =>
      let '(d, w1) := check_local now limit window_seconds key w in
      let '(ds, w2) := serve rest w1 in
      ((key, d) :: ds, w2)
  end.

Definition calls_for (k : string) (calls : list (timestamp * string)) : Z :=
  count (List.filter (fun c => String.eqb c.2 k) calls).

Definition admitted (k : string) (ds : list (string * LimitDecision)) : Z :=
  count (List.filter (fun x => String.eqb x.1 k && ld_allowed x.2) ds).

Lemma check_local_other now key k w e c :
  key ≠ k → now < e → w !! k = Some (c, e) → (check_local now limit window_seconds key w).2 !! k = Some (c, e).
Proof.
  intros Hk Hn Hw. unfold check_local. destruct (window_of now window_seconds key w) as [c' e']. cbn [snd].
  unfold bounded_windows. destruct (_ <? _).
  - apply map_lookup_filter_Some. split; [by rewrite lookup_insert_ne|done].
  - by rewrite lookup_insert_ne.
Qed.

Lemma check_local_same now k w c e :
  window_of now window_seconds k w = (c, e) → now < e →
  (check_local now limit window_seconds k w).2 !! k = Some (c + 1, e) ∧
  ld_allowed (check_local now limit window_seconds k w).1 = (c + 1 <=? limit).
Proof.
  intros Hw Hn. unfold check_local. rewrite Hw. cbn [fst snd]. split; [|done]. unfold bounded_windows.
  destruct (_ <? _).
  - apply map_lookup_filter_Some. split; [by rewrite lookup_insert_eq|done].
  - by rewrite lookup_insert_eq.
Qed.

Lemma window_of_open now k w c e : w !! k = Some (c, e) → now < e → window_of now window_seconds k w = (c, e).
Proof. intros Hw Hn. unfold window_of. rewrite Hw. cbn. destruct (Z.leb_spec e now); [lia|done]. Qed.

Lemma count_cons {A} (x : A) l : count (x :: l) = count l + 1.
Proof. unfold count. cbn [length]. lia. Qed.

Lemma serve_open k e calls : Forall (fun c => c.1 < e) calls → ∀ w c,
  w !! k = Some (c, e) →
  let '(ds, w') := serve calls w in
  w' !! k = Some (c + calls_for k calls, e) ∧
  admitted k ds = Z.min (calls_for k calls) (Z.max 0 (limit - c)).
Proof.
  unfold calls_for, admitted. induction 1 as [|[now key] calls Hn _ IH]; intros w c Hw.
  { unfold count. cbn. split; [|lia]. rewrite Hw. f_equal. f_equal. lia. }
  cbn [serve fst] in *. destruct (String.eqb_spec key k) as [->|Hne].
  - pose proof (check_local_same now k w c e (window_of_open _ _ _ _ _ Hw Hn) Hn) as [H1 H2].
    destruct (check_local now limit window_seconds k w) as [d w1]. cbn [fst snd] in *.
    specialize (IH w1 (c + 1) H1). destruct (serve calls w1) as [ds w2]. destruct IH as [IH1 IH2].
    cbn [List.filter fst snd]. rewrite String.eqb_refl, H2, count_cons. cbn [andb].
    split; [rewrite IH1; f_equal; f_equal; lia|].
    destruct (Z.leb_spec (c + 1) limit); rewrite ?count_cons, IH2;
      unfold count; lia.
  - pose proof (check_local_other now key k w e c Hne Hn Hw) as H1.
    destruct (check_local now limit window_seconds key w) as [d w1]. cbn [snd] in *.
    specialize (IH w1 c H1). destruct (serve calls w1) as [ds w2]. destruct IH as [IH1 IH2].
    cbn [List.filter fst snd]. apply String.eqb_neq in Hne. by rewrite Hne.
Qed.

Lemma limit_decision_sound count ttl :
  let d := limit_decision count ttl limit window_seconds in
  (ld_allowed d = true ↔ count <= limit) ∧ ld_limit d = limit ∧ ld_remaining d = Z.max 0 (limit - count) ∧
  (ld_allowed d = true → ld_retry_after_seconds d = 0) ∧
  (ld_allowed d = false → 1 <= ld_retry_after_seconds d ∧ ld_remaining d = 0).
Proof.
  cbn. rewrite Z.leb_le. split; [done|]. split; [done|]. split; [done|].
  destruct (Z.leb_spec count limit), (Z.ltb_spec limit count); try lia; split; (done || lia || (intros; split; lia)).
Qed.

End window.

(** The in-process window admits exactly its limit.  From the call that opens a window for
    a key, at [now], through any sequence of calls for this and other keys before the window
    ends, the calls admitted for the key are its first [limit], however many it makes and
    whichever keys are swept out of the table meanwhile.  Every decision reports the limit,
    the calls left and, when it refuses, at least a second to wait. *)
Theorem local_window_admits_its_limit limit window_seconds now k calls w ds w' :
  0 < window_seconds →
  match w !! k with Some (_, e) => e <= now | None => True end →
  Forall (fun c => c.1 < now + seconds window_seconds) calls →
  serve limit window_seconds ((now, k) :: calls) w = (ds, w') →
  admitted k ds = Z.min (calls_for k ((now, k) :: calls)) (Z.max 0 limit) ∧
  w' !! k = Some (calls_for k ((now, k) :: calls), now + seconds window_seconds) ∧
  Forall (fun x => ld_limit x.2 = limit ∧ 0 <= ld_remaining x.2 ∧
            (ld_allowed x.2 = false → ld_remaining x.2 = 0 ∧ 1 <= ld_retry_after_seconds x.2)) ds.
Proof.
  intros HW Hold Hcalls E.
  assert (Hw : window_of now window_seconds k w = (0, now + seconds window_seconds)).
  { unfold window_of. destruct (w !! k) as [[c e]|]; cbn.
    - by rewrite (proj2 (Z.leb_le _ _) Hold).
    - unfold seconds. destruct (Z.leb_spec (now + window_seconds * 1000000) now); [lia|done]. }
  assert (Hlt : now < now + seconds window_seconds) by (unfold seconds; lia).
  assert (Hds : Forall (fun x => ∃ n ttl, x.2 = limit_decision n ttl limit window_seconds) ds).
  { revert w ds w' Hold Hw E. generalize ((now, k) :: calls). intros cs w ds w' _ _ E. revert w ds w' E.
    induction cs as [|[n key] cs IH]; intros w ds w'; cbn; [intros [= <- _]; constructor|].
    unfold check_local at 1. destruct (window_of n window_seconds key w) as [c e].
    destruct (serve _ _ cs _) as [ds1 w2] eqn:Es. intros [= <- <-]. constructor; [by eexists _, _|]. by eapply IH. }
  cbn [serve] in E. pose proof (check_local_same limit window_seconds now k w _ _ Hw Hlt) as [H1 H2].
  destruct (check_local now limit window_seconds k w) as [d w1]. cbn [fst snd] in H1, H2.
  pose proof (serve_open limit window_seconds k _ calls Hcalls w1 _ H1) as Hs.
  destruct (serve limit window_seconds calls w1) as [ds1 w2]. injection E as <- <-. destruct Hs as [Hs1 Hs2].
  unfold admitted, calls_for in *. cbn [List.filter fst snd]. rewrite String.eqb_refl, H2, count_cons. cbn [andb].
  split; [|split].
  - destruct (Z.leb_spec (0 + 1) limit); rewrite ?count_cons, Hs2; unfold count; lia.
  - rewrite Hs1. f_equal. f_equal. lia.
  - eapply List.Forall_impl; [|exact Hds]. intros [k' x] (n & ttl & Hx). cbn in Hx. subst x. cbn [snd].
    pose proof (limit_decision_sound limit window_seconds n ttl) as (_ & -> & -> & _ & Hr).
    split; [done|]. split; [lia|]. intros Hf. specialize (Hr Hf) as [? ->]. done.
Qed.

Lemma local_window_admits_its_limit_witness :
  let calls := [(0, "a"); (1, "b"); (2, "a"); (3, "a"); (4, "a")] in
  admitted "a" (serve 2 60 calls ∅).1 = 2 ∧ calls_for "a" calls = 4.
Proof.
  destruct (serve 2 60 [(0, "a"); (1, "b"); (2, "a"); (3, "a"); (4, "a")] ∅) as [ds w'] eqn:E. intros calls.
  split; [|done]. unfold calls. rewrite E.
  destruct (local_window_admits_its_limit 2 60 0 "a" [(1, "b"); (2, "a"); (3, "a"); (4, "a")] ∅ ds w') as [H _];
    [lia|done| |exact E|exact H].
  repeat constructor.
Defined.
