(* ===== verification/Api.v ===== *)
(** The request path: the route policy of [platform_core/api/policy.py], the route table
    of [platform_core/api/route_table.py] and the authorization middleware of
    [platform_core/api/app.py].

    Path matching belongs to the web framework: [matches template path] is the path
    parameters when a route's compiled pattern matches.  [rq_json] is what the
    framework's JSON parser makes of the body and [str_of] Python's [str] of a JSON
    array or object.  The limiter's answer to a request is an argument of the
    middleware. *)
From Stdlib Require Import Ascii.
From stdpp Require Import pretty.
From S2P Require Import Prelude Json Identity Text Db Auth AuditTrail Capabilities RateLimit.

(** * Route policy *)

Inductive location := path_or_query | body.

Record RoutePolicy := mkRoutePolicy {
  rp_capability : Capability;
  rp_resource_param : option string;
  rp_resource_location : location
}.

Definition PUBLIC_PATHS : list string :=
  ["/health"; "/health/ready"; "/auth/login"; "/docs"; "/openapi.json"; "/redoc"].

Definition plain (c : Capability) : RoutePolicy := mkRoutePolicy c None path_or_query.

Definition ROUTE_CAPABILITIES : list (string * string * RoutePolicy) := [
  ("GET", "/auth/me", plain SESSION_READ);
  ("POST", "/auth/logout", plain SESSION_READ);
  ("GET", "/api/runs", plain RUN_READ);
  ("GET", "/api/runs/{run_id}", plain RUN_READ);
  ("POST", "/api/runs/{run_id}/cancel", plain RUN_CANCEL);
  ("GET", "/api/documents", plain DOCUMENT_READ);
  ("GET", "/api/documents/{document_id}", plain DOCUMENT_READ);
  ("POST", "/api/documents", mkRoutePolicy DOCUMENT_INGEST (Some "collection") body);
  ("DELETE", "/api/documents/{document_id}", plain DOCUMENT_DELETE);
  ("DELETE", "/api/documents/{document_id}/purge", plain DATA_ERASE);
  ("POST", "/api/query", plain QUERY_READ);
  ("GET", "/api/usage", plain USAGE_READ);
  ("PUT", "/api/usage/caps", plain BUDGET_MANAGE);
  ("GET", "/api/audit", plain AUDIT_READ);
  ("GET", "/api/tools", plain SESSION_READ);
  ("POST", "/api/tools/{tool_name}/invoke", plain SESSION_READ);
  ("GET", "/api/approvals", plain TOOL_APPROVE);
  ("POST", "/api/approvals/{approval_id}/decide", plain TOOL_APPROVE);
  ("GET", "/api/members", plain MEMBER_MANAGE);
  ("POST", "/api/members/grants", plain MEMBER_MANAGE);
  ("DELETE", "/api/members/grants/{grant_id}", plain MEMBER_MANAGE);
  ("GET", "/api/eval", plain EVAL_READ);
  ("GET", "/api/eval/datasets/{name}", plain EVAL_READ);
  ("GET", "/api/eval/runs/{run_id}", plain EVAL_READ);
  ("GET", "/api/eval/continuous", plain EVAL_READ);
  ("PUT", "/api/eval/continuous/{name}", plain RELEASE_PROMOTE);
  ("POST", "/api/eval/run", plain EVAL_RUN);
  ("PUT", "/api/eval/datasets/{name}", plain RELEASE_PROMOTE);
  ("POST", "/api/eval/runs/{run_id}/promote", plain RELEASE_PROMOTE);
  ("GET", "/api/eval/gaps", plain EVAL_READ);
  ("POST", "/api/eval/datasets/{name}/mine", plain RELEASE_PROMOTE);
  ("POST", "/api/eval/datasets/{name}/draft", plain RELEASE_PROMOTE);
  ("PUT", "/api/eval/datasets/{name}/items/{item_id}", plain RELEASE_PROMOTE);
  ("POST", "/api/onboard/sessions", plain SCHEMA_AUTHOR);
  ("GET", "/api/onboard/sessions", plain SCHEMA_READ);
  ("GET", "/api/onboard/sessions/{session_id}", plain SCHEMA_READ);
  ("POST", "/api/onboard/sessions/{session_id}/schema", plain SCHEMA_AUTHOR);
  ("POST", "/api/onboard/sessions/{session_id}/approve", plain SCHEMA_APPROVE);
  ("POST", "/api/onboard/sessions/{session_id}/publish", plain SCHEMA_APPROVE);
  ("POST", "/api/onboard/sessions/{session_id}/cancel", plain SCHEMA_AUTHOR);
  ("GET", "/api/onboard/domains", plain SCHEMA_READ);
  ("GET", "/api/onboard/sessions/{session_id}/queries", plain SCHEMA_READ);
  ("POST", "/api/onboard/sessions/{session_id}/queries/{query_id}", plain SCHEMA_AUTHOR);
  ("POST", "/api/onboard/sessions/{session_id}/seed-eval", plain RELEASE_PROMOTE)].

Definition is_public (path : string) : bool := existsb (String.eqb path) PUBLIC_PATHS.

Definition upper_char (c : ascii) : ascii :=
  let n := N_of_ascii c in if ((97 <=? n) && (n <=? 122))%N then ascii_of_N (n - 32) else c.

Fixpoint upper (s : string) : string :=
  match s with "" => "" | String c s' => String (upper_char c) (upper s') end.

Definition policy_for (method template : string) : option RoutePolicy :=
  option_map snd (List.find (fun e => String.eqb e.1.1 (upper method) && String.eqb e.1.2 template)
                    ROUTE_CAPABILITIES).

Definition pair_le (a b : string * string) : bool :=
  if String.eqb a.1 b.1 then String.leb a.2 b.2 else String.leb a.1 b.1.

Definition undeclared_routes (registered : list (string * string)) : list (string * string) :=
  order_by pair_le (List.filter (fun e => negb (is_public e.2) && is_none (policy_for e.1 e.2)) registered).

(** * The route table *)

Record RouteEntry := mkRouteEntry { re_method : string; re_template : string }.

(** Longest template first. *)
Definition entry_le (a b : RouteEntry) : bool :=
  if str_len (re_template a) =? str_len (re_template b) then String.leb (re_template a) (re_template b)
  else str_len (re_template b) <? str_len (re_template a).

(** [build_route_table] from the routes of the registered routers, each with its
    methods. *)
Definition build_route_table (routes : list (list string * string)) : result (list RouteEntry) :=
  let entries := concat (map (fun r => map (fun m => mkRouteEntry m r.2)
    (List.filter (fun m => negb (existsb (String.eqb m) ["HEAD"; "OPTIONS"])) (order_by String.leb r.1))) routes) in
  match order_by entry_le entries with
  | [] => Raise (RuntimeError "route table is empty")
  | table => Ok table
  end.

Definition registered_pairs (table : list RouteEntry) : list (string * string) :=
  map (fun e => (re_method e, re_template e)) table.

(** * The middleware *)

Record request := mkRequest {
  rq_method : string;
  rq_path : string;
  rq_content_length : option string;
  rq_authorization : option string;
  rq_session_cookie : option string;
  rq_origin : option string;
  rq_idempotency_key : option string;
  rq_body_length : Z;
  rq_json : option json;
  rq_query : gmap string string
}.

Record api_settings := mkApiSettings {
  max_request_body_bytes : Z;
  browser_allowed_origins : list string;
  rate_limit_enabled : bool;
  audit_fail_closed : bool
}.

(** What the middleware does with a request: hand it on, with the context the handler
    will run in where there is one, or answer itself. *)
Inductive verdict :=
| Pass (ctx : option RequestContext)
| Refuse (status_code : Z) (code : string).

(** [int(s)] of a header: white space around it, a sign, digits with single
    underscores between them. *)
Fixpoint digits (s : string) (acc : Z) (after_digit : bool) : option Z :=
  match s with
  | "" => if after_digit then Some acc else None
  | String c s' =>
      let n := Z.of_N (N_of_ascii c) in
      if (48 <=? n) && (n <=? 57) then digits s' (10 * acc + (n - 48)) true
      else if Ascii.eqb c "_"%char && after_digit then digits s' acc false
      else None
  end.

Definition parse_int (s : string) : option Z :=
  match strip s with
  | "" => None
  | String c s' =>
      if Ascii.eqb c "-"%char then option_map Z.opp (digits s' 0 false)
      else if Ascii.eqb c "+"%char then digits s' 0 false
      else digits (String c s') 0 false
  end.

Definition content_length_refused (st : api_settings) (rq : request) : option verdict :=
  match rq_content_length rq with
  | None | Some "" => None
  | Some s =>
      match parse_int s with
      | None => Some (Refuse 400 "invalid_request")
      | Some n => if (n <? 0) || (max_request_body_bytes st <? n) then Some (Refuse 413 "body_too_large") else None
      end
  end.

Definition AUDITED_CAPABILITIES : list Capability :=
  [DOCUMENT_INGEST; DOCUMENT_DELETE; DATA_ERASE; RUN_CANCEL; EVAL_RUN; SCHEMA_AUTHOR; SCHEMA_APPROVE;
   BUDGET_MANAGE; MEMBER_MANAGE; RELEASE_PROMOTE; TOOL_INVOKE_WRITE; TOOL_APPROVE].

(** The bearer token, or the session cookie; and whether it was the cookie. *)
Definition credentials (rq : request) : option string * bool :=
  match token_from_header (rq_authorization rq) with
  | Some t => (Some t, false)
  | None => (rq_session_cookie rq, is_some (rq_session_cookie rq))
  end.

Section middleware.
Context `{AuditEnv}.
Variable matches : string → string → option (gmap string string).
Variable str_of : json → string.
Variable jwt_decode : timestamp → string → option claims.
Variable verify_principal_state : bool.
Variable db_fault : option exn.
Variable st : api_settings.

(** The first entry of the table whose pattern and method both match. *)
Fixpoint find_entry (rq : request) (table : list RouteEntry) : option (RouteEntry * gmap string string) :=
  match table with
  | [] => None
  | e :: rest =>
      match matches (re_template e) (rq_path rq) with
      | Some params => if String.eqb (re_method e) (rq_method rq) then Some (e, params) else find_entry rq rest
      | None => find_entry rq rest
      end
  end.

(** The caller: refused for want of an identity service, nobody, or somebody. *)
Definition identify (now : timestamp) (token : option string) : M db (verdict + option Principal) :=
  match token with
  | None | Some "" => ret (inr None)
  | Some t =>
      try_except
        (p <- decode_token jwt_decode verify_principal_state db_fault now t ;; ret (inr (Some p)))
        (fun e => match e with
                  | OtherError c =>
                      if String.eqb c "AuthenticationError" then Some (ret (inr None))
                      else if String.eqb c "AuthenticationBackendUnavailable"
                      then Some (ret (inl (Refuse 503 "identity_unavailable")))
                      else None
                  | _ => None
                  end)
  end.

Definition decision_ctx (now : timestamp) (request_id : uuid) (rq : request) (entry : RouteEntry) (p : Principal)
    : RequestContext :=
  mkContext p request_id None (rq_idempotency_key rq) None None now
    (<["route" := re_template entry]> (<["method" := rq_method rq]> ∅)).

Definition safe_method (m : string) : bool := existsb (String.eqb m) ["GET"; "HEAD"; "OPTIONS"].

Definition cross_origin (cookie_authenticated : bool) (rq : request) : bool :=
  cookie_authenticated && negb (safe_method (rq_method rq))
  && negb (match rq_origin rq with
           | Some o => existsb (String.eqb o) (browser_allowed_origins st)
           | None => false
           end).

Definition str_json (v : json) : option string :=
  match v with
  | JNull => None
  | JStr s => Some s
  | JInt n => Some (pretty n)
  | JBool b => Some (if b then "True" else "False")
  | JFloat r => Some r
  | _ => Some (str_of v)
  end.

Definition body_field (param : string) (payload : option json) : option string :=
  match payload with
  | Some (JObj kvs) =>
      match List.find (fun kv => String.eqb kv.1 param) kvs with
      | Some kv => str_json kv.2
      | None => None
      end
  | _ => None
  end.

(** The resource a policy scopes to: refused when the body is too large. *)
Definition resource_of (rq : request) (params : gmap string string) (policy : RoutePolicy)
    : verdict + option string :=
  match rp_resource_param policy with
  | None => inr None
  | Some param =>
      match rp_resource_location policy with
      | body =>
          if max_request_body_bytes st <? rq_body_length rq then inl (Refuse 413 "body_too_large")
          else inr (body_field param (rq_json rq))
      | path_or_query => inr (py_or (params !! param) (rq_query rq !! param))
      end
  end.

Definition decision_detail (rq : request) (policy : RoutePolicy) (why : string) (resource : option string) : json :=
  JObj [("method", JStr (rq_method rq)); ("capability", JStr (capability_str (rp_capability policy)));
        ("reason", JStr why); ("resource", opt_str resource)].

(** The last gate: the capability, then the mandatory audit event. *)
Definition decide_capability (now : timestamp) (rq : request) (entry : RouteEntry) (ctx : RequestContext)
    (policy : RoutePolicy) (resource : option string) : M db verdict :=
  decision <- allows db_fault now (principal ctx) (rp_capability policy) resource None ;;
  let '(allowed, why) := decision in
  if negb allowed then
    audit_record now ctx "authorization.decision" DENIED "route" (re_template entry)
      (decision_detail rq policy why resource) false ;;
    ret (Refuse 403 "forbidden")
  else if in_caps (rp_capability policy) AUDITED_CAPABILITIES then
    try_except
      (audit_record now ctx "authorization.decision" ALLOWED "route" (re_template entry)
         (decision_detail rq policy why resource) (audit_fail_closed st) ;;
       ret (Pass (Some ctx)))
      (fun e => match e with AuditUnavailable => Some (ret (Refuse 503 "audit_unavailable")) | _ => None end)
  else ret (Pass (Some ctx)).

(** An authenticated request: origin, rate, policy, capability. *)
Definition admit_request (now : timestamp) (request_id : uuid) (limiter : result LimitDecision) (rq : request)
    (entry : RouteEntry) (params : gmap string string) (cookie_authenticated : bool) (p : Principal)
    : M db verdict :=
  let ctx := decision_ctx now request_id rq entry p in
  let capability_check :=
    match policy_for (rq_method rq) (re_template entry) with
    | None => ret (Refuse 403 "undeclared_route")
    | Some policy =>
        match resource_of rq params policy with
        | inl v => ret v
        | inr resource => decide_capability now rq entry ctx policy resource
        end
    end in
  if cross_origin cookie_authenticated rq then
    audit_record now ctx "authorization.csrf" DENIED "route" (re_template entry)
      (JObj [("method", JStr (rq_method rq)); ("reason", JStr "origin not allowed")]) false ;;
    ret (Refuse 403 "csrf_refused")
  else if rate_limit_enabled st then
    match limiter with
    | Raise _ => ret (Refuse 503 "admission_control_unavailable")
    | Ok decision =>
        if negb (ld_allowed decision) then
          audit_record now ctx "admission.rate_limit" DENIED "route" (re_template entry)
            (JObj [("method", JStr (rq_method rq))]) false ;;
          ret (Refuse 429 "rate_limited")
        else capability_check
    end
  else capability_check.

Definition authorize (now : timestamp) (request_id : uuid) (limiter : result LimitDecision)
    (table : list RouteEntry) (rq : request) : M db verdict :=
  match content_length_refused st rq with
  | Some v => ret v
  | None =>
      if String.eqb (rq_method rq) "OPTIONS" then ret (Pass None)
      else match find_entry rq table with
           | None => ret (Pass None)
           | Some (entry, params) =>
               if is_public (re_template entry) then ret (Pass None)
               else
                 let '(token, cookie_authenticated) := credentials rq in
                 who <- identify now token ;;
                 match who with
                 | inl v => ret v
                 | inr None => ret (Refuse 401 "unauthenticated")
                 | inr (Some p) => admit_request now request_id limiter rq entry params cookie_authenticated p
                 end
           end
  end.

(** ** Lemmas *)

Lemma find_entry_in rq table e ps : find_entry rq table = Some (e, ps) →
  In e table ∧ matches (re_template e) (rq_path rq) = Some ps ∧ re_method e = rq_method rq.
Proof.
  induction table as [|e' table IH]; cbn; [done|].
  destruct (matches (re_template e') (rq_path rq)) as [ps'|] eqn:Em.
  - destruct (re_method e' =? rq_method rq)%string eqn:E.
    + intros [= <- <-]. apply String.eqb_eq in E. by auto.
    + intros Hf. destruct (IH Hf). by auto.
  - intros Hf. destruct (IH Hf). by auto.
Qed.

Lemma identify_spec now token d r d' : identify now token d = (r, d') → d' = d ∧
  (∀ v, r = Ok (inl v) → v = Refuse 503 "identity_unavailable") ∧
  ∀ p, r = Ok (inr (Some p)) → ∃ t, token = Some t ∧
    decode_token jwt_decode verify_principal_state db_fault now t d = (Ok p, d).
Proof.
  destruct token as [t|]; [|intros [= <- <-]; by repeat split].
  destruct t as [|ch t]; [intros [= <- <-]; by repeat split|]. unfold identify, try_except.
  generalize (String ch t). intros tok. pose proof (decode_token_same jwt_decode verify_principal_state db_fault now tok d) as Hs.
  unfold bind, ret. destruct (decode_token _ _ _ now tok d) as [[p|e] d1] eqn:E; cbn in Hs; subst d1; cbv beta iota.
  - intros [= <- <-]. split; [done|]. split; [done|]. intros q [= ->]. by exists tok.
  - destruct e; cbv beta iota; repeat destruct (_ =? _)%string; intros [= <- <-]; (split; [done|]);
      (split; [|done]); intros v; congruence.
Qed.

(** What has been decided when a request is handed on in a context. *)
Definition cleared (now : timestamp) (limiter : result LimitDecision) (rq : request) (entry : RouteEntry)
    (params : gmap string string) (cookie_authenticated : bool) (ctx : RequestContext) (d d' : db) : Prop :=
  ∃ policy resource,
    policy_for (rq_method rq) (re_template entry) = Some policy ∧
    resource_of rq params policy = inr resource ∧
    permitted db_fault now (principal ctx) (rp_capability policy) resource None d ∧
    cross_origin cookie_authenticated rq = false ∧
    (rate_limit_enabled st = true → ∃ dec, limiter = Ok dec ∧ ld_allowed dec = true) ∧
    only_audit d d' ∧
    (In (rp_capability policy) AUDITED_CAPABILITIES → audit_fail_closed st = true →
       ∃ e, audit_events d' = audit_events d ++ [e] ∧ ae_tenant e = tenant_of ctx ∧
         ae_principal e = Some (principal_uuid (principal ctx)) ∧ ae_action e = "authorization.decision" ∧
         ae_resource_type e = Some "route" ∧ ae_resource_id e = Some (re_template entry) ∧
         ae_outcome e = outcome_str ALLOWED).

Lemma decide_capability_pass now rq entry ctx policy resource d octx d' :
  decide_capability now rq entry ctx policy resource d = (Ok (Pass octx), d') →
  octx = Some ctx ∧ permitted db_fault now (principal ctx) (rp_capability policy) resource None d ∧ only_audit d d' ∧
  (In (rp_capability policy) AUDITED_CAPABILITIES → audit_fail_closed st = true →
     ∃ e, audit_events d' = audit_events d ++ [e] ∧ ae_tenant e = tenant_of ctx ∧
       ae_principal e = Some (principal_uuid (principal ctx)) ∧ ae_action e = "authorization.decision" ∧
       ae_resource_type e = Some "route" ∧ ae_resource_id e = Some (re_template entry) ∧
       ae_outcome e = outcome_str ALLOWED).
Proof.
  unfold decide_capability. intros E.
  destruct (allows_eq db_fault now (principal ctx) (rp_capability policy) resource None d) as (b & why & Ea & Hb).
  rewrite (run_bind _ _ d (b, why) d Ea) in E. cbv beta iota in E. destruct b; cbn [negb] in E.
  - assert (Hp : permitted db_fault now (principal ctx) (rp_capability policy) resource None d) by by apply Hb.
    destruct (in_caps (rp_capability policy) AUDITED_CAPABILITIES) eqn:Ec.
    + unfold try_except, bind in E.
      destruct (audit_record now ctx _ ALLOWED _ _ _ (audit_fail_closed st) d) as [[h|e] d1] eqn:Er.
      * injection E as <- <-. split; [done|]. split; [done|].
        split; [by eapply audit_record_only_audit|]. intros _ Hf. rewrite Hf in Er. by eapply audit_record_required.
      * by destruct e.
    + injection E as <- <-. split; [done|]. split; [done|]. split; [reflexivity|].
      intros Hin. apply in_caps_spec in Hin. congruence.
  - exfalso. destruct (audit_record_best_effort now ctx "authorization.decision" DENIED "route" (re_template entry)
      (decision_detail rq policy why resource) d) as (h & d1 & Er).
    by rewrite (run_bind _ _ _ _ _ Er) in E.
Qed.

Lemma refused_with_record now ctx action rt rid detail (v : verdict) d octx d' :
  (audit_record now ctx action DENIED rt rid detail false ;; ret v) d = (Ok (Pass octx), d') → v = Pass octx.
Proof.
  destruct (audit_record_best_effort now ctx action DENIED rt rid detail d) as (h & d1 & Er).
  rewrite (run_bind _ _ _ _ _ Er). by intros [= -> _].
Qed.

Lemma admit_request_pass now request_id limiter rq entry params cookie p d octx d' :
  admit_request now request_id limiter rq entry params cookie p d = (Ok (Pass octx), d') →
  octx = Some (decision_ctx now request_id rq entry p) ∧
  cleared now limiter rq entry params cookie (decision_ctx now request_id rq entry p) d d'.
Proof.
  unfold admit_request. set (ctx := decision_ctx now request_id rq entry p).
  destruct (cross_origin cookie rq) eqn:Eo; [by intros E; apply refused_with_record in E|].
  assert (Hrest : match policy_for (rq_method rq) (re_template entry) with
    | None => ret (Refuse 403 "undeclared_route")
    | Some policy => match resource_of rq params policy with
        | inl v => ret v
        | inr resource => decide_capability now rq entry ctx policy resource
        end
    end d = (Ok (Pass octx), d') →
    (rate_limit_enabled st = true → ∃ dec, limiter = Ok dec ∧ ld_allowed dec = true) →
    octx = Some ctx ∧ cleared now limiter rq entry params cookie ctx d d').
  { intros E Hl. destruct (policy_for _ _) as [policy|] eqn:Ep; [|done].
    destruct (resource_of rq params policy) as [v|resource] eqn:Er.
    - exfalso. injection E as -> _. unfold resource_of in Er.
      destruct (rp_resource_param policy); [|done]. destruct (rp_resource_location policy); [done|].
      by destruct (_ <? _).
    - apply decide_capability_pass in E as (H1 & H2 & H3 & H4). split; [done|].
      exists policy, resource. do 6 (split; [done|]). done. }
  destruct (rate_limit_enabled st); [|intros E; by apply Hrest].
  destruct limiter as [dec|]; [|done]. destruct (ld_allowed dec) eqn:Ed; cbn [negb].
  - intros E. apply Hrest; [done|]. intros _. by exists dec.
  - by intros E; apply refused_with_record in E.
Qed.

End middleware.

(** ** The policy table *)

Lemma undeclared_routes_spec registered pr :
  In pr (undeclared_routes registered) ↔
  In pr registered ∧ ¬ In pr.2 PUBLIC_PATHS ∧ policy_for pr.1 pr.2 = None.
Proof.
  unfold undeclared_routes. rewrite in_order_by, filter_In, andb_true_iff, negb_true_iff.
  assert (Hp : is_public pr.2 = false ↔ ¬ In pr.2 PUBLIC_PATHS).
  { unfold is_public. rewrite <- not_true_iff_false, existsb_exists. split; intros H Hin; apply H.
    - exists pr.2. by rewrite String.eqb_refl.
    - destruct Hin as (x & Hx & E). apply String.eqb_eq in E. by subst. }
  rewrite Hp. unfold is_none. destruct (policy_for _ _); cbn; split; intros (?&?&?); done.
Qed.

Lemma string_leb_total a b : String.leb a b = true ∨ String.leb b a = true.
Proof. destruct (String.leb_total a b); auto. Qed.

(** ** The order of the table *)

Lemma entry_le_total a b : entry_le a b = true ∨ entry_le b a = true.
Proof.
  unfold entry_le. destruct (Z.eqb_spec (str_len (re_template a)) (str_len (re_template b))) as [E|E].
  - rewrite E, Z.eqb_refl. apply string_leb_total.
  - destruct (Z.eqb_spec (str_len (re_template b)) (str_len (re_template a))); [lia|].
    rewrite !Z.ltb_lt. lia.
Qed.

Lemma entry_le_trans a b c : entry_le a b = true → entry_le b c = true → entry_le a c = true.
Proof.
  unfold entry_le.
  destruct (Z.eqb_spec (str_len (re_template a)) (str_len (re_template b))) as [E1|E1],
    (Z.eqb_spec (str_len (re_template b)) (str_len (re_template c))) as [E2|E2],
    (Z.eqb_spec (str_len (re_template a)) (str_len (re_template c))) as [E3|E3];
    rewrite ?Z.ltb_lt; try lia. apply leb_trans.
Qed.

Lemma entry_le_length a b : entry_le a b = true → str_len (re_template b) <= str_len (re_template a).
Proof.
  unfold entry_le. destruct (Z.eqb_spec (str_len (re_template a)) (str_len (re_template b))); [lia|].
  rewrite Z.ltb_lt. lia.
Qed.

Lemma built_sorted routes table :
  build_route_table routes = Ok table → table ≠ [] ∧ StronglySorted (fun a b => entry_le a b = true) table.
Proof.
  unfold build_route_table. destruct (order_by entry_le _) as [|e l] eqn:E; [done|]. intros [= <-].
  split; [done|]. rewrite <- E. apply order_by_sorted; [apply entry_le_total|apply entry_le_trans].
Qed.

Lemma built_entries routes table : build_route_table routes = Ok table →
  ∀ m t, In (mkRouteEntry m t) table ↔
    ∃ methods, In (methods, t) routes ∧ In m methods ∧ m ≠ "HEAD" ∧ m ≠ "OPTIONS".
Proof.
  unfold build_route_table. destruct (order_by entry_le _) as [|e l] eqn:E; [done|]. intros [= <-] m t.
  rewrite <- E, in_order_by, in_concat. split.
  - intros (es & Hes & Hin). apply in_map_iff in Hes as ([ms t'] & <- & Hr). cbn [fst snd] in Hin.
    apply in_map_iff in Hin as (m' & [= -> ->] & Hm). apply filter_In in Hm as [Hm Hx].
    apply in_order_by in Hm. exists ms. split; [done|]. split; [done|]. cbn in Hx.
    destruct (String.eqb_spec m "HEAD"); [done|]. by destruct (String.eqb_spec m "OPTIONS").
  - intros (ms & Hr & Hm & H1 & H2). eexists. split; [by apply in_map_iff; exists (ms, t)|].
    cbn [fst snd]. apply in_map_iff. exists m. split; [done|]. apply filter_In. split; [by apply in_order_by|].
    cbn. apply String.eqb_neq in H1 as ->. by apply String.eqb_neq in H2 as ->.
Qed.

Lemma find_entry_none matches rq table : find_entry matches rq table = None →
  ∀ e, In e table → re_method e = rq_method rq → matches (re_template e) (rq_path rq) = None.
Proof.
  induction table as [|x table IH]; cbn; [done|]. intros Hf e [->|Hin] Hm.
  - destruct (matches _ _); [|done]. by rewrite Hm, String.eqb_refl in Hf.
  - destruct (matches (re_template x) (rq_path rq)); [|by apply IH].
    destruct (_ =? _)%string; [done|]. by apply IH.
Qed.

Lemma find_entry_longest matches rq table e ps :
  StronglySorted (fun a b => entry_le a b = true) table → find_entry matches rq table = Some (e, ps) →
  ∀ e', In e' table → re_method e' = rq_method rq → is_some (matches (re_template e') (rq_path rq)) = true →
    str_len (re_template e') <= str_len (re_template e).
Proof.
  intros Hs. induction Hs as [|x table _ IH Hx]; cbn; [done|].
  intros Hf e' He' Hm Hp. destruct (matches (re_template x) (rq_path rq)) as [ps'|] eqn:Ex.
  - destruct (re_method x =? rq_method rq)%string eqn:Em.
    + injection Hf as <- _. destruct He' as [->|He']; [lia|]. apply entry_le_length.
      rewrite List.Forall_forall in Hx. by apply Hx.
    + destruct He' as [->|He']; [|by apply IH]. apply String.eqb_neq in Em. congruence.
  - destruct He' as [->|He']; [|by apply IH]. by rewrite Ex in Hp.
Qed.

(** ** Refusals *)

Section refusals.
Context `{AuditEnv}.

Lemma record_then_refuse now ctx action rt rid detail s c (v : verdict) d d' :
  (audit_record now ctx action DENIED rt rid detail false ;; ret (Refuse s c)) d = (Ok v, d') → v = Refuse s c.
Proof.
  destruct (audit_record_best_effort now ctx action DENIED rt rid detail d) as (h & d1 & Er).
  rewrite (run_bind _ _ _ _ _ Er). by intros [= <- _].
Qed.

Lemma decide_capability_code db_fault st now rq entry ctx policy resource d s c d' :
  decide_capability db_fault st now rq entry ctx policy resource d = (Ok (Refuse s c), d') →
  c = "forbidden" ∨ c = "audit_unavailable".
Proof.
  unfold decide_capability. intros E.
  destruct (allows_eq db_fault now (principal ctx) (rp_capability policy) resource None d) as (b & why & Ea & _).
  rewrite (run_bind _ _ d (b, why) d Ea) in E. cbv beta iota in E. destruct b; cbn [negb] in E.
  - destruct (in_caps _ _); [|done]. unfold try_except, bind in E.
    destruct (audit_record _ _ _ ALLOWED _ _ _ _ d) as [[h|e] d1]; [done|].
    destruct e; try done. injection E as _ <- _. by right.
  - apply record_then_refuse in E. injection E as _ <-. by left.
Qed.

Lemma admit_request_code str_of db_fault st now request_id limiter rq entry params cookie p d s d' :
  admit_request str_of db_fault st now request_id limiter rq entry params cookie p d
    = (Ok (Refuse s "undeclared_route"), d') →
  policy_for (rq_method rq) (re_template entry) = None.
Proof.
  unfold admit_request. destruct (policy_for _ _) as [policy|]; [|done]. intros E. exfalso.
  assert (Hrest : ∀ d1, match resource_of str_of st rq params policy with
      | inl v => ret v
      | inr resource => decide_capability db_fault st now rq entry (decision_ctx now request_id rq entry p) policy resource
      end d1 ≠ (Ok (Refuse s "undeclared_route"), d')).
  { intros d1 Ed. destruct (resource_of _ _ _ _ _) as [v|resource] eqn:Er.
    - injection Ed as -> _. unfold resource_of in Er. destruct (rp_resource_param policy); [|done].
      destruct (rp_resource_location policy); [done|]. by destruct (_ <? _).
    - by apply decide_capability_code in Ed as [|]. }
  destruct (cross_origin _ _ _); [by apply record_then_refuse in E|].
  destruct (rate_limit_enabled st); [|by eapply Hrest].
  destruct limiter as [dec|]; [|done].
  destruct (ld_allowed dec); cbn [negb] in E; [by eapply Hrest|by apply record_then_refuse in E].
Qed.

End refusals.

Module ApiDemo.
#[export] Instance env : AuditEnv := mkAuditEnv AuditDemo.sha AuditDemo.iso AuditDemo.jb (Some "r1").
Definition matches (template path : string) : option (gmap string string) :=
  if String.eqb template path then Some ∅
  else if String.eqb template "/api/runs/{run_id}" && String.prefix "/api/runs/" path then Some ∅ else None.
Definition str_of (_ : json) : string := "".
Definition st : api_settings := mkApiSettings 1000 ["https://ui"] true true.
Definition row : principal_row := mkPrincipalRow 11 1 "alice@acme.test" "human" ["owner"] None None.
Definition d0 : db := empty_db <| principals := [row] |>.
Definition routes : list (list string * string) :=
  [(["GET"; "HEAD"], "/api/runs/{run_id}"); (["GET"; "PUT"], "/api/usage/caps"); (["GET"], "/health");
   (["GET"], "/api/runs/active")].
Definition caps_entry : RouteEntry := mkRouteEntry "PUT" "/api/usage/caps".
Definition rq : request := mkRequest "PUT" "/api/usage/caps" None (Some "Bearer signed") None None None 2 None ∅.
Definition go (limiter : result LimitDecision) : result verdict * db :=
  authorize matches str_of AuthDemo.decode true None st 6000000 500 limiter [caps_entry] rq d0.
Definition room : result LimitDecision := Ok (mkLimitDecision true 10 9 0).
End ApiDemo.

(** ** Who is handed on *)

Lemma content_length_refuses st rq v : content_length_refused st rq = Some v → ∃ s c, v = Refuse s c.
Proof.
  unfold content_length_refused. destruct (rq_content_length rq) as [[|]|]; try done.
  destruct (parse_int _); [|by intros [= <-]; eexists _, _]. destruct (_ || _); [|done]. by intros [= <-]; eexists _, _.
Qed.

Lemma is_public_spec t : is_public t = true ↔ In t PUBLIC_PATHS.
Proof.
  unfold is_public. rewrite existsb_exists. split; [|intros Hin; exists t; by rewrite String.eqb_refl].
  intros (x & Hx & Hq). apply String.eqb_eq in Hq. by subst.
Qed.

Lemma handed_on_in_context `{AuditEnv} matches str_of jwt_decode verify db_fault st now request_id limiter table rq d ctx d' :
  authorize matches str_of jwt_decode verify db_fault st now request_id limiter table rq d = (Ok (Pass (Some ctx)), d') →
  ∃ e ps token, find_entry matches rq table = Some (e, ps) ∧ ¬ In (re_template e) PUBLIC_PATHS ∧
    (credentials rq).1 = Some token ∧
    decode_token jwt_decode verify db_fault now token d = (Ok (principal ctx), d) ∧
    cleared str_of db_fault st now limiter rq e ps (credentials rq).2 ctx d d'.
Proof.
  unfold authorize. destruct (content_length_refused st rq) as [v|] eqn:Ecl.
  { apply content_length_refuses in Ecl as (s & c & ->). done. }
  destruct (rq_method rq =? "OPTIONS")%string; [done|].
  destruct (find_entry matches rq table) as [[e ps]|] eqn:Ef; [|done].
  destruct (is_public (re_template e)) eqn:Ep; [done|].
  destruct (credentials rq) as [token cookie] eqn:Ec. intros E. apply bind_ok in E as (who & d1 & Ei & E).
  apply identify_spec in Ei as (-> & Hv & Hi). destruct who as [v|[p|]]; [| |done].
  - specialize (Hv v eq_refl). by subst v.
  - destruct (Hi p eq_refl) as (t & -> & Hd). apply admit_request_pass in E as [[= ->] Hcl].
    exists e, ps, t. split; [done|]. split; [|by auto]. rewrite <- is_public_spec, Ep. done.
Qed.

(** C4: no handler runs without a decision behind it.  The middleware hands a request on without
    a context only for [OPTIONS], for a request no registered route matches, and for a public
    route.  Otherwise, when it hands one on, the route that matched has a declared policy; the
    caller is the principal the presented credential decodes to now, and that principal holds
    the policy's capability on the resource the handler will use; a cookie-borne write came from
    an allowed origin; the limiter, where enabled, let it through; nothing but the audit trail
    has been written; and for a mutating or privileged capability, with the trail required, the
    decision is on the trail under the caller's tenant and name before the handler starts. *)
Theorem no_handler_without_authority `{AuditEnv} matches str_of jwt_decode verify db_fault st now request_id limiter
    table rq d octx d' :
  authorize matches str_of jwt_decode verify db_fault st now request_id limiter table rq d = (Ok (Pass octx), d') →
  match octx with
  | None => d' = d ∧
      (rq_method rq = "OPTIONS" ∨ find_entry matches rq table = None ∨
       ∃ e ps, find_entry matches rq table = Some (e, ps) ∧ In (re_template e) PUBLIC_PATHS)
  | Some ctx =>
      ∃ e ps token, find_entry matches rq table = Some (e, ps) ∧ ¬ In (re_template e) PUBLIC_PATHS ∧
        (credentials rq).1 = Some token ∧
        decode_token jwt_decode verify db_fault now token d = (Ok (principal ctx), d) ∧
        cleared str_of db_fault st now limiter rq e ps (credentials rq).2 ctx d d'
  end.
Proof.
  intros E. destruct octx as [ctx|]; [by eapply handed_on_in_context|]. revert E. unfold authorize.
  destruct (content_length_refused st rq) as [v|] eqn:Ecl.
  { apply content_length_refuses in Ecl as (s & c & ->). done. }
  destruct (rq_method rq =? "OPTIONS")%string eqn:Eo.
  { intros [= <-]. split; [done|]. left. by apply String.eqb_eq. }
  destruct (find_entry matches rq table) as [[e ps]|] eqn:Ef; [|intros [= <-]; by auto].
  destruct (is_public (re_template e)) eqn:Ep.
  { intros [= <-]. split; [done|]. right; right. exists e, ps. by rewrite <- is_public_spec. }
  destruct (credentials rq) as [token cookie] eqn:Ec. intros E. apply bind_ok in E as (who & d1 & Ei & E).
  apply identify_spec in Ei as (-> & Hv & Hi). destruct who as [v|[p|]]; [| |done].
  - specialize (Hv v eq_refl). by subst v.
  - destruct (Hi p eq_refl) as (t & -> & Hd). by apply admit_request_pass in E as [[=] _].
Qed.

Lemma no_handler_without_authority_witness :
  ∃ ctx d', ApiDemo.go ApiDemo.room = (Ok (Pass (Some ctx)), d') ∧ roles (principal ctx) = [OWNER] ∧
    length (audit_events d') = 1%nat.
Proof.
  destruct (ApiDemo.go ApiDemo.room) as [r d'] eqn:E. pose proof E as E1. apply (f_equal fst) in E1. vm_compute in E1.
  cbn [fst] in E1. subst r. eexists _, d'. split; [reflexivity|].
  pose proof (no_handler_without_authority _ _ _ _ _ _ _ _ _ _ _ _ _ _ E) as (e & ps & token & Hf & _ & _ & _ & Hc).
  injection Hf as <- _. split; [done|].
  destruct Hc as (policy & resource & Hp & _ & _ & _ & _ & _ & Ha). injection Hp as <-.
  destruct Ha as (ev & -> & _); [by apply in_caps_spec|done|done].
Defined.

(** The startup check is complete.  It reports exactly the registered routes that are neither
    public nor given a policy; when it reports none, no request to the service is ever refused
    for want of a policy, whatever its caller, its credentials and its database. *)
Theorem startup_check_covers_every_request `{AuditEnv} matches str_of jwt_decode verify db_fault st now request_id
    limiter table rq d s c d' :
  (∀ m t, In (m, t) (undeclared_routes (registered_pairs table)) ↔
     In (mkRouteEntry m t) table ∧ ¬ In t PUBLIC_PATHS ∧ policy_for m t = None) ∧
  (undeclared_routes (registered_pairs table) = [] →
   authorize matches str_of jwt_decode verify db_fault st now request_id limiter table rq d = (Ok (Refuse s c), d') →
   c ≠ "undeclared_route").
Proof.
  assert (Hspec : ∀ m t, In (m, t) (undeclared_routes (registered_pairs table)) ↔
     In (mkRouteEntry m t) table ∧ ¬ In t PUBLIC_PATHS ∧ policy_for m t = None).
  { intros m t. rewrite undeclared_routes_spec. cbn [fst snd]. unfold registered_pairs. rewrite in_map_iff.
    split; intros (Hin & Hr); (split; [|done]).
    - by destruct Hin as ([m' t'] & [= -> ->] & Hin).
    - by exists (mkRouteEntry m t). }
  split; [done|]. intros Hnone E ->. unfold authorize in E.
  destruct (content_length_refused st rq) as [v|] eqn:Ecl.
  { injection E as -> _. unfold content_length_refused in Ecl.
    destruct (rq_content_length rq) as [[|]|]; try done. destruct (parse_int _); [|done]. by destruct (_ || _). }
  destruct (rq_method rq =? "OPTIONS")%string; [done|].
  destruct (find_entry matches rq table) as [[e ps]|] eqn:Ef; [|done].
  destruct (is_public (re_template e)) eqn:Epub; [done|]. destruct (credentials rq) as [token cookie].
  apply bind_ok in E as (who & d1 & Ei & E). apply identify_spec in Ei as (-> & Hv & _).
  destruct who as [v|[p|]]; [| |done].
  - specialize (Hv v eq_refl). by subst v.
  - apply admit_request_code in E. apply find_entry_in in Ef as (Hin & _ & Hm).
    assert (Hx : In (re_method e, re_template e) []).
    { rewrite <- Hnone. apply Hspec. split; [by destruct e|]. split; [|by rewrite Hm].
      intros Hpub. assert (is_public (re_template e) = true); [|congruence].
      apply existsb_exists. exists (re_template e). by rewrite String.eqb_refl. }
    done.
Qed.

Lemma startup_check_covers_every_request_witness :
  undeclared_routes (registered_pairs [ApiDemo.caps_entry]) = [] ∧
  ∀ s d', ApiDemo.go (Raise RateLimitUnavailable) ≠ (Ok (Refuse s "undeclared_route"), d').
Proof.
  assert (Hn : undeclared_routes (registered_pairs [ApiDemo.caps_entry]) = []) by by vm_compute.
  split; [exact Hn|]. intros s d' E.
  exact (proj2 (startup_check_covers_every_request _ _ _ _ _ _ _ _ _ _ _ _ s "undeclared_route" d') Hn E eq_refl).
Defined.

(** The table the middleware decides from.  Built from the registered routers it is not empty
    and holds exactly their method and template pairs, [HEAD] and [OPTIONS] aside; a request
    is decided by an entry of its own method whose pattern matches, one of the longest
    template among those, and by none only when none matches.  So it is the length of the
    template, not its being literal, that decides. *)
Theorem longest_template_decides matches routes table rq :
  build_route_table routes = Ok table →
  table ≠ [] ∧
  (∀ m t, In (mkRouteEntry m t) table ↔
     ∃ methods, In (methods, t) routes ∧ In m methods ∧ m ≠ "HEAD" ∧ m ≠ "OPTIONS") ∧
  match find_entry matches rq table with
  | None => ∀ e, In e table → re_method e = rq_method rq → matches (re_template e) (rq_path rq) = None
  | Some (e, ps) =>
      In e table ∧ re_method e = rq_method rq ∧ matches (re_template e) (rq_path rq) = Some ps ∧
      ∀ e', In e' table → re_method e' = rq_method rq → is_some (matches (re_template e') (rq_path rq)) = true →
        str_len (re_template e') <= str_len (re_template e)
  end.
Proof.
  intros E. destruct (built_sorted _ _ E) as [Hne Hs]. split; [done|]. split.
  - exact (built_entries _ _ E).
  - destruct (find_entry matches rq table) as [[e ps]|] eqn:Ef.
    + destruct (find_entry_in _ _ _ _ _ Ef) as (H1 & H2 & H3). repeat split; try done.
      by eapply find_entry_longest.
    + by apply find_entry_none.
Qed.

Lemma longest_template_decides_witness :
  ∃ table, build_route_table ApiDemo.routes = Ok table ∧ table ≠ [] ∧ length table = 5%nat.
Proof.
  destruct (build_route_table ApiDemo.routes) as [table|] eqn:E; [|by vm_compute in E].
  exists table. split; [done|]. pose proof (longest_template_decides ApiDemo.matches _ _ ApiDemo.rq E) as (Hne & _).
  split; [done|]. vm_compute in E. by injection E as <-.
Defined.

(** A literal template shorter than a parameter's is not the one that decides. *)
Lemma parameter_shadows_literal :
  ∃ table, build_route_table ApiDemo.routes = Ok table ∧ In (mkRouteEntry "GET" "/api/runs/active") table ∧
    find_entry ApiDemo.matches (mkRequest "GET" "/api/runs/active" None None None None None 0 None ∅) table
    = Some (mkRouteEntry "GET" "/api/runs/{run_id}", ∅).
Proof. eexists. split; [by vm_compute|]. split; [cbn; tauto|by vm_compute]. Qed.
