(* ===== verification/Ledger.v ===== *)
(** Spend, authorised before a call and recorded after it:
    [platform_core/observability/ledger.py], the port
    [platform_core/ports/ledger.py] and [platform_core/api/routes/usage.py].

    The state is the database and the ledger's memory of one process: its cached
    windows and its count of unmetered calls.  [fault] is the exception the database
    meets an operation with, if any.  Sums and comparisons are exact where the code
    uses floats; a [NUMERIC] column rounds what it stores.  The session's time zone is
    UTC; [month_start] is [date_trunc('month', _)].  The advisory lock makes
    [reserve] and [settle] atomic per tenant.  Foreign keys are not modelled. *)
From Stdlib Require Import Qabs Lqa.
From S2P Require Import Prelude Json Identity Db AuditTrail.

(** * Columns *)

(** Rounding to the nearest multiple, halves away from zero, as [NUMERIC] does. *)
Definition round_away (q : Q) : Z :=
  if Qle_bool 0 q then Qfloor (q + (1 # 2)) else - Qfloor (- q + (1 # 2)).

Definition numeric (unit : positive) (q : Q) : Q := (round_away (q * inject_Z (Zpos unit)) # unit)%Q.

(** [NUMERIC(12, 6)] and [NUMERIC(20, 12)]. *)
Definition micro (q : Q) : Q := numeric 1000000 q.
Definition pico (q : Q) : Q := numeric 1000000000000 q.

Definition int4 (n : Z) : bool := (0 <=? n) && (n <? 2147483648).

Definition numeric_fits (limit : Q) (q : Q) : bool := Qle_bool 0 q && Qltb q limit.

Definition reservation_fits (r : budget_reservation) : bool :=
  fits 32 (br_task r) && fits 96 (br_model r) && int4 (br_estimated_tokens r)
  && numeric_fits 1000000 (br_estimated_cost_usd r).

Definition usage_fits (u : llm_usage) : bool :=
  fits 64 (lu_workload u) && fits 32 (lu_task u) && fits 96 (lu_model u) && opt_fits 64 (lu_release u)
  && int4 (lu_input_tokens u) && int4 (lu_output_tokens u) && int4 (lu_total_tokens u)
  && numeric_fits 100000000 (lu_cost_usd u).

(** * Data *)

Record ledger_settings := mkLedgerSettings {
  ls_daily_token_cap : Z;
  ls_monthly_cost_cap_usd : Q;
  ls_budget_fail_closed : bool;
  ls_budget_cache : interval;
  ls_reservation_ttl_seconds : Z;
  ls_release : option string
}.

Record UsageRecord := mkUsageRecord {
  ur_tenant_id : uuid;
  ur_principal_id : uuid;
  ur_run_id : option uuid;
  ur_workload : string;
  ur_task : string;
  ur_model : string;
  ur_input_tokens : Z;
  ur_output_tokens : Z;
  ur_cost_usd : Q;
  ur_cache_hit : bool;
  ur_usage_reported : bool
}.

Record BudgetStatus := mkBudgetStatus {
  bs_tenant_id : uuid;
  bs_tokens_today : Z;
  bs_daily_token_cap : Z;
  bs_cost_this_month_usd : Q;
  bs_monthly_cost_cap_usd : Q;
  bs_reserved_tokens : Z;
  bs_reserved_cost_usd : Q;
  bs_from_cache : bool
}.

Definition headroom_tokens (b : BudgetStatus) : Z :=
  Z.max 0 (bs_daily_token_cap b - bs_tokens_today b - bs_reserved_tokens b).

Definition exhausted (b : BudgetStatus) : bool :=
  (bs_daily_token_cap b <=? bs_tokens_today b + bs_reserved_tokens b)
  || Qle_bool (bs_monthly_cost_cap_usd b) (bs_cost_this_month_usd b + bs_reserved_cost_usd b).

Record window := mkWindow { w_at : timestamp; w_tokens_today : Z; w_cost_this_month : Q }.

Record BudgetReservation := mkBudgetReservation {
  bv_id : option uuid;
  bv_tenant_id : uuid;
  bv_estimated_tokens : Z;
  bv_estimated_cost_usd : Q;
  bv_metered : bool
}.

(** What the process remembers. *)
Record memory := mkMemory {
  mem_cache : gmap uuid window;
  mem_unmetered : gmap (string * string) Z
}.

#[export] Instance eta_memory : Eta memory := fun m => mkMemory (mem_cache m) (mem_unmetered m).

Definition INTERACTIVE_TASKS : list string := ["chat"; "query"].

Definition fails_open (task : string) : bool := existsb (String.eqb task) INTERACTIVE_TASKS.

Definition label (ctx : RequestContext) (k default : string) : string := coalesce (labels ctx !! k) default.

(** * Statements *)

Definition day_start (t : timestamp) : timestamp := t / day * day.

Definition is_held (now : timestamp) (r : budget_reservation) : bool :=
  bool_decide (br_status r = rs_reserved) && (now <? br_expires_at r).

Definition ran_out (now : timestamp) (r : budget_reservation) : bool :=
  bool_decide (br_status r = rs_reserved) && (br_expires_at r <=? now).

Definition set_expired (r : budget_reservation) : budget_reservation :=
  r <| br_status := rs_expired |> <| br_release_reason := Some "reservation TTL elapsed" |>.

Definition since (start : timestamp) (u : llm_usage) : bool := start <=? lu_at u.

Section ledger.
Variable month_start : timestamp → timestamp.
Variable st : ledger_settings.

Definition tokens_today (now : timestamp) (t : uuid) (d : db) : Z :=
  sum_Z (map lu_total_tokens (select_where (visible t (since (day_start now))) (usages d))).

Definition cost_month (now : timestamp) (t : uuid) (d : db) : Q :=
  sum_Q (map lu_cost_usd (select_where (visible t (since (month_start now))) (usages d))).

Definition reserved_tokens (now : timestamp) (t : uuid) (d : db) : Z :=
  sum_Z (map br_estimated_tokens (select_where (visible t (is_held now)) (reservations d))).

Definition reserved_cost (now : timestamp) (t : uuid) (d : db) : Q :=
  sum_Q (map br_estimated_cost_usd (select_where (visible t (is_held now)) (reservations d))).

(** The tenant's own caps, or the configured ones. *)
Definition daily_cap_of (row : option tenant_row) : Z :=
  coalesce (mbind tn_daily_token_cap row) (ls_daily_token_cap st).

Definition monthly_cap_of (row : option tenant_row) : Q :=
  coalesce (mbind tn_monthly_cost_cap_usd row) (ls_monthly_cost_cap_usd st).

Definition caps_row (t : uuid) : M db (option tenant_row) :=
  found <- sql_select (fun r => tn_id r =? t)%N ;;
  one_or_none found.

Definition caps (ctx : RequestContext) : M db (Z * Q) :=
  row <- tenant_session (caps_row (tenant_of ctx)) ;;
  ret (daily_cap_of row, monthly_cap_of row).

Definition insert_reservation (r : budget_reservation) : M db unit :=
  guard (reservation_fits r) (OtherError "DataError") ;;
  sql_insert r.

Definition new_reservation (now : timestamp) (fresh : uuid) (ctx : RequestContext) (model : string)
    (tokens : Z) (cost : Q) : budget_reservation :=
  let task := label ctx "task" "" in
  mkReservation fresh (tenant_of ctx) (Some (principal_uuid (principal ctx))) (request_id ctx)
    (if String.eqb task "" then "unknown" else task) model tokens (micro cost) None None rs_reserved None
    now (now + seconds (ls_reservation_ttl_seconds st)) None.

(** The transaction of [reserve]. *)
Definition reserve_in_session (now : timestamp) (fresh : uuid) (ctx : RequestContext) (model : string)
    (tokens : Z) (cost : Q) : M db uuid :=
  let t := tenant_of ctx in
  sql_update (visible t (ran_out now)) set_expired ;;
  row <- caps_row t ;;
  d <- get ;;
  let projected_tokens := tokens_today now t d + reserved_tokens now t d + tokens in
  let projected_cost := (cost_month now t d + reserved_cost now t d + cost)%Q in
  guard (negb ((daily_cap_of row <=? projected_tokens) || Qle_bool (monthly_cap_of row) projected_cost))
    BudgetExceededError ;;
  insert_reservation (new_reservation now fresh ctx model tokens cost) ;;
  ret fresh.

Definition usage_row (now : timestamp) (u : UsageRecord) : llm_usage :=
  mkUsage (ur_tenant_id u) (Some (ur_principal_id u)) (ur_run_id u) (ur_workload u) (ur_task u) (ur_model u)
    (ur_input_tokens u) (ur_output_tokens u) (pico (ur_cost_usd u)) (ur_cache_hit u) (ur_usage_reported u)
    (ls_release st) now.

Definition insert_usage (now : timestamp) (u : UsageRecord) : M db unit :=
  guard (usage_fits (usage_row now u)) (OtherError "DataError") ;;
  sql_insert (usage_row now u).

Definition ur_total (u : UsageRecord) : Z := ur_input_tokens u + ur_output_tokens u.

Definition actuals_fit (u : UsageRecord) : bool :=
  int4 (ur_total u) && numeric_fits 1000000 (micro (ur_cost_usd u)).

Definition settleable (id : uuid) (r : budget_reservation) : bool :=
  (br_id r =? id)%N && (bool_decide (br_status r = rs_reserved) || bool_decide (br_status r = rs_expired)).

Definition set_settled (now : timestamp) (u : UsageRecord) (r : budget_reservation) : budget_reservation :=
  r <| br_status := rs_settled |> <| br_actual_tokens := Some (ur_total u) |>
    <| br_actual_cost_usd := Some (micro (ur_cost_usd u)) |> <| br_settled_at := Some now |>.

(** The transaction of [settle]: whether it wrote anything. *)
Definition settle_in_session (now : timestamp) (id : uuid) (u : UsageRecord) : M db bool :=
  let t := ur_tenant_id u in
  touched <- sql_select (visible t (settleable id)) ;;
  guard (match touched with [] => true | _ => actuals_fit u end) (OtherError "DataError") ;;
  updated <- sql_update (visible t (settleable id)) (set_settled now u) ;;
  transitioned <- one_or_none updated ;;
  match transitioned with
  | None =>
      found <- sql_select (visible t (fun r => br_id r =? id)%N) ;;
      existing <- one_or_none found ;;
      match existing with
      | Some r => if bool_decide (br_status r = rs_settled) then ret false
                  else raise (RuntimeError "reservation cannot settle")
      | None => raise (RuntimeError "reservation cannot settle")
      end
  | Some _ => insert_usage now u ;; ret true
  end.

Definition releasable (id : uuid) (r : budget_reservation) : bool :=
  (br_id r =? id)%N && bool_decide (br_status r = rs_reserved).

Definition set_released (now : timestamp) (reason : string) (r : budget_reservation) : budget_reservation :=
  r <| br_status := rs_released |> <| br_release_reason := Some (str_take 200 reason) |>
    <| br_settled_at := Some now |>.

(** * Operations *)

Definition in_session {A} (fault : option exn) (m : M db A) : M (db * memory) A :=
  on_db (tenant_session (match fault with Some e => raise e | None => m end)).

Definition remember (f : memory → memory) : M (db * memory) unit :=
  fun s => (Ok tt, (s.1, f s.2)).

Definition count_unmetered (ctx : RequestContext) (task : string) : M (db * memory) unit :=
  remember (fun m => let key := (slug (ctx_tenant ctx), task) in
    m <| mem_unmetered := <[key := coalesce (mem_unmetered m !! key) 0 + 1]> (mem_unmetered m) |>).

Definition add_to_cache (u : UsageRecord) : M (db * memory) unit :=
  remember (fun m => match mem_cache m !! ur_tenant_id u with
    | Some w => m <| mem_cache := <[ur_tenant_id u :=
        mkWindow (w_at w) (w_tokens_today w + ur_input_tokens u + ur_output_tokens u)
          (w_cost_this_month w + ur_cost_usd u)%Q]> (mem_cache m) |>
    | None => m
    end).

Definition may_go_unmetered (task : string) : bool := fails_open task && negb (ls_budget_fail_closed st).

Definition reserve (now : timestamp) (fault : option exn) (fresh : uuid) (ctx : RequestContext) (model : string)
    (tokens : Z) (cost : Q) : M (db * memory) BudgetReservation :=
  let task := label ctx "task" "" in
  if (tokens <? 0) || Qltb cost 0 then raise (ValueError "budget estimates cannot be negative")
  else
    try_except
      (id <- in_session fault (reserve_in_session now fresh ctx model tokens cost) ;;
       ret (mkBudgetReservation (Some id) (tenant_of ctx) tokens cost true))
      (fun e => match e with
        | BudgetExceededError => None
        | _ => Some (
            if negb (may_go_unmetered task) then raise BudgetExceededError
            else count_unmetered ctx task ;;
                 ret (mkBudgetReservation None (tenant_of ctx) tokens cost false))
        end).

Definition release (now : timestamp) (fault : option exn) (r : BudgetReservation) (reason : string)
    : M (db * memory) unit :=
  match bv_id r with
  | None => ret tt
  | Some id =>
      try_except
        (in_session fault (sql_update (visible (bv_tenant_id r) (releasable id)) (set_released now reason)) ;; ret tt)
        (fun _ => Some (ret tt))
  end.

Definition record (now : timestamp) (fault : option exn) (u : UsageRecord) : M (db * memory) unit :=
  written <- try_except (in_session fault (insert_usage now u) ;; ret true) (fun _ => Some (ret false)) ;;
  when written (add_to_cache u).

Definition settle (now : timestamp) (fault : option exn) (r : BudgetReservation) (u : UsageRecord)
    : M (db * memory) unit :=
  match bv_id r with
  | None => record now fault u
  | Some id =>
      written <- try_except (in_session fault (settle_in_session now id u)) (fun _ => Some (ret false)) ;;
      when written (add_to_cache u)
  end.

Definition fresh_window (now : timestamp) (w : option window) : option window :=
  match w with
  | Some x => if now - w_at x <? ls_budget_cache st then Some x else None
  | None => None
  end.

(** The second filter of the query, [at >= date_trunc('month', now())] on every row,
    keeps what is of today: today is in this month. *)
Definition status (now : timestamp) (fault : option exn) (ctx : RequestContext) : M (db * memory) BudgetStatus :=
  let t := tenant_of ctx in
  s <- get ;;
  let hit := fresh_window now (mem_cache s.2 !! t) in
  totals <- match hit with
            | Some w => ret (w_tokens_today w, w_cost_this_month w)
            | None =>
                v <- in_session fault (gets (fun d =>
                  (sum_Z (map lu_total_tokens (select_where (visible t (fun u =>
                     since (month_start now) u && since (day_start now) u)) (usages d))),
                   cost_month now t d))) ;;
                remember (fun m => m <| mem_cache := <[t := mkWindow now v.1 v.2]> (mem_cache m) |>) ;;
                ret v
            end ;;
  held <- in_session fault (gets (fun d => (reserved_tokens now t d, reserved_cost now t d))) ;;
  limits <- in_session fault (caps ctx) ;;
  ret (mkBudgetStatus t totals.1 limits.1 totals.2 limits.2 held.1 held.2 (is_some hit)).

Definition check (now : timestamp) (fault : option exn) (ctx : RequestContext) (estimated : Z)
    : M (db * memory) BudgetStatus :=
  let task := label ctx "task" "" in
  answer <- try_except (b <- status now fault ctx ;; ret (inl b))
    (fun _ => Some (
       if may_go_unmetered task then
         count_unmetered ctx task ;;
         ret (inr (mkBudgetStatus (tenant_of ctx) 0 (ls_daily_token_cap st) 0 (ls_monthly_cost_cap_usd st) 0 0 false))
       else raise BudgetExceededError)) ;;
  match answer with
  | inr unmetered => ret unmetered
  | inl b =>
      let projected := bs_tokens_today b + bs_reserved_tokens b + Z.max 0 estimated in
      if exhausted b || (bs_daily_token_cap b <=? projected) then raise BudgetExceededError else ret b
  end.

(** [owner_session]: a query over every tenant. *)
Definition unattributed_spend (from : option timestamp) : M db Z :=
  gets (fun d => count (select_where (fun u =>
    negb (existsb (fun t => tn_id t =? lu_tenant u)%N (tenants d))
    && match from with None => true | Some s => s <=? lu_at u end) (usages d))).

Definition set_cap_columns (daily : option Z) (monthly : option Q) (r : tenant_row) : tenant_row :=
  r <| tn_daily_token_cap := coalesce_opt daily (tn_daily_token_cap r) |>
    <| tn_monthly_cost_cap_usd := coalesce_opt monthly (tn_monthly_cost_cap_usd r) |>.

Definition invalidate (t : option uuid) : M (db * memory) unit :=
  remember (fun m => m <| mem_cache := match t with None => ∅ | Some t => delete t (mem_cache m) end |>).

Definition set_caps (t : uuid) (daily : option Z) (monthly : option Q) : M (db * memory) unit :=
  on_db (tx (sql_update (fun r => tn_id r =? t)%N (set_cap_columns daily monthly))) ;;
  invalidate (Some t).

End ledger.

(** * What the transactions write *)

Section writes.
Variable month_start : timestamp → timestamp.
Variable st : ledger_settings.

(** The row a tenant's caps are read from. *)
Definition tenant_caps (t : uuid) (d : db) : option tenant_row :=
  List.hd_error (select_where (fun r => tn_id r =? t)%N (tenants d)).

Definition with_reservations (l : list budget_reservation) (d : db) : db := d <| reservations := l |>.
Definition with_usage (u : llm_usage) (d : db) : db := d <| usages := usages d ++ [u] |>.

Lemma caps_row_ok t d row d' : caps_row t d = (Ok row, d') → d' = d ∧ row = tenant_caps t d.
Proof.
  unfold caps_row, bind, sql_select, gets, one_or_none, tenant_caps. cbn [rows table_tenants].
  destruct (select_where _ _) as [|r [|r' l]]; [| |done]; by intros [= <- <-].
Qed.

Lemma reserve_in_session_ok now fresh ctx model tokens cost d id d' :
  reserve_in_session month_start st now fresh ctx model tokens cost d = (Ok id, d') →
  let t := tenant_of ctx in
  let swept := update_where (visible t (ran_out now)) set_expired (reservations d) in
  let d1 := with_reservations swept d in
  let r := new_reservation st now fresh ctx model tokens cost in
  id = fresh ∧ d' = with_reservations (swept ++ [r]) d ∧ reservation_fits r = true ∧
  tokens_today now t d + reserved_tokens now t d1 + tokens < daily_cap_of st (tenant_caps t d) ∧
  (cost_month month_start now t d + reserved_cost now t d1 + cost < monthly_cap_of st (tenant_caps t d))%Q.
Proof.
  intros E t swept d1 r. unfold reserve_in_session in E.
  apply bind_ok in E as (x & d2 & E1 & E). unfold sql_update in E1. injection E1 as _ <-.
  apply bind_ok in E as (row & d2 & Er & E). apply caps_row_ok in Er as [-> ->].
  apply bind_ok in E as (d2 & d3 & Eg & E). injection Eg as <- <-.
  apply bind_ok in E as (x2 & d2 & Eg & E). unfold guard in Eg.
  destruct (negb _) eqn:Hg; [|done]. injection Eg as _ <-.
  apply bind_ok in E as (x3 & d2 & Ei & E). injection E as <- <-.
  unfold insert_reservation in Ei. apply bind_ok in Ei as (x4 & d4 & Ef & Ei). unfold guard in Ef.
  destruct (reservation_fits _) eqn:Hf; [|done]. injection Ef as _ <-. injection Ei as _ <-.
  apply negb_true_iff, orb_false_iff in Hg as [Ht Hc].
  split; [done|]. split; [by destruct d|]. split; [done|]. split; [by apply Z.leb_gt|].
  apply Qnot_le_lt. intros Hle. apply Qle_bool_iff in Hle. exact (eq_true_false_abs _ Hle Hc).
Qed.

Lemma settle_in_session_ok now id u d b d' :
  settle_in_session st now id u d = (Ok b, d') →
  if b then usage_fits (usage_row st now u) = true ∧
    d' = with_usage (usage_row st now u) (with_reservations
           (update_where (visible (ur_tenant_id u) (settleable id)) (set_settled now u) (reservations d)) d)
  else d' = d.
Proof.
  unfold settle_in_session. intros E.
  apply bind_ok in E as (touched & d1 & E1 & E). injection E1 as <- <-.
  apply bind_ok in E as (x & d1 & E1 & E). unfold guard in E1. destruct (match _ with [] => _ | _ => _ end); [|done].
  injection E1 as _ <-. apply bind_ok in E as (upd & d1 & E1 & E). unfold sql_update in E1. injection E1 as <- <-.
  apply bind_ok in E as (tr & d1 & E1 & E). destruct tr as [tr|].
  - assert (d1 = put (update_where (visible (ur_tenant_id u) (settleable id)) (set_settled now u) (rows d)) d) as ->.
    { unfold one_or_none in E1. destruct (map _ _) as [|? []]; by injection E1. }
    apply bind_ok in E as (x2 & d2 & Ei & E). injection E as <- <-. unfold insert_usage in Ei.
    apply bind_ok in Ei as (x3 & d3 & Ef & Ei). unfold guard in Ef.
    destruct (usage_fits _) eqn:Hf; [|done]. injection Ef as _ <-. injection Ei as _ <-.
    split; [done|]. by destruct d.
  - assert (Hnone : select_where (visible (ur_tenant_id u) (settleable id)) (rows d) = [] ∧
      d1 = put (update_where (visible (ur_tenant_id u) (settleable id)) (set_settled now u) (rows d)) d).
    { unfold one_or_none in E1. destruct (select_where _ _) as [|? []]; by injection E1. }
    destruct Hnone as [Hnone ->]. apply bind_ok in E as (found & d2 & E2 & E). injection E2 as <- <-.
    apply bind_ok in E as (ex & d2 & E2 & E).
    assert (Hd : d <| reservations :=
      update_where (visible (ur_tenant_id u) (settleable id)) (set_settled now u) (reservations d) |> = d).
    { rewrite update_where_id; [by destruct d|]. by apply select_where_nil. }
    rewrite Hd in E2. assert (d2 = d) as -> by (unfold one_or_none in E2; destruct (select_where _ _) as [|? []]; by injection E2).
    destruct ex as [r|]; [|done]. destruct (bool_decide _); [|done]. by injection E as <- <-.
Qed.

Lemma insert_usage_ok now u d x d' : insert_usage st now u d = (Ok x, d') →
  usage_fits (usage_row st now u) = true ∧ d' = with_usage (usage_row st now u) d.
Proof.
  unfold insert_usage. intros E. apply bind_ok in E as (x3 & d3 & Ef & Ei). unfold guard in Ef.
  destruct (usage_fits _) eqn:Hf; [|done]. injection Ef as _ <-. injection Ei as _ <-. split; [done|]. by destruct d.
Qed.

(** A session that raises leaves the database as it was. *)
Lemma in_session_cases {A} fault (m : M db A) d w :
  (∃ e, in_session fault m (d, w) = (Raise e, (d, w))) ∨
  fault = None ∧ ∃ a d', m d = (Ok a, d') ∧ in_session fault m (d, w) = (Ok a, (d', w)).
Proof.
  unfold in_session, on_db, tenant_session, tx. cbn [fst snd]. destruct fault as [e|]; [left; by exists e|].
  destruct (m d) as [[a|e] d'] eqn:E; [right|left; by exists e]. split; [done|]. by exists a, d'.
Qed.

End writes.


(** * Every branch *)

Section branches.
Variable month_start : timestamp → timestamp.
Variable st : ledger_settings.

(** The headroom a reservation needs, after the expired ones have been swept. *)
Definition swept (now : timestamp) (t : uuid) (d : db) : db :=
  with_reservations (update_where (visible t (ran_out now)) set_expired (reservations d)) d.

Definition has_room (now : timestamp) (t : uuid) (tokens : Z) (cost : Q) (d : db) : bool :=
  (tokens_today now t d + reserved_tokens now t (swept now t d) + tokens <? daily_cap_of st (tenant_caps t d))
  && Qltb (cost_month month_start now t d + reserved_cost now t (swept now t d) + cost)
       (monthly_cap_of st (tenant_caps t d)).

Lemma caps_row_unique t d : List.NoDup (map tn_id (tenants d)) → caps_row t d = (Ok (tenant_caps t d), d).
Proof.
  intros Hnd. unfold tenant_caps, caps_row.
  destruct (select_by_key_one (T := table_tenants) tn_id (fun r => tn_id r =? t)%N t d Hnd
    (fun r H => proj1 (N.eqb_eq _ _) H)) as [[Hn E]|(r & Hr & Hp & E)]; cbv zeta in E; rewrite E.
  - by rewrite (proj2 (select_where_nil _ (tenants d)) Hn).
  - rewrite (select_by_key tn_id _ (tenants d) r Hnd Hr Hp); [done|].
    intros r' _ Hr'. apply N.eqb_eq in Hr', Hp. congruence.
Qed.

Lemma reserve_in_session_eq now fresh ctx model tokens cost d :
  List.NoDup (map tn_id (tenants d)) →
  let t := tenant_of ctx in
  let r := new_reservation st now fresh ctx model tokens cost in
  fst (reserve_in_session month_start st now fresh ctx model tokens cost d) =
    (if has_room now t tokens cost d then
       if reservation_fits r then Ok fresh else Raise (OtherError "DataError")
     else Raise BudgetExceededError).
Proof.
  intros Hnd t r. unfold reserve_in_session. fold t.
  rewrite (run_bind _ _ d _ (swept now t d) eq_refl).
  rewrite (run_bind _ _ _ _ _ (caps_row_unique t (swept now t d) Hnd)).
  rewrite (run_bind get _ (swept now t d) _ _ eq_refl).
  assert (Hg : negb ((daily_cap_of st (tenant_caps t (swept now t d)) <=?
      tokens_today now t (swept now t d) + reserved_tokens now t (swept now t d) + tokens)
    || Qle_bool (monthly_cap_of st (tenant_caps t (swept now t d)))
      (cost_month month_start now t (swept now t d) + reserved_cost now t (swept now t d) + cost))
    = has_room now t tokens cost d).
  { unfold has_room, Qltb. rewrite negb_orb, Z.ltb_antisym. reflexivity. }
  unfold guard at 1. rewrite Hg. destruct (has_room now t tokens cost d); [|done].
  unfold insert_reservation, bind, guard, ret. fold r. by destruct (reservation_fits r).
Qed.

Definition unmetered (ctx : RequestContext) (w : memory) : memory :=
  let key := (slug (ctx_tenant ctx), label ctx "task" "") in
  w <| mem_unmetered := <[key := coalesce (mem_unmetered w !! key) 0 + 1]> (mem_unmetered w) |>.

(** What happens when the ledger cannot say. *)
Definition unavailable (ctx : RequestContext) (tokens : Z) (cost : Q) (d : db) (w : memory)
    : result BudgetReservation * (db * memory) :=
  if may_go_unmetered st (label ctx "task" "")
  then (Ok (mkBudgetReservation None (tenant_of ctx) tokens cost false), (d, unmetered ctx w))
  else (Raise BudgetExceededError, (d, w)).

End branches.

(** Reserving, on every branch.  Negative estimates are refused outright.  With the
    database reachable, the call is refused when tokens spent today and held, or money
    spent this month and held, would reach a cap with it - nothing is written then - and
    is granted otherwise, by sweeping the tenant's expired reservations and adding exactly
    one row.  When the ledger cannot say, for want of a database or because the row does
    not fit its columns, the call is let through unmetered, and counted, for an
    interactive task where the settings allow it, and refused for every other. *)
Theorem reserve_spec month_start st now fault fresh ctx model tokens cost d w :
  List.NoDup (map tn_id (tenants d)) →
  let t := tenant_of ctx in
  let r := new_reservation st now fresh ctx model tokens cost in
  reserve month_start st now fault fresh ctx model tokens cost (d, w) =
  if (tokens <? 0) || Qltb cost 0 then (Raise (ValueError "budget estimates cannot be negative"), (d, w))
  else if is_some fault && negb (match fault with Some BudgetExceededError => true | _ => false end)
       then unavailable st ctx tokens cost d w
  else if is_some fault || negb (has_room month_start st now t tokens cost d) then (Raise BudgetExceededError, (d, w))
  else if reservation_fits r
       then (Ok (mkBudgetReservation (Some fresh) t tokens cost true),
             (with_reservations (reservations (swept now t d) ++ [r]) d, w))
       else unavailable st ctx tokens cost d w.
Proof.
  intros Hnd t r. unfold reserve. destruct (_ || _); [done|].
  assert (Hun : (if negb (may_go_unmetered st (label ctx "task" "")) then raise BudgetExceededError
      else count_unmetered ctx (label ctx "task" "") ;;
           ret (mkBudgetReservation None (tenant_of ctx) tokens cost false)) (d, w) = unavailable st ctx tokens cost d w)
    by (unfold unavailable; by destruct (may_go_unmetered _ _)).
  unfold try_except, bind at 1.
  destruct (in_session_cases fault (reserve_in_session month_start st now fresh ctx model tokens cost) d w)
    as [[e E]|(-> & id & d' & Em & ->)].
  - rewrite E. pose proof E as E'. unfold in_session, on_db, tenant_session, tx in E'. cbn [fst snd] in E'.
    destruct fault as [f|]; cbn [is_some andb orb].
    + injection E' as <-. destruct f; cbn [negb]; first [exact Hun|reflexivity].
    + pose proof (reserve_in_session_eq month_start st now fresh ctx model tokens cost d Hnd) as Hf. cbv zeta in Hf.
      destruct (reserve_in_session _ _ _ _ _ _ _ _ d) as [[a|e'] d1]; [done|]. injection E' as ->. cbn [fst] in Hf.
      fold t in Hf. destruct (has_room _ _ _ t tokens cost d); cbn [negb].
      * fold r in Hf. destruct (reservation_fits r); [done|]. injection Hf as ->. exact Hun.
      * by injection Hf as ->.
  - pose proof (reserve_in_session_eq month_start st now fresh ctx model tokens cost d Hnd) as Hf. cbv zeta in Hf.
    rewrite Em in Hf. cbn [fst is_some andb orb] in *. fold t r in Hf.
    destruct (has_room _ _ _ t tokens cost d); [|done]. cbn [negb]. destruct (reservation_fits r); [|done].
    apply reserve_in_session_ok in Em as (-> & -> & _). done.
Qed.

(** ** Settling *)

Lemma settle_in_session_eq st now id u d b :
  List.NoDup (map br_id (reservations d)) → In b (reservations d) →
  visible (ur_tenant_id u) (settleable id) b = true →
  settle_in_session st now id u d =
  if negb (actuals_fit u) then (Raise (OtherError "DataError"), d)
  else let d1 := with_reservations
         (update_where (visible (ur_tenant_id u) (settleable id)) (set_settled now u) (reservations d)) d in
       if usage_fits (usage_row st now u) then (Ok true, with_usage (usage_row st now u) d1)
       else (Raise (OtherError "DataError"), d1).
Proof.
  intros Hnd Hb Hv. unfold settle_in_session.
  assert (Hs : select_where (visible (ur_tenant_id u) (settleable id)) (reservations d) = [b]).
  { apply (select_by_key br_id _ (reservations d) b Hnd Hb Hv). intros r _ Hr.
    unfold visible, settleable in Hv, Hr. bool_to_prop. congruence. }
  rewrite (run_bind _ _ d [b] d) by (unfold sql_select, gets; cbn [rows table_reservations]; by rewrite Hs).
  destruct (actuals_fit u); cbn [negb]; [|done]. rewrite (run_bind _ _ d tt d) by done.
  rewrite (run_bind _ _ d [set_settled now u b] (with_reservations
    (update_where (visible (ur_tenant_id u) (settleable id)) (set_settled now u) (reservations d)) d)).
  2:{ unfold sql_update. cbn [rows table_reservations]. by rewrite Hs. }
  rewrite (run_bind _ _ _ (Some (set_settled now u b)) (with_reservations
    (update_where (visible (ur_tenant_id u) (settleable id)) (set_settled now u) (reservations d)) d)) by done.
  unfold insert_usage, bind, guard, ret. destruct (usage_fits _); [|done]. cbn. by destruct d.
Qed.

Lemma not_settleable_unchanged st now fault r id u d w :
  bv_id r = Some id → (∀ b, In b (reservations d) → visible (ur_tenant_id u) (settleable id) b = false) →
  settle st now fault r u (d, w) = (Ok tt, (d, w)).
Proof.
  intros Hid Hn. unfold settle. rewrite Hid. unfold try_except, bind at 1.
  destruct (in_session_cases fault (settle_in_session st now id u) d w) as [[e ->]|(-> & x & d' & Em & ->)]; [done|].
  destruct x; [exfalso|by apply settle_in_session_ok in Em as ->].
  unfold settle_in_session in Em. assert (Hs := proj2 (select_where_nil _ (reservations d)) Hn).
  rewrite (run_bind _ _ d [] d) in Em by (unfold sql_select, gets; cbn [rows table_reservations]; by rewrite Hs).
  rewrite (run_bind _ _ d tt d) in Em by done. apply bind_ok in Em as (upd & d1 & Eu & Em).
  unfold sql_update in Eu. cbn [rows table_reservations] in Eu. rewrite Hs in Eu. injection Eu as <- <-.
  apply bind_ok in Em as (tr & d2 & Et & Em). injection Et as <- <-.
  apply bind_ok in Em as (found & d3 & _ & Em). apply bind_ok in Em as (ex & d4 & _ & Em).
  destruct ex as [x|]; [|done]. by destruct (bool_decide _).
Qed.

(** What a settlement that takes effect leaves. *)
Definition settled_db (st : ledger_settings) (now : timestamp) (id : uuid) (u : UsageRecord) (d : db) : db :=
  with_usage (usage_row st now u) (with_reservations
    (update_where (visible (ur_tenant_id u) (settleable id)) (set_settled now u) (reservations d)) d).

(** C13: a reservation becomes one charge.  Settling never raises into the caller.  It takes
    effect exactly when the database answers, the reservation is its tenant's and still
    reserved or expired, and the figures fit their columns: the row is then settled with
    the actual figures and one usage row is added, and in every other case the database
    is as it was.  Once settled, no further settlement of the reservation, by anyone with
    whatever figures, changes anything. *)
Theorem settle_is_exactly_once st now fault id r u d w :
  List.NoDup (map br_id (reservations d)) → bv_id r = Some id →
  let ok := is_none fault && existsb (visible (ur_tenant_id u) (settleable id)) (reservations d)
            && actuals_fit u && usage_fits (usage_row st now u) in
  let d' := if ok then settled_db st now id u d else d in
  let w' := if ok then snd (snd (add_to_cache u (d', w))) else w in
  settle st now fault r u (d, w) = (Ok tt, (d', w')) ∧
  (ok = true → ∀ now2 fault2 r2 u2 w2, bv_id r2 = Some id →
     settle st now2 fault2 r2 u2 (d', w2) = (Ok tt, (d', w2))).
Proof.
  intros Hnd Hid ok d' w'. destruct (existsb (visible (ur_tenant_id u) (settleable id)) (reservations d)) eqn:Ex.
  - apply existsb_exists in Ex as (b & Hb & Hv). split.
    + unfold settle. rewrite Hid. unfold try_except, bind at 1, in_session, on_db, tenant_session, tx. cbn [fst snd].
      destruct fault as [e|]; [done|]. rewrite (settle_in_session_eq st now id u d b Hnd Hb Hv).
      unfold d', w', d'. subst ok. cbn [is_none is_some negb andb].
      destruct (actuals_fit u); [|done]. cbn [andb]. destruct (usage_fits (usage_row st now u)); [|done].
      cbn [negb fst snd when]. unfold add_to_cache, remember, settled_db. cbn [fst snd].
      by destruct (mem_cache w !! ur_tenant_id u).
    + intros Hok now2 fault2 r2 u2 w2 Hid2. unfold d'. rewrite Hok.
      apply (not_settleable_unchanged st now2 fault2 r2 id u2); [done|]. intros x Hx.
      change (reservations (settled_db st now id u d)) with
        (update_where (visible (ur_tenant_id u) (settleable id)) (set_settled now u) (reservations d)) in Hx.
      apply in_update_where in Hx as (y & Hy & ->). apply not_true_iff_false. intros Hs.
      destruct (visible (ur_tenant_id u) (settleable id) y) eqn:Ey.
      * unfold visible, settleable in Hs. cbn in Hs. rewrite !andb_false_r in Hs. done.
      * assert (y = b).
        { apply (key_unique br_id (reservations d)); [done|done|done|]. unfold visible, settleable in Hs, Hv.
          bool_to_prop. congruence. }
        subst y. congruence.
  - assert (Hn : ∀ b, In b (reservations d) → visible (ur_tenant_id u) (settleable id) b = false).
    { intros b Hb. apply not_true_iff_false. intros Hv. apply not_true_iff_false in Ex. apply Ex, existsb_exists. by exists b. }
    assert (Hok : ok = false) by (unfold ok; by rewrite andb_false_r).
    unfold d', w'. rewrite Hok. split; [|done]. by apply (not_settleable_unchanged st now fault r id u).
Qed.

Module LedgerDemo.
Definition st : ledger_settings := mkLedgerSettings 100 25 false 5000000 900 None.
Definition w0 : memory := mkMemory ∅ ∅.
Definition tenants0 : list tenant_row := [mkTenantRow 1 "acme" (Some 70) None].
Definition held : budget_reservation :=
  mkReservation 90 1 (Some 11%N) 100 "unknown" "gpt-4o" 60 (6 # 10000) None None rs_reserved None 0 900000000 None.
Definition d0 : db := empty_db <| tenants := tenants0 |> <| reservations := [held] |>.
Definition usage : UsageRecord := mkUsageRecord 1 11 None "chat" "chat" "gpt-4o" 50 5 (55 # 100000) false true.
Definition handle : BudgetReservation := mkBudgetReservation (Some 90%N) 1 60 (6 # 10000) true.
End LedgerDemo.

Lemma settle_is_exactly_once_witness :
  let d1 := settled_db LedgerDemo.st 10 90 LedgerDemo.usage LedgerDemo.d0 in
  (settle LedgerDemo.st 10 None LedgerDemo.handle LedgerDemo.usage (LedgerDemo.d0, LedgerDemo.w0)).2.1 = d1 ∧
  map lu_total_tokens (usages d1) = [55] ∧
  ∀ w2, settle LedgerDemo.st 20 None LedgerDemo.handle LedgerDemo.usage (d1, w2) = (Ok tt, (d1, w2)).
Proof.
  intros d1.
  destruct (settle_is_exactly_once LedgerDemo.st 10 None 90 LedgerDemo.handle LedgerDemo.usage LedgerDemo.d0 LedgerDemo.w0)
    as [E Hagain]; [exact (List.NoDup_cons (l := []) _ (fun Hin => Hin) (List.NoDup_nil _))|done|].
  split; [by rewrite E|]. split; [by vm_compute|].
  intros w2. exact (Hagain eq_refl 20 None LedgerDemo.handle LedgerDemo.usage w2 eq_refl).
Defined.

Lemma reserve_spec_witness :
  fst (reserve (fun x => x) LedgerDemo.st 10 None 91 Demo.ctx "gpt-4o" 5 0 (LedgerDemo.d0, LedgerDemo.w0)) =
    Ok (mkBudgetReservation (Some 91%N) 1 5 0 true) ∧
  fst (reserve (fun x => x) LedgerDemo.st 10 None 91 Demo.ctx "gpt-4o" 10 0 (LedgerDemo.d0, LedgerDemo.w0)) =
    Raise BudgetExceededError ∧
  fst (reserve (fun x => x) LedgerDemo.st 10 (Some (OtherError "OperationalError")) 91
         (Demo.ctx <| labels := {["task" := "chat"]} |>) "gpt-4o" 10 0 (LedgerDemo.d0, LedgerDemo.w0)) =
    Ok (mkBudgetReservation None 1 10 0 false).
Proof.
  assert (Hnd : List.NoDup (map tn_id (tenants LedgerDemo.d0)))
    by exact (List.NoDup_cons (l := []) _ (fun Hin => Hin) (List.NoDup_nil _)).
  rewrite !reserve_spec by exact Hnd. repeat split; by vm_compute.
Defined.
