(* ===== verification/Budget.v ===== *)
(** What the ledger's reservations bound: any sequence of ledger operations, by any callers
    and with the database failing at any point, keeps a tenant's spend and its live
    reservations under its caps, but for what calls spend beyond what they had reserved. *)
From Stdlib Require Import Qabs Lqa.
From S2P Require Import Prelude Identity Db Ledger.

(** * Sums over filtered tables *)

Section sums.
#[local] Open Scope Q_scope.
Context {R : Type} (v : R → Q).

Definition total (p : R → bool) (l : list R) : Q := sum_Q (map v (select_where p l)).

Lemma total_cons p r l : total p (r :: l) == (if p r then v r else 0) + total p l.
Proof. unfold total, select_where, sum_Q. cbn [List.filter]. destruct (p r); cbn [map foldr]; [reflexivity|ring]. Qed.

Lemma total_nil p : total p [] = 0.
Proof. done. Qed.

Lemma total_app p l l' : total p (l ++ l') == total p l + total p l'.
Proof. induction l as [|r l IH]; [cbn [app]; rewrite total_nil; ring|]. cbn [app]. rewrite !total_cons, IH. ring. Qed.

Lemma total_nonneg p l : Forall (fun r => 0 <= v r)%Q l → (0 <= total p l)%Q.
Proof.
  induction 1 as [|r l Hr _ IH]; [apply Qle_refl|]. rewrite total_cons. destruct (p r); lra.
Qed.

Lemma total_mono p q l : Forall (fun r => 0 <= v r)%Q l → (∀ r, p r = true → q r = true) → (total p l <= total q l)%Q.
Proof.
  intros Hl Hpq. induction Hl as [|r l Hr _ IH]; [apply Qle_refl|]. rewrite !total_cons.
  specialize (Hpq r). destruct (p r), (q r); try lra; by discriminate Hpq.
Qed.

Lemma total_ext p q l : (∀ r, In r l → p r = q r) → total p l == total q l.
Proof.
  intros H. induction l as [|r l IH]; [reflexivity|]. rewrite !total_cons, (H r) by (by left).
  rewrite IH; [reflexivity|]. intros x Hx. apply H. by right.
Qed.

Lemma total_split p q l : total p l == total (fun r => p r && q r) l + total (fun r => p r && negb (q r)) l.
Proof.
  induction l as [|r l IH]; [rewrite !total_nil; ring|]. rewrite !total_cons, IH.
  destruct (p r), (q r); cbn [andb negb]; ring.
Qed.

(** Rows an UPDATE takes out of the filter no longer count. *)
Lemma total_update p q f l : (∀ r, q r = true → p (f r) = false) →
  total p (update_where q f l) == total (fun r => p r && negb (q r)) l.
Proof.
  intros H. induction l as [|r l IH]; [reflexivity|].
  change (update_where q f (r :: l)) with ((if q r then f r else r) :: update_where q f l).
  rewrite !total_cons, IH. destruct (q r) eqn:E; [rewrite (H r E)|]; destruct (p r); cbn [andb negb]; ring.
Qed.

End sums.

Lemma total_Z {R} (v : R → Z) p l :
  (total (fun r => inject_Z (v r)) p l == inject_Z (sum_Z (map v (select_where p l))))%Q.
Proof.
  induction l as [|r l IH]; [reflexivity|]. rewrite total_cons, IH. unfold select_where, sum_Z. cbn [List.filter].
  destruct (p r); cbn [map foldr]; [by rewrite inject_Z_plus|ring].
Qed.

(** * Rounding *)

Section rounding.
#[local] Open Scope Q_scope.

Lemma round_away_error x : x - (1 # 2) <= inject_Z (round_away x) <= x + (1 # 2).
Proof.
  pose proof (Qfloor_le (x + (1 # 2))) as H1. pose proof (Qlt_floor (x + (1 # 2))) as H2.
  pose proof (Qfloor_le (- x + (1 # 2))) as H3. pose proof (Qlt_floor (- x + (1 # 2))) as H4.
  rewrite inject_Z_plus in H2, H4. change (inject_Z 1) with 1 in H2, H4. unfold round_away.
  destruct (Qle_bool 0 x); rewrite ?inject_Z_opp; split; lra.
Qed.

Lemma numeric_le unit q : numeric unit q <= q + (1 # (2 * unit)).
Proof.
  destruct (round_away_error (q * inject_Z (Zpos unit))) as [_ H]. unfold numeric.
  set (z := round_away _) in *. rewrite (Qmake_Qdiv z unit).
  apply Qle_shift_div_r; [reflexivity|].
  assert (E : (1 # 2 * unit) * (Zpos unit # 1) == 1 # 2) by (unfold Qeq; cbn; lia).
  change (Zpos unit # 1) with (inject_Z (Zpos unit)) in *. fold (inject_Z z). rewrite Qmult_plus_distr_l, E. exact H.
Qed.

End rounding.

(** * Sequences of ledger operations *)

Inductive action :=
| Tick (dt : interval)
| Reserve (fault : option exn) (fresh : uuid) (ctx : RequestContext) (model : string) (tokens : Z) (cost : Q)
| Release (fault : option exn) (r : BudgetReservation) (reason : string)
| Settle (fault : option exn) (r : BudgetReservation) (u : UsageRecord)
| RecordUsage (fault : option exn) (u : UsageRecord)
| CheckBudget (fault : option exn) (ctx : RequestContext) (estimated : Z).

Notation ledger_state := (timestamp * (db * memory))%type.

Section sequences.
Variable month_start : timestamp → timestamp.
Variable st : ledger_settings.

Definition exec (a : action) (s : ledger_state) : ledger_state :=
  let '(now, m) := s in
  match a with
  | Tick dt => (now + Z.max 0 dt, m)
  | Reserve fault fresh ctx model tokens cost => (now, snd (reserve month_start st now fault fresh ctx model tokens cost m))
  | Release fault r reason => (now, snd (release now fault r reason m))
  | Settle fault r u => (now, snd (settle st now fault r u m))
  | RecordUsage fault u => (now, snd (record st now fault u m))
  | CheckBudget fault ctx estimated => (now, snd (check month_start st now fault ctx estimated m))
  end.

Fixpoint exec_all (l : list action) (s : ledger_state) : ledger_state :=
  match l with [] => s | a :: l' => exec_all l' (exec a s) end.

(** Tokens or money: what a row counts for, and where the window starts. *)
Record currency := mkCurrency {
  cy_used : llm_usage → Q;
  cy_held : budget_reservation → Q;
  cy_spent : UsageRecord → Q;
  cy_start : timestamp → timestamp
}.

Definition tokens : currency := mkCurrency (fun u => inject_Z (lu_total_tokens u))
  (fun r => inject_Z (br_estimated_tokens r)) (fun u => inject_Z (ur_total u)) day_start.

Definition money : currency := mkCurrency lu_cost_usd br_estimated_cost_usd (fun u => pico (ur_cost_usd u)) month_start.

Definition committed (c : currency) (t : uuid) (now : timestamp) (d : db) : Q :=
  (total (cy_used c) (visible t (since (cy_start c now))) (usages d)
   + total (cy_held c) (visible t (is_held now)) (reservations d))%Q.

(** What a call spends beyond what is still held for it. *)
Definition excess (c : currency) (t : uuid) (now : timestamp) (id : option uuid) (u : UsageRecord) (d : db) : Q :=
  if negb (ur_tenant_id u =? t)%N then 0%Q
  else match id with
       | None => Qmax_bool 0 (cy_spent c u)
       | Some i => Qmax_bool 0 (cy_spent c u - total (cy_held c)
                     (visible t (fun r => is_held now r && (br_id r =? i)%N)) (reservations d))
       end.

Definition overshoot (c : currency) (t : uuid) (a : action) (s : ledger_state) : Q :=
  match a with
  | Settle _ r u => excess c t s.1 (bv_id r) u s.2.1
  | RecordUsage _ u => excess c t s.1 None u s.2.1
  | _ => 0%Q
  end.

Fixpoint total_overshoot (c : currency) (t : uuid) (l : list action) (s : ledger_state) : Q :=
  match l with [] => 0%Q | a :: l' => (overshoot c t a s + total_overshoot c t l' (exec a s))%Q end.

End sequences.

Section bound.
#[local] Open Scope Q_scope.
Variable month_start : timestamp → timestamp.
Variable st : ledger_settings.
Variable c : currency.
Variable t : uuid.

Definition nonneg (d : db) : Prop :=
  Forall (fun u => 0 <= cy_used c u) (usages d) ∧ Forall (fun r => 0 <= cy_held c r) (reservations d).

Hypothesis used_row : ∀ now u, cy_used c (usage_row st now u) = cy_spent c u.
Hypothesis used_nonneg : ∀ u, usage_fits u = true → 0 <= cy_used c u.
Hypothesis held_nonneg : ∀ r, reservation_fits r = true → 0 <= cy_held c r.
Hypothesis held_expired : ∀ r, cy_held c (set_expired r) = cy_held c r.
Hypothesis held_released : ∀ now w r, cy_held c (set_released now w r) = cy_held c r.
Hypothesis held_settled : ∀ now u r, cy_held c (set_settled now u r) = cy_held c r.
Hypothesis start_mono : ∀ x y, (x <= y)%Z → (cy_start c x <= cy_start c y)%Z.

(** [bound] is what a reservation that was granted leaves room under. *)
Variable bound : db → Q.
Hypothesis bound_tenants : ∀ d d', tenants d' = tenants d → bound d' = bound d.
Hypothesis granted : ∀ now fresh ctx model tk cost d id d',
  reserve_in_session month_start st now fresh ctx model tk cost d = (Ok id, d') → tenant_of ctx = t → nonneg d →
  committed c t now d' < bound d.

Lemma nonneg_update d q f : nonneg d → (∀ r, cy_held c (f r) = cy_held c r) →
  nonneg (with_reservations (update_where q f (reservations d)) d).
Proof.
  intros [H1 H2] Hf. split; [done|]. cbn. apply Forall_update_where; [|done].
  intros r Hr _. by rewrite Hf.
Qed.

Lemma committed_tick d now now' : nonneg d → (now <= now')%Z → committed c t now' d <= committed c t now d.
Proof.
  intros [H1 H2] Hn. apply Qplus_le_compat; apply total_mono; auto; unfold visible, since, is_held;
    intros r; rewrite !andb_true_iff.
  - specialize (start_mono now now' Hn). rewrite !Z.leb_le. intros []. split; [done|lia].
  - rewrite !Z.ltb_lt. intros (? & ? & ?). repeat split; auto. lia.
Qed.

Lemma committed_usage now d u : (lu_tenant u = t → 0 <= cy_used c u) →
  committed c t now (with_usage u d) <= committed c t now d + (if (lu_tenant u =? t)%N then cy_used c u else 0).
Proof.
  intros Hu. unfold committed. change (usages (with_usage u d)) with (usages d ++ [u]).
  change (reservations (with_usage u d)) with (reservations d). rewrite total_app, total_cons.
  unfold visible at 2, row_tenant, tenant_usage. change (total (cy_used c) (visible t (since (cy_start c now))) []) with 0.
  destruct (lu_tenant u =? t)%N eqn:E; cbn [andb].
  - apply N.eqb_eq in E. specialize (Hu E). destruct (since _ u); lra.
  - lra.
Qed.

(** Rows that are not held afterwards are no longer committed. *)
Lemma committed_update now d q f : (∀ r, q r = true → is_held now (f r) = false) →
  committed c t now (with_reservations (update_where q f (reservations d)) d) ==
  committed c t now d - total (cy_held c) (fun r => visible t (is_held now) r && q r) (reservations d).
Proof.
  intros Hf. unfold committed. change (usages (with_reservations ?l d)) with (usages d).
  change (reservations (with_reservations ?l d)) with l. rewrite total_update.
  - rewrite (total_split (cy_held c) (visible t (is_held now)) q (reservations d)). ring.
  - intros r Hr. unfold visible. by rewrite (Hf r Hr), andb_false_r.
Qed.

Lemma committed_shrinks now d q f : nonneg d → (∀ r, q r = true → is_held now (f r) = false) →
  committed c t now (with_reservations (update_where q f (reservations d)) d) <= committed c t now d.
Proof.
  intros [_ H] Hf. rewrite committed_update by done.
  pose proof (total_nonneg (cy_held c) (fun r => visible t (is_held now) r && q r) _ H). lra.
Qed.

Lemma Qmax_bool_ub x y : x <= Qmax_bool x y ∧ y <= Qmax_bool x y.
Proof.
  unfold Qmax_bool. destruct (Qle_bool x y) eqn:E.
  - apply Qle_bool_iff in E. split; lra.
  - assert (y <= x); [|split; lra]. apply Qlt_le_weak, Qnot_le_lt. intros H. apply Qle_bool_iff in H. congruence.
Qed.

(** What one step does: it commits at most its overshoot more, or it is a reservation
    that was granted. *)
Definition step_ok (d d' : db) (before after over : Q) : Prop :=
  tenants d' = tenants d ∧ nonneg d' ∧ (after <= before + over ∨ after < bound d).

Lemma step_same d now over : nonneg d → 0 <= over → step_ok d d (committed c t now d) (committed c t now d) over.
Proof. intros H Ho. split; [done|]. split; [done|]. left. lra. Qed.

Lemma nonneg_usage d u : nonneg d → usage_fits u = true → nonneg (with_usage u d).
Proof. intros [H1 H2] Hu. split; [|done]. apply Forall_app. split; [done|]. constructor; [auto|constructor]. Qed.

Lemma usage_step now u d over :
  nonneg d → usage_fits (usage_row st now u) = true →
  (if (ur_tenant_id u =? t)%N then cy_spent c u else 0) <= over →
  step_ok d (with_usage (usage_row st now u) d) (committed c t now d)
    (committed c t now (with_usage (usage_row st now u) d)) over.
Proof.
  intros Hd Hf Ho. split; [done|]. split; [by apply nonneg_usage|]. left.
  pose proof (committed_usage now d (usage_row st now u) (fun _ => used_nonneg _ Hf)) as H.
  rewrite used_row in H. cbn [lu_tenant usage_row] in H. lra.
Qed.

Lemma settle_step now id u d :
  nonneg d → usage_fits (usage_row st now u) = true →
  let d1 := with_reservations
    (update_where (visible (ur_tenant_id u) (settleable id)) (set_settled now u) (reservations d)) d in
  step_ok d (with_usage (usage_row st now u) d1) (committed c t now d)
    (committed c t now (with_usage (usage_row st now u) d1)) (excess c t now (Some id) u d).
Proof.
  intros Hd Hf d1. set (q := visible (ur_tenant_id u) (settleable id)).
  assert (Hd1 : nonneg d1) by (apply nonneg_update; [done|intros; apply held_settled]).
  split; [done|]. split; [by apply nonneg_usage|]. left.
  pose proof (committed_usage now d1 (usage_row st now u) (fun _ => used_nonneg _ Hf)) as H.
  rewrite used_row in H. cbn [lu_tenant usage_row] in H.
  assert (E : committed c t now d1 == committed c t now d -
    total (cy_held c) (fun r => visible t (is_held now) r && q r) (reservations d)).
  { apply committed_update. intros r _. unfold is_held. done. }
  rewrite E in H. unfold excess. destruct (ur_tenant_id u =? t)%N eqn:Et; cbn [negb] in *.
  - apply N.eqb_eq in Et.
    assert (E2 : total (cy_held c) (fun r => visible t (is_held now) r && q r) (reservations d) ==
      total (cy_held c) (visible t (fun r => is_held now r && (br_id r =? id)%N)) (reservations d)).
    { apply total_ext. intros r _. unfold q, visible, settleable, is_held. rewrite Et.
      destruct (row_tenant r =? t)%N, (br_id r =? id)%N, (bool_decide (br_status r = rs_reserved)),
        (now <? br_expires_at r)%Z; done. }
    rewrite E2 in H. destruct (Qmax_bool_ub 0 (cy_spent c u -
      total (cy_held c) (visible t (fun r => is_held now r && (br_id r =? id)%N)) (reservations d))) as [_ Hm]. lra.
  - pose proof (total_nonneg (cy_held c) (fun r => visible t (is_held now) r && q r) _ (proj2 Hd)). lra.
Qed.

Lemma excess_nonneg now id u d : 0 <= excess c t now id u d.
Proof.
  unfold excess. destruct (negb _); [lra|]. destruct id; apply Qmax_bool_ub.
Qed.

Lemma record_step now fault u d w : nonneg d →
  step_ok d (snd (record st now fault u (d, w))).1 (committed c t now d)
    (committed c t now (snd (record st now fault u (d, w))).1) (excess c t now None u d).
Proof.
  intros Hd. unfold record, try_except, bind.
  destruct (in_session_cases fault (insert_usage st now u) d w) as [[e ->]|(-> & x & d' & Em & ->)].
  - apply step_same; [done|apply excess_nonneg].
  - apply insert_usage_ok in Em as [Hf ->].
    change ((when true (add_to_cache u) (with_usage (usage_row st now u) d, w)).2.1) with (with_usage (usage_row st now u) d).
    apply usage_step; [done|done|]. unfold excess. destruct (ur_tenant_id u =? t)%N; cbn [negb]; [|lra].
    apply Qmax_bool_ub.
Qed.

Lemma settle_op_step now fault r u d w : nonneg d →
  step_ok d (snd (settle st now fault r u (d, w))).1 (committed c t now d)
    (committed c t now (snd (settle st now fault r u (d, w))).1) (excess c t now (bv_id r) u d).
Proof.
  intros Hd. unfold settle. destruct (bv_id r) as [id|]; [|by apply record_step]. unfold try_except, bind.
  destruct (in_session_cases fault (settle_in_session st now id u) d w) as [[e ->]|(-> & b & d' & Em & ->)].
  - apply step_same; [done|apply excess_nonneg].
  - apply settle_in_session_ok in Em. destruct b.
    + destruct Em as [Hf ->]. by apply settle_step.
    + subst d'. apply step_same; [done|apply excess_nonneg].
Qed.

Lemma release_step now fault r why d w : nonneg d →
  step_ok d (snd (release now fault r why (d, w))).1 (committed c t now d)
    (committed c t now (snd (release now fault r why (d, w))).1) 0.
Proof.
  intros Hd. unfold release. destruct (bv_id r) as [id|]; [|apply step_same; [done|lra]]. unfold try_except, bind.
  match goal with |- context [in_session fault ?m] =>
    destruct (in_session_cases fault m d w) as [[e ->]|(-> & b & d' & Em & ->)] end.
  - apply step_same; [done|lra].
  - injection Em as _ <-. split; [done|]. split; [apply nonneg_update; [done|intros; apply held_released]|].
    left. pose proof (committed_shrinks now d (visible (bv_tenant_id r) (releasable id)) (set_released now why) Hd) as H.
    assert (Hs := H (fun _ _ => eq_refl)). unfold with_reservations in Hs. cbn [snd fst ret]. lra.
Qed.

Lemma reserve_step now fault fresh ctx model tk cost d w : nonneg d →
  step_ok d (snd (reserve month_start st now fault fresh ctx model tk cost (d, w))).1 (committed c t now d)
    (committed c t now (snd (reserve month_start st now fault fresh ctx model tk cost (d, w))).1) 0.
Proof.
  intros Hd. assert (Hs : step_ok d d (committed c t now d) (committed c t now d) 0) by (apply step_same; [done|lra]).
  unfold reserve. destruct (_ || _); [exact Hs|]. unfold try_except, bind.
  match goal with |- context [in_session fault ?m] =>
    destruct (in_session_cases fault m d w) as [[e ->]|(-> & id & d' & Em & ->)] end.
  - destruct e; try exact Hs; destruct (negb (may_go_unmetered st _)); exact Hs.
  - cbn [snd fst ret]. pose proof (granted _ _ _ _ _ _ _ _ _ Em) as Hg.
    pose proof (reserve_in_session_ok _ _ _ _ _ _ _ _ _ _ _ Em) as (-> & -> & Hf & _).
    set (r := new_reservation st now fresh ctx model tk cost) in *.
    set (swept := update_where (visible (tenant_of ctx) (ran_out now)) set_expired (reservations d)) in *.
    assert (Hn1 : nonneg (with_reservations swept d)) by (apply nonneg_update; [done|intros; apply held_expired]).
    assert (Hn : nonneg (with_reservations (swept ++ [r]) d)).
    { split; [apply Hn1|]. apply Forall_app. split; [apply Hn1|]. constructor; [by apply held_nonneg|constructor]. }
    split; [done|]. split; [exact Hn|]. destruct (N.eq_dec (tenant_of ctx) t) as [Et|Et]; [right; by apply Hg|left].
    assert (Hle : committed c t now (with_reservations swept d) <= committed c t now d)
      by (apply committed_shrinks; [done|intros; reflexivity]).
    assert (E : committed c t now (with_reservations (swept ++ [r]) d) == committed c t now (with_reservations swept d)).
    { unfold committed. change (reservations (with_reservations ?l d)) with l. rewrite total_app, total_cons.
      assert (Hv : visible t (is_held now) r = false) by (apply andb_false_iff; left; by apply N.eqb_neq).
      rewrite Hv.
      rewrite total_nil. change (usages (with_reservations ?l d)) with (usages d). ring. }
    rewrite E. lra.
Qed.

(** Reading the ledger, and remembering what was read, leaves the database alone. *)
Lemma in_session_reads {A} fault (m : M db A) d : (∀ x, snd (m x) = x) →
  preserves (fun s : db * memory => s.1 = d) (in_session fault m).
Proof.
  intros Hm [d0 w] E. cbn in E. subst d0.
  destruct (in_session_cases fault m d w) as [[e ->]|(_ & a & d' & Em & ->)]; [done|].
  cbn. specialize (Hm d). by rewrite Em in Hm.
Qed.

Lemma remember_reads f d : preserves (fun s : db * memory => s.1 = d) (remember f).
Proof. by intros [d0 w]. Qed.

Lemma caps_reads ctx x : snd (caps st ctx x) = x.
Proof.
  unfold caps, tenant_session, tx, bind, caps_row, sql_select, gets, one_or_none. cbn [rows table_tenants].
  unfold bind. by destruct (select_where _ _) as [|? []].
Qed.

Lemma status_reads now fault ctx d :
  preserves (fun s : db * memory => s.1 = d) (status month_start st now fault ctx).
Proof.
  unfold status. apply preserves_bind; [apply preserves_get|]. intros s.
  apply preserves_bind; [|intros tot; apply preserves_bind; [by apply in_session_reads|]; intros held;
    apply preserves_bind; [apply in_session_reads, caps_reads|intros; apply preserves_ret]].
  destruct (fresh_window _ _ _); [apply preserves_ret|].
  apply preserves_bind; [by apply in_session_reads|]. intros v.
  apply preserves_bind; [apply remember_reads|]. intros []. apply preserves_ret.
Qed.

Lemma check_reads now fault ctx est d :
  preserves (fun s : db * memory => s.1 = d) (check month_start st now fault ctx est).
Proof.
  unfold check. apply preserves_bind.
  - apply preserves_try_except; [apply preserves_bind; [apply status_reads|intros; apply preserves_ret]|].
    intros e k [= <-]. destruct (may_go_unmetered _ _); [|apply preserves_raise].
    apply preserves_bind; [apply remember_reads|]. intros []. apply preserves_ret.
  - intros [b|b]; [|apply preserves_ret]. destruct (_ || _); [apply preserves_raise|apply preserves_ret].
Qed.

Lemma check_same now fault ctx est d w :
  (snd (check month_start st now fault ctx est (d, w))).1 = d.
Proof. by apply (check_reads now fault ctx est d (d, w)). Qed.

Lemma exec_step a now d w : nonneg d →
  let s' := exec month_start st a (now, (d, w)) in
  step_ok d s'.2.1 (committed c t now d) (committed c t s'.1 s'.2.1) (overshoot c t a (now, (d, w))).
Proof.
  intros Hd. destruct a; cbn [exec overshoot fst snd].
  - split; [done|]. split; [done|]. left.
    pose proof (committed_tick d now (now + Z.max 0 dt) Hd ltac:(lia)). cbn [fst snd]. lra.
  - by apply reserve_step.
  - by apply release_step.
  - by apply settle_op_step.
  - by apply record_step.
  - rewrite check_same. apply step_same; [done|lra].
Qed.

Lemma exec_all_bound l : ∀ now d w over, nonneg d → 0 <= over →
  committed c t now d <= over ∨ committed c t now d < bound d + over →
  let s' := exec_all month_start st l (now, (d, w)) in
  let over' := over + total_overshoot month_start st c t l (now, (d, w)) in
  committed c t s'.1 s'.2.1 <= over' ∨ committed c t s'.1 s'.2.1 < bound d + over'.
Proof.
  induction l as [|a l IH]; intros now d w over Hd Ho H.
  - cbn [exec_all total_overshoot fst snd]. destruct H; [left|right]; lra.
  - cbn [exec_all total_overshoot]. pose proof (exec_step a now d w Hd) as Hs. cbv zeta in Hs.
    assert (Hov : 0 <= overshoot c t a (now, (d, w))) by (destruct a; cbn [overshoot]; try apply excess_nonneg; lra).
    destruct (exec month_start st a (now, (d, w))) as [now1 [d1 w1]]. cbn [fst snd] in Hs.
    destruct Hs as (Ht & Hn & Hc). specialize (IH now1 d1 w1 (over + overshoot c t a (now, (d, w))) Hn ltac:(lra)).
    rewrite (bound_tenants _ _ Ht) in IH.
    destruct IH as [IH|IH]; [|left|right].
    + destruct Hc as [Hc|Hc]; [destruct H as [H|H]; [left|right]|right]; lra.
    + cbv zeta. lra.
    + cbv zeta. lra.
Qed.

End bound.

(** ** Tokens and money *)

Section currencies.
#[local] Open Scope Q_scope.
Variable month_start : timestamp → timestamp.
Variable st : ledger_settings.
Variable t : uuid.

Definition token_bound (d : db) : Q := inject_Z (daily_cap_of st (tenant_caps t d)).

(** An estimate is stored to six places, so a granted reservation may exceed the cap by
    half a unit of the last. *)
Definition money_bound (d : db) : Q := monthly_cap_of st (tenant_caps t d) + (1 # 2000000).

Lemma committed_tokens now d :
  committed tokens t now d == inject_Z (tokens_today now t d + reserved_tokens now t d).
Proof. unfold committed. cbn [tokens cy_used cy_held cy_start]. by rewrite !total_Z, inject_Z_plus. Qed.

Lemma committed_money now d : committed (money month_start) t now d = cost_month month_start now t d + reserved_cost now t d.
Proof. done. Qed.

(** A granted reservation, in either currency: what was committed, and its own row. *)
Lemma committed_granted c now fresh ctx model tk cost d :
  let swept := update_where (visible (tenant_of ctx) (ran_out now)) set_expired (reservations d) in
  let r := new_reservation st now fresh ctx model tk cost in
  0 <= cy_held c r →
  committed c t now (with_reservations (swept ++ [r]) d) <= committed c t now (with_reservations swept d) + cy_held c r.
Proof.
  intros swept r Hr. unfold committed. change (reservations (with_reservations ?l d)) with l.
  change (usages (with_reservations ?l d)) with (usages d). rewrite total_app, total_cons, total_nil.
  destruct (visible t (is_held now) r); lra.
Qed.

Lemma granted_tokens now fresh ctx model tk cost d id d' :
  reserve_in_session month_start st now fresh ctx model tk cost d = (Ok id, d') → tenant_of ctx = t →
  committed tokens t now d' < token_bound d.
Proof.
  intros E Et. apply reserve_in_session_ok in E as (_ & -> & Hf & Ht & _). rewrite Et in Ht.
  assert (Hr : 0 <= cy_held tokens (new_reservation st now fresh ctx model tk cost)).
  { unfold reservation_fits, int4 in Hf. bool_to_prop. cbn. change 0 with (inject_Z 0). rewrite <- Zle_Qle. done. }
  eapply Qle_lt_trans; [by apply committed_granted|]. rewrite committed_tokens, Et. cbn [tokens cy_held br_estimated_tokens new_reservation].
  rewrite <- inject_Z_plus. unfold token_bound. rewrite <- Zlt_Qlt. exact Ht.
Qed.

Lemma granted_money now fresh ctx model tk cost d id d' :
  reserve_in_session month_start st now fresh ctx model tk cost d = (Ok id, d') → tenant_of ctx = t →
  committed (money month_start) t now d' < money_bound d.
Proof.
  intros E Et. apply reserve_in_session_ok in E as (_ & -> & Hf & _ & Hc). rewrite Et in Hc.
  assert (Hr : 0 <= cy_held (money month_start) (new_reservation st now fresh ctx model tk cost)).
  { unfold reservation_fits, numeric_fits in Hf. bool_to_prop. by apply Qle_bool_iff. }
  eapply Qle_lt_trans; [by apply committed_granted|]. rewrite committed_money, Et.
  cbn [money cy_held br_estimated_cost_usd new_reservation]. unfold money_bound.
  pose proof (numeric_le 1000000 cost) as Hn. change (1 # 2 * 1000000) with (1 # 2000000) in Hn. unfold micro.
  change (reserved_cost now t (with_reservations ?l d)) with (reserved_cost now t (with_reservations l d)) in *.
  change (cost_month month_start now t (with_reservations ?l d)) with (cost_month month_start now t d). lra.
Qed.

Lemma usage_fits_nonneg u : usage_fits u = true → 0 <= inject_Z (lu_total_tokens u) ∧ 0 <= lu_cost_usd u.
Proof.
  unfold usage_fits, int4, numeric_fits. intros H. bool_to_prop.
  split; [change 0 with (inject_Z 0); by rewrite <- Zle_Qle|by apply Qle_bool_iff].
Qed.

Lemma reservation_fits_nonneg r :
  reservation_fits r = true → 0 <= inject_Z (br_estimated_tokens r) ∧ 0 <= br_estimated_cost_usd r.
Proof.
  unfold reservation_fits, int4, numeric_fits. intros H. bool_to_prop.
  split; [change 0 with (inject_Z 0); by rewrite <- Zle_Qle|by apply Qle_bool_iff].
Qed.

(** What a sequence of operations on an empty ledger leaves committed. *)
Definition stays_within (c : currency) (bound : db → Q) : Prop :=
  ∀ l now d w, usages d = [] → reservations d = [] →
    let s := exec_all month_start st l (now, (d, w)) in
    let extra := total_overshoot month_start st c t l (now, (d, w)) in
    committed c t s.1 s.2.1 <= extra ∨ committed c t s.1 s.2.1 < bound d + extra.

Lemma tokens_stay_within : stays_within tokens token_bound.
Proof.
  intros l now d w Hu Hr.
  destruct (exec_all_bound month_start st tokens t) with (bound := token_bound) (l := l) (now := now) (d := d) (w := w)
    (over := 0) as [H|H]; try done; try (intros; reflexivity).
  - intros u Hf. by apply usage_fits_nonneg.
  - intros r Hf. by apply reservation_fits_nonneg.
  - intros x y Hxy. apply Z.mul_le_mono_nonneg_r; [done|]. by apply Z.div_le_mono.
  - intros d1 d2 E. unfold token_bound, tenant_caps. by rewrite E.
  - intros now0 fresh ctx model tk cost d1 id d2 E Et _. by eapply granted_tokens.
  - unfold nonneg. rewrite Hu, Hr. by split.
  - left. unfold committed. rewrite Hu, Hr. apply Qle_refl.
  - left. rewrite Qplus_0_l in H. exact H.
  - right. rewrite Qplus_0_l in H. exact H.
Qed.

Lemma money_stays_within : (∀ x y, (x <= y)%Z → (month_start x <= month_start y)%Z) →
  stays_within (money month_start) money_bound.
Proof.
  intros Hm l now d w Hu Hr.
  destruct (exec_all_bound month_start st (money month_start) t) with (bound := money_bound) (l := l) (now := now)
    (d := d) (w := w) (over := 0) as [H|H]; try done; try (intros; reflexivity).
  - intros u Hf. by apply usage_fits_nonneg.
  - intros r Hf. by apply reservation_fits_nonneg.
  - intros d1 d2 E. unfold money_bound, tenant_caps. by rewrite E.
  - intros now0 fresh ctx model tk cost d1 id d2 E Et _. by eapply granted_money.
  - unfold nonneg. rewrite Hu, Hr. by split.
  - left. unfold committed. rewrite Hu, Hr. apply Qle_refl.
  - left. rewrite Qplus_0_l in H. exact H.
  - right. rewrite Qplus_0_l in H. exact H.
Qed.

End currencies.

Module BudgetDemo.
Definition st : ledger_settings := mkLedgerSettings 100 25 true 5000000 900 None.
Definition months (x : timestamp) : timestamp := x / (30 * 86400000000) * (30 * 86400000000).
Definition d0 : db := empty_db <| tenants := [mkTenantRow 1 "acme" None None] |>.
Definition m0 : memory := mkMemory ∅ ∅.
Definition usage (n : Z) : UsageRecord :=
  mkUsageRecord 1 11 None "chat" "chat" "gpt-4o" n 0 (n # 100000) false true.
Definition held (id : uuid) (n : Z) : BudgetReservation := mkBudgetReservation (Some id) 1 n (n # 100000) true.
Definition ask (id : uuid) (n : Z) : action := Reserve None id Demo.ctx "gpt-4o" n (n # 100000).
(** Sixty held, fifty refused, fifty-five spent of the sixty, forty held. *)
Definition day1 : list action :=
  [ask 90 60; ask 91 50; Tick 1000; Settle None (held 90 60) (usage 55); ask 92 40].
(** The second reservation runs out before it is settled. *)
Definition day2 : list action :=
  [ask 90 60; Tick 900000000; ask 91 90; Settle None (held 90 60) (usage 55)].
Definition after (l : list action) : timestamp * (db * memory) := exec_all months st l (7, (d0, m0)).
End BudgetDemo.

(** C11: reservations bound spend.  Start with an empty ledger and run any sequence of its
    operations, for any tenants, under any handles, with time passing and the database
    failing at any of them.  A tenant's tokens of today together with its live
    reservations then stay below its daily cap, and its cost of this month with its live
    reservations below its monthly cap (to half a unit of the sixth place, which is as
    finely as an estimate is stored), plus only what calls have spent beyond what was
    still held for them: more than their estimate, after their reservation had run out,
    or with no reservation at all. *)
Theorem reservations_bound_spend month_start st t l now d w :
  (∀ x y, x <= y → month_start x <= month_start y) → usages d = [] → reservations d = [] →
  let s := exec_all month_start st l (now, (d, w)) in
  let extra_tokens := total_overshoot month_start st tokens t l (now, (d, w)) in
  let extra_cost := total_overshoot month_start st (money month_start) t l (now, (d, w)) in
  let in_use := inject_Z (tokens_today s.1 t s.2.1 + reserved_tokens s.1 t s.2.1) in
  let cost := (cost_month month_start s.1 t s.2.1 + reserved_cost s.1 t s.2.1)%Q in
  (in_use <= extra_tokens ∨ in_use < inject_Z (daily_cap_of st (tenant_caps t d)) + extra_tokens)%Q ∧
  (cost <= extra_cost ∨ cost < monthly_cap_of st (tenant_caps t d) + (1 # 2000000) + extra_cost)%Q.
Proof.
  intros Hm Hu Hr s extra_tokens extra_cost in_use cost. split.
  - pose proof (tokens_stay_within month_start st t l now d w Hu Hr) as H. cbv zeta in H.
    rewrite committed_tokens in H. exact H.
  - exact (money_stays_within month_start st t Hm l now d w Hu Hr).
Qed.

Lemma reservations_bound_spend_witness :
  tokens_today (BudgetDemo.after BudgetDemo.day1).1 1 (BudgetDemo.after BudgetDemo.day1).2.1 = 55 ∧
  (inject_Z (55 + reserved_tokens (BudgetDemo.after BudgetDemo.day1).1 1 (BudgetDemo.after BudgetDemo.day1).2.1) < 100)%Q ∧
  (inject_Z (tokens_today (BudgetDemo.after BudgetDemo.day2).1 1 (BudgetDemo.after BudgetDemo.day2).2.1 +
     reserved_tokens (BudgetDemo.after BudgetDemo.day2).1 1 (BudgetDemo.after BudgetDemo.day2).2.1) < 100 + 55)%Q.
Proof.
  assert (Hm : ∀ x y, x <= y → BudgetDemo.months x <= BudgetDemo.months y).
  { intros x y H. unfold BudgetDemo.months. apply Z.mul_le_mono_nonneg_r; [lia|]. apply Z.div_le_mono; lia. }
  destruct (reservations_bound_spend BudgetDemo.months BudgetDemo.st 1 BudgetDemo.day1 7 BudgetDemo.d0 BudgetDemo.m0
    Hm eq_refl eq_refl) as [H1 _].
  destruct (reservations_bound_spend BudgetDemo.months BudgetDemo.st 1 BudgetDemo.day2 7 BudgetDemo.d0 BudgetDemo.m0
    Hm eq_refl eq_refl) as [H2 _].
  split; [by vm_compute|]. split.
  - destruct H1 as [H1|H1]; [vm_compute in H1; exfalso; by apply H1|]. exact H1.
  - destruct H2 as [H2|H2]; [vm_compute in H2; exfalso; by apply H2|]. exact H2.
Defined.
