(* ===== verification/Cache.v ===== *)
(** The response cache: [platform_core/scaling/cache.py], the adapter of
    [platform_core/api/routes/query.py] that the model-call chain sees, and the types of the
    port [platform_core/ports/llm.py].

    Redis is a map from keys to what [SETEX] stored under them, with the time it goes; an
    entry whose text is not such a response is [None].  [down] says that Redis does not
    answer.  [sha256] is a parameter. *)
From Stdlib Require Import Ascii.
From S2P Require Import Prelude Json Identity.

(** * The port *)

Record TokenUsage := mkTokenUsage {
  tu_input_tokens : Z;
  tu_output_tokens : Z;
  tu_reported : bool
}.

Definition tu_total (u : TokenUsage) : Z := tu_input_tokens u + tu_output_tokens u.

(** [temperature] is a JSON number; [messages], [tools] and [response_format] are JSON. *)
Record ChatRequest := mkChatRequest {
  rq_messages : list json;
  rq_model : string;
  rq_temperature : option json;
  rq_max_tokens : option Z;
  rq_tools : option (list json);
  rq_response_format : option json;
  rq_cacheable : bool
}.

(** Without the latency and the cassette's key. *)
Record ChatResponse := mkChatResponse {
  rs_content : string;
  rs_model : string;
  rs_usage : TokenUsage;
  rs_cost_usd : Q;
  rs_finish_reason : string;
  rs_tool_calls : list json;
  rs_cache_hit : bool;
  rs_attempts : Z
}.

#[export] Instance eta_request : Eta ChatRequest := fun r =>
  mkChatRequest (rq_messages r) (rq_model r) (rq_temperature r) (rq_max_tokens r) (rq_tools r)
    (rq_response_format r) (rq_cacheable r).

#[export] Instance eta_response : Eta ChatResponse := fun r =>
  mkChatResponse (rs_content r) (rs_model r) (rs_usage r) (rs_cost_usd r) (rs_finish_reason r)
    (rs_tool_calls r) (rs_cache_hit r) (rs_attempts r).

(** * The store *)

(** The JSON object [put] writes. *)
Record cached := mkCached {
  ca_content : string;
  ca_model : string;
  ca_usage : TokenUsage;
  ca_cost_usd : Q;
  ca_finish_reason : string
}.

Record CacheStats := mkCacheStats { hits : Z; misses : Z; errors : Z }.

#[export] Instance eta_stats : Eta CacheStats := fun s => mkCacheStats (hits s) (misses s) (errors s).

Definition hit_ratio (s : CacheStats) : Q :=
  if hits s + misses s =? 0 then 0%Q else (inject_Z (hits s) / inject_Z (hits s + misses s))%Q.

Record redis_cache := mkRedisCache {
  store : gmap string (option cached * timestamp);
  stats : CacheStats
}.

#[export] Instance eta_redis_cache : Eta redis_cache := fun c => mkRedisCache (store c) (stats c).

Definition DEFAULT_TTL_SECONDS : Z := 3600.

Definition count_error (c : redis_cache) : redis_cache :=
  c <| stats := (stats c) <| errors := errors (stats c) + 1 |> |>.
Definition count_miss (c : redis_cache) : redis_cache :=
  c <| stats := (stats c) <| misses := misses (stats c) + 1 |> |>.
Definition count_hit (c : redis_cache) : redis_cache :=
  c <| stats := (stats c) <| hits := hits (stats c) + 1 |> |>.

Section cache.
Variable sha256 : string → string.

Definition key_prefix (t : uuid) : string := "platform:cache:" +:+ uuid_str t +:+ ":".

(** [RedisSemanticCache.key]. *)
Definition key (ctx : RequestContext) (payload : json) : string :=
  key_prefix (tenant_of ctx) +:+ sha256 (utf8 (dumps true (canonical payload))).

Definition live_entry (now : timestamp) (c : redis_cache) (k : string) : option (option cached) :=
  match store c !! k with
  | Some (v, expires) => if now <? expires then Some v else None
  | None => None
  end.

Definition cache_get (now : timestamp) (down : bool) (k : string) : M redis_cache (option cached) :=
  fun c =>
    if down then (Ok None, count_error c)
    else match live_entry now c k with
         | None => (Ok None, count_miss c)
         | Some (Some v) => (Ok (Some v), count_hit c)
         | Some None => (Ok None, count_error (count_hit c))
         end.

Definition cached_of (r : ChatResponse) : cached :=
  mkCached (rs_content r) (rs_model r) (rs_usage r) (rs_cost_usd r) (rs_finish_reason r).

Definition cache_put (now : timestamp) (down : bool) (ttl : Z) (k : string) (r : ChatResponse) : M redis_cache unit :=
  fun c =>
    if down then (Ok tt, count_error c)
    else (Ok tt, c <| store := <[k := (Some (cached_of r), now + seconds ttl)]> (store c) |>).

(** The keys [SCAN] finds under the tenant's prefix are deleted. *)
Definition invalidate_tenant (down : bool) (t : uuid) : M redis_cache Z :=
  fun c =>
    if down then (Ok 0, c)
    else let doomed := filter (fun kv => startswith (key_prefix t) kv.1 = true) (store c) in
         (Ok (Z.of_nat (size doomed)),
          c <| store := filter (fun kv => startswith (key_prefix t) kv.1 = false) (store c) |>).

Definition response_from_cached (v : cached) : ChatResponse :=
  mkChatResponse (ca_content v) (ca_model v) (ca_usage v) 0 (ca_finish_reason v) [] true 1.

(** [_CacheAdapter.get] and what the chain makes of it: [ChatResponse] of the adapter's
    dictionary with [cache_hit] set. *)
Definition adapter_get (now : timestamp) (down : bool) (k : string) : M redis_cache (option ChatResponse) :=
  found <- cache_get now down k ;;
  ret (option_map (fun v => mkChatResponse (ca_content v) (ca_model v) (ca_usage v) 0 (ca_finish_reason v) [] true 1) found).

(** [_cache_key] of [platform_core/observability/llm.py]: the chain's own key. *)
Definition opt_json (o : option json) : json := coalesce o JNull.

Definition cache_payload (ctx : RequestContext) (r : ChatRequest) : json :=
  JObj [("tenant", JStr (uuid_str (tenant_of ctx))); ("model", JStr (rq_model r));
        ("messages", JArr (rq_messages r)); ("temperature", opt_json (rq_temperature r));
        ("tools", opt_json (option_map JArr (rq_tools r)))].

Definition cache_key (ctx : RequestContext) (r : ChatRequest) : string :=
  sha256 (utf8 (dumps_default (canonical (cache_payload ctx r)))).

End cache.

(** * What the chain puts and gets *)

Section chain.
Variable sha256 : string → string.

(** A response the chain stored, and for what. *)
Record put_event := mkPut {
  pe_at : timestamp;
  pe_down : bool;
  pe_ctx : RequestContext;
  pe_request : ChatRequest;
  pe_response : ChatResponse
}.

Definition chain_put (ttl : Z) (c : redis_cache) (e : put_event) : redis_cache :=
  snd (cache_put (pe_at e) (pe_down e) ttl (cache_key sha256 (pe_ctx e) (pe_request e)) (pe_response e) c).

Definition after_puts (ttl : Z) (l : list put_event) (c : redis_cache) : redis_cache := foldl (chain_put ttl) c l.

(** The same question: everything the key is made of. *)
Definition same_question (ctx ctx' : RequestContext) (r r' : ChatRequest) : Prop :=
  uuid_str (tenant_of ctx) = uuid_str (tenant_of ctx') ∧ rq_model r = rq_model r' ∧
  map canonical (rq_messages r) = map canonical (rq_messages r') ∧
  canonical (opt_json (rq_temperature r)) = canonical (opt_json (rq_temperature r')) ∧
  canonical (opt_json (option_map JArr (rq_tools r))) = canonical (opt_json (option_map JArr (rq_tools r'))).

Definition digest_collision : Prop := ∃ a b, a ≠ b ∧ sha256 a = sha256 b.

Definition wf_request (r : ChatRequest) : bool :=
  forallb wf_json (rq_messages r) && wf_json (opt_json (rq_temperature r))
  && wf_json (opt_json (option_map JArr (rq_tools r))).

Lemma sorted_cache_payload (t m ms te to : json) :
  order_by key_le [("tenant", t); ("model", m); ("messages", ms); ("temperature", te); ("tools", to)] =
  [("messages", ms); ("model", m); ("temperature", te); ("tenant", t); ("tools", to)].
Proof. vm_compute. reflexivity. Qed.

Lemma cache_key_inj ctx ctx' r r' :
  wf_request r = true → wf_request r' = true → cache_key sha256 ctx r = cache_key sha256 ctx' r' →
  same_question ctx ctx' r r' ∨ digest_collision.
Proof.
  intros Hw Hw' E. unfold cache_key in E.
  destruct (String.string_dec (utf8 (dumps_default (canonical (cache_payload ctx r))))
    (utf8 (dumps_default (canonical (cache_payload ctx' r'))))) as [Eq|Hne]; [left|right; by eexists _, _].
  apply utf8_inj in Eq. apply dumps_sp_inj in Eq.
  - unfold cache_payload in Eq. cbn [canonical map] in Eq. rewrite !sorted_cache_payload in Eq.
    injection Eq. intros. unfold same_question. repeat split; congruence.
  - apply wf_canonical. unfold wf_request in Hw. cbn. bool_to_prop. repeat (apply andb_true_iff; split); auto.
  - apply wf_canonical. unfold wf_request in Hw'. cbn. bool_to_prop. repeat (apply andb_true_iff; split); auto.
Qed.

Lemma chain_put_store ttl c e k :
  store (chain_put ttl c e) !! k =
  if pe_down e then store c !! k
  else if String.eqb (cache_key sha256 (pe_ctx e) (pe_request e)) k
       then Some (Some (cached_of (pe_response e)), pe_at e + seconds ttl) else store c !! k.
Proof.
  unfold chain_put, cache_put. destruct (pe_down e); [done|]. cbn [snd].
  change (store (c <| store := ?x |>)) with x.
  destruct (String.eqb_spec (cache_key sha256 (pe_ctx e) (pe_request e)) k) as [<-|Hne].
  - by rewrite lookup_insert_eq.
  - by rewrite lookup_insert_ne.
Qed.

(** Every entry comes from a put. *)
Lemma after_puts_inv ttl l : ∀ c, (∀ k, store c !! k = None) → ∀ k v x,
  store (after_puts ttl l c) !! k = Some (v, x) →
  ∃ e, In e l ∧ cache_key sha256 (pe_ctx e) (pe_request e) = k ∧ v = Some (cached_of (pe_response e)) ∧
    x = pe_at e + seconds ttl.
Proof.
  unfold after_puts. induction l as [|e l IH] using rev_ind; intros c Hc k v x E.
  - cbn in E. by rewrite Hc in E.
  - rewrite foldl_app in E. cbn [foldl] in E. rewrite chain_put_store in E.
    assert (Hold : store (foldl (chain_put ttl) c l) !! k = Some (v, x) → ∃ e0, In e0 (l ++ [e]) ∧
      cache_key sha256 (pe_ctx e0) (pe_request e0) = k ∧ v = Some (cached_of (pe_response e0)) ∧
      x = pe_at e0 + seconds ttl).
    { intros E0. destruct (IH c Hc k v x E0) as (e0 & Hin & H). exists e0. split; [|done]. apply in_or_app. by left. }
    destruct (pe_down e); [by apply Hold|].
    destruct (String.eqb_spec (cache_key sha256 (pe_ctx e) (pe_request e)) k) as [Ek|Hne]; [|by apply Hold].
    injection E as <- <-. exists e. split; [apply in_or_app; right; by left|]. done.
Qed.

(** A digest is hexadecimal text, so none of the chain's keys has the tenant prefix. *)
Definition hex_output : Prop := ∀ s, startswith "p" (sha256 s) = false.

Lemma chain_key_unprefixed ctx r t : hex_output → startswith (key_prefix t) (cache_key sha256 ctx r) = false.
Proof.
  intros H. unfold cache_key. specialize (H (utf8 (dumps_default (canonical (cache_payload ctx r))))).
  destruct (sha256 _) as [|a s]; [done|]. change (key_prefix t) with (String "p"%char ("latform:cache:" +:+ uuid_str t +:+ ":")).
  cbn [startswith] in *. rewrite andb_true_r in H. by rewrite H.
Qed.

End chain.

Module CacheDemo.
(** Any text serves as a digest here that begins with a hexadecimal digit. *)
Definition sha (s : string) : string := "0" +:+ s.
Definition rq : ChatRequest := mkChatRequest [JStr "hello"] "gpt-4o" None (Some 16) None None true.
Definition long_rq : ChatRequest := mkChatRequest [JStr "hello"] "gpt-4o" None None None (Some (JStr "json")) true.
Definition answer : ChatResponse :=
  mkChatResponse "Hel" "gpt-4o" (mkTokenUsage 4 16 true) (2 # 1000) "length" [JStr "call"] false 1.
Definition put1 : put_event := mkPut 0 false Demo.ctx rq answer.
Definition c0 : redis_cache := mkRedisCache ∅ (mkCacheStats 0 0 0).
End CacheDemo.

(** What a cached answer can be.  After any sequence of stores by the chain, into a cache
    that was empty, a hit is the stored answer of a request of the same tenant, to the same
    model, with the same messages, temperature and tools, made less than the time to live
    before - unless two texts have one digest; it costs nothing, says it was cached, and has
    lost the tool calls the stored answer had.  Neither the output limit nor the response
    format is part of the question.  A read never raises, whether Redis answers or not.  And
    invalidating any tenant's cache removes none of the chain's entries. *)
Theorem cached_answer_spec sha256 ttl l c ctx r now down :
  (∀ k, store c !! k = None) → wf_request r = true → Forall (fun e => wf_request (pe_request e) = true) l →
  let c1 := after_puts sha256 ttl l c in
  ∃ found c2, adapter_get now down (cache_key sha256 ctx r) c1 = (Ok found, c2) ∧ store c2 = store c1 ∧
  (∀ a, found = Some a →
     digest_collision sha256 ∨
     ∃ e, In e l ∧ same_question (pe_ctx e) ctx (pe_request e) r ∧ now < pe_at e + seconds ttl ∧
       a = (pe_response e) <| rs_cost_usd := 0%Q |> <| rs_tool_calls := [] |> <| rs_cache_hit := true |>
             <| rs_attempts := 1 |>) ∧
  (∀ limit format, cache_key sha256 ctx r =
     cache_key sha256 ctx (r <| rq_max_tokens := limit |> <| rq_response_format := format |>)) ∧
  (hex_output sha256 → ∀ t, store (snd (invalidate_tenant false t c1)) = store c1).
Proof.
  intros Hc Hw Hl c1. unfold adapter_get, bind, cache_get.
  assert (Hinv : hex_output sha256 → ∀ t, store (snd (invalidate_tenant false t c1)) = store c1).
  { intros Hx t. unfold invalidate_tenant. cbn [snd]. change (store (c1 <| store := ?x |>)) with x.
    apply map_filter_id. intros k [v x] Hk. destruct (after_puts_inv sha256 ttl l c Hc k v x Hk) as (e & _ & <- & _).
    by apply chain_key_unprefixed. }
  destruct down; [by eexists None, _|]. unfold live_entry.
  destruct (store c1 !! cache_key sha256 ctx r) as [[v x]|] eqn:E; [|by eexists None, _].
  destruct (after_puts_inv sha256 ttl l c Hc _ v x E) as (e & Hin & Hk & -> & ->).
  destruct (now <? pe_at e + seconds ttl) eqn:Et; [|by eexists None, _].
  eexists _, _. split; [reflexivity|]. split; [done|]. split; [|done]. intros a [= <-].
  rewrite List.Forall_forall in Hl.
  destruct (cache_key_inj sha256 _ _ _ _ (Hl e Hin) Hw Hk) as [Hq|Hcol]; [right|by left].
  exists e. split; [done|]. split; [done|]. split; [by apply Z.ltb_lt|]. by destruct (pe_response e).
Qed.

Lemma cached_answer_spec_witness :
  ∃ a c2, adapter_get 5 false (cache_key CacheDemo.sha Demo.ctx CacheDemo.long_rq)
    (after_puts CacheDemo.sha 3600 [CacheDemo.put1] CacheDemo.c0) = (Ok (Some a), c2) ∧
  rs_content a = "Hel" ∧ rs_tool_calls a = [] ∧
  store (snd (invalidate_tenant false 1 (after_puts CacheDemo.sha 3600 [CacheDemo.put1] CacheDemo.c0))) =
  store (after_puts CacheDemo.sha 3600 [CacheDemo.put1] CacheDemo.c0).
Proof.
  destruct (cached_answer_spec CacheDemo.sha 3600 [CacheDemo.put1] CacheDemo.c0 Demo.ctx CacheDemo.long_rq 5 false)
    as (found & c2 & E & _ & _ & _ & Hinv); [done|done|by repeat constructor|].
  destruct found as [a|]; [|apply (f_equal fst) in E; by vm_compute in E].
  exists a, c2. split; [exact E|]. apply (f_equal fst) in E. vm_compute in E. injection E as <-.
  split; [done|]. split; [done|]. apply Hinv. by intros s.
Defined.
