(* ===== verification/Llm.v ===== *)
(** The model call: [platform_core/observability/llm.py], with [interruptible_sleep] of
    [platform_core/correctness/cancellation.py].

    The provider is a parameter: what it answers to a request is a function of its own
    state, and [during k] is what other processes commit while attempt [k] and the wait
    after it last.  The tokeniser library is a parameter too: an encoder, for a model or
    the base one, that may be missing or may raise on a text.  Spans, metrics and latency
    are not modelled. *)
From Stdlib Require Import Qround.
From S2P Require Import Prelude Json Identity Db Leases Ledger Cache.

(** * Prices *)

(** USD per thousand tokens, input and output. *)
Definition MODEL_PRICING : list (string * (Q * Q)) := [
  ("gpt-4o", (25 # 10000, 1 # 100));
  ("gpt-4o-mini", (15 # 100000, 6 # 10000));
  ("gpt-4.1", (2 # 1000, 8 # 1000));
  ("gpt-4.1-mini", (4 # 10000, 16 # 10000));
  ("gpt-4.1-nano", (1 # 10000, 4 # 10000));
  ("gpt-5", (125 # 100000, 1 # 100));
  ("gpt-5-mini", (25 # 100000, 2 # 1000));
  ("o3-mini", (11 # 10000, 44 # 10000));
  ("text-embedding-3-small", (2 # 100000, 0));
  ("text-embedding-3-large", (13 # 100000, 0))]%Q.

Definition UNKNOWN_MODEL_PRICING : Q * Q := (25 # 10000, 1 # 100)%Q.

Definition rates (model : string) : Q * Q :=
  match List.find (fun e => String.eqb e.1 model) MODEL_PRICING with
  | Some e => e.2
  | None => UNKNOWN_MODEL_PRICING
  end.

Definition price (model : string) (input_tokens output_tokens : Z) : Q :=
  ((inject_Z input_tokens * (rates model).1 + inject_Z output_tokens * (rates model).2) / 1000)%Q.

(** * The provider *)

Record choice := mkChoice {
  co_content : option string;
  co_finish_reason : option string;
  co_tool_calls : list json
}.

(** The first choice, if any, and the usage block with its counts. *)
Record raw_response := mkRaw {
  rr_choice : option choice;
  rr_usage : option (option Z * option Z)
}.

(** An exception of the client library: its status code and its server's backoff. *)
Record failure := mkFailure {
  fl_status_code : option Z;
  fl_retry_after : option Q;
  fl_exn : exn
}.

Definition is_transient (f : failure) : bool :=
  match fl_status_code f with
  | Some c => (c =? 429) || (500 <=? c)
  | None => false
  end.

(** [float(retry_after) if retry_after else 2 ** (attempt - 1)], jittered; [rnd] is
    [random.uniform]'s fraction. *)
Definition backoff (attempt : Z) (rnd : Q) (f : failure) : Q :=
  let delay := match fl_retry_after f with
               | Some a => if Qeq_bool a 0 then inject_Z (2 ^ (attempt - 1)) else a
               | None => inject_Z (2 ^ (attempt - 1))
               end in
  (delay + rnd * (delay * (1 # 4)))%Q.

(** An encoder of the tokeniser library. *)
Definition encoder := string → result Z.

Section chain.
Variable P : Type.
Variable chat_create : ChatRequest → P → (raw_response + failure) * P.
Variable embed_create : string → list string → P → (option (option Z) * list (list Q) + exn) * P.
Variable encoding_for_model : string → option encoder.
Variable base_encoding : option encoder.
Variable str_of : json → string.
Variable sha256 : string → string.
Variable month_start : timestamp → timestamp.
Variable st : ledger_settings.
Variable default_max_output_tokens : Z.
Variable has_cache : bool.
Variable cache_ttl : Z.
Variable during : Z → db → db.

Record world := mkWorld {
  w_ledger : memory;
  w_cache : redis_cache;
  w_provider : P
}.

Definition on_ledger {A} (m : M (db * memory) A) : M (db * world) A :=
  fun s => let '(r, (d, l)) := m (s.1, w_ledger s.2) in (r, (d, mkWorld l (w_cache s.2) (w_provider s.2))).

Definition on_cache {A} (m : M redis_cache A) : M (db * world) A :=
  fun s => let '(r, c) := m (w_cache s.2) in (r, (s.1, mkWorld (w_ledger s.2) c (w_provider s.2))).

Definition on_provider {A} (f : P → A * P) : M (db * world) A :=
  fun s => let '(a, p) := f (w_provider s.2) in (Ok a, (s.1, mkWorld (w_ledger s.2) (w_cache s.2) p)).

(** * Counting *)

Definition token_count (text model : string) : result Z :=
  match encoding_for_model (if String.eqb model "" then "gpt-4o" else model) with
  | Some enc => enc text
  | None => match base_encoding with
            | Some enc => enc text
            | None => Ok (Z.max 1 (str_len text / 4))
            end
  end.

Fixpoint total_count (model : string) (texts : list string) : result Z :=
  match texts with
  | [] => Ok 0
  | t :: rest => match token_count t model with
                 | Ok n => match total_count model rest with Ok m => Ok (n + m) | Raise e => Raise e end
                 | Raise e => Raise e
                 end
  end.

(** [str(m.get("content", ""))]. *)
Definition content_of (m : json) : string :=
  match m with
  | JObj kvs => match List.find (fun kv => String.eqb kv.1 "content") kvs with
                | Some kv => match kv.2 with JStr s => s | v => str_of v end
                | None => ""
                end
  | _ => ""
  end.

(** * Dispatch *)

Fixpoint interruptible_sleep (others : db → db) (ctx : RequestContext) (quanta : nat) : M (db * world) unit :=
  on_db (cancellation_point ctx) ;;
  match quanta with
  | O => ret tt
  | S n => on_db (modify others) ;; interruptible_sleep others ctx n
  end.

(** The loop's [attempt]s from [attempt] on, [left] of them. *)
Fixpoint dispatch_from (left : nat) (attempt : Z) (rnd : Z → Q) (ctx : RequestContext) (r : ChatRequest)
    : M (db * world) (raw_response * Z) :=
  match left with
  | O => raise (TransientError None)
  | S n =>
      on_db (cancellation_point ctx) ;;
      answer <- on_provider (chat_create r) ;;
      on_db (modify (during attempt)) ;;
      match answer with
      | inl raw => ret (raw, attempt)
      | inr f =>
          if negb (is_transient f) || (attempt =? 3) then
            if is_transient f then raise (TransientError None) else raise (fl_exn f)
          else
            interruptible_sleep (during attempt) ctx (Z.to_nat (Qceiling (backoff attempt (rnd attempt) f))) ;;
            dispatch_from n (attempt + 1) rnd ctx r
      end
  end.

Definition dispatch_with_retry (rnd : Z → Q) (ctx : RequestContext) (r : ChatRequest) : M (db * world) (raw_response * Z) :=
  dispatch_from 3 1 rnd ctx r.

(** * Metering *)

Definition usage_record (ctx : RequestContext) (model : string) (input output : Z) (hit reported : bool)
    (cost : option Q) : UsageRecord :=
  mkUsageRecord (tenant_of ctx) (principal_uuid (principal ctx)) (run_id ctx) (label ctx "workload" "unknown")
    (label ctx "task" "unknown") model input output (coalesce cost (price model input output)) hit reported.

(** [_record]. *)
Definition meter (now : timestamp) (fault : option exn) (reservation : option BudgetReservation) (u : UsageRecord)
    : M (db * world) unit :=
  match reservation with
  | None => on_ledger (record st now fault u)
  | Some r => on_ledger (settle st now fault r u)
  end.

(** * The chain *)

Definition prompt (r : ChatRequest) : result Z := total_count (rq_model r) (map content_of (rq_messages r)).

Definition output_ceiling (r : ChatRequest) : Z := coalesce (rq_max_tokens r) default_max_output_tokens.

Definition key_of (ctx : RequestContext) (r : ChatRequest) : option string :=
  if rq_cacheable r && has_cache then Some (cache_key sha256 ctx r) else None.

Definition input_tokens_of (raw : raw_response) : Z := coalesce (mbind fst (rr_usage raw)) 0.
Definition output_tokens_of (raw : raw_response) : Z := coalesce (mbind snd (rr_usage raw)) 0.

Definition response_of (r : ChatRequest) (raw : raw_response) (c : choice) (attempts : Z) : ChatResponse :=
  mkChatResponse (coalesce (co_content c) "") (rq_model r)
    (mkTokenUsage (input_tokens_of raw) (output_tokens_of raw) (is_some (rr_usage raw)))
    (price (rq_model r) (input_tokens_of raw) (output_tokens_of raw))
    (if truthy (co_finish_reason c) then coalesce (co_finish_reason c) "stop" else "stop")
    (co_tool_calls c) false attempts.

Definition dispatched (now : timestamp) (fault : option exn) (down : bool) (rnd : Z → Q) (ctx : RequestContext)
    (r : ChatRequest) (reservation : BudgetReservation) : M (db * world) ChatResponse :=
  on_db (cancellation_point ctx) ;;
  got <- dispatch_with_retry rnd ctx r ;;
  let '(raw, attempts) := got in
  match rr_choice raw with
  | None => raise (OtherError "IndexError")
  | Some c =>
      meter now fault (Some reservation)
        (usage_record ctx (rq_model r) (input_tokens_of raw) (output_tokens_of raw) false (is_some (rr_usage raw))
           (Some (price (rq_model r) (input_tokens_of raw) (output_tokens_of raw)))) ;;
      let result := response_of r raw c attempts in
      match key_of ctx r with
      | Some k => on_cache (cache_put now down cache_ttl k result)
      | None => ret tt
      end ;;
      ret result
  end.

(** [_call]: [now] is the time up to the dispatch and [done_at] the time after it. *)
Definition chat (now done_at : timestamp) (fault fault' : option exn) (down : bool) (fresh : uuid) (rnd : Z → Q)
    (ctx : RequestContext) (r : ChatRequest) : M (db * world) ChatResponse :=
  on_db (cancellation_point ctx) ;;
  input <- (match prompt r with Ok n => ret n | Raise e => raise e end) ;;
  reservation <- on_ledger (reserve month_start st now fault fresh ctx (rq_model r) (input + output_ceiling r)
                              (price (rq_model r) input (output_ceiling r))) ;;
  hit <- (match key_of ctx r with
          | Some k => on_cache (adapter_get now down k)
          | None => ret None
          end) ;;
  match hit with
  | Some answer =>
      on_ledger (release now fault' reservation "cache hit; no provider dispatch") ;;
      meter now fault' None (usage_record ctx (rq_model r) 0 0 true true None) ;;
      ret answer
  | None => dispatched done_at fault' down rnd ctx r reservation
  end.

(** [embed]. *)
Definition embed (now done_at : timestamp) (fault fault' : option exn) (fresh : uuid) (ctx : RequestContext)
    (texts : list string) (model : string) : M (db * world) (list (list Q)) :=
  on_db (cancellation_point ctx) ;;
  estimated <- (match total_count model texts with Ok n => ret n | Raise e => raise e end) ;;
  reservation <- on_ledger (reserve month_start st now fault fresh ctx model estimated (price model estimated 0)) ;;
  on_db (cancellation_point ctx) ;;
  answer <- on_provider (embed_create model texts) ;;
  on_db (modify (during 1)) ;;
  match answer with
  | inr e => raise e
  | inl (usage, vectors) =>
      let counted := coalesce (mbind (fun x => x) usage) 0 in
      let input := if counted =? 0 then estimated else counted in
      meter done_at fault' (Some reservation) (usage_record ctx model input 0 false (is_some usage) None) ;;
      ret vectors
  end.

End chain.

(** * What a call costs *)

Section costs.
Context {P : Type} (calls : P → Z).

Definition within {A} (n : Z) (m : M (db * world P) A) : Prop :=
  ∀ s, calls (w_provider P (snd (m s)).2) <= calls (w_provider P s.2) + n.

Lemma within_ret {A} (a : A) : within 0 (ret a).
Proof. intros s. cbn. lia. Qed.

Lemma within_raise {A} e : within 0 (raise (A := A) e).
Proof. intros s. cbn. lia. Qed.

Lemma within_bind {A B} n n' total (m : M (db * world P) A) (k : A → M (db * world P) B) :
  within n m → (∀ a, within n' (k a)) → 0 <= n' → n + n' <= total → within total (bind m k).
Proof.
  intros Hm Hk Hn Ht s. unfold bind. specialize (Hm s). destruct (m s) as [[a|e] s1]; cbn in Hm.
  - specialize (Hk a s1). lia.
  - cbn. lia.
Qed.

Lemma within_db {A} (m : M db A) : within 0 (on_db m).
Proof. intros s. unfold on_db. destruct (m s.1). cbn. lia. Qed.

Lemma within_ledger {A} (m : M (db * memory) A) : within 0 (on_ledger P m).
Proof. intros s. unfold on_ledger. destruct (m _) as [r [d l]]. cbn. lia. Qed.

Lemma within_cache {A} (m : M redis_cache A) : within 0 (on_cache P m).
Proof. intros s. unfold on_cache. destruct (m _) as [r c]. cbn. lia. Qed.
Lemma within_weaken {A} n n' (m : M (db * world P) A) : within n m → n <= n' → within n' m.
Proof. intros H Hn s. specialize (H s). lia. Qed.

Variable chat_create : ChatRequest → P → (raw_response + failure) * P.
Hypothesis one_call : ∀ r p, calls (snd (chat_create r p)) <= calls p + 1.

Lemma within_create r : within 1 (on_provider P (chat_create r)).
Proof using one_call.
  intros s. unfold on_provider. pose proof (one_call r (w_provider P s.2)) as H. destruct (chat_create r _). exact H.
Qed.

Lemma within_sleep others ctx n : within 0 (interruptible_sleep P others ctx n).
Proof.
  induction n as [|n IH]; cbn [interruptible_sleep].
  - apply (within_bind 0 0); [apply within_db|intros; apply within_ret|lia|lia].
  - apply (within_bind 0 0); [apply within_db| |lia|lia]. intros _.
    apply (within_bind 0 0); [apply within_db|intros; exact IH|lia|lia].
Qed.

Lemma within_dispatch during left attempt rnd ctx r :
  within (Z.of_nat left) (dispatch_from P chat_create during left attempt rnd ctx r).
Proof using one_call.
  revert attempt. induction left as [|n IH]; intros attempt; cbn [dispatch_from]; [apply within_raise|].
  apply (within_bind 0 (Z.of_nat (S n))); [apply within_db| |lia|lia]. intros _.
  apply (within_bind 1 (Z.of_nat n)); [apply within_create| |lia|lia]. intros answer.
  apply (within_bind 0 (Z.of_nat n)); [apply within_db| |lia|lia]. intros _. destruct answer as [raw|f].
  - eapply within_weaken; [apply within_ret|lia].
  - destruct (_ || _).
    + eapply within_weaken; [destruct (is_transient f); apply within_raise|lia].
    + apply (within_bind 0 (Z.of_nat n)); [apply within_sleep|intros; apply IH|lia|lia].
Qed.

End costs.

(** The library's client, counting the calls of its [chat.completions.create]. *)
Definition counted {P} (chat_create : ChatRequest → P → (raw_response + failure) * P) (r : ChatRequest) (p : Z * P)
    : (raw_response + failure) * (Z * P) :=
  let '(answer, p') := chat_create r p.2 in (answer, (p.1 + 1, p')).

Lemma counted_once {P} chat_create r (p : Z * P) : fst (snd (counted chat_create r p)) <= fst p + 1.
Proof. unfold counted. destruct (chat_create r p.2). cbn. lia. Qed.

(** The steps of one call. *)
Section steps.
Context {P : Type}.
Variable chat_create : ChatRequest → P → (raw_response + failure) * P.
Variable st : ledger_settings.
Variable during : Z → db → db.
Variables (sha256 : string → string) (has_cache : bool) (cache_ttl : Z).

Lemma on_db_ok {A} (m : M db A) s a s' : on_db (W := world P) m s = (Ok a, s') → m s.1 = (Ok a, s'.1) ∧ s'.2 = s.2.
Proof. unfold on_db. destruct (m s.1) as [r d]. intros [= -> <-]. done. Qed.

Lemma on_ledger_ok {A} (m : M (db * memory) A) s a s' : on_ledger P m s = (Ok a, s') →
  m (s.1, w_ledger P s.2) = (Ok a, (s'.1, w_ledger P s'.2)) ∧ w_provider P s'.2 = w_provider P s.2.
Proof. unfold on_ledger. destruct (m _) as [r [d l]]. by intros [= -> <-]. Qed.

Lemma dispatch_attempts left attempt rnd ctx r s raw n s' :
  dispatch_from P chat_create during left attempt rnd ctx r s = (Ok (raw, n), s') →
  attempt <= n < attempt + Z.of_nat left.
Proof.
  revert attempt s. induction left as [|k IH]; intros attempt s E; cbn [dispatch_from] in E; [done|].
  apply bind_ok in E as (x & s1 & _ & E). apply bind_ok in E as (answer & s2 & _ & E).
  apply bind_ok in E as (y & s3 & _ & E). destruct answer as [raw'|f].
  - injection E as _ <- _. lia.
  - destruct (_ || _); [by destruct (is_transient f)|].
    apply bind_ok in E as (z & s4 & _ & E). apply IH in E. lia.
Qed.

Lemma dispatched_ok now fault down rnd ctx r res s a s' :
  dispatched P chat_create sha256 st has_cache cache_ttl during now fault down rnd ctx r res s = (Ok a, s') →
  ∃ dx wx, 1 <= rs_attempts a <= 3 ∧ rs_cache_hit a = false ∧
    rs_cost_usd a = price (rq_model r) (tu_input_tokens (rs_usage a)) (tu_output_tokens (rs_usage a)) ∧
    (settle st now fault res (usage_record ctx (rq_model r) (tu_input_tokens (rs_usage a))
       (tu_output_tokens (rs_usage a)) false (tu_reported (rs_usage a)) (Some (rs_cost_usd a))) (dx, wx)).2 =
      (s'.1, w_ledger P s'.2).
Proof.
  unfold dispatched. intros E. apply bind_ok in E as (x & s1 & _ & E).
  apply bind_ok in E as ([raw n] & s2 & Ed & E). cbv beta iota in E. apply dispatch_attempts in Ed.
  destruct (rr_choice raw) as [c|]; [|done]. apply bind_ok in E as (y & s3 & Em & E).
  unfold meter in Em. apply on_ledger_ok in Em as [Em _]. exists s2.1, (w_ledger P s2.2).
  apply bind_ok in E as (z & s4 & Ec & E). injection E as <- <-. cbn [response_of rs_attempts rs_cache_hit rs_usage
    rs_cost_usd tu_input_tokens tu_output_tokens tu_reported]. split; [lia|]. split; [done|]. split; [done|].
  rewrite Em. cbn [snd]. destruct (key_of sha256 has_cache ctx r).
  - unfold on_cache in Ec. destruct (cache_put _ _ _ _ _ _) as [r0 c0]. by injection Ec as _ <-.
  - by injection Ec as _ <-.
Qed.

Lemma adapter_get_answer now down k c : ∃ found c', adapter_get now down k c = (Ok found, c') ∧
  ∀ a, found = Some a → rs_cost_usd a = 0%Q ∧ rs_cache_hit a = true.
Proof.
  unfold adapter_get, cache_get, bind. destruct down; [by eexists None, _|].
  destruct (live_entry now c k) as [[v|]|]; [|by eexists None, _..]. eexists _, _. split; [reflexivity|].
  by intros a [= <-].
Qed.

Lemma dispatched_within (calls : P → Z) now fault down rnd ctx r res :
  (∀ q p, calls (snd (chat_create q p)) <= calls p + 1) →
  within calls 3 (dispatched P chat_create sha256 st has_cache cache_ttl during now fault down rnd ctx r res).
Proof.
  intros Hone. unfold dispatched. apply (within_bind calls 0 3); [apply within_db| |lia|lia]. intros _.
  apply (within_bind calls 3 0); [apply (within_dispatch calls chat_create Hone during 3)| |lia|lia].
  intros [raw n]. destruct (rr_choice raw); [|apply within_raise].
  apply (within_bind calls 0 0); [apply within_ledger| |lia|lia]. intros _.
  apply (within_bind calls 0 0); [destruct (key_of _ _ _ _); [apply within_cache|apply within_ret]| |lia|lia].
  intros _. apply within_ret.
Qed.

(** A cache hit lets the reservation go and records a call of no tokens. *)
Lemma hit_keeps_provider now fault res u (a : ChatResponse) s r s' :
  (on_ledger P (release now fault res "cache hit; no provider dispatch") ;;
   meter P st now fault None u ;; ret a) s = (r, s') →
  w_provider P s'.2 = w_provider P s.2 ∧ ∀ b, r = Ok b → b = a.
Proof.
  unfold bind, meter, on_ledger. destruct (release _ _ _ _ _) as [[[]|e] [d l]]; [|intros [= <- <-]; by split].
  destruct (record _ _ _ _ _) as [[[]|e] [d1 l1]]; intros [= <- <-]; (split; [done|]); by intros b [= ->].
Qed.

End steps.

(** A call that ended before the provider was asked. *)
Ltac stopped E := injection E as <- <- <-; cbn [w_provider]; split; [lia|split; [done|by intros]].

Module LlmDemo.
(** The provider throttles once, then answers with twelve and three tokens. *)
Definition create (_ : ChatRequest) (n : Z) : (raw_response + failure) * Z :=
  (if n =? 0 then inr (mkFailure (Some 429) None (OtherError "RateLimitError"))
   else inl (mkRaw (Some (mkChoice (Some "ok") None [])) (Some (Some 12, Some 3))), n + 1).
Definition encode (s : string) : result Z := Ok (str_len s).
Definition st : ledger_settings := mkLedgerSettings 1000 25 true 5000000 900 None.
Definition rq : ChatRequest := mkChatRequest [JObj [("content", JStr "hello")]] "gpt-4o" None (Some 16) None None true.
Definition w0 : world (Z * Z) := mkWorld (Z * Z) (mkMemory ∅ ∅) CacheDemo.c0 (0, 0).
Definition call : result ChatResponse * (db * world (Z * Z)) :=
  chat (Z * Z) (counted create) (fun _ => Some encode) None (fun _ => "") CacheDemo.sha (fun t => t) st 100 true 3600 (fun _ d => d)
    5 9 None None false 77 (fun _ => 0%Q) Demo.ctx rq (empty_db, w0).
End LlmDemo.

(** C12: every call is reserved for, bounded and metered.  Whatever the client library does,
    and however a call ends, its [create] has been called at most three times, and not at all
    unless a reservation for the prompt and the output ceiling was granted first; a cached
    answer calls it not once and costs nothing.  An answer that is not cached came after one
    to three calls under that one reservation, is priced from the tokens the provider reported,
    and the last thing its call did to the ledger was to settle the reservation for exactly
    those tokens at that price, in the caller's name.  (How many requests the library makes
    within one [create] - its own retries are left on - is the library's.) *)
Theorem every_call_is_reserved_and_metered (P : Type) chat_create encoding_for_model base_encoding str_of
    sha256 month_start st default_max_output has_cache cache_ttl during now done_at fault fault' down fresh rnd ctx rq
    d (w : world (Z * P)) r d' (w' : world (Z * P)) :
  chat (Z * P) (counted chat_create) encoding_for_model base_encoding str_of sha256 month_start st default_max_output
    has_cache cache_ttl during now done_at fault fault' down fresh rnd ctx rq (d, w) = (r, (d', w')) →
  let created w := fst (w_provider (Z * P) w) in
  let reserved res := ∃ n d1 m, prompt encoding_for_model base_encoding str_of rq = Ok n ∧
    reserve month_start st now fault fresh ctx (rq_model rq) (n + output_ceiling default_max_output rq)
      (price (rq_model rq) n (output_ceiling default_max_output rq)) (d, w_ledger (Z * P) w) = (Ok res, (d1, m)) in
  created w' <= created w + 3 ∧
  ((∀ res, ¬ reserved res) → w_provider (Z * P) w' = w_provider (Z * P) w) ∧
  ∀ a, r = Ok a → ∃ res, reserved res ∧
    if rs_cache_hit a then w_provider (Z * P) w' = w_provider (Z * P) w ∧ rs_cost_usd a = 0%Q
    else 1 <= rs_attempts a <= 3 ∧
      rs_cost_usd a = price (rq_model rq) (tu_input_tokens (rs_usage a)) (tu_output_tokens (rs_usage a)) ∧
      ∃ dx wx, (settle st done_at fault' res (usage_record ctx (rq_model rq) (tu_input_tokens (rs_usage a))
        (tu_output_tokens (rs_usage a)) false (tu_reported (rs_usage a)) (Some (rs_cost_usd a))) (dx, wx)).2 =
        (d', w_ledger (Z * P) w').
Proof.
  intros E created reserved. unfold created. unfold chat in E. unfold bind at 1, on_db at 1 in E. cbn [fst snd] in E.
  pose proof (cancellation_point_same ctx d) as Hc.
  destruct (cancellation_point ctx d) as [[[]|e] dc]; cbn in Hc; subst dc; [|by stopped E].
  unfold bind at 1 in E. destruct (prompt encoding_for_model base_encoding str_of rq) as [n|e] eqn:Ep; [|by stopped E].
  unfold ret at 1 in E. unfold bind at 1, on_ledger at 1 in E. cbn [fst snd] in E.
  destruct (reserve month_start st now fault fresh ctx (rq_model rq) _ _ (d, w_ledger (Z * P) w)) as [[res|e] [d1 m]] eqn:Er;
    [|by stopped E].
  assert (Hres : reserved res) by (exists n, d1, m; by rewrite <- Er).
  set (s1 := (d1, mkWorld (Z * P) m (w_cache (Z * P) w) (w_provider (Z * P) w))) in E.
  assert (Hhit : ∃ hit s2, (match key_of sha256 has_cache ctx rq with
      | Some k => on_cache (Z * P) (adapter_get now down k) | None => ret None end) s1 = (Ok hit, s2) ∧
    w_provider (Z * P) s2.2 = w_provider (Z * P) w ∧ ∀ a, hit = Some a → rs_cost_usd a = 0%Q ∧ rs_cache_hit a = true).
  { destruct (key_of _ _ _ _) as [k|]; [|by eexists None, _].
    destruct (adapter_get_answer now down k (w_cache (Z * P) w)) as (found & c & Ea & Hf).
    exists found, (d1, mkWorld (Z * P) m c (w_provider (Z * P) w)). unfold on_cache. cbn [s1 fst snd w_cache w_ledger w_provider].
    by rewrite Ea. }
  destruct Hhit as (hit & s2 & Eh & Hp & Hf). rewrite (run_bind _ _ _ _ _ Eh) in E. destruct hit as [a|].
  - apply hit_keeps_provider in E as [Hw Ha]. cbn [snd] in Hw. rewrite Hw, Hp. split; [lia|]. split; [done|].
    intros b Hb. apply Ha in Hb as ->. destruct (Hf a eq_refl) as [Hcost ->]. by exists res.
  - pose proof (dispatched_within (counted chat_create) st during sha256 has_cache cache_ttl fst done_at fault' down rnd ctx rq res
      (counted_once chat_create) s2) as Hw. rewrite E, Hp in Hw. cbn [snd] in Hw. split; [exact Hw|]. split; [by intros H; destruct (H res)|].
    intros a ->. apply dispatched_ok in E as (dx & wx & H1 & H2 & H3 & H4). exists res. split; [done|].
    rewrite H2. split; [done|]. split; [done|]. by exists dx, wx.
Qed.

Lemma every_call_is_reserved_and_metered_witness :
  ∃ a s', LlmDemo.call = (Ok a, s') ∧ rs_attempts a = 2 ∧ fst (w_provider (Z * Z) s'.2) <= 0 + 3 ∧
    rs_cost_usd a = price "gpt-4o" 12 3.
Proof.
  destruct LlmDemo.call as [r [d' w']] eqn:E. pose proof E as E1. apply (f_equal fst) in E1. vm_compute in E1.
  cbn [fst] in E1. subst r. eexists _, _. split; [reflexivity|].
  destruct (every_call_is_reserved_and_metered Z LlmDemo.create (fun _ => Some LlmDemo.encode) None
    (fun _ => "") CacheDemo.sha (fun t => t) LlmDemo.st 100 true 3600 (fun _ d => d) 5 9 None None false 77
    (fun _ => 0%Q) Demo.ctx LlmDemo.rq empty_db LlmDemo.w0 _ d' w' E) as (Hn & _ & Ha).
  destruct (Ha _ eq_refl) as (res & _ & _ & Hc & _). split; [done|]. split; [exact Hn|]. exact Hc.
Defined.
