(* ===== verification/Frame.v ===== *)
(** What a call of the model client leaves alone.

    Its transactions write the usage and reservation tables only, so anything else that is
    read off the database, a [view], is after a call what it was before, if what other
    processes commit meanwhile leaves it alone.  The clients of the model ([Reindex.v],
    [Chat.v]) get their interface's laws from here. *)
From S2P Require Import Prelude Identity Json Db Leases Ledger Cache Llm.

Section frame.
Context {O : Type} (view : db → O).
Hypothesis view_usages : ∀ l d, view (d <| usages := l |>) = view d.
Hypothesis view_reservations : ∀ l d, view (d <| reservations := l |>) = view d.

Definition leaves {A} (m : M db A) : Prop := ∀ C, preserves (fun d => view d = C) m.
Definition leaves_alone {W A} (m : M (db * W) A) : Prop := ∀ C, preserves (fun s => view s.1 = C) m.

Section ledger.
Variables (month_start : timestamp → timestamp) (st : ledger_settings) (now : timestamp) (model : string).

Lemma in_session_leaves fault {A} (m : M db A) : leaves m → leaves_alone (in_session fault m).
Proof using.
  intros H C [d w] E. unfold in_session, on_db, tenant_session, tx. cbn [fst snd] in *. destruct fault as [e|]; [done|].
  specialize (H C d E). by destruct (m d) as [[a|e] d'].
Qed.

Lemma insert_usage_leaves u : leaves (insert_usage st now u).
Proof using view_usages.
  intros C. apply preserves_bind; [auto with platform|]. intros _ d E. exact (eq_trans (view_usages _ d) E).
Qed.

Lemma update_reservations_leaves p f : leaves (sql_update (R := budget_reservation) p f).
Proof using view_reservations. intros C d E. exact (eq_trans (view_reservations _ d) E). Qed.

Lemma reserve_session_leaves fresh ctx n cost : leaves (reserve_in_session month_start st now fresh ctx model n cost).
Proof using view_reservations.
  intros C. unfold reserve_in_session, caps_row, insert_reservation, sql_select.
  repeat (apply preserves_bind; [|intros]); auto with platform; first [by intros d|intros d E; exact (eq_trans (view_reservations _ d) E)].
Qed.

Lemma settle_session_leaves id u : leaves (settle_in_session st now id u).
Proof using view_usages view_reservations.
  intros C. unfold settle_in_session, sql_select. apply preserves_bind; [auto with platform|]. intros x.
  apply preserves_bind; [auto with platform|]. intros _. apply preserves_bind; [apply update_reservations_leaves|]. intros y.
  apply preserves_bind; [auto with platform|]. intros [r|].
  - apply preserves_bind; [apply insert_usage_leaves|auto with platform].
  - do 2 (apply preserves_bind; [auto with platform|intros]). destruct a0 as [r|]; [|auto with platform].
    destruct (bool_decide _); auto with platform.
Qed.

Lemma reserve_leaves fault fresh ctx n cost : leaves_alone (reserve month_start st now fault fresh ctx model n cost).
Proof using view_reservations.
  intros C. unfold reserve. destruct (_ || _); [auto with platform|]. apply preserves_try_except.
  - apply preserves_bind; [apply in_session_leaves, reserve_session_leaves|auto with platform].
  - intros e k H. assert (Hk : k = (if negb (may_go_unmetered st (label ctx "task" "")) then raise BudgetExceededError
      else count_unmetered ctx (label ctx "task" "") ;; ret (mkBudgetReservation None (tenant_of ctx) n cost false))).
    { by destruct e; first [discriminate H|injection H]. }
    rewrite Hk. destruct (negb _); [auto with platform|]. apply preserves_bind; [by intros s|auto with platform].
Qed.

Lemma record_leaves fault u : leaves_alone (record st now fault u).
Proof using view_usages.
  intros C. unfold record. apply preserves_bind; [|intros []; [by intros s|apply preserves_ret]].
  apply preserves_try_except; [|intros e k [= <-]; apply preserves_ret].
  apply preserves_bind; [apply in_session_leaves, insert_usage_leaves|intros; apply preserves_ret].
Qed.

Lemma settle_leaves fault r u : leaves_alone (settle st now fault r u).
Proof using view_usages view_reservations.
  unfold settle. destruct (bv_id r) as [id|]; [|apply record_leaves]. intros C.
  apply preserves_bind; [|intros []; [by intros s|apply preserves_ret]].
  apply preserves_try_except; [|intros e k [= <-]; apply preserves_ret]. apply in_session_leaves, settle_session_leaves.
Qed.

Lemma release_leaves fault r reason : leaves_alone (release now fault r reason).
Proof using view_reservations.
  intros C. unfold release. destruct (bv_id r) as [id|]; [|auto with platform].
  apply preserves_try_except; [|intros e k [= <-]; apply preserves_ret].
  apply preserves_bind; [apply in_session_leaves, update_reservations_leaves|auto with platform].
Qed.

End ledger.

(** * The calls *)

Section calls.
Context {P : Type}.
Variable chat_create : ChatRequest → P → (raw_response + failure) * P.
Variable embed_create : string → list string → P → (option (option Z) * list (list Q) + exn) * P.
Variable encoding_for_model : string → option encoder.
Variable base_encoding : option encoder.
Variables (str_of : json → string) (sha256 : string → string).
Variable month_start : timestamp → timestamp.
Variable st : ledger_settings.
Variables (default_max_output_tokens : Z) (has_cache : bool) (cache_ttl : Z).
Variable during : Z → db → db.
(** While a request is out, nobody else changes the view. *)
Hypothesis during_leaves : ∀ n d, view (during n d) = view d.
Notation state := (db * world P)%type.

Lemma on_ledger_leaves {A} (m : M (db * memory) A) : leaves_alone m → leaves_alone (on_ledger P m).
Proof using.
  intros H C [d w] E. unfold on_ledger. specialize (H C (d, w_ledger P w) E). by destruct (m _) as [r [d' l]].
Qed.

Lemma on_cache_leaves {A} (m : M redis_cache A) : leaves_alone (on_cache P m).
Proof using. intros C [d w] E. unfold on_cache. by destruct (m _) as [r c]. Qed.

Lemma on_provider_leaves {A} (f : P → A * P) : leaves_alone (on_provider P f).
Proof using. intros C [d w] E. unfold on_provider. by destruct (f _) as [a p]. Qed.

Lemma check_leaves {W} ctx : leaves_alone (W := W) (on_db (cancellation_point ctx)).
Proof using.
  intros C [d w] E. unfold on_db. cbn [fst snd]. pose proof (cancellation_point_same ctx d) as H.
  destruct (cancellation_point ctx d) as [r d']. cbn in *. by subst.
Qed.

Lemma others_leave {W} n : leaves_alone (W := W) (on_db (modify (during n))).
Proof using during_leaves. intros C [d w] E. cbn in *. by rewrite during_leaves. Qed.

Lemma meter_leaves now fault reservation u : leaves_alone (meter P st now fault reservation u).
Proof using view_usages view_reservations.
  unfold meter. destruct reservation; apply on_ledger_leaves; [by apply settle_leaves|by apply record_leaves].
Qed.

Lemma embed_leaves now done_at fault fault' fresh ctx texts model :
  leaves_alone (embed P embed_create encoding_for_model base_encoding month_start st during now done_at fault fault' fresh ctx
    texts model).
Proof using view_usages view_reservations during_leaves.
  intros C. unfold embed. apply preserves_bind; [apply check_leaves|]. intros _. apply preserves_bind.
  { destruct (total_count _ _ _ _); auto with platform. }
  intros n. apply preserves_bind; [by apply on_ledger_leaves, reserve_leaves|]. intros r.
  apply preserves_bind; [apply check_leaves|]. intros _. apply preserves_bind; [apply on_provider_leaves|].
  intros answer. apply preserves_bind; [apply others_leave|]. intros _.
  destruct answer as [[usage vectors]|e]; [|auto with platform].
  apply preserves_bind; [apply meter_leaves|auto with platform].
Qed.

Lemma sleep_leaves n ctx quanta : leaves_alone (interruptible_sleep P (during n) ctx quanta).
Proof using during_leaves.
  intros C. induction quanta as [|q IH]; cbn [interruptible_sleep]; (apply preserves_bind; [apply check_leaves|]); intros _;
    [auto with platform|]. apply preserves_bind; [apply others_leave|auto].
Qed.

Lemma dispatch_leaves left attempt rnd ctx r : leaves_alone (dispatch_from P chat_create during left attempt rnd ctx r).
Proof using during_leaves.
  intros C. revert attempt. induction left as [|n IH]; intros attempt; cbn [dispatch_from]; [auto with platform|].
  apply preserves_bind; [apply check_leaves|]. intros _. apply preserves_bind; [apply on_provider_leaves|]. intros answer.
  apply preserves_bind; [apply others_leave|]. intros _. destruct answer as [raw|f]; [auto with platform|].
  destruct (_ || _); [destruct (is_transient f); auto with platform|]. apply preserves_bind; [apply sleep_leaves|auto].
Qed.

Lemma chat_leaves now done_at fault fault' down fresh rnd ctx r :
  leaves_alone (chat P chat_create encoding_for_model base_encoding str_of sha256 month_start st default_max_output_tokens
    has_cache cache_ttl during now done_at fault fault' down fresh rnd ctx r).
Proof using view_usages view_reservations during_leaves.
  intros C. unfold chat. apply preserves_bind; [apply check_leaves|]. intros _. apply preserves_bind.
  { destruct (prompt _ _ _ _); auto with platform. }
  intros n. apply preserves_bind; [by apply on_ledger_leaves, reserve_leaves|]. intros res. apply preserves_bind.
  { destruct (key_of _ _ _ _); [apply on_cache_leaves|auto with platform]. }
  intros [answer|].
  - apply preserves_bind; [by apply on_ledger_leaves, release_leaves|]. intros _. apply preserves_bind; [apply meter_leaves|auto with platform].
  - unfold dispatched. apply preserves_bind; [apply check_leaves|]. intros _. apply preserves_bind; [apply dispatch_leaves|].
    intros [raw n']. destruct (rr_choice raw); [|auto with platform]. apply preserves_bind; [apply meter_leaves|]. intros _.
    apply preserves_bind; [|auto with platform]. destruct (key_of _ _ _ _); [apply on_cache_leaves|auto with platform].
Qed.

End calls.
End frame.
