(* ===== verification/Builds.v ===== *)
(** Builds of a collection: which one is served, and how it is replaced
    ([platform_core/corpus/builds.py]).

    [action] and [exec_all] are the interleavings of any number of rebuilds: each
    operation is one transaction, so a history is a list of operations. *)
From stdpp Require Import sorting.
From S2P Require Import Prelude Identity Json Db.

Definition MAX_COEXISTING_BUILDS : Z := 2.

Definition of_collection (c : string) (b : collection_build) : bool := String.eqb (cb_collection b) c.

Definition is_live (c : string) (b : collection_build) : bool :=
  of_collection c b && bool_decide (cb_status b = live).

Definition is_version (c : string) (v : Z) (b : collection_build) : bool :=
  of_collection c b && (cb_version b =? v).

Definition in_build (c : string) (v : Z) (x : chunk) : bool :=
  String.eqb (ch_collection x) c && (ch_build_version x =? v).

(** [SELECT build_version ... WHERE status = 'live'] and [scalar_one_or_none()]. *)
Definition query_live (t : uuid) (c : string) : M db (option Z) :=
  found <- sql_select (visible t (is_live c)) ;;
  b <- one_or_none found ;;
  ret (option_map cb_version b).

(** With or without a session of the caller's the same rows are read. *)
Definition live_version (ctx : RequestContext) (c : string) : M db Z :=
  version <- tenant_session (query_live (tenant_of ctx) c) ;;
  match version with
  | None => raise NoLiveBuild
  | Some v => ret v
  end.

Definition live_version_or_none (ctx : RequestContext) (c : string) : M db (option Z) :=
  try_except (v <- live_version ctx c ;; ret (Some v))
    (fun e => match e with NoLiveBuild => Some (ret None) | _ => None end).

Definition id_le (a b : string) : bool := String.leb a b.

Definition build_ids (t : uuid) (c : string) (v : Z) (d : db) : list string :=
  order_by id_le (map ch_canonical_id (select_where (visible t (in_build c v)) (chunks d))).

Definition concat_ids (l : list string) : string := foldr String.append "" l.

Section fingerprints.
Variable sha256 : string → string.

(** Successive [digest.update]s hash the concatenation. *)
Definition fingerprint (ctx : RequestContext) (c : string) (v : Z) : M db string :=
  tenant_session (gets (fun d => sha256 (concat_ids (build_ids (tenant_of ctx) c v d)))).

End fingerprints.

(** [collection_build_version_uniq]. *)
Definition version_taken (b x : collection_build) : bool :=
  visible (cb_tenant b) (is_version (cb_collection b) (cb_version b)) x.

Definition insert_build (b : collection_build) : M db unit :=
  clash <- sql_select (version_taken b) ;;
  guard (match clash with [] => true | _ => false end) (IntegrityError "collection_build_version_uniq") ;;
  sql_insert b.

Definition begin (now : timestamp) (ctx : RequestContext) (c : string) (run_id : option uuid) : M db Z :=
  tenant_session (
    rows <- sql_select (visible (tenant_of ctx) (of_collection c)) ;;
    let version := max_or 0 (map cb_version rows) + 1 in
    insert_build (mkBuild (tenant_of ctx) c version building None 0 run_id None now None) ;;
    ret version).

Definition set_superseded (b : collection_build) : collection_build := b <| cb_status := superseded |>.

Definition set_live (now : timestamp) (n : Z) (b : collection_build) : collection_build :=
  b <| cb_status := live |> <| cb_promoted_at := Some now |> <| cb_chunk_count := n |>.

Definition promote (now : timestamp) (ctx : RequestContext) (c : string) (v : Z) : M db Z :=
  let t := tenant_of ctx in
  tenant_session (
    found <- sql_select (visible t (in_build c v)) ;;
    guard (negb (count found =? 0)) (ValueError "refusing to promote a build without chunks") ;;
    sql_update (visible t (is_live c)) set_superseded ;;
    sql_update (visible t (is_version c v)) (set_live now (count found)) ;;
    ret (count found)).

Definition failing (c : string) (v : Z) (b : collection_build) : bool :=
  is_version c v b && bool_decide (cb_status b = building).

Definition set_build_failed (error : string) (b : collection_build) : collection_build :=
  b <| cb_status := build_failed |> <| cb_error := Some (str_take 2000 error) |>.

Definition fail (ctx : RequestContext) (c : string) (v : Z) (error : string) : M db unit :=
  let t := tenant_of ctx in
  tenant_session (
    sql_delete (visible t (in_build c v)) ;;
    sql_update (visible t (failing c v)) (set_build_failed error) ;;
    ret tt).

(** What [reap] keeps of the builds below the live one. *)
Definition predecessor (c : string) (live_v : Z) (b : collection_build) : bool :=
  of_collection c b && (cb_version b <? live_v)
  && (bool_decide (cb_status b = live) || bool_decide (cb_status b = superseded)).

Definition newest_first (a b : collection_build) : bool := cb_version b <=? cb_version a.

Definition kept_versions (t : uuid) (c : string) (live_v : Z) (d : db) : list Z :=
  live_v :: map cb_version (firstn (Z.to_nat (MAX_COEXISTING_BUILDS - 1))
    (order_by newest_first (select_where (visible t (predecessor c live_v)) (builds d)))).

(** [build_version <> ALL(:keep)]. *)
Definition doomed (c : string) (keep : list Z) (b : collection_build) : bool :=
  of_collection c b && negb (existsb (Z.eqb (cb_version b)) keep).

(** The versions deleted, and those kept ([None] when nothing is live). *)
Definition reap (ctx : RequestContext) (c : string) : M db (list Z * option (list Z)) :=
  let t := tenant_of ctx in
  tenant_session (
    live_v <- query_live t c ;;
    match live_v with
    | None => ret ([], None)
    | Some v =>
        d <- get ;;
        let keep := kept_versions t c v d in
        gone <- sql_select (visible t (doomed c keep)) ;;
        for_each (map cb_version gone) (fun w => sql_delete (visible t (in_build c w)) ;; ret tt) ;;
        match gone with
        | [] => ret tt
        | _ => sql_delete (visible t (doomed c keep)) ;; ret tt
        end ;;
        ret (order_by Z.leb (map cb_version gone), Some (order_by Z.leb keep))
    end).

(** * Writing a build *)

(** [chunk_tenant_collection_canonical_build_uniq]. *)
Definition same_chunk (x y : chunk) : bool :=
  (ch_tenant x =? ch_tenant y)%N && String.eqb (ch_collection x) (ch_collection y)
  && String.eqb (ch_canonical_id x) (ch_canonical_id y) && (ch_build_version x =? ch_build_version y).

(** [INSERT INTO chunk ... ON CONFLICT ... DO NOTHING], and whether it inserted. *)
Definition insert_chunk (x : chunk) : M db bool :=
  d <- get ;;
  if existsb (same_chunk x) (chunks d) then ret false else sql_insert x ;; ret true.

Fixpoint insert_chunks (l : list chunk) : M db Z :=
  match l with
  | [] => ret 0
  | x :: l' => fresh <- insert_chunk x ;; n <- insert_chunks l' ;; ret (n + if fresh then 1 else 0)
  end.

(** * Histories *)

Inductive action :=
| Begin (now : timestamp) (ctx : RequestContext) (c : string) (run_id : option uuid)
| Write (l : list chunk)
| Promote (now : timestamp) (ctx : RequestContext) (c : string) (v : Z)
| Fail_ (ctx : RequestContext) (c : string) (v : Z) (error : string)
| Reap (ctx : RequestContext) (c : string).

Definition exec (a : action) (d : db) : db :=
  match a with
  | Begin now ctx c r => (begin now ctx c r d).2
  | Write l => (insert_chunks l d).2
  | Promote now ctx c v => (promote now ctx c v d).2
  | Fail_ ctx c v e => (fail ctx c v e d).2
  | Reap ctx c => (reap ctx c d).2
  end.

(** Chunks of one build. *)
Definition content (t : uuid) (c : string) (v : Z) (d : db) : list chunk :=
  select_where (visible t (in_build c v)) (chunks d).

(** What a rebuild that nobody reaped under it does: it promotes a build it began, and
    fails one that is not being served. *)
Definition sound (a : action) (d : db) : bool :=
  match a with
  | Promote _ ctx c v =>
      existsb (visible (tenant_of ctx) (is_version c v)) (builds d)
      || match content (tenant_of ctx) c v d with [] => true | _ => false end
  | Fail_ ctx c v _ => negb (existsb (visible (tenant_of ctx) (fun b => is_live c b && is_version c v b)) (builds d))
  | _ => true
  end.

Fixpoint exec_all (l : list action) (d : db) : db :=
  match l with
  | [] => d
  | a :: l' => exec_all l' (exec a d)
  end.

Fixpoint sound_all (l : list action) (d : db) : bool :=
  match l with
  | [] => true
  | a :: l' => sound a d && sound_all l' (exec a d)
  end.

(** * The table stays well formed *)

Definition build_key (b : collection_build) : uuid * string * Z := (cb_tenant b, cb_collection b, cb_version b).

Definition same_collection (b b' : collection_build) : Prop :=
  cb_tenant b = cb_tenant b' ∧ cb_collection b = cb_collection b'.

(** Unique versions, and at most one live build per collection. *)
Record builds_wf (d : db) : Prop := {
  wf_keys : List.NoDup (map build_key (builds d));
  wf_one_live : ∀ b b', In b (builds d) → In b' (builds d) → same_collection b b' →
    cb_status b = live → cb_status b' = live → cb_version b = cb_version b'
}.

Definition serving (t : uuid) (c : string) (v : Z) (d : db) : Prop :=
  ∃ b, In b (builds d) ∧ cb_tenant b = t ∧ cb_collection b = c ∧ cb_version b = v ∧ cb_status b = live.

Lemma of_collection_spec t c b :
  visible t (of_collection c) b = true ↔ cb_tenant b = t ∧ cb_collection b = c.
Proof. unfold visible, of_collection, row_tenant, tenant_build. rewrite andb_true_iff, N.eqb_eq, String.eqb_eq. done. Qed.

Lemma is_live_spec t c b :
  visible t (is_live c) b = true ↔ cb_tenant b = t ∧ cb_collection b = c ∧ cb_status b = live.
Proof.
  unfold visible, is_live, of_collection, row_tenant, tenant_build.
  rewrite !andb_true_iff, N.eqb_eq, String.eqb_eq, bool_decide_eq_true. tauto.
Qed.

Lemma is_version_spec t c v b :
  visible t (is_version c v) b = true ↔ build_key b = (t, c, v).
Proof.
  unfold visible, is_version, of_collection, build_key, row_tenant, tenant_build.
  rewrite !andb_true_iff, N.eqb_eq, String.eqb_eq, Z.eqb_eq.
  split; [by intros (-> & -> & ->)|by intros [= -> -> ->]].
Qed.

Lemma in_build_spec t c v x :
  visible t (in_build c v) x = true ↔ ch_tenant x = t ∧ ch_collection x = c ∧ ch_build_version x = v.
Proof.
  unfold visible, in_build, row_tenant, tenant_chunk. rewrite !andb_true_iff, N.eqb_eq, String.eqb_eq, Z.eqb_eq. tauto.
Qed.

Lemma in_content t c v d x :
  In x (content t c v d) ↔ In x (chunks d) ∧ ch_tenant x = t ∧ ch_collection x = c ∧ ch_build_version x = v.
Proof. unfold content, select_where. by rewrite filter_In, in_build_spec. Qed.

Lemma query_live_cases t c d : builds_wf d →
  (query_live t c d = (Ok None, d) ∧ ∀ v, ¬ serving t c v d)
  ∨ ∃ v, query_live t c d = (Ok (Some v), d) ∧ serving t c v d.
Proof.
  intros W. unfold query_live, sql_select, gets, bind. cbn [rows table_builds].
  destruct (select_where (visible t (is_live c)) (builds d)) as [|b l] eqn:E.
  - left. split; [done|]. intros v (b & Hin & Ht & Hc & _ & Hl).
    assert (F := proj1 (select_where_nil _ _) E b Hin). assert (visible t (is_live c) b = true) by by apply is_live_spec.
    congruence.
  - assert (Hb : In b (builds d) ∧ visible t (is_live c) b = true).
    { apply filter_In. unfold select_where in E. rewrite E. by left. }
    destruct Hb as [Hin Hp]. pose proof Hp as Hl. apply is_live_spec in Hl as (Ht & Hc & Hl).
    rewrite (select_by_key build_key _ _ b (wf_keys d W) Hin Hp) in E.
    + injection E as <-. right. exists (cb_version b). split; [done|]. by exists b.
    + intros b' Hin' Hp'. apply is_live_spec in Hp' as (Ht' & Hc' & Hl'). unfold build_key. rewrite Ht, Hc, Ht', Hc'.
      rewrite (wf_one_live d W b b'); [done..|split; congruence|done|done].
Qed.

Lemma serving_unique t c v v' d : builds_wf d → serving t c v d → serving t c v' d → v = v'.
Proof.
  intros W (b & H1 & H2 & H3 & <- & H5) (b' & H6 & H7 & H8 & <- & H10).
  apply (wf_one_live d W b b'); try done. split; congruence.
Qed.

(** * What each operation does *)

Lemma insert_chunks_builds l d : builds (insert_chunks l d).2 = builds d ∧ incl (chunks d) (chunks (insert_chunks l d).2).
Proof.
  revert d. induction l as [|x l IH]; intros d; [split; [done|apply incl_refl]|]. cbn. unfold bind, insert_chunk, get, bind.
  destruct (existsb (same_chunk x) (chunks d)); cbn [ret fst snd].
  - destruct (IH d) as [H1 H2]. unfold ret. destruct (insert_chunks l d) as [[n|e] d']; cbn in *; by split.
  - unfold sql_insert, modify, ret. set (d1 := put _ d). destruct (IH d1) as [H1 H2].
    destruct (insert_chunks l d1) as [[n|e] d'] eqn:E; cbn in *; (split; [done|]);
      intros y Hy; apply H2; apply in_app_iff; by left.
Qed.

Lemma begin_cases now ctx c r d :
  let t := tenant_of ctx in
  let v := max_or 0 (map cb_version (select_where (visible t (of_collection c)) (builds d))) + 1 in
  let b := mkBuild t c v building None 0 r None now None in
  (begin now ctx c r d).2 = d
  ∨ begin now ctx c r d = (Ok v, d <| builds := builds d ++ [b] |>) ∧ ¬ In (build_key b) (map build_key (builds d)).
Proof.
  intros t v b. unfold begin, tenant_session, tx, bind, insert_build, guard, bind, sql_select, gets. cbn [rows table_builds].
  fold t. fold v.
  fold b. destruct (select_where (version_taken b) (builds d)) as [|x l'] eqn:E; [right|by left].
  unfold ret, sql_insert, modify. cbn [put rows table_builds]. split; [done|].
  intros Hin. apply in_map_iff in Hin as (y & Hk & Hy).
  assert (F := proj1 (select_where_nil _ _) E y Hy).
  assert (version_taken b y = true) by (unfold version_taken; by apply is_version_spec). congruence.
Qed.

(** The two statements of [promote]: nothing of the collection is live after the first. *)
Definition demoted (t : uuid) (c : string) (d : db) : db :=
  d <| builds := update_where (visible t (is_live c)) set_superseded (builds d) |>.

Definition promoted (now : timestamp) (t : uuid) (c : string) (v n : Z) (d : db) : db :=
  d <| builds := update_where (visible t (is_version c v)) (set_live now n) (builds d) |>.

Lemma promote_eq now ctx c v d :
  let t := tenant_of ctx in
  promote now ctx c v d =
    if count (content t c v d) =? 0
    then (Raise (ValueError "refusing to promote a build without chunks"), d)
    else (Ok (count (content t c v d)), promoted now t c v (count (content t c v d)) (demoted t c d)).
Proof.
  intros t. unfold promote, tenant_session, tx, bind, sql_select, gets, guard. fold t. cbn [rows table_chunks].
  fold (content t c v d). by destruct (count (content t c v d) =? 0).
Qed.

Lemma fail_eq ctx c v e d :
  let t := tenant_of ctx in
  fail ctx c v e d =
    (Ok tt, d <| chunks := delete_where (visible t (in_build c v)) (chunks d) |>
              <| builds := update_where (visible t (failing c v)) (set_build_failed e) (builds d) |>).
Proof. done. Qed.

Lemma for_each_delete t c ws d :
  for_each ws (fun w => sql_delete (visible t (in_build c w)) ;; ret tt) d =
  (Ok tt, d <| chunks := delete_where (fun x => existsb (fun w => visible t (in_build c w) x) ws) (chunks d) |>).
Proof.
  revert d. induction ws as [|w ws IH]; intros d.
  - cbn. unfold ret. rewrite delete_where_id by done. by destruct d.
  - cbn [for_each]. unfold bind at 1, bind at 1, sql_delete, ret at 1. cbv beta iota. rewrite IH.
    change (chunks (put (delete_where (visible t (in_build c w)) (rows d)) d))
      with (delete_where (visible t (in_build c w)) (chunks d)).
    by rewrite delete_where_twice.
Qed.

Lemma reap_eq ctx c d v :
  let t := tenant_of ctx in
  let keep := kept_versions t c v d in
  let gone := select_where (visible t (doomed c keep)) (builds d) in
  query_live t c d = (Ok (Some v), d) →
  reap ctx c d =
    (Ok (order_by Z.leb (map cb_version gone), Some (order_by Z.leb keep)),
     d <| chunks := delete_where (fun x => existsb (fun w => visible t (in_build c w) x) (map cb_version gone)) (chunks d) |>
       <| builds := delete_where (visible t (doomed c keep)) (builds d) |>).
Proof.
  intros t keep gone Hq. unfold reap, tenant_session. fold t. unfold tx. rewrite (run_bind _ _ _ _ _ Hq). cbn beta iota.
  unfold bind at 1, get at 1. cbv beta iota. fold keep. unfold bind at 1, sql_select, gets at 1. cbv beta iota.
  change (rows d) with (builds d). fold gone. rewrite (run_bind _ _ _ _ _ (for_each_delete t c (map cb_version gone) d)).
  set (d1 := d <| chunks := _ |>). unfold bind. destruct gone as [|b l] eqn:E.
  - unfold ret. rewrite delete_where_id; [done|]. intros b Hb. by apply (proj1 (select_where_nil _ _) E).
  - done.
Qed.

(** * Steps *)

Lemma doomed_spec t c keep b :
  visible t (doomed c keep) b = true ↔ cb_tenant b = t ∧ cb_collection b = c ∧ ¬ In (cb_version b) keep.
Proof.
  unfold doomed. change (visible t (fun b => of_collection c b && negb (existsb (Z.eqb (cb_version b)) keep)) b)
    with ((cb_tenant b =? t)%N && (String.eqb (cb_collection b) c && negb (existsb (Z.eqb (cb_version b)) keep))).
  rewrite !andb_true_iff, N.eqb_eq, String.eqb_eq, negb_true_iff, <- not_true_iff_false, existsb_exists.
  setoid_rewrite Z.eqb_eq. split; intros (H1 & H2 & H3); (split; [done|split; [done|]]); intros H; apply H3.
  - by exists (cb_version b).
  - destruct H as (x & Hx & ->). done.
Qed.

Lemma map_key_update p f (l : list collection_build) : (∀ b, build_key (f b) = build_key b) →
  map build_key (update_where p f l) = map build_key l.
Proof. apply map_update_where. Qed.

Lemma same_key_collection b b' : build_key b = build_key b' → same_collection b b' ∧ cb_version b = cb_version b'.
Proof. by intros [= H1 H2 H3]. Qed.

Lemma wf_update p f d d' : (∀ b, build_key (f b) = build_key b) → (∀ b, cb_status (f b) = live → cb_status b = live) →
  builds d' = update_where p f (builds d) → builds_wf d → builds_wf d'.
Proof.
  intros Hk Hl E W. constructor; rewrite E.
  - rewrite map_key_update by done. apply W.
  - assert (Hinv : ∀ b, In b (update_where p f (builds d)) → ∃ a, In a (builds d) ∧ build_key b = build_key a ∧
      (cb_status b = live → cb_status a = live)).
    { intros b Hb. apply in_update_where in Hb as (a & Ha & ->). exists a. split; [done|].
      destruct (p a); [|done]. split; [apply Hk|apply Hl]. }
    intros b b' Hb Hb' [Ht Hc] S S'. apply Hinv in Hb as (a & Ha & Ka & La). apply Hinv in Hb' as (a' & Ha' & Ka' & La').
    unfold build_key in Ka, Ka'. injection Ka as T1 C1 V1. injection Ka' as T2 C2 V2.
    rewrite V1, V2. apply (wf_one_live d W); try done; [split; congruence|by apply La|by apply La'].
Qed.

Lemma wf_delete p d d' : builds d' = delete_where p (builds d) → builds_wf d → builds_wf d'.
Proof.
  intros E W. constructor; rewrite E.
  - apply NoDup_map_filter. apply W.
  - intros b b' Hb Hb'. apply in_delete_where in Hb as [Hb _], Hb' as [Hb' _]. by apply (wf_one_live d W).
Qed.

Lemma wf_same d d' : builds d' = builds d → builds_wf d → builds_wf d'.
Proof. intros E [H1 H2]. constructor; by rewrite E. Qed.

Lemma live_version_or_none_spec ctx c d : builds_wf d → ∃ old,
  live_version_or_none ctx c d = (Ok old, d) ∧ ∀ w, old = Some w ↔ serving (tenant_of ctx) c w d.
Proof.
  intros W. unfold live_version_or_none, try_except, live_version, tenant_session, bind, tx.
  destruct (query_live_cases (tenant_of ctx) c d W) as [[-> Hn]|(v & -> & S)].
  - exists None. split; [done|]. intros w. split; [done|]. intros S. by destruct (Hn w).
  - exists (Some v). split; [done|]. intros w. split; [by intros [= <-]|]. intros S'. f_equal. by apply (serving_unique (tenant_of ctx) c v w d).
Qed.

(** A live build survives a step that leaves its row and its chunks alone. *)
Lemma serving_same t c v d d' : builds d' = builds d → serving t c v d → serving t c v d'.
Proof. intros E. unfold serving. by rewrite E. Qed.

Lemma serving_update t c v p f d d' : builds d' = update_where p f (builds d) →
  (∀ b, cb_tenant b = t → cb_collection b = c → cb_version b = v → cb_status b = live → p b = false) →
  serving t c v d → serving t c v d'.
Proof.
  intros E Hp (b & Hin & Ht & Hc & Hv & Hl). exists b. rewrite E. split; [|done].
  apply in_update_where. exists b. split; [done|]. by rewrite Hp.
Qed.

Lemma content_delete t c v q d d' : chunks d' = delete_where q (chunks d) →
  (∀ x, visible t (in_build c v) x = true → q x = false) → content t c v d' = content t c v d.
Proof.
  intros E Hq. unfold content. rewrite E, select_delete_comm. apply delete_where_id.
  intros x Hx. apply filter_In in Hx as [_ Hx]. by apply Hq.
Qed.

Lemma content_same t c v d d' : chunks d' = chunks d → content t c v d' = content t c v d.
Proof. intros E. unfold content. by rewrite E. Qed.

Lemma content_incl t c v d d' : incl (chunks d) (chunks d') → incl (content t c v d) (content t c v d').
Proof. intros H x. rewrite !in_content. intros [Hx Hk]. split; [by apply H|done]. Qed.

(** What a step leaves of the build that is served: the same build with all its chunks,
    or the build the step promoted. *)
Definition still_served (a : action) (t : uuid) (c : string) (v : Z) (d d' : db) : Prop :=
  serving t c v d' ∧ incl (content t c v d) (content t c v d')
  ∨ ∃ now ctx v', a = Promote now ctx c v' ∧ tenant_of ctx = t ∧ serving t c v' d' ∧ content t c v' d' ≠ [].

Lemma begin_step now ctx c r d : builds_wf d →
  builds_wf (exec (Begin now ctx c r) d) ∧
  ∀ t c' v, serving t c' v d → still_served (Begin now ctx c r) t c' v d (exec (Begin now ctx c r) d).
Proof.
  intros W. cbn [exec]. destruct (begin_cases now ctx c r d) as [->|[-> Hnew]]; cbn [snd].
  { split; [done|]. intros t c' v S. left. split; [done|apply incl_refl]. }
  set (b := mkBuild _ _ _ _ _ _ _ _ _ _) in *. split.
  - constructor; cbn [builds].
    + change (List.NoDup (map build_key (builds d ++ [b]))). rewrite map_app. apply NoDup_snoc; [apply W|done].
    + intros x y Hx Hy S L L'. apply in_app_iff in Hx as [Hx|[<-|[]]]; [|done]. apply in_app_iff in Hy as [Hy|[<-|[]]]; [|done].
      by apply (wf_one_live d W).
  - intros t c' v (x & Hx & Hr). left. split; [|apply incl_refl]. exists x. split; [|done]. apply in_app_iff. by left.
Qed.

Lemma demoted_wf t c d : builds_wf d → builds_wf (demoted t c d).
Proof. by apply (wf_update (visible t (is_live c)) set_superseded d). Qed.

Lemma demoted_none_live t c d b : In b (builds (demoted t c d)) → cb_tenant b = t → cb_collection b = c → cb_status b ≠ live.
Proof.
  intros Hb Ht Hc Hl. apply in_update_where in Hb as (a & _ & ->).
  destruct (visible t (is_live c) a) eqn:E; [done|].
  assert (visible t (is_live c) a = true) by by apply is_live_spec. congruence.
Qed.

Lemma promoted_row now t c v n d b : In b (builds (promoted now t c v n d)) → ∃ a, In a (builds d) ∧
  build_key b = build_key a ∧ (cb_status b = live → cb_status a = live ∨ build_key b = (t, c, v)).
Proof.
  intros Hb. apply in_update_where in Hb as (a & Ha & ->). exists a. split; [done|].
  destruct (visible t (is_version c v) a) eqn:E; [|by auto]. apply is_version_spec in E.
  split; [done|]. intros _. right. rewrite <- E. done.
Qed.

Lemma promoted_wf now t c v n d : builds_wf d → builds_wf (promoted now t c v n (demoted t c d)).
Proof.
  intros W. apply (demoted_wf t c) in W as W1. constructor.
  - change (List.NoDup (map build_key (update_where (visible t (is_version c v)) (set_live now n) (builds (demoted t c d))))).
    rewrite map_key_update by done. apply W1.
  - intros b b' Hb Hb' [S1 S2] L L'.
    apply promoted_row in Hb as (a & Ha & Ka & La). apply promoted_row in Hb' as (a' & Ha' & Ka' & La').
    pose proof (same_key_collection _ _ Ka) as [[T1 T2] T3]. pose proof (same_key_collection _ _ Ka') as [[T4 T5] T6].
    destruct (La L) as [La1|Kb], (La' L') as [La1'|Kb'].
    + rewrite T3, T6. apply (wf_one_live _ W1); try done. split; congruence.
    + exfalso. injection Kb' as K1 K2 K3. apply (demoted_none_live t c d a Ha); congruence.
    + exfalso. injection Kb as K1 K2 K3. apply (demoted_none_live t c d a' Ha'); congruence.
    + unfold build_key in Kb, Kb'. congruence.
Qed.

Lemma promoted_serves now t c v n d : existsb (visible t (is_version c v)) (builds d) = true →
  serving t c v (promoted now t c v n (demoted t c d)).
Proof.
  intros So. apply existsb_exists in So as (b & Hb & Eb). apply is_version_spec in Eb.
  assert (H1 : ∃ b1, In b1 (builds (demoted t c d)) ∧ build_key b1 = (t, c, v)).
  { eexists. split; [apply in_update_where; exists b; by split|]. by destruct (visible t (is_live c) b). }
  destruct H1 as (b1 & Hb1 & Kb1). exists (set_live now n b1). split.
  - apply in_update_where. exists b1. split; [done|]. by rewrite (proj2 (is_version_spec t c v b1) Kb1).
  - unfold build_key in Kb1. injection Kb1 as H1 H2 H3. by rewrite <- H1, <- H2, <- H3.
Qed.

Lemma promoted_elsewhere now t0 c v n d t c' w : ¬ (t = t0 ∧ c' = c) → serving t c' w d →
  serving t c' w (promoted now t0 c v n (demoted t0 c d)).
Proof.
  intros Hne S. apply (serving_update t c' w (visible t0 (is_version c v)) (set_live now n) (demoted t0 c d)); [done| |].
  - intros b Ht Hc _ _. destruct (visible t0 (is_version c v) b) eqn:E; [|done].
    apply is_version_spec in E. injection E as H1 H2 H3. exfalso. apply Hne. split; congruence.
  - apply (serving_update t c' w (visible t0 (is_live c)) set_superseded d); [done| |done].
    intros b Ht Hc _ _. destruct (visible t0 (is_live c) b) eqn:E; [|done].
    apply is_live_spec in E as (H1 & H2 & _). exfalso. apply Hne. split; congruence.
Qed.

Lemma promote_step now ctx c v d : builds_wf d → sound (Promote now ctx c v) d = true →
  builds_wf (exec (Promote now ctx c v) d) ∧
  ∀ t c' w, serving t c' w d → still_served (Promote now ctx c v) t c' w d (exec (Promote now ctx c v) d).
Proof.
  intros W So. cbn [exec]. rewrite promote_eq. cbn [sound] in So. set (t0 := tenant_of ctx) in *.
  destruct (count (content t0 c v d) =? 0) eqn:En; cbn [snd].
  { split; [done|]. intros t c' w S. left. split; [done|apply incl_refl]. }
  split; [by apply promoted_wf|]. intros t c' w S. destruct (decide (t = t0 ∧ c' = c)) as [[-> ->]|Hne].
  - right. exists now, ctx, v. split; [done|split; [done|]]. split.
    + apply promoted_serves. apply orb_true_iff in So as [So|So]; [done|]. by destruct (content t0 c v d).
    + change (content t0 c v d ≠ []). intros E. by rewrite E in En.
  - left. split; [by apply promoted_elsewhere|apply incl_refl].
Qed.

Lemma fail_step ctx c v e d : builds_wf d → sound (Fail_ ctx c v e) d = true →
  builds_wf (exec (Fail_ ctx c v e) d) ∧
  ∀ t c' w, serving t c' w d → still_served (Fail_ ctx c v e) t c' w d (exec (Fail_ ctx c v e) d).
Proof.
  intros W So. cbn [exec]. rewrite fail_eq. cbn [snd]. cbn [sound] in So. set (t0 := tenant_of ctx) in *.
  set (d' := set_field _ _). split.
  - by apply (wf_update (visible t0 (failing c v)) (set_build_failed e) d).
  - intros t c' w S. left. pose proof S as (b & Hin & Ht & Hc & Hv & Hl).
    assert (Hne : ¬ (t = t0 ∧ c' = c ∧ w = v)).
    { intros (-> & -> & ->). apply negb_true_iff in So. rewrite <- not_true_iff_false in So. apply So.
      apply existsb_exists. exists b. split; [done|].
      assert (H1 : visible t0 (is_live c) b = true) by by apply is_live_spec.
      assert (H2 : visible t0 (is_version c v) b = true) by (apply is_version_spec; unfold build_key; congruence).
      unfold visible in *. apply andb_true_iff in H1 as [H1 H3], H2 as [_ H4]. by rewrite H1, H3, H4. }
    split.
    + apply (serving_update t c' w (visible t0 (failing c v)) (set_build_failed e) d); [done| |done].
      intros x Hxt Hxc Hxv Hxl. unfold failing, visible. by rewrite Hxl, andb_false_r, andb_false_r.
    + rewrite (content_delete t c' w (visible t0 (in_build c v)) d d'); [apply incl_refl|done|].
      intros x Hx. apply in_build_spec in Hx as (H1 & H2 & H3). destruct (visible t0 (in_build c v) x) eqn:E; [|done].
      apply in_build_spec in E as (H4 & H5 & H6). exfalso. apply Hne. split; [congruence|split; congruence].
Qed.

Lemma query_live_serving t c v d : builds_wf d → serving t c v d → query_live t c d = (Ok (Some v), d).
Proof.
  intros W S. destruct (query_live_cases t c d W) as [[_ H]|(v' & -> & S')]; [by destruct (H v)|].
  by rewrite (serving_unique t c v v' d).
Qed.

(** Reaping takes chunks of builds that are not served, and nothing of other tables. *)
Lemma reap_chunks ctx c d : builds_wf d →
  let t := tenant_of ctx in
  let d' := (reap ctx c d).2 in
  documents d' = documents d ∧
  ∃ q, chunks d' = delete_where q (chunks d) ∧
    ∀ x, q x = true → ch_tenant x = t ∧ ch_collection x = c ∧ ¬ serving t c (ch_build_version x) d.
Proof.
  intros W t d'. unfold d'. destruct (query_live_cases t c d W) as [[E Hn]|(v & E & S0)].
  { unfold reap, tenant_session, tx. fold t. rewrite (run_bind _ _ _ _ _ E). split; [done|]. exists (fun _ => false).
    split; [by rewrite delete_where_id|done]. }
  rewrite (reap_eq ctx c d v E). fold t. split; [done|]. eexists. split; [reflexivity|]. intros x Hx.
  apply existsb_exists in Hx as (u & Hu & Hx). apply in_build_spec in Hx as (H1 & H2 & <-). split; [done|split; [done|]].
  intros S. apply in_map_iff in Hu as (y & Hy & Hin). apply filter_In in Hin as [_ Hin]. apply doomed_spec in Hin as (_ & _ & Hin).
  apply Hin. rewrite Hy, (serving_unique t c _ v d W S S0). by left.
Qed.

Lemma reap_content ctx c d t' c' w : builds_wf d → (tenant_of ctx = t' → c = c' → serving t' c' w d) →
  content t' c' w (reap ctx c d).2 = content t' c' w d.
Proof.
  intros W S. destruct (reap_chunks ctx c d W) as (_ & q & E & Hq). apply (content_delete t' c' w q d _ E).
  intros x Hx. apply in_build_spec in Hx as (<- & <- & <-). apply not_true_iff_false. intros H.
  destruct (Hq x H) as (H1 & H2 & Hn). apply Hn. specialize (S (eq_sym H1) (eq_sym H2)). by rewrite H1, H2 in S.
Qed.

Lemma reap_kept_serving ctx c d : builds_wf d →
  builds_wf (exec (Reap ctx c) d) ∧
  ∀ t c' w, serving t c' w d → still_served (Reap ctx c) t c' w d (exec (Reap ctx c) d).
Proof.
  intros W. cbn [exec]. set (t0 := tenant_of ctx). split.
  - destruct (query_live_cases t0 c d W) as [[E Hn]|(v & E & S0)].
    + unfold reap, tenant_session, tx. fold t0. by rewrite (run_bind _ _ _ _ _ E).
    + rewrite (reap_eq ctx c d v E). by apply (wf_delete (visible t0 (doomed c (kept_versions t0 c v d))) d).
  - intros t c' w S. left. split; [|rewrite reap_content; [apply incl_refl|done|by intros _ _]].
    destruct (query_live_cases t0 c d W) as [[E Hn]|(v & E & S0)].
    { unfold reap, tenant_session, tx. fold t0. by rewrite (run_bind _ _ _ _ _ E). }
    rewrite (reap_eq ctx c d v E). fold t0. destruct S as (b & Hin & Hr). pose proof Hr as (Ht & Hc & Hv & Hl).
    exists b. split; [|done]. apply in_delete_where. split; [done|]. apply not_true_iff_false. intros D.
    apply doomed_spec in D as (D1 & D2 & D3). apply D3. assert (cb_version b = v) as ->; [|by left]. apply (serving_unique t0 c (cb_version b) v d W); [|done]. by exists b.
Qed.

Lemma exec_build_step a d : builds_wf d → sound a d = true →
  builds_wf (exec a d) ∧ ∀ t c v, serving t c v d → still_served a t c v d (exec a d).
Proof.
  intros W So. destruct a.
  - by apply begin_step.
  - destruct (insert_chunks_builds l d) as [H1 H2]. split; [by apply (wf_same d)|]. intros t c v S. left. split.
    + by apply (serving_same t c v d).
    + by apply content_incl.
  - by apply promote_step.
  - by apply fail_step.
  - by apply reap_kept_serving.
Qed.

(** C18: a collection that is served stays served.  Through any interleaving of rebuilds,
    by any tenants, in which a promotion is of a build that is still registered and only
    unserved builds are failed, build versions stay unique and at most one build of a
    collection is live; and a collection with a live build that has chunks has one at the
    end, the one every read resolves to: the same build with all the chunks it had, or one
    that was promoted in the meantime. *)
Theorem collection_never_goes_dark h d :
  builds_wf d → sound_all h d = true →
  builds_wf (exec_all h d) ∧
  ∀ t c v, serving t c v d → content t c v d ≠ [] →
    ∃ v', serving t c v' (exec_all h d) ∧ content t c v' (exec_all h d) ≠ [] ∧
      (∀ ctx, tenant_of ctx = t → live_version ctx c (exec_all h d) = (Ok v', exec_all h d)) ∧
      (v' = v ∧ incl (content t c v d) (content t c v (exec_all h d))
       ∨ ∃ now ctx, In (Promote now ctx c v') h ∧ tenant_of ctx = t).
Proof.
  revert d. induction h as [|a h IH]; intros d W So.
  - cbn [exec_all]. split; [done|]. intros t c v S Hc. exists v. split; [done|split; [done|split]].
    + intros ctx <-. unfold live_version, tenant_session, bind, tx. by rewrite (query_live_serving _ c v d W S).
    + left. split; [done|apply incl_refl].
  - cbn [sound_all] in So. apply andb_true_iff in So as [S1 S2]. destruct (exec_build_step a d W S1) as [W' Hstep].
    destruct (IH (exec a d) W' S2) as [W'' Hall]. split; [done|]. intros t c v S Hc. cbn [exec_all].
    destruct (Hstep t c v S) as [[S' Hi]|(now & ctx & u & -> & Ht & S' & Hc')].
    + destruct (Hall t c v S') as (v' & H1 & H2 & H3 & H4).
      { intros E. apply Hc. rewrite E in Hi. by apply incl_l_nil. }
      exists v'. split; [done|split; [done|split; [done|]]]. destruct H4 as [[-> H4]|(now & ctx & H4 & H5)].
      * left. split; [done|]. by apply (incl_tran Hi).
      * right. exists now, ctx. split; [by right|done].
    + destruct (Hall t c u S' Hc') as (v' & H1 & H2 & H3 & H4). exists v'. split; [done|split; [done|split; [done|]]].
      right. destruct H4 as [[-> H4]|(now' & ctx' & H4 & H5)].
      * exists now, ctx. split; [by left|done].
      * exists now', ctx'. split; [by right|done].
Qed.

(** * The bound on coexisting builds *)

(** The build a promotion replaced: the newest served or replaced one below [v]. *)
Definition newest_predecessor (t : uuid) (c : string) (v w : Z) (d : db) : Prop :=
  (∃ b, In b (builds d) ∧ visible t (predecessor c v) b = true ∧ cb_version b = w) ∧
  ∀ b, In b (builds d) → visible t (predecessor c v) b = true → cb_version b <= w.

Lemma predecessor_spec t c v b :
  visible t (predecessor c v) b = true ↔
  cb_tenant b = t ∧ cb_collection b = c ∧ cb_version b < v ∧ (cb_status b = live ∨ cb_status b = superseded).
Proof.
  unfold visible, predecessor, of_collection, row_tenant, tenant_build.
  rewrite !andb_true_iff, orb_true_iff, N.eqb_eq, String.eqb_eq, Z.ltb_lt, !bool_decide_eq_true. tauto.
Qed.

Lemma newest_first_total a b : newest_first a b = true ∨ newest_first b a = true.
Proof. unfold newest_first. rewrite !Z.leb_le. lia. Qed.

Lemma newest_first_trans a b c : newest_first a b = true → newest_first b c = true → newest_first a c = true.
Proof. unfold newest_first. rewrite !Z.leb_le. lia. Qed.

Lemma in_kept t c v d w : In w (kept_versions t c v d) ↔ w = v ∨ newest_predecessor t c v w d.
Proof.
  unfold kept_versions. change (Z.to_nat (MAX_COEXISTING_BUILDS - 1)) with 1%nat.
  set (l := select_where (visible t (predecessor c v)) (builds d)).
  assert (Hl : ∀ b, In b l ↔ In b (builds d) ∧ visible t (predecessor c v) b = true) by (intros b; apply filter_In).
  split.
  - intros [->|Hw]; [by left|]. right. destruct (order_by newest_first l) as [|b rest] eqn:E; [done|].
    destruct Hw as [<-|[]]. assert (Hb : In b l) by (apply (in_order_by newest_first); rewrite E; by left).
    split; [exists b; by apply Hl in Hb as [H1 H2]|]. intros b' H1 H2.
    destruct (order_by_head newest_first newest_first_total newest_first_trans b l rest b' E) as [->|H]; [by apply Hl|lia|].
    by apply Z.leb_le in H.
  - intros [->|[(b & Hin & Hp & <-) Hmax]]; [by left|]. right.
    destruct (order_by newest_first l) as [|b' rest] eqn:E.
    + assert (H : In b (order_by newest_first l)) by (apply in_order_by, Hl; done). by rewrite E in H.
    + left. assert (Hb' : In b' l) by (apply (in_order_by newest_first); rewrite E; by left).
      apply Hl in Hb' as [H1 H2]. assert (Hbl : In b l) by by apply Hl.
      destruct (order_by_head newest_first newest_first_total newest_first_trans b' l rest b E Hbl) as [->|H]; [done|].
      apply Z.leb_le in H. specialize (Hmax b' H1 H2). lia.
Qed.

Lemma kept_length t c v d : (length (kept_versions t c v d) <= 2)%nat.
Proof.
  unfold kept_versions. change (Z.to_nat (MAX_COEXISTING_BUILDS - 1)) with 1%nat. cbn [length]. rewrite length_map, length_firstn.
  apply le_n_S, Nat.le_min_l.
Qed.

Lemma versions_nodup t c l : List.NoDup (map build_key l) →
  List.NoDup (map cb_version (select_where (visible t (of_collection c)) l)).
Proof.
  intros H. apply (NoDup_map_filter build_key (visible t (of_collection c))) in H.
  change (List.filter _ l) with (select_where (visible t (of_collection c)) l) in H.
  apply (NoDup_map_inv (fun v => (t, c, v))). rewrite map_map.
  rewrite (map_ext_in _ build_key); [done|]. intros b Hb. apply filter_In in Hb as [_ Hb].
  apply of_collection_spec in Hb as [<- <-]. done.
Qed.

Lemma reaped_bound t c v d : builds_wf d →
  count (select_where (visible t (of_collection c))
    (delete_where (visible t (doomed c (kept_versions t c v d))) (builds d))) <= MAX_COEXISTING_BUILDS.
Proof.
  intros W. set (keep := kept_versions t c v d). set (l := select_where _ _).
  assert (H : (length (map cb_version l) <= length keep)%nat).
  { apply NoDup_incl_length.
    - apply versions_nodup, NoDup_map_filter. apply W.
    - intros w Hw. apply in_map_iff in Hw as (b & <- & Hb). apply filter_In in Hb as [Hb Hp].
      apply of_collection_spec in Hp as [Ht Hc]. apply in_delete_where in Hb as [_ Hd].
      apply not_true_iff_false in Hd. rewrite doomed_spec in Hd. destruct (in_dec Z.eq_dec (cb_version b) keep); tauto. }
  pose proof (kept_length t c v d) as Hk. fold keep in Hk. rewrite length_map in H. unfold count, MAX_COEXISTING_BUILDS. lia.
Qed.

(** The two-build bound.  With nothing live, reaping deletes nothing.  Otherwise it
    keeps exactly the live build and its newest predecessor that was ever served, so at
    most two builds of the collection remain; every other build of it goes, whatever its
    state, with all its chunks, and no other row of either table is touched. *)
Theorem reap_keeps_two ctx c d :
  builds_wf d →
  let t := tenant_of ctx in
  (∀ v, ¬ serving t c v d) ∧ reap ctx c d = (Ok ([], None), d)
  ∨ ∃ v deleted keep d', serving t c v d ∧ reap ctx c d = (Ok (deleted, Some keep), d') ∧
      (∀ w, In w keep ↔ w = v ∨ newest_predecessor t c v w d) ∧
      (∀ w, In w deleted ↔ ¬ In w keep ∧ In (t, c, w) (map build_key (builds d))) ∧
      (∀ b, In b (builds d') ↔ In b (builds d) ∧ (cb_tenant b = t → cb_collection b = c → In (cb_version b) keep)) ∧
      count (select_where (visible t (of_collection c)) (builds d')) <= MAX_COEXISTING_BUILDS ∧
      (∀ x, In x (chunks d') ↔ In x (chunks d) ∧
         ¬ (ch_tenant x = t ∧ ch_collection x = c ∧ In (ch_build_version x) deleted)).
Proof.
  intros W t. destruct (query_live_cases t c d W) as [[E Hn]|(v & E & S)].
  { left. split; [done|]. unfold reap, tenant_session, tx. fold t. by rewrite (run_bind _ _ _ _ _ E). }
  right. rewrite (reap_eq ctx c d v E). fold t. set (kept := kept_versions t c v d). set (gone := select_where _ _).
  eexists v, _, _, _. split; [done|split; [reflexivity|]]. cbn [builds chunks].
  assert (Hk : ∀ w, In w (order_by Z.leb kept) ↔ In w kept) by (intros w; apply in_order_by).
  assert (Hg : ∀ w, In w (map cb_version gone) ↔ ¬ In w kept ∧ In (t, c, w) (map build_key (builds d))).
  { intros w. rewrite !in_map_iff. unfold gone, select_where. setoid_rewrite filter_In. setoid_rewrite doomed_spec. split.
    - intros (b & <- & Hb & <- & <- & Hd). split; [done|]. by exists b.
    - intros (Hd & b & [= <- <- <-] & Hb). by exists b. }
  split; [intros w; rewrite Hk; apply in_kept|]. split; [intros w; rewrite Hk, in_order_by; apply Hg|].
  split; [|split; [by apply reaped_bound|]].
  - intros b. change (In b (delete_where (visible t (doomed c kept)) (builds d)) ↔
      In b (builds d) ∧ (cb_tenant b = t → cb_collection b = c → In (cb_version b) (order_by Z.leb kept))).
    rewrite in_delete_where, Hk, <- not_true_iff_false, doomed_spec.
    destruct (in_dec Z.eq_dec (cb_version b) kept); tauto.
  - intros x. cbn [chunks]. change (In x (delete_where (fun x => existsb (fun w => visible t (in_build c w) x)
      (map cb_version gone)) (chunks d)) ↔ In x (chunks d) ∧ ¬ (ch_tenant x = t ∧ ch_collection x = c ∧
      In (ch_build_version x) (order_by Z.leb (map cb_version gone)))).
    rewrite in_delete_where, in_order_by, <- not_true_iff_false, existsb_exists. setoid_rewrite in_build_spec.
    split; intros [H1 H2]; (split; [done|]).
    + intros (H3 & H4 & H5). apply H2. by exists (ch_build_version x).
    + intros (w & H3 & H4 & H5 & H6). apply H2. by rewrite H6.
Qed.

(** * Fingerprints *)

Lemma id_le_total a b : id_le a b = true ∨ id_le b a = true.
Proof. apply String.leb_total. Qed.

#[export] Instance id_le_antisymm : AntiSymm (=) (fun a b => id_le a b = true).
Proof. intros a b. apply String.leb_antisym. Qed.

Lemma order_ids_unique l l' : Permutation l l' → order_by id_le l = order_by id_le l'.
Proof.
  intros H. apply (StronglySorted_unique (fun a b => id_le a b = true)).
  - apply order_by_sorted; [apply id_le_total|apply leb_trans].
  - apply order_by_sorted; [apply id_le_total|apply leb_trans].
  - by rewrite !order_by_perm.
Qed.

Lemma app_same_length a b r r' : String.length a = String.length b → a +:+ r = b +:+ r' → a = b ∧ r = r'.
Proof.
  revert b. induction a as [|x a IH]; intros [|y b]; cbn; [done|done|done|].
  intros [= Hl] [= -> H]. by destruct (IH b Hl H) as [-> ->].
Qed.

Lemma concat_ids_inj n l l' : n ≠ 0%nat → Forall (fun s => String.length s = n) l →
  Forall (fun s => String.length s = n) l' → concat_ids l = concat_ids l' → l = l'.
Proof.
  intros Hn Hl. revert l'. induction Hl as [|x l Hx _ IH]; intros l0 [|y l' Hy Hl'] E; [done| | |].
  - exfalso. cbn in E. destruct y; cbn in *; [by apply Hn|done].
  - exfalso. cbn in E. destruct x; cbn in *; [by apply Hn|done].
  - cbn in E. apply app_same_length in E as [-> E]; [|congruence]. f_equal. by apply IH.
Qed.

Definition canonical_ids (t : uuid) (c : string) (v : Z) (d : db) : list string :=
  map ch_canonical_id (content t c v d).

(** A fingerprint is the identity of a build's content.  Builds with the same canonical
    ids, in whatever order their rows were inserted, in whatever collection or tenant, have
    one fingerprint; and builds with one fingerprint have the same canonical ids, each as
    often, unless SHA-256 collided (canonical ids are [c_] and sixteen hex digits). *)
Theorem fingerprint_identifies_content sha256 ctx c v d ctx' c' v' d' f f' :
  let ids := canonical_ids (tenant_of ctx) c v d in
  let ids' := canonical_ids (tenant_of ctx') c' v' d' in
  Forall (fun i => String.length i = 18%nat) ids → Forall (fun i => String.length i = 18%nat) ids' →
  (fingerprint sha256 ctx c v d).1 = Ok f → (fingerprint sha256 ctx' c' v' d').1 = Ok f' →
  (Permutation ids ids' → f = f') ∧
  (f = f' → Permutation ids ids' ∨ ∃ a b, a ≠ b ∧ sha256 a = sha256 b).
Proof.
  intros ids ids' Hi Hi' [= <-] [= <-]. unfold build_ids. fold (content (tenant_of ctx) c v d).
  fold (content (tenant_of ctx') c' v' d'). fold (canonical_ids (tenant_of ctx) c v d).
  fold (canonical_ids (tenant_of ctx') c' v' d'). fold ids ids'. split.
  - intros H. by rewrite (order_ids_unique ids ids').
  - intros E. destruct (decide (concat_ids (order_by id_le ids) = concat_ids (order_by id_le ids'))) as [H|H].
    + left. apply (concat_ids_inj 18) in H; [|done|by rewrite order_by_perm..].
      by rewrite <- (order_by_perm id_le ids), H, order_by_perm.
    + right. by eexists _, _.
Qed.

Module BuildsDemo.
Definition ctx : RequestContext := Demo.ctx.
Definition ch (id : string) (v : Z) : chunk := mkChunk 1 50 "manuals" id 0 v "text" JNull None None.
Definition build (v : Z) (st : build_status) : collection_build :=
  mkBuild 1 "manuals" v st None 1 None None 0 (Some 0).
(** Build 4 is served, 3 was served before, 1 and 2 are older, and 5 is being written. *)
Definition d0 : db :=
  empty_db <| builds := [build 1 superseded; build 2 build_failed; build 3 superseded; build 4 live; build 5 building] |>
    <| chunks := [ch "c_1" 1; ch "c_3" 3; ch "c_4" 4; ch "c_5" 5] |>.
Definition rebuild : list action :=
  [Begin 9 ctx "manuals" None; Write [ch "c_6" 6]; Promote 9 ctx "manuals" 6; Reap ctx "manuals"; Fail_ ctx "manuals" 5 "crash"].
(** Two rebuilds interleave: the one that promoted reaps the other, which goes on writing
    and then promotes a build that is no longer registered. *)
Definition overlap : list action :=
  [Write [ch "c_5" 5]; Begin 9 ctx "manuals" None; Write [ch "c_6" 6]; Promote 9 ctx "manuals" 6; Reap ctx "manuals";
   Write [ch "c_5b" 5]; Promote 10 ctx "manuals" 5].
Definition short (l : list chunk) : list string := map ch_canonical_id l.
End BuildsDemo.

Lemma demo_builds_wf : builds_wf BuildsDemo.d0.
Proof.
  constructor.
  - apply NoDup_ListNoDup, (bool_decide_unpack _). vm_compute. done.
  - intros b b' Hb Hb' _ L L'. cbn in Hb, Hb'. intuition (subst; cbn in *; congruence).
Qed.

(** A promotion of a build that was reaped leaves the collection without a live build. *)
Example overlapping_rebuilds_go_dark :
  sound_all BuildsDemo.overlap BuildsDemo.d0 = false ∧
  (live_version BuildsDemo.ctx "manuals" BuildsDemo.d0).1 = Ok 4 ∧
  (live_version BuildsDemo.ctx "manuals" (exec_all BuildsDemo.overlap BuildsDemo.d0)).1 = Raise NoLiveBuild.
Proof. repeat split; vm_compute; reflexivity. Qed.

Lemma collection_never_goes_dark_witness :
  ∃ v', serving 1 "manuals" v' (exec_all BuildsDemo.rebuild BuildsDemo.d0) ∧
    content 1 "manuals" v' (exec_all BuildsDemo.rebuild BuildsDemo.d0) ≠ [].
Proof.
  destruct (collection_never_goes_dark BuildsDemo.rebuild BuildsDemo.d0 demo_builds_wf ltac:(vm_compute; reflexivity)) as [_ H].
  destruct (H 1%N "manuals" 4) as (v' & H1 & H2 & _).
  - exists (BuildsDemo.build 4 live). cbn. intuition.
  - vm_compute. discriminate.
  - by exists v'.
Defined.

Lemma reap_keeps_two_witness :
  ∃ deleted keep d', reap BuildsDemo.ctx "manuals" BuildsDemo.d0 = (Ok (deleted, Some keep), d') ∧
    (∀ w, In w keep ↔ w = 4 ∨ newest_predecessor 1 "manuals" 4 w BuildsDemo.d0) ∧ deleted = [1; 2; 5].
Proof.
  destruct (reap_keeps_two BuildsDemo.ctx "manuals" BuildsDemo.d0 demo_builds_wf)
    as [[Hn _]|(v & deleted & keep & d' & S & E & Hk & _)].
  - destruct (Hn 4). exists (BuildsDemo.build 4 live). cbn. intuition.
  - exists deleted, keep, d'. split; [done|]. split.
    + assert (v = 4) as ->; [|done]. apply (serving_unique 1 "manuals" v 4 BuildsDemo.d0 demo_builds_wf S).
      exists (BuildsDemo.build 4 live). cbn. intuition.
    + apply (f_equal fst) in E. vm_compute in E. by injection E as <- _.
Defined.

Lemma fingerprint_identifies_content_witness :
  let ids := ["c_0123456789abcdef"; "c_fedcba9876543210"] in
  let d := BuildsDemo.d0 <| chunks := map (fun i => BuildsDemo.ch i 4) ids |> in
  let d' := BuildsDemo.d0 <| chunks := map (fun i => BuildsDemo.ch i 5) (rev ids) |> in
  fingerprint (fun s => s) BuildsDemo.ctx "manuals" 4 d = (Ok "c_0123456789abcdefc_fedcba9876543210", d) ∧
  (fingerprint (fun s => s) BuildsDemo.ctx "manuals" 4 d).1 = (fingerprint (fun s => s) BuildsDemo.ctx "manuals" 5 d').1.
Proof.
  intros ids d d'. split; [vm_compute; reflexivity|].
  destruct (fingerprint_identifies_content (fun s => s) BuildsDemo.ctx "manuals" 4 d BuildsDemo.ctx "manuals" 5 d' _ _
    ltac:(repeat constructor) ltac:(repeat constructor) eq_refl eq_refl) as [H _].
  refine (f_equal Ok (H _)). vm_compute. apply perm_swap.
Defined.
