(* ===== verification/ObjectStore.v ===== *)
(** The object store over S3 ([platform_core/adapters/local/object_store.py]).

    The bucket is a map from keys to objects, and each request may fail with an error of
    the S3 client: [fault] of a request is what the service answered instead of doing it.
    SHA-256 is a parameter; ETags and modification times are not modelled. *)
From Stdlib Require Import Ascii.
From stdpp Require Import pretty.
From S2P Require Import Prelude Identity Json Text Db.
From S2P Require Auth.

Record object := mkObject {
  o_body : string;
  o_content_type : string;
  o_sha256 : option string;
  o_tenant : string
}.

Record StoredObject := mkStored {
  so_key : string;
  so_size_bytes : Z;
  so_content_type : string;
  so_sha256 : option string
}.

Notation bucket := (gmap string object).

(** [ClientError] with its code and HTTP status, or a [BotoCoreError]. *)
Inductive s3_fault := ClientError (code : string) (status : Z) | BotoCoreError.

(** * Requests *)

Definition request {A} (fault : option s3_fault) (m : bucket → (A + s3_fault) * bucket) : bucket → (A + s3_fault) * bucket :=
  fun b => match fault with Some f => (inr f, b) | None => m b end.

Definition put_object (if_none_match : bool) (k : string) (o : object) (b : bucket) : (unit + s3_fault) * bucket :=
  if if_none_match && is_some (b !! k) then (inr (ClientError "PreconditionFailed" 412), b) else (inl tt, <[k := o]> b).

Definition get_object (k : string) (b : bucket) : (object + s3_fault) * bucket :=
  (match b !! k with Some o => inl o | None => inr (ClientError "NoSuchKey" 404) end, b).

Definition head_object (k : string) (b : bucket) : (object + s3_fault) * bucket :=
  (match b !! k with Some o => inl o | None => inr (ClientError "404" 404) end, b).

Definition delete_object (k : string) (b : bucket) : (unit + s3_fault) * bucket := (inl tt, delete k b).

Definition list_objects (p : string) (b : bucket) : (list (string * object) + s3_fault) * bucket :=
  (inl (map_to_list (filter (fun kv => startswith p kv.1 = true) b)), b).

(** * Errors *)

Definition TRANSIENT_CODES : list string :=
  ["InternalError"; "ServiceUnavailable"; "SlowDown"; "RequestTimeout"; "503"; "500"].

Definition error_code (code : string) (status : Z) : string := if String.eqb code "" then pretty status else code.

Definition translate (code : string) (status : Z) : exn :=
  let c := error_code code status in
  if mem ["404"; "NoSuchKey"; "NotFound"; "NoSuchBucket"] c then NotFoundError
  else if mem TRANSIENT_CODES c || (500 <=? status) || (status =? 429) then TransientError None
  else RuntimeError "object store rejected".

Definition exn_of (f : s3_fault) : exn :=
  match f with ClientError code status => translate code status | BotoCoreError => TransientError None end.

(** * Keys *)

Definition safe_char (c : ascii) : bool := is_alnum_char c || mem ["."; "_"; "-"] (String c "").

(** [{0,255}] further characters; [$] also matches before a final newline. *)
Fixpoint safe_rest (n : nat) (s : string) : bool :=
  match s with
  | EmptyString => true
  | String c s' =>
      (String.eqb s (String "010"%char ""))
      || match n with O => false | S n' => safe_char c && safe_rest n' s' end
  end.

Definition safe_part (s : string) : bool :=
  match s with String c s' => is_alnum_char c && safe_rest 255 s' | EmptyString => false end.

Definition store_prefix (ctx : RequestContext) : string := "t/" +:+ uuid_str (tenant_of ctx) +:+ "/".

Definition key_for (ctx : RequestContext) (parts : list string) : result string :=
  match parts with
  | [] => Raise (ValueError "a key needs at least one part")
  | _ => if forallb safe_part parts then Ok (store_prefix ctx +:+ join "/" parts)
         else Raise (ValueError "key part is not a safe name")
  end.

Definition checked (ctx : RequestContext) (k : string) : M bucket string :=
  guard (startswith (store_prefix ctx) k && negb (contains ".." k)) NotFoundError ;; ret k.

(** * Operations *)

(** A request and what the operation's [try]/[except] makes of its outcome. *)
Definition answer {A B} (fault : option s3_fault) (m : bucket → (A + s3_fault) * bucket) (h : A + s3_fault → result B)
    : M bucket B :=
  fun b => let (r, b') := request fault m b in (h r, b').

Definition ok_or_translated {A} (r : A + s3_fault) : result A :=
  match r with inl a => Ok a | inr f => Raise (exn_of f) end.

Module S3ObjectStore.

Section store.
Variable sha256 : string → string.

Definition put (fault : option s3_fault) (ctx : RequestContext) (k data content_type : string) (if_absent : bool)
    : M bucket StoredObject :=
  k <- checked ctx k ;;
  let sha := sha256 data in
  answer fault (put_object if_absent k (mkObject data content_type (Some sha) (uuid_str (tenant_of ctx)))) (fun r =>
    match r with
    | inl _ => Ok (mkStored k (str_len data) content_type (Some sha))
    | inr (ClientError code status) =>
        if mem ["PreconditionFailed"; "412"] (error_code code status) then Raise ConflictError
        else Raise (translate code status)
    | inr BotoCoreError => Raise (TransientError None)
    end).

End store.

Definition get (fault : option s3_fault) (ctx : RequestContext) (k : string) : M bucket string :=
  k <- checked ctx k ;;
  o <- answer fault (get_object k) ok_or_translated ;;
  ret (o_body o).

Definition head (fault : option s3_fault) (ctx : RequestContext) (k : string) : M bucket StoredObject :=
  k <- checked ctx k ;;
  o <- answer fault (head_object k) ok_or_translated ;;
  ret (mkStored k (str_len (o_body o)) (o_content_type o) (o_sha256 o)).

(** [list]: a listing of a bucket that does not exist is empty. *)
Definition list_keys (fault : option s3_fault) (ctx : RequestContext) (prefix : string) : M bucket (list StoredObject) :=
  guard (negb (contains ".." prefix || startswith "/" prefix)) NotFoundError ;;
  answer fault (list_objects (store_prefix ctx +:+ prefix)) (fun r =>
    match r with
    | inl l => Ok (map (fun kv => mkStored kv.1 (str_len (o_body kv.2)) "application/octet-stream" None) l)
    | inr (ClientError code status) =>
        if String.eqb (error_code code status) "NoSuchBucket" then Ok [] else Raise (translate code status)
    | inr BotoCoreError => Raise (TransientError None)
    end).

(** [delete]: whether the object was there. *)
Definition delete (fault fault' : option s3_fault) (ctx : RequestContext) (k : string) : M bucket bool :=
  k <- checked ctx k ;;
  existed <- answer fault (head_object k) (fun r =>
    match r with
    | inl _ => Ok true
    | inr (ClientError code status) =>
        if mem ["404"; "NoSuchKey"; "NotFound"] (error_code code status) then Ok false
        else Raise (translate code status)
    | inr BotoCoreError => Raise (TransientError None)
    end) ;;
  when existed (answer fault' (delete_object k) ok_or_translated) ;;
  ret existed.

End S3ObjectStore.

(** * Tenants do not meet *)

Inductive operation :=
| Put (fault : option s3_fault) (k data content_type : string) (if_absent : bool)
| Get (fault : option s3_fault) (k : string)
| Head (fault : option s3_fault) (k : string)
| ListKeys (fault : option s3_fault) (prefix : string)
| Delete (fault fault' : option s3_fault) (k : string).

Inductive reply := Stored (o : StoredObject) | Bytes (s : string) | Keys (l : list StoredObject) | Existed (b : bool).

Definition reply_of {A} (f : A → reply) (m : M bucket A) : M bucket reply := a <- m ;; ret (f a).

Definition operate (sha256 : string → string) (ctx : RequestContext) (o : operation) : M bucket reply :=
  match o with
  | Put fault k data ct if_absent => reply_of Stored (S3ObjectStore.put sha256 fault ctx k data ct if_absent)
  | Get fault k => reply_of Bytes (S3ObjectStore.get fault ctx k)
  | Head fault k => reply_of Stored (S3ObjectStore.head fault ctx k)
  | ListKeys fault prefix => reply_of Keys (S3ObjectStore.list_keys fault ctx prefix)
  | Delete fault fault' k => reply_of Existed (S3ObjectStore.delete fault fault' ctx k)
  end.

(** Two buckets that a tenant cannot tell apart. *)
Definition same_scope (ctx : RequestContext) (b b' : bucket) : Prop :=
  ∀ k, startswith (store_prefix ctx) k = true → b !! k = b' !! k.

Definition only_scope (ctx : RequestContext) (b b' : bucket) : Prop :=
  ∀ k, startswith (store_prefix ctx) k = false → b' !! k = b !! k.

(** A computation that reads and writes nothing outside the tenant's prefix. *)
Definition scoped {A} (ctx : RequestContext) (m : M bucket A) : Prop :=
  ∀ b b', same_scope ctx b b' → (m b).1 = (m b').1 ∧ same_scope ctx (m b).2 (m b').2 ∧ only_scope ctx b (m b).2.

Section scope.
Context (ctx : RequestContext).

Lemma scoped_ret {A} (a : A) : scoped ctx (ret a).
Proof. intros b b' H. split; [done|split; [done|by intros k]]. Qed.

Lemma scoped_raise {A} e : scoped ctx (raise (A := A) e).
Proof. intros b b' H. split; [done|split; [done|by intros k]]. Qed.

Lemma scoped_bind {A B} (m : M bucket A) (f : A → M bucket B) :
  scoped ctx m → (∀ a, scoped ctx (f a)) → scoped ctx (bind m f).
Proof.
  intros Hm Hf b b' H. destruct (Hm b b' H) as (H1 & H2 & H3). unfold bind.
  destruct (m b) as [[a|e] c], (m b') as [[a'|e'] c']; cbn in *; try done.
  - injection H1 as <-. destruct (Hf a c c' H2) as (H4 & H5 & H6). split; [done|split; [done|]].
    intros k Hk. by rewrite H6, H3.
  - by injection H1 as <-.
Qed.

Lemma scoped_when c (m : M bucket unit) : scoped ctx m → scoped ctx (when c m).
Proof. destruct c; [done|]. intros _. apply scoped_ret. Qed.

(** A request that touches keys of the tenant's only. *)
Definition local {A} (m : bucket → (A + s3_fault) * bucket) : Prop :=
  ∀ b b', same_scope ctx b b' → (m b).1 = (m b').1 ∧ same_scope ctx (m b).2 (m b').2 ∧ only_scope ctx b (m b).2.

Lemma scoped_answer {A B} fault (m : bucket → (A + s3_fault) * bucket) (h : A + s3_fault → result B) :
  local m → scoped ctx (answer fault m h).
Proof.
  intros Hm b b' H. unfold answer, request. destruct fault as [f|].
  - split; [done|split; [done|by intros k]].
  - destruct (Hm b b' H) as (H1 & H2 & H3). destruct (m b) as [r c], (m b') as [r' c']; cbn in *. subst r'.
    split; [done|by split].
Qed.

Lemma local_get k : startswith (store_prefix ctx) k = true → local (get_object k).
Proof. intros Hk b b' H. unfold get_object. rewrite (H k Hk). split; [done|split; [done|by intros x]]. Qed.

Lemma local_head k : startswith (store_prefix ctx) k = true → local (head_object k).
Proof. intros Hk b b' H. unfold head_object. rewrite (H k Hk). split; [done|split; [done|by intros x]]. Qed.

Lemma local_put only k o : startswith (store_prefix ctx) k = true → local (put_object only k o).
Proof.
  intros Hk b b' H. unfold put_object. rewrite (H k Hk). destruct (only && is_some (b' !! k)); cbn.
  - split; [done|split; [done|by intros x]].
  - split; [done|]. split.
    + intros x Hx. destruct (decide (k = x)) as [<-|Hne]; [by rewrite !lookup_insert_eq|].
      rewrite !lookup_insert_ne by done. by apply H.
    + intros x Hx. rewrite lookup_insert_ne; [done|]. congruence.
Qed.

Lemma local_delete k : startswith (store_prefix ctx) k = true → local (delete_object k).
Proof.
  intros Hk b b' H. unfold delete_object. cbn. split; [done|]. split.
  - intros x Hx. destruct (decide (k = x)) as [<-|Hne]; [by rewrite !lookup_delete_eq|].
    rewrite !lookup_delete_ne by done. by apply H.
  - intros x Hx. rewrite lookup_delete_ne; [done|]. congruence.
Qed.

Lemma local_list prefix : local (list_objects (store_prefix ctx +:+ prefix)).
Proof.
  intros b b' H. unfold list_objects. cbn. split; [|split; [done|by intros x]]. do 2 f_equal.
  apply map_eq. intros k. rewrite !map_lookup_filter.
  destruct (startswith (store_prefix ctx +:+ prefix) k) eqn:E.
  - rewrite (H k (startswith_app _ _ _ E)). done.
  - destruct (b !! k), (b' !! k); cbn; rewrite ?option_guard_False by (cbn; congruence); done.
Qed.

End scope.

Lemma checked_key ctx k {A} (f : string → M bucket A) :
  (startswith (store_prefix ctx) k = true → scoped ctx (f k)) → scoped ctx (k <- checked ctx k ;; f k).
Proof.
  intros H. unfold checked. destruct (startswith (store_prefix ctx) k) eqn:E; cbn [andb].
  - destruct (negb (contains ".." k)); unfold guard; [by apply H|].
    intros b b' Hb. split; [done|split; [done|by intros x]].
  - intros b b' Hb. split; [done|split; [done|by intros x]].
Qed.

Lemma operate_scoped sha256 ctx o : scoped ctx (operate sha256 ctx o).
Proof.
  destruct o; apply scoped_bind; try (intros; apply scoped_ret).
  - apply checked_key. intros Hk. by apply scoped_answer, local_put.
  - apply checked_key. intros Hk. apply scoped_bind; [by apply scoped_answer, local_get|]. intros. apply scoped_ret.
  - apply checked_key. intros Hk. apply scoped_bind; [by apply scoped_answer, local_head|]. intros. apply scoped_ret.
  - apply scoped_bind; [destruct (negb _); [apply scoped_ret|apply scoped_raise]|]. intros _.
    apply scoped_answer, local_list.
  - apply checked_key. intros Hk. apply scoped_bind; [by apply scoped_answer, local_head|].
    intros existed. apply scoped_bind; [by apply scoped_when, scoped_answer, local_delete|]. intros. apply scoped_ret.
Qed.

(** * Prefixes of two tenants *)

Lemma length_uuid_str u : String.length (uuid_str u) = 36%nat.
Proof.
  unfold uuid_str. pose proof (length_hex_digits 32 u "") as H. cbn [String.length] in H.
  rewrite !length_sapp, !length_substring by lia. done.
Qed.

Lemma uuid_str_inj u v : (u < 2 ^ 128)%N → (v < 2 ^ 128)%N → uuid_str u = uuid_str v → u = v.
Proof. intros Hu Hv E. apply Auth.parse_uuid_str in Hu, Hv. congruence. Qed.

(** The keys of two tenants are disjoint. *)
Lemma prefixes_disjoint ctx ctx' k : (tenant_of ctx < 2 ^ 128)%N → (tenant_of ctx' < 2 ^ 128)%N →
  startswith (store_prefix ctx) k = true → startswith (store_prefix ctx') k = true → tenant_of ctx = tenant_of ctx'.
Proof.
  intros H1 H2 Hp Hp'. apply startswith_spec in Hp as [r ->]. apply startswith_spec in Hp' as [r' E].
  unfold store_prefix in E. apply uuid_str_inj; [done..|].
  rewrite !sapp_assoc in E. apply sapp_cancel_l in E. apply sapp_length_inj in E; [done|]. by rewrite !length_uuid_str.
Qed.

(** C19: a tenant's objects are its own.  The answer to any operation, and everything it
    leaves under its caller's prefix, depend only on the objects under that prefix: two
    buckets that differ elsewhere give the same reply, so not even the existence of another
    tenant's object can be probed.  And no operation changes an object outside its caller's
    prefix, hence none of another tenant's. *)
Theorem objects_are_tenant_scoped sha256 ctx o b b' :
  same_scope ctx b b' →
  (operate sha256 ctx o b).1 = (operate sha256 ctx o b').1 ∧
  same_scope ctx (operate sha256 ctx o b).2 (operate sha256 ctx o b').2 ∧
  only_scope ctx b (operate sha256 ctx o b).2 ∧
  ∀ ctx', (tenant_of ctx < 2 ^ 128)%N → (tenant_of ctx' < 2 ^ 128)%N → tenant_of ctx' ≠ tenant_of ctx →
    same_scope ctx' b (operate sha256 ctx o b).2.
Proof.
  intros H. destruct (operate_scoped sha256 ctx o b b' H) as (H1 & H2 & H3). split; [done|split; [done|split; [done|]]].
  intros ctx' Hu Hu' Hne k Hk. destruct (startswith (store_prefix ctx) k) eqn:E; [|by rewrite H3].
  destruct Hne. symmetry. by apply (prefixes_disjoint ctx ctx' k).
Qed.

Lemma checked_ok ctx k b k' b' : checked ctx k b = (Ok k', b') → k' = k ∧ b' = b ∧ ∀ c, checked ctx k c = (Ok k, c).
Proof.
  unfold checked, bind, guard. destruct (startswith (store_prefix ctx) k && negb (contains ".." k)); [|done].
  by intros [= <- <-].
Qed.

(** What is stored comes back.  An object put under a key is read back byte for byte
    under it, with the digest of its bytes recorded; a put that must not overwrite succeeds
    only on a free key, and afterwards is refused whatever bytes it carries, leaving the
    first ones in place. *)
Theorem stored_object_comes_back sha256 ctx k data content_type if_absent b so b1 :
  S3ObjectStore.put sha256 None ctx k data content_type if_absent b = (Ok so, b1) →
  S3ObjectStore.get None ctx k b1 = (Ok data, b1) ∧
  S3ObjectStore.head None ctx k b1 = (Ok so, b1) ∧ so_sha256 so = Some (sha256 data) ∧ so_size_bytes so = str_len data ∧
  (if_absent = true → b !! k = None) ∧
  (∀ x, x ≠ k → b1 !! x = b !! x) ∧
  ∀ data' ct', S3ObjectStore.put sha256 None ctx k data' ct' true b1 = (Raise ConflictError, b1).
Proof.
  intros E. unfold S3ObjectStore.put in E. apply bind_ok in E as (k' & c & Hk & E).
  apply checked_ok in Hk as (-> & -> & Hk). unfold answer, request, put_object in E.
  destruct (if_absent && is_some (b !! k)) eqn:Ea; [done|]. injection E as <- <-.
  set (o := mkObject _ _ _ _). assert (Hb : <[k := o]> b !! k = Some o) by apply lookup_insert_eq.
  unfold S3ObjectStore.get, S3ObjectStore.head, S3ObjectStore.put.
  rewrite !(run_bind _ _ _ _ _ (Hk _)). unfold bind, answer, request, get_object, head_object. rewrite Hb.
  split; [done|split; [done|split; [done|split; [done|split; [|split]]]]].
  - intros ->. by destruct (b !! k).
  - intros x Hx. by apply lookup_insert_ne.
  - intros data' ct'. rewrite (Hk (<[k := o]> b)). unfold put_object. by rewrite Hb.
Qed.

Module StoreDemo.
Definition sha (s : string) : string := "digest of " +:+ s.
Definition other : RequestContext := Demo.ctx <| principal := (principal Demo.ctx) <| principal_tenant := Demo.tenant_b |> |>.
Definition theirs : object := mkObject "secret" "text/plain" None "".
Definition k (ctx : RequestContext) : string := store_prefix ctx +:+ "documents/manuals/d1.txt".
Definition b0 : bucket := <[k other := theirs]> ∅.
End StoreDemo.

Lemma objects_are_tenant_scoped_witness :
  let probe := Get None (StoreDemo.k StoreDemo.other) in
  (operate StoreDemo.sha Demo.ctx probe StoreDemo.b0).1 = Raise NotFoundError ∧
  (operate StoreDemo.sha Demo.ctx probe StoreDemo.b0).1 = (operate StoreDemo.sha Demo.ctx probe ∅).1.
Proof.
  intros probe. split; [vm_compute; reflexivity|].
  apply (objects_are_tenant_scoped StoreDemo.sha Demo.ctx probe StoreDemo.b0 ∅).
  intros k Hk. unfold StoreDemo.b0. rewrite lookup_insert_ne; [done|]. intros <-. vm_compute in Hk. discriminate.
Defined.

Lemma stored_object_comes_back_witness :
  let k := StoreDemo.k Demo.ctx in
  ∃ so b1, S3ObjectStore.put StoreDemo.sha None Demo.ctx k "hello" "text/plain" true ∅ = (Ok so, b1) ∧
    key_for Demo.ctx ["documents"; "manuals"; "d1.txt"] = Ok k ∧
    S3ObjectStore.get None Demo.ctx k b1 = (Ok "hello", b1).
Proof.
  intros k. destruct (S3ObjectStore.put StoreDemo.sha None Demo.ctx k "hello" "text/plain" true ∅) as [r b1] eqn:E.
  pose proof (f_equal fst E) as Er. vm_compute in Er. cbn [fst] in Er. subst r.
  eexists _, b1. split; [reflexivity|split; [vm_compute; reflexivity|]].
  destruct (stored_object_comes_back _ _ _ _ _ _ _ _ _ E) as [H _]. exact H.
Defined.
