(* ===== verification/Chunking.v ===== *)
(** From retained bytes to chunks ([platform_core/corpus/chunking.py]).

    Text is a list of code points below 256.  Parameters: decoding of bytes, the callbacks
    [HTMLParser] makes, the rows [csv.reader] yields, the tokeniser (whose [encode] may
    raise) and SHA-1. *)
From Stdlib Require Import Ascii.
From stdpp Require Import pretty.
From S2P Require Import Prelude Json Text.

Definition SUPPORTED_SUFFIXES : list string := [".txt"; ".md"; ".csv"; ".html"].
Definition TARGET_TOKENS : Z := 420.
Definition MIN_TOKENS : Z := 60.
Definition OVERLAP_TOKENS : Z := 60.

(** The chunker's own [Chunk]; [Db.chunk] is the row it becomes. *)
Record Chunk := mkChunkText {
  ck_canonical_id : string;
  ck_ordinal : Z;
  ck_text : string;
  ck_heading : option string
}.

(** [Path(filename).name]: the last component that is neither empty nor [.]. *)
Definition path_name (filename : string) : string :=
  List.last (List.filter (fun p => nonempty p && negb (String.eqb p ".")) (split_on "/" filename)) "".

(** [Path(filename).suffix]: from the last dot, which is neither first nor last. *)
Definition suffix (filename : string) : string :=
  match rev (split_on "." (path_name filename)) with
  | last :: x :: rest =>
      if nonempty last && nonempty (join "." (rev (x :: rest))) then "." +:+ last else ""
  | _ => ""
  end.

(** * Extraction *)

Inductive html_event := StartTag (tag : string) | EndTag (tag : string) | Data (s : string).

Definition SKIP_TAGS : list string := ["script"; "style"; "noscript"; "template"].
Definition BLOCK_TAGS : list string :=
  ["p"; "div"; "br"; "li"; "tr"; "section"; "article"; "table"; "blockquote"; "pre"].
Definition HEADINGS : list (string * string) :=
  [("h1", "#"); ("h2", "##"); ("h3", "###"); ("h4", "####"); ("h5", "#####"); ("h6", "######")].

Definition heading_marks (tag : string) : option string :=
  option_map snd (List.find (fun kv => String.eqb kv.1 tag) HEADINGS).

(** [_TextExtractor]: what it collects, and how many skipped elements are open. *)
Definition handle (s : list string * Z) (e : html_event) : list string * Z :=
  let '(parts, skipping) := s in
  match e with
  | StartTag tag =>
      if mem SKIP_TAGS tag then (parts, skipping + 1)
      else match heading_marks tag with
           | Some marks => (parts ++ [nl +:+ nl +:+ marks +:+ " "], skipping)
           | None => if mem BLOCK_TAGS tag then (parts ++ [nl], skipping) else (parts, skipping)
           end
  | EndTag tag =>
      if mem SKIP_TAGS tag && negb (skipping =? 0) then (parts, skipping - 1)
      else match heading_marks tag with
           | Some _ => (parts ++ [nl +:+ nl], skipping)
           | None => if mem BLOCK_TAGS tag then (parts ++ [nl], skipping) else (parts, skipping)
           end
  | Data t => if skipping =? 0 then (parts ++ [t], skipping) else (parts, skipping)
  end.

Definition html_to_text (events : list html_event) : string := join "" (foldl handle ([], 0) events).1.

(** [_csv_to_text] over the rows of the reader. *)
Fixpoint csv_pairs (header : list string) (i : nat) (row : list string) : list string :=
  match row with
  | [] => []
  | cell :: row' =>
      let column := match header !! i with Some h => h | None => "column " +:+ pretty (Z.of_nat i + 1) end in
      (if blank cell then [] else [strip column +:+ ": " +:+ strip cell]) ++ csv_pairs header (S i) row'
  end.

Definition csv_to_text (rows : list (list string)) : string :=
  match rows with
  | [] => ""
  | header :: body =>
      join (nl +:+ nl) (map (fun row => join nl (csv_pairs header 0 row))
        (List.filter (fun row => negb (forallb blank row)) body))
  end.

(** * Sections *)

Fixpoint take_hashes (s : string) : Z * string :=
  match s with
  | String c s' => if Ascii.eqb c "#" then let '(n, rest) := take_hashes s' in (n + 1, rest) else (0, s)
  | EmptyString => (0, "")
  end.

(** [_ATX_HEADING]: one to six marks, white space, and something else. *)
Definition atx_heading (line : string) : option string :=
  let '(n, rest) := take_hashes line in
  match rest with
  | String c _ => if (1 <=? n) && (n <=? 6) && isspace c && negb (blank rest) then Some (strip rest) else None
  | EmptyString => None
  end.

Definition flush (heading : option string) (body : list string) : list (option string * string) :=
  if forallb blank body then [] else [(heading, strip (join nl body))].

Fixpoint sections_from (heading : option string) (body : list string) (lines : list string)
    : list (option string * string) :=
  match lines with
  | [] => flush heading body
  | line :: lines' =>
      match atx_heading line with
      | Some h => flush heading body ++ sections_from (Some h) [] lines'
      | None => sections_from heading (body ++ [line]) lines'
      end
  end.

Definition sections (text : string) : list (option string * string) :=
  match sections_from None [] (split_on newline text) with
  | [] => if blank text then [] else [(None, text)]
  | l => l
  end.

Definition paragraphs (body : string) : list string :=
  List.filter nonempty (map strip (split_blank body)).

(** [re.split(r"(?<=[.!?])\s+", s)]: [ended] after a sentence's last character, [skipping]
    inside the white space of a match. *)
Definition ends_sentence (c : ascii) : bool := mem ["."; "!"; "?"] (String c "").

Fixpoint sentences_from (current : string) (ended skipping : bool) (s : string) : list string :=
  match s with
  | EmptyString => [current]
  | String c s' =>
      if isspace c && skipping then sentences_from current ended true s'
      else if isspace c && ended then current :: sentences_from "" false true s'
      else sentences_from (current +:+ String c "") (ends_sentence c) false s'
  end.

Definition sentences (s : string) : list string := sentences_from "" false false s.

Fixpoint slices_from (fuel : nat) (l : list Z) : list (list Z) :=
  match fuel, l with
  | O, _ | _, [] => []
  | S n, _ => firstn (Z.to_nat TARGET_TOKENS) l :: slices_from n (skipn (Z.to_nat TARGET_TOKENS) l)
  end.

(** [tokens[start : start + TARGET_TOKENS]] for every [start]. *)
Definition slices (l : list Z) : list (list Z) := slices_from (length l) l.

(** * Chunks *)

Section chunking.
Context {S : Type}.
Variable decode_utf8 : string → string.
Variable html_events : string → list html_event.
Variable csv_rows : string → list (list string).
Variable encode : string → result (list Z).
Variable decode : list Z → string.
Variable sha1 : string → string.

(** [_csv_to_text] and [_TextExtractor] apply by suffix. *)
Definition extract_text (filename data : string) : M S string :=
  let sfx := lower (suffix filename) in
  if negb (mem SUPPORTED_SUFFIXES sfx) then raise UnsupportedDocument
  else
    let raw := decode_utf8 data in
    let raw := if String.eqb sfx ".html" then html_to_text (html_events raw)
               else if String.eqb sfx ".csv" then csv_to_text (csv_rows raw) else raw in
    ret (strip (collapse 0 raw)).

Definition canonical_id (text : string) : string := "c_" +:+ str_take 16 (sha1 (utf8 (strip text))).

Definition encoded (text : string) : M S (list Z) :=
  match encode text with Ok l => ret l | Raise e => raise e end.

Definition tokens (text : string) : M S Z := l <- encoded text ;; ret (count l).

(** The loop of [_split_oversized] over sentences. *)
Fixpoint pack (current : list string) (ss : list string) : M S (list string) :=
  match ss with
  | [] => ret (match current with [] => [] | _ => [strip (join " " current)] end)
  | s :: ss' =>
      match current with
      | [] => pack [s] ss'
      | _ =>
          n <- tokens (strip (join " " (current ++ [s]))) ;;
          if TARGET_TOKENS <? n then
            rest <- pack [s] ss' ;; ret (strip (join " " current) :: rest)
          else pack (current ++ [s]) ss'
      end
  end.

Fixpoint cut (pieces : list string) : M S (list string) :=
  match pieces with
  | [] => ret []
  | p :: ps =>
      n <- tokens p ;;
      out <- (if n <=? TARGET_TOKENS then ret [p]
              else l <- encoded p ;; ret (map (fun t => strip (decode t)) (slices l))) ;;
      rest <- cut ps ;;
      ret (out ++ rest)
  end.

Definition split_oversized (paragraph : string) : M S (list string) :=
  packed <- pack [] (sentences paragraph) ;;
  final <- cut packed ;;
  ret (List.filter nonempty final).

(** [tokens[-OVERLAP_TOKENS:]]. *)
Definition overlap_prefix (text : string) : M S string :=
  l <- encoded text ;;
  if count l <=? OVERLAP_TOKENS then ret text
  else ret (strip (decode (skipn (length l - Z.to_nat OVERLAP_TOKENS) l))).

(** The loop over the paragraphs of one section. *)
Fixpoint assemble (heading : option string) (current : string) (ps : list string) : M S (list (option string * string)) :=
  match ps with
  | [] => ret (if nonempty current then [(heading, current)] else [])
  | p :: ps' =>
      n <- tokens p ;;
      if TARGET_TOKENS <? n then
        big <- split_oversized p ;;
        rest <- assemble heading "" ps' ;;
        ret ((if nonempty current then [(heading, current)] else []) ++ map (pair heading) big ++ rest)
      else
        let candidate := if nonempty current then strip (blank_line current p) else p in
        over <- (if nonempty current then m <- tokens candidate ;; ret (TARGET_TOKENS <? m) else ret false) ;;
        if over then
          tail <- overlap_prefix current ;;
          rest <- assemble heading (strip (blank_line tail p)) ps' ;;
          ret ((heading, current) :: rest)
        else assemble heading candidate ps'
  end.

Fixpoint assemble_all (secs : list (option string * string)) : M S (list (option string * string)) :=
  match secs with
  | [] => ret []
  | (heading, body) :: secs' =>
      pieces <- assemble heading "" (paragraphs body) ;;
      rest <- assemble_all secs' ;;
      ret (pieces ++ rest)
  end.

(** A short piece joins the one before it, [last], under the same heading. *)
Fixpoint merge_from (last : option string * string) (pieces : list (option string * string))
    : M S (list (option string * string)) :=
  match pieces with
  | [] => ret [last]
  | (heading, body) :: pieces' =>
      short <- (if opt_eqb String.eqb last.1 heading then n <- tokens body ;; ret (n <? MIN_TOKENS) else ret false) ;;
      if short then merge_from (heading, blank_line last.2 body) pieces'
      else rest <- merge_from (heading, body) pieces' ;; ret (last :: rest)
  end.

Definition merge (pieces : list (option string * string)) : M S (list (option string * string)) :=
  match pieces with [] => ret [] | p :: ps => merge_from p ps end.

Definition body_text (piece : option string * string) : string :=
  match piece.1 with
  | Some h => if nonempty h then blank_line h piece.2 else piece.2
  | None => piece.2
  end.

(** The chunks, each identity once. *)
Fixpoint emit (seen : list string) (ordinal : Z) (pieces : list (option string * string)) : list Chunk :=
  match pieces with
  | [] => []
  | p :: ps =>
      let identity := canonical_id (body_text p) in
      if mem seen identity then emit seen ordinal ps
      else mkChunkText identity ordinal (body_text p) p.1 :: emit (seen ++ [identity]) (ordinal + 1) ps
  end.

(** What a text is cut into before equal pieces are dropped. *)
Definition chunk_pieces (text : string) : M S (list (option string * string)) :=
  pieces <- assemble_all (sections text) ;;
  merge pieces.

Definition chunk_document (filename data : string) : M S (list Chunk) :=
  text <- extract_text filename data ;;
  if String.eqb text "" then ret []
  else
    merged <- chunk_pieces text ;;
    ret (emit [] 0 merged).

End chunking.

(** * What the steps keep *)

Definition piece : Type := option string * string.

(** [p] occurs in a piece under heading [h]. *)
Definition kept_under (h : option string) (p : string) (l : list piece) : Prop := ∃ b, In (h, b) l ∧ infix p b.

Definition with_text (l : list piece) : Prop := Forall (fun x => x.2 ≠ "") l.

Lemma kept_incl h p l l' : incl l l' → kept_under h p l → kept_under h p l'.
Proof. intros H (b & Hb & Hi). exists b. split; [by apply H|done]. Qed.

Lemma kept_infix h p q l : infix p q → kept_under h q l → kept_under h p l.
Proof. intros H (b & Hb & Hi). exists b. split; [done|by apply (infix_trans p q b)]. Qed.

Lemma flush_current h (c : string) : with_text (if nonempty c then [(h, c)] else []) ∧
  (c ≠ "" → kept_under h c (if nonempty c then [(h, c)] else [])).
Proof.
  unfold nonempty. destruct (String.eqb_spec c ""); cbn; [split; [constructor|done]|]. split; [by repeat constructor|].
  intros _. exists c. split; [by left|apply infix_refl].
Qed.

Section keeps.
Context {S : Type}.
Variable encode : string → result (list Z).
Variable decode : list Z → string.

Definition small (p : string) : Prop := match encode p with Ok l => count l <= TARGET_TOKENS | Raise _ => False end.

Lemma tokens_ok (p : string) (s : S) n s' : tokens encode p s = (Ok n, s') → encode p = Ok (default [] (match encode p with Ok l => Some l | _ => None end)) ∧
  n = count (default [] (match encode p with Ok l => Some l | _ => None end)).
Proof. unfold tokens, encoded, bind. destruct (encode p) as [l|e]; [by intros [= <- _]|done]. Qed.

Lemma small_tokens p (s : S) n s' : small p → tokens encode p s = (Ok n, s') → (TARGET_TOKENS <? n) = false.
Proof.
  unfold small. intros H E. apply tokens_ok in E as [_ ->]. destruct (encode p); [|done]. cbn. by apply Z.ltb_ge.
Qed.

Lemma split_oversized_text h (p : string) (s : S) big s' :
  split_oversized encode decode p s = (Ok big, s') → with_text (map (pair h) big).
Proof.
  unfold split_oversized. intros E. apply bind_ok in E as (packed & s1 & _ & E). apply bind_ok in E as (final & s2 & _ & E).
  injection E as <- _. apply List.Forall_forall. intros x Hx. apply in_map_iff in Hx as (t & <- & Ht).
  apply filter_In in Ht as [_ Ht]. cbn. unfold nonempty in Ht. by destruct (String.eqb_spec t "").
Qed.

Definition candidate (current p : string) : string := if nonempty current then strip (blank_line current p) else p.

Lemma candidate_keeps current p : current = "" ∨ inked current → inked p →
  inked (candidate current p) ∧ infix p (candidate current p) ∧ (current ≠ "" → infix current (candidate current p)).
Proof.
  unfold candidate, nonempty. intros Hc Hp. destruct (String.eqb_spec current "") as [->|Hne]; cbn [negb].
  - split; [done|split; [apply infix_refl|done]].
  - destruct Hc as [->|Hc]; [done|]. rewrite (strip_id (blank_line current p)) by by apply blank_line_inked.
    split; [by apply blank_line_inked|split; [apply infix_right|intros _; apply infix_left]].
Qed.

Lemma assemble_keeps h ps : ∀ current (s : S) l s', assemble encode decode h current ps s = (Ok l, s') →
  (current = "" ∨ inked current) → Forall inked ps →
  with_text l ∧ (current ≠ "" → kept_under h current l) ∧ ∀ p, In p ps → small p → kept_under h p l.
Proof.
  induction ps as [|p ps IH]; intros current s l s' E Hc Hps.
  - injection E as <- _. destruct (flush_current h current) as [H1 H2]. by repeat split.
  - invc Hps. rename H1 into Hp, H2 into Hps. cbn [assemble] in E. apply bind_ok in E as (n & s1 & En & E).
    destruct (TARGET_TOKENS <? n) eqn:Ebig.
    + apply bind_ok in E as (big & s2 & Eb & E). apply bind_ok in E as (rest & s3 & Er & E). injection E as <- _.
      destruct (IH "" _ _ _ Er (or_introl eq_refl) Hps) as (H1 & _ & H3). destruct (flush_current h current) as [H4 H5].
      pose proof (split_oversized_text h p _ _ _ Eb) as Hbig.
      split; [|split].
      * apply Forall_app. split; [done|]. apply Forall_app. by split.
      * intros Hne. apply (kept_incl h current (if nonempty current then [(h, current)] else [])); [|by apply H5].
        by apply incl_appl, incl_refl.
      * intros q [<-|Hq] Hs; [by rewrite (small_tokens p s n s1 Hs En) in Ebig|].
        apply (kept_incl h q rest); [|by apply H3]. by apply incl_appr, incl_appr, incl_refl.
    + apply bind_ok in E as (over & s2 & Eo & E). destruct over.
      * apply bind_ok in E as (tail & s3 & Et & E). apply bind_ok in E as (rest & s4 & Er & E). injection E as <- _.
        destruct (strip_blank_line tail p Hp) as [Hi Hin].
        destruct (IH _ _ _ _ Er (or_intror Hi) Hps) as (H1 & H2 & H3).
        assert (Hne : current ≠ "") by (intros ->; discriminate).
        split; [by constructor|split].
        -- intros _. exists current. split; [by left|apply infix_refl].
        -- intros q [<-|Hq] Hs.
           ++ apply (kept_incl h p rest); [by apply incl_tl, incl_refl|].
              apply (kept_infix h p (strip (blank_line tail p)) rest Hin). apply H2. by apply inked_nonempty.
           ++ apply (kept_incl h q rest); [by apply incl_tl, incl_refl|]. by apply H3.
      * destruct (candidate_keeps current p Hc Hp) as (C1 & C2 & C3). destruct (IH _ _ _ _ E (or_intror C1) Hps) as (H1 & H2 & H3).
        specialize (H2 (inked_nonempty _ C1)). split; [done|split].
        -- intros Hne. by apply (kept_infix h current _ l (C3 Hne)).
        -- intros q [<-|Hq] Hs; [|by apply H3]. by apply (kept_infix h p _ l C2).
Qed.

Lemma paragraphs_inked body : Forall inked (paragraphs body).
Proof.
  apply List.Forall_forall. intros p Hp. apply filter_In in Hp as [Hp Hn]. apply in_map_iff in Hp as (q & <- & _).
  destruct (strip_inked q) as [H|H]; [|done]. by rewrite H in Hn.
Qed.

Lemma assemble_all_keeps secs : ∀ (s : S) l s', assemble_all encode decode secs s = (Ok l, s') →
  with_text l ∧ ∀ h body p, In (h, body) secs → In p (paragraphs body) → small p → kept_under h p l.
Proof.
  induction secs as [|[h body] secs IH]; intros s l s' E.
  - injection E as <- _. split; [constructor|done].
  - cbn [assemble_all] in E. apply bind_ok in E as (ps & s1 & Ep & E). apply bind_ok in E as (rest & s2 & Er & E).
    injection E as <- _. destruct (assemble_keeps h _ _ _ _ _ Ep (or_introl eq_refl) (paragraphs_inked body)) as (H1 & _ & H2).
    destruct (IH _ _ _ Er) as [H3 H4]. split; [apply Forall_app; by split|].
    intros h' body' p [[= <- <-]|Hin] Hp Hs.
    + apply (kept_incl h p ps); [by apply incl_appl, incl_refl|]. by apply H2.
    + apply (kept_incl h' p rest); [by apply incl_appr, incl_refl|]. by apply (H4 h' body').
Qed.

Lemma merge_from_keeps ps : ∀ last (s : S) l s', merge_from encode last ps s = (Ok l, s') →
  last.2 ≠ "" → with_text ps → with_text l ∧ ∀ x, In x (last :: ps) → kept_under x.1 x.2 l.
Proof.
  induction ps as [|[h body] ps IH]; intros last s l s' E Hl Hps.
  - injection E as <- _. split; [by constructor|]. intros x [<-|[]]. exists last.2. split; [left; by destruct last|apply infix_refl].
  - invc Hps. cbn [merge_from] in E. apply bind_ok in E as (short & s1 & Es & E). destruct short.
    + assert (last.1 = h) as Hh.
      { destruct (opt_eqb String.eqb last.1 h) eqn:Eq; [|discriminate].
        destruct last.1 as [a|], h as [b|]; try done. cbn in Eq. apply String.eqb_eq in Eq. by subst. }
      apply IH in E as [H3 H4]; [|by destruct last.2|done]. split; [done|].
      assert (Hm : kept_under h (blank_line last.2 body) l) by (apply (H4 (h, blank_line last.2 body)); by left).
      intros x [<-|[<-|Hx]].
      * rewrite Hh. apply (kept_infix h _ _ l (infix_left last.2 body) Hm).
      * apply (kept_infix h _ _ l (infix_right last.2 body) Hm).
      * apply H4. by right.
    + apply bind_ok in E as (rest & s2 & Er & E). injection E as <- _. apply IH in Er as [H3 H4]; [|done..].
      split; [by constructor|]. intros x [<-|Hx].
      * exists last.2. split; [left; by destruct last|apply infix_refl].
      * apply (kept_incl x.1 x.2 rest); [by apply incl_tl, incl_refl|]. by apply H4.
Qed.

Lemma merge_keeps ps (s : S) l s' : merge encode ps s = (Ok l, s') → with_text ps →
  with_text l ∧ ∀ x, In x ps → kept_under x.1 x.2 l.
Proof.
  destruct ps as [|x ps]; cbn [merge]; intros E H; [injection E as <- _; by split|]. invc H. by apply merge_from_keeps in E.
Qed.

End keeps.

Section chunks.
Variable sha1 : string → string.

Lemma emit_spec ps : ∀ seen n, with_text ps →
  List.NoDup (map ck_canonical_id (emit sha1 seen n ps)) ∧
  (∀ c, In c (emit sha1 seen n ps) → ¬ In (ck_canonical_id c) seen ∧ ck_canonical_id c = canonical_id sha1 (ck_text c) ∧
     ck_text c ≠ "" ∧ In (ck_heading c, ck_text c) (map (fun p => (p.1, body_text p)) ps)) ∧
  (∀ i c, emit sha1 seen n ps !! i = Some c → ck_ordinal c = n + Z.of_nat i) ∧
  ∀ p, In p ps → In (canonical_id sha1 (body_text p)) (seen ++ map ck_canonical_id (emit sha1 seen n ps)).
Proof.
  induction ps as [|x ps IH]; intros seen n Hps; [repeat split; try done; constructor|]. invc Hps. cbn [emit].
  assert (Hmem : ∀ l s, mem l s = true ↔ In s l).
  { intros l s. unfold mem. rewrite existsb_exists. setoid_rewrite String.eqb_eq. split; [by intros (y & Hy & ->)|eauto]. }
  destruct (mem seen (canonical_id sha1 (body_text x))) eqn:E.
  - apply Hmem in E. destruct (IH seen n H2) as (G1 & G2 & G3 & G4). split; [done|split; [|split; [done|]]].
    + intros c Hc. destruct (G2 c Hc) as (K1 & K2 & K3 & K4). repeat split; try done. by right.
    + intros p [<-|Hp]; [apply in_app_iff; by left|by apply G4].
  - apply not_true_iff_false in E. rewrite Hmem in E.
    destruct (IH (seen ++ [canonical_id sha1 (body_text x)]) (n + 1) H2) as (G1 & G2 & G3 & G4). split; [|split; [|split]].
    + cbn. constructor; [|done]. intros Hin. apply in_map_iff in Hin as (c & Hc & Hin). destruct (G2 c Hin) as [K1 _].
      apply K1. rewrite Hc. apply in_app_iff. right. by left.
    + intros c [<-|Hc].
      * cbn. repeat split; [done| |by left]. destruct x as [[h|] b]; cbn; [|done]. unfold body_text. cbn.
        by destruct (nonempty h), h.
      * destruct (G2 c Hc) as (K1 & K2 & K3 & K4). repeat split; try done; [|by right].
        intros Hs. apply K1, in_app_iff. by left.
    + intros [|i] c; cbn; [intros [= <-]; cbn; lia|]. intros Hi. apply G3 in Hi. lia.
    + intros p [<-|Hp]; apply in_app_iff; cbn; [right; by left|]. destruct (proj1 (in_app_iff _ _ _) (G4 p Hp)) as [H|H].
      * apply in_app_iff in H as [H|[<-|[]]]; [by left|right; by left].
      * right. by right.
Qed.

End chunks.

(** * Headings *)

Lemma atx_heading_inked line h : atx_heading line = Some h → inked h.
Proof.
  unfold atx_heading. destruct (take_hashes line) as [n rest]. destruct rest as [|c r]; [done|].
  destruct (_ && _) eqn:E; [|done]. intros [= <-]. apply andb_true_iff in E as [_ E].
  unfold blank in E. rewrite negb_involutive in E. unfold nonempty in E.
  destruct (strip_inked (String c r)) as [H|H]; [|done]. by rewrite H in E.
Qed.

Lemma sections_heading text h body : In (Some h, body) (sections text) → inked h.
Proof.
  assert (Hf : ∀ hd b (h' : string) body', (∀ x, hd = Some x → inked x) → In (Some h', body') (flush hd b) → inked h').
  { intros hd b h' body' Hhd Hin. unfold flush in Hin. destruct (forallb blank b); [done|]. destruct Hin as [[= E _]|[]]. auto. }
  assert (Hs : ∀ lines hd b, (∀ x, hd = Some x → inked x) → In (Some h, body) (sections_from hd b lines) → inked h).
  { induction lines as [|l lines IH]; intros hd b Hhd Hin; cbn in Hin; [by apply (Hf hd b h body)|].
    destruct (atx_heading l) as [x|] eqn:E; [|by apply (IH hd (b ++ [l]))].
    apply in_app_iff in Hin as [Hin|Hin]; [by apply (Hf hd b h body)|].
    apply (IH (Some x) []); [|done]. intros y [= <-]. by apply (atx_heading_inked l). }
  unfold sections. destruct (sections_from None [] (split_on newline text)) as [|x l] eqn:E.
  - destruct (blank text); [done|]. by intros [[=]|[]].
  - rewrite <- E. by apply Hs.
Qed.

(** * Nothing but text flows through *)

Section state.
Context {S : Type}.
Variables (decode_utf8 : string → string) (html_events : string → list html_event) (csv_rows : string → list (list string)).
Variables (encode : string → result (list Z)) (decode : list Z → string) (sha1 : string → string).
Variable s0 : S.
Notation keeps m := (preserves (fun s => s = s0) m).

Lemma encoded_keeps t : keeps (encoded encode t).
Proof. unfold encoded. destruct (encode t); auto with platform. Qed.

Lemma tokens_keeps t : keeps (tokens encode t).
Proof. apply preserves_bind; [apply encoded_keeps|auto with platform]. Qed.

Hint Resolve encoded_keeps tokens_keeps : platform.

Lemma pack_keeps ss : ∀ current, keeps (pack encode current ss).
Proof.
  induction ss as [|x ss IH]; intros current; cbn [pack]; [auto with platform|]. destruct current as [|y c]; [apply IH|].
  apply preserves_bind; [auto with platform|]. intros n. destruct (TARGET_TOKENS <? n); [|apply IH].
  apply preserves_bind; [apply IH|auto with platform].
Qed.

Lemma cut_keeps ps : keeps (cut encode decode ps).
Proof.
  induction ps as [|p ps IH]; cbn [cut]; [auto with platform|]. apply preserves_bind; [auto with platform|]. intros n.
  apply preserves_bind; [destruct (n <=? TARGET_TOKENS); auto with platform|]. intros out.
  apply preserves_bind; auto with platform.
Qed.

Lemma oversized_keeps p : keeps (split_oversized encode decode p).
Proof.
  apply preserves_bind; [apply pack_keeps|]. intros packed. apply preserves_bind; [apply cut_keeps|auto with platform].
Qed.

Lemma overlap_keeps t : keeps (overlap_prefix encode decode t).
Proof.
  apply preserves_bind; [auto with platform|]. intros l. destruct (count l <=? OVERLAP_TOKENS); auto with platform.
Qed.

Hint Resolve oversized_keeps overlap_keeps : platform.

Lemma assemble_keeps_state h ps : ∀ current, keeps (assemble encode decode h current ps).
Proof.
  induction ps as [|p ps IH]; intros current; cbn [assemble]; [auto with platform|].
  apply preserves_bind; [auto with platform|]. intros n. destruct (TARGET_TOKENS <? n).
  - apply preserves_bind; [auto with platform|]. intros big. apply preserves_bind; [apply IH|auto with platform].
  - apply preserves_bind; [destruct (nonempty current); auto with platform|]. intros over. destruct over; [|apply IH].
    apply preserves_bind; [auto with platform|]. intros tail. apply preserves_bind; [apply IH|auto with platform].
Qed.

Lemma merge_from_keeps_state ps : ∀ last, keeps (merge_from encode last ps).
Proof.
  induction ps as [|[h b] ps IH]; intros last; cbn [merge_from]; [auto with platform|].
  apply preserves_bind; [destruct (opt_eqb _ _ _); auto with platform|]. intros short. destruct short; [apply IH|].
  apply preserves_bind; [apply IH|auto with platform].
Qed.

Lemma chunk_document_keeps f d : keeps (chunk_document decode_utf8 html_events csv_rows encode decode sha1 f d).
Proof.
  apply preserves_bind; [unfold extract_text; destruct (negb _); auto with platform|]. intros text.
  destruct (String.eqb text ""); [auto with platform|].
  apply preserves_bind; [|auto with platform]. apply preserves_bind.
  - induction (sections text) as [|[h b] l IH]; cbn [assemble_all]; [auto with platform|].
    apply preserves_bind; [apply assemble_keeps_state|]. intros ps. apply preserves_bind; [apply IH|auto with platform].
  - intros ps. destruct ps; cbn [merge]; [auto with platform|apply merge_from_keeps_state].
Qed.

End state.

Lemma body_text_infix h b p : infix p b → infix p (body_text (h, b)).
Proof.
  intros H. unfold body_text. cbn. destruct h as [x|]; [|done]. destruct (nonempty x); [|done].
  apply (infix_trans p b); [done|apply infix_right].
Qed.

Lemma body_text_heading x b : infix x (body_text (Some x, b)).
Proof.
  unfold body_text. cbn. unfold nonempty. destruct (String.eqb_spec x "") as [->|]; cbn; [exists "", b; done|apply infix_left].
Qed.

Section theorems.
Context {S : Type}.
Variables (decode_utf8 : string → string) (html_events : string → list html_event) (csv_rows : string → list (list string)).
Variables (encode : string → result (list Z)) (decode : list Z → string) (sha1 : string → string).
Notation chunker := (chunk_document decode_utf8 html_events csv_rows encode decode sha1).
Notation extractor := (extract_text decode_utf8 html_events csv_rows).

(** A result is the chunks of some pieces that keep every small paragraph. *)
Lemma chunk_document_pieces f d (s : S) l s' : chunker f d s = (Ok l, s') →
  ∃ ps, with_text ps ∧ l = emit sha1 [] 0 ps ∧ ∀ text s1, extractor f d s = (Ok text, s1) →
    ∀ h body p, In (h, body) (sections text) → In p (paragraphs body) → small encode p →
      (∃ s2, chunk_pieces encode decode text s1 = (Ok ps, s2)) ∧ kept_under h p ps.
Proof.
  intros E. apply bind_ok in E as (text & s1 & Et & E). destruct (String.eqb_spec text "") as [->|Hne].
  - injection E as <- _. exists []. split; [constructor|split; [done|]]. intros text' s1'. rewrite Et. intros [= <- _] h body p Hb Hp. exfalso.
    vm_compute in Hb. by repeat (destruct Hb as [[= <- <-]|Hb]; [vm_compute in Hp|]).
  - apply bind_ok in E as (ms & s3 & Epm & E). injection E as <- _.
    pose proof Epm as Erun. apply bind_ok in Epm as (ps & s2 & Ep & Em).
    destruct (assemble_all_keeps encode decode _ _ _ _ Ep) as [H1 H2].
    destruct (merge_keeps encode _ _ _ _ Em H1) as [H3 H4]. exists ms. split; [done|split; [done|]].
    intros text' s1'. rewrite Et. intros [= <- <-] h body p Hb Hp Hs. destruct (H2 h body p Hb Hp Hs) as (b & Hin & Hi).
    destruct (H4 _ Hin) as (b' & Hin' & Hi'). split; [by exists s3|]. exists b'. split; [done|by apply (infix_trans p b)].
Qed.

End theorems.

(** Chunks are well formed.  Chunking changes no state; and what it returns is numbered
    from zero in order, has no empty chunk and no identity twice, and each chunk's identity is
    the content address of its own stripped text, which opens with the chunk's heading: the
    same text has the same identity in any document and any rebuild. *)
Theorem chunks_are_well_formed {S} decode_utf8 html_events csv_rows encode decode sha1 filename data (s : S) r s' :
  chunk_document decode_utf8 html_events csv_rows encode decode sha1 filename data s = (r, s') →
  s' = s ∧ ∀ l, r = Ok l →
    List.NoDup (map ck_canonical_id l) ∧
    ∀ i c, l !! i = Some c →
      ck_ordinal c = Z.of_nat i ∧ ck_canonical_id c = canonical_id sha1 (ck_text c) ∧ ck_text c ≠ "" ∧
      ∃ b, ck_text c = body_text (ck_heading c, b).
Proof.
  intros E. split.
  - pose proof (chunk_document_keeps decode_utf8 html_events csv_rows encode decode sha1 s filename data s eq_refl) as H.
    by rewrite E in H.
  - intros l ->. apply chunk_document_pieces in E as (ps & Hps & -> & _). destruct (emit_spec sha1 ps [] 0 Hps) as (H1 & H2 & H3 & _).
    split; [done|]. intros i c Hi. destruct (H2 c) as (_ & K2 & K3 & K4).
    { apply list_elem_of_In, (list_elem_of_lookup_2 _ i). done. }
    split; [rewrite (H3 i c Hi); lia|split; [done|split; [done|]]].
    apply in_map_iff in K4 as ([h b] & [= E1 E2] & _). exists b. by rewrite <- E1, <- E2.
Qed.

(** The digests tell the pieces of one document apart. *)
Definition told_apart (sha1 : string → string) (ps : list piece) : Prop :=
  ∀ x y, In x ps → In y ps → canonical_id sha1 (body_text x) = canonical_id sha1 (body_text y) →
    strip (body_text x) = strip (body_text y).

(** C20: no paragraph is lost.  Every paragraph of the extracted text that is not larger than
    a chunk is found whole in some chunk of the document, together with the heading it stands
    under, provided that no two different pieces of this very document have the same truncated
    SHA-1. *)
Theorem no_paragraph_is_lost {S} decode_utf8 html_events csv_rows encode decode sha1 filename data (s : S) l s' text s1 :
  chunk_document decode_utf8 html_events csv_rows encode decode sha1 filename data s = (Ok l, s') →
  extract_text decode_utf8 html_events csv_rows filename data s = (Ok text, s1) →
  (∀ ps s2, chunk_pieces encode decode text s1 = (Ok ps, s2) → told_apart sha1 ps) →
  ∀ h body p, In (h, body) (sections text) → In p (paragraphs body) → small encode p →
    ∃ c, In c l ∧ infix p (ck_text c) ∧ ∀ x, h = Some x → infix x (ck_text c).
Proof.
  intros E Et Hsep h body p Hb Hp Hs. apply chunk_document_pieces in E as (ps & Hps & -> & Hk).
  destruct (Hk text s1 Et h body p Hb Hp Hs) as (Hrun & b & Hin & Hi).
  destruct (emit_spec sha1 ps [] 0 Hps) as (_ & H2 & _ & H4). pose proof (H4 _ Hin) as Hc. cbn [app] in Hc.
  apply in_map_iff in Hc as (c & Hid & Hc). destruct (H2 c Hc) as (_ & K2 & _ & K4).
  apply in_map_iff in K4 as (y & [= _ Ey] & Hy). rewrite K2, <- Ey in Hid.
  destruct Hrun as [s2 Hrun]. pose proof (Hsep ps s2 Hrun y (h, b) Hy Hin Hid) as Eq. rewrite Ey in Eq. exists c.
  assert (Hpk : inked p).
  { assert (F := paragraphs_inked body). rewrite List.Forall_forall in F. by apply F. }
  split; [done|split].
  - apply (infix_strip_eq p (body_text (h, b))); [done|by rewrite Eq|by apply body_text_infix].
  - intros x ->. apply (infix_strip_eq x (body_text (Some x, b))); [|by rewrite Eq|apply body_text_heading].
    by apply (sections_heading text x body).
Qed.

Module ChunkDemo.
Definition encode (s : string) : result (list Z) :=
  if contains "<|endoftext|>" s then Raise (ValueError "disallowed special token")
  else Ok (map (fun c => Z.of_N (N_of_ascii c)) (String.list_ascii_of_string s)).
Definition decode (l : list Z) : string := String.string_of_list_ascii (map (fun z => ascii_of_N (Z.to_N z)) l).
Definition doc : string := "# Pumps" +:+ nl +:+ nl +:+ "Torque is 95 Nm." +:+ nl +:+ nl +:+ "Do not exceed it.".
(** Two sections, hence two pieces. *)
Definition manual : string := doc +:+ nl +:+ nl +:+ "# Valves" +:+ nl +:+ nl +:+ "Close them first.".
Definition chunked (filename data : string) : result (list Chunk) :=
  (chunk_document (fun s => s) (fun _ => []) (fun _ => []) encode decode (fun s => s) filename data tt).1.
End ChunkDemo.

(** One document with a special token cannot be chunked at all. *)
Example special_token_raises :
  ChunkDemo.chunked "manual.md" (ChunkDemo.doc +:+ "<|endoftext|>") = Raise (ValueError "disallowed special token").
Proof. vm_compute. reflexivity. Qed.

Lemma chunks_are_well_formed_witness :
  ∃ l, ChunkDemo.chunked "manual.md" ChunkDemo.doc = Ok l ∧ length l = 1%nat ∧ List.NoDup (map ck_canonical_id l).
Proof.
  unfold ChunkDemo.chunked. destruct (chunk_document _ _ _ _ _ _ _ _ _) as [r s'] eqn:E. cbn [fst].
  pose proof E as Er. apply (f_equal fst) in Er. vm_compute in Er. cbn [fst] in Er.
  destruct (chunks_are_well_formed _ _ _ _ _ _ _ _ _ _ _ E) as [_ H]. destruct r as [l|e]; [|discriminate].
  exists l. split; [done|split; [by injection Er as <-|]]. by destruct (H l eq_refl).
Defined.

Lemma no_paragraph_is_lost_witness :
  ∃ l, ChunkDemo.chunked "manual.md" ChunkDemo.manual = Ok l ∧ length l = 2%nat ∧
    ∃ c, In c l ∧ infix "Torque is 95 Nm." (ck_text c) ∧ ∀ x, Some "Pumps" = Some x → infix x (ck_text c).
Proof.
  unfold ChunkDemo.chunked. destruct (chunk_document _ _ _ _ _ _ _ _ _) as [r s'] eqn:E. cbn [fst].
  destruct r as [l|e]; [|apply (f_equal fst) in E; vm_compute in E; discriminate]. exists l. split; [done|].
  split; [apply (f_equal fst) in E; vm_compute in E; by injection E as <-|].
  destruct (extract_text (fun s => s) (fun _ => []) (fun _ => []) "manual.md" ChunkDemo.manual tt) as [rt s1] eqn:Et.
  pose proof Et as Er. apply (f_equal fst) in Er. vm_compute in Er. cbn [fst] in Er. subst rt.
  refine (no_paragraph_is_lost _ _ _ _ _ _ _ _ _ _ _ _ _ E Et _ (Some "Pumps") ("Torque is 95 Nm." +:+ nl +:+ nl +:+ "Do not exceed it.") _ _ _ _).
  - intros ps s2 Ep. destruct s1. vm_compute in Ep. injection Ep as <- _.
    intros x y [<-|[<-|[]]] [<-|[<-|[]]] Hid; try reflexivity; vm_compute in Hid; discriminate Hid.
  - vm_compute. by left.
  - vm_compute. by left.
  - vm_compute. discriminate.
Defined.
