(* ===== verification/Reindex.v ===== *)
(** Rebuilding a collection ([workloads/reindex/workload.py]): open a build, copy forward
    what is still current, ingest what is missing, promote, reap; or fail the build.

    The model client is used through an interface, [Embedder]; the instance of the platform
    is the client of [Llm.v].  The graph cache that a finished rebuild drops is not modelled. *)
From S2P Require Import Prelude Identity Json Text Db Leases ObjectStore Chunking Builds.
From S2P Require Cache Ledger Llm Frame.

Definition EMBED_BATCH : nat := 64.

(** The tables a corpus consists of. *)
Definition corpus (d : db) : list document * list chunk * list collection_build := (documents d, chunks d, builds d).

(** What a rebuild needs of the model client: vectors, with the corpus left alone. *)
Class Embedder (V : Type) := mkEmbedder {
  embed_texts : nat → RequestContext → list string → M (db * V) (list (list Q));
  embed_keeps_corpus : ∀ i ctx l s, corpus (embed_texts i ctx l s).2.1 = corpus s.1
}.

Record rebuilt := mkRebuilt {
  rb_build_version : Z;
  rb_chunk_count : Z;
  rb_copied_chunks : Z;
  rb_previous_build : option Z;
  rb_documents : Z;
  rb_documents_without_chunks : Z;
  rb_ingested_documents : Z;
  rb_ingested_chunks : Z;
  rb_skipped_documents : gmap string Z;
  rb_reaped_builds : list Z
}.

(** What [run] returns. *)
Inductive outcome := Promoted (r : rebuilt) | Unpromoted (build_version : Z) (reason : string).

Definition current_in (c : string) (x : document) : bool :=
  String.eqb (dc_collection x) c && is_none (dc_superseded_at x).

Definition contributes (t : uuid) (v : Z) (d : db) (x : document) : bool :=
  existsb (visible t (fun y => (ch_document y =? dc_id x)%N && (ch_build_version y =? v))) (chunks d).

Definition by_created (a b : document) : bool := dc_created_at a <=? dc_created_at b.

Definition pending (t : uuid) (c : string) (v : Z) : M db (list document) :=
  d <- get ;;
  found <- sql_select (visible t (fun x => current_in c x && negb (contributes t v d x))) ;;
  ret (order_by by_created found).

(** [batch = flat[start : start + EMBED_BATCH]] for every [start]. *)
Fixpoint batches {A} (fuel : nat) (l : list A) : list (list A) :=
  match fuel, l with
  | O, _ | _, [] => []
  | S n, _ => firstn EMBED_BATCH l :: batches n (skipn EMBED_BATCH l)
  end.

Section reindex.
Context {V : Type} {embedder : Embedder V}.
Notation state := (db * (V * bucket))%type.
Variables (decode_utf8 : string → string) (html_events : string → list html_event) (csv_rows : string → list (list string)).
Variables (encode : string → result (list Z)) (decode : list Z → string) (sha1 : string → string).
(** The model the vectors are of, the random ids drawn, and the store's failures. *)
Variable embedding_model : string.
Variable fresh : uuid.
Variable fault : nat → option s3_fault.

Definition on_bucket {A} (m : M bucket A) : M state A :=
  fun s => let (r, b) := m (snd (snd s)) in (r, (fst s, (fst (snd s), b))).

Definition on_embedder {A} (m : M (db * V) A) : M state A :=
  fun s => let (r, s') := m (fst s, fst (snd s)) in (r, (fst s', (snd s', snd (snd s)))).

Inductive prepared := Ready (x : document) (l : list Chunk) | Skipped (reason : string).

(** One document of the loop: the reason it is skipped, or its chunks. *)
Definition prepare (ctx ingest_ctx : RequestContext) (i : nat) (x : document) : M state prepared :=
  on_db (cancellation_point ctx) ;;
  if String.eqb (dc_storage_key x) "" then ret (Skipped "no_storage_key")
  else
    got <- try_except (data <- on_bucket (S3ObjectStore.get (fault i) ingest_ctx (dc_storage_key x)) ;; ret (inl data))
             (fun e => match e with NotFoundError => Some (ret (inr "bytes_missing")) | _ => None end) ;;
    match got with
    | inr reason => ret (Skipped reason)
    | inl data =>
        cut <- try_except
                 (l <- chunk_document decode_utf8 html_events csv_rows encode decode sha1 (dc_filename x) data ;; ret (inl l))
                 (fun e => match e with UnsupportedDocument => Some (ret (inr "unsupported_format")) | _ => None end) ;;
        match cut with
        | inr reason => ret (Skipped reason)
        | inl [] => ret (Skipped "no_text")
        | inl l => ret (Ready x l)
        end
    end.

Fixpoint prepare_all (ctx ingest_ctx : RequestContext) (i : nat) (xs : list document)
    : M state (list (document * list Chunk) * gmap string Z) :=
  match xs with
  | [] => ret ([], ∅)
  | x :: xs' =>
      p <- prepare ctx ingest_ctx i x ;;
      rest <- prepare_all ctx ingest_ctx (S i) xs' ;;
      ret (match p with
           | Ready x l => ((x, l) :: fst rest, snd rest)
           | Skipped reason => (fst rest, <[reason := coalesce (snd rest !! reason) 0 + 1]> (snd rest))
           end)
  end.

Definition flatten (l : list (document * list Chunk)) : list (document * Chunk) :=
  concat (map (fun p => map (pair p.1) p.2) l).

Fixpoint embed_all (ctx ingest_ctx : RequestContext) (i : nat) (l : list (list (document * Chunk)))
    : M state (list (list Q)) :=
  match l with
  | [] => ret []
  | b :: l' =>
      on_db (cancellation_point ctx) ;;
      vs <- on_embedder (embed_texts i ingest_ctx (map (fun p => ck_text p.2) b)) ;;
      rest <- embed_all ctx ingest_ctx (S i) l' ;;
      ret (vs ++ rest)
  end.

Definition chunk_meta (x : document) (k : Chunk) : json :=
  JObj [("source", JStr (dc_filename x)); ("heading", match ck_heading k with Some h => JStr h | None => JNull end);
        ("ingested", JBool true)].

Definition chunk_row (ctx : RequestContext) (c : string) (v : Z) (x : document) (k : Chunk) (vector : list Q) : chunk :=
  mkChunk (tenant_of ctx) (dc_id x) c (ck_canonical_id k) (ck_ordinal k) v (ck_text k) (chunk_meta x k)
    (Some vector) (Some embedding_model).

(** [zip(flat, vectors, strict=True)]. *)
Fixpoint write_rows (ctx : RequestContext) (c : string) (v : Z) (flat : list (document * Chunk)) (vectors : list (list Q))
    : M db unit :=
  match flat, vectors with
  | [], [] => ret tt
  | p :: flat', vec :: vectors' =>
      cancellation_point ctx ;;
      insert_chunk (chunk_row ctx c v p.1 p.2 vec) ;;
      write_rows ctx c v flat' vectors'
  | _, _ => raise (ValueError "zip() arguments have different lengths")
  end.

Definition ingest_context (ctx : RequestContext) : RequestContext := child ctx fresh "ingest" {["task" := "ingest"]}.

(** [_ingest_missing]. *)
Definition ingest_missing (ctx : RequestContext) (c : string) (v : Z) : M state (Z * Z * gmap string Z) :=
  xs <- on_db (tenant_session (pending (tenant_of ctx) c v)) ;;
  match xs with
  | [] => ret (0, 0, ∅)
  | _ =>
      ps <- prepare_all ctx (ingest_context ctx) 0 xs ;;
      match fst ps with
      | [] => ret (0, 0, snd ps)
      | l =>
          let flat := flatten l in
          vectors <- embed_all ctx (ingest_context ctx) 0 (batches (length flat) flat) ;;
          on_db (tenant_session (write_rows ctx c v flat vectors)) ;;
          ret (count l, count flat, snd ps)
      end
  end.

(** [INSERT INTO chunk ... SELECT ... FROM chunk c JOIN document d ...]. *)
Definition owner_current (t : uuid) (d : db) (y : chunk) : bool :=
  existsb (visible t (fun x => (dc_id x =? ch_document y)%N && is_none (dc_superseded_at x))) (documents d).

Definition next_version (v : Z) (y : chunk) : chunk :=
  mkChunk (ch_tenant y) (ch_document y) (ch_collection y) (ch_canonical_id y) (ch_ordinal y) v (ch_text y) (ch_meta y)
    (ch_embedding y) (ch_embedding_model y).

Definition copy_forward (t : uuid) (c : string) (old new : Z) : M db Z :=
  d <- get ;;
  found <- sql_select (visible t (fun y => in_build c old y && owner_current t d y)) ;;
  insert_chunks (map (next_version new) found).

Definition count_documents (t : uuid) (c : string) (v : Z) : M db (Z * Z) :=
  all <- sql_select (visible t (current_in c)) ;;
  d <- get ;;
  without <- sql_select (visible t (fun x => current_in c x && negb (contributes t v d x))) ;;
  ret (count all, count without).

(** The body of [run]'s [try].  [reap_fault] is a failure of the database under [reap]. *)
Definition rebuild_body (now : timestamp) (reap_fault : option exn) (ctx : RequestContext) (c : string)
    (previous : option Z) (version : Z) : M state outcome :=
  let t := tenant_of ctx in
  on_db (cancellation_point ctx) ;;
  copied <- on_db (tenant_session (match previous with
                                   | Some old => copy_forward t c old version
                                   | None => ret 0
                                   end)) ;;
  ingested <- ingest_missing ctx c version ;;
  totals <- on_db (tenant_session (count_documents t c version)) ;;
  on_db (cancellation_point ctx) ;;
  n <- on_db (promote now ctx c version) ;;
  reaped <- (match reap_fault with Some e => raise e | None => on_db (reap ctx c) end) ;;
  ret (Promoted (mkRebuilt version n copied previous (fst totals) (snd totals) (fst (fst ingested)) (snd (fst ingested))
                   (snd ingested) (fst reaped))).

(** [except ValueError] also catches its subclasses. *)
Definition is_value_error (e : exn) : bool :=
  match e with ValueError _ | UnsupportedDocument => true | _ => false end.

Definition run_reindex (now : timestamp) (reap_fault : option exn) (ctx : RequestContext) (c : string) : M state outcome :=
  previous <- on_db (live_version_or_none ctx c) ;;
  version <- on_db (begin now ctx c (run_id ctx)) ;;
  try_except (rebuild_body now reap_fault ctx c previous version)
    (fun e =>
       if is_value_error e then
         Some (on_db (fail ctx c version (exn_str e)) ;; ret (Unpromoted version (exn_str e)))
       else
         Some (on_db (fail ctx c version (exn_class e +:+ ": " +:+ exn_str e)) ;; raise e)).

End reindex.

(** * What a rebuild writes before it promotes *)

(** A chunk of the build being written, of a document that is current. *)
Definition fresh_chunk (t : uuid) (c : string) (v : Z) (d : db) (x : chunk) : Prop :=
  ch_tenant x = t ∧ ch_collection x = c ∧ ch_build_version x = v ∧ owner_current t d x = true.

Definition grown (t : uuid) (c : string) (v : Z) (d d' : db) : Prop :=
  documents d' = documents d ∧ builds d' = builds d ∧
  ∃ extra, chunks d' = chunks d ++ extra ∧ Forall (fresh_chunk t c v d) extra.

Lemma owner_current_same t d d' x : documents d' = documents d → owner_current t d' x = owner_current t d x.
Proof. unfold owner_current. by intros ->. Qed.

Lemma grown_corpus t c v d d' : corpus d' = corpus d → grown t c v d d'.
Proof. intros [= H1 H2 H3]. split; [done|split; [done|]]. exists []. by rewrite app_nil_r. Qed.

Lemma grown_trans t c v d1 d2 d3 : grown t c v d1 d2 → grown t c v d2 d3 → grown t c v d1 d3.
Proof.
  intros (H1 & H2 & l & H3 & H4) (K1 & K2 & l' & K3 & K4). split; [congruence|split; [congruence|]].
  exists (l ++ l'). split; [by rewrite K3, H3, app_assoc|]. apply Forall_app. split; [done|].
  eapply List.Forall_impl; [|exact K4]. intros x (Hx & Hy & Hz & Ho). repeat split; try done.
  by rewrite <- (owner_current_same t d1 d2 x).
Qed.

Lemma grown_incl t c v d d' : grown t c v d d' → incl (chunks d) (chunks d').
Proof. intros (_ & _ & l & -> & _) x Hx. apply in_app_iff. by left. Qed.

(** The other builds hold what they held. *)
Lemma grown_content t c v d d' t' c' w : grown t c v d d' → ¬ (t' = t ∧ c' = c ∧ w = v) →
  content t' c' w d' = content t' c' w d.
Proof.
  intros (_ & _ & l & E & Hl) Hne. unfold content. rewrite E, select_where_app.
  rewrite (proj2 (select_where_nil _ l)); [by rewrite app_nil_r|]. intros x Hx. apply not_true_iff_false.
  intros Hv. apply in_build_spec in Hv as (H1 & H2 & H3). rewrite List.Forall_forall in Hl.
  destruct (Hl x Hx) as (H4 & H5 & H6 & _). apply Hne. repeat split; congruence.
Qed.

Lemma insert_chunks_grown t c v d l : Forall (fresh_chunk t c v d) l → ∃ n d', insert_chunks l d = (Ok n, d') ∧
  grown t c v d d' ∧ ∀ x, In x l → existsb (same_chunk x) (chunks d') = true.
Proof.
  revert d. induction l as [|x l IH]; intros d Hl.
  { exists 0, d. split; [done|split; [by apply grown_corpus|done]]. }
  inversion Hl as [|? ? Hx Hl' E1]; subst. cbn [insert_chunks].
  assert (Hstep : ∃ b d1, insert_chunk x d = (Ok b, d1) ∧ grown t c v d d1 ∧ existsb (same_chunk x) (chunks d1) = true).
  { unfold insert_chunk, bind at 1, get. cbv beta iota. destruct (existsb (same_chunk x) (chunks d)) eqn:E.
    - exists false, d. split; [done|split; [by apply grown_corpus|done]].
    - exists true, (d <| chunks := chunks d ++ [x] |>). split; [done|split].
      + split; [done|split; [done|]]. exists [x]. split; [done|]. by constructor.
      + change (existsb (same_chunk x) (chunks d ++ [x]) = true). rewrite existsb_app. cbn.
        unfold same_chunk. by rewrite N.eqb_refl, !String.eqb_refl, Z.eqb_refl, orb_true_r. }
  destruct Hstep as (b & d1 & E & G & Hc). rewrite (run_bind _ _ _ _ _ E).
  destruct (IH d1) as (n & d2 & E2 & G2 & Hc2).
  { eapply List.Forall_impl; [|exact Hl']. intros y (H1 & H2 & H3 & H4). repeat split; try done.
    rewrite (owner_current_same t d d1 y); [done|apply G]. }
  rewrite (run_bind _ _ _ _ _ E2). eexists _, d2. split; [done|split; [by apply (grown_trans t c v d d1)|]].
  intros y [<-|Hy]; [|by apply Hc2]. apply existsb_exists in Hc as (z & Hz & Hs). apply existsb_exists. exists z.
  split; [by apply (grown_incl t c v d1 d2 G2)|done].
Qed.

Lemma copy_forward_grown t c v old d : ∃ n d', copy_forward t c old v d = (Ok n, d') ∧ grown t c v d d' ∧
  ∀ x, In x (content t c old d) → owner_current t d x = true →
    ∃ y, In y (content t c v d') ∧ ch_canonical_id y = ch_canonical_id x.
Proof.
  unfold copy_forward, bind at 1, get. cbv beta iota. unfold bind at 1, sql_select, gets. cbv beta iota. cbn [rows table_chunks].
  set (found := select_where _ _).
  assert (Hfound : ∀ x, In x found ↔ In x (content t c old d) ∧ owner_current t d x = true).
  { intros x. unfold found, content, select_where. rewrite !filter_In. unfold visible.
    rewrite !andb_true_iff. tauto. }
  destruct (insert_chunks_grown t c v d (map (next_version v) found)) as (n & d' & E & G & Hc).
  { apply List.Forall_forall. intros x Hx. apply in_map_iff in Hx as (y & <- & Hy). apply Hfound in Hy as [Hy Ho].
    apply in_content in Hy as (_ & H1 & H2 & _). repeat split; try done. }
  exists n, d'. split; [done|split; [done|]]. intros x Hx Ho.
  assert (Hin : In (next_version v x) (map (next_version v) found)) by (apply in_map, Hfound; done).
  specialize (Hc _ Hin). apply existsb_exists in Hc as (y & Hy & Hs). exists y. unfold same_chunk in Hs. cbn in Hs.
  apply in_content in Hx as (_ & H1 & H2 & _). bool_to_prop. split; [apply in_content; repeat split; congruence|congruence].
Qed.

Section growth.
Context {V : Type} {embedder : Embedder V}.
Notation state := (db * (V * bucket))%type.
Variables (decode_utf8 : string → string) (html_events : string → list html_event) (csv_rows : string → list (list string)).
Variables (encode : string → result (list Z)) (decode : list Z → string) (sha1 : string → string).
Variable embedding_model : string.
Variable fresh : uuid.
Variable fault : nat → option s3_fault.
Variables (ctx : RequestContext) (c : string) (v : Z).
Notation t := (tenant_of ctx).

(** A computation that only adds chunks of current documents to the new build. *)
Definition grows {A} (m : M state A) : Prop := ∀ s, grown t c v s.1 (m s).2.1.

Lemma grows_bind {A B} (m : M state A) (k : A → M state B) : grows m → (∀ a, grows (k a)) → grows (bind m k).
Proof.
  intros Hm Hk s. specialize (Hm s). unfold bind. destruct (m s) as [[a|e] s1]; [|done].
  apply (grown_trans t c v s.1 s1.1); [done|apply Hk].
Qed.

Lemma grows_ret {A} (a : A) : grows (ret a).
Proof. intros s. by apply grown_corpus. Qed.

Lemma grows_raise {A} e : grows (raise (A := A) e).
Proof. intros s. by apply grown_corpus. Qed.

Lemma grows_try {A} (m : M state A) h : grows m → (∀ e k, h e = Some k → grows k) → grows (try_except m h).
Proof.
  intros Hm Hh s. specialize (Hm s). unfold try_except. destruct (m s) as [[a|e] s1]; [done|].
  destruct (h e) as [k|] eqn:E; [|done]. apply (grown_trans t c v s.1 s1.1); [done|by apply (Hh e k)].
Qed.

Lemma grows_db {A} (m : M db A) : (∀ d, grown t c v d (m d).2) → grows (on_db m).
Proof. intros H s. unfold on_db. specialize (H s.1). by destruct (m s.1) as [r d']. Qed.

Lemma grows_reads {A} (m : M db A) : (∀ d, (m d).2 = d) → grows (on_db m).
Proof. intros H. apply grows_db. intros d. apply grown_corpus. by rewrite H. Qed.

Lemma grows_checks : grows (on_db (cancellation_point ctx)).
Proof. apply grows_reads, cancellation_point_same. Qed.

Lemma grows_bucket {A} (m : M bucket A) : grows (on_bucket (V := V) m).
Proof. intros s. unfold on_bucket. destruct (m s.2.2). by apply grown_corpus. Qed.

Lemma grows_embedder i ictx l : grows (on_embedder (embed_texts i ictx l)).
Proof.
  intros s. unfold on_embedder. pose proof (embed_keeps_corpus i ictx l (s.1, s.2.1)) as H.
  destruct (embed_texts i ictx l (s.1, s.2.1)) as [r s']. by apply grown_corpus.
Qed.

Lemma grows_chunker f data : grows (chunk_document (S := state) decode_utf8 html_events csv_rows encode decode sha1 f data).
Proof.
  intros s. pose proof (chunk_document_keeps decode_utf8 html_events csv_rows encode decode sha1 s f data s eq_refl) as H.
  rewrite H. by apply grown_corpus.
Qed.

Lemma grows_prepare ictx i x :
  grows (prepare (V := V) decode_utf8 html_events csv_rows encode decode sha1 fault ctx ictx i x).
Proof.
  unfold prepare. apply grows_bind; [apply grows_checks|]. intros _.
  destruct (String.eqb _ _); [apply grows_ret|]. apply grows_bind.
  - apply grows_try; [apply grows_bind; [apply grows_bucket|intros; apply grows_ret]|].
    intros [] k [= <-]. apply grows_ret.
  - intros [data|reason]; [|apply grows_ret]. apply grows_bind.
    + apply grows_try; [apply grows_bind; [apply grows_chunker|intros; apply grows_ret]|].
      intros [] k [= <-]. apply grows_ret.
    + intros [[|k l]|reason]; apply grows_ret.
Qed.

(** What is ready to be embedded is of the documents that were pending. *)
Lemma prepare_ready ictx i x s y l s' :
  prepare (V := V) decode_utf8 html_events csv_rows encode decode sha1 fault ctx ictx i x s = (Ok (Ready y l), s') → y = x.
Proof.
  unfold prepare. intros E. apply bind_ok in E as (u & s1 & _ & E). destruct (String.eqb _ _); [done|].
  apply bind_ok in E as ([data|reason] & s2 & _ & E); [|done]. apply bind_ok in E as ([[|k l']|reason] & s3 & _ & E); [done| |done].
  by injection E as <- _ _.
Qed.

Lemma prepare_all_grows ictx xs : ∀ i,
  grows (prepare_all (V := V) decode_utf8 html_events csv_rows encode decode sha1 fault ctx ictx i xs).
Proof.
  induction xs as [|x xs IH]; intros i; cbn [prepare_all]; [apply grows_ret|].
  apply grows_bind; [apply grows_prepare|]. intros p. apply grows_bind; [apply IH|]. intros rest. apply grows_ret.
Qed.

Lemma prepare_all_pending ictx xs : ∀ i s ps s',
  prepare_all (V := V) decode_utf8 html_events csv_rows encode decode sha1 fault ctx ictx i xs s = (Ok ps, s') →
  Forall (fun p => In p.1 xs) ps.1.
Proof.
  induction xs as [|x xs IH]; intros i s ps s' E; cbn [prepare_all] in E.
  { injection E as <- <-. constructor. }
  apply bind_ok in E as (p & s1 & E1 & E). apply bind_ok in E as (rest & s2 & E2 & E). injection E as <- <-.
  assert (H : Forall (fun p => In p.1 (x :: xs)) rest.1).
  { eapply List.Forall_impl; [|apply (IH _ _ _ _ E2)]. intros q Hq. by right. }
  destruct p as [y l|reason]; cbn [fst]; [|done]. constructor; [|done]. left. symmetry. by apply (prepare_ready _ _ _ _ _ _ _ E1).
Qed.

Lemma embed_all_grows ictx l : ∀ i, grows (embed_all (V := V) ctx ictx i l).
Proof.
  induction l as [|b l IH]; intros i; cbn [embed_all]; [apply grows_ret|].
  apply grows_bind; [apply grows_checks|]. intros _. apply grows_bind; [apply grows_embedder|]. intros vs.
  apply grows_bind; [apply IH|]. intros rest. apply grows_ret.
Qed.

Definition current_document (d : db) (x : document) : Prop :=
  In x (documents d) ∧ dc_tenant x = t ∧ dc_superseded_at x = None.

Lemma chunk_row_fresh d x k vec : current_document d x →
  fresh_chunk t c v d (chunk_row embedding_model ctx c v x k vec).
Proof.
  intros (Hin & Ht & Hc). repeat split. apply existsb_exists. exists x. split; [done|].
  unfold visible, row_tenant, tenant_documents. by rewrite Ht, Hc, !N.eqb_refl.
Qed.

Lemma write_rows_grown flat : ∀ vectors d, Forall (fun p => current_document d p.1) flat →
  grown t c v d (write_rows embedding_model ctx c v flat vectors d).2.
Proof.
  induction flat as [|p flat IH]; intros [|vec vectors] d Hf; cbn [write_rows]; try (by apply grown_corpus).
  invc Hf. unfold bind. pose proof (cancellation_point_same ctx d) as Hc.
  destruct (cancellation_point ctx d) as [[u|e] d0]; cbn in Hc; subst d0; [|by apply grown_corpus].
  destruct (insert_chunks_grown t c v d [chunk_row embedding_model ctx c v p.1 p.2 vec]) as (n & d1 & E & G & _).
  { constructor; [by apply chunk_row_fresh|constructor]. }
  cbn [insert_chunks] in E. unfold bind in E. destruct (insert_chunk _ d) as [[b|e] d2]; [|done]. injection E as _ ->.
  apply (grown_trans t c v d d1); [done|]. apply IH. eapply List.Forall_impl; [|exact H2].
  intros q (Q1 & Q2 & Q3). split; [|done]. by rewrite (proj1 G).
Qed.

Lemma pending_current d xs d' : pending t c v d = (Ok xs, d') → d' = d ∧ Forall (current_document d) xs.
Proof.
  unfold pending, bind, get, sql_select, gets, ret. intros [= <- <-]. split; [done|]. apply List.Forall_forall.
  intros x Hx. apply in_order_by, filter_In in Hx as [Hin Hv]. unfold visible, current_in, is_none, is_some in Hv. split; [done|].
  apply andb_true_iff in Hv as [Ht Hv]. apply N.eqb_eq in Ht. split; [done|].
  destruct (dc_superseded_at x); [|done]. by rewrite andb_false_r in Hv.
Qed.

Lemma ingest_grows :
  grows (ingest_missing (V := V) decode_utf8 html_events csv_rows encode decode sha1 embedding_model fresh fault ctx c v).
Proof.
  intros s. unfold ingest_missing. destruct (bind _ _ s) as [r s'] eqn:E. apply bind_cases in E as [(e & E & ->)|(xs & s1 & E & E1)].
  { unfold on_db, tenant_session, tx, pending, bind, get, sql_select, gets, ret in E. by injection E. }
  assert (Hp : s1.1 = s.1 ∧ Forall (current_document s.1) xs).
  { unfold on_db in E. destruct (tenant_session _ s.1) as [r0 d0] eqn:E0. injection E as -> <-.
    unfold tenant_session in E0. apply tx_ok in E0. by apply pending_current in E0. }
  destruct Hp as [Hs1 Hp]. rewrite <- Hs1. destruct xs as [|x xs].
  { injection E1 as <- <-. by apply grown_corpus. }
  apply bind_cases in E1 as [(e & E1 & ->)|(ps & s2 & E1 & E2)].
  { pose proof (prepare_all_grows (ingest_context fresh ctx) (x :: xs) 0 s1) as H. by rewrite E1 in H. }
  pose proof (prepare_all_grows (ingest_context fresh ctx) (x :: xs) 0 s1) as H1. rewrite E1 in H1. cbn [snd] in H1.
  apply prepare_all_pending in E1. destruct (fst ps) as [|p l] eqn:Eps; [by injection E2 as <- <-|].
  set (flat := flatten (p :: l)) in *. cbv zeta in E2.
  apply bind_cases in E2 as [(e & E2 & ->)|(vs & s3 & E2 & E3)].
  { apply (grown_trans t c v s1.1 s2.1); [done|]. pose proof (embed_all_grows (ingest_context fresh ctx)
      (batches (length flat) flat) 0 s2) as H. by rewrite E2 in H. }
  pose proof (embed_all_grows (ingest_context fresh ctx) (batches (length flat) flat) 0 s2) as H2. rewrite E2 in H2. cbn [snd] in H2.
  assert (H3 : grown t c v s1.1 s3.1) by by apply (grown_trans t c v s1.1 s2.1).
  apply (grown_trans t c v s1.1 s3.1); [done|].
  assert (Hf : Forall (fun q => current_document s3.1 q.1) flat).
  { apply List.Forall_forall. intros q Hq. unfold flat, flatten in Hq. apply in_concat in Hq as (qs & Hqs & Hq).
    apply in_map_iff in Hqs as (y & <- & Hy). apply in_map_iff in Hq as (k & <- & _). cbn [fst].
    rewrite List.Forall_forall in E1, Hp. destruct (Hp _ (E1 y Hy)) as (Q1 & Q2 & Q3).
    split; [|done]. by rewrite (proj1 H3), Hs1. }
  pose proof (write_rows_grown flat vs s3.1 Hf) as Hw. unfold bind, on_db in E3.
  destruct (tenant_session (write_rows embedding_model ctx c v flat vs) s3.1) as [r4 d4] eqn:E4.
  assert (Hd : grown t c v s3.1 d4).
  { unfold tenant_session, tx in E4. destruct (write_rows _ _ _ _ _ _ _) as [[u|e] d5]; injection E4 as <- <-; [done|by apply grown_corpus]. }
  destruct r4; injection E3 as <- <-; exact Hd.
Qed.

End growth.

(** * The rebuild *)

(** Every chunk of the collection is of a registered build. *)
Definition chunks_registered (t : uuid) (c : string) (d : db) : Prop :=
  ∀ x, In x (chunks d) → ch_tenant x = t → ch_collection x = c → In (t, c, ch_build_version x) (map build_key (builds d)).

Definition new_version (t : uuid) (c : string) (d : db) : Z :=
  max_or 0 (map cb_version (select_where (visible t (of_collection c)) (builds d))) + 1.

Lemma new_version_above t c w d : In (t, c, w) (map build_key (builds d)) → w < new_version t c d.
Proof.
  intros H. apply in_map_iff in H as (b & Hk & Hb). unfold build_key in Hk. injection Hk as H1 H2 H3.
  unfold new_version. assert (H : In w (map cb_version (select_where (visible t (of_collection c)) (builds d)))).
  { apply in_map_iff. exists b. split; [done|]. apply filter_In. split; [done|]. apply of_collection_spec. by split. }
  apply (max_or_ge 0) in H. lia.
Qed.

Lemma begin_ok now ctx c r d :
  let t := tenant_of ctx in
  begin now ctx c r d =
    (Ok (new_version t c d), d <| builds := builds d ++ [mkBuild t c (new_version t c d) building None 0 r None now None] |>).
Proof.
  intros t. unfold begin, tenant_session, tx, bind, insert_build, guard, bind, sql_select, gets. cbn [rows table_builds]. fold t.
  change (max_or 0 (map cb_version (select_where (visible t (of_collection c)) (builds d))) + 1) with (new_version t c d).
  set (b := mkBuild _ _ _ _ _ _ _ _ _ _). assert (select_where (version_taken b) (builds d) = []) as ->; [|done].
  apply select_where_nil. intros x Hx. apply not_true_iff_false. unfold version_taken. intros H. apply is_version_spec in H.
  assert (Hin : In (t, c, new_version t c d) (map build_key (builds d))) by (unfold b in H; cbn [cb_tenant cb_collection cb_version] in H; rewrite <- H; by apply in_map).
  apply new_version_above in Hin. lia.
Qed.

Section rebuild.
Context {V : Type} {embedder : Embedder V}.
Notation state := (db * (V * bucket))%type.
Variables (decode_utf8 : string → string) (html_events : string → list html_event) (csv_rows : string → list (list string)).
Variables (encode : string → result (list Z)) (decode : list Z → string) (sha1 : string → string).
Variable embedding_model : string.
Variable fresh : uuid.
Variable fault : nat → option s3_fault.
Variables (now : timestamp) (ctx : RequestContext) (c : string) (v : Z).
Notation t := (tenant_of ctx).
Notation body := (rebuild_body (V := V) decode_utf8 html_events csv_rows encode decode sha1 embedding_model fresh fault now).

(** What the new build has of the build it replaces. *)
Definition carries_over (old : option Z) (d d' : db) : Prop :=
  ∀ w x, old = Some w → In x (content t c w d) → owner_current t d x = true →
    ∃ y, In y (content t c v d') ∧ ch_canonical_id y = ch_canonical_id x.

(** The current documents, and those without a chunk in the new build. *)
Definition current_documents (d : db) : list document := select_where (visible t (current_in c)) (documents d).

Definition without_chunks (d : db) : list document :=
  select_where (visible t (fun x => current_in c x && negb (contributes t v d x))) (documents d).

Lemma on_db_check s (r : result unit) (s' : state) : on_db (cancellation_point ctx) s = (r, s') → s'.1 = s.1.
Proof.
  unfold on_db. pose proof (cancellation_point_same ctx s.1) as H. destruct (cancellation_point ctx s.1) as [r0 d0].
  cbn in H. subst d0. by intros [= _ <-].
Qed.

Lemma count_documents_eq d : tenant_session (count_documents t c v) d =
  (Ok (count (current_documents d), count (without_chunks d)), d).
Proof. done. Qed.

(** The last steps: [promote] and [reap]. *)
Definition finished (old : option Z) (d0 : db) (r : result outcome) (d' : db) : Prop :=
  (∃ e, r = Raise e ∧ grown t c v d0 d') ∨
  ∃ res d, r = Ok (Promoted res) ∧ grown t c v d0 d ∧ carries_over old d0 d ∧ count (content t c v d) ≠ 0 ∧
    d' = (reap ctx c (promoted now t c v (count (content t c v d)) (demoted t c d))).2 ∧
    rb_build_version res = v ∧ rb_chunk_count res = count (content t c v d) ∧ rb_previous_build res = old ∧
    rb_documents res = count (current_documents d) ∧ rb_documents_without_chunks res = count (without_chunks d).

(** The rows of the build are registered, and it is not yet served. *)
Definition servable (d0 : db) : Prop :=
  builds_wf d0 ∧ existsb (visible t (is_version c v)) (builds d0) = true.

Lemma reap_promoted d0 d n : servable d0 → grown t c v d0 d → ∃ a,
  reap ctx c (promoted now t c v n (demoted t c d)) = (Ok a, (reap ctx c (promoted now t c v n (demoted t c d))).2).
Proof.
  intros [W He] (_ & G & _). assert (W2 : builds_wf d) by by apply (wf_same d0).
  assert (He2 : existsb (visible t (is_version c v)) (builds d) = true) by by rewrite G.
  erewrite (reap_eq ctx c _ v); [by eexists|]. apply query_live_serving; [by apply promoted_wf|by apply promoted_serves].
Qed.

Lemma rebuild_body_cases old s r s' : servable s.1 → body None ctx c old v s = (r, s') → finished old s.1 r s'.1.
Proof.
  intros Hs E. unfold rebuild_body in E. cbv zeta in E.
  apply bind_cases in E as [(e & E & ->)|(u & s1 & E0 & E)].
  { left. exists e. split; [done|]. apply on_db_check in E. rewrite E. by apply grown_corpus. }
  apply on_db_check in E0. rewrite <- E0 in *. clear s E0.
  set (copy := match old with Some w => _ | None => _ end) in E.
  assert (Hcopy : ∃ n d2, tenant_session copy s1.1 = (Ok n, d2) ∧ grown t c v s1.1 d2 ∧ carries_over old s1.1 d2).
  { unfold copy, carries_over. destruct old as [w|].
    - destruct (copy_forward_grown t c v w s1.1) as (n & d2 & E2 & G & Hc). exists n, d2.
      split; [by apply tx_ok|split; [done|]]. intros w' x [= <-]. apply Hc.
    - exists 0, s1.1. split; [done|split; [by apply grown_corpus|]]. by intros w x Hw. }
  destruct Hcopy as (copied & d2 & E2 & G2 & Hcarry).
  assert (E2' : on_db (W := V * bucket) (tenant_session copy) s1 = (Ok copied, (d2, s1.2))) by (unfold on_db; by rewrite E2).
  rewrite (run_bind _ _ _ _ _ E2') in E. clear E2 E2'. set (s2 := (d2, s1.2)) in E.
  pose proof (ingest_grows decode_utf8 html_events csv_rows encode decode sha1 embedding_model fresh fault ctx c v s2) as G3.
  apply bind_cases in E as [(e & E & ->)|(ing & s3 & E3 & E)].
  { left. exists e. split; [done|]. rewrite E in G3. by apply (grown_trans t c v s1.1 d2). }
  rewrite E3 in G3. cbn [snd fst s2] in G3. clear E3 s2.
  assert (G : grown t c v s1.1 s3.1) by by apply (grown_trans t c v s1.1 d2).
  assert (Hc3 : carries_over old s1.1 s3.1).
  { intros w x Hw Hx Ho. destruct (Hcarry w x Hw Hx Ho) as (y & Hy & Hid). exists y. split; [|done].
    by apply (content_incl t c v d2 s3.1 (grown_incl t c v d2 s3.1 G3)). }
  assert (E4 : on_db (W := V * bucket) (tenant_session (count_documents t c v)) s3 =
    (Ok (count (current_documents s3.1), count (without_chunks s3.1)), s3)).
  { unfold on_db. rewrite count_documents_eq. by destruct s3. }
  rewrite (run_bind _ _ _ _ _ E4) in E. clear E4.
  apply bind_cases in E as [(e & E & ->)|(u' & s4 & E4 & E)].
  { left. exists e. split; [done|]. apply on_db_check in E. by rewrite E. }
  apply on_db_check in E4. rewrite <- E4 in *. clear s3 E4 G3.
  unfold bind at 1, on_db at 1 in E. rewrite promote_eq in E. destruct (count (content t c v s4.1) =? 0) eqn:En.
  { injection E as <- <-. left. by eexists. }
  destruct (reap_promoted s1.1 s4.1 (count (content t c v s4.1)) Hs G) as (a & Er).
  unfold bind, on_db in E. cbn [fst] in E. rewrite Er in E. injection E as <- <-.
  right. eexists _, s4.1. split; [reflexivity|]. apply Z.eqb_neq in En. by repeat (split; [done|]).
Qed.

End rebuild.

Definition begun_from (d d1 : db) : Prop :=
  documents d1 = documents d ∧ chunks d1 = chunks d ∧ ∀ t c w, serving t c w d1 ↔ serving t c w d.

(** The state a rebuild works on: its build is registered, nothing else changed. *)
Lemma begun now ctx c r d : builds_wf d →
  let t := tenant_of ctx in
  let v := new_version t c d in
  let d1 := (begin now ctx c r d).2 in
  servable ctx c v d1 ∧ (∀ w, serving t c w d1 → w ≠ v) ∧ begun_from d d1.
Proof.
  intros W t v d1. pose proof (begin_ok now ctx c r d) as E. fold t v in E.
  assert (W1 : builds_wf d1) by by apply (begin_step now ctx c r d W). unfold d1 in *. rewrite E in *. cbn [snd] in *.
  set (b := mkBuild _ _ _ _ _ _ _ _ _ _) in *.
  assert (Hs : ∀ t' c' w, serving t' c' w (d <| builds := builds d ++ [b] |>) ↔ serving t' c' w d).
  { intros t' c' w. split; intros (x & Hx & Hr); exists x; (split; [|done]).
    - apply in_app_iff in Hx as [Hx|[<-|[]]]; [done|]. by destruct Hr as (_ & _ & _ & Hl).
    - apply in_app_iff. by left. }
  split; [split; [done|]|split; [|done]].
  - apply existsb_exists. exists b. split; [apply in_app_iff; right; by left|]. by apply is_version_spec.
  - intros w S ->. apply Hs in S as (x & Hx & H1 & H2 & H3 & _).
    assert (Hin : In (t, c, v) (map build_key (builds d))) by (apply in_map_iff; exists x; unfold build_key; split; [congruence|done]).
    apply new_version_above in Hin. fold v in Hin. lia.
Qed.

(** What is said of a state after a rebuild whatever became of it: the other collections
    hold and serve what they did. *)
Definition elsewhere_same (t : uuid) (c : string) (d d' : db) : Prop :=
  documents d' = documents d ∧ ∀ t' c' w, ¬ (t' = t ∧ c' = c) →
    content t' c' w d' = content t' c' w d ∧ (serving t' c' w d → serving t' c' w d').

Lemma rebuild_failed ctx c v e d d' : servable ctx c v d → (∀ w, serving (tenant_of ctx) c w d → w ≠ v) →
  grown (tenant_of ctx) c v d d' →
  let t := tenant_of ctx in
  let d2 := (fail ctx c v e d').2 in
  builds_wf d2 ∧ elsewhere_same t c d d2 ∧ content t c v d2 = [] ∧
  ∀ w, serving t c w d → serving t c w d2 ∧ content t c w d2 = content t c w d.
Proof.
  intros [W _] Hv G t d2. pose proof G as (Gd & Gb & _). assert (W' : builds_wf d') by by apply (wf_same d).
  assert (So : sound (Fail_ ctx c v e) d' = true).
  { cbn [sound]. apply negb_true_iff, not_true_iff_false. intros H. apply existsb_exists in H as (b & Hb & Hp).
    unfold visible in Hp. apply andb_true_iff in Hp as [Ht Hp]. apply andb_true_iff in Hp as [Hl Hp].
    assert (H1 : visible t (is_live c) b = true) by (unfold visible, t; by rewrite Ht).
    assert (H2 : visible t (is_version c v) b = true) by (unfold visible, t; by rewrite Ht).
    apply is_live_spec in H1 as (H3 & H4 & H5). apply is_version_spec in H2. injection H2 as _ _ H6.
    apply (Hv v); [|done]. exists b. by rewrite <- Gb. }
  destruct (fail_step ctx c v e d' W' So) as [W2 Hserve]. cbn [exec] in W2, Hserve. fold d2 in W2, Hserve.
  assert (Hs : ∀ t' c' w, serving t' c' w d → serving t' c' w d2).
  { intros t' c' w S. destruct (Hserve t' c' w) as [[H _]|(n & x & y & H & _)]; [by apply (serving_same _ _ _ d)|done|done]. }
  assert (Hc : ∀ t' c' w, ¬ (t' = t ∧ c' = c ∧ w = v) → content t' c' w d2 = content t' c' w d).
  { intros t' c' w Hne. rewrite <- (grown_content t c v d d' t' c' w G Hne).
    apply (content_delete t' c' w (visible t (in_build c v)) d' d2); [done|]. intros x Hx.
    apply in_build_spec in Hx as (H1 & H2 & H3). apply not_true_iff_false. intros H. apply in_build_spec in H as (H4 & H5 & H6).
    apply Hne. repeat split; congruence. }
  split; [done|]. split; [split; [done|]|split].
  - intros t' c' w Hne. split; [apply Hc; tauto|apply Hs].
  - unfold content. change (chunks d2) with (delete_where (visible t (in_build c v)) (chunks d')).
    rewrite select_delete_comm. apply delete_where_all. intros x Hx. by apply filter_In in Hx as [_ Hx].
  - intros w S. split; [by apply Hs|]. apply Hc. intros (_ & _ & H). by apply (Hv w).
Qed.

Lemma rebuild_promoted now ctx c v n d d' : servable ctx c v d → grown (tenant_of ctx) c v d d' →
  count (content (tenant_of ctx) c v d') ≠ 0 →
  let t := tenant_of ctx in
  let d2 := (reap ctx c (promoted now t c v n (demoted t c d'))).2 in
  builds_wf d2 ∧ elsewhere_same t c d d2 ∧ serving t c v d2 ∧ content t c v d2 = content t c v d' ∧
  without_chunks ctx c v d2 = without_chunks ctx c v d'.
Proof.
  intros [W He] G Hn t d2. pose proof G as (Gd & Gb & _). assert (W' : builds_wf d') by by apply (wf_same d).
  assert (He' : existsb (visible t (is_version c v)) (builds d') = true) by by rewrite Gb.
  set (dp := promoted now t c v n (demoted t c d')) in *. assert (Wp : builds_wf dp) by by apply promoted_wf.
  assert (Sp : serving t c v dp) by by apply promoted_serves.
  destruct (reap_kept_serving ctx c dp Wp) as [W2 Hserve]. cbn [exec] in W2, Hserve. fold d2 in W2, Hserve.
  assert (Hs : ∀ t' c' w, serving t' c' w dp → serving t' c' w d2).
  { intros t' c' w S. by destruct (Hserve t' c' w S) as [[H _]|(? & ? & ? & H & _)]. }
  destruct (reap_chunks ctx c dp Wp) as (Hd & q & Hq & Hqs). fold t d2 in Hd, Hq, Hqs.
  split; [done|]. split; [split; [by rewrite Hd|]|split; [by apply Hs|split]].
  - intros t' c' w Hne. split.
    + unfold d2. rewrite reap_content; [|done|]; [|intros <- <-; by destruct Hne].
      change (content t' c' w dp) with (content t' c' w d'). apply (grown_content t c v d d' t' c' w G). tauto.
    + intros S. apply Hs. apply promoted_elsewhere; [done|]. by apply (serving_same t' c' w d).
  - unfold d2. by rewrite reap_content.
  - unfold without_chunks. fold t. rewrite Hd. change (documents dp) with (documents d'). apply filter_ext. intros x.
    unfold visible. f_equal. f_equal. f_equal. unfold contributes. rewrite Hq. change (chunks dp) with (chunks d').
    apply eq_true_iff_eq. rewrite !existsb_exists. split; intros (y & Hy & Hp); exists y; (split; [|done]).
    + by apply in_delete_where in Hy as [Hy _].
    + apply in_delete_where. split; [done|]. apply not_true_iff_false. intros H. apply Hqs in H as (H1 & H2 & H3).
      apply H3. unfold visible in Hp. bool_to_prop. by subst v.
Qed.

(** What a rebuild ends with. *)
Definition rebuilt_as_promised (ctx : RequestContext) (c : string) (d d' : db) (r : result outcome) : Prop :=
  let t := tenant_of ctx in
  let v := new_version t c d in
  match r with
  | Ok (Promoted res) =>
      serving t c v d' ∧ rb_build_version res = v ∧
      rb_chunk_count res = count (content t c v d') ∧ rb_chunk_count res ≠ 0 ∧
      (∀ x, In x (content t c v d') → owner_current t d x = true) ∧
      (∀ w, rb_previous_build res = Some w ↔ serving t c w d) ∧
      carries_over ctx c v (rb_previous_build res) d d' ∧
      rb_documents res = count (current_documents ctx c d) ∧
      rb_documents_without_chunks res = count (without_chunks ctx c v d')
  | _ => content t c v d' = [] ∧ ∀ w, serving t c w d → serving t c w d' ∧ content t c w d' = content t c w d
  end.

(** The two ends of a rebuild of [d] that began with [d1]. *)
Lemma unpromoted_as_promised ctx c d d1 d2 e r : servable ctx c (new_version (tenant_of ctx) c d) d1 →
  (∀ w, serving (tenant_of ctx) c w d1 → w ≠ new_version (tenant_of ctx) c d) → begun_from d d1 →
  grown (tenant_of ctx) c (new_version (tenant_of ctx) c d) d1 d2 → (∀ res, r ≠ Ok (Promoted res)) →
  let d' := (fail ctx c (new_version (tenant_of ctx) c d) e d2).2 in
  builds_wf d' ∧ elsewhere_same (tenant_of ctx) c d d' ∧ rebuilt_as_promised ctx c d d' r.
Proof.
  set (t := tenant_of ctx). set (v := new_version t c d). intros Hs Hv (H1 & H2 & H3) G Hr d'.
  destruct (rebuild_failed ctx c v e d1 d2 Hs Hv G) as (K1 & [K2 K5] & K3 & K4). fold t d' in K1, K2, K3, K4, K5.
  assert (Hc1 : ∀ t' c' w, content t' c' w d1 = content t' c' w d) by (intros; by apply content_same).
  split; [done|]. split.
  - split; [congruence|]. intros t' c' u Hne. destruct (K5 t' c' u Hne) as [K6 K7]. rewrite K6, Hc1. split; [done|].
    intros S. by apply K7, H3.
  - unfold rebuilt_as_promised. fold t v. destruct r as [[res|bv why]|e']; [by destruct (Hr res)| |]; (split; [done|]);
      intros u S; apply H3 in S; destruct (K4 u S) as [K8 K9]; by rewrite K9, Hc1.
Qed.

Lemma promoted_as_promised now ctx c d d1 d2 res : chunks_registered (tenant_of ctx) c d →
  let t := tenant_of ctx in
  let v := new_version t c d in
  let d' := (reap ctx c (promoted now t c v (count (content t c v d2)) (demoted t c d2))).2 in
  servable ctx c v d1 → begun_from d d1 → grown t c v d1 d2 → count (content t c v d2) ≠ 0 →
  rb_build_version res = v → rb_chunk_count res = count (content t c v d2) →
  (∀ w, rb_previous_build res = Some w ↔ serving t c w d) → carries_over ctx c v (rb_previous_build res) d1 d2 →
  rb_documents res = count (current_documents ctx c d2) →
  rb_documents_without_chunks res = count (without_chunks ctx c v d2) →
  builds_wf d' ∧ elsewhere_same t c d d' ∧ rebuilt_as_promised ctx c d d' (Ok (Promoted res)).
Proof.
  intros Hreg t v d' Hs (H1 & H2 & H3) G Hn F1 F2 F3 Hcarry F4 F5.
  destruct (rebuild_promoted now ctx c v (count (content t c v d2)) d1 d2 Hs G Hn) as (K1 & [K2 K6] & K3 & K4 & K5).
  fold t d' in K1, K2, K3, K4, K5, K6.
  assert (Hc1 : ∀ t' c' w, content t' c' w d1 = content t' c' w d) by (intros; by apply content_same).
  split; [done|]. split.
  { split; [congruence|]. intros t' c' u Hne. destruct (K6 t' c' u Hne) as [K8 K9]. rewrite K8, Hc1. split; [done|].
    intros S. by apply K9, H3. }
  unfold rebuilt_as_promised. fold t v. rewrite K4, K5, F2, F4, F5.
  split; [done|split; [done|split; [done|split; [done|]]]]. split; [|split; [done|split; [|split; [|done]]]].
  - intros x Hx. apply in_content in Hx as (Hx & X1 & X2 & X3). destruct G as (Gd & _ & extra & Ge & Gf). rewrite Ge in Hx.
    apply in_app_iff in Hx as [Hx|Hx].
    + exfalso. rewrite H2 in Hx. pose proof (Hreg x Hx X1 X2) as Hlt. rewrite X3 in Hlt. apply new_version_above in Hlt.
      fold t v in Hlt. lia.
    + rewrite List.Forall_forall in Gf. destruct (Gf x Hx) as (_ & _ & _ & Ho). by rewrite <- (owner_current_same t d d1).
  - intros w x Hw Hx Ho. unfold carries_over in Hcarry. fold t in Hx, Ho, Hcarry |- *. rewrite K4.
    apply (Hcarry w x Hw); [by rewrite Hc1|]. by rewrite (owner_current_same t d d1).
  - unfold current_documents. by rewrite (proj1 G), H1.
Qed.

(** C21: a rebuild replaces a collection whole or leaves it as it was.  When it promotes, and the
    database then answers until it returns ([fault_after_promotion_empties_the_collection]
    shows what an error in the reaping after the promotion does), the collection is served by
    the new build: it is not empty, its size is the one reported, every chunk of it is of a
    document that is current, and everything the replaced build had of current documents is
    in it; the reported counts are those of the current documents and of the current
    documents that contributed nothing.  When it does not promote, whether it returns or
    raises, nothing is left of the new build, and the build that was served is served with
    every chunk it had.  Other collections and tenants are not touched. *)
Theorem rebuild_replaces_or_keeps {V} {embedder : Embedder V} decode_utf8 html_events csv_rows encode decode sha1
    embedding_model fresh fault now ctx c (s : db * (V * bucket)) r s' :
  let d := s.1 in
  let t := tenant_of ctx in
  builds_wf d → chunks_registered t c d →
  run_reindex decode_utf8 html_events csv_rows encode decode sha1 embedding_model fresh fault now None ctx c s = (r, s') →
  builds_wf s'.1 ∧ elsewhere_same t c d s'.1 ∧ rebuilt_as_promised ctx c d s'.1 r.
Proof.
  intros d t W Hreg E. unfold run_reindex in E.
  destruct (live_version_or_none_spec ctx c d W) as (old & E0 & Hold).
  assert (E0' : on_db (live_version_or_none ctx c) s = (Ok old, s)) by (unfold on_db; fold d; rewrite E0; by destruct s).
  rewrite (run_bind _ _ _ _ _ E0') in E. clear E0 E0'.
  destruct (begun now ctx c (run_id ctx) d W) as (Hs & Hv & Hb). pose proof (begin_ok now ctx c (run_id ctx) d) as Eb.
  fold t in Eb, Hs, Hv. set (v := new_version t c d) in *. set (d1 := (begin now ctx c (run_id ctx) d).2) in *.
  assert (Eb' : on_db (W := V * bucket) (begin now ctx c (run_id ctx)) s = (Ok v, (d1, s.2))).
  { unfold on_db, d1. fold d. by rewrite Eb. }
  rewrite (run_bind _ _ _ _ _ Eb') in E. clear Eb Eb'. unfold try_except in E.
  match type of E with context [match ?m ?x with _ => _ end] => destruct (m x) as [r0 s2] eqn:Ebody end.
  apply rebuild_body_cases in Ebody; [|exact Hs].
  destruct Ebody as [(e & -> & G)|(res & d2 & -> & G & Hcarry & Hn & Hd & F1 & F2 & F3 & F4 & F5)]; cbn [fst] in *.
  - assert (Hf : ∃ w, s'.1 = (fail ctx c v w s2.1).2 ∧ ∀ res, r ≠ Ok (Promoted res)).
    { destruct (is_value_error e); unfold bind, on_db in E; rewrite fail_eq in E; injection E as <- <-; eexists; by rewrite fail_eq. }
    destruct Hf as (w & -> & Hr). by apply (unpromoted_as_promised ctx c d d1 s2.1).
  - injection E as <- <-. rewrite Hd. apply (promoted_as_promised now ctx c d d1 d2 res); try done; by rewrite F3.
Qed.

(** * The client of the platform is an embedder *)

Section platform.
Import Ledger Llm.
Context {P : Type}.
Variable embed_create : string → list string → P → (option (option Z) * list (list Q) + exn) * P.
Variable encoding_for_model : string → option encoder.
Variable base_encoding : option encoder.
Variable month_start : timestamp → timestamp.
Variable st : ledger_settings.
Variable during : Z → db → db.
(** While a request is out, nobody else changes the corpus. *)
Hypothesis during_keeps : ∀ n d, corpus (during n d) = corpus d.
Variables (now done_at : timestamp) (down down' : nat → option exn) (reserved : nat → uuid) (model : string).
Notation state := (db * world P)%type.

Definition embed_batch (i : nat) (ctx : RequestContext) (texts : list string) : M state (list (list Q)) :=
  embed P embed_create encoding_for_model base_encoding month_start st during now done_at (down i) (down' i)
    (reserved i) ctx texts model.

Lemma embed_batch_keeps i ctx l s : corpus (embed_batch i ctx l s).2.1 = corpus s.1.
Proof. by apply (Frame.embed_leaves corpus). Qed.

#[export] Instance llm_embedder : Embedder (world P) := mkEmbedder (world P) embed_batch embed_batch_keeps.

End platform.

Module ReindexDemo.
Definition st : Ledger.ledger_settings := Ledger.mkLedgerSettings 100000 25 false 5000000 900 None.
(** The provider gives every text a vector of its length, and counts its calls. *)
Definition create (_ : string) (l : list string) (n : Z) : (option (option Z) * list (list Q) + exn) * Z :=
  (inl (Some (Some 7), map (fun s => [inject_Z (str_len s)]) l), n + 1).
#[export] Instance embedder : Embedder (Llm.world Z) :=
  llm_embedder create (fun _ => None) (Some (fun s => Ok (str_len s))) (fun x => x) st (fun _ d => d) (fun _ _ => eq_refl) 5 9
    (fun _ => None) (fun _ => None) (fun i => N.of_nat (90 + i)) "text-embedding-3-small".
Definition doc (id : uuid) (key : string) (gone : option timestamp) : document :=
  mkDocument id 1 "manuals" "pump.md" "sha" 10 key None (Z.of_N id) gone None.
Definition ch (document : uuid) (id : string) : chunk := mkChunk 1 document "manuals" id 0 4 "text" JNull None None.
(** Document 50 is in the build that is served, 51 was withdrawn since, 52 was added, and
    the bytes of 53 were never kept. *)
Definition d0 : db :=
  empty_db <| builds := [BuildsDemo.build 4 live] |> <| chunks := [ch 50 "c_a"; ch 51 "c_b"] |>
    <| documents := [doc 50 "" None; doc 51 "" (Some 9); doc 52 (StoreDemo.k Demo.ctx) None; doc 53 "" None] |>.
Definition b0 : bucket := <[StoreDemo.k Demo.ctx := mkObject ChunkDemo.doc "text/markdown" None ""]> ∅.
Definition s0 : db * (Llm.world Z * bucket) := (d0, (Llm.mkWorld Z (Ledger.mkMemory ∅ ∅) Cache.CacheDemo.c0 0, b0)).
Notation rebuild reap_fault x := (run_reindex (embedder := embedder) (fun s => s) (fun _ => []) (fun _ => []) ChunkDemo.encode
  ChunkDemo.decode (fun s => s) "text-embedding-3-small" 91%N (fun _ => None) 9 reap_fault Demo.ctx "manuals" x).
End ReindexDemo.

Lemma rebuild_replaces_or_keeps_witness :
  ∃ res s', ReindexDemo.rebuild None ReindexDemo.s0 = (Ok (Promoted res), s') ∧ rb_build_version res = 5 ∧
    serving 1 "manuals" 5 s'.1 ∧ map ch_document (content 1 "manuals" 5 s'.1) = [50%N; 52%N] ∧
    rb_documents_without_chunks res = 1.
Proof.
  assert (W : builds_wf ReindexDemo.d0).
  { constructor; [repeat constructor; intros []|]. by intros b b' [<-|[]] [<-|[]]. }
  assert (Hreg : chunks_registered 1 "manuals" ReindexDemo.d0) by (intros x [<-|[<-|[]]] _ _; by left).
  destruct (ReindexDemo.rebuild None ReindexDemo.s0) as [r s'] eqn:E. pose proof (f_equal fst E) as Er.
  pose proof (f_equal (fun x => map ch_document (content 1 "manuals" 5 x.2.1)) E) as Ec. vm_compute in Er, Ec. cbn [fst snd] in *.
  pose proof (rebuild_replaces_or_keeps (embedder := ReindexDemo.embedder) (fun s => s) (fun _ => []) (fun _ => []) ChunkDemo.encode
    ChunkDemo.decode (fun s => s) "text-embedding-3-small" 91%N (fun _ => None) 9 Demo.ctx "manuals" ReindexDemo.s0 r s' W Hreg E) as H.
  clear E. destruct H as (_ & _ & H). subst r. destruct H as (H & _). eexists _, s'. split; [reflexivity|]. split; [reflexivity|].
  split; [exact H|split; [by symmetry|reflexivity]].
Defined.

(** An exception after the promotion: [fail] then deletes the chunks of the build that has
    just gone live, and the collection is served empty. *)
Example fault_after_promotion_empties_the_collection :
  let s' := (ReindexDemo.rebuild (Some (OtherError "OperationalError")) ReindexDemo.s0).2 in
  (live_version Demo.ctx "manuals" s'.1).1 = Ok 5 ∧ content 1 "manuals" 5 s'.1 = [].
Proof. split; vm_compute; reflexivity. Qed.
