(* ===== verification/Canary.v ===== *)
(** Canary releases ([platform_core/release/canary.py]): a candidate gets a slice of the
    traffic, is compared with the revision it would replace, and is promoted, held or
    rolled back.

    The texts of the reasons are a parameter; a verdict carries the reasons as values.
    [action] and [exec_all] are the steps of a deployment pipeline. *)
From S2P Require Import Prelude Identity Json Db AuditTrail.

Definition DEFAULT_ERROR_RATE_TOLERANCE : Q := 5 # 100.
Definition DEFAULT_LATENCY_TOLERANCE : Q := 3 # 2.
Definition DEFAULT_MIN_OBSERVATIONS : Z := 20.

Record RevisionStats := mkStats {
  rs_revision : string;
  rs_observations : Z;
  rs_error_rate : Q;
  rs_p95_latency_ms : Q
}.

Definition sufficient (s : RevisionStats) : bool := DEFAULT_MIN_OBSERVATIONS <=? rs_observations s.

(** The protocol [MetricsSource]. *)
Class MetricsSource := mkMetrics { stats : string → interval → M db RevisionStats }.

(** * The numbers *)

Definition latency_le (a b : Q) : bool := Qle_bool a b.

(** [percentile_cont(p) WITHIN GROUP (ORDER BY x)]: linear between the two nearest ranks. *)
Definition percentile_cont (p : Q) (l : list Q) : option Q :=
  match order_by latency_le l with
  | [] => None
  | x :: _ =>
      let s := order_by latency_le l in
      let rank := (p * inject_Z (count l - 1))%Q in
      let low := Qfloor rank in
      let at_ i := nth (Z.to_nat i) s x in
      Some (at_ low + (rank - inject_Z low) * (at_ (Qceiling rank) - at_ low))%Q
  end.

(** [avg(CASE WHEN outcome = 'error' THEN 1.0 ELSE 0.0 END)]. *)
Definition error_share (l : list observation) : Q :=
  match l with
  | [] => 0
  | _ => inject_Z (count (List.filter (fun o => negb (ro_success o)) l)) / inject_Z (count l)
  end%Q.

Definition in_window (now : timestamp) (revision : string) (window : interval) (o : observation) : bool :=
  String.eqb (ro_revision o) revision && (now - window <=? ro_at o).

Definition postgres_stats (now : timestamp) (revision : string) (window : interval) : M db RevisionStats :=
  found <- tx (sql_select (in_window now revision window)) ;;
  ret (mkStats revision (count found) (error_share found) (coalesce (percentile_cont (95 # 100) (map ro_latency_ms found)) 0%Q)).

Definition PostgresMetrics (now : timestamp) : MetricsSource := mkMetrics (postgres_stats now).

(** Never raises: a failure of the database is dropped. *)
Definition observe (now : timestamp) (fault : option exn) (revision route : string) (success : bool) (latency_ms : Q)
    (status_code : option Z) : M db unit :=
  try_except
    (tx (match fault with
         | Some e => raise e
         | None => sql_insert (mkObservation revision route success status_code latency_ms now)
         end))
    (fun _ => Some (ret tt)).

(** * The verdict *)

Inductive reason_of :=
| InsufficientSample (observations needed : Z)
| ErrorRateRose (delta baseline candidate tolerance : Q)
| LatencyRose (ratio baseline candidate tolerance : Q)
| NoBreach (observations : Z).

Inductive canary_action := Promote_ | Hold | Rollback_.

Record CanaryVerdict := mkVerdict {
  cv_action : canary_action;
  cv_reasons : list reason_of;
  cv_candidate : RevisionStats;
  cv_baseline : RevisionStats
}.

Record thresholds := mkThresholds {
  th_window : interval;
  th_error_rate_tolerance : Q;
  th_latency_tolerance : Q;
  th_min_observations : Z
}.

Definition defaults : thresholds :=
  mkThresholds (600 * 1000000) DEFAULT_ERROR_RATE_TOLERANCE DEFAULT_LATENCY_TOLERANCE DEFAULT_MIN_OBSERVATIONS.

Definition breaches (th : thresholds) (c b : RevisionStats) : list reason_of :=
  let delta := (rs_error_rate c - rs_error_rate b)%Q in
  let ratio := (rs_p95_latency_ms c / rs_p95_latency_ms b)%Q in
  (if Qltb (th_error_rate_tolerance th) delta
   then [ErrorRateRose delta (rs_error_rate b) (rs_error_rate c) (th_error_rate_tolerance th)] else [])
  ++ (if Qltb 0 (rs_p95_latency_ms b) && Qltb (th_latency_tolerance th) ratio
      then [LatencyRose ratio (rs_p95_latency_ms b) (rs_p95_latency_ms c) (th_latency_tolerance th)] else []).

Definition evaluate_canary {metrics : MetricsSource} (th : thresholds) (candidate baseline : string) : M db CanaryVerdict :=
  c <- stats candidate (th_window th) ;;
  b <- stats baseline (th_window th) ;;
  if rs_observations c <? th_min_observations th then
    ret (mkVerdict Hold [InsufficientSample (rs_observations c) (th_min_observations th)] c b)
  else
    match breaches th c b with
    | [] => ret (mkVerdict Promote_ [NoBreach (rs_observations c)] c b)
    | reasons => ret (mkVerdict Rollback_ reasons c b)
    end.

(** * The actions *)

Definition is_revision (revision : string) (r : release_row) : bool := String.eqb (rl_revision r) revision.

Definition is_active (r : release_row) : bool := bool_decide (rl_status r = rl_active).

Definition register (now : timestamp) (revision image_tag schema_version : string) : M db unit :=
  tx (found <- sql_select (is_revision revision) ;;
      match found with
      | [] => sql_insert (mkRelease revision image_tag schema_version rl_candidate 0 None None None now)
      | _ => ret tt
      end).

(** [SELECT ... WHERE status = 'active'] with [scalar_one_or_none()] or [one_or_none()]. *)
Definition active_release : M db (option release_row) :=
  found <- sql_select is_active ;;
  one_or_none found.

Definition set_canary (weight : Z) (r : release_row) : release_row :=
  r <| rl_status := rl_canary |> <| rl_weight := weight |>.

Definition set_weight (weight : Z) (r : release_row) : release_row := r <| rl_weight := weight |>.

(** [release_weight_range] is checked on the rows the two UPDATEs touch, the active one among them. *)
Definition start_canary (candidate : string) (weight : Z) : M db unit :=
  tx (active <- active_release ;;
      match active with
      | None => raise (RuntimeError "no active revision to canary against")
      | Some a =>
          guard ((0 <=? weight) && (weight <=? 100)) (IntegrityError "release_weight_range") ;;
          sql_update (is_revision candidate) (set_canary weight) ;;
          sql_update (is_revision (rl_revision a)) (set_weight (100 - weight)) ;;
          ret tt
      end).

Definition set_rolled_back (now : timestamp) (reason : string) (r : release_row) : release_row :=
  r <| rl_status := rl_rolled_back |> <| rl_weight := 0 |> <| rl_rolled_back_at := Some now |>
    <| rl_rollback_reason := Some (str_take 2000 reason) |>.

Record rollback_result := mkRollback {
  rr_rolled_back : string;
  rr_traffic_restored_to : option string;
  rr_reason : string;
  rr_schema_rollback_required : bool;
  rr_candidate_schema : option string;
  rr_active_schema : option string
}.

Definition rollback_json (r : rollback_result) : json :=
  JObj [("rolled_back", JStr (rr_rolled_back r)); ("traffic_restored_to", opt_str (rr_traffic_restored_to r));
        ("reason", JStr (rr_reason r)); ("schema_rollback_required", JBool (rr_schema_rollback_required r));
        ("candidate_schema", opt_str (rr_candidate_schema r)); ("active_schema", opt_str (rr_active_schema r))].

Section actions.
Context `{AuditEnv}.
(** The texts of the reasons. *)
Variable explain : reason_of → string.

Definition audited (now : timestamp) (ctx : option RequestContext) (action resource : string) (detail : json) : M db unit :=
  match ctx with
  | Some c => audit_record now c action SUCCEEDED "release" resource detail false ;; ret tt
  | None => ret tt
  end.

Definition rollback_rows (now : timestamp) (candidate reason : string) : M db rollback_result :=
  active <- active_release ;;
  found <- sql_select (is_revision candidate) ;;
  candidate_row <- one_or_none found ;;
  sql_update (is_revision candidate) (set_rolled_back now reason) ;;
  match active with
  | Some a => sql_update (is_revision (rl_revision a)) (set_weight 100) ;; ret tt
  | None => ret tt
  end ;;
  ret (mkRollback candidate (option_map rl_revision active) reason
         (match active, candidate_row with
          | Some a, Some c => negb (String.eqb (rl_schema_version c) (rl_schema_version a))
          | _, _ => false
          end)
         (option_map rl_schema_version candidate_row) (option_map rl_schema_version active)).

Definition rollback (now : timestamp) (ctx : option RequestContext) (candidate reason : string) : M db rollback_result :=
  r <- tx (rollback_rows now candidate reason) ;;
  audited now ctx "release.rollback" candidate (rollback_json r) ;;
  ret r.

Definition set_retired (r : release_row) : release_row := r <| rl_status := rl_retired |> <| rl_weight := 0 |>.

Definition set_active (now : timestamp) (r : release_row) : release_row :=
  r <| rl_status := rl_active |> <| rl_weight := 100 |> <| rl_promoted_at := Some now |>.

(** [if previous:] is false for an empty revision too. *)
Definition promote_rows (now : timestamp) (candidate : string) : M db (option string) :=
  active <- active_release ;;
  let previous := option_map rl_revision active in
  match previous with
  | Some p => if String.eqb p "" then ret tt else sql_update (is_revision p) set_retired ;; ret tt
  | None => ret tt
  end ;;
  sql_update (is_revision candidate) (set_active now) ;;
  ret previous.

Definition promote (now : timestamp) (ctx : option RequestContext) (candidate : string) : M db (option string) :=
  previous <- tx (promote_rows now candidate) ;;
  audited now ctx "release.promoted" candidate (JObj [("promoted", JStr candidate); ("retired", opt_str previous)]) ;;
  ret previous.

Definition routed (r : release_row) : bool :=
  (bool_decide (rl_status r = rl_active) || bool_decide (rl_status r = rl_canary)) && (0 <? rl_weight r).

Definition traffic_split : M db (list (string * Z)) :=
  found <- tx (sql_select routed) ;;
  ret (map (fun r => (rl_revision r, rl_weight r)) found).

Fixpoint joined (l : list reason_of) : string :=
  match l with
  | [] => ""
  | [x] => explain x
  | x :: l' => explain x +:+ "; " +:+ joined l'
  end.

Definition supervise {metrics : MetricsSource} (now : timestamp) (ctx : option RequestContext) (th : thresholds)
    (candidate baseline : string) : M db CanaryVerdict :=
  verdict <- evaluate_canary th candidate baseline ;;
  match cv_action verdict with
  | Rollback_ => rollback now ctx candidate (joined (cv_reasons verdict)) ;; ret tt
  | Promote_ => promote now ctx candidate ;; ret tt
  | Hold => ret tt
  end ;;
  ret verdict.

(** * The pipeline *)

Inductive action :=
| Register (now : timestamp) (revision image_tag schema_version : string)
| Observe (now : timestamp) (fault : option exn) (revision route : string) (success : bool) (latency_ms : Q) (code : option Z)
| Start (candidate : string) (weight : Z)
| Supervise (now : timestamp) (ctx : option RequestContext) (th : thresholds) (candidate baseline : string)
| Rollback (now : timestamp) (ctx : option RequestContext) (candidate reason : string)
| Promote (now : timestamp) (ctx : option RequestContext) (candidate : string).

Definition exec (a : action) (d : db) : db :=
  match a with
  | Register now r i s => (register now r i s d).2
  | Observe now f r u o l c => (observe now f r u o l c d).2
  | Start c w => (start_canary c w d).2
  | Supervise now ctx th c b => (supervise (metrics := PostgresMetrics now) now ctx th c b d).2
  | Rollback now ctx c r => (rollback now ctx c r d).2
  | Promote now ctx c => (promote now ctx c d).2
  end.

Fixpoint exec_all (l : list action) (d : db) : db :=
  match l with [] => d | a :: l' => exec_all l' (exec a d) end.

(** What a pipeline keeps to: revisions have names, one canary at a time, of a registered
    revision that is not the active one; and it judges, rolls back or promotes no other revision meanwhile. *)
Definition with_status (st : release_status) (d : db) : list string :=
  map rl_revision (select_where (fun r => bool_decide (rl_status r = st)) (releases d)).

Definition registered (c : string) (d : db) : bool := existsb (is_revision c) (releases d).

Definition free_for (c : string) (d : db) : bool := forallb (String.eqb c) (with_status rl_canary d).

Definition disciplined (a : action) (d : db) : bool :=
  match a with
  | Register _ revision _ _ => negb (String.eqb revision "")
  | Observe _ _ _ _ _ _ _ => true
  | Start c w =>
      registered c d && negb (existsb (String.eqb c) (with_status rl_active d)) && bool_decide (with_status rl_canary d = [])
  | Supervise _ _ _ c _ => registered c d && negb (existsb (String.eqb c) (with_status rl_active d)) && free_for c d
  | Rollback _ _ c _ => negb (existsb (String.eqb c) (with_status rl_active d)) && free_for c d
  | Promote _ _ c => registered c d && free_for c d
  end.

Fixpoint disciplined_all (l : list action) (d : db) : bool :=
  match l with [] => true | a :: l' => disciplined a d && disciplined_all l' (exec a d) end.

End actions.

(** * Who gets the traffic *)

(** How a row looks when [a] is active and [k], if any, is a canary with weight [w]. *)
Definition row_ok (a : string) (k : option string) (w : Z) (r : release_row) : Prop :=
  if String.eqb (rl_revision r) a then rl_status r = rl_active ∧ rl_weight r = 100 - w
  else if eqb_opt String.eqb k (rl_revision r) then rl_status r = rl_canary ∧ rl_weight r = w
  else rl_weight r = 0 ∧ rl_status r ≠ rl_active ∧ rl_status r ≠ rl_canary.

Record layout (a : string) (k : option string) (w : Z) (l : list release_row) : Prop := {
  lay_keys : List.NoDup (map rl_revision l);
  lay_named : ¬ In "" (map rl_revision l);
  lay_active : In a (map rl_revision l);
  lay_canary : ∀ c, k = Some c → In c (map rl_revision l) ∧ c ≠ a;
  lay_range : 0 <= w <= 100;
  lay_none : k = None → w = 0;
  lay_rows : ∀ r, In r l → row_ok a k w r
}.

(** One revision is active, at most one is a canary, and no other gets traffic. *)
Definition traffic_ok (d : db) : Prop := ∃ a k w, layout a k w (releases d).

Lemma layout_map a k w a' k' w' (g : release_row → release_row) l : layout a k w l →
  (∀ r, rl_revision (g r) = rl_revision r) → In a' (map rl_revision l) →
  (∀ c, k' = Some c → In c (map rl_revision l) ∧ c ≠ a') → 0 <= w' <= 100 → (k' = None → w' = 0) →
  (∀ r, In r l → row_ok a k w r → row_ok a' k' w' (g r)) → layout a' k' w' (map g l).
Proof.
  intros L Hg Ha Hk Hw Hn Hr. assert (E : map rl_revision (map g l) = map rl_revision l).
  { rewrite map_map. apply map_ext. apply Hg. }
  constructor; rewrite ?E; try done; [apply L|apply L|]. intros r Hin. apply in_map_iff in Hin as (x & <- & Hx).
  apply Hr; [done|]. by apply (lay_rows a k w l).
Qed.

Lemma is_revision_spec x r : is_revision x r = true ↔ rl_revision r = x.
Proof. apply String.eqb_eq. Qed.

Lemma row_active a k w r : row_ok a k w r → is_active r = true ↔ rl_revision r = a.
Proof.
  unfold row_ok, is_active. rewrite bool_decide_eq_true. destruct (String.eqb (rl_revision r) a) eqn:E.
  - apply String.eqb_eq in E. by intros [-> _].
  - apply String.eqb_neq in E. destruct (eqb_opt _ _ _); [intros [-> _]|intros (_ & ? & _)]; by split.
Qed.

Lemma layout_active a k w d : layout a k w (releases d) → ∃ r, rl_revision r = a ∧ In r (releases d) ∧
  active_release d = (Ok (Some r), d).
Proof.
  intros L. pose proof (lay_active _ _ _ _ L) as Ha. apply in_map_iff in Ha as (r & <- & Hr). exists r. split; [done|split; [done|]].
  unfold active_release, bind, sql_select, gets. cbn [rows table_releases].
  rewrite (select_by_key rl_revision is_active _ r); [done|apply L|done| |].
  - by apply (row_active _ _ _ r (lay_rows _ _ _ _ L r Hr)).
  - intros x Hx Hax. by apply (row_active _ _ _ x (lay_rows _ _ _ _ L x Hx)).
Qed.

Lemma with_status_active a k w d c : layout a k w (releases d) → existsb (String.eqb c) (with_status rl_active d) = true ↔ c = a.
Proof.
  intros L. rewrite existsb_exists. unfold with_status. split.
  - intros (x & Hx & E). apply String.eqb_eq in E as ->. apply in_map_iff in Hx as (r & <- & Hr).
    apply filter_In in Hr as [Hr Hs]. by apply (row_active a k w r (lay_rows _ _ _ _ L r Hr)).
  - intros ->. exists a. split; [|apply String.eqb_refl]. pose proof (lay_active _ _ _ _ L) as Ha.
    apply in_map_iff in Ha as (r & E & Hr). apply in_map_iff. exists r. split; [done|]. apply filter_In. split; [done|].
    by apply (row_active a k w r (lay_rows _ _ _ _ L r Hr)).
Qed.

Lemma with_status_canary a k w d c : layout a k w (releases d) → In c (with_status rl_canary d) ↔ k = Some c.
Proof.
  intros L. unfold with_status. rewrite in_map_iff. split.
  - intros (r & <- & Hr). apply filter_In in Hr as [Hr Hs]. apply bool_decide_eq_true in Hs.
    pose proof (lay_rows _ _ _ _ L r Hr) as Ho. unfold row_ok in Ho. destruct (String.eqb _ _); [by destruct Ho; congruence|].
    destruct (eqb_opt String.eqb k (rl_revision r)) eqn:E; [|by destruct Ho as (_ & _ & [])].
    destruct k as [x|]; [|done]. cbn in E. apply String.eqb_eq in E. by subst.
  - intros ->. destruct (lay_canary _ _ _ _ L c eq_refl) as [Hc Hne]. apply in_map_iff in Hc as (r & <- & Hr).
    exists r. split; [done|]. apply filter_In. split; [done|]. apply bool_decide_eq_true.
    pose proof (lay_rows _ _ _ _ L r Hr) as Ho. unfold row_ok in Ho. apply String.eqb_neq in Hne. rewrite Hne in Ho.
    cbn in Ho. rewrite String.eqb_refl in Ho. apply Ho.
Qed.

Lemma free_for_spec a k w d c : layout a k w (releases d) → free_for c d = true ↔ k = None ∨ k = Some c.
Proof.
  intros L. unfold free_for. rewrite forallb_forall. split.
  - intros H. destruct k as [x|]; [|by left]. right. f_equal. symmetry. apply String.eqb_eq, H. by apply (with_status_canary a (Some x) w).
  - intros H x Hx. apply (with_status_canary a k w d x L) in Hx. apply String.eqb_eq. destruct H; congruence.
Qed.

Lemma registered_spec c d : registered c d = true ↔ In c (map rl_revision (releases d)).
Proof.
  unfold registered. rewrite existsb_exists, in_map_iff. setoid_rewrite is_revision_spec. split; intros (r & ? & ?); by exists r.
Qed.

(** Which of the revisions an action names a row is of. *)
Ltac by_revision r :=
  unfold row_ok, is_revision, eqb_opt;
  repeat (cbn; match goal with
    | |- context [String.eqb (rl_revision r) ?x] => destruct (String.eqb_spec (rl_revision r) x)
    | |- context [String.eqb ?x (rl_revision r)] => destruct (String.eqb_spec x (rl_revision r))
    end);
  cbn; try congruence; try tauto; try by repeat split.

Lemma start_layout a d c w : layout a None 0 (releases d) → In c (map rl_revision (releases d)) → c ≠ a →
  ∃ k' w', layout a k' w' (releases (start_canary c w d).2).
Proof.
  intros L Hc Hne. destruct (layout_active a None 0 d L) as (r & Hr & _ & E).
  unfold start_canary, tx. rewrite (run_bind _ _ _ _ _ E). unfold bind at 1, guard.
  destruct ((0 <=? w) && (w <=? 100)) eqn:Hw; [|by exists None, 0]. bool_to_prop. cbn.
  exists (Some c), w. unfold update_where. rewrite map_map. apply (layout_map a None 0); try done.
  - intros x. by repeat (break_goal; cbn).
  - apply L.
  - by intros x [= <-].
  - intros x Hx Ho. rewrite Hr. revert Ho. by_revision x.
Qed.

(** A canary, if there is one, is rolled back; with none, nobody loses traffic. *)
Lemma rollback_rows_layout a k w d now c why : layout a k w (releases d) → k = None ∨ k = Some c → c ≠ a →
  ∃ res d', rollback_rows now c why d = (Ok res, d') ∧ layout a None 0 (releases d') ∧
    rr_rolled_back res = c ∧ rr_traffic_restored_to res = Some a ∧
    ∀ r, In r (releases d') → rl_revision r = c → rl_status r = rl_rolled_back ∧ rl_weight r = 0.
Proof.
  intros L Hk Hne. destruct (layout_active a k w d L) as (r & Hr & _ & E).
  unfold rollback_rows. rewrite (run_bind _ _ _ _ _ E).
  destruct (select_by_key_one (T := table_releases) rl_revision (is_revision c) c d (lay_keys _ _ _ _ L)) as [[_ Ec]|(rc & _ & _ & Ec)].
  { intros x. apply is_revision_spec. }
  all: unfold bind in Ec; unfold bind at 1; destruct (sql_select (is_revision c) d) as [[l|e] d1] eqn:Es; [|done];
    unfold sql_select, gets in Es; injection Es as _ <-; rewrite (run_bind _ _ _ _ _ Ec); cbn;
    (eexists _, _; split; [reflexivity|]; cbn; split; [|split; [done|split; [by rewrite Hr|]]]).
  all: try (unfold update_where; rewrite map_map; apply (layout_map a k w); try done;
    [intros x; by repeat (break_goal; cbn)|apply L|]; intros x Hx Ho; rewrite Hr; revert Ho; destruct Hk as [->| ->]; by_revision x).
  all: intros y Hy Hyc; unfold update_where in Hy; rewrite map_map in Hy; apply in_map_iff in Hy as (x & <- & Hx);
    revert Hyc; rewrite Hr; by_revision x.
Qed.

Lemma promote_rows_layout a k w d now c : layout a k w (releases d) → k = None ∨ k = Some c →
  In c (map rl_revision (releases d)) →
  ∃ d', promote_rows now c d = (Ok (Some a), d') ∧ layout c None 0 (releases d').
Proof.
  intros L Hk Hc. assert (Ha : a ≠ "") by (intros ->; apply (lay_named _ _ _ _ L), L). destruct (layout_active a k w d L) as (r & Hr & _ & E).
  unfold promote_rows. rewrite (run_bind _ _ _ _ _ E). cbn [option_map]. rewrite Hr. apply String.eqb_neq in Ha as Ha'. rewrite Ha'. cbn.
  eexists. split; [reflexivity|]. cbn. unfold update_where. rewrite map_map. apply (layout_map a k w); try done.
  - intros x. by repeat (break_goal; cbn).
  - intros x Hx Ho. revert Ho. destruct Hk as [->| ->]; by_revision x.
Qed.

Lemma register_layout a k w d now c i s : layout a k w (releases d) → c ≠ "" → layout a k w (releases (register now c i s d).2).
Proof.
  intros L Hc. unfold register, tx, bind, sql_select, gets. cbn [rows table_releases].
  destruct (select_where (is_revision c) (releases d)) as [|x l] eqn:E; [|done].
  assert (Hnew : ¬ In c (map rl_revision (releases d))).
  { intros H. apply in_map_iff in H as (r & Hr & Hin). pose proof (proj1 (select_where_nil _ _) E r Hin) as F.
    assert (is_revision c r = true) by by apply is_revision_spec. congruence. }
  set (r := mkRelease c i s rl_candidate 0 None None None now). change (layout a k w (releases d ++ [r])).
  assert (Hin : ∀ x, In x (map rl_revision (releases d)) → In x (map rl_revision (releases d ++ [r]))).
  { intros x Hx. rewrite map_app. apply in_app_iff. by left. }
  constructor; [rewrite map_app; apply NoDup_snoc; [apply L|done]|rewrite map_app, in_app_iff|apply Hin, L| | |apply L|].
  - intros [H|[H|[]]]; [by apply (lay_named _ _ _ _ L)|by apply Hc].
  - intros x Hx. destruct (lay_canary _ _ _ _ L x Hx) as [H1 H2]. split; [by apply Hin|done].
  - apply L.
  - intros x Hx. apply in_app_iff in Hx as [Hx|[<-|[]]]; [by apply (lay_rows _ _ _ _ L)|]. unfold row_ok, eqb_opt. cbn.
    destruct (String.eqb_spec c a) as [->|_]; [by destruct Hnew; apply L|]. destruct k as [y|]; [|done].
    destruct (String.eqb_spec y c) as [->|_]; [|done]. by destruct Hnew; apply (lay_canary _ _ _ _ L c).
Qed.

Section steps.
Context `{AuditEnv}.
Variable explain : reason_of → string.

Lemma audited_releases now ctx what c detail d : ∃ d', audited now ctx what c detail d = (Ok tt, d') ∧ releases d' = releases d.
Proof.
  unfold audited. destruct ctx as [ctx|]; [|by exists d].
  destruct (audit_record_best_effort now ctx what SUCCEEDED "release" c detail d) as (h & d' & E). exists d'.
  split; [by rewrite (run_bind _ _ _ _ _ E)|]. apply audit_record_only_audit in E. by apply (only_audit_keeps releases).
Qed.

Lemma rollback_layout a k w d now ctx c why : layout a k w (releases d) → k = None ∨ k = Some c → c ≠ a →
  ∃ res d', rollback now ctx c why d = (Ok res, d') ∧ layout a None 0 (releases d') ∧ rr_traffic_restored_to res = Some a ∧
    ∀ r, In r (releases d') → rl_revision r = c → rl_status r = rl_rolled_back ∧ rl_weight r = 0.
Proof.
  intros L Hk Hne. destruct (rollback_rows_layout a k w d now c why L Hk Hne) as (res & d1 & E & L1 & _ & Hr & Hrows).
  unfold rollback. apply tx_ok in E. rewrite (run_bind _ _ _ _ _ E).
  destruct (audited_releases now ctx "release.rollback" c (rollback_json res) d1) as (d2 & E2 & Hd). rewrite (run_bind _ _ _ _ _ E2).
  exists res, d2. by rewrite Hd.
Qed.

Lemma promote_layout a k w d now ctx c : layout a k w (releases d) → k = None ∨ k = Some c →
  In c (map rl_revision (releases d)) → ∃ d', promote now ctx c d = (Ok (Some a), d') ∧ layout c None 0 (releases d').
Proof.
  intros L Hk Hc. destruct (promote_rows_layout a k w d now c L Hk Hc) as (d1 & E & L1).
  unfold promote. apply tx_ok in E. rewrite (run_bind _ _ _ _ _ E).
  match goal with |- context [audited now ctx ?m c ?j] => destruct (audited_releases now ctx m c j d1) as (d2 & E2 & Hd) end.
  rewrite (run_bind _ _ _ _ _ E2). exists d2. by rewrite Hd.
Qed.

(** What [PostgresMetrics] measures. *)
Definition measured (now : timestamp) (revision : string) (window : interval) (d : db) : RevisionStats :=
  let found := select_where (in_window now revision window) (observations d) in
  mkStats revision (count found) (error_share found) (coalesce (percentile_cont (95 # 100) (map ro_latency_ms found)) 0%Q).

Definition verdict_of (th : thresholds) (c b : RevisionStats) : CanaryVerdict :=
  if rs_observations c <? th_min_observations th then
    mkVerdict Hold [InsufficientSample (rs_observations c) (th_min_observations th)] c b
  else match breaches th c b with
       | [] => mkVerdict Promote_ [NoBreach (rs_observations c)] c b
       | reasons => mkVerdict Rollback_ reasons c b
       end.

Lemma evaluate_eq now th c b d : evaluate_canary (metrics := PostgresMetrics now) th c b d =
  (Ok (verdict_of th (measured now c (th_window th) d) (measured now b (th_window th) d)), d).
Proof.
  unfold evaluate_canary, stats, PostgresMetrics, postgres_stats, tx, bind, sql_select, gets, ret. cbn [rows table_observations].
  unfold verdict_of. fold (measured now c (th_window th) d) (measured now b (th_window th) d). cbn [rs_observations measured].
  destruct (_ <? _); [done|]. by destruct (breaches _ _ _).
Qed.

Lemma verdict_action th c b :
  (cv_action (verdict_of th c b) = Hold ↔ rs_observations c < th_min_observations th) ∧
  (cv_action (verdict_of th c b) = Promote_ ↔ th_min_observations th <= rs_observations c ∧ breaches th c b = []) ∧
  (cv_action (verdict_of th c b) = Rollback_ ↔ th_min_observations th <= rs_observations c ∧ breaches th c b ≠ []).
Proof.
  unfold verdict_of. destruct (rs_observations c <? th_min_observations th) eqn:E; bool_to_prop.
  - cbn. repeat split; intros; try lia; try done; by destruct H0.
  - destruct (breaches th c b) as [|x l]; cbn; repeat split; intros; try lia; try done; by destruct H0.
Qed.

Lemma supervise_layout a k w d now ctx th c b : layout a k w (releases d) → k = None ∨ k = Some c → c ≠ a →
  In c (map rl_revision (releases d)) →
  let v := verdict_of th (measured now c (th_window th) d) (measured now b (th_window th) d) in
  ∃ d', supervise explain (metrics := PostgresMetrics now) now ctx th c b d = (Ok v, d') ∧
    match cv_action v with
    | Hold => d' = d
    | Rollback_ => layout a None 0 (releases d') ∧
        ∀ r, In r (releases d') → rl_revision r = c → rl_status r = rl_rolled_back ∧ rl_weight r = 0
    | Promote_ => layout c None 0 (releases d')
    end.
Proof.
  intros L Hk Hne Hc v. unfold supervise. rewrite (run_bind _ _ _ _ _ (evaluate_eq now th c b d)). fold v.
  destruct (cv_action v) eqn:E.
  - destruct (promote_layout a k w d now ctx c L Hk Hc) as (d' & E1 & L1). exists d'. split; [|done].
    unfold bind. by rewrite E1.
  - by exists d.
  - destruct (rollback_layout a k w d now ctx c (joined explain (cv_reasons v)) L Hk Hne) as (res & d' & E1 & L1 & _ & Hr).
    exists d'. split; [|done]. unfold bind. by rewrite E1.
Qed.

Lemma exec_layout a d : traffic_ok d → disciplined a d = true → traffic_ok (exec explain a d).
Proof.
  intros (x & k & w & L) D. destruct a as [now c i s|now f c u o l code|c w'|now ctx th c b|now ctx c why|now ctx c];
    cbn [disciplined exec] in *; rewrite ?andb_true_iff, ?negb_true_iff, <- ?not_true_iff_false, ?registered_spec,
      ?(with_status_active x k w d c L), ?(free_for_spec x k w d c L), ?bool_decide_eq_true, ?String.eqb_eq in D.
  - exists x, k, w. by apply register_layout.
  - exists x, k, w. unfold observe, try_except. by destruct f.
  - destruct D as [[Hc Hne] Hk].
    assert (k = None) as ->.
    { destruct k as [y|]; [|done]. assert (Hin : In y (with_status rl_canary d)) by by apply (with_status_canary x (Some y) w). by rewrite Hk in Hin. }
    rewrite (lay_none _ _ _ _ L eq_refl) in L. destruct (start_layout x d c w' L Hc Hne) as (k' & w2 & L'). by exists x, k', w2.
  - destruct D as [[Hc Hne] Hk]. destruct (supervise_layout x k w d now ctx th c b L Hk Hne Hc) as (d' & -> & Hd). cbn [snd].
    destruct (cv_action _); [by exists c, None, 0|subst d'; by exists x, k, w|]. destruct Hd as [L' _]. by exists x, None, 0.
  - destruct D as [Hne Hk]. destruct (rollback_layout x k w d now ctx c why L Hk Hne) as (res & d' & -> & L' & _). by exists x, None, 0.
  - destruct D as [Hc Hk]. destruct (promote_layout x k w d now ctx c L Hk Hc) as (d' & -> & L'). by exists c, None, 0.
Qed.

End steps.

(** * All of the traffic *)

Lemma sum_select {A} (p : A → bool) (v : A → Z) l : (∀ x, In x l → p x = false → v x = 0) →
  sum_Z (map v (select_where p l)) = sum_Z (map v l).
Proof.
  unfold sum_Z, select_where. induction l as [|x l IH]; intros Hz; [done|]. cbn. destruct (p x) eqn:E; cbn.
  - rewrite IH; [done|]. intros y Hy. apply Hz. by right.
  - rewrite IH; [|intros y Hy; apply Hz; by right]. by rewrite (Hz x (or_introl eq_refl) E).
Qed.

Lemma sum_at (x : string) v l : List.NoDup l →
  sum_Z (map (fun y => if String.eqb y x then v else 0) l) = if in_dec String.string_dec x l then v else 0.
Proof.
  induction 1 as [|y l Hy _ IH]; [done|]. change (sum_Z (map ?f (y :: l))) with (f y + sum_Z (map f l)). rewrite IH.
  destruct (String.eqb_spec y x) as [->|Hne], (in_dec String.string_dec x l), (in_dec String.string_dec x _) as [H|H]; try done; try lia;
    exfalso; try (apply H; by left); try (apply H; by right). by destruct H.
Qed.

Lemma sum_plus {A} (f g : A → Z) l : sum_Z (map (fun x => f x + g x) l) = sum_Z (map f l) + sum_Z (map g l).
Proof. unfold sum_Z. induction l as [|x l IH]; cbn; lia. Qed.

Lemma split_total a k w l : layout a k w l → sum_Z (map rl_weight (select_where routed l)) = 100.
Proof.
  intros L. rewrite sum_select.
  - assert (E : map rl_weight l = map (fun x => (if String.eqb x a then 100 - w else 0) +
      (if String.eqb x (coalesce k "") then w else 0)) (map rl_revision l)).
    { rewrite map_map. apply map_ext_in. intros r Hr. pose proof (lay_rows _ _ _ _ L r Hr) as Ho. unfold row_ok in Ho.
      assert (Hn : rl_revision r ≠ "") by (intros E; apply (lay_named _ _ _ _ L); rewrite <- E; by apply in_map).
      revert Ho. destruct k as [x|]; cbn [coalesce eqb_opt].
      - destruct (lay_canary _ _ _ _ L x eq_refl) as [_ Hx].
        destruct (String.eqb_spec (rl_revision r) a), (String.eqb_spec x (rl_revision r)), (String.eqb_spec (rl_revision r) x);
          intros Ho; try congruence; lia.
      - destruct (String.eqb_spec (rl_revision r) a), (String.eqb_spec (rl_revision r) ""); intros Ho; try congruence; lia. }
    rewrite E, sum_plus, !sum_at by apply L. destruct (in_dec String.string_dec a _) as [_|H]; [|by destruct H; apply L].
    destruct (in_dec String.string_dec (coalesce k "") _) as [_|H]; [lia|]. destruct k as [x|]; [by destruct H; apply (lay_canary _ _ _ _ L x)|].
    rewrite (lay_none _ _ _ _ L eq_refl). lia.
  - intros r Hr Hp. pose proof (lay_rows _ _ _ _ L r Hr) as Ho. pose proof (lay_range _ _ _ _ L). unfold row_ok, routed in *.
    destruct (String.eqb _ _); [destruct Ho as [H1 H2]; rewrite H1 in Hp; change ((0 <? rl_weight r) = false) in Hp; apply Z.ltb_ge in Hp; lia|].
    destruct (eqb_opt _ _ _); [destruct Ho as [H1 H2]; rewrite H1 in Hp; change ((0 <? rl_weight r) = false) in Hp; apply Z.ltb_ge in Hp; lia|]. by destruct Ho.
Qed.

(** A router never has two masters.  Whatever a disciplined pipeline does, in any order
    and for as long as it likes (registering revisions, observing, starting canaries,
    judging them, rolling back, promoting), exactly one revision is active, at most one is a
    canary, every other revision has no traffic, and the router's shares add up to 100. *)
Theorem one_revision_is_active `{AuditEnv} explain h d :
  traffic_ok d → disciplined_all explain h d = true →
  let d' := exec_all explain h d in
  traffic_ok d' ∧ length (with_status rl_active d') = 1%nat ∧ (length (with_status rl_canary d') <= 1)%nat ∧
  ∃ split, traffic_split d' = (Ok split, d') ∧ sum_Z (map snd split) = 100 ∧
    ∀ r, In r (releases d') → rl_status r ≠ rl_active → rl_status r ≠ rl_canary → rl_weight r = 0.
Proof.
  intros T D d'. assert (T' : traffic_ok d').
  { unfold d'. clear d'. revert d T D. induction h as [|a h IH]; intros d T D; [done|]. cbn [disciplined_all exec_all] in *.
    apply andb_true_iff in D as [D1 D2]. apply IH; [|done]. by apply exec_layout. }
  split; [done|]. destruct T' as (a & k & w & L).
  assert (Hnd : ∀ st, List.NoDup (with_status st d')) by (intros st; apply NoDup_map_filter, L).
  split; [|split].
  - apply Nat.le_antisymm.
    + apply (NoDup_incl_length (l' := [a]) (Hnd rl_active)). intros x Hx. left. symmetry.
      apply (with_status_active a k w d' x L), existsb_exists. exists x. split; [done|apply String.eqb_refl].
    + destruct (with_status rl_active d') as [|x l] eqn:E; [|cbn; lia].
      assert (H1 := proj2 (with_status_active a k w d' a L) eq_refl). by rewrite E in H1.
  - apply (NoDup_incl_length (l' := [coalesce k ""]) (Hnd rl_canary)). intros x Hx. left.
    apply (with_status_canary a k w d' x L) in Hx as ->. done.
  - eexists. split; [reflexivity|]. split.
    + rewrite map_map. apply (split_total a k w _ L).
    + intros r Hr H1 H2. pose proof (lay_rows _ _ _ _ L r Hr) as Ho. unfold row_ok in Ho.
      destruct (String.eqb _ _); [by destruct Ho|]. destruct (eqb_opt _ _ _); by destruct Ho.
Qed.

(** A canary is judged by comparison, and acted on.  Supervising the canary of a sound
    pipeline never raises: with fewer observations than needed it changes nothing; on a
    breach (its error rate exceeds the baseline's by more than the tolerance, or its p95
    latency the baseline's by more than the factor) it is rolled back and the active
    revision has all the traffic again; only with enough observations and no breach does
    it become the active revision, with all the traffic. *)
Theorem supervise_spec `{AuditEnv} explain now ctx th a k w c b d :
  layout a k w (releases d) → disciplined (Supervise now ctx th c b) d = true →
  let m rev := measured now rev (th_window th) d in
  let worse := (th_error_rate_tolerance th < rs_error_rate (m c) - rs_error_rate (m b))%Q ∨
    ((0 < rs_p95_latency_ms (m b))%Q ∧ (th_latency_tolerance th < rs_p95_latency_ms (m c) / rs_p95_latency_ms (m b))%Q) in
  ∃ v d', supervise explain (metrics := PostgresMetrics now) now ctx th c b d = (Ok v, d') ∧
    (rs_observations (m c) < th_min_observations th ∧ cv_action v = Hold ∧ d' = d
     ∨ th_min_observations th <= rs_observations (m c) ∧ worse ∧ cv_action v = Rollback_ ∧ layout a None 0 (releases d') ∧
       (∀ r, In r (releases d') → rl_revision r = c → rl_status r = rl_rolled_back ∧ rl_weight r = 0)
     ∨ th_min_observations th <= rs_observations (m c) ∧ ¬ worse ∧ cv_action v = Promote_ ∧ layout c None 0 (releases d')).
Proof.
  intros L D m worse. cbn [disciplined] in D.
  rewrite ?andb_true_iff, ?negb_true_iff, <- ?not_true_iff_false, ?registered_spec, ?(with_status_active a k w d c L),
    ?(free_for_spec a k w d c L) in D. destruct D as [[Hc Hne] Hk].
  destruct (supervise_layout explain a k w d now ctx th c b L Hk Hne Hc) as (d' & E & Hd).
  fold (m c) (m b) in E, Hd. set (v := verdict_of th (m c) (m b)) in *. exists v, d'. split; [done|].
  assert (Hw : breaches th (m c) (m b) ≠ [] ↔ worse).
  { unfold breaches, worse. rewrite <- !Qltb_true. destruct (Qltb (th_error_rate_tolerance th) _); cbn [app].
    - split; [by left|done].
    - destruct (Qltb 0 _), (Qltb (th_latency_tolerance th) _); cbn; (split; [intros ?|intros [?|[? ?]]]); try done; by right. }
  destruct (verdict_action th (m c) (m b)) as (V1 & V2 & V3). fold v in V1, V2, V3.
  destruct (cv_action v) eqn:Ev.
  - right. right. destruct (proj1 V2 eq_refl) as [H1 H2]. split; [done|]. split; [|done]. intros Hworse. by apply Hw in Hworse.
  - left. split; [by apply V1|done].
  - right. left. destruct (proj1 V3 eq_refl) as [H1 H2]. split; [done|]. split; [by apply Hw|]. by destruct Hd.
Qed.

Module CanaryDemo.
#[export] Instance env : AuditEnv := mkAuditEnv (fun s => "sha") (fun _ => "at") (fun j => j) (Some "r2").
Definition explain (_ : reason_of) : string := "worse".
Definition rel (rev : string) (st : release_status) (w : Z) : release_row := mkRelease rev "v1" "0011" st w None None None 0.
Definition d0 : db := empty_db <| releases := [rel "r1" rl_active 100] |>.
Definition seen (rev : string) (ok : bool) (ms : Q) : observation := mkObservation rev "/query" ok None ms 50.
Definition traffic (l : list observation) (d : db) : db := d <| observations := l |>.
(** Twenty good answers of each, then twenty bad ones of the candidate. *)
Definition good : list observation := concat (repeat [seen "r1" true 100; seen "r2" true 110] 20).
Definition bad : list observation := concat (repeat [seen "r1" true 100; seen "r2" false 110] 20).
Definition watch (h : list observation) : list action :=
  map (fun o => Observe (ro_at o) None (ro_revision o) (ro_route o) (ro_success o) (ro_latency_ms o) (ro_status_code o)) h.
Definition ship (h : list observation) : list action :=
  [Register 1 "r2" "v2" "0011"; Start "r2" 10] ++ watch h ++ [Supervise 60 None defaults "r2" "r1"].
Definition split (d : db) : result (list (string * Z)) := (traffic_split d).1.
End CanaryDemo.

#[local] Existing Instance CanaryDemo.env.

Lemma demo_layout : layout "r1" None 0 (releases CanaryDemo.d0).
Proof.
  constructor; try done.
  - repeat constructor. intros [].
  - cbn. intros [H|[]]. discriminate H.
  - by left.
  - intros r [<-|[]]. done.
Qed.

(** Outside the discipline: a canary of the active revision leaves none active, and a
    second canary sends out more than the whole traffic. *)
Example canary_of_the_active_revision :
  let d := exec_all CanaryDemo.explain [Start "r1" 10] CanaryDemo.d0 in
  with_status rl_active d = [] ∧ CanaryDemo.split d = Ok [("r1", 90)] ∧ (start_canary "r2" 10 d).1 = Raise (RuntimeError "no active revision to canary against").
Proof. vm_compute. repeat split. Qed.

Example second_canary_overcommits :
  CanaryDemo.split (exec_all CanaryDemo.explain
    [Register 1 "r2" "v2" "0011"; Register 1 "r3" "v3" "0011"; Start "r2" 10; Start "r3" 10] CanaryDemo.d0)
  = Ok [("r1", 90); ("r2", 10); ("r3", 10)].
Proof. vm_compute. reflexivity. Qed.

(** Promoting a revision nobody registered retires the active one and activates nothing. *)
Example promoting_an_unknown_revision :
  with_status rl_active (exec_all CanaryDemo.explain [Promote 1 None "r9"] CanaryDemo.d0) = [].
Proof. vm_compute. reflexivity. Qed.

Lemma one_revision_is_active_witness :
  let d := exec_all CanaryDemo.explain (CanaryDemo.ship CanaryDemo.bad) CanaryDemo.d0 in
  CanaryDemo.split d = Ok [("r1", 100)] ∧ length (with_status rl_active d) = 1%nat.
Proof.
  intros d. split; [vm_compute; reflexivity|].
  destruct (one_revision_is_active CanaryDemo.explain (CanaryDemo.ship CanaryDemo.bad) CanaryDemo.d0) as (_ & H & _);
    [by exists "r1", None, 0; apply demo_layout|vm_compute; reflexivity|exact H].
Defined.

Lemma supervise_spec_witness :
  let d := CanaryDemo.traffic CanaryDemo.good (exec_all CanaryDemo.explain [Register 1 "r2" "v2" "0011"] CanaryDemo.d0) in
  ∃ v d', supervise CanaryDemo.explain (metrics := PostgresMetrics 60) 60 None defaults "r2" "r1" d = (Ok v, d') ∧
    cv_action v = Promote_ ∧ layout "r2" None 0 (releases d').
Proof.
  intros d.
  assert (L : layout "r1" None 0 (releases d)).
  { apply (register_layout "r1" None 0 CanaryDemo.d0 1 "r2" "v2" "0011"); [apply demo_layout|done]. }
  destruct (supervise_spec CanaryDemo.explain 60 None defaults "r1" None 0 "r2" "r1" d L ltac:(vm_compute; reflexivity))
    as (v & d' & E & H). exists v, d'. split; [done|]. pose proof (f_equal fst E) as Er. vm_compute in Er. injection Er as Er. 
  destruct H as [(_ & H & _)|[(_ & _ & H & _)|(_ & _ & H & L')]]; [exfalso|exfalso|done]; subst v; discriminate H.
Defined.
