(* ===== verification/Documents.v ===== *)
(** Uploading, withdrawing and purging documents ([platform_core/api/routes/documents.py]).

    The bytes go to the object store, the row, the queued rebuild and the audit event to
    one transaction.  Concurrent requests are sequences of requests: what other
    transactions commit inside one is not modelled. *)
From Stdlib Require Import Ascii.
From S2P Require Import Prelude Identity Json Text Db Outbox AuditTrail ObjectStore Chunking.

Definition ALLOWED_SUFFIXES : list string := SUPPORTED_SUFFIXES.
Definition MAX_UPLOAD_BYTES : Z := 50 * 1024 * 1024.

Definition CONTENT_TYPES (sfx : string) : string :=
  if String.eqb sfx ".txt" then "text/plain"
  else if String.eqb sfx ".md" then "text/markdown"
  else if String.eqb sfx ".csv" then "text/csv"
  else if String.eqb sfx ".html" then "text/html"
  else "application/octet-stream".

Record DocumentCreate := mkDocumentCreate {
  dp_collection : string;
  dp_filename : string;
  dp_content_base64 : string
}.

(** The constraints of the fields, checked before the handler runs. *)
Definition collection_char (c : ascii) : bool :=
  let n := N_of_ascii c in
  ((97 <=? n) && (n <=? 122) || (48 <=? n) && (n <=? 57))%N.

Definition collection_name (s : string) : bool :=
  match s with
  | String c s' => collection_char c && forallb (fun x => collection_char x || mem ["_"; "-"] (String x "")) (String.list_ascii_of_string s')
  | EmptyString => false
  end.

Definition valid_payload (p : DocumentCreate) : bool :=
  collection_name (dp_collection p) && (str_len (dp_collection p) <=? 128)
  && nonempty (dp_filename p) && (str_len (dp_filename p) <=? 512).

(** * [base64.b64decode(s, validate=True)] *)

Definition sextet (c : ascii) : option Z :=
  let n := Z.of_N (N_of_ascii c) in
  if (65 <=? n) && (n <=? 90) then Some (n - 65)
  else if (97 <=? n) && (n <=? 122) then Some (n - 71)
  else if (48 <=? n) && (n <=? 57) then Some (n + 4)
  else if n =? 43 then Some 62
  else if n =? 47 then Some 63
  else None.

Definition octet (n : Z) : ascii := ascii_of_N (Z.to_N n).

(** [binascii.a2b_base64] in strict mode: [quad] sextets of the current group were read,
    the last left the bits [left], [pads] of its padding characters were seen. *)
Fixpoint a2b (quad : nat) (left : Z) (pads : nat) (padded : bool) (s : string) : option string :=
  match s with
  | EmptyString => match quad with O => Some "" | _ => None end
  | String c s' =>
      if Ascii.eqb c "=" then
        if (2 <=? quad)%nat && (4 <=? quad + S pads)%nat then (if nonempty s' then None else Some "")
        else a2b quad left (if (2 <=? quad)%nat then S pads else pads) true s'
      else
        match sextet c with
        | None => None
        | Some v =>
            if padded then None
            else match quad with
                 | 0%nat => a2b 1 v 0 false s'
                 | 1%nat => option_map (String (octet (left * 4 + v / 16))) (a2b 2 (v mod 16) 0 false s')
                 | 2%nat => option_map (String (octet (left * 16 + v / 4))) (a2b 3 (v mod 4) 0 false s')
                 | _ => option_map (String (octet (left * 64 + v))) (a2b 0 0 0 false s')
                 end
        end
  end.

Definition b64decode (s : string) : option string := if startswith "=" s then None else a2b 0 0 0 false s.

(** * Rows *)

Definition is_current (x : document) : bool := is_none (dc_superseded_at x).

Definition named (c f : string) (x : document) : bool :=
  String.eqb (dc_collection x) c && String.eqb (dc_filename x) f && is_current x.

Definition by_id (i : uuid) (x : document) : bool := (dc_id x =? i)%N.

(** The primary key and [document_tenant_collection_filename_uniq]. *)
Definition document_clash (x y : document) : bool :=
  by_id (dc_id x) y || is_current x && visible (dc_tenant x) (named (dc_collection x) (dc_filename x)) y.

Definition insert_document (x : document) : M db unit :=
  d <- get ;;
  guard (negb (existsb (document_clash x) (documents d))) (IntegrityError "document_tenant_collection_filename_uniq") ;;
  sql_insert x.

Definition set_superseded_at (now : timestamp) (x : document) : document := x <| dc_superseded_at := Some now |>.
Definition set_superseded_by (i : uuid) (x : document) : document := x <| dc_superseded_by := Some i |>.

(** [ON DELETE CASCADE] on the chunks, [ON DELETE SET NULL] on the link between versions. *)
Definition unlink (i : uuid) (x : document) : document := x <| dc_superseded_by := None |>.

Definition delete_documents (p : document → bool) : M db (list document) :=
  gone <- sql_select p ;;
  sql_delete p ;;
  for_each (map dc_id gone) (fun i =>
    sql_delete (fun y => (ch_document y =? i)%N) ;;
    sql_update (fun x => eqb_opt N.eqb (dc_superseded_by x) i) (unlink i) ;;
    ret tt) ;;
  ret gone.

Record uploaded := mkUploaded {
  up_row : document;
  up_unchanged : bool;
  up_replaced : option uuid;
  up_reindex_run : option uuid
}.

Section documents.
Context `{AuditEnv}.
Variable sha256 : string → string.
(** The release and trace a queued run records. *)
Variables (rel : string) (trace : json).

Definition on_store {A} (m : M bucket A) : M (db * bucket) A := fun s => let (r, b) := m s.2 in (r, (s.1, b)).

Definition REINDEX : string := "reindex".

(** [run.idempotency_key] is a [varchar(200)]. *)
Definition enqueue_reindex (now : timestamp) (fresh : uuid) (serial : Z) (ctx : RequestContext) (c key : string) : M db uuid :=
  guard (str_len key <=? 200) (OtherError "DataError") ;;
  r <- enqueue_run now fresh serial (fun d => d) rel trace ctx REINDEX (JObj [("collection", JStr c)]) (Some key) 3 ;;
  ret (fst r).

Definition audit_document (now : timestamp) (ctx : RequestContext) (action : string) (i : uuid) (detail : json) : M db unit :=
  audit_in_session now (tenant_of ctx) ctx action SUCCEEDED "document" (uuid_str i) detail ;; ret tt.

(** ** Upload *)

Definition storage_key_of (ctx : RequestContext) (c sha sfx : string) : result string :=
  key_for ctx ["documents"; c; sha +:+ sfx].

Definition opt_uuid (o : option uuid) : json := match o with Some i => JStr (uuid_str i) | None => JNull end.

Definition upload_key (c sha : string) : string := "reindex:" +:+ c +:+ ":" +:+ sha.

(** The transaction of an upload. *)
Definition record_upload (now : timestamp) (fresh fresh' : uuid) (serial : Z) (ctx : RequestContext) (c f sha key : string)
    (size : Z) : M db uploaded :=
  let t := tenant_of ctx in
  found <- sql_select (visible t (named c f)) ;;
  existing <- one_or_none found ;;
  match existing with
  | Some x =>
      if String.eqb (dc_sha x) sha then ret (mkUploaded x true None None)
      else
        sql_update (visible t (by_id (dc_id x))) (set_superseded_at now) ;;
        let row := mkDocument fresh t c f sha size key (Some (principal_uuid (principal ctx))) now None None in
        insert_document row ;;
        sql_update (visible t (by_id (dc_id x))) (set_superseded_by fresh) ;;
        run <- enqueue_reindex now fresh' serial ctx c (upload_key c sha) ;;
        audit_document now ctx "document.ingested" fresh
          (JObj [("collection", JStr c); ("content_sha256", JStr sha); ("byte_size", JInt size);
                 ("replaced", JStr (uuid_str (dc_id x)))]) ;;
        ret (mkUploaded row false (Some (dc_id x)) (Some run))
  | None =>
      let row := mkDocument fresh t c f sha size key (Some (principal_uuid (principal ctx))) now None None in
      insert_document row ;;
      run <- enqueue_reindex now fresh' serial ctx c (upload_key c sha) ;;
      audit_document now ctx "document.ingested" fresh
        (JObj [("collection", JStr c); ("content_sha256", JStr sha); ("byte_size", JInt size); ("replaced", JNull)]) ;;
      ret (mkUploaded row false None (Some run))
  end.

(** [store.put] with its [except] clauses. *)
Definition retain (fault : option s3_fault) (ctx : RequestContext) (k content sfx : string) : M bucket unit :=
  try_except (S3ObjectStore.put sha256 fault ctx k content (CONTENT_TYPES sfx) true ;; ret tt)
    (fun e => match e with
              | ConflictError => Some (ret tt)
              | TransientError _ => Some (raise (HTTPException 503))
              | _ => None
              end).

Definition of_result {S A} (r : result A) : M S A := match r with Ok a => ret a | Raise e => raise e end.

Definition create_document (now : timestamp) (fresh fresh' : uuid) (serial : Z) (fault : option s3_fault) (ctx : RequestContext)
    (p : DocumentCreate) : M (db * bucket) uploaded :=
  guard (valid_payload p) (HTTPException 422) ;;
  let sfx := lower (suffix (dp_filename p)) in
  guard (mem ALLOWED_SUFFIXES sfx) (HTTPException 415) ;;
  content <- (match b64decode (dp_content_base64 p) with Some x => ret x | None => raise (HTTPException 400) end) ;;
  guard (nonempty content) (HTTPException 400) ;;
  guard (str_len content <=? MAX_UPLOAD_BYTES) (HTTPException 413) ;;
  let sha := sha256 content in
  key <- of_result (storage_key_of ctx (dp_collection p) sha sfx) ;;
  on_store (retain fault ctx key content sfx) ;;
  on_db (tenant_session (record_upload now fresh fresh' serial ctx (dp_collection p) (dp_filename p) sha key (str_len content))).

(** ** Withdrawal and purge *)

Definition delete_key (c : string) (i : uuid) : string := "reindex:" +:+ c +:+ ":delete:" +:+ uuid_str i.
Definition purge_key (c : string) (i : uuid) : string := "reindex:" +:+ c +:+ ":purge:" +:+ uuid_str i.

(** The collection and the run that will leave the document out. *)
Definition delete_document (now : timestamp) (fresh : uuid) (serial : Z) (ctx : RequestContext) (i : uuid)
    : M (db * bucket) (string * uuid) :=
  let t := tenant_of ctx in
  on_db (tenant_session (
    updated <- sql_update (visible t (fun x => by_id i x && is_current x)) (set_superseded_at now) ;;
    row <- one_or_none updated ;;
    match row with
    | None => raise (HTTPException 404)
    | Some x =>
        run <- enqueue_reindex now fresh serial ctx (dc_collection x) (delete_key (dc_collection x) i) ;;
        audit_document now ctx "document.withdrawn" i
          (JObj [("collection", JStr (dc_collection x)); ("reindex_run_id", JStr (uuid_str run))]) ;;
        ret (dc_collection x, run)
    end)).

Definition withdrawn_at (i : uuid) (x : document) : bool := by_id i x && negb (is_current x).

Definition erase (now : timestamp) (fresh : uuid) (serial : Z) (ctx : RequestContext) (i : uuid) (object_removed : bool) : M db uuid :=
  gone <- delete_documents (visible (tenant_of ctx) (withdrawn_at i)) ;;
  removed <- one_or_none gone ;;
  match removed with
  | None => raise (HTTPException 409)
  | Some x =>
      run <- enqueue_reindex now fresh serial ctx (dc_collection x) (purge_key (dc_collection x) i) ;;
      audit_document now ctx "document.purged" i
        (JObj [("collection", JStr (dc_collection x)); ("object_removed", JBool object_removed);
               ("reindex_run_id", JStr (uuid_str run)); ("irreversible", JBool true)]) ;;
      ret run
  end.

(** Whether an object was removed, and the queued run. *)
Definition purge_document (now : timestamp) (fresh : uuid) (serial : Z) (fault fault' : option s3_fault) (ctx : RequestContext)
    (i : uuid) : M (db * bucket) (bool * uuid) :=
  row <- on_db (tenant_session (found <- sql_select (visible (tenant_of ctx) (by_id i)) ;; one_or_none found)) ;;
  match row with
  | None => raise (HTTPException 404)
  | Some x =>
      guard (negb (is_current x)) (HTTPException 409) ;;
      removed <- try_except (on_store (S3ObjectStore.delete fault fault' ctx (dc_storage_key x)))
                   (fun e => match e with TransientError _ => Some (raise (HTTPException 503)) | _ => None end) ;;
      run <- on_db (tenant_session (erase now fresh serial ctx i removed)) ;;
      ret (removed, run)
  end.

(** ** Reading *)

Definition newest_created (a b : document) : bool := dc_created_at b <=? dc_created_at a.

Definition list_documents (ctx : RequestContext) (collection : option string) (include_superseded : bool)
    : M (db * bucket) (list document) :=
  on_db (tenant_session (
    found <- sql_select (visible (tenant_of ctx) (fun x =>
      (include_superseded || is_current x)
      && (if truthy collection then eqb_opt String.eqb collection (dc_collection x) else true))) ;;
    ret (firstn 200 (order_by newest_created found)))).

Definition get_document (ctx : RequestContext) (i : uuid) : M (db * bucket) document :=
  on_db (row <- tenant_session (found <- sql_select (visible (tenant_of ctx) (by_id i)) ;; one_or_none found) ;;
         match row with None => raise (HTTPException 404) | Some x => ret x end).

(** * Sequences of requests *)

Inductive document_request :=
| Upload (now : timestamp) (fresh fresh' : uuid) (serial : Z) (fault : option s3_fault) (ctx : RequestContext) (p : DocumentCreate)
| Withdraw (now : timestamp) (fresh : uuid) (serial : Z) (ctx : RequestContext) (i : uuid)
| Purge (now : timestamp) (fresh : uuid) (serial : Z) (fault fault' : option s3_fault) (ctx : RequestContext) (i : uuid).

Definition serve (q : document_request) (s : db * bucket) : db * bucket :=
  match q with
  | Upload now fresh fresh' serial fault ctx p => (create_document now fresh fresh' serial fault ctx p s).2
  | Withdraw now fresh serial ctx i => (delete_document now fresh serial ctx i s).2
  | Purge now fresh serial fault fault' ctx i => (purge_document now fresh serial fault fault' ctx i s).2
  end.

Fixpoint serve_all (l : list document_request) (s : db * bucket) : db * bucket :=
  match l with [] => s | q :: l' => serve_all l' (serve q s) end.

End documents.

(** * Keys *)

Lemma chars_app (a b : string) : String.list_ascii_of_string (a +:+ b) = String.list_ascii_of_string a ++ String.list_ascii_of_string b.
Proof.
  induction a as [|c a IH]; [done|].
  change (c :: String.list_ascii_of_string (a +:+ b) = c :: (String.list_ascii_of_string a ++ String.list_ascii_of_string b)).
  by rewrite IH.
Qed.

Lemma chars_inj a b : String.list_ascii_of_string a = String.list_ascii_of_string b → a = b.
Proof. intros E. by rewrite <- (String.string_of_list_ascii_of_string a), E, String.string_of_list_ascii_of_string. Qed.

Lemma chars_length a : length (String.list_ascii_of_string a) = String.length a.
Proof. induction a as [|c a IH]; [done|]. cbn. by rewrite IH. Qed.

Lemma app_suffix_eq (p q a b : string) : String.length a = String.length b → p +:+ a = q +:+ b → a = b ∧ p = q.
Proof.
  intros Hl E. apply (f_equal String.list_ascii_of_string) in E. rewrite !chars_app in E.
  apply app_inj_2 in E as [E1 E2]; [|by rewrite !chars_length]. split; by apply chars_inj.
Qed.

(** No allowed suffix ends another. *)
Lemma suffixes_end_apart p q a b : In a ALLOWED_SUFFIXES → In b ALLOWED_SUFFIXES → p +:+ a = q +:+ b → a = b.
Proof.
  intros Ha Hb E. apply (f_equal (fun s => rev (String.list_ascii_of_string s))) in E. rewrite !chars_app, !rev_app_distr in E.
  destruct Ha as [<-|[<-|[<-|[<-|[]]]]], Hb as [<-|[<-|[<-|[<-|[]]]]]; try done; discriminate E.
Qed.

Lemma key_shape ctx c sha sfx k : storage_key_of ctx c sha sfx = Ok k → ∃ p, k = (p +:+ sha) +:+ sfx.
Proof.
  unfold storage_key_of, key_for. destruct (forallb _ _); [|done]. intros [= <-].
  exists (store_prefix ctx +:+ "documents/" +:+ c +:+ "/"). apply chars_inj.
  change (join "/" ["documents"; c; sha +:+ sfx]) with ("documents/" +:+ (c +:+ ("/" +:+ (sha +:+ sfx)))).
  by rewrite !chars_app, <- !app_assoc.
Qed.

(** A key tells the digest it was made of. *)
Lemma key_digest ctx c sha sfx ctx' c' sha' sfx' k : String.length sha = String.length sha' →
  In sfx ALLOWED_SUFFIXES → In sfx' ALLOWED_SUFFIXES →
  storage_key_of ctx c sha sfx = Ok k → storage_key_of ctx' c' sha' sfx' = Ok k → sha = sha'.
Proof.
  intros Hl H1 H2 E1 E2. apply key_shape in E1 as (p & ->), E2 as (q & E). pose proof (suffixes_end_apart _ _ _ _ H1 H2 E) as ->.
  apply app_suffix_eq in E as [_ E]; [|done]. by destruct (app_suffix_eq _ _ _ _ Hl E).
Qed.

(** * The store under an upload *)

(** A failure of the store is not a report that the object exists. *)
Definition honest (fault : option s3_fault) : bool :=
  match fault with
  | Some (ClientError code status) => negb (mem ["PreconditionFailed"; "412"] (error_code code status))
  | _ => true
  end.

Lemma translate_no_conflict code status : translate code status ≠ ConflictError.
Proof. unfold translate. destruct (mem _ _); [done|]. by destruct (_ || _). Qed.

Lemma retain_cases sha256 fault ctx k content sfx b r b' :
  honest fault = true → retain sha256 fault ctx k content sfx b = (r, b') →
  (∃ e, r = Raise e ∧ b' = b)
  ∨ r = Ok tt ∧ ((∃ o, b !! k = Some o ∧ b' = b)
     ∨ ∃ o, o_body o = content ∧ b !! k = None ∧ b' = <[k := o]> b).
Proof.
  unfold retain, try_except, S3ObjectStore.put, checked, bind, guard, honest. intros Hh.
  destruct (_ && _); [|by intros [= <- <-]; left; eexists]. cbn [ret]. unfold answer, request, ret.
  destruct fault as [f|].
  - destruct f as [code status|]; [|by intros [= <- <-]; left; eexists].
    apply negb_true_iff in Hh. rewrite Hh. pose proof (translate_no_conflict code status) as Ht. intros E. left.
    destruct (translate code status); try done; injection E as <- <-; by eexists.
  - unfold put_object. destruct (b !! k) as [o|] eqn:Ek; cbn.
    + intros [= <- <-]. right. split; [done|]. left. by exists o.
    + intros [= <- <-]. right. split; [done|]. right. eexists. split; [|done]. done.
Qed.

(** * What a transaction leaves alone *)

Section frames.
Context `{AuditEnv}.
Variables (rel : string) (trace : json).

Lemma enqueue_frame {X} (f : db → X) now fresh serial ctx c key d r d' :
  (∀ rs os d, f (d <| runs := rs |> <| outboxes := os |>) = f d) →
  enqueue_reindex rel trace now fresh serial ctx c key d = (r, d') → f d' = f d.
Proof.
  intros Hf. assert (Hp : preserves (fun x => f x = f d) (enqueue_reindex rel trace now fresh serial ctx c key)).
  - assert (Hr : ∀ rs x, f (x <| runs := rs |>) = f x) by (intros rs x; rewrite <- (Hf rs (outboxes x) x); by destruct x).
    assert (Ho : ∀ os x, f (x <| outboxes := os |>) = f x) by (intros os x; rewrite <- (Hf (runs x) os x); by destruct x).
    unfold enqueue_reindex, enqueue_run, insert_run, sql_select. apply preserves_bind; [auto with platform|]. intros _.
    apply preserves_bind; [|auto with platform]. apply preserves_bind.
    { destruct (truthy _); [|auto with platform]. apply preserves_bind; auto with platform. }
    intros [x|]; [auto with platform|]. apply preserves_bind; [by intros y|]. intros _. apply preserves_bind.
    { apply preserves_bind; [auto with platform|]. intros [|? ?]; [|auto with platform].
      apply preserves_bind; [|auto with platform]. intros y Hy. cbn. by rewrite Hr. }
    intros [i []]; cbn; [|auto with platform]. apply preserves_bind; [|auto with platform]. intros y Hy. cbn. by rewrite Ho.
  - intros E. specialize (Hp d eq_refl). by rewrite E in Hp.
Qed.

Lemma audit_frame {X} (f : db → X) now ctx action i detail d r d' :
  (∀ s e x, f (x <| audit_seq := s |> <| audit_events := e |>) = f x) →
  audit_document now ctx action i detail d = (r, d') → f d' = f d.
Proof.
  intros Hf. unfold audit_document, bind.
  destruct (audit_in_session now (tenant_of ctx) ctx action SUCCEEDED "document" (uuid_str i) detail d) as [[h|e] d1] eqn:E;
    intros [= <- <-]; apply audit_in_session_only_audit in E; by apply (only_audit_keeps f).
Qed.

(** The queued run, new or found by its key. *)
Lemma enqueue_reindex_ok now fresh serial ctx c key d i d' :
  enqueue_reindex rel trace now fresh serial ctx c key d = (Ok i, d') → key ≠ "" →
  ∃ r, In r (runs d') ∧ r_id r = i ∧ r_tenant r = tenant_of ctx ∧ r_key r = Some key.
Proof.
  intros E Hk. unfold enqueue_reindex in E. apply bind_ok in E as (u & d0 & Eg & E). unfold guard in Eg.
  destruct (str_len key <=? 200); [|done]. injection Eg as _ <-. apply bind_ok in E as ([j b] & d1 & E & Er). injection Er as <- <-.
  assert (Hs : ∀ d0 x, In x (select_where (visible (tenant_of ctx) (same_key (tenant_of ctx) (Some key))) (runs d0)) →
    In x (runs d0) ∧ r_tenant x = tenant_of ctx ∧ r_key x = Some key).
  { intros d0 x Hx. apply filter_In in Hx as [Hx Hv]. split; [done|]. unfold visible, same_key, eqb_opt in Hv.
    destruct (r_key x); bool_to_prop; [|done]. by subst. }
  unfold enqueue_run in E. assert (Hkey : py_or (Some key) (Identity.idempotency_key ctx) = Some key).
  { unfold py_or, truthy. apply String.eqb_neq in Hk. by rewrite Hk. }
  rewrite Hkey in E. assert (Ht : truthy (Some key) = true) by (unfold truthy; apply String.eqb_neq in Hk; by rewrite Hk).
  rewrite Ht in E. apply bind_ok in E as (ex & d2 & E1 & E). apply bind_ok in E1 as (found & d3 & E0 & E1).
  unfold sql_select, gets in E0. injection E0 as <- <-. destruct ex as [x|].
  - injection E as <- _ <-. exists x.
    assert (d2 = d ∧ In x (select_where (visible (tenant_of ctx) (same_key (tenant_of ctx) (Some key))) (runs d))) as [-> Hx].
    { unfold one_or_none in E1. cbn [rows table_runs] in E1. destruct (select_where _ _) as [|y [|? ?]]; try done.
      injection E1 as -> <-. split; [done|by left]. }
    apply Hs in Hx as (? & ? & ?). done.
  - assert (d2 = d) as -> by (unfold one_or_none in E1; destruct (select_where _ _) as [|? [|? ?]]; by injection E1).
    apply bind_ok in E as (u2 & d4 & E2 & E). injection E2 as _ <-. apply bind_ok in E as ([j' ins] & d4 & E2 & E).
    unfold insert_run in E2. apply bind_ok in E2 as (found & d5 & E0 & E2). unfold sql_select, gets in E0. injection E0 as <- <-.
    cbn [rows table_runs] in E2.
    assert (Hs2 : ∀ x, In x (select_where (same_key (r_tenant (new_run now fresh ctx REINDEX (JObj [("collection", JStr c)]) (Some key) 3 rel))
      (r_key (new_run now fresh ctx REINDEX (JObj [("collection", JStr c)]) (Some key) 3 rel))) (runs d)) →
      In x (runs d) ∧ r_tenant x = tenant_of ctx ∧ r_key x = Some key).
    { intros x Hx. apply filter_In in Hx as [Hx Hv]. split; [done|]. unfold same_key, eqb_opt in Hv. cbn in Hv.
      destruct (r_key x); bool_to_prop; [|done]. by subst. }
    destruct (select_where _ _) as [|x l].
    + injection E2 as <- <- <-. injection E as <- _ <-. eexists. split; [apply in_app_iff; right; by left|done].
    + injection E2 as <- <- <-. cbn in E. injection E as <- _ <-. exists x. destruct (Hs2 x (or_introl eq_refl)) as (? & ? & ?). done.
Qed.

End frames.

(** * The table of documents *)

(** Ids are unique, and a name has one current document. *)
Record documents_wf (d : db) : Prop := {
  dw_ids : List.NoDup (map dc_id (documents d));
  dw_current : ∀ x y, In x (documents d) → In y (documents d) → is_current x = true → is_current y = true →
    dc_tenant x = dc_tenant y → dc_collection x = dc_collection y → dc_filename x = dc_filename y → dc_id x = dc_id y
}.

(** What a row says of a document, apart from its fate. *)
Definition identity (x : document) : uuid * uuid * string * string * string * string :=
  (dc_id x, dc_tenant x, dc_collection x, dc_filename x, dc_sha x, dc_storage_key x).

(** Rows may go, and lose their currency; nothing else happens to them. *)
Definition shrunk (l l' : list document) : Prop :=
  List.NoDup (map dc_id l') ∧ ∀ y, In y l' → ∃ x, In x l ∧ identity y = identity x ∧
  (is_current y = true → is_current x = true).

Lemma shrunk_refl l : List.NoDup (map dc_id l) → shrunk l l.
Proof. intros Hn. split; [done|]. intros y Hy. by exists y. Qed.

Lemma shrunk_trans l1 l2 l3 : shrunk l1 l2 → shrunk l2 l3 → shrunk l1 l3.
Proof.
  intros [_ H1] [Hn H2]. split; [done|]. intros z Hz. destruct (H2 z Hz) as (y & Hy & E1 & C1).
  destruct (H1 y Hy) as (x & Hx & E2 & C2). exists x. split; [done|]. split; [congruence|auto].
Qed.

Lemma shrunk_wf d d' : documents_wf d → shrunk (documents d) (documents d') → documents_wf d'.
Proof.
  intros W [Hn Hs]. constructor; [done|]. intros x y Hx Hy Cx Cy E1 E2 E3.
  destruct (Hs x Hx) as (x0 & Hx0 & Ix & Ex), (Hs y Hy) as (y0 & Hy0 & Iy & Ey). unfold identity in Ix, Iy.
  injection Ix as A1 A2 A3 A4 A5 A6. injection Iy as B1 B2 B3 B4 B5 B6. rewrite A1, B1.
  apply (dw_current d W); auto; congruence.
Qed.

Lemma shrunk_delete p l : List.NoDup (map dc_id l) → shrunk l (delete_where p l).
Proof.
  intros Hn. split; [by apply NoDup_map_filter|]. intros y Hy. apply in_delete_where in Hy as [Hy _]. by exists y.
Qed.

Lemma shrunk_update p f l : List.NoDup (map dc_id l) → (∀ x, identity (f x) = identity x) →
  (∀ x, is_current (f x) = true → is_current x = true) → shrunk l (update_where p f l).
Proof.
  intros Hn Hi Hc. split.
  - rewrite map_update_where; [done|]. intros x. specialize (Hi x). unfold identity in Hi. congruence.
  - intros y Hy. apply in_update_where in Hy as (x & Hx & ->). exists x. split; [done|]. destruct (p x); [|done]. split; [done|apply Hc].
Qed.

Lemma named_spec t c f x : visible t (named c f) x = true ↔
  dc_tenant x = t ∧ dc_collection x = c ∧ dc_filename x = f ∧ is_current x = true.
Proof.
  unfold visible, named, row_tenant, tenant_documents. rewrite !andb_true_iff, N.eqb_eq, !String.eqb_eq. tauto.
Qed.

Lemma by_id_spec t i x : visible t (by_id i) x = true ↔ dc_tenant x = t ∧ dc_id x = i.
Proof. unfold visible, by_id, row_tenant, tenant_documents. by rewrite andb_true_iff, !N.eqb_eq. Qed.

Lemma named_cases t c f d : documents_wf d → let m := (found <- sql_select (visible t (named c f)) ;; one_or_none found) in
  (∀ x, In x (documents d) → visible t (named c f) x = false) ∧ m d = (Ok None, d)
  ∨ ∃ x, In x (documents d) ∧ visible t (named c f) x = true ∧ m d = (Ok (Some x), d).
Proof.
  intros W m. unfold m, bind, sql_select, gets. cbn [rows table_documents].
  destruct (select_where (visible t (named c f)) (documents d)) as [|x l] eqn:E.
  - left. split; [by apply select_where_nil|done].
  - right. exists x. assert (Hx : In x (documents d) ∧ visible t (named c f) x = true).
    { apply filter_In. unfold select_where in E. rewrite E. by left. }
    destruct Hx as [Hin Hv]. split; [done|split; [done|]]. pose proof Hv as Hv'. apply named_spec in Hv' as (H1 & H2 & H3 & H4).
    rewrite (select_by_key dc_id _ _ x (dw_ids d W) Hin Hv) in E; [by injection E as <-|].
    intros y Hy Hvy. apply named_spec in Hvy as (K1 & K2 & K3 & K4). apply (dw_current d W); try done; congruence.
Qed.

(** What becomes of the version an upload replaces. *)
Definition retire (now : timestamp) (fresh : uuid) (x : document) : document :=
  x <| dc_superseded_at := Some now |> <| dc_superseded_by := Some fresh |>.

Definition retired (t : uuid) (now : timestamp) (fresh : uuid) (old : option uuid) (l : list document) : list document :=
  match old with
  | Some i => update_where (visible t (by_id i)) (retire now fresh) l
  | None => l
  end.

Section rows.
Context `{AuditEnv}.
Variables (rel : string) (trace : json).

Lemma insert_document_ok x d u d' : insert_document x d = (Ok u, d') →
  d' = d <| documents := documents d ++ [x] |> ∧ (∀ y, In y (documents d) → document_clash x y = false).
Proof.
  unfold insert_document. intros E. apply bind_ok in E as (d0 & d1 & E0 & E). injection E0 as <- <-.
  apply bind_ok in E as (v & d1 & Eg & E). unfold guard in Eg. destruct (negb _) eqn:Hc; [|done]. injection Eg as _ <-.
  injection E as _ <-. split; [done|]. intros y Hy. apply negb_true_iff in Hc. apply not_true_iff_false. intros Hy'.
  apply not_true_iff_false in Hc. apply Hc. apply existsb_exists. by exists y.
Qed.

(** An upload that changes something: a new current row, its predecessor retired. *)
Definition recorded (now : timestamp) (fresh : uuid) (t : uuid) (c f sha key : string) (size : Z) (d : db) (u : uploaded)
    (docs : list document) : Prop :=
  let x := up_row u in
  dc_id x = fresh ∧ dc_tenant x = t ∧ dc_collection x = c ∧ dc_filename x = f ∧ dc_sha x = sha ∧ dc_storage_key x = key ∧
  dc_size x = size ∧ is_current x = true ∧ ¬ In fresh (map dc_id (documents d)) ∧
  docs = retired t now fresh (up_replaced u) (documents d) ++ [x] ∧
  (∀ i, up_replaced u = Some i ↔ ∃ y, In y (documents d) ∧ dc_id y = i ∧ visible t (named c f) y = true).

Lemma queue_frame now fresh' serial ctx c key action i (detail : uuid → json) {A} (g : uuid → A) d a d' : key ≠ "" →
  (run <- enqueue_reindex rel trace now fresh' serial ctx c key ;; audit_document now ctx action i (detail run) ;; ret (g run)) d
    = (Ok a, d') →
  documents d' = documents d ∧ chunks d' = chunks d ∧
  ∃ run r, a = g run ∧ In r (runs d') ∧ r_id r = run ∧ r_tenant r = tenant_of ctx ∧ r_key r = Some key.
Proof.
  intros Hk E. apply bind_ok in E as (run & d1 & E1 & E). apply bind_ok in E as (u & d2 & E2 & E). injection E as <- <-.
  pose proof (enqueue_frame rel trace documents now fresh' serial ctx c key d _ d1 ltac:(done) E1) as H1.
  pose proof (enqueue_frame rel trace chunks now fresh' serial ctx c key d _ d1 ltac:(done) E1) as H2.
  pose proof (audit_frame documents now ctx action i (detail run) d1 _ d2 ltac:(done) E2) as H3.
  pose proof (audit_frame chunks now ctx action i (detail run) d1 _ d2 ltac:(done) E2) as H4.
  pose proof (audit_frame runs now ctx action i (detail run) d1 _ d2 ltac:(done) E2) as H5.
  apply enqueue_reindex_ok in E1 as (r & Hr & Hi & Ht & Hkr); [|done].
  split; [congruence|split; [congruence|]]. exists run, r. rewrite H5. done.
Qed.

(** The two updates of the predecessor, around the insertion of its successor. *)
Lemma retire_around t now fresh i row l : dc_id row ≠ i →
  update_where (visible t (by_id i)) (set_superseded_by fresh)
    (update_where (visible t (by_id i)) (set_superseded_at now) l ++ [row])
  = retired t now fresh (Some i) l ++ [row].
Proof.
  intros Hne. cbn [retired]. unfold update_where. rewrite map_app, map_map. f_equal.
  - apply map_ext. intros y. destruct (visible t (by_id i) y) eqn:Ey.
    + change (visible t (by_id i) (set_superseded_at now y)) with (visible t (by_id i) y). by rewrite Ey.
    + by rewrite Ey.
  - cbn [map]. destruct (visible t (by_id i) row) eqn:Ey; [|done]. by apply by_id_spec in Ey as [_ Ey].
Qed.

Lemma clash_fresh (g : document → document) x l : (∀ y, dc_id (g y) = dc_id y) →
  (∀ y, In y (map g l) → document_clash x y = false) → ¬ In (dc_id x) (map dc_id l).
Proof.
  intros Hg Hc Hi. apply in_map_iff in Hi as (y & Hy & Hin). specialize (Hc (g y) (in_map g l y Hin)).
  unfold document_clash, by_id in Hc. by rewrite Hg, Hy, N.eqb_refl in Hc.
Qed.

Lemma record_upload_ok now fresh fresh' serial ctx c f sha key size d u d' : documents_wf d →
  record_upload rel trace now fresh fresh' serial ctx c f sha key size d = (Ok u, d') →
  let t := tenant_of ctx in
  (up_unchanged u = true ∧ d' = d ∧ In (up_row u) (documents d) ∧ visible t (named c f) (up_row u) = true ∧ dc_sha (up_row u) = sha)
  ∨ (up_unchanged u = false ∧ recorded now fresh t c f sha key size d u (documents d') ∧ chunks d' = chunks d ∧
     ∃ run r, up_reindex_run u = Some run ∧ In r (runs d') ∧ r_id r = run ∧ r_tenant r = t ∧ r_key r = Some (upload_key c sha)).
Proof.
  intros W E t. unfold record_upload in E. fold t in E.
  assert (Hf : ∀ (k : option document → M db uploaded), (found <- sql_select (visible t (named c f)) ;; existing <- one_or_none found ;; k existing) d
    = (existing <- (found <- sql_select (visible t (named c f)) ;; one_or_none found) ;; k existing) d) by (intros k; apply bind_assoc_eq).
  rewrite Hf in E. clear Hf. destruct (named_cases t c f d W) as [[Hn Em]|(x & Hx & Hv & Em)]; rewrite (run_bind _ _ _ _ _ Em) in E.
  - right. apply bind_ok in E as (v & d1 & Ei & E). apply insert_document_ok in Ei as [-> Hc].
    apply queue_frame in E as (E1 & E2 & run & r & -> & Hr); [|done]. split; [done|split; [|split; [by rewrite E2|by exists run, r]]].
    set (row := mkDocument fresh _ _ _ _ _ _ _ _ _ _) in *. unfold recorded. rewrite E1. cbn [up_row up_replaced].
    repeat (split; [done|]). split; [|split; [done|split; [done|]]].
    + apply (clash_fresh (fun y => y) row); [done|]. by rewrite map_id.
    + intros (y & Hy & _ & Hvy). by rewrite (Hn y Hy) in Hvy.
  - destruct (String.eqb (dc_sha x) sha) eqn:Es.
    { left. injection E as <- <-. cbn. apply String.eqb_eq in Es. done. }
    right. apply bind_ok in E as (l & d1 & E1 & E). unfold sql_update in E1. injection E1 as _ <-.
    apply bind_ok in E as (v & d1 & Ei & E). apply insert_document_ok in Ei as [-> Hc].
    apply bind_ok in E as (l2 & d1 & E1 & E). unfold sql_update in E1. injection E1 as _ <-.
    apply queue_frame in E as (E1 & E2 & run & r & -> & Hr); [|done]. split; [done|split; [|split; [by rewrite E2|by exists run, r]]].
    set (row := mkDocument fresh _ _ _ _ _ _ _ _ _ _) in *.
    assert (Hfresh : ¬ In fresh (map dc_id (documents d))).
    { change fresh with (dc_id row). eapply (clash_fresh (fun y => if visible t (by_id (dc_id x)) y then set_superseded_at now y else y));
        [|exact Hc]. intros y. by destruct (visible t (by_id (dc_id x)) y). }
    unfold recorded. rewrite E1. cbn [up_row up_replaced]. repeat (split; [done|]). split; [|split].
    + apply (retire_around t now fresh (dc_id x) row (documents d)). intros Hid. apply Hfresh. change fresh with (dc_id row).
      rewrite Hid. by apply in_map.
    + intros [= <-]. by exists x.
    + intros (y & Hy & <- & Hvy). f_equal. apply named_spec in Hv as (H1 & H2 & H3 & H4), Hvy as (K1 & K2 & K3 & K4).
      apply (dw_current d W); try done; congruence.
Qed.

End rows.

(** * What the requests do *)

Section requests.
Context `{AuditEnv}.
Variables (rel : string) (trace : json).
Variable sha256 : string → string.

(** What the handler checks before it stores anything, and the status it answers with. *)
Definition door (p : DocumentCreate) : option Z :=
  if negb (valid_payload p) then Some 422
  else if negb (mem ALLOWED_SUFFIXES (lower (suffix (dp_filename p)))) then Some 415
  else match b64decode (dp_content_base64 p) with
       | None => Some 400
       | Some content =>
           if negb (nonempty content) then Some 400
           else if negb (str_len content <=? MAX_UPLOAD_BYTES) then Some 413
           else None
       end.

(** An upload past the door: its bytes, its suffix and the key they are stored under. *)
Definition accepted (ctx : RequestContext) (p : DocumentCreate) (content sfx k : string) : Prop :=
  door p = None ∧ sfx = lower (suffix (dp_filename p)) ∧ b64decode (dp_content_base64 p) = Some content ∧
  storage_key_of ctx (dp_collection p) (sha256 content) sfx = Ok k.

(** The object is there already, or it is put there. *)
Definition put_once (b : bucket) (k content : string) (b' : bucket) : Prop :=
  (∃ o, b !! k = Some o ∧ b' = b) ∨ ∃ o, o_body o = content ∧ b !! k = None ∧ b' = <[k := o]> b.

Lemma create_door now fresh fresh' serial fault ctx p s code : door p = Some code →
  create_document sha256 rel trace now fresh fresh' serial fault ctx p s = (Raise (HTTPException code), s).
Proof.
  unfold door, create_document, guard, bind. destruct (valid_payload p); cbn [negb]; [|by intros [= <-]].
  destruct (mem ALLOWED_SUFFIXES _); cbn [negb]; [|by intros [= <-]].
  unfold ret at 1 2. destruct (b64decode _) as [content|]; [|by intros [= <-]]. unfold ret at 1. cbv beta iota.
  destruct (nonempty content); cbn [negb]; [|by intros [= <-]]. destruct (str_len content <=? _); [done|by intros [= <-]].
Qed.

Lemma create_cases now fresh fresh' serial fault ctx p d b r d' b' : honest fault = true →
  create_document sha256 rel trace now fresh fresh' serial fault ctx p (d, b) = (r, (d', b')) →
  (∃ e, r = Raise e ∧ d' = d ∧ (b' = b ∨ ∃ content sfx k, accepted ctx p content sfx k ∧ put_once b k content b'))
  ∨ ∃ u content sfx k, r = Ok u ∧ accepted ctx p content sfx k ∧ put_once b k content b' ∧
      record_upload rel trace now fresh fresh' serial ctx (dp_collection p) (dp_filename p) (sha256 content) k (str_len content) d
        = (Ok u, d').
Proof.
  intros Hh E. destruct (door p) as [code|] eqn:Ed.
  { rewrite (create_door _ _ _ _ _ _ _ _ code Ed) in E. injection E as <- <- <-. left. eexists. split; [done|split; [done|by left]]. }
  pose proof Ed as Hd. unfold door in Hd. destruct (valid_payload p) eqn:H1; [|done]. cbn [negb] in Hd.
  destruct (mem ALLOWED_SUFFIXES _) eqn:H2; [|done]. cbn [negb] in Hd. destruct (b64decode _) as [content|] eqn:H3; [|done].
  destruct (nonempty content) eqn:H4; [|done]. destruct (str_len content <=? MAX_UPLOAD_BYTES) eqn:H5; [|done]. clear Hd.
  unfold create_document, guard in E. rewrite H1, H2, H3 in E. unfold bind at 1 2 3, ret at 1 2 3 in E. rewrite H4, H5 in E.
  unfold bind at 1 2, ret at 1 2 in E.
  destruct (storage_key_of ctx (dp_collection p) (sha256 content) (lower (suffix (dp_filename p)))) as [k|e] eqn:H6.
  2: { injection E as <- <- <-. left. eexists. split; [done|split; [done|by left]]. }
  assert (Ha : accepted ctx p content (lower (suffix (dp_filename p))) k) by done.
  unfold of_result, bind at 1, ret at 1 in E. unfold bind, on_store in E. cbn [fst snd] in E.
  destruct (retain sha256 fault ctx k content _ b) as [r1 b1] eqn:Er.
  destruct (retain_cases _ _ _ _ _ _ _ _ _ Hh Er) as [(e & -> & ->)|[-> Hp]].
  { injection E as <- <- <-. left. eexists. split; [done|split; [done|by left]]. }
  unfold on_db in E. cbn [fst snd] in E.
  match type of E with context [tenant_session ?m d] => destruct (tenant_session m d) as [r2 d2] eqn:Et end.
  injection E as -> -> <-. assert (Hput : put_once b k content b1).
  { destruct Hp as [(o & Ho & ->)|(o & Hb & Hn & ->)]; [left; by exists o|right; by exists o]. }
  destruct r as [u|e].
  - right. exists u, content, (lower (suffix (dp_filename p))), k. unfold tenant_session in Et. apply (proj1 (tx_ok _ _ _ _)) in Et. split; [done|split; [exact Ha|split; [exact Hput|exact Et]]].
  - left. exists e. split; [done|]. split; [by apply tx_raise in Et|]. right. exists content, (lower (suffix (dp_filename p))), k. by split.
Qed.

(** Withdrawal and purge only shrink the table. *)
Lemma delete_shrinks now fresh serial ctx i d b : documents_wf d →
  let s' := (delete_document rel trace now fresh serial ctx i (d, b)).2 in
  shrunk (documents d) (documents s'.1) ∧ s'.2 = b.
Proof.
  intros W s'. pose proof (shrunk_refl (documents d) (dw_ids d W)) as Hr. unfold s', delete_document, on_db. cbn [fst snd].
  match goal with |- context [tenant_session ?m d] => destruct (tenant_session m d) as [r d'] eqn:E end.
  split; [|done]. cbn [fst snd]. destruct r as [a|e]; [|apply tx_raise in E; by subst d'].
  unfold tenant_session in E. apply (proj1 (tx_ok _ _ _ _)) in E. apply bind_ok in E as (l & d1 & E1 & E). unfold sql_update in E1. injection E1 as _ <-.
  apply bind_ok in E as (row & d2 & E1 & E).
  apply one_or_none_same in E1 as ->.
  destruct row as [x|]; [|done]. apply bind_ok in E as (run & d3 & E2 & E). apply bind_ok in E as (u & d4 & E3 & E). injection E as _ <-.
  rewrite (audit_frame documents _ _ _ _ _ _ _ _ ltac:(done) E3), (enqueue_frame rel trace documents _ _ _ _ _ _ _ _ _ ltac:(done) E2).
  by apply shrunk_update; [apply W| |].
Qed.

Lemma cascade_shrinks ids : ∀ d u d', List.NoDup (map dc_id (documents d)) →
  for_each ids (fun i =>
    sql_delete (fun y => (ch_document y =? i)%N) ;;
    sql_update (fun x => eqb_opt N.eqb (dc_superseded_by x) i) (unlink i) ;;
    ret tt) d = (Ok u, d') → shrunk (documents d) (documents d').
Proof.
  induction ids as [|i ids IH]; intros d u d' Hn E; cbn [for_each] in E.
  - injection E as _ <-. by apply shrunk_refl.
  - unfold bind at 1 2 3, sql_delete, sql_update, ret at 1 in E. cbv beta iota in E.
    match type of E with for_each _ _ ?x = _ => set (d1 := x) in E end.
    assert (Hs : shrunk (documents d) (documents d1)) by by apply (shrunk_update (fun x => eqb_opt N.eqb (dc_superseded_by x) i) (unlink i)).
    apply (shrunk_trans _ (documents d1)); [done|]. apply (IH d1 u d'); [apply Hs|done].
Qed.

Lemma delete_documents_ok p d gone d' : List.NoDup (map dc_id (documents d)) → delete_documents p d = (Ok gone, d') →
  shrunk (documents d) (documents d') ∧ gone = select_where p (documents d).
Proof.
  intros Hn E. unfold delete_documents in E. unfold bind at 1 2, sql_select, gets, sql_delete in E. cbv beta iota in E.
  apply bind_ok in E as (u & d1 & E1 & E). injection E as <- <-. split; [|done].
  set (d0 := put (delete_where p (rows d)) d) in E1.
  assert (Hs : shrunk (documents d) (documents d0)) by by apply shrunk_delete.
  apply (shrunk_trans _ (documents d0)); [done|]. apply (cascade_shrinks (map dc_id (select_where p (documents d))) d0 u d1); [apply Hs|exact E1].
Qed.

Lemma store_delete_cases fault fault' ctx k b r b' :
  S3ObjectStore.delete fault fault' ctx k b = (r, b') → b' = b ∨ b' = delete k b.
Proof.
  unfold S3ObjectStore.delete, checked, bind, guard. destruct (_ && _); [|intros [= _ <-]; by left]. cbn [ret].
  unfold answer at 1, request. destruct fault as [[code status|]|]; unfold when, ret; cbn beta iota.
  - destruct (mem _ _); [|intros [= _ <-]; by left]. intros [= _ <-]. by left.
  - intros [= _ <-]. by left.
  - unfold head_object. destruct (b !! k) as [o|]; cbn.
    + unfold answer, request. destruct fault' as [f|]; cbn; intros [= _ <-]; [by left|by right].
    + intros [= _ <-]. by left.
Qed.

Lemma purge_shrinks now fresh serial fault fault' ctx i d b r d' b' : documents_wf d →
  purge_document rel trace now fresh serial fault fault' ctx i (d, b) = (r, (d', b')) →
  shrunk (documents d) (documents d') ∧
  (b' = b ∨ ∃ x, In x (documents d) ∧ visible (tenant_of ctx) (by_id i) x = true ∧ is_current x = false ∧
     b' = delete (dc_storage_key x) b).
Proof.
  intros W E. pose proof (shrunk_refl (documents d) (dw_ids d W)) as Hr. unfold purge_document in E.
  assert (Hkey : ∀ y, visible (tenant_of ctx) (by_id i) y = true → dc_id y = i) by (intros y Hy; by apply by_id_spec in Hy as [_ ?]).
  assert (Hq : ∀ o, (found <- sql_select (visible (tenant_of ctx) (by_id i)) ;; one_or_none found) d = (Ok o, d) →
    on_db (W := bucket) (tenant_session (found <- sql_select (visible (tenant_of ctx) (by_id i)) ;; one_or_none found)) (d, b)
      = (Ok o, (d, b))) by (intros o Eo; unfold on_db, tenant_session, tx; cbn [fst snd]; by rewrite Eo).
  destruct (select_by_key_one (T := table_documents) dc_id (visible (tenant_of ctx) (by_id i)) i d (dw_ids d W) Hkey)
    as [[Hn Em]|(x & Hx & Hv & Em)]; rewrite (run_bind _ _ _ _ _ (Hq _ Em)) in E; clear Em Hq.
  { injection E as <- <- <-. split; [done|by left]. }
  unfold bind at 1, guard in E. destruct (is_current x) eqn:Cx; cbn [negb] in E; [injection E as <- <- <-; split; [done|by left]|].
  unfold ret at 1, bind at 1, try_except, on_store in E. cbn [fst snd] in E.
  destruct (S3ObjectStore.delete fault fault' ctx (dc_storage_key x) b) as [r1 b1] eqn:Ed. apply store_delete_cases in Ed.
  assert (Hb : b1 = b ∨ ∃ y, In y (documents d) ∧ visible (tenant_of ctx) (by_id i) y = true ∧ is_current y = false ∧
    b1 = delete (dc_storage_key y) b) by (destruct Ed as [->| ->]; [by left|right; by exists x]).
  destruct r1 as [removed|e]; [|destruct e; by injection E as <- <- <-].
  unfold bind, on_db in E. cbn [fst snd] in E.
  match type of E with context [tenant_session ?m d] => destruct (tenant_session m d) as [r2 d2] eqn:Et end.
  assert (d' = d2 ∧ b' = b1) as [-> ->] by (by destruct r2; injection E). split; [|done]. clear E.
  destruct r2 as [run|e]; [|apply tx_raise in Et; by subst d2]. unfold tenant_session in Et. apply (proj1 (tx_ok _ _ _ _)) in Et.
  unfold erase in Et. apply bind_ok in Et as (gone & d3 & E1 & Et).
  apply delete_documents_ok in E1 as [Hs ->]; [|apply W]. apply bind_ok in Et as (y & d4 & E1 & Et).
  apply one_or_none_same in E1 as ->. destruct y as [y|]; [|done].
  apply bind_ok in Et as (run' & d5 & E2 & Et). apply bind_ok in Et as (u & d6 & E3 & Et). injection Et as _ <-.
  by rewrite (audit_frame documents _ _ _ _ _ _ _ _ ltac:(done) E3), (enqueue_frame rel trace documents _ _ _ _ _ _ _ _ _ ltac:(done) E2).
Qed.

End requests.

(** * Every current document has its bytes *)

(** The store does not claim what is not there, and nobody purges bytes that a current
    document shares. *)
Definition orderly (q : document_request) (s : db * bucket) : bool :=
  match q with
  | Upload _ _ _ _ fault _ _ => honest fault
  | Withdraw _ _ _ _ _ => true
  | Purge _ _ _ _ _ ctx i =>
      forallb (fun x => negb (visible (tenant_of ctx) (by_id i) x)
        || forallb (fun y => negb (is_current y && String.eqb (dc_storage_key y) (dc_storage_key x))) (documents s.1)) (documents s.1)
  end.

Section bytes.
Context `{AuditEnv}.
Variables (rel : string) (trace : json).
Variable sha256 : string → string.

Fixpoint orderly_all (l : list document_request) (s : db * bucket) : bool :=
  match l with [] => true | q :: l' => orderly q s && orderly_all l' (serve sha256 rel trace q s) end.

Definition has_bytes (b : bucket) (x : document) : Prop :=
  ∃ o, b !! dc_storage_key x = Some o ∧ sha256 (o_body o) = dc_sha x.

(** Under a key an upload can make, the store holds what the key says. *)
Definition bucket_ok (b : bucket) : Prop :=
  ∀ ctx c sha sfx k o, storage_key_of ctx c sha sfx = Ok k → In sfx ALLOWED_SUFFIXES → String.length sha = 64%nat →
    b !! k = Some o → sha256 (o_body o) = sha.

Record retained (s : db * bucket) : Prop := {
  rt_wf : documents_wf s.1;
  rt_bytes : ∀ x, In x (documents s.1) → is_current x = true → has_bytes s.2 x;
  rt_bucket : bucket_ok s.2
}.

(** SHA-256 in hexadecimal. *)
Hypothesis digest_length : ∀ s, String.length (sha256 s) = 64%nat.

Lemma accepted_suffix ctx p content sfx k : accepted sha256 ctx p content sfx k → In sfx ALLOWED_SUFFIXES.
Proof.
  intros (Hd & -> & _). apply mem_spec. unfold door in Hd. destruct (negb (valid_payload p)); [done|].
  by destruct (mem ALLOWED_SUFFIXES _).
Qed.

Lemma put_once_ok ctx p content sfx k b b' : bucket_ok b → accepted sha256 ctx p content sfx k → put_once b k content b' →
  bucket_ok b' ∧ (∃ o, b' !! k = Some o ∧ sha256 (o_body o) = sha256 content) ∧ ∀ x, has_bytes b x → has_bytes b' x.
Proof using digest_length.
  intros Hb Ha Hp. pose proof (accepted_suffix _ _ _ _ _ Ha) as Hs. destruct Ha as (_ & _ & _ & Hk).
  destruct Hp as [(o & Ho & ->)|(o & Ho & Hn & ->)].
  - split; [done|split; [|done]]. exists o. split; [done|]. by apply (Hb ctx (dp_collection p) (sha256 content) sfx k o).
  - split; [|split].
    + intros ctx' c' sha sfx' k' o' Hk' Hs' Hl Ho'. destruct (decide (k' = k)) as [->|Hne].
      * rewrite lookup_insert_eq in Ho'. injection Ho' as <-. rewrite Ho.
        apply (key_digest ctx (dp_collection p) _ sfx ctx' c' sha sfx' k); try done. by rewrite digest_length.
      * rewrite lookup_insert_ne in Ho' by done. by apply (Hb ctx' c' sha sfx' k' o').
    + exists o. by rewrite lookup_insert_eq, Ho.
    + intros x (o' & Ho' & Hx). exists o'. split; [|done]. rewrite lookup_insert_ne; [done|]. congruence.
Qed.

Lemma shrunk_bytes (b' : bucket) l l' : shrunk l l' → (∀ x, In x l → is_current x = true → has_bytes b' x) →
  ∀ y, In y l' → is_current y = true → has_bytes b' y.
Proof.
  intros [_ Hs] Hb y Hy Cy. destruct (Hs y Hy) as (x & Hx & E & C). unfold identity in E. injection E as _ _ _ _ E5 E6.
  unfold has_bytes. rewrite E5, E6. apply Hb; auto.
Qed.

Lemma retired_shrinks t now fresh old l : List.NoDup (map dc_id l) → shrunk l (retired t now fresh old l).
Proof. intros Hn. destruct old as [i|]; [|by apply shrunk_refl]. by apply shrunk_update. Qed.

(** The table after an upload. *)
Lemma recorded_wf now fresh t c f sha key size d u d' : documents_wf d →
  recorded now fresh t c f sha key size d u (documents d') → documents_wf d'.
Proof.
  intros W (R1 & R2 & R3 & R4 & R5 & R6 & R7 & R8 & R9 & R10 & R11).
  pose proof (retired_shrinks t now fresh (up_replaced u) _ (dw_ids d W)) as Hs.
  assert (W1 : documents_wf (d <| documents := retired t now fresh (up_replaced u) (documents d) |>)) by by apply (shrunk_wf d).
  assert (Hout : ∀ x, In x (retired t now fresh (up_replaced u) (documents d)) → is_current x = true →
    dc_tenant x = t → dc_collection x = c → dc_filename x = f → False).
  { intros x Hx Cx X1 X2 X3. destruct (up_replaced u) as [i|] eqn:Eu; cbn [retired] in Hx.
    - apply in_update_where in Hx as (y & Hy & ->). destruct (visible t (by_id i) y) eqn:Ev; [done|].
      destruct (proj1 (R11 i) eq_refl) as (z & Hz & Ez & Vz). apply named_spec in Vz as (Z1 & Z2 & Z3 & Z4).
      assert (dc_id y = i) as Ey by (rewrite <- Ez; apply (dw_current d W); try done; congruence).
      assert (visible t (by_id i) y = true) by by apply by_id_spec. congruence.
    - assert (Hv : visible t (named c f) x = true) by by apply named_spec.
      assert (Hn : None = Some (dc_id x)) by (apply R11; by exists x). done. }
  constructor; rewrite R10.
  - rewrite map_app. apply NoDup_snoc; [apply W1|]. rewrite R1.
    assert (Hm : map dc_id (retired t now fresh (up_replaced u) (documents d)) = map dc_id (documents d)).
    { destruct (up_replaced u); [|done]. by apply map_update_where. }
    by rewrite Hm.
  - intros x y Hx Hy Cx Cy E1 E2 E3. apply in_app_iff in Hx as [Hx|[<-|[]]], Hy as [Hy|[<-|[]]]; try done.
    + by apply (dw_current _ W1).
    + exfalso. apply (Hout x Hx Cx); congruence.
    + exfalso. apply (Hout y Hy Cy); congruence.
Qed.

Lemma serve_retained q s : retained s → orderly q s = true → retained (serve sha256 rel trace q s).
Proof using digest_length.
  intros [W Hb Hk] O. destruct s as [d b]. cbn [fst snd] in *. destruct q as [now fresh fresh' serial fault ctx p|now fresh serial ctx i|now fresh serial fault fault' ctx i];
    cbn [serve].
  - destruct (create_document sha256 rel trace now fresh fresh' serial fault ctx p (d, b)) as [r [d' b']] eqn:E. cbn [snd].
    destruct (create_cases rel trace sha256 _ _ _ _ _ _ _ _ _ _ _ _ O E) as [(e & -> & -> & [->|(content & sfx & k & Ha & Hp)])|(u & content & sfx & k & -> & Ha & Hp & Er)].
    + by constructor.
    + destruct (put_once_ok _ _ _ _ _ _ _ Hk Ha Hp) as (Hk' & _ & Hh). constructor; [done| |done]. intros x Hx Cx. by apply Hh, Hb.
    + destruct (put_once_ok _ _ _ _ _ _ _ Hk Ha Hp) as (Hk' & Hnew & Hh).
      destruct (record_upload_ok rel trace _ _ _ _ _ _ _ _ _ _ _ _ _ W Er) as [(_ & -> & _)|(_ & R & _)].
      * constructor; [done| |done]. intros x Hx Cx. by apply Hh, Hb.
      * constructor; cbn [fst snd]; [by apply recorded_wf in R| |done]. intros x Hx Cx.
        destruct R as (_ & _ & _ & _ & R5 & R6 & _ & _ & _ & R10 & _). rewrite R10 in Hx.
        apply in_app_iff in Hx as [Hx|[<-|[]]].
        -- revert x Hx Cx. apply (shrunk_bytes b' (documents d)); [by apply retired_shrinks, W|]. intros x Hx Cx. by apply Hh, Hb.
        -- unfold has_bytes. by rewrite R5, R6.
  - destruct (delete_shrinks rel trace now fresh serial ctx i d b W) as [Hs E].
    destruct (delete_document rel trace now fresh serial ctx i (d, b)) as [r [d' b']]. cbn [fst snd] in *. subst b'.
    constructor; [by apply (shrunk_wf d)| |done]. by apply (shrunk_bytes b (documents d)).
  - destruct (purge_document rel trace now fresh serial fault fault' ctx i (d, b)) as [r [d' b']] eqn:E. cbn [snd].
    apply purge_shrinks in E as [Hs Hd]; [|done].
    destruct Hd as [->|(x & Hx & Hv & Cx & ->)].
    + constructor; [by apply (shrunk_wf d)| |done]. by apply (shrunk_bytes b (documents d)).
    + constructor; cbn [fst snd]; [by apply (shrunk_wf d)| |].
      * apply (shrunk_bytes (delete (dc_storage_key x) b) (documents d)); [done|]. intros y Hy Cy.
        destruct (Hb y Hy Cy) as (o & Ho & Hsha). exists o. split; [|done]. rewrite lookup_delete_ne; [done|]. intros Ek.
        cbn [orderly fst] in O. rewrite forallb_forall in O. specialize (O x Hx). rewrite Hv in O. cbn [negb orb] in O.
        rewrite forallb_forall in O. specialize (O y Hy). by rewrite Cy, <- Ek, String.eqb_refl in O.
      * intros ctx' c sha sfx k o K1 K2 K3 K4. apply lookup_delete_Some in K4 as [_ K4]. by apply (Hk ctx' c sha sfx k o).
Qed.

End bytes.

(** C22: a document the platform lists as current has its bytes.  Through any sequence of
    uploads, withdrawals and purges by any tenants, whether each succeeds, is refused or
    fails half way, and as long as nobody purges bytes that a current document shares,
    ids stay unique, a file name has at most one current document in its collection, and
    the object under every current document's key has the digest its row records. *)
Theorem current_documents_have_their_bytes `{AuditEnv} rel trace sha256 h s :
  (∀ x, String.length (sha256 x) = 64%nat) → retained sha256 s → orderly_all rel trace sha256 h s = true →
  let s' := serve_all sha256 rel trace h s in
  documents_wf s'.1 ∧ ∀ x, In x (documents s'.1) → is_current x = true → has_bytes sha256 s'.2 x.
Proof.
  intros Hd R O. assert (R' : retained sha256 (serve_all sha256 rel trace h s)); [|by destruct R'].
  revert s R O. induction h as [|q h IH]; intros s R O; [done|]. cbn [orderly_all serve_all] in *.
  apply andb_true_iff in O as [O1 O2]. apply IH; [|done]. by apply serve_retained.
Qed.

(** What an upload does.  A file that is malformed, unsupported, undecodable, empty or
    too large is refused with its own status before anything is stored, and a refused or
    failed upload records nothing.  One that is accepted has its bytes stored under their
    digest, without overwriting; if the current document of that name has these bytes
    nothing else happens; otherwise a new current row is recorded, its predecessor is
    retired and linked to it, no other row and no chunk changes, and a rebuild is queued
    (or was, under the key of the collection and the digest). *)
Theorem upload_spec `{AuditEnv} rel trace sha256 now fresh fresh' serial fault ctx p d b r d' b' :
  documents_wf d → honest fault = true →
  create_document sha256 rel trace now fresh fresh' serial fault ctx p (d, b) = (r, (d', b')) →
  let t := tenant_of ctx in
  match r with
  | Raise e => d' = d ∧ ∀ code, door p = Some code → e = HTTPException code ∧ b' = b
  | Ok u =>
      ∃ content sfx k, accepted sha256 ctx p content sfx k ∧ put_once b k content b' ∧
      let sha := sha256 content in
      if up_unchanged u then
        d' = d ∧ In (up_row u) (documents d) ∧ visible t (named (dp_collection p) (dp_filename p)) (up_row u) = true ∧
        dc_sha (up_row u) = sha
      else
        recorded now fresh t (dp_collection p) (dp_filename p) sha k (str_len content) d u (documents d') ∧ chunks d' = chunks d ∧
        ∃ run r, up_reindex_run u = Some run ∧ In r (runs d') ∧ r_id r = run ∧ r_tenant r = t ∧
          r_key r = Some (upload_key (dp_collection p) sha)
  end.
Proof.
  intros W Hh E t. pose proof (create_cases rel trace sha256 _ _ _ _ _ _ _ _ _ _ _ _ Hh E) as Hc.
  destruct r as [u|e].
  - destruct Hc as [(e & [=] & _)|(u' & content & sfx & k & [= <-] & Ha & Hp & Er)]. exists content, sfx, k.
    split; [done|split; [done|]]. cbv zeta.
    by destruct (record_upload_ok rel trace _ _ _ _ _ _ _ _ _ _ _ _ _ W Er) as [(-> & H1)|(-> & H1)].
  - destruct Hc as [(e' & _ & -> & _)|(u & content & sfx & k & [=] & _)]. split; [done|]. intros code Hd.
    rewrite (create_door rel trace sha256 _ _ _ _ _ _ _ _ code Hd) in E. by injection E as <- <-.
Qed.

Module DocumentsDemo.
#[export] Instance env : AuditEnv := mkAuditEnv (fun s => "sha") (fun _ => "at") (fun j => j) (Some "r2").
Definition zeros : string := "0000000000000000000000000000000000000000000000000000000000000000".
(** Sixty-four characters that tell short files apart. *)
Definition sha (s : string) : string := String.substring 0 64 (s +:+ zeros).
Definition file (name b64 : string) : DocumentCreate := mkDocumentCreate "manuals" name b64.
(** "one" and "two". *)
Definition one : DocumentCreate := file "pump.txt" "b25l".
Definition two : DocumentCreate := file "pump.txt" "dHdv".
Definition upload (n : uuid) (p : DocumentCreate) : document_request :=
  Upload (Z.of_N n) n (100 + n) (Z.of_N n) None Demo.ctx p.
Definition s0 : db * bucket := (empty_db, ∅).
Definition after (l : list document_request) : db * bucket := serve_all sha "r1" JNull l s0.
Definition again (n : uuid) (p : DocumentCreate) (s : db * bucket) : result uploaded :=
  (create_document sha "r1" JNull (Z.of_N n) n (100 + n) (Z.of_N n) None Demo.ctx p s).1.
Definition history : list document_request :=
  [upload 1 one; upload 2 two; upload 3 (file "other.txt" "dHdv"); Withdraw 4 104 4 Demo.ctx 3; Purge 5 105 5 None None Demo.ctx 1].
End DocumentsDemo.

#[local] Existing Instance DocumentsDemo.env.

Lemma demo_digest_length s : String.length (DocumentsDemo.sha s) = 64%nat.
Proof. unfold DocumentsDemo.sha. apply length_substring. rewrite length_sapp. change (String.length DocumentsDemo.zeros) with 64%nat. lia. Qed.

Lemma demo_wf d : documents d = [] → documents_wf d.
Proof. intros E. constructor; rewrite E; [constructor|done]. Qed.

(** Two documents with the same bytes share one object; purging the withdrawn one takes the
    bytes of the other, which stays current. *)
Example purge_takes_shared_bytes :
  let s := DocumentsDemo.after [DocumentsDemo.upload 1 DocumentsDemo.one; DocumentsDemo.upload 2 (DocumentsDemo.file "copy.txt" "b25l");
    Withdraw 3 103 3 Demo.ctx 1; Purge 4 104 4 None None Demo.ctx 1] in
  map dc_filename (List.filter is_current (documents s.1)) = ["copy.txt"] ∧ map_to_list s.2 = [].
Proof. vm_compute. split; reflexivity. Qed.

(** Going back to an earlier content: the upload is answered with the run that indexed it
    the first time, and no rebuild is queued. *)
Example earlier_content_is_not_reindexed :
  let s := DocumentsDemo.after [DocumentsDemo.upload 1 DocumentsDemo.one; DocumentsDemo.upload 2 DocumentsDemo.two] in
  ∃ u, DocumentsDemo.again 3 DocumentsDemo.one s = Ok u ∧ up_unchanged u = false ∧ up_reindex_run u = Some 101%N ∧
    length (runs s.1) = 2%nat ∧ length (runs (serve DocumentsDemo.sha "r1" JNull (DocumentsDemo.upload 3 DocumentsDemo.one) s).1) = 2%nat.
Proof. eexists. vm_compute. repeat split. Qed.

(** A collection name of the longest length allowed makes a key the column cannot hold. *)
Example longest_collection_cannot_be_indexed :
  let c := String.substring 0 128 (DocumentsDemo.zeros +:+ DocumentsDemo.zeros) in
  let p := mkDocumentCreate c "pump.txt" "b25l" in
  door p = None ∧ DocumentsDemo.again 1 p DocumentsDemo.s0 = Raise (OtherError "DataError").
Proof. vm_compute. split; reflexivity. Qed.

Lemma current_documents_have_their_bytes_witness :
  let s := DocumentsDemo.after DocumentsDemo.history in
  map dc_id (List.filter is_current (documents s.1)) = [2%N] ∧
  ∀ x, In x (documents s.1) → is_current x = true → has_bytes DocumentsDemo.sha s.2 x.
Proof.
  intros s. split; [vm_compute; reflexivity|].
  apply (current_documents_have_their_bytes "r1" JNull DocumentsDemo.sha DocumentsDemo.history DocumentsDemo.s0 demo_digest_length).
  - constructor; [by apply demo_wf|by intros x []|]. intros ctx c sha sfx k o _ _ _ Hk. unfold DocumentsDemo.s0 in Hk. cbn in Hk.
    by rewrite lookup_empty in Hk.
  - vm_compute. reflexivity.
Defined.

Lemma upload_spec_witness :
  let s := DocumentsDemo.after [DocumentsDemo.upload 1 DocumentsDemo.one] in
  ∃ u s', create_document DocumentsDemo.sha "r1" JNull 2 2 102 2 None Demo.ctx DocumentsDemo.two s = (Ok u, s') ∧
    up_replaced u = Some 1%N ∧
    recorded 2 2 1 "manuals" "pump.txt" (DocumentsDemo.sha "two") (dc_storage_key (up_row u)) 3 s.1 u (documents s'.1).
Proof.
  intros s. assert (W : documents_wf s.1).
  { constructor; vm_compute.
    - repeat constructor. intros [].
    - intros x y [<-|[]] [<-|[]]. done. }
  destruct (create_document DocumentsDemo.sha "r1" JNull 2 2 102 2 None Demo.ctx DocumentsDemo.two s) as [r [d' b']] eqn:E.
  pose proof (f_equal fst E) as Er. vm_compute in Er. cbn [fst] in Er. destruct r as [u|e]; [|discriminate Er]. injection Er as Eu.
  exists u, (d', b'). split; [done|]. destruct s as [d b] eqn:Es.
  destruct (upload_spec "r1" JNull DocumentsDemo.sha 2 2 102 2 None Demo.ctx DocumentsDemo.two d b (Ok u) d' b' W eq_refl E)
    as (content & sfx & k & (_ & _ & Hc & _) & _ & H). assert (content = "two") as ->.
  { assert (Hb : b64decode (dp_content_base64 DocumentsDemo.two) = Some "two") by (vm_compute; reflexivity). congruence. }
  subst u. cbv zeta in H. cbn [up_unchanged] in H. destruct H as [H _]. split; [reflexivity|].
  pose proof H as (_ & _ & _ & _ & _ & Hk & _). rewrite Hk. exact H.
Defined.
