(* ===== verification/Sessions.v ===== *)
(** Conversations kept in the database ([platform_core/scaling/sessions.py], with
    [platform_purge_expired_sessions] of migration 0023).

    A session's state is a [jsonb] object; [turns] is the one field the code touches. *)
From S2P Require Import Prelude Identity Json Db.

Definition DEFAULT_TTL : interval := 12 * 3600 * 1000000.

Record Session := mkSession {
  sn_id : string;
  sn_tenant_id : uuid;
  sn_principal_id : uuid;
  sn_workload : string;
  sn_state : json;
  sn_turn_count : Z;
  sn_updated_at : timestamp;
  sn_expires_at : timestamp
}.

Definition to_session (x : session_row) : Session :=
  mkSession (ss_id x) (ss_tenant x) (ss_principal x) (ss_workload x) (ss_state x) (ss_turn_count x) (ss_updated_at x)
    (ss_expires_at x).

(** [state->'turns']: SQL NULL where there is no such key or the value is no object. *)
Definition turns_value (state : json) : option json :=
  match state with
  | JObj kvs => option_map snd (List.find (fun kv => String.eqb kv.1 "turns") kvs)
  | _ => None
  end.

(** [jsonb_array_elements(coalesce(state->'turns', '[]'))]: [None] where it raises. *)
Definition turns (state : json) : option (list json) :=
  match turns_value state with
  | None => Some []
  | Some (JArr l) => Some l
  | Some _ => None
  end.

(** [jsonb_set(state, '{turns}', v, true)] of an object. *)
Definition set_turns (l : list json) (state : json) : json :=
  match state with
  | JObj kvs =>
      if is_some (turns_value state)
      then JObj (map (fun kv => if String.eqb kv.1 "turns" then (kv.1, JArr l) else kv) kvs)
      else JObj (kvs ++ [("turns", JArr l)])
  | _ => state
  end.

(** [OFFSET greatest(0, jsonb_array_length(...) + 1 - :max)]. *)
Definition trimmed (max_turns : Z) (l : list json) (turn : json) : list json :=
  skipn (Z.to_nat (Z.max 0 (count l + 1 - max_turns))) (l ++ [turn]).

Definition owned (sid : string) (p : uuid) (x : session_row) : bool := String.eqb (ss_id x) sid && (ss_principal x =? p)%N.

Definition usable (now : timestamp) (sid : string) (p : uuid) (x : session_row) : bool := owned sid p x && (now <? ss_expires_at x).

Definition principal_of (ctx : RequestContext) : uuid := principal_uuid (principal ctx).

(** [session.id] is the primary key of every tenant's sessions. *)
Definition insert_session (x : session_row) : M db unit :=
  d <- get ;;
  guard (negb (existsb (fun y => String.eqb (ss_id y) (ss_id x)) (sessions d))) (IntegrityError "session_pkey") ;;
  sql_insert x.

(** [fresh] is [uuid4().hex]. *)
Definition create (now : timestamp) (fresh : string) (ctx : RequestContext) (workload : string) (ttl : interval)
    (session_id : option string) : M db Session :=
  let sid := if truthy session_id then coalesce session_id fresh else fresh in
  let x := mkSessionRow sid (tenant_of ctx) (principal_of ctx) workload (JObj []) 0 now (now + ttl) in
  tenant_session (insert_session x ;; ret (to_session x)).

Definition load (now : timestamp) (ctx : RequestContext) (sid : string) : M db Session :=
  row <- tenant_session (
    found <- sql_select (visible (tenant_of ctx) (usable now sid (principal_of ctx))) ;;
    one_or_none found) ;;
  match row with
  | None => raise SessionNotFound
  | Some x => ret (to_session x)
  end.

Definition with_turn (now : timestamp) (max_turns : Z) (turn : json) (x : session_row) : session_row :=
  match turns (ss_state x) with
  | Some l => x <| ss_state := set_turns (trimmed max_turns l turn) (ss_state x) |> <| ss_turn_count := ss_turn_count x + 1 |>
                <| ss_updated_at := now |>
  | None => x
  end.

(** What the expression of the UPDATE raises: [jsonb_array_elements] and [jsonb_set] on
    values of another kind, and NULL, which an empty aggregate gives, in the column. *)
Definition turn_fault (max_turns : Z) (turn : json) (x : session_row) : option exn :=
  match ss_state x, turns (ss_state x) with
  | JObj _, Some l =>
      match trimmed max_turns l turn with
      | [] => Some (IntegrityError "session.state")
      | _ => None
      end
  | _, _ => Some (OtherError "DataError")
  end.

Definition append_turn (now : timestamp) (ctx : RequestContext) (sid : string) (turn : json) (max_turns : Z) : M db Session :=
  let p := visible (tenant_of ctx) (usable now sid (principal_of ctx)) in
  row <- tenant_session (
    guard (jsonb_ok turn) (OtherError "DataError") ;;
    matched <- sql_select p ;;
    for_each matched (fun x => match turn_fault max_turns turn x with Some e => raise e | None => ret tt end) ;;
    updated <- sql_update p (with_turn now max_turns turn) ;;
    one_or_none updated) ;;
  match row with
  | None => raise SessionNotFound
  | Some x => ret (to_session x)
  end.

Definition delete_session (ctx : RequestContext) (sid : string) : M db bool :=
  gone <- tenant_session (
    found <- sql_select (visible (tenant_of ctx) (owned sid (principal_of ctx))) ;;
    sql_delete (visible (tenant_of ctx) (owned sid (principal_of ctx))) ;;
    one_or_none found) ;;
  ret (is_some gone).

Definition purge_expired (now : timestamp) : M db Z :=
  relay_session (sql_delete (fun x : session_row => ss_expires_at x <=? now)).

(** * Any number of replicas *)

Inductive action :=
| Create (fresh : string) (ctx : RequestContext) (workload : string) (ttl : interval) (session_id : option string)
| Load (ctx : RequestContext) (sid : string)
| Append (ctx : RequestContext) (sid : string) (turn : json)
| Delete (ctx : RequestContext) (sid : string)
| Purge.

Definition exec (max_turns : Z) (now : timestamp) (a : action) (d : db) : db :=
  match a with
  | Create fresh ctx w ttl sid => (create now fresh ctx w ttl sid d).2
  | Load ctx sid => (load now ctx sid d).2
  | Append ctx sid turn => (append_turn now ctx sid turn max_turns d).2
  | Delete ctx sid => (delete_session ctx sid d).2
  | Purge => (purge_expired now d).2
  end.

(** Requests at the times they are served. *)
Fixpoint exec_all (max_turns : Z) (l : list (timestamp * action)) (d : db) : db :=
  match l with [] => d | (now, a) :: l' => exec_all max_turns l' (exec max_turns now a d) end.

(** Whose session a row is. *)
Definition owned_by (x : session_row) (ctx : RequestContext) : bool :=
  (tenant_of ctx =? ss_tenant x)%N && (principal_of ctx =? ss_principal x)%N.

Definition own_turn (x : session_row) (a : action) : list json :=
  match a with
  | Append ctx sid turn => if String.eqb sid (ss_id x) && owned_by x ctx && jsonb_ok turn then [turn] else []
  | _ => []
  end.

Definition own_turns (x : session_row) (l : list (timestamp * action)) : list json := concat (map (fun na => own_turn x na.2) l).

(** The session is neither deleted by its owner nor outlived. *)
Definition kept_by (x : session_row) (na : timestamp * action) : bool :=
  (na.1 <? ss_expires_at x)
  && match na.2 with Delete ctx sid => negb (String.eqb sid (ss_id x) && owned_by x ctx) | _ => true end.

Definition newest {A} (n : Z) (l : list A) : list A := skipn (Z.to_nat (count l - n)) l.

(** * Lemmas *)

Lemma newest_app_one n (l : list json) turn : 1 <= n → newest n (l ++ [turn]) = newest (n - 1) l ++ [turn].
Proof.
  intros Hn. unfold newest, count. rewrite length_app. cbn [length]. rewrite skipn_app.
  replace (Z.to_nat (Z.of_nat (length l + 1) - n) - length l)%nat with 0%nat by lia. f_equal. f_equal. lia.
Qed.

Lemma newest_newest {A} n m (l : list A) : 0 <= n <= m → newest n (newest m l) = newest n l.
Proof. intros H. unfold newest, count. rewrite skipn_skipn, length_skipn. f_equal. lia. Qed.

Lemma trimmed_newest n (l : list json) turn : trimmed n l turn = newest n (l ++ [turn]).
Proof. unfold trimmed, newest, count. rewrite length_app. cbn [length]. f_equal. lia. Qed.

Lemma newest_snoc n (l : list json) turn : 1 <= n → trimmed n (newest n l) turn = newest n (l ++ [turn]).
Proof.
  intros Hn. unfold trimmed, newest, count. rewrite length_app, length_skipn. cbn [length].
  destruct (Z.le_gt_cases (Z.of_nat (length l)) n) as [H|H].
  - replace (Z.to_nat (Z.of_nat (length l) - n)) with 0%nat by lia. rewrite skipn_O.
    f_equal. lia.
  - rewrite skipn_app, skipn_skipn, length_skipn.
    replace (Z.to_nat (Z.max 0 (Z.of_nat (length l - Z.to_nat (Z.of_nat (length l) - n)) + 1 - n))) with 1%nat by lia.
    rewrite skipn_app. f_equal; [f_equal; lia|]. f_equal. lia.
Qed.

Lemma turns_set l state kvs : state = JObj kvs → turns (set_turns l state) = Some l.
Proof.
  intros ->. unfold set_turns, turns. destruct (turns_value (JObj kvs)) as [v|] eqn:E; cbn [is_some]; cbn [turns_value] in *.
  - induction kvs as [|[k w] kvs IH]; [done|]. cbn in *. destruct (String.eqb k "turns") eqn:Ek; cbn; rewrite Ek; [done|]. by apply IH.
  - induction kvs as [|[k w] kvs IH]; [done|]. cbn in *. destruct (String.eqb k "turns"); [done|]. by apply IH.
Qed.

Lemma set_turns_object l state kvs : state = JObj kvs → ∃ kvs', set_turns l state = JObj kvs'.
Proof. intros ->. unfold set_turns. destruct (is_some _); by eexists. Qed.

Lemma usable_spec t now sid p x : visible t (usable now sid p) x = true ↔
  ss_tenant x = t ∧ ss_id x = sid ∧ ss_principal x = p ∧ now < ss_expires_at x.
Proof.
  unfold visible, usable, owned, row_tenant, tenant_sessions. rewrite !andb_true_iff, !N.eqb_eq, String.eqb_eq, Z.ltb_lt. tauto.
Qed.

Lemma owned_spec t sid p x : visible t (owned sid p) x = true ↔ ss_tenant x = t ∧ ss_id x = sid ∧ ss_principal x = p.
Proof. unfold visible, owned, row_tenant, tenant_sessions. rewrite !andb_true_iff, !N.eqb_eq, String.eqb_eq. tauto. Qed.

Lemma is_owner_spec x ctx : owned_by x ctx = true ↔ tenant_of ctx = ss_tenant x ∧ principal_of ctx = ss_principal x.
Proof. unfold owned_by. by rewrite andb_true_iff, !N.eqb_eq. Qed.

Lemma with_turn_usable t now now' sid p m turn x :
  visible t (usable now sid p) (with_turn now' m turn x) = visible t (usable now sid p) x.
Proof. unfold with_turn. by destruct (turns (ss_state x)). Qed.

(** Appending a turn: it fails and changes nothing, or rewrites the one session that is usable. *)
Lemma append_cases now ctx sid turn m d r d' : append_turn now ctx sid turn m d = (r, d') →
  let p := visible (tenant_of ctx) (usable now sid (principal_of ctx)) in
  (∃ e, r = Raise e ∧ d' = d) ∨
  ∃ x l kvs, select_where p (sessions d) = [x] ∧ ss_state x = JObj kvs ∧ turns (ss_state x) = Some l ∧
    r = Ok (to_session (with_turn now m turn x)) ∧ d' = d <| sessions := update_where p (with_turn now m turn) (sessions d) |>.
Proof.
  intros E p. unfold append_turn, tenant_session in E. apply bind_cases in E as [(e & Et & ->)|(row & d1 & Et & E)].
  { left. exists e. split; [done|]. by apply tx_raise in Et. }
  apply (proj1 (tx_ok _ _ _ _)) in Et. apply bind_ok in Et as (g & d2 & Eg & Et). unfold guard in Eg.
  destruct (jsonb_ok turn); [|done]. injection Eg as _ <-.
  apply bind_ok in Et as (ys & d2 & E1 & Et). injection E1 as <- <-.
  apply bind_ok in Et as (u & d2 & E1 & Et). fold p in E1, Et. cbn [rows table_sessions] in *.
  destruct (select_where p (sessions d)) as [|x [|y l]] eqn:Es.
  - injection E1 as _ <-. apply bind_ok in Et as (upd & d2 & E2 & Et). unfold sql_update in E2. cbn [rows table_sessions] in E2. rewrite Es in E2.
    injection E2 as <- <-. injection Et as <- <-. injection E as <- <-. left. eexists. split; [done|]. cbn [put].
    rewrite update_where_id; [by destruct d|]. by apply (proj1 (select_where_nil _ _)).
  - right. cbn [for_each] in E1. apply bind_ok in E1 as (u' & d3 & E2 & E1). destruct (turn_fault m turn x) eqn:Ef; [done|].
    injection E2 as _ <-. injection E1 as _ <-. apply bind_ok in Et as (upd & d2 & E2 & Et). unfold sql_update in E2. cbn [rows table_sessions] in E2.
    rewrite Es in E2. injection E2 as <- <-. injection Et as <- <-. injection E as <- <-. unfold turn_fault in Ef.
    destruct (ss_state x) as [| | | | | |kvs] eqn:Ex; try done. destruct (turns (JObj kvs)) as [l|] eqn:El; [|done].
    exists x, l, kvs. rewrite Ex. by repeat split.
  - exfalso. assert (d2 = d) as ->.
    { clear -E1. revert u d2 E1. generalize (x :: y :: l). intros ys. induction ys as [|z ys IH]; intros u d2 E1; cbn [for_each] in E1; [by injection E1|].
      apply bind_ok in E1 as (u1 & d3 & E2 & E1). destruct (turn_fault m turn z); [done|]. injection E2 as _ <-. by apply (IH u d2). }
    apply bind_ok in Et as (upd & d2 & E2 & Et). unfold sql_update in E2. cbn [rows table_sessions] in E2. rewrite Es in E2.
    by injection E2 as <- <-.
Qed.

(** * One step *)

Section session.
Variables (m : Z) (x0 : session_row).

(** The row as it stands after the owner's turns [l]. *)
Definition row_holds (l : list json) (x : session_row) : Prop :=
  ss_id x = ss_id x0 ∧ ss_tenant x = ss_tenant x0 ∧ ss_principal x = ss_principal x0 ∧ ss_expires_at x = ss_expires_at x0 ∧
  (∃ kvs, ss_state x = JObj kvs) ∧ turns (ss_state x) = Some (newest m l) ∧ ss_turn_count x = ss_turn_count x0 + count l.

Definition holds (l : list json) (d : db) : Prop :=
  List.NoDup (map ss_id (sessions d)) ∧ ∃ x, In x (sessions d) ∧ row_holds l x.

(** A statement that can match no other row than the one with id [sid]. *)
Definition by_sid (sid : string) (p : session_row → bool) : Prop := ∀ y, p y = true → ss_id y = sid.

Lemma sole_row p d x : List.NoDup (map ss_id (sessions d)) → In x (sessions d) → by_sid (ss_id x) p →
  select_where p (sessions d) = if p x then [x] else [].
Proof.
  intros Hn Hx Hp. destruct (p x) eqn:E.
  - apply (select_by_key ss_id); try done. intros y _ Hy. by apply Hp.
  - apply select_where_nil. intros y Hy. apply not_true_iff_false. intros Hpy.
    rewrite (key_unique ss_id _ y x Hn Hy Hx (Hp y Hpy)) in Hpy. congruence.
Qed.

Lemma create_holds now fresh ctx w ttl sid l d : holds l d → holds l (create now fresh ctx w ttl sid d).2.
Proof.
  intros (Hn & x & Hx & Hr). unfold create, tenant_session, tx, bind, insert_session, bind, get, guard.
  set (y := mkSessionRow _ _ _ _ _ _ _ _).
  destruct (existsb (fun z => String.eqb (ss_id z) (ss_id y)) (sessions d)) eqn:E; cbn [negb]; [by split; [|exists x]|].
  cbn. split; [|exists x; split; [apply in_app_iff; by left|done]].
  change (List.NoDup (map ss_id (sessions d ++ [y]))). rewrite map_app. apply NoDup_snoc; [done|]. intros Hin.
  apply in_map_iff in Hin as (z & Hz & Hzin). apply not_true_iff_false in E. apply E, existsb_exists. exists z.
  split; [done|by apply String.eqb_eq].
Qed.

Lemma load_same now ctx sid d : (load now ctx sid d).2 = d.
Proof.
  unfold load, tenant_session, tx, bind, sql_select, gets, one_or_none. cbn [rows table_sessions].
  by destruct (select_where _ _) as [|x [|y l]].
Qed.

Lemma append_unstorable now ctx sid turn d : jsonb_ok turn = false → append_turn now ctx sid turn m d = (Raise (OtherError "DataError"), d).
Proof. intros H. unfold append_turn, tenant_session, tx, bind at 1, bind at 1, guard. by rewrite H. Qed.

Lemma append_none now ctx sid turn d : jsonb_ok turn = true →
  (∀ y, In y (sessions d) → visible (tenant_of ctx) (usable now sid (principal_of ctx)) y = false) →
  append_turn now ctx sid turn m d = (Raise SessionNotFound, d).
Proof.
  intros Hj H. unfold append_turn, tenant_session, tx, bind, guard, ret at 1, sql_select, sql_update, gets. rewrite Hj. cbn beta iota zeta delta [rows table_sessions].
  rewrite (proj2 (select_where_nil _ _) H). cbn. rewrite (proj2 (select_where_nil _ _) H), update_where_id by done. by destruct d.
Qed.

(** A live session takes its owner's turn. *)
Lemma append_some now ctx turn l d x : jsonb_ok turn = true → holds l d → In x (sessions d) → row_holds l x → 1 <= m →
  visible (tenant_of ctx) (usable now (ss_id x) (principal_of ctx)) x = true →
  append_turn now ctx (ss_id x) turn m d =
    (Ok (to_session (with_turn now m turn x)),
     d <| sessions := update_where (visible (tenant_of ctx) (usable now (ss_id x) (principal_of ctx))) (with_turn now m turn) (sessions d) |>).
Proof.
  intros Hj [Hn _] Hx (_ & _ & _ & _ & (kvs & Hs) & Ht & _) Hm Hv.
  set (p := visible (tenant_of ctx) (usable now (ss_id x) (principal_of ctx))) in *.
  assert (Hsel : select_where p (sessions d) = [x]).
  { rewrite (sole_row p d x Hn Hx); [by rewrite Hv|]. intros y Hy. by apply usable_spec in Hy as (_ & Hy & _). }
  unfold append_turn, tenant_session, tx, bind, guard, ret at 1, sql_select, sql_update, gets. rewrite Hj. cbn beta iota zeta delta [rows table_sessions]. fold p. rewrite Hsel. cbn.
  assert (Hf : turn_fault m turn x = None).
  { unfold turn_fault. rewrite Hs, <- Hs, Ht, newest_snoc by done. unfold newest, count. rewrite length_app. cbn [length].
    destruct (skipn _ _) as [|y l'] eqn:E; [|done]. exfalso. apply (f_equal length) in E. rewrite length_skipn, length_app in E. cbn in E. lia. }
  rewrite Hf. cbn. by rewrite Hsel.
Qed.

Lemma with_turn_holds now turn l x : row_holds l x → 1 <= m → row_holds (l ++ [turn]) (with_turn now m turn x).
Proof.
  intros (H1 & H2 & H3 & H4 & (kvs & Hs) & Ht & Hc) Hm. unfold with_turn. rewrite Ht. repeat (split; [done|]).
  cbn. split; [by apply (set_turns_object _ _ kvs)|]. split.
  - rewrite (turns_set _ _ kvs) by done. by rewrite newest_snoc.
  - rewrite Hc. unfold count. rewrite length_app. cbn [length]. lia.
Qed.

Lemma append_holds now ctx sid turn l d : holds l d → 1 <= m → now < ss_expires_at x0 →
  holds (l ++ own_turn x0 (Append ctx sid turn)) (append_turn now ctx sid turn m d).2.
Proof.
  intros Hh Hm Hnow. pose proof Hh as (Hn & x & Hx & Hr). pose proof Hr as (H1 & H2 & H3 & H4 & _).
  set (p := visible (tenant_of ctx) (usable now sid (principal_of ctx))).
  assert (Hown : p x = String.eqb sid (ss_id x0) && owned_by x0 ctx).
  { apply eq_true_iff_eq. unfold p. rewrite usable_spec, andb_true_iff, String.eqb_eq, is_owner_spec, H1, H2, H3, H4. intuition. }
  cbn [own_turn]. rewrite <- Hown. destruct (jsonb_ok turn) eqn:Hj; [rewrite andb_true_r|rewrite andb_false_r, append_unstorable, app_nil_r by done; done].
  destruct (p x) eqn:Ep.
  - assert (sid = ss_id x) as -> by (apply usable_spec in Ep; by destruct Ep as (_ & -> & _)).
    rewrite (append_some now ctx turn l d x Hj Hh Hx Hr Hm Ep). cbn. split.
    + change (List.NoDup (map ss_id (update_where p (with_turn now m turn) (sessions d)))). rewrite map_update_where; [done|].
      intros y. unfold with_turn. by destruct (turns _).
    + exists (with_turn now m turn x). split; [|by apply with_turn_holds]. apply in_update_where. exists x. split; [done|]. fold p. by rewrite Ep.
  - rewrite app_nil_r. destruct (append_turn now ctx sid turn m d) as [r d'] eqn:E. cbn [snd].
    apply append_cases in E as [(e & _ & ->)|(y & l' & kvs & Hs & _ & _ & _ & ->)]; [done|]. fold p in Hs |- *. split.
    + change (List.NoDup (map ss_id (update_where p (with_turn now m turn) (sessions d)))). rewrite map_update_where; [done|].
      intros z. unfold with_turn. by destruct (turns _).
    + exists x. split; [|done]. apply in_update_where. exists x. by rewrite Ep.
Qed.

Lemma remove_holds p l d : holds l d → (∀ x, row_holds l x → p x = false) → holds l (d <| sessions := delete_where p (sessions d) |>).
Proof.
  intros (Hn & x & Hx & Hr) Hp. split; [by apply NoDup_map_filter|]. exists x. split; [|done]. apply in_delete_where. auto.
Qed.

Lemma exec_holds now a l d : holds l d → 1 <= m → kept_by x0 (now, a) = true → holds (l ++ own_turn x0 a) (exec m now a d).
Proof.
  intros Hh Hm Hk. unfold kept_by in Hk. cbn [fst snd] in Hk. apply andb_true_iff in Hk as [Hnow Hk]. apply Z.ltb_lt in Hnow.
  destruct a as [fresh ctx w ttl sid|ctx sid|ctx sid turn|ctx sid|]; cbn [exec]; [| | |cbn [own_turn]; rewrite app_nil_r..].
  - cbn [own_turn]. rewrite app_nil_r. by apply create_holds.
  - cbn [own_turn]. by rewrite app_nil_r, load_same.
  - by apply append_holds.
  - destruct (delete_session ctx sid d) as [r d'] eqn:E. cbn [snd]. unfold delete_session, tenant_session in E.
    apply bind_cases in E as [(e & Et & _)|(row & d1 & Et & E)].
    { by apply tx_raise in Et as ->. }
    injection E as _ <-. apply (proj1 (tx_ok _ _ _ _)) in Et.
    apply bind_ok in Et as (ys & d2 & E1 & Et). unfold sql_select, gets in E1. injection E1 as _ <-.
    apply bind_ok in Et as (n & d2 & E1 & Et). unfold sql_delete in E1. injection E1 as _ <-. apply one_or_none_same in Et as ->.
    apply remove_holds; [done|]. intros x (H1 & H2 & H3 & _). apply not_true_iff_false. intros Hv. apply owned_spec in Hv as (V1 & V2 & V3).
    apply negb_true_iff, not_true_iff_false in Hk. apply Hk. rewrite andb_true_iff, String.eqb_eq, is_owner_spec. repeat split; congruence.
  - apply remove_holds; [done|]. intros x (_ & _ & _ & H4 & _). apply Z.leb_gt. lia.
Qed.

End session.

(** C23: a conversation survives the replicas that serve it.  From a new session on, whatever
    requests are served, in any order, from any replica, by any tenants and principals
    (further sessions, loads, turns, deletions, purges), until its owner deletes it or it
    expires, the session holds the most recent [m] of the turns its owner appended (those
    that [jsonb] can store: the others are refused), in order, none lost and none of anybody else's, counts them all, and its owner loads
    exactly that. *)
Theorem conversation_survives m h x d :
  1 <= m → List.NoDup (map ss_id (sessions d)) → In x (sessions d) → ss_state x = JObj [] →
  forallb (kept_by x) h = true →
  let d' := exec_all m h d in
  ∃ x', In x' (sessions d') ∧ ss_id x' = ss_id x ∧
    turns (ss_state x') = Some (newest m (own_turns x h)) ∧ ss_turn_count x' = ss_turn_count x + count (own_turns x h) ∧
    ∀ now ctx, owned_by x ctx = true → now < ss_expires_at x → load now ctx (ss_id x) d' = (Ok (to_session x'), d').
Proof.
  intros Hm Hn Hx Hs Hk d'. assert (Hh : holds m x (own_turns x h) d').
  { assert (H0 : holds m x [] d).
    { split; [done|]. exists x. split; [done|]. repeat (split; [done|]). split; [by exists []|]. rewrite Hs. split; [unfold newest; by rewrite skipn_nil|].
      change (count (@nil json)) with 0. lia. }
    unfold d', own_turns. clear d' Hs Hx Hn. change (concat (map (fun na => own_turn x na.2) h)) with ([] ++ concat (map (fun na => own_turn x na.2) h)).
    revert Hk d H0. generalize (@nil json). induction h as [|[now a] h IH]; intros l Hk d H0.
    - cbn. by rewrite app_nil_r.
    - cbn [forallb] in Hk. apply andb_true_iff in Hk as [K1 K2]. cbn [exec_all map concat snd]. rewrite app_assoc. apply IH; [done|].
      by apply exec_holds. }
  destruct Hh as (Hn' & x' & Hx' & Hr). pose proof Hr as (H1 & H2 & H3 & H4 & _ & H6 & H7). exists x'.
  split; [done|split; [done|split; [done|split; [done|]]]]. intros now ctx Ho Hnow. apply is_owner_spec in Ho as [O1 O2].
  unfold load, tenant_session, tx, bind, sql_select, gets. cbn [rows table_sessions].
  rewrite (sole_row (visible (tenant_of ctx) (usable now (ss_id x) (principal_of ctx))) d' x' Hn' Hx').
  - assert (visible (tenant_of ctx) (usable now (ss_id x) (principal_of ctx)) x' = true) as ->; [|done].
    apply usable_spec. repeat split; congruence || lia.
  - intros y Hy. apply usable_spec in Hy as (_ & Hy & _). congruence.
Qed.

(** Holding a session's id is not enough.  To anybody but its owner, in its own tenant
    or another, and to its owner once it has expired, loading the session or appending a
    storable turn to it fails exactly as for a session that does not exist; and nobody but its owner can
    delete it.  Nothing changes. *)
Theorem session_id_is_no_credential m now ctx x d turn :
  List.NoDup (map ss_id (sessions d)) → In x (sessions d) → jsonb_ok turn = true →
  (owned_by x ctx = false ∨ ss_expires_at x <= now →
     load now ctx (ss_id x) d = (Raise SessionNotFound, d) ∧ append_turn now ctx (ss_id x) turn m d = (Raise SessionNotFound, d)) ∧
  (owned_by x ctx = false → delete_session ctx (ss_id x) d = (Ok false, d)).
Proof.
  intros Hn Hx Hj. split.
  - intros Ho. assert (Hnone : ∀ y, In y (sessions d) → visible (tenant_of ctx) (usable now (ss_id x) (principal_of ctx)) y = false).
    { intros y Hy. apply not_true_iff_false. intros Hv. apply usable_spec in Hv as (V1 & V2 & V3 & V4).
      assert (y = x) as -> by by apply (key_unique ss_id (sessions d)). destruct Ho as [Ho|Ho]; [|lia].
      apply not_true_iff_false in Ho. apply Ho, is_owner_spec. by split. }
    split; [|by apply append_none]. unfold load, tenant_session, tx, bind, sql_select, gets. cbn [rows table_sessions].
    by rewrite (proj2 (select_where_nil _ _) Hnone).
  - intros Ho. assert (Hnone : ∀ y, In y (sessions d) → visible (tenant_of ctx) (owned (ss_id x) (principal_of ctx)) y = false).
    { intros y Hy. apply not_true_iff_false. intros Hv. apply owned_spec in Hv as (V1 & V2 & V3).
      assert (y = x) as -> by by apply (key_unique ss_id (sessions d)). apply not_true_iff_false in Ho. apply Ho, is_owner_spec. by split. }
    unfold delete_session, tenant_session, tx, bind, sql_select, sql_delete, gets. cbn [rows table_sessions].
    rewrite (proj2 (select_where_nil _ _) Hnone), delete_where_id by done. cbn. by destruct d.
Qed.

Module SessionDemo.
Definition other : RequestContext := Demo.ctx <| principal := (principal Demo.ctx) <| principal_uuid := 12%N |> |>.
Definition turn (n : Z) : json := JObj [("content", JInt n)].
Definition d0 : db := (create 5 "s1" Demo.ctx "chat" 1000 None empty_db).2.
Definition x0 : session_row := mkSessionRow "s1" 1 11 "chat" (JObj []) 0 5 1005.
(** Two replicas, a stranger who knows the id, and a purge; two turns are kept. *)
Definition h : list (timestamp * action) :=
  [(6, Append Demo.ctx "s1" (turn 1)); (7, Append Demo.ctx "s1" (turn 2)); (7, Append other "s1" (turn 9));
   (8, Delete other "s1"); (9, Purge); (9, Append Demo.ctx "s1" (turn 3))].
End SessionDemo.

Lemma conversation_survives_witness :
  ∃ x', In x' (sessions (exec_all 2 SessionDemo.h SessionDemo.d0)) ∧
    turns (ss_state x') = Some [SessionDemo.turn 2; SessionDemo.turn 3] ∧ ss_turn_count x' = 3.
Proof.
  destruct (conversation_survives 2 SessionDemo.h SessionDemo.x0 SessionDemo.d0) as (x' & H1 & _ & H2 & H3 & _).
  - done.
  - vm_compute. repeat constructor. intros [].
  - vm_compute. by left.
  - reflexivity.
  - vm_compute. reflexivity.
  - exists x'. split; [done|]. split; [rewrite H2; vm_compute; reflexivity|rewrite H3; vm_compute; reflexivity].
Defined.

Lemma session_id_is_no_credential_witness :
  (load 6 Demo.ctx "s1" SessionDemo.d0).1 = Ok (to_session SessionDemo.x0) ∧
  load 6 SessionDemo.other "s1" SessionDemo.d0 = (Raise SessionNotFound, SessionDemo.d0).
Proof.
  split; [vm_compute; reflexivity|].
  destruct (session_id_is_no_credential 2 6 SessionDemo.other SessionDemo.x0 SessionDemo.d0 JNull) as [H _].
  - vm_compute. repeat constructor. intros [].
  - vm_compute. by left.
  - reflexivity.
  - destruct H as [H _]; [left; vm_compute; reflexivity|exact H].
Defined.
