(* ===== verification/Gaps.v ===== *)
(** Questions the corpus could not answer ([platform_core/corpus/gaps.py], with
    [platform_purge_unanswered_questions] of migration 0023).

    [action] and [exec_all] are the interleavings of the requests and jobs that write the
    backlog.  The foreign keys of a row are taken to hold; a log line is not modelled. *)
From Stdlib Require Import Ascii.
From S2P Require Import Prelude Identity Json Text Db.

Definition MAX_QUESTION_CHARS : Z := 2000.

(** * The deduplication key *)

(** [\w] of a pattern. *)
Definition isword (c : ascii) : bool :=
  let n := N_of_ascii c in
  ((48 <=? n) && (n <=? 57) || (65 <=? n) && (n <=? 90) || (n =? 95) || (97 <=? n) && (n <=? 122)
   || (n =? 170) || (n =? 178) || (n =? 179) || (n =? 181) || (n =? 185) || (n =? 186) || (188 <=? n) && (n <=? 190)
   || (192 <=? n) && (n <=? 214) || (216 <=? n) && (n <=? 246) || (248 <=? n))%N.

Definition token (c : ascii) : bool := isword c || Ascii.eqb c "-".

(** [_PUNCT]'s class, [[^\w\s-]]. *)
Definition punct (c : ascii) : bool := negb (token c) && negb (isspace c).

#[global] Arguments token : simpl never.
#[global] Arguments punct : simpl never.

(** [re.sub("[class]+", " ", s)]; [inside] says that a match has begun. *)
Fixpoint sub_runs (class : ascii → bool) (inside : bool) (s : string) : string :=
  match s with
  | EmptyString => ""
  | String c s' =>
      if class c then if inside then sub_runs class true s' else String " " (sub_runs class true s')
      else String c (sub_runs class false s')
  end.

Definition normalise (question : string) : string :=
  strip (sub_runs isspace false (sub_runs punct false (lower (strip question)))).

(** * The table *)

Definition by_key (c k : string) (x : unanswered_question) : bool := String.eqb (uq_collection x) c && String.eqb (uq_key x) k.

Definition int4_max : Z := 2147483647.

(** What the columns accept: [varchar(128)], [varchar(16)], and no NUL in a text. *)
Definition storable (c question mode : string) : bool :=
  (str_len c <=? 128) && no_nul c && no_nul (str_take MAX_QUESTION_CHARS (strip question)) && (str_len mode <=? 16) && no_nul mode.

Definition asked_again (now : timestamp) (ctx : RequestContext) (mode : string) (x : unanswered_question) : unanswered_question :=
  x <| uq_occurrences := uq_occurrences x + 1 |> <| uq_last_asked_at := now |>
    <| uq_last_asked_by := Some (principal_uuid (principal ctx)) |> <| uq_mode := Some mode |>.

(** [INSERT ... ON CONFLICT (tenant_id, collection, question_key) DO UPDATE]. *)
Definition upsert (now : timestamp) (fresh : uuid) (ctx : RequestContext) (c question mode : string) : M db unit :=
  let k := normalise question in
  let p := visible (tenant_of ctx) (by_key c k) in
  guard (storable c question mode) (OtherError "DataError") ;;
  matched <- sql_select p ;;
  match matched with
  | [] => sql_insert (mkUnanswered fresh (tenant_of ctx) c (str_take MAX_QUESTION_CHARS (strip question)) k (Some mode) 1 now now
                        (Some (principal_uuid (principal ctx))) None None)
  | _ =>
      guard (forallb (fun x => uq_occurrences x <? int4_max) matched) (OtherError "DataError") ;;
      sql_update p (asked_again now ctx mode) ;; ret tt
  end.

Definition record (now : timestamp) (fresh : uuid) (ctx : RequestContext) (c question mode : string) : M db unit :=
  if String.eqb (normalise question) "" then ret tt
  else try_except (tenant_session (upsert now fresh ctx c question mode)) (fun _ => Some (ret tt)).

(** [ORDER BY occurrences DESC, last_asked_at DESC]. *)
Definition most_asked (x y : unanswered_question) : bool :=
  (uq_occurrences y <? uq_occurrences x) || (uq_occurrences x =? uq_occurrences y) && (uq_last_asked_at y <=? uq_last_asked_at x).

Definition listed (c : option string) (include_seeded : bool) (x : unanswered_question) : bool :=
  (include_seeded || is_none (uq_seeded_into x)) && (negb (truthy c) || String.eqb (uq_collection x) (coalesce c "")).

Definition backlog (ctx : RequestContext) (c : option string) (include_seeded : bool) (limit : Z) : M db (list unanswered_question) :=
  guard (0 <=? limit) (OtherError "DataError") ;;
  tenant_session (
    found <- sql_select (visible (tenant_of ctx) (listed c include_seeded)) ;;
    ret (firstn (Z.to_nat limit) (order_by most_asked found))).

Definition unseeded_of (ids : list uuid) (x : unanswered_question) : bool :=
  existsb (fun i => (i =? uq_id x)%N) ids && is_none (uq_seeded_into x).

Definition set_seeded (now : timestamp) (name : string) (x : unanswered_question) : unanswered_question :=
  x <| uq_seeded_into := Some name |> <| uq_seeded_at := Some now |>.

Definition mark_seeded (now : timestamp) (ctx : RequestContext) (ids : list uuid) (dataset_name : string) : M db Z :=
  match ids with
  | [] => ret 0
  | _ =>
      tenant_session (
        matched <- sql_select (visible (tenant_of ctx) (unseeded_of ids)) ;;
        guard (is_none (hd_error matched) || (str_len dataset_name <=? 128) && no_nul dataset_name) (OtherError "DataError") ;;
        updated <- sql_update (visible (tenant_of ctx) (unseeded_of ids)) (set_seeded now dataset_name) ;;
        ret (count updated))
  end.

Definition day : interval := 24 * 3600 * 1000000.

Definition lapsed (now : timestamp) (days : Z) (x : unanswered_question) : bool :=
  is_none (uq_seeded_into x) && (uq_last_asked_at x <? now - days * day).

Definition purge (now : timestamp) (older_than_days : Z) : M db Z :=
  relay_session (
    guard ((1 <=? older_than_days) && (older_than_days <=? 3650)) (OtherError "RaiseException") ;;
    sql_delete (lapsed now older_than_days)).

(** * Histories *)

Inductive gap_action :=
| Ask (fresh : uuid) (ctx : RequestContext) (c question mode : string)
| Seed (ctx : RequestContext) (ids : list uuid) (name : string)
| Sweep (days : Z).

Definition exec (now : timestamp) (a : gap_action) (d : db) : db :=
  match a with
  | Ask fresh ctx c q mode => (record now fresh ctx c q mode d).2
  | Seed ctx ids name => (mark_seeded now ctx ids name d).2
  | Sweep days => (purge now days d).2
  end.

Fixpoint exec_all (h : list (timestamp * gap_action)) (d : db) : db :=
  match h with [] => d | (now, a) :: h' => exec_all h' (exec now a d) end.

(** * The reference definition of the key *)

Fixpoint split_when (sep : ascii → bool) (s : string) : list string :=
  match s with
  | EmptyString => [""]
  | String c s' =>
      if sep c then "" :: split_when sep s'
      else match split_when sep s' with
           | w :: ws => String c w :: ws
           | [] => [String c ""]
           end
  end.

(** The maximal runs of letters, digits, underscores and hyphens. *)
Definition words (s : string) : list string := List.filter nonempty (split_when (fun c => negb (token c)) s).

(** * Lemmas: normalisation *)

Definition pieces (s : string) : list string := List.filter nonempty (split_when isspace s).

Lemma split_when_cons sep s : ∃ w ws, split_when sep s = w :: ws.
Proof. destruct s as [|c s]; cbn; [by eexists _, _|]. destruct (sep c); [by eexists _, _|]. destruct (split_when sep s); by eexists _, _. Qed.

Lemma join_filter_nil l : join " " (List.filter nonempty l) = "" → List.filter nonempty l = [].
Proof.
  induction l as [|w l IH]; [done|]. cbn [List.filter]. destruct (nonempty w) eqn:E; [|done].
  destruct w as [|c w]; [done|]. cbn. by destruct (List.filter nonempty l).
Qed.

Definition tail_joined (w : string) (ws : list string) : string :=
  match List.filter nonempty ws with [] => w | l => w +:+ " " +:+ join " " l end.

Lemma rstrip_cons c s : isspace c = false → rstrip (String c s) = String c (rstrip s).
Proof. intros H. cbn. destruct (rstrip s); [by rewrite H|done]. Qed.

(** Collapsing whitespace and dropping it at the end joins the pieces. *)
Lemma rstrip_runs s :
  rstrip (sub_runs isspace true s) = join " " (pieces s) ∧
  ∀ w ws, split_when isspace s = w :: ws → rstrip (sub_runs isspace false s) = tail_joined w ws.
Proof.
  induction s as [|c s [IH1 IH2]].
  { split; [done|]. by intros w ws [= <- <-]. }
  destruct (split_when_cons isspace s) as (w & ws & Es). unfold pieces. cbn [sub_runs split_when].
  destruct (isspace c) eqn:Ec.
  - split; [exact IH1|]. intros w' ws' [= <- <-]. cbn [rstrip]. rewrite IH1. unfold tail_joined.
    change (List.filter nonempty (split_when isspace s)) with (pieces s).
    destruct (join " " (pieces s)) eqn:E.
    + by rewrite (join_filter_nil _ E : pieces s = []).
    + rewrite <- E. by destruct (pieces s).
  - rewrite Es. rewrite rstrip_cons, (IH2 w ws Es) by done. split.
    + cbn [List.filter]. change (nonempty (String c w)) with true. cbn iota. unfold tail_joined.
      by destruct (List.filter nonempty ws).
    + intros w' ws' [= <- <-]. unfold tail_joined. by destruct (List.filter nonempty ws).
Qed.

Lemma lstrip_runs s : lstrip (sub_runs isspace true s) = sub_runs isspace true s.
Proof. induction s as [|c s IH]; [done|]. cbn. destruct (isspace c) eqn:E; [done|]. cbn. by rewrite E. Qed.

Lemma strip_runs s : strip (sub_runs isspace false s) = join " " (pieces s).
Proof.
  unfold strip. assert (lstrip (sub_runs isspace false s) = sub_runs isspace true s) as ->; [|apply rstrip_runs].
  destruct s as [|c s]; [done|]. cbn. destruct (isspace c) eqn:E; cbn; [apply lstrip_runs|by rewrite E].
Qed.

Lemma token_not_space c : token c = true → isspace c = false.
Proof. destruct c as [[] [] [] [] [] [] [] []]; first [reflexivity | discriminate 1]. Qed.

(** Punctuation separates like whitespace. *)
Lemma pieces_runs s :
  pieces (sub_runs punct true s) = words s ∧
  ∀ w ws, split_when (fun c => negb (token c)) s = w :: ws →
    ∃ ws', split_when isspace (sub_runs punct false s) = w :: ws' ∧ List.filter nonempty ws' = List.filter nonempty ws.
Proof.
  unfold pieces, words. induction s as [|c s [IH1 IH2]].
  { split; [done|]. intros w ws [= <- <-]. by exists []. }
  destruct (split_when_cons (fun c => negb (token c)) s) as (w & ws & Es). destruct (IH2 w ws Es) as (ws' & E1 & E2).
  cbn [sub_runs split_when]. rewrite Es. destruct (token c) eqn:Et; [|destruct (isspace c) eqn:Ec].
  - assert (punct c = false) as -> by (unfold punct; by rewrite Et). cbn [negb split_when].
    rewrite (token_not_space c Et), E1. cbn [List.filter]. rewrite E2. split; [done|]. intros w' w2 [= <- <-]. by exists ws'.
  - assert (punct c = false) as -> by (unfold punct; rewrite Ec; apply andb_false_r). cbn [negb split_when].
    rewrite Ec, E1. cbn [List.filter]. rewrite E2. split; [done|]. intros w' w2 [= <- <-]. exists (w :: ws'). split; [done|].
    cbn [List.filter]. by rewrite E2.
  - assert (punct c = true) as -> by (unfold punct; by rewrite Et, Ec). cbn [negb split_when].
    rewrite IH1, Es. split; [done|]. intros w' w2 [= <- <-]. change (isspace " ") with true. cbn iota. eexists. split; [reflexivity|].
    by rewrite IH1, Es.
Qed.

Lemma pieces_punct s : pieces (sub_runs punct false s) = words s.
Proof.
  destruct (split_when_cons (fun c => negb (token c)) s) as (w & ws & E). destruct (proj2 (pieces_runs s) w ws E) as (ws' & E1 & E2).
  unfold pieces, words. by rewrite E1, E; cbn; rewrite E2.
Qed.

Lemma isspace_lower c : isspace (lower_char c) = isspace c.
Proof. by destruct c as [[] [] [] [] [] [] [] []]. Qed.

Lemma lower_strip s : lower (strip s) = strip (lower s).
Proof.
  unfold strip. assert (∀ s, lower (rstrip s) = rstrip (lower s)) as Hr.
  { clear s. induction s as [|c s IH]; [done|]. cbn. rewrite <- IH, isspace_lower. destruct (rstrip s); cbn; [by destruct (isspace c)|done]. }
  rewrite Hr. f_equal. induction s as [|c s IH]; [done|]. cbn. rewrite isspace_lower. by destruct (isspace c).
Qed.

Lemma words_lstrip s : words (lstrip s) = words s.
Proof.
  induction s as [|c s IH]; [done|]. cbn [lstrip]. destruct (isspace c) eqn:E; [|done]. rewrite IH. unfold words. cbn.
  destruct (token c) eqn:Et; [by rewrite (token_not_space c Et) in E|done].
Qed.

Lemma words_snoc_space a c : isspace c = true → words (a +:+ String c "") = words a.
Proof.
  intros Hc. assert (Ht : token c = false) by (destruct (token c) eqn:Et; [by rewrite (token_not_space c Et) in Hc|done]).
  unfold words. assert (H : split_when (fun c => negb (token c)) (a +:+ String c "") = split_when (fun c => negb (token c)) a ++ [""]).
  { induction a as [|x a IH]; [change ("" +:+ ?s) with s; cbn; by rewrite Ht|].
    change (String x a +:+ ?s) with (String x (a +:+ s)). cbn. rewrite IH. destruct (negb (token x)); [done|].
    destruct (split_when_cons (fun c => negb (token c)) a) as (w & ws & ->). done. }
  rewrite H, List.filter_app. cbn. by rewrite app_nil_r.
Qed.

Lemma words_rstrip s : words (rstrip s) = words s.
Proof.
  enough (H : ∃ b, s = rstrip s +:+ b ∧ forallb isspace (String.list_ascii_of_string b) = true).
  { destruct H as (b & E & Hb). revert E. generalize (rstrip s). intros a ->. revert a Hb.
    induction b as [|c b IH]; intros a Hb; [by rewrite sapp_nil|]. cbn in Hb. apply andb_true_iff in Hb as [Hc Hb].
    replace (a +:+ String c b) with ((a +:+ String c "") +:+ b) by apply sapp_assoc.
    rewrite <- IH by done. by rewrite words_snoc_space. }
  induction s as [|c s (b & E & Hb)]; [by exists ""|]. cbn [rstrip]. destruct (rstrip s) as [|x r] eqn:Er.
  - destruct (isspace c) eqn:Ec.
    + exists (String c s). split; [done|]. change ("" +:+ b) with b in E. subst b. cbn. by rewrite Ec.
    + exists b. split; [by rewrite E at 1|done].
  - exists b. split; [by rewrite E at 1|done].
Qed.

Definition tokens (w : string) : bool := forallb token (String.list_ascii_of_string w).

Lemma words_tokens s : Forall (fun w => tokens w = true ∧ w ≠ "") (words s).
Proof.
  unfold words. assert (H : Forall (fun w => tokens w = true) (split_when (fun c => negb (token c)) s)).
  { induction s as [|c s IH]; [by repeat constructor|]. cbn. destruct (token c) eqn:E; cbn; [|by constructor].
    destruct (split_when_cons (fun c => negb (token c)) s) as (w & ws & Es). rewrite Es in *. invc IH. constructor; [|done].
    unfold tokens. cbn. by rewrite E. }
  rewrite !List.Forall_forall in *. intros w Hw. apply filter_In in Hw as [Hw Hn]. split; [by apply H|]. by intros ->.
Qed.

Lemma split_word w s h t : tokens w = true → split_when isspace s = h :: t → split_when isspace (w +:+ s) = (w +:+ h) :: t.
Proof.
  intros Hw Hs. induction w as [|c w IH]; [done|]. change (String c w +:+ s) with (String c (w +:+ s)).
  unfold tokens in Hw. cbn in Hw. apply andb_true_iff in Hw as [Hc Hw]. cbn. by rewrite (token_not_space c Hc), IH.
Qed.

Lemma pieces_join l : Forall (fun w => tokens w = true ∧ w ≠ "") l → pieces (join " " l) = l.
Proof.
  induction 1 as [|w l [Hw Hn] _ IH]; [done|]. assert (Hne : nonempty w = true) by by destruct w.
  destruct l as [|w' l].
  - cbn [join]. unfold pieces. rewrite <- (sapp_nil w), (split_word w "" "" []) by done. rewrite sapp_nil. cbn. by rewrite Hne.
  - change (join " " (w :: w' :: l)) with (w +:+ (String " " (join " " (w' :: l)))). unfold pieces in *.
    rewrite (split_word w _ "" (split_when isspace (join " " (w' :: l)))) by done. rewrite sapp_nil.
    change (List.filter nonempty (?a :: ?b)) with (if nonempty a then a :: List.filter nonempty b else List.filter nonempty b).
    by rewrite Hne, IH.
Qed.

(** The key of a question is its words.  Whatever the case, the punctuation and the
    spacing, two questions have one key exactly when they consist of the same words (runs of
    letters, digits, underscores and hyphens, lower-cased) in the same order; the key is
    those words with single spaces between, empty only for a question without any. *)
Theorem key_is_the_words question question' :
  normalise question = join " " (words (lower question)) ∧
  (normalise question = normalise question' ↔ words (lower question) = words (lower question')) ∧
  (normalise question = "" ↔ words (lower question) = []).
Proof.
  assert (H : ∀ q, normalise q = join " " (words (lower q))).
  { intros q. unfold normalise. rewrite strip_runs, pieces_punct, lower_strip. unfold strip. by rewrite words_rstrip, words_lstrip. }
  rewrite !H. split; [done|]. pose proof (pieces_join _ (words_tokens (lower question))) as P.
  split; (split; [intros E|by intros ->]).
  - rewrite <- P, E. apply pieces_join, words_tokens.
  - by rewrite <- P, E.
Qed.

(** * Lemmas: the table *)

Definition gap_key (x : unanswered_question) : uuid * string * string := (uq_tenant x, uq_collection x, uq_key x).

(** [unanswered_question_uniq]. *)
Definition gaps_wf (d : db) : Prop := List.NoDup (map gap_key (questions d)).

Lemma by_key_spec t c k x : visible t (by_key c k) x = true ↔ gap_key x = (t, c, k).
Proof.
  unfold visible, by_key, row_tenant, tenant_questions, gap_key. rewrite !andb_true_iff, N.eqb_eq, !String.eqb_eq.
  split; [by intros (-> & -> & ->)|by intros [= -> -> ->]].
Qed.

Lemma sole_gap t c k d x : gaps_wf d → In x (questions d) → gap_key x = (t, c, k) →
  select_where (visible t (by_key c k)) (questions d) = [x].
Proof.
  intros Hn Hx Hk. apply (select_by_key gap_key); try done; [by apply by_key_spec|]. intros y _ Hy. apply by_key_spec in Hy. congruence.
Qed.

Definition new_gap (now : timestamp) (fresh : uuid) (ctx : RequestContext) (c question mode : string) : unanswered_question :=
  mkUnanswered fresh (tenant_of ctx) c (str_take MAX_QUESTION_CHARS (strip question)) (normalise question) (Some mode) 1 now now
    (Some (principal_uuid (principal ctx))) None None.

(** What [record] does, which never raises. *)
Lemma record_run now fresh ctx c q mode d :
  record now fresh ctx c q mode d =
  (Ok tt,
   let p := visible (tenant_of ctx) (by_key c (normalise q)) in
   if nonempty (normalise q) && storable c q mode then
     match select_where p (questions d) with
     | [] => d <| questions := questions d ++ [new_gap now fresh ctx c q mode] |>
     | l => if forallb (fun x => uq_occurrences x <? int4_max) l then d <| questions := update_where p (asked_again now ctx mode) (questions d) |>
            else d
     end
   else d).
Proof.
  unfold record, nonempty. destruct (String.eqb (normalise q) ""); [done|]. cbn [negb andb].
  unfold try_except, tenant_session, tx, upsert, bind, guard, sql_select, sql_insert, sql_update, gets, modify.
  destruct (storable c q mode); [|done]. cbn. set (p := visible _ _).
  destruct (select_where p (questions d)) as [|x l] eqn:E; [done|]. cbn [forallb]. destruct (_ && _); [|done]. cbn. done.
Qed.

Lemma mark_seeded_run now ctx ids name d : (mark_seeded now ctx ids name d).2 = d ∨
  (mark_seeded now ctx ids name d).2 = d <| questions := update_where (visible (tenant_of ctx) (unseeded_of ids)) (set_seeded now name) (questions d) |>.
Proof.
  destruct (mark_seeded now ctx ids name d) as [r d'] eqn:E. cbn [snd]. unfold mark_seeded in E. destruct ids as [|i ids]; [by injection E; left|].
  destruct r as [n|e]; [|left; by apply tx_raise in E].
  apply (proj1 (tx_ok _ _ _ _)) in E. apply bind_ok in E as (l & d1 & E1 & E). injection E1 as _ <-.
  apply bind_ok in E as (u & d1 & E1 & E). unfold guard in E1. destruct (_ || _); [|done]. injection E1 as _ <-.
  right. by injection E as _ <-.
Qed.

Lemma purge_run now days d : (purge now days d).2 = d ∨ (purge now days d).2 = d <| questions := delete_where (lapsed now days) (questions d) |>.
Proof. unfold purge, relay_session, tx, bind, guard. destruct (_ && _); [by right|by left]. Qed.

(** * Counting *)

Section counting.
Variables (t : uuid) (c k : string) (t0 : timestamp).

Definition asks (na : timestamp * gap_action) : bool :=
  match na.2 with
  | Ask _ ctx c' q mode => (tenant_of ctx =? t)%N && String.eqb c' c && String.eqb (normalise q) k && nonempty k && storable c' q mode
  | _ => false
  end.

Definition question_of (na : timestamp * gap_action) : string :=
  match na.2 with Ask _ _ _ q _ => str_take MAX_QUESTION_CHARS (strip q) | _ => "" end.

(** At [t0] or later, and no sweep deletes what was asked since [t0]. *)
Definition in_retention (na : timestamp * gap_action) : bool :=
  (t0 <=? na.1) && match na.2 with Sweep days => na.1 - days * day <=? t0 | _ => true end.

Definition unasked (d : db) : Prop := ∀ x, In x (questions d) → visible t (by_key c k) x = false.

(** The row of the gap after the asks [l]. *)
Definition tallies (l : list (timestamp * gap_action)) (x : unanswered_question) : Prop :=
  gap_key x = (t, c, k) ∧ t0 <= uq_last_asked_at x ∧ uq_occurrences x = Z.min (count l) int4_max ∧
  ∀ a l', l = a :: l' → uq_question x = question_of a.

Definition tallied (l : list (timestamp * gap_action)) (d : db) : Prop :=
  gaps_wf d ∧ match l with [] => unasked d | _ => ∃ x, In x (questions d) ∧ tallies l x end.

(** A step that changes no row's key, text, count or time of asking. *)
Lemma tallied_update l d p f : tallied l d →
  (∀ x, gap_key (f x) = gap_key x ∧ uq_last_asked_at (f x) = uq_last_asked_at x ∧ uq_occurrences (f x) = uq_occurrences x ∧
        uq_question (f x) = uq_question x) →
  tallied l (d <| questions := update_where p f (questions d) |>).
Proof.
  intros [Hn Hl] Hf. split.
  - unfold gaps_wf. change (questions (d <| questions := ?q |>)) with q. rewrite map_update_where; [done|]. intros x. apply Hf.
  - destruct l as [|a l].
    + intros y Hy. apply in_update_where in Hy as (x & Hx & ->). specialize (Hl x Hx). destruct (p x); [|done].
      apply not_true_iff_false. intros H. apply by_key_spec in H. destruct (Hf x) as (H1 & _). rewrite H1 in H. apply by_key_spec in H. congruence.
    + destruct Hl as (x & Hx & T1 & T2 & T3 & T4). exists (if p x then f x else x). split; [by apply in_update_where; exists x|].
      destruct (p x); [|done]. unfold tallies. destruct (Hf x) as (-> & -> & -> & ->). done.
Qed.

Lemma tallied_ask now fresh ctx c' q mode l d : tallied l d → t0 <= now →
  tallied (l ++ List.filter asks [(now, Ask fresh ctx c' q mode)]) (record now fresh ctx c' q mode d).2.
Proof.
  intros Hl Ht. rewrite record_run. cbn [snd]. pose proof Hl as [Hn Hl']. set (p := visible (tenant_of ctx) (by_key c' (normalise q))).
  assert (Hmine : asks (now, Ask fresh ctx c' q mode) = true ↔ (tenant_of ctx, c', normalise q) = (t, c, k) ∧ nonempty (normalise q) && storable c' q mode = true).
  { cbn. rewrite !andb_true_iff, N.eqb_eq, !String.eqb_eq. split; [by intros ((((-> & ->) & ->) & H1) & H2)|by intros ([= -> -> ->] & H1 & H2)]. }
  cbn [List.filter]. destruct (nonempty (normalise q) && storable c' q mode) eqn:Es.
  2: { destruct (asks _); [by destruct (proj1 Hmine eq_refl)|]. by rewrite app_nil_r. }
  assert (Hsel : ∀ x, In x (questions d) → p x = true → select_where p (questions d) = [x]).
  { intros x Hx Hp. apply by_key_spec in Hp. by apply sole_gap. }
  destruct (decide ((tenant_of ctx, c', normalise q) = (t, c, k))) as [E|E].
  - rewrite (proj2 Hmine (conj E eq_refl)). destruct l as [|a l].
    + rewrite (proj2 (select_where_nil p (questions d))). 2: { injection E as E1 E2 E3. unfold p. by rewrite E1, E2, E3. }
      split.
      * unfold gaps_wf. change (questions (d <| questions := ?x |>)) with x. rewrite map_app. apply NoDup_snoc; [done|]. intros Hin.
        apply in_map_iff in Hin as (y & Hy & Hin). specialize (Hl' y Hin). apply not_true_iff_false in Hl'. apply Hl', by_key_spec. rewrite Hy. exact E.
      * cbn. exists (new_gap now fresh ctx c' q mode). split; [apply in_app_iff; right; by left|]. split; [exact E|]. split; [done|]. split; [done|].
        by intros a l' [= <- <-].
    + destruct Hl' as (x & Hx & T1 & T2 & T3 & T4). assert (Hpx : p x = true) by (apply by_key_spec; congruence).
      rewrite (Hsel x Hx Hpx). cbn [forallb]. rewrite andb_true_r. rewrite <- app_comm_cons.
      assert (Hc : count (a :: l ++ [(now, Ask fresh ctx c' q mode)]) = count (a :: l) + 1) by (unfold count; cbn [length]; rewrite length_app; cbn; lia).
      destruct (uq_occurrences x <? int4_max) eqn:Eo; [apply Z.ltb_lt in Eo|apply Z.ltb_ge in Eo].
      * split; [unfold gaps_wf; change (questions (d <| questions := ?x |>)) with x; by rewrite map_update_where|].
        exists (asked_again now ctx mode x). split; [apply in_update_where; exists x; by rewrite Hpx|]. split; [done|]. split; [done|].
        split; [|by intros a' l' [= <- <-]; apply (T4 a l)].
        cbn [asked_again]. change (uq_occurrences (asked_again now ctx mode x)) with (uq_occurrences x + 1). rewrite Hc, T3 in *. lia.
      * split; [done|]. exists x. split; [done|]. split; [done|]. split; [done|]. split; [rewrite Hc; lia|].
        intros a' l' [= <- <-]. by apply (T4 a l).
  - assert (asks (now, Ask fresh ctx c' q mode) = false) as -> by (apply not_true_iff_false; by intros [H _]%Hmine). rewrite app_nil_r.
    assert (Hother : ∀ y, gap_key y = (t, c, k) → p y = false) by (intros y Hy; apply not_true_iff_false; intros H; apply by_key_spec in H; congruence).
    destruct (select_where p (questions d)) as [|y ys] eqn:Ey; [|destruct (forallb _ _); [|done]].
    + split.
      * unfold gaps_wf. change (questions (d <| questions := ?x |>)) with x. rewrite map_app. apply NoDup_snoc; [done|]. intros Hin.
        apply in_map_iff in Hin as (z & Hz & Hin). pose proof (proj1 (select_where_nil p (questions d)) Ey z Hin) as Hp.
        apply not_true_iff_false in Hp. by apply Hp, by_key_spec.
      * destruct l as [|a l]; [intros z Hz; apply in_app_iff in Hz as [Hz|[<-|[]]]; [by apply Hl'|]|].
        -- apply not_true_iff_false. intros H. by apply by_key_spec in H.
        -- destruct Hl' as (x & Hx & T). exists x. split; [apply in_app_iff; by left|done].
    + split; [unfold gaps_wf; change (questions (d <| questions := ?x |>)) with x; by rewrite map_update_where|].
      destruct l as [|a l].
      * intros z Hz. apply in_update_where in Hz as (x & Hx & ->). specialize (Hl' x Hx). by destruct (p x).
      * destruct Hl' as (x & Hx & T). exists x. split; [|done]. apply in_update_where. exists x. split; [done|]. rewrite (Hother x); [done|apply T].
Qed.

Lemma tallied_exec na l d : tallied l d → in_retention na = true → tallied (l ++ List.filter asks [na]) (exec na.1 na.2 d).
Proof.
  intros Hl Hr. destruct na as [now a]. unfold in_retention in Hr. cbn [fst snd] in *. apply andb_true_iff in Hr as [Ht Hr]. apply Z.leb_le in Ht.
  destruct a as [fresh ctx c' q mode|ctx ids name|days]; [by apply tallied_ask| |]; cbn [List.filter asks snd exec]; rewrite app_nil_r.
  - destruct (mark_seeded_run now ctx ids name d) as [->| ->]; [done|]. by apply tallied_update.
  - destruct (purge_run now days d) as [->| ->]; [done|]. apply Z.leb_le in Hr. destruct Hl as [Hn Hl].
    split; [by apply NoDup_map_filter|]. destruct l as [|a l].
    + intros x Hx. apply in_delete_where in Hx as [Hx _]. by apply Hl.
    + destruct Hl as (x & Hx & T1 & T2 & T). exists x. split; [|done]. apply in_delete_where. split; [done|].
      apply andb_false_iff. right. apply Z.ltb_ge. lia.
Qed.

End counting.

Lemma most_asked_total x y : most_asked x y = true ∨ most_asked y x = true.
Proof. unfold most_asked. rewrite !orb_true_iff, !andb_true_iff, !Z.ltb_lt, !Z.eqb_eq, !Z.leb_le. lia. Qed.

Lemma most_asked_trans x y z : most_asked x y = true → most_asked y z = true → most_asked x z = true.
Proof. unfold most_asked. rewrite !orb_true_iff, !andb_true_iff, !Z.ltb_lt, !Z.eqb_eq, !Z.leb_le. lia. Qed.

(** The backlog counts every gap.  However the questions of all users, the seeding of
    evaluation sets and the retention sweeps are interleaved, as long as no sweep reaches
    back to [t0], a question first recorded since [t0] has one row: it carries the text as
    it was first put and the number of times any wording of it was asked (up to the largest
    [integer]), and the tenant's backlog lists it among the others, most asked first.
    Recording never fails. *)
Theorem backlog_counts_every_gap t c k t0 h d :
  gaps_wf d → unasked t c k d → forallb (in_retention t0) h = true →
  let asked := List.filter (asks t c k) h in
  let d' := exec_all h d in
  (∀ now fresh ctx c' q mode, (record now fresh ctx c' q mode d').1 = Ok tt) ∧
  match asked with
  | [] => unasked t c k d'
  | first :: _ => ∃ x, select_where (visible t (by_key c k)) (questions d') = [x] ∧
      uq_question x = question_of first ∧ uq_occurrences x = Z.min (count asked) int4_max ∧
      ∀ ctx limit, tenant_of ctx = t → count (questions d') <= limit → ∃ l, backlog ctx (Some c) true limit d' = (Ok l, d') ∧
        In x l ∧ StronglySorted (fun a b => most_asked a b = true) l
  end.
Proof.
  intros Hn Hu Hr asked d'. split; [intros; by rewrite record_run|].
  assert (H : tallied t c k t0 asked d').
  { unfold asked, d'. clear asked d'. change (List.filter (asks t c k) h) with ([] ++ List.filter (asks t c k) h).
    assert (H0 : tallied t c k t0 [] d) by by split. clear Hn Hu. revert Hr d H0. generalize (@nil (timestamp * gap_action)).
    induction h as [|[now a] h IH]; intros l Hr d H0; [by rewrite app_nil_r|].
    cbn [forallb] in Hr. apply andb_true_iff in Hr as [R1 R2]. cbn [exec_all].
    replace (l ++ List.filter (asks t c k) ((now, a) :: h)) with ((l ++ List.filter (asks t c k) [(now, a)]) ++ List.filter (asks t c k) h).
    2: { rewrite <- app_assoc. f_equal. cbn. by destruct (asks t c k (now, a)). }
    apply IH; [done|]. exact (tallied_exec t c k t0 (now, a) l d H0 R1). }
  destruct H as [Hn' H]. destruct asked as [|first l]; [done|]. destruct H as (x & Hx & Hk & _ & Ho & Hq). exists x.
  split; [by apply sole_gap|]. split; [by apply (Hq first l)|]. split; [done|]. intros ctx limit Hc Hl.
  set (found := select_where (visible (tenant_of ctx) (listed (Some c) true)) (questions d')).
  assert (Hcount : count found <= count (questions d')) by (unfold count, found, select_where; pose proof (List.filter_length_le (visible (tenant_of ctx) (listed (Some c) true)) (questions d')); lia).
  exists (firstn (Z.to_nat limit) (order_by most_asked found)). split; [|split].
  - unfold backlog, guard. assert (0 <=? limit = true) as -> by (apply Z.leb_le; unfold count in Hl; lia). done.
  - rewrite firstn_all2. 2: { rewrite (Permutation_length (order_by_perm most_asked found)). unfold count in *. lia. }
    apply in_order_by, filter_In. split; [done|]. injection Hk as K1 K2 K3. unfold visible, listed, row_tenant, tenant_questions.
    rewrite K1, Hc, N.eqb_refl, K2. cbn [coalesce]. rewrite String.eqb_refl, orb_true_r. done.
  - apply firstn_sorted, order_by_sorted; [apply most_asked_total|apply most_asked_trans].
Qed.

Module GapsDemo.
Definition other : RequestContext := Demo.ctx <| principal := (principal Demo.ctx) <| principal_uuid := 12%N |> |>.
(** One gap put three ways by two people, another question, a seeding and a sweep. *)
Definition h : list (timestamp * gap_action) :=
  [(100 * day, Ask 1 Demo.ctx "manuals" "How do I bleed the pump?" "dense"); (100 * day + 1, Ask 2 other "manuals" " how do i BLEED the pump" "graph");
   (100 * day + 2, Ask 3 Demo.ctx "manuals" "what torque" "dense"); (100 * day + 3, Seed Demo.ctx [1%N] "golden"); (101 * day, Sweep 30);
   (102 * day, Ask 4 Demo.ctx "manuals" "how do I bleed the pump ?!" "dense")].
End GapsDemo.

Lemma key_is_the_words_example : normalise " How do I  bleed the C-12 pump?! " = "how do i bleed the c-12 pump".
Proof. vm_compute. reflexivity. Qed.

Lemma backlog_counts_every_gap_witness :
  ∃ x, In x (questions (exec_all GapsDemo.h empty_db)) ∧ uq_question x = "How do I bleed the pump?" ∧ uq_occurrences x = 3 ∧
    uq_seeded_into x = Some "golden".
Proof.
  destruct (backlog_counts_every_gap 1 "manuals" "how do i bleed the pump" (100 * day) GapsDemo.h empty_db) as [_ H].
  - constructor.
  - by intros x [].
  - vm_compute. reflexivity.
  - destruct (List.filter (asks 1 "manuals" "how do i bleed the pump") GapsDemo.h) as [|first l] eqn:E; [vm_compute in E; discriminate|].
    destruct H as (x & Hs & Hq & Ho & _). exists x. pose proof (select_where_one _ _ _ Hs) as Hx.
    split; [done|]. vm_compute in Hs. injection Hs as <-. split; [reflexivity|]. split; reflexivity.
Defined.
