(* ===== verification/Chat.v ===== *)
(** A chat turn: [workloads/chat/service.py] and the dense mode of
    [platform_core/api/routes/query.py].

    The model client is used through an interface, [ChatClient]; the instance of the platform
    is the client of [Llm.v].  The database's nearest-neighbour scan (pgvector, with an
    approximate index) is a parameter.  Latencies are not modelled. *)
From S2P Require Import Prelude Identity Json Text Db Builds.
From S2P Require Sessions Gaps Cache Llm Frame.

Definition WORKLOAD : string := "chat".
Definition MAX_CONTEXT_CHUNKS : Z := 5.
Definition MAX_HISTORY_TURNS : Z := 6.

Definition SYSTEM_PROMPT : string :=
  "You answer questions about industrial equipment using ONLY the provided sources." +:+ nl +:+ nl +:+
  "Rules:" +:+ nl +:+
  "- Every factual claim must come from a source. Cite it inline as [c_xxxx]." +:+ nl +:+
  "- If the sources do not contain the answer, say so plainly. Do not infer, generalise, or fill gaps from prior knowledge." +:+ nl +:+
  "- Be concise. Prefer the specific number or procedure over a paraphrase.".

Record Source := mkSource {
  so_canonical_id : string;
  so_text : string;
  so_distance : Q;
  so_metadata : json
}.

Record ChatAnswer := mkChatAnswer {
  ca_answer : string;
  ca_sources : list Source;
  ca_session_id : string;
  ca_grounded : bool;
  ca_cache_hit : bool;
  ca_cost_usd : Q;
  ca_input_tokens : Z;
  ca_output_tokens : Z
}.

(** What a turn reads and writes of the database, and the client must leave alone. *)
Definition conversation (d : db) : list collection_build * list chunk * list session_row * list unanswered_question :=
  (builds d, chunks d, sessions d, questions d).

Class ChatClient (V : Type) := mkChatClient {
  client_embed : RequestContext → list string → M (db * V) (list (list Q));
  client_chat : RequestContext → Cache.ChatRequest → M (db * V) Cache.ChatResponse;
  embed_keeps_conversation : ∀ ctx l s, conversation (client_embed ctx l s).2.1 = conversation s.1;
  chat_keeps_conversation : ∀ ctx r s, conversation (client_chat ctx r s).2.1 = conversation s.1
}.

Section chat.
Context {V : Type} {client : ChatClient V}.
(** The first [k] of the scan of matching rows, with their distances to the probe. *)
Variable nearest : Z → list Q → list chunk → result (list (chunk * Q)).
(** [settings.llm_model_cheap]. *)
Variable llm_model_cheap : string.

Definition searchable (c : string) (v : Z) (x : chunk) : bool := in_build c v x && is_some (ch_embedding x).

(** [r.meta or {}]. *)
Definition meta_or (v : json) : json :=
  match v with
  | JNull | JBool false | JInt 0 | JFloat "0.0" | JFloat "-0.0" | JStr "" | JArr [] => JObj []
  | _ => v
  end.

Definition source_of (x : chunk * Q) : Source := mkSource (ch_canonical_id x.1) (ch_text x.1) x.2 (meta_or (ch_meta x.1)).

Definition retrieve (ctx : RequestContext) (c : string) (probe : list Q) (top_k : Z) : M db (list Source) :=
  found <- tenant_session (
    version <- live_version_or_none ctx c ;;
    match version with
    | None => ret []
    | Some v =>
        rows <- sql_select (visible (tenant_of ctx) (searchable c v)) ;;
        match nearest top_k probe rows with Ok l => ret l | Raise e => raise e end
    end) ;;
  ret (map source_of found).

(** [(session.state.get("turns") or [])[-MAX_HISTORY_TURNS:]], of a list. *)
Definition history_of (state : json) : list json :=
  match Sessions.turns_value state with
  | Some (JArr l) => Sessions.newest MAX_HISTORY_TURNS l
  | _ => []
  end.

Definition field (k : string) (v : json) : result json :=
  match v with
  | JObj kvs => match List.find (fun kv => String.eqb kv.1 k) kvs with Some kv => Ok kv.2 | None => Raise (LookupError k) end
  | _ => Raise (TypeError "string indices must be integers")
  end.

Definition message (role content : json) : json := JObj [("role", role); ("content", content)].

Definition turn_message (t : json) : result json :=
  match field "role" t, field "content" t with
  | Ok r, Ok c => Ok (message r c)
  | Raise e, _ | _, Raise e => Raise e
  end.

Fixpoint turn_messages (l : list json) : result (list json) :=
  match l with
  | [] => Ok []
  | t :: l' => match turn_message t with
               | Ok m => match turn_messages l' with Ok ms => Ok (m :: ms) | Raise e => Raise e end
               | Raise e => Raise e
               end
  end.

Definition source_line (s : Source) : string := "[" +:+ so_canonical_id s +:+ "] " +:+ so_text s.

Definition context_block (l : list Source) : string := join (nl +:+ nl) (map source_line l).

Definition prompt_of (l : list Source) (question : string) : string :=
  "Sources:" +:+ nl +:+ context_block l +:+ nl +:+ nl +:+ "Question: " +:+ question.

Definition request_of (model : string) (history past : list json) (l : list Source) (question : string) : Cache.ChatRequest :=
  Cache.mkChatRequest
    ([message (JStr "system") (JStr SYSTEM_PROMPT)] ++ past ++ [message (JStr "user") (JStr (prompt_of l question))])
    model (Some (JInt 0)) (Some 400) None None (match history with [] => true | _ => false end).

Definition NO_SOURCES : string := "I don't have any indexed sources for that. Nothing in this collection matches the question.".

Definition user_turn (question : string) : json := JObj [("role", JStr "user"); ("content", JStr question)].

Definition refusal_turn (c : string) : json :=
  JObj [("role", JStr "assistant"); ("content", JStr NO_SOURCES); ("grounded", JBool false); ("collection", JStr c)].

Definition answer_turn (content c : string) (l : list Source) : json :=
  JObj [("role", JStr "assistant"); ("content", JStr content); ("grounded", JBool true); ("collection", JStr c);
        ("retrieved", JArr (map (fun s => JStr (so_canonical_id s)) l))].

Definition MAX_TURNS : Z := 50.

Definition append_turns (later : timestamp) (ctx : RequestContext) (sid : string) (l : list json) : M db unit :=
  for_each l (fun turn => Sessions.append_turn later ctx sid turn MAX_TURNS ;; ret tt).

(** The session a turn is taken in: the one named, or a new one. *)
Definition opening (now : timestamp) (fresh_session : string) (ctx : RequestContext) (session_id : option string) (workload : string)
    : M db Sessions.Session :=
  if truthy session_id then Sessions.load now ctx (coalesce session_id "")
  else Sessions.create now fresh_session ctx workload Sessions.DEFAULT_TTL None.

(** [model or settings.llm_model_cheap]. *)
Definition model_or (model : option string) : string := coalesce (py_or model (Some llm_model_cheap)) llm_model_cheap.

(** [now] is the time of the session's lookup, [later] that of what follows the model. *)
Definition answer (now later : timestamp) (fresh_session : string) (fresh_gap : uuid) (ctx : RequestContext)
    (question c : string) (session_id model : option string) : M (db * V) ChatAnswer :=
  let model := model_or model in
  session <- on_db (opening now fresh_session ctx session_id WORKLOAD) ;;
  let sid := Sessions.sn_id session in
  let history := history_of (Sessions.sn_state session) in
  vectors <- client_embed ctx [question] ;;
  probe <- (match vectors with v :: _ => ret v | [] => raise (LookupError "list index out of range") end) ;;
  sources <- on_db (retrieve ctx c probe MAX_CONTEXT_CHUNKS) ;;
  match sources with
  | [] =>
      on_db (Gaps.record later fresh_gap ctx c question "dense") ;;
      on_db (append_turns later ctx sid [user_turn question; refusal_turn c]) ;;
      ret (mkChatAnswer NO_SOURCES [] sid false false 0 0 0)
  | _ =>
      past <- (match turn_messages history with Ok l => ret l | Raise e => raise e end) ;;
      response <- client_chat ctx (request_of model history past sources question) ;;
      on_db (append_turns later ctx sid [user_turn question; answer_turn (Cache.rs_content response) c sources]) ;;
      ret (mkChatAnswer (Cache.rs_content response) sources sid true (Cache.rs_cache_hit response) (Cache.rs_cost_usd response)
             (Cache.tu_input_tokens (Cache.rs_usage response)) (Cache.tu_output_tokens (Cache.rs_usage response)))
  end.

(** * The route *)

(** Of the fields, those of the dense mode. *)
Record QueryRequest := mkQueryRequest {
  qr_question : string;
  qr_collection : string;
  qr_session_id : option string
}.

Definition valid_query (p : QueryRequest) : bool :=
  (1 <=? str_len (qr_question p)) && (str_len (qr_question p) <=? 4000) && (str_len (qr_collection p) <=? 128)
  && match qr_session_id p with Some s => str_len s <=? 128 | None => true end.

(** [started_at] is the default, the time of construction. *)
Definition scoped (now : timestamp) (ctx : RequestContext) : RequestContext :=
  mkContext (principal ctx) (request_id ctx) (run_id ctx) (idempotency_key ctx) None None now
    (<["task" := "chat"]> (<["workload" := WORKLOAD]> (labels ctx))).

Definition query (now later : timestamp) (fresh_session : string) (fresh_gap : uuid) (ctx : RequestContext) (p : QueryRequest)
    : M (db * V) ChatAnswer :=
  guard (valid_query p) (HTTPException 422) ;;
  try_except (answer now later fresh_session fresh_gap (scoped now ctx) (qr_question p) (qr_collection p) (qr_session_id p) None)
    (fun e => match e with
              | SessionNotFound => Some (raise (HTTPException 404))
              | BudgetExceededError => Some (raise (HTTPException 429))
              | TransientError _ => Some (raise (HTTPException 503))
              | _ => None
              end).

End chat.

(** * Lemmas *)

Lemma append_turns_ok later ctx sid u a d d' : append_turns later ctx sid [u; a] d = (Ok tt, d') →
  ∃ x x' l, In x (sessions d) ∧ ss_id x = sid ∧ Sessions.turns (ss_state x) = Some l ∧
    In x' (sessions d') ∧ ss_id x' = sid ∧ ss_tenant x' = tenant_of ctx ∧ ss_principal x' = Sessions.principal_of ctx ∧
    Sessions.turns (ss_state x') = Some (Sessions.newest (MAX_TURNS - 2) l ++ [u; a]) ∧ ss_turn_count x' = ss_turn_count x + 2 ∧ questions d' = questions d.
Proof.
  unfold append_turns. cbn [for_each]. intros E. apply bind_ok in E as ([] & d1 & E1 & E). apply bind_ok in E1 as (s1 & d1' & E1 & Er).
  injection Er as ->. apply bind_ok in E as ([] & d2 & E2 & E). injection E as <-. apply bind_ok in E2 as (s2 & d2' & E2 & Er). injection Er as ->.
  apply Sessions.append_cases in E1 as [(e & [=] & _)|(x & l & kvs & Hs & Hx & Hl & _ & ->)].
  apply Sessions.append_cases in E2 as [(e & [=] & _)|(x1 & l1 & kvs1 & Hs1 & Hx1 & Hl1 & _ & ->)].
  set (p := visible (tenant_of ctx) (Sessions.usable later sid (Sessions.principal_of ctx))) in *.
  pose proof (select_where_one _ _ _ Hs) as Hin. assert (Hpx : p x = true).
  { assert (Hi : In x (select_where p (sessions d))) by (rewrite Hs; by left). apply filter_In in Hi. apply Hi. }
  change (sessions (d <| sessions := ?q |>)) with q in Hs1.
  assert (Hkeep : ∀ turn y, p (Sessions.with_turn later MAX_TURNS turn y) = p y) by (intros; apply Sessions.with_turn_usable).
  rewrite select_update_comm, Hs in Hs1 by auto. unfold update_where in Hs1. cbn [map] in Hs1. rewrite Hpx in Hs1. injection Hs1 as <-.
  set (x2 := Sessions.with_turn later MAX_TURNS a (Sessions.with_turn later MAX_TURNS u x)).
  assert (Hu : Sessions.turns (ss_state (Sessions.with_turn later MAX_TURNS u x)) = Some (Sessions.trimmed MAX_TURNS l u)).
  { unfold Sessions.with_turn. rewrite Hl. cbn. by apply (Sessions.turns_set _ _ kvs). }
  assert (Ha : Sessions.turns (ss_state x2) = Some (Sessions.trimmed MAX_TURNS (Sessions.trimmed MAX_TURNS l u) a)).
  { unfold x2, Sessions.with_turn at 1. rewrite Hu. cbn. by apply (Sessions.turns_set _ _ kvs1). }
  assert (Hv : p x2 = true) by (unfold x2; by rewrite !Hkeep). apply Sessions.usable_spec in Hv as (V1 & V2 & V3 & _).
  pose proof Hpx as Hux. apply Sessions.usable_spec in Hux as (_ & Hidx & _).
  exists x, x2, l. split; [done|split; [done|split; [done|]]]. split.
  { apply in_update_where. exists (Sessions.with_turn later MAX_TURNS u x). rewrite Hkeep, Hpx. split; [|done].
    apply in_update_where. exists x. by rewrite Hpx. }
  split; [done|split; [done|split; [done|]]]. split; [|split; [|done]].
  - rewrite Ha, !Sessions.trimmed_newest, !Sessions.newest_app_one by done. rewrite Sessions.newest_newest by done. by rewrite <- app_assoc.
  - unfold x2. unfold Sessions.with_turn at 1. rewrite Hu. cbn. unfold Sessions.with_turn. rewrite Hl. cbn. lia.
Qed.

(** The caller's own sessions, and everything a turn must not touch. *)
Definition mine (ctx : RequestContext) : session_row → bool := visible (tenant_of ctx) (fun x => (ss_principal x =? Sessions.principal_of ctx)%N).

Definition elsewhere (ctx : RequestContext) (d : db) : list collection_build * list chunk * list session_row :=
  (builds d, chunks d, delete_where (mine ctx) (sessions d)).

Lemma append_elsewhere now ctx sid turn m d : elsewhere ctx (Sessions.append_turn now ctx sid turn m d).2 = elsewhere ctx d.
Proof.
  destruct (Sessions.append_turn now ctx sid turn m d) as [r d'] eqn:E.
  apply Sessions.append_cases in E as [(e & _ & ->)|(x & l & kvs & _ & _ & _ & _ & ->)]; [done|]. unfold elsewhere. cbn [snd].
  f_equal. apply delete_update_same.
  - intros y Hy. apply Sessions.usable_spec in Hy as (H1 & _ & H3 & _). unfold mine, visible, row_tenant, tenant_sessions. by rewrite H1, H3, !N.eqb_refl.
  - intros y. unfold Sessions.with_turn. by destruct (Sessions.turns (ss_state y)).
Qed.

Lemma append_turns_elsewhere later ctx sid l d : elsewhere ctx (append_turns later ctx sid l d).2 = elsewhere ctx d.
Proof.
  revert d. induction l as [|turn l IH]; intros d; [done|]. unfold append_turns in *. cbn [for_each]. unfold bind, ret.
  pose proof (append_elsewhere later ctx sid turn MAX_TURNS d) as H. destruct (Sessions.append_turn _ _ _ _ _ d) as [[x|e] d1]; cbn [snd] in *; [|done].
  by rewrite IH.
Qed.

Lemma record_elsewhere now fresh ctx ctx' c q mode d : elsewhere ctx (Gaps.record now fresh ctx' c q mode d).2 = elsewhere ctx d.
Proof. rewrite Gaps.record_run. cbn [snd]. destruct (_ && _); [|done]. destruct (select_where _ _); [done|]. by destruct (forallb _ _). Qed.

Lemma open_elsewhere now fresh ctx sid w d : elsewhere ctx (opening now fresh ctx sid w d).2 = elsewhere ctx d.
Proof.
  unfold opening. destruct (truthy sid); [by rewrite Sessions.load_same|]. unfold Sessions.create, tenant_session, tx, bind, Sessions.insert_session, bind, get, guard.
  destruct (negb _); [|done]. unfold elsewhere. cbn. f_equal. rewrite delete_where_app.
  match goal with |- _ ++ ?l = _ => assert (l = []) as -> end; [|apply app_nil_r]. unfold delete_where, mine, visible, row_tenant, tenant_sessions. cbn.
  by rewrite !N.eqb_refl.
Qed.

(** An opened session is the row of its id. *)
Lemma open_row now fresh ctx sid w d session d' : List.NoDup (map ss_id (sessions d)) →
  opening now fresh ctx sid w d = (Ok session, d') →
  List.NoDup (map ss_id (sessions d')) ∧ ∃ x, In x (sessions d') ∧ session = Sessions.to_session x.
Proof.
  intros Hn E. unfold opening in E. destruct (truthy sid).
  - pose proof (Sessions.load_same now ctx (coalesce sid "") d) as Hs. rewrite E in Hs. cbn [snd] in Hs. subst d'. split; [done|].
    unfold Sessions.load, tenant_session, tx, bind, sql_select, gets, one_or_none in E. cbn [rows table_sessions] in E.
    destruct (select_where _ _) as [|x [|y l]] eqn:Es; try done. injection E as <-. exists x. split; [|done].
    by apply (select_where_one _ _ _ Es).
  - unfold Sessions.create, tenant_session, tx, bind, Sessions.insert_session, bind, get, guard in E.
    set (y := mkSessionRow _ _ _ _ _ _ _ _) in E.
    destruct (existsb (fun z => String.eqb (ss_id z) (ss_id y)) (sessions d)) eqn:Ex; cbn [negb] in E; [done|]. injection E as <- <-.
    cbn. split; [|exists y; split; [apply in_app_iff; right; by left|done]].
    change (List.NoDup (map ss_id (sessions d ++ [y]))). rewrite map_app. apply NoDup_snoc; [done|]. intros Hin.
    apply in_map_iff in Hin as (z & Hz & Hzin). apply not_true_iff_false in Ex. apply Ex, existsb_exists. exists z.
    split; [done|by apply String.eqb_eq].
Qed.

Lemma record_keeps_gap now fresh ctx c q mode d : nonempty (Gaps.normalise q) && Gaps.storable c q mode = true →
  ∃ g, In g (questions (Gaps.record now fresh ctx c q mode d).2) ∧ Gaps.gap_key g = (tenant_of ctx, c, Gaps.normalise q).
Proof.
  intros H. rewrite Gaps.record_run, H. cbn [snd]. set (p := visible (tenant_of ctx) (Gaps.by_key c (Gaps.normalise q))).
  destruct (select_where p (questions d)) as [|g l] eqn:E.
  - exists (Gaps.new_gap now fresh ctx c q mode). split; [apply in_app_iff; right; by left|done].
  - assert (Hg : In g (questions d) ∧ p g = true).
    { assert (Hi : In g (select_where p (questions d))) by (rewrite E; by left). by apply filter_In in Hi. }
    destruct Hg as [Hg Hp]. apply Gaps.by_key_spec in Hp as Hk. destruct (forallb _ _); [|by exists g].
    exists (Gaps.asked_again now ctx mode g). split; [|done]. apply in_update_where. exists g. by rewrite Hp.
Qed.

Section turn.
Context {V : Type} {client : ChatClient V}.
Variable nearest : Z → list Q → list chunk → result (list (chunk * Q)).
Variable llm_model_cheap : string.
(** A scan returns matching rows, at most as many as it is asked for. *)
Hypothesis scan_matches : ∀ k p l found, nearest k p l = Ok found → count found <= Z.max 0 k ∧ ∀ y, In y found → In y.1 l.

Lemma retrieve_run ctx c probe k d r d' : builds_wf d → retrieve nearest ctx c probe k d = (r, d') →
  d' = d ∧ ∀ l, r = Ok l → l = [] ∨ ∃ v, serving (tenant_of ctx) c v d ∧ count l <= Z.max 0 k ∧
    ∀ so, In so l → ∃ y, In y.1 (content (tenant_of ctx) c v d) ∧ so = source_of y.
Proof using scan_matches.
  intros W E. unfold retrieve in E. destruct (live_version_or_none_spec ctx c d W) as (old & El & Hold).
  apply bind_cases in E as [(e & Et & ->)|(found & d1 & Et & E)]; [apply tx_raise in Et as ->; split; [done|by intros]|].
  apply (proj1 (tx_ok _ _ _ _)) in Et. rewrite (run_bind _ _ _ _ _ El) in Et. injection E as <- <-. destruct old as [v|].
  - apply bind_ok in Et as (rows & d2 & E1 & Et). injection E1 as <- <-. destruct (nearest k probe _) as [l|e] eqn:En; [|done]. injection Et as <- <-.
    split; [done|]. intros l' [= <-]. right. exists v. split; [by apply Hold|]. apply scan_matches in En as [Hn Hin]. split; [unfold count in *; by rewrite length_map|].
    intros so Hso. apply in_map_iff in Hso as (y & <- & Hy). exists y. split; [|done]. apply Hin, filter_In in Hy as [H1 H2].
    apply filter_In. split; [done|]. unfold visible, searchable in *. apply andb_true_iff in H2 as [-> H2]. by apply andb_true_iff in H2 as [-> _].
  - injection Et as <- <-. split; [done|]. intros l [= <-]. by left.
Qed.

(** What a finished turn leaves in the caller's session: the newest of its turns, then these. *)
Definition turn_recorded (ctx : RequestContext) (session : Sessions.Session) (question : string) (reply : json) (d : db) : Prop :=
  ∃ x l, In x (sessions d) ∧ ss_id x = Sessions.sn_id session ∧ mine ctx x = true ∧ Sessions.turns (Sessions.sn_state session) = Some l ∧
    Sessions.turns (ss_state x) = Some (Sessions.newest (MAX_TURNS - 2) l ++ [user_turn question; reply]).

(** An answer from sources of the live build, in the model's words, to a request of them and
    the newest turns of the session. *)
Definition grounded_in (ctx : RequestContext) (model : string) (history : list json) (question c : string) (a : ChatAnswer) (d : db) (w : V) : Prop :=
  ca_sources a ≠ [] ∧ count (ca_sources a) <= MAX_CONTEXT_CHUNKS ∧
  (∃ v, serving (tenant_of ctx) c v d ∧ ∀ so, In so (ca_sources a) → ∃ y, In y.1 (content (tenant_of ctx) c v d) ∧ so = source_of y) ∧
  count history <= MAX_HISTORY_TURNS ∧
  ∃ past response s1 d2, turn_messages history = Ok past ∧
    client_chat ctx (request_of model history past (ca_sources a) question) s1 = (Ok response, (d2, w)) ∧
    ca_answer a = Cache.rs_content response ∧ ca_cost_usd a = Cache.rs_cost_usd response.

(** A refusal: after the embedding nothing is asked of the model, and the gap is kept. *)
Definition refused (ctx : RequestContext) (question c : string) (a : ChatAnswer) (d : db) (w : V) : Prop :=
  ca_sources a = [] ∧ ca_answer a = NO_SOURCES ∧ ca_cost_usd a = 0%Q ∧
  (∃ s1 vectors d2, client_embed ctx [question] s1 = (Ok vectors, (d2, w))) ∧
  (nonempty (Gaps.normalise question) && Gaps.storable c question "dense" = true →
   ∃ g, In g (questions d) ∧ Gaps.gap_key g = (tenant_of ctx, c, Gaps.normalise question)).

Lemma history_short state : count (history_of state) <= MAX_HISTORY_TURNS.
Proof using.
  unfold history_of. destruct (Sessions.turns_value state) as [[| | | | |l|]|]; try done. unfold Sessions.newest, count, MAX_HISTORY_TURNS.
  rewrite length_skipn. lia.
Qed.

Lemma embed_elsewhere ctx ctx' l s r s' : client_embed ctx l s = (r, s') → elsewhere ctx' s'.1 = elsewhere ctx' s.1 ∧ builds s'.1 = builds s.1 ∧ chunks s'.1 = chunks s.1.
Proof using.
  intros E. pose proof (embed_keeps_conversation ctx l s) as H. rewrite E in H. cbn [snd] in H. unfold conversation in H. injection H as H1 H2 H3 H4.
  unfold elsewhere. by rewrite H1, H2, H3.
Qed.

Lemma chat_elsewhere ctx ctx' q s r s' : client_chat ctx q s = (r, s') → elsewhere ctx' s'.1 = elsewhere ctx' s.1.
Proof using.
  intros E. pose proof (chat_keeps_conversation ctx q s) as H. rewrite E in H. cbn [snd] in H. unfold conversation in H. injection H as H1 H2 H3 H4.
  unfold elsewhere. by rewrite H1, H2, H3.
Qed.

Lemma turns_recorded later ctx session question reply d x d' : List.NoDup (map ss_id (sessions d)) → In x (sessions d) →
  session = Sessions.to_session x → append_turns later ctx (Sessions.sn_id session) [user_turn question; reply] d = (Ok tt, d') →
  turn_recorded ctx session question reply d' ∧ questions d' = questions d.
Proof using.
  intros Hn Hx -> E. apply append_turns_ok in E as (x1 & x' & l & H1 & H2 & H3 & H4 & H5 & H6 & H7 & H8 & _ & H9). split; [|done].
  rewrite (key_unique ss_id (sessions d) x1 x Hn H1 Hx H2) in H3. exists x', l.
  split; [done|split; [done|split; [|done]]]. unfold mine, visible, row_tenant, tenant_sessions. by rewrite H6, H7, !N.eqb_refl.
Qed.

Lemma on_db_elsewhere {A} ctx (m : M db A) C :
  (∀ d, elsewhere ctx (m d).2 = elsewhere ctx d) → preserves (fun s : db * V => elsewhere ctx s.1 = C) (on_db m).
Proof using. intros H [d w] E. unfold on_db. cbn [fst snd] in *. specialize (H d). destruct (m d) as [r d']. cbn in *. congruence. Qed.

Lemma retrieve_same ctx c probe k d : (retrieve nearest ctx c probe k d).2 = d.
Proof using.
  unfold retrieve, bind, tenant_session, tx, live_version_or_none, try_except, live_version, tenant_session, query_live, sql_select, gets, bind, tx, one_or_none.
  destruct (select_where _ _) as [|b [|b' l]]; cbn; try done. by destruct (nearest _ _ _).
Qed.

Lemma answer_elsewhere now later fs fg ctx q c sid model s :
  elsewhere ctx (answer nearest llm_model_cheap now later fs fg ctx q c sid model s).2.1 = elsewhere ctx s.1.
Proof using.
  set (C := elsewhere ctx s.1). enough (H : preserves (fun s => elsewhere ctx s.1 = C) (answer nearest llm_model_cheap now later fs fg ctx q c sid model)) by by apply H.
  unfold answer. apply preserves_bind; [apply on_db_elsewhere; intros; apply open_elsewhere|]. intros session.
  apply preserves_bind.
  { intros s0 E. destruct (client_embed ctx [q] s0) as [r s1] eqn:Ee. cbn [snd]. apply (embed_elsewhere ctx ctx) in Ee as [-> _]. done. }
  intros vectors. apply preserves_bind; [destruct vectors; auto with platform|]. intros probe.
  apply preserves_bind; [apply on_db_elsewhere; intros; by rewrite retrieve_same|]. intros [|so sources].
  - apply preserves_bind; [apply on_db_elsewhere; intros; apply record_elsewhere|]. intros _.
    apply preserves_bind; [apply on_db_elsewhere; intros; apply append_turns_elsewhere|auto with platform].
  - apply preserves_bind; [destruct (turn_messages _); auto with platform|]. intros past. apply preserves_bind.
    { intros s0 E. destruct (client_chat ctx _ s0) as [r s1] eqn:Ee. cbn [snd]. by apply (chat_elsewhere ctx ctx) in Ee as ->. }
    intros response. apply preserves_bind; [apply on_db_elsewhere; intros; apply append_turns_elsewhere|auto with platform].
Qed.

(** The rows of the sessions are what they were when the session was opened. *)
Lemma record_sessions now fresh ctx c q mode d : sessions (Gaps.record now fresh ctx c q mode d).2 = sessions d.
Proof using. rewrite Gaps.record_run. cbn [snd]. destruct (_ && _); [|done]. destruct (select_where _ _); [done|]. by destruct (forallb _ _). Qed.

Lemma answer_ok now later fs fg ctx q c sid model s a s' : builds_wf s.1 → List.NoDup (map ss_id (sessions s.1)) →
  answer nearest llm_model_cheap now later fs fg ctx q c sid model s = (Ok a, s') →
  ∃ session, (opening now fs ctx sid WORKLOAD s.1).1 = Ok session ∧ ca_session_id a = Sessions.sn_id session ∧
    if ca_grounded a then grounded_in ctx (model_or llm_model_cheap model) (history_of (Sessions.sn_state session)) q c a s.1 s'.2 ∧
      turn_recorded ctx session q (answer_turn (ca_answer a) c (ca_sources a)) s'.1
    else refused ctx q c a s'.1 s'.2 ∧ turn_recorded ctx session q (refusal_turn c) s'.1.
Proof using scan_matches.
  intros W Hn E. unfold answer in E. apply bind_ok in E as (session & s1 & Eo & E). apply on_db_inv in Eo as [Eo _].
  exists session. rewrite Eo. split; [done|].
  pose proof (open_elsewhere now fs ctx sid WORKLOAD s.1) as Ho. rewrite Eo in Ho. cbn [snd] in Ho. injection Ho as Hb Hc _.
  destruct (open_row _ _ _ _ _ _ _ _ Hn Eo) as (Hn1 & x0 & Hx0 & Hsx).
  apply bind_ok in E as (vectors & s2 & Ee & E). pose proof (embed_elsewhere ctx ctx _ _ _ _ Ee) as (_ & Hb' & Hc').
  assert (Hs2 : sessions s2.1 = sessions s1.1).
  { pose proof (embed_keeps_conversation ctx [q] s1) as H. rewrite Ee in H. cbn [snd] in H. by injection H. }
  rewrite <- Hs2 in Hn1, Hx0.
  rewrite Hb in Hb'. rewrite Hc in Hc'. apply bind_ok in E as (probe & s3 & Ep & E).
  assert (s3 = s2) as -> by (by destruct vectors; injection Ep). clear Ep.
  apply bind_ok in E as (sources & s3 & Er & E). apply on_db_inv in Er as [Er Hw].
  apply retrieve_run in Er as [Hd Hs]; [|by apply (wf_same s.1)]. destruct s3 as [d3 w3]. cbn [fst snd] in Hd, Hw. subst d3 w3.
  destruct sources as [|so sources].
  - apply bind_ok in E as ([] & s4 & Eg & E). apply on_db_inv in Eg as [Eg Hw]. apply bind_ok in E as ([] & s5 & Et & E).
    apply on_db_inv in Et as [Et Hw']. injection E as <- <-. cbn [ca_grounded ca_session_id]. split; [done|]. cbn [fst] in Eg.
    pose proof (record_sessions later fg ctx c q "dense" s2.1) as Hs4. rewrite Eg in Hs4. cbn [snd] in Hs4.
    apply (turns_recorded _ _ _ _ _ _ x0) in Et as [Ht Hq]; [|by rewrite Hs4|by rewrite Hs4|done].
    split; [|done]. split; [done|split; [done|split; [done|]]]. split.
    + exists s1, vectors, s2.1. rewrite Hw', Hw. by destruct s2.
    + intros Hg. pose proof (record_keeps_gap later fg ctx c q "dense" s2.1 Hg) as (g & Hin & Hk). rewrite Eg in Hin. exists g. by rewrite Hq.
  - apply bind_ok in E as (past & s4 & Em & E). destruct (turn_messages _) as [ms|e] eqn:Ems; [|done]. injection Em as <- <-.
    apply bind_ok in E as (response & s5 & Ec & E). apply bind_ok in E as ([] & s6 & Et & E). apply on_db_inv in Et as [Et Hw'].
    injection E as <- <-. cbn [ca_grounded ca_session_id ca_answer ca_sources]. split; [done|].
    assert (Hs5 : sessions s5.1 = sessions s2.1).
    { match type of Ec with client_chat _ ?rq _ = _ => pose proof (chat_keeps_conversation ctx rq (s2.1, s2.2)) as H end. rewrite Ec in H. by injection H. }
    apply (turns_recorded _ _ _ _ _ _ x0) in Et as [Ht _]; [|by rewrite Hs5|by rewrite Hs5|done]. split; [|done].
    destruct (Hs _ eq_refl) as [[=]|(v & Hv & Hcount & Hin)]. split; [done|split; [done|split]].
    + exists v. split; [by apply (serving_same _ _ _ s2.1)|]. intros s0 H0. apply Hin in H0 as (y & H1 & H2). exists y. split; [|done].
      unfold content in *. by rewrite Hc' in H1.
    + split; [apply history_short|]. exists ms, response, (s2.1, s2.2), s5.1. split; [exact Ems|]. rewrite Hw'.
      split; [|done]. destruct s5 as [d5 w5]. exact Ec.
Qed.

End turn.

(** C24: a chat turn is grounded or refused.  A turn that returns was taken in the session it
    named, or a new one, and has put exactly the user's question and the reply, in this order,
    after the newest turns of that session, which is the caller's own.  A grounded reply
    rests on one to five chunks, all of the build of the collection that is being served to
    the caller's tenant, is what the model answered to a request made of those sources, the
    question and the last turns of that session, at most six, and costs what that call cost.
    Without a source the reply is the fixed refusal: the model is not asked, nothing more is
    charged, and a question the backlog can hold (one that is more than punctuation, in text
    and collection name the table stores) is in the tenant's backlog.  However a turn ends,
    nobody else's session changes, no build and no chunk; and for a session the caller cannot
    load it ends before anything is spent. *)
Theorem turn_is_grounded_or_refused {V} {client : ChatClient V} nearest llm_model_cheap now later fresh_session fresh_gap ctx
    question c session_id model (s : db * V) r s' :
  (∀ k p l found, nearest k p l = Ok found → count found <= Z.max 0 k ∧ ∀ y : chunk * Q, In y found → In y.1 l) →
  builds_wf s.1 → List.NoDup (map ss_id (sessions s.1)) →
  answer nearest llm_model_cheap now later fresh_session fresh_gap ctx question c session_id model s = (r, s') →
  elsewhere ctx s'.1 = elsewhere ctx s.1 ∧
  (∀ sid e, session_id = Some sid → sid ≠ "" → (Sessions.load now ctx sid s.1).1 = Raise e → r = Raise e ∧ s' = s) ∧
  ∀ a, r = Ok a → ∃ session, (opening now fresh_session ctx session_id WORKLOAD s.1).1 = Ok session ∧
    ca_session_id a = Sessions.sn_id session ∧
    if ca_grounded a then
      grounded_in ctx (model_or llm_model_cheap model) (history_of (Sessions.sn_state session)) question c a s.1 s'.2 ∧
      turn_recorded ctx session question (answer_turn (ca_answer a) c (ca_sources a)) s'.1
    else refused ctx question c a s'.1 s'.2 ∧ turn_recorded ctx session question (refusal_turn c) s'.1.
Proof.
  intros Hscan W Hn E. split; [|split].
  - pose proof (answer_elsewhere nearest llm_model_cheap now later fresh_session fresh_gap ctx question c session_id model s) as H. by rewrite E in H.
  - intros sid e -> Hne Hl. unfold answer, opening in E. assert (truthy (Some sid) = true) as Ht by (cbn; destruct sid; done). rewrite Ht in E. cbn [coalesce] in E.
    assert (El : on_db (Sessions.load now ctx sid) s = (Raise e, s)).
    { unfold on_db. pose proof (Sessions.load_same now ctx sid s.1) as Hs. destruct (Sessions.load now ctx sid s.1) as [r0 d0]. cbn in *. subst. by destruct s. }
    rewrite (run_bind_raise _ _ _ _ _ El) in E. by injection E.
  - intros a ->. by apply (answer_ok nearest llm_model_cheap Hscan now later fresh_session fresh_gap ctx question c session_id model s).
Qed.

(** * The client of the platform *)

Section platform.
Import Cache Ledger Llm.
Context {P : Type}.
Variable chat_create : ChatRequest → P → (raw_response + failure) * P.
Variable embed_create : string → list string → P → (option (option Z) * list (list Q) + exn) * P.
Variable encoding_for_model : string → option encoder.
Variable base_encoding : option encoder.
Variables (str_of : json → string) (sha256 : string → string).
Variable month_start : timestamp → timestamp.
Variable st : ledger_settings.
Variables (default_max_output_tokens : Z) (has_cache : bool) (cache_ttl : Z).
Variable during : Z → db → db.
(** While a request is out, nobody else touches the conversation. *)
Hypothesis during_keeps : ∀ n d, conversation (during n d) = conversation d.
Variables (now done_at : timestamp) (fault fault' : option exn) (down : bool) (reserved reserved' : uuid) (rnd : Z → Q).
Variable embedding_model : string.

Definition platform_embed (ctx : RequestContext) (texts : list string) : M (db * world P) (list (list Q)) :=
  embed P embed_create encoding_for_model base_encoding month_start st during now done_at fault fault' reserved ctx texts embedding_model.

Definition platform_chat (ctx : RequestContext) (r : ChatRequest) : M (db * world P) ChatResponse :=
  chat P chat_create encoding_for_model base_encoding str_of sha256 month_start st default_max_output_tokens has_cache cache_ttl
    during now done_at fault fault' down reserved' rnd ctx r.

Lemma platform_embed_keeps ctx l s : conversation (platform_embed ctx l s).2.1 = conversation s.1.
Proof using during_keeps. by apply (Frame.embed_leaves conversation). Qed.

Lemma platform_chat_keeps ctx r s : conversation (platform_chat ctx r s).2.1 = conversation s.1.
Proof using during_keeps. by apply (Frame.chat_leaves conversation). Qed.

#[export] Instance llm_client : ChatClient (world P) :=
  mkChatClient (world P) platform_embed platform_chat platform_embed_keeps platform_chat_keeps.

End platform.

Module ChatDemo.
Definition st : Ledger.ledger_settings := Ledger.mkLedgerSettings 100000 25 false 5000000 900 None.
Definition embed_create (_ : string) (l : list string) (n : Z) : (option (option Z) * list (list Q) + exn) * Z :=
  (inl (Some (Some 7), map (fun s => [inject_Z (str_len s)]) l), n + 1).
#[export] Instance client : ChatClient (Llm.world Z) :=
  llm_client Llm.LlmDemo.create embed_create (fun _ => None) (Some (fun s => Ok (str_len s))) (fun _ => "") Cache.CacheDemo.sha (fun x => x) st
    100 true 3600 (fun _ d => d) (fun _ _ => eq_refl) 5 9 None None false 77 78 (fun _ => 0%Q) "text-embedding-3-small".
(** An exact scan in table order. *)
Definition nearest (k : Z) (_ : list Q) (l : list chunk) : result (list (chunk * Q)) :=
  Ok (map (fun x => (x, 1%Q)) (firstn (Z.to_nat k) l)).
Definition ch (v : Z) (id : string) : chunk := mkChunk 1 50 "manuals" id 0 v "Open the bleed valve." JNull (Some [1%Q]) None.
(** Build 4 is served, 5 is being written. *)
Definition d0 : db := empty_db <| builds := [BuildsDemo.build 4 live] |> <| chunks := [ch 5 "c_new"; ch 4 "c_a"] |>.
Definition s0 : db * Llm.world Z := (d0, Llm.mkWorld Z (Ledger.mkMemory ∅ ∅) Cache.CacheDemo.c0 0).
Notation turn c sid s := (answer (client := client) nearest "gpt-4o-mini" 5 9 "s1" 60%N Demo.ctx "How do I bleed the pump?" c sid None s).
End ChatDemo.

#[local] Existing Instance ChatDemo.client.

Lemma demo_scan : ∀ k p l found, ChatDemo.nearest k p l = Ok found → count found <= Z.max 0 k ∧ ∀ y : chunk * Q, In y found → In y.1 l.
Proof.
  intros k p l found [= <-]. split; [unfold count; rewrite length_map, length_firstn; lia|].
  intros y Hy. apply in_map_iff in Hy as (x & <- & Hx). by apply firstn_subset in Hx.
Qed.

(** A turn over an indexed collection, and one over a collection that never was. *)
Lemma turn_is_grounded_or_refused_witness :
  (∃ a s', ChatDemo.turn "manuals" None ChatDemo.s0 = (Ok a, s') ∧ ca_grounded a = true ∧ ca_answer a = "ok" ∧
     grounded_in Demo.ctx "gpt-4o-mini" [] "How do I bleed the pump?" "manuals" a ChatDemo.d0 s'.2 ∧ map so_canonical_id (ca_sources a) = ["c_a"]) ∧
  (∃ a s', ChatDemo.turn "wiring" None ChatDemo.s0 = (Ok a, s') ∧ ca_answer a = NO_SOURCES ∧ Llm.w_provider Z s'.2 = 1 ∧
     length (questions s'.1) = 1%nat).
Proof.
  assert (W : builds_wf ChatDemo.s0.1).
  { constructor; [apply NoDup_ListNoDup, (bool_decide_unpack _); vm_compute; done|]. intros b b' [<-|[]] [<-|[]] _ _ _. reflexivity. }
  split.
  - destruct (ChatDemo.turn "manuals" None ChatDemo.s0) as [r s'] eqn:E. pose proof (f_equal fst E) as Er. vm_compute in Er. cbn [fst] in Er. subst r.
    destruct (turn_is_grounded_or_refused (client := ChatDemo.client) ChatDemo.nearest "gpt-4o-mini" 5 9 "s1" 60%N Demo.ctx "How do I bleed the pump?" "manuals"
      None None ChatDemo.s0 _ s' demo_scan W (List.NoDup_nil _) E) as (_ & _ & H).
    destruct (H _ eq_refl) as (session & Es & _ & H1 & _). vm_compute in Es. injection Es as <-.
    eexists _, s'. split; [reflexivity|]. split; [reflexivity|]. split; [reflexivity|]. split; [exact H1|reflexivity].
  - destruct (ChatDemo.turn "wiring" None ChatDemo.s0) as [r s'] eqn:E. pose proof (f_equal fst E) as Er. vm_compute in Er. cbn [fst] in Er. subst r.
    pose proof (f_equal (fun x => (Llm.w_provider Z x.2.2, length (questions x.2.1))) E) as Ew. vm_compute in Ew. injection Ew as E1 E2.
    eexists _, s'. split; [reflexivity|]. split; [reflexivity|]. split; [by rewrite E1|by rewrite E2].
Defined.
