(* ===== verification/Onboarding.v ===== *)
(** Onboarding a domain: [workloads/onboarding/store.py].  The drafting run and the routes
    over the store are in [Drafting.v].

    The checks and the partial unique index of migrations 0013, 0017 and 0019 are the guards
    of the statements.  Rows are returned, not rendered. *)
From S2P Require Import Prelude Identity Json Text Db Outbox AuditTrail.
From S2P Require Builds Leases.

Definition SINGLETON_KINDS : list string := ["schema"; "instance_table"; "predicate_map"; "candidate_queries"].
Definition ARTIFACT_KINDS : list string := ["schema"; "instance_table"; "predicate_map"; "extraction_cache"; "candidate_queries"].

Definition drafted_name (kind : string) : string := kind +:+ "_drafted".

(** * The tables *)

(** The checks of a row: maker is not checker, editor is not checker, no half-written
    approval or edit. *)
Definition session_ok (x : onboarding_session) : bool :=
  match os_approved_by x, os_created_by x with Some a, Some c => negb (a =? c)%N | _, _ => true end
  && Bool.eqb (is_some (os_approved_by x)) (is_some (os_approved_at x))
  && Bool.eqb (is_some (os_schema_edited_by x)) (is_some (os_schema_edited_at x))
  && match os_approved_by x, os_schema_edited_by x with Some a, Some e => negb (a =? e)%N | _, _ => true end.

Definition is_published (x : onboarding_session) : bool := bool_decide (os_status x = on_published).

Definition live_slot (x : onboarding_session) : uuid * string := (os_tenant x, os_domain x).

(** [onboarding_session_one_published_idx]. *)
Definition one_published (l : list onboarding_session) : bool := bool_decide (NoDup (map live_slot (select_where is_published l))).

Definition update_sessions (p : onboarding_session → bool) (f : onboarding_session → onboarding_session) : M db (list onboarding_session) :=
  d <- get ;;
  guard (forallb session_ok (update_where p f (onboardings d))) (IntegrityError "onboarding_session_check") ;;
  guard (one_published (update_where p f (onboardings d))) (IntegrityError "onboarding_session_one_published_idx") ;;
  sql_update p f.

Definition by_id (sid : uuid) (x : onboarding_session) : bool := (os_id x =? sid)%N.

Definition artifact_key (x : onboarding_artifact) : uuid * string * string := (oa_session x, oa_kind x, oa_name x).

Definition of_session (sid : uuid) (x : onboarding_artifact) : bool := (oa_session x =? sid)%N.

Definition named (sid : uuid) (kind name : string) (x : onboarding_artifact) : bool :=
  of_session sid x && String.eqb (oa_kind x) kind && String.eqb (oa_name x) name.

(** * Sessions *)

Definition create (now : timestamp) (fresh : uuid) (ctx : RequestContext) (domain collection : string) (run_id : option uuid) : M db uuid :=
  guard ((str_len (lower (strip domain)) <=? 64) && (str_len collection <=? 128)) (OtherError "DataError") ;;
  d <- get ;;
  guard (negb (existsb (by_id fresh) (onboardings d))) (IntegrityError "onboarding_session_pkey") ;;
  sql_insert (mkOnboarding fresh (tenant_of ctx) (lower (strip domain)) collection on_drafting [] (JObj []) None run_id
    (Some (principal_uuid (principal ctx))) now now None None None None None) ;;
  ret fresh.

Definition find_session (ctx : RequestContext) (sid : uuid) : M db (option onboarding_session) :=
  found <- sql_select (visible (tenant_of ctx) (by_id sid)) ;;
  one_or_none found.

Definition get_session (ctx : RequestContext) (sid : uuid) : M db (option onboarding_session) := tenant_session (find_session ctx sid).

Definition latest (x y : onboarding_session) : bool := os_created_at y <=? os_created_at x.

Definition in_domain (domain : string) (x : onboarding_session) : bool := String.eqb (os_domain x) domain.

(** A filter by domain when one is given. *)
Definition listed (domain : option string) (x : onboarding_session) : bool :=
  negb (truthy domain) || in_domain (lower (strip (coalesce domain ""))) x.

Definition list_sessions (ctx : RequestContext) (domain : option string) (limit : Z) : M db (list onboarding_session) :=
  tenant_session (gets (fun d => firstn (Z.to_nat limit) (order_by latest (select_where (visible (tenant_of ctx) (listed domain)) (onboardings d))))).

Definition append_progress (now : timestamp) (ctx : RequestContext) (sid : uuid) (entry : json) : M db unit :=
  tenant_session (
    update_sessions (visible (tenant_of ctx) (by_id sid)) (fun x => x <| os_progress := os_progress x ++ [entry] |> <| os_updated_at := now |>) ;;
    ret tt).

Definition with_status (now : timestamp) (status : onboarding_status) (error : option string) (stats : option json) (x : onboarding_session)
    : onboarding_session :=
  x <| os_status := status |> <| os_updated_at := now |> <| os_error := coalesce_opt error (os_error x) |>
    <| os_stats := coalesce stats (os_stats x) |>.

Definition set_status (now : timestamp) (ctx : RequestContext) (sid : uuid) (status : onboarding_status) (error : option string)
    (stats : option json) : M db unit :=
  tenant_session (update_sessions (visible (tenant_of ctx) (by_id sid)) (with_status now status error stats) ;; ret tt).

(** * Artifacts *)

Definition put_artifact (now : timestamp) (ctx : RequestContext) (sid : uuid) (kind name : string) (payload : json) : M db unit :=
  tenant_session (
    guard (mem ARTIFACT_KINDS kind && (str_len name <=? 256)) (IntegrityError "onboarding_artifact_kind_valid") ;;
    d <- get ;;
    guard (existsb (by_id sid) (onboardings d)) (IntegrityError "onboarding_artifact_session_id_fkey") ;;
    match select_where (named sid kind name) (artifacts d) with
    | [] => sql_insert (mkArtifact (tenant_of ctx) sid kind name payload now)
    | l =>
        guard (forallb (fun x => (oa_tenant x =? tenant_of ctx)%N) l) (OtherError "InsufficientPrivilege") ;;
        sql_update (named sid kind name) (fun x => x <| oa_payload := payload |> <| oa_created_at := now |>) ;; ret tt
    end).

(** What [artifacts_for] returns: the singletons by kind, and the cache by file name. *)
Record artifact_set := mkArtifactSet {
  as_singletons : gmap string json;
  as_cache : gmap string json
}.

Definition add_artifact (s : artifact_set) (x : onboarding_artifact) : artifact_set :=
  if String.eqb (oa_kind x) "extraction_cache" then mkArtifactSet (as_singletons s) (<[oa_name x := oa_payload x]> (as_cache s))
  else if mem SINGLETON_KINDS (oa_kind x) && String.eqb (oa_name x) (oa_kind x) then
    mkArtifactSet (<[oa_kind x := oa_payload x]> (as_singletons s)) (as_cache s)
  else s.

Definition artifact_set_of (rows : list onboarding_artifact) : artifact_set := foldl add_artifact (mkArtifactSet ∅ ∅) rows.

Definition artifacts_for (ctx : RequestContext) (sid : uuid) : M db artifact_set :=
  tenant_session (rows <- sql_select (visible (tenant_of ctx) (of_session sid)) ;; ret (artifact_set_of rows)).

Definition count_kind (m : gmap string Z) (x : onboarding_artifact) : gmap string Z := <[oa_kind x := coalesce (m !! oa_kind x) 0 + 1]> m.

Definition artifact_counts (ctx : RequestContext) (sid : uuid) : M db (gmap string Z) :=
  tenant_session (rows <- sql_select (visible (tenant_of ctx) (of_session sid)) ;; ret (foldl count_kind ∅ rows)).

(** [SELECT payload ... scalar_one_or_none()]: a JSON null is [None] too. *)
Definition payload_of (ctx : RequestContext) (sid : uuid) (kind : string) : M db (option json) :=
  found <- sql_select (visible (tenant_of ctx) (named sid kind kind)) ;;
  x <- one_or_none found ;;
  ret (match x with Some x => match oa_payload x with JNull => None | v => Some v end | None => None end).

Definition put_payload (touch : option timestamp) (ctx : RequestContext) (sid : uuid) (kind : string) (payload : json) : M db unit :=
  sql_update (visible (tenant_of ctx) (named sid kind kind))
    (fun x => x <| oa_payload := payload |> <| oa_created_at := coalesce touch (oa_created_at x) |>) ;;
  ret tt.

(** [onboarding_artifact_uniq]. *)
Definition insert_artifact (x : onboarding_artifact) : M db unit :=
  d <- get ;;
  guard (match select_where (named (oa_session x) (oa_kind x) (oa_name x)) (artifacts d) with [] => true | _ => false end)
    (IntegrityError "onboarding_artifact_uniq") ;;
  sql_insert x.

(** [_retain_original]. *)
Definition retain_original (now : timestamp) (ctx : RequestContext) (sid : uuid) (kind : string) : M db bool :=
  found <- sql_select (visible (tenant_of ctx) (named sid kind (drafted_name kind))) ;;
  kept <- one_or_none found ;;
  if is_some kept then ret false
  else
    originals <- sql_select (visible (tenant_of ctx) (named sid kind kind)) ;;
    for_each originals (fun x => insert_artifact (mkArtifact (oa_tenant x) (oa_session x) (oa_kind x) (drafted_name kind) (oa_payload x) now)) ;;
    ret true.

(** * JSON objects as dictionaries *)

Definition jget (k : string) (v : json) : option json :=
  match v with JObj kvs => option_map snd (List.find (fun kv => String.eqb kv.1 k) kvs) | _ => None end.

Definition jset (k : string) (w v : json) : json :=
  match v with
  | JObj kvs => JObj (if existsb (fun kv => String.eqb kv.1 k) kvs then map (fun kv => if String.eqb kv.1 k then (kv.1, w) else kv) kvs
                      else kvs ++ [(k, w)])
  | _ => v
  end.

(** [list((payload or {}).get(k) or [])]; another shape than an object with a list raises. *)
Definition members (k : string) (payload : option json) : result (list json) :=
  match payload with
  | None | Some (JObj []) | Some (JArr []) | Some (JBool false) | Some (JInt 0) | Some (JStr "") => Ok []
  | Some (JObj kvs) =>
      match jget k (JObj kvs) with
      | None | Some JNull | Some (JBool false) | Some (JInt 0) | Some (JStr "") | Some (JObj []) => Ok []
      | Some (JArr l) => Ok l
      | Some _ => Raise (TypeError "not iterable")
      end
  | Some _ => Raise (OtherError "AttributeError")
  end.

Definition lift {A} (r : result A) : M db A := match r with Ok a => ret a | Raise e => raise e end.

(** * The questions *)

Definition candidate_queries (ctx : RequestContext) (sid : uuid) : M db (list json) :=
  payload <- tenant_session (payload_of ctx sid "candidate_queries") ;;
  lift (members "queries" payload).

Definition has_id (query_id : string) (q : json) : bool :=
  match jget "id" q with Some (JStr s) => String.eqb s query_id | _ => false end.

(** The loop over the queries: the first with the id; a query that is no object raises. *)
Fixpoint find_query (query_id : string) (l : list json) : result (option json) :=
  match l with
  | [] => Ok None
  | JObj kvs :: l' => if has_id query_id (JObj kvs) then Ok (Some (JObj kvs)) else find_query query_id l'
  | _ => Raise (OtherError "AttributeError")
  end.

(** The edit of the question found: its new text, and the flag that a human wrote it. *)
Definition revised (query_text : option string) (approved : option bool) (q : json) : result json :=
  match query_text, jget "text" q with
  | Some _, None => Raise (LookupError "text")
  | Some t, Some old =>
      let q1 := match old with
                | JStr s => if String.eqb (strip t) s then q else jset "edited" (JBool true) (jset "text" (JStr (strip t)) q)
                | _ => jset "edited" (JBool true) (jset "text" (JStr (strip t)) q)
                end in
      Ok (match approved with Some b => jset "approved" (JBool b) q1 | None => q1 end)
  | None, _ => Ok (match approved with Some b => jset "approved" (JBool b) q | None => q end)
  end.

(** The first query with the id is replaced. *)
Fixpoint replace_first (p : json → bool) (w : json) (l : list json) : list json :=
  match l with [] => [] | q :: l' => if p q then w :: l' else q :: replace_first p w l' end.

Definition curate_query (ctx : RequestContext) (sid : uuid) (query_id : string) (query_text : option string) (approved : option bool)
    : M db json :=
  tenant_session (
    row <- find_session ctx sid ;;
    match row with
    | None => raise (LookupError "Session not found.")
    | Some x =>
        guard (negb (is_published x)) (ValueError "This session is published") ;;
        payload <- payload_of ctx sid "candidate_queries" ;;
        queries <- lift (members "queries" payload) ;;
        guard (match queries with [] => false | _ => true end) (ValueError "This session proposed no candidate queries.") ;;
        q <- lift (find_query query_id queries) ;;
        match q with
        | None => raise (LookupError "Query not found in this session.")
        | Some q =>
            found <- lift (revised query_text approved q) ;;
            put_payload None ctx sid "candidate_queries"
              (jset "queries" (JArr (replace_first (has_id query_id) found queries)) (coalesce payload (JObj []))) ;;
            ret found
        end
    end).

(** * The taxonomy *)

Definition removeprefix (p s : string) : string :=
  if startswith p s then String.substring (String.length p) (String.length s - String.length p) s else s.

Section retyping.
(** [str] of a value that is no string. *)
Variable str_of : json → string.

Definition type_of (inst : json) : string :=
  match jget "entity_type" inst with Some (JStr s) => s | Some v => str_of v | None => "" end.

(** The new type of an instance, if the correction gives it one. *)
Definition mapped_type (retype : gmap string string) (inst : json) : option string :=
  let current := type_of inst in
  match py_or (retype !! current) (retype !! removeprefix "raw:" current) with
  | Some m => if nonempty m && negb (String.eqb m current) then Some m else None
  | None => None
  end.

Definition retyped (retype : gmap string string) (inst : json) : json :=
  match mapped_type retype inst with Some m => jset "entity_type" (JStr m) inst | None => inst end.

Definition retyped_count (retype : gmap string string) (l : list json) : Z := count (List.filter (fun i => is_some (mapped_type retype i)) l).

Record edit_result := mkEditResult {
  ed_original_retained : bool;
  ed_instances_retyped : Z
}.

Definition retype_instances (now : timestamp) (ctx : RequestContext) (sid : uuid) (retype : gmap string string) : M db Z :=
  if bool_decide (retype = ∅) then ret 0
  else
    table <- payload_of ctx sid "instance_table" ;;
    match table with
    | None => raise (ValueError "This session has no instance table")
    | Some v =>
        retain_original now ctx sid "instance_table" ;;
        instances <- lift (members "instances" (Some v)) ;;
        guard (forallb (fun i => match i with JObj _ => true | _ => false end) instances) (OtherError "AttributeError") ;;
        guard (match v with JObj _ => true | _ => false end) (TypeError "list indices must be integers") ;;
        put_payload (Some now) ctx sid "instance_table" (jset "instances" (JArr (map (retyped retype) instances)) v) ;;
        ret (retyped_count retype instances)
    end.

(** What follows the SELECT of the status: [row] is what it returned, and no statement after
    it looks at the status again. *)
Definition edit_found (now : timestamp) (ctx : RequestContext) (sid : uuid) (yaml_text : string) (retype : gmap string string)
    (row : option onboarding_session) : M db edit_result :=
  match row with
  | None => raise (LookupError "Session not found.")
  | Some x =>
      guard (bool_decide (os_status x = on_draft_ready)) (ValueError "only a draft_ready taxonomy can be edited") ;;
      current <- payload_of ctx sid "schema" ;;
      guard (is_some current) (ValueError "This session has no drafted schema to edit") ;;
      kept <- retain_original now ctx sid "schema" ;;
      put_payload (Some now) ctx sid "schema" (JObj [("yaml", JStr yaml_text)]) ;;
      n <- retype_instances now ctx sid retype ;;
      update_sessions (visible (tenant_of ctx) (by_id sid))
        (fun x => x <| os_schema_edited_by := Some (principal_uuid (principal ctx)) |> <| os_schema_edited_at := Some now |> <| os_updated_at := now |>) ;;
      ret (mkEditResult kept n)
  end.

(** The SELECT takes no lock: [between] is what other transactions commit after it. *)
Definition edit_schema (now : timestamp) (between : db → db) (ctx : RequestContext) (sid : uuid) (yaml_text : string) (retype : gmap string string)
    : M db edit_result :=
  row <- tenant_session (find_session ctx sid) ;;
  modify between ;;
  tenant_session (edit_found now ctx sid yaml_text retype row).

End retyping.

(** * Approval and publication *)

Definition same_principal (o : option uuid) (ctx : RequestContext) : bool := eqb_opt N.eqb o (principal_uuid (principal ctx)).

Definition ready (sid : uuid) (x : onboarding_session) : bool := by_id sid x && bool_decide (os_status x = on_draft_ready).

Definition set_approved (now : timestamp) (ctx : RequestContext) (x : onboarding_session) : onboarding_session :=
  x <| os_status := on_approved |> <| os_approved_by := Some (principal_uuid (principal ctx)) |> <| os_approved_at := Some now |>
    <| os_updated_at := now |>.

Definition cancellable (sid : uuid) (x : onboarding_session) : bool :=
  by_id sid x && (bool_decide (os_status x = on_drafting) || bool_decide (os_status x = on_draft_ready)).

Definition incumbent (domain : string) (x : onboarding_session) : bool := in_domain domain x && is_published x.

Definition set_demoted (now : timestamp) (x : onboarding_session) : onboarding_session := x <| os_status := on_approved |> <| os_updated_at := now |>.

Definition set_published (now : timestamp) (x : onboarding_session) : onboarding_session :=
  x <| os_status := on_published |> <| os_published_at := Some now |> <| os_updated_at := now |>.

Definition set_cancelled (now : timestamp) (x : onboarding_session) : onboarding_session :=
  x <| os_status := on_cancelled |> <| os_updated_at := now |>.

Section audited.
Context `{AuditEnv}.

Definition audit_session (now : timestamp) (ctx : RequestContext) (action : string) (sid : uuid) (detail : json) : M db unit :=
  audit_in_session now (tenant_of ctx) ctx action SUCCEEDED "onboarding_session" (uuid_str sid) detail ;; ret tt.

Definition approve (now : timestamp) (ctx : RequestContext) (sid : uuid) : M db onboarding_status :=
  updated <- tenant_session (
    row <- find_session ctx sid ;;
    match row with
    | None => raise (LookupError "Session not found.")
    | Some x =>
        guard (bool_decide (os_status x = on_draft_ready)) (ValueError "only a draft_ready session can be approved") ;;
        guard (negb (same_principal (os_created_by x) ctx)) (PermissionError "You drafted this schema") ;;
        guard (negb (same_principal (os_schema_edited_by x) ctx)) (PermissionError "You edited this schema") ;;
        rows <- update_sessions (visible (tenant_of ctx) (ready sid)) (set_approved now ctx) ;;
        updated <- one_or_none rows ;;
        when (is_some updated) (audit_session now ctx "onboarding.session.approved" sid (JObj [])) ;;
        ret updated
    end) ;;
  match updated with
  | None => raise (ValueError "Session changed state concurrently")
  | Some x => ret (os_status x)
  end.

(** Returns the domain. *)
Definition publish (now : timestamp) (ctx : RequestContext) (sid : uuid) : M db string :=
  tenant_session (
    row <- find_session ctx sid ;;
    match row with
    | None => raise (LookupError "Session not found.")
    | Some x =>
        guard (bool_decide (os_status x = on_approved)) (ValueError "only an approved session can be published") ;;
        update_sessions (visible (tenant_of ctx) (incumbent (os_domain x))) (set_demoted now) ;;
        update_sessions (visible (tenant_of ctx) (by_id sid)) (set_published now) ;;
        audit_session now ctx "onboarding.session.published" sid (JObj [("domain", JStr (os_domain x))]) ;;
        ret (os_domain x)
    end).

Definition cancel (now : timestamp) (ctx : RequestContext) (sid : uuid) : M db bool :=
  tenant_session (
    rows <- update_sessions (visible (tenant_of ctx) (cancellable sid)) (set_cancelled now) ;;
    updated <- one_or_none rows ;;
    when (is_some updated) (audit_session now ctx "onboarding.session.cancelled" sid (JObj [])) ;;
    ret (is_some updated)).

End audited.

Definition published_session (ctx : RequestContext) (domain : string) : M db (option onboarding_session) :=
  tenant_session (
    found <- sql_select (visible (tenant_of ctx) (incumbent (lower (strip domain)))) ;;
    one_or_none found).

Definition published_artifacts (ctx : RequestContext) (domain : string) : M db artifact_set :=
  live <- published_session ctx domain ;;
  match live with
  | None => ret (mkArtifactSet ∅ ∅)
  | Some x => artifacts_for ctx (os_id x)
  end.

(** * Histories *)

(** An edit is the step that writes; its SELECT returned [row] at any time before. *)
Inductive onboarding_step :=
| Create (fresh : uuid) (ctx : RequestContext) (domain collection : string) (run_id : option uuid)
| Progress (ctx : RequestContext) (sid : uuid) (entry : json)
| SetStatus (ctx : RequestContext) (sid : uuid) (status : onboarding_status) (error : option string) (stats : option json)
| Put (ctx : RequestContext) (sid : uuid) (kind name : string) (payload : json)
| Curate (ctx : RequestContext) (sid : uuid) (query_id : string) (query_text : option string) (approved : option bool)
| Edit (row : option onboarding_session) (ctx : RequestContext) (sid : uuid) (yaml_text : string) (retype : gmap string string)
| Approve (ctx : RequestContext) (sid : uuid)
| Publish (ctx : RequestContext) (sid : uuid)
| Cancel (ctx : RequestContext) (sid : uuid).

Definition exec `{AuditEnv} (str_of : json → string) (now : timestamp) (a : onboarding_step) (d : db) : db :=
  match a with
  | Create fresh ctx domain c r => (create now fresh ctx domain c r d).2
  | Progress ctx sid e => (append_progress now ctx sid e d).2
  | SetStatus ctx sid st e stats => (set_status now ctx sid st e stats d).2
  | Put ctx sid k n v => (put_artifact now ctx sid k n v d).2
  | Curate ctx sid q t a => (curate_query ctx sid q t a d).2
  | Edit row ctx sid y r => (tenant_session (edit_found str_of now ctx sid y r row) d).2
  | Approve ctx sid => (approve now ctx sid d).2
  | Publish ctx sid => (publish now ctx sid d).2
  | Cancel ctx sid => (cancel now ctx sid d).2
  end.

Fixpoint exec_all `{AuditEnv} (str_of : json → string) (h : list (timestamp * onboarding_step)) (d : db) : db :=
  match h with [] => d | (now, a) :: h' => exec_all str_of h' (exec str_of now a d) end.

Definition settled (x : onboarding_session) : bool := bool_decide (os_status x = on_approved) || is_published x.

(** A drafting run writes only while its session is drafting, and sets the two states
    [workload.run] sets. *)
Definition drafting_in (sid : uuid) (d : db) : bool :=
  forallb (fun x => negb (by_id sid x) || bool_decide (os_status x = on_drafting)) (onboardings d).

(** A session approved or published has the status in every row read of it: nobody approved
    it since an edit found it ready. *)
Definition fresh_row (sid : uuid) (row : option onboarding_session) (d : db) : bool :=
  match row with
  | Some x => negb (bool_decide (os_status x = on_draft_ready)) || forallb (fun y => negb (by_id sid y) || negb (settled y)) (onboardings d)
  | None => true
  end.

(** The two disciplines the store does not enforce. *)
Definition undisturbed (a : onboarding_step) (d : db) : bool :=
  match a with
  | Edit row _ sid _ _ => fresh_row sid row d
  | Put _ sid _ _ _ => drafting_in sid d
  | SetStatus _ sid st _ _ => drafting_in sid d && (bool_decide (st = on_draft_ready) || bool_decide (st = on_failed))
  | _ => true
  end.

Fixpoint all_undisturbed `{AuditEnv} (str_of : json → string) (h : list (timestamp * onboarding_step)) (d : db) : bool :=
  match h with [] => true | (now, a) :: h' => undisturbed a d && all_undisturbed str_of h' (exec str_of now a d) end.

(** * What stays well-formed *)

Record onboarding_wf (d : db) : Prop := {
  ow_ids : List.NoDup (map os_id (onboardings d));
  ow_checks : forallb session_ok (onboardings d) = true;
  ow_one : one_published (onboardings d) = true;
  ow_keys : List.NoDup (map artifact_key (artifacts d))
}.

Lemma onboarding_wf_same d d' : onboardings d' = onboardings d → artifacts d' = artifacts d → onboarding_wf d → onboarding_wf d'.
Proof. intros E1 E2 [H1 H2 H3 H4]. constructor; by rewrite ?E1, ?E2. Qed.

Lemma named_artifact_spec sid k n x : named sid k n x = true ↔ artifact_key x = (sid, k, n).
Proof.
  unfold named, of_session, artifact_key. rewrite !andb_true_iff, N.eqb_eq, !String.eqb_eq.
  split; [by intros [[-> ->] ->]|by intros [= -> -> ->]].
Qed.

Section statements.
Context (I : db → Prop).
(** [I] reads the two tables only. *)
Hypothesis I_tables : ∀ d d', onboardings d' = onboardings d → artifacts d' = artifacts d → I d → I d'.

Lemma audit_keeps `{AuditEnv} now ctx action sid detail : preserves I (audit_session now ctx action sid detail).
Proof using I_tables.
  apply preserves_bind; [|auto with platform]. intros d Hd. destruct (audit_in_session _ _ _ _ _ _ _ _ d) as [r d'] eqn:E. cbn.
  apply audit_in_session_only_audit in E. apply (I_tables d); [by apply (only_audit_keeps onboardings d)|by apply (only_audit_keeps artifacts d)|done].
Qed.

Lemma find_keeps ctx sid : preserves I (find_session ctx sid).
Proof using. apply preserves_bind; [by intros d|auto with platform]. Qed.

Lemma payload_keeps ctx sid k : preserves I (payload_of ctx sid k).
Proof using. apply preserves_bind; [by intros d|]. intros l. apply preserves_bind; auto with platform. Qed.

Lemma lift_keeps {A} (r : result A) : preserves I (lift r).
Proof using. destruct r; cbn; auto with platform. Qed.

End statements.

#[local] Hint Resolve find_keeps payload_keeps lift_keeps preserves_tx : platform.

Lemma update_sessions_ok p f d l d' : update_sessions p f d = (Ok l, d') →
  forallb session_ok (update_where p f (onboardings d)) = true ∧ one_published (update_where p f (onboardings d)) = true ∧
  l = map f (select_where p (onboardings d)) ∧ d' = d <| onboardings := update_where p f (onboardings d) |>.
Proof.
  unfold update_sessions, bind, get, guard. destruct (forallb _ _) eqn:E1; [|done]. cbn. destruct (one_published _) eqn:E2; [|done]. cbn. by intros [= <- <-].
Qed.

Lemma update_sessions_cases p f d r d' : update_sessions p f d = (r, d') →
  (∃ e, r = Raise e ∧ d' = d) ∨ ∃ l, r = Ok l.
Proof. unfold update_sessions, bind, get, guard. destruct (forallb _ _); cbn; [destruct (one_published _); cbn|]; intros [= <- <-]; eauto. Qed.

Lemma update_wf p f : (∀ x, os_id (f x) = os_id x) → preserves onboarding_wf (update_sessions p f).
Proof.
  intros Hf d W. destruct (update_sessions p f d) as [r d'] eqn:E. cbn. pose proof E as E0.
  apply update_sessions_cases in E as [(e & -> & ->)|(l & ->)]; [done|]. apply update_sessions_ok in E0 as (H1 & H2 & _ & ->).
  constructor; cbn; try done; [|apply W]. rewrite map_update_where by done. apply W.
Qed.

Lemma artifact_update_wf p f : (∀ x, artifact_key (f x) = artifact_key x) → preserves onboarding_wf (sql_update (R := onboarding_artifact) p f).
Proof. intros Hf d W. constructor; cbn; [apply W..|]. rewrite map_update_where by done. apply W. Qed.

Lemma artifact_insert_wf x d : onboarding_wf d → select_where (named (oa_session x) (oa_kind x) (oa_name x)) (artifacts d) = [] →
  onboarding_wf (d <| artifacts := artifacts d ++ [x] |>).
Proof.
  intros W E. constructor; cbn; [apply W..|]. rewrite map_app. apply NoDup_snoc; [apply W|]. intros Hin. apply in_map_iff in Hin as (y & Hy & Hin).
  pose proof (proj1 (select_where_nil _ _) E y Hin) as H. apply not_true_iff_false in H. apply H, named_artifact_spec. by rewrite Hy.
Qed.

Lemma insert_artifact_wf x : preserves onboarding_wf (insert_artifact x).
Proof.
  intros d W. unfold insert_artifact, bind, get, guard. destruct (select_where _ _) eqn:E; [|done]. by apply artifact_insert_wf.
Qed.

Lemma retain_wf now ctx sid k : preserves onboarding_wf (retain_original now ctx sid k).
Proof.
  apply preserves_bind; [by intros d|]. intros l. apply preserves_bind; [auto with platform|]. intros o. destruct (is_some o); [auto with platform|].
  apply preserves_bind; [by intros d|]. intros l'. apply preserves_bind; [|auto with platform]. apply preserves_for_each. intros. apply insert_artifact_wf.
Qed.

Lemma put_payload_wf touch ctx sid k v : preserves onboarding_wf (put_payload touch ctx sid k v).
Proof. apply preserves_bind; [by apply artifact_update_wf|auto with platform]. Qed.

#[local] Hint Resolve retain_wf put_payload_wf insert_artifact_wf : platform.

(** Every operation keeps the tables well-formed. *)
Lemma exec_wf `{AuditEnv} str_of now a d : onboarding_wf d → onboarding_wf (exec str_of now a d).
Proof.
  assert (Hu : ∀ p f, (∀ x, os_id (f x) = os_id x) → preserves onboarding_wf (update_sessions p f)) by apply update_wf.
  assert (Ha : ∀ now ctx action sid detail, preserves onboarding_wf (audit_session now ctx action sid detail)) by (intros; apply audit_keeps; apply onboarding_wf_same).
  intros W. destruct a as [fresh ctx domain c r|ctx sid e|ctx sid st e stats|ctx sid k n v|ctx sid q t a|row ctx sid y r|ctx sid|ctx sid|ctx sid]; cbn [exec].
  - unfold create, bind, guard, get. destruct (_ && _); [|done]. cbn. destruct (existsb (by_id fresh) (onboardings d)) eqn:E; [done|]. cbn.
    constructor; cbn; [| | |apply W].
    + rewrite map_app. apply NoDup_snoc; [apply W|]. intros Hin. apply in_map_iff in Hin as (x & Hx & Hin). apply not_true_iff_false in E.
      apply E, existsb_exists. exists x. split; [done|]. by apply N.eqb_eq.
    + rewrite forallb_app. rewrite (ow_checks d W). done.
    + unfold one_published in *. rewrite select_where_app. cbn. rewrite app_nil_r. apply W.
  - revert W. apply preserves_tx, preserves_bind; [by apply Hu|auto with platform].
  - revert W. apply preserves_tx, preserves_bind; [by apply Hu|auto with platform].
  - revert W. apply preserves_tx, preserves_bind; [auto with platform|]. intros _. intros d0 W. unfold bind, get, guard.
    destruct (existsb _ _); [|done]. cbn. destruct (select_where _ _) as [|x l] eqn:E.
    + by apply artifact_insert_wf.
    + cbn [forallb]. destruct (_ && _); [|exact W]. by apply (artifact_update_wf (named sid k n) (fun x => x <| oa_payload := v |> <| oa_created_at := now |>)).
  - revert W. apply preserves_tx, preserves_bind; [auto with platform|]. intros [x|]; [|auto with platform].
    do 4 (apply preserves_bind; [auto with platform|intros]). apply preserves_bind; [auto with platform|]. intros [q'|]; [|auto with platform].
    do 2 (apply preserves_bind; [auto with platform|intros]). auto with platform.
  - revert W. apply preserves_tx. unfold edit_found. destruct row as [x|]; [|auto with platform].
    do 5 (apply preserves_bind; [auto with platform|intros]).
    apply preserves_bind; [|intros; apply preserves_bind; [by apply Hu|auto with platform]].
    unfold retype_instances. destruct (bool_decide _); [auto with platform|]. apply preserves_bind; [auto with platform|]. intros [v|]; [|auto with platform].
    do 5 (apply preserves_bind; [auto with platform|intros]). auto with platform.
  - revert W. apply preserves_bind.
    + apply preserves_tx, preserves_bind; [auto with platform|]. intros [x|]; [|auto with platform].
      do 3 (apply preserves_bind; [auto with platform|intros _]). apply preserves_bind; [by apply Hu|]. intros l.
      apply preserves_bind; [auto with platform|]. intros u. apply preserves_bind; [apply preserves_when, Ha|auto with platform].
    + intros [x|]; auto with platform.
  - revert W. apply preserves_tx, preserves_bind; [auto with platform|]. intros [x|]; [|auto with platform].
    apply preserves_bind; [auto with platform|]. intros _. do 2 (apply preserves_bind; [by apply Hu|intros]).
    apply preserves_bind; [apply Ha|auto with platform].
  - revert W. apply preserves_tx, preserves_bind; [by apply Hu|]. intros l. apply preserves_bind; [auto with platform|]. intros u.
    apply preserves_bind; [apply preserves_when, Ha|auto with platform].
Qed.

(** * What was approved stays as it was approved *)

Definition approval (x : onboarding_session) : uuid * string * option uuid * option uuid * option timestamp * option uuid :=
  (os_tenant x, os_domain x, os_created_by x, os_approved_by x, os_approved_at x, os_schema_edited_by x).

(** The artifacts a graph is built from: all but the questions. *)
Definition reviewed (sid : uuid) (x : onboarding_artifact) : bool := of_session sid x && negb (String.eqb (oa_kind x) "candidate_queries").

(** An approved or published session has an approver. *)
Definition signed_row (x : onboarding_session) : Prop := settled x = true → is_some (os_approved_by x) = true.
Definition signed (d : db) : Prop := ∀ x, In x (onboardings d) → signed_row x.

Lemma by_session_id_spec t sid x : visible t (by_id sid) x = true ↔ os_tenant x = t ∧ os_id x = sid.
Proof. unfold visible, by_id, row_tenant, tenant_onboardings. by rewrite andb_true_iff, !N.eqb_eq. Qed.

Lemma find_session_spec ctx sid d r d' : find_session ctx sid d = (r, d') → d' = d ∧
  ∀ x, r = Ok (Some x) → In x (onboardings d) ∧ os_tenant x = tenant_of ctx ∧ os_id x = sid.
Proof.
  intros E. apply bind_cases in E as [(e & E & ->)|(l & d1 & E & E')]; [discriminate E|]. injection E as <- <-.
  destruct (select_where _ _) as [|y [|z l]] eqn:Es; injection E' as <- <-; (split; [done|]); intros x [= <-].
  assert (Hi : In y [y]) by by left. rewrite <- Es in Hi. apply filter_In in Hi as [H1 H2]. by apply by_session_id_spec in H2 as [H2 H3].
Qed.

Lemma one_by_id d x y : onboarding_wf d → In x (onboardings d) → In y (onboardings d) → os_id x = os_id y → x = y.
Proof. intros W. apply (key_unique os_id). apply W. Qed.

Lemma drafting_in_spec sid d x : drafting_in sid d = true → In x (onboardings d) → os_id x = sid → os_status x = on_drafting.
Proof.
  unfold drafting_in. rewrite forallb_forall. intros H Hx <-. specialize (H x Hx). unfold by_id in H. rewrite N.eqb_refl in H. cbn in H.
  by apply bool_decide_eq_true_1 in H.
Qed.

Section sealed.
Variables (x0 : onboarding_session) (F : list onboarding_artifact).

Definition still (y : onboarding_session) : Prop := os_id y = os_id x0 ∧ settled y = true ∧ approval y = approval x0.

Definition sealed (d : db) : Prop := (∃ y, In y (onboardings d) ∧ still y) ∧ select_where (reviewed (os_id x0)) (artifacts d) = F.

Lemma sealed_same d d' : onboardings d' = onboardings d → artifacts d' = artifacts d → sealed d → sealed d'.
Proof. intros E1 E2. unfold sealed. by rewrite E1, E2. Qed.

Lemma update_sealed p f : (∀ y, still y → p y = true → still (f y)) → preserves sealed (update_sessions p f).
Proof.
  intros Hf d ((y & Hy & Hs) & HF). destruct (update_sessions p f d) as [r d'] eqn:E. cbn. pose proof E as E0.
  apply update_sessions_cases in E as [(e & -> & ->)|(l & ->)]; [split; [by exists y|done]|]. apply update_sessions_ok in E0 as (_ & _ & _ & ->).
  split; [|done]. exists (if p y then f y else y). split; [apply in_update_where; by exists y|]. destruct (p y) eqn:Ep; auto.
Qed.

Lemma artifact_update_sealed p f : (∀ y, p y = true → reviewed (os_id x0) y = false ∧ reviewed (os_id x0) (f y) = false) →
  preserves sealed (sql_update (R := onboarding_artifact) p f).
Proof. intros Hp d [H1 H2]. split; [done|]. cbn. by rewrite select_update_same. Qed.

Lemma artifact_insert_sealed x : reviewed (os_id x0) x = false → preserves sealed (sql_insert x).
Proof.
  intros Hx d [H1 H2]. split; [done|]. cbn. rewrite select_where_app, H2. unfold select_where. cbn. rewrite Hx. apply app_nil_r.
Qed.

(** Rows of another session. *)
Lemma other_session sid k n x : sid ≠ os_id x0 → named sid k n x = true → reviewed (os_id x0) x = false.
Proof.
  intros Hn H. apply named_artifact_spec in H. unfold artifact_key in H. injection H as H1 _ _. unfold reviewed, of_session. rewrite H1.
  by destruct (N.eqb_spec sid (os_id x0)).
Qed.

Lemma insert_artifact_sealed x : oa_session x ≠ os_id x0 → preserves sealed (insert_artifact x).
Proof.
  intros Hx d Hd. unfold insert_artifact, bind, get, guard. destruct (select_where _ _); [|done]. apply artifact_insert_sealed; [|done].
  unfold reviewed, of_session. by destruct (N.eqb_spec (oa_session x) (os_id x0)).
Qed.

Lemma put_payload_sealed touch ctx sid k v : sid ≠ os_id x0 ∨ k = "candidate_queries" → preserves sealed (put_payload touch ctx sid k v).
Proof.
  intros H. apply preserves_bind; [|auto with platform]. apply artifact_update_sealed. intros y Hy. apply andb_true_iff in Hy as [_ Hy].
  destruct H as [H|H].
  - pose proof (other_session sid k k y H Hy) as Hr. split; [done|exact Hr].
  - apply named_artifact_spec in Hy. unfold artifact_key in Hy. injection Hy as _ H2 _. assert (Hr : reviewed (os_id x0) y = false).
    { unfold reviewed. rewrite H2, H. apply andb_false_r. }
    split; [done|exact Hr].
Qed.

Lemma retain_sealed now ctx sid k : sid ≠ os_id x0 → preserves sealed (retain_original now ctx sid k).
Proof.
  intros Hn. apply preserves_bind; [by intros d|]. intros l. apply preserves_bind; [auto with platform|]. intros o. destruct (is_some o); [auto with platform|].
  intros d Hd. unfold bind, sql_select, gets, ret. cbn [rows table_artifacts].
  assert (H : preserves sealed (for_each (select_where (visible (tenant_of ctx) (named sid k k)) (artifacts d))
    (fun x => insert_artifact (mkArtifact (oa_tenant x) (oa_session x) (oa_kind x) (drafted_name k) (oa_payload x) now)))).
  { assert (Hs : ∀ x, In x (select_where (visible (tenant_of ctx) (named sid k k)) (artifacts d)) → oa_session x = sid).
    { intros x Hx. apply filter_In in Hx as [_ Hx]. apply andb_true_iff in Hx as [_ Hx]. apply named_artifact_spec in Hx. unfold artifact_key in Hx. by injection Hx. }
    revert Hs. generalize (select_where (visible (tenant_of ctx) (named sid k k)) (artifacts d)). intros l' Hs. clear Hd d.
    induction l' as [|x l' IH]; cbn [for_each]; [auto with platform|].
    apply preserves_bind; [apply insert_artifact_sealed; cbn; rewrite (Hs x) by (by left); done|]. intros _. apply IH. intros y Hy. apply Hs. by right. }
  specialize (H d Hd). destruct (for_each _ _ d) as [[u|e] d1]; exact H.
Qed.

(** An operation of the store that respects the drafting run's discipline. *)
Lemma exec_sealed `{AuditEnv} str_of now a d : onboarding_wf d → undisturbed a d = true → sealed d → sealed (exec str_of now a d).
Proof.
  intros W Ht Hs. pose proof Hs as ((y & Hy & Hid & Hset & Happ) & _).
  assert (Ha : ∀ now ctx action sid detail, preserves sealed (audit_session now ctx action sid detail)) by (intros; apply audit_keeps; apply sealed_same).
  assert (Hbusy : ∀ sid, drafting_in sid d = true → sid ≠ os_id x0).
  { intros sid Hd ->. apply (drafting_in_spec _ d y) in Hd; [|done..]. unfold settled, is_published in Hset. rewrite Hd in Hset. discriminate Hset. }
  destruct a as [fresh ctx domain c r|ctx sid e|ctx sid st e stats|ctx sid k n v|ctx sid q t a|row ctx sid yml r|ctx sid|ctx sid|ctx sid]; cbn [exec].
  - unfold create, bind, guard, get. destruct (_ && _); [|done]. cbn. destruct (existsb _ _); [done|]. cbn.
    destruct Hs as [(z & Hz & Hst) HF]. split; [|done]. exists z. split; [|done]. apply in_app_iff. by left.
  - revert Hs. apply preserves_tx, preserves_bind; [|auto with platform]. apply update_sealed. by intros z (H1 & H2 & H3) _.
  - cbn [undisturbed] in Ht. apply andb_true_iff in Ht as [Ht _]. apply Hbusy in Ht. revert Hs.
    apply preserves_tx, preserves_bind; [|auto with platform]. apply update_sealed. intros z (H1 & _) Hz. apply by_session_id_spec in Hz as [_ Hz]. congruence.
  - cbn [undisturbed] in Ht. apply Hbusy in Ht. revert Hs. apply preserves_tx, preserves_bind; [auto with platform|]. intros _ d0 Hs. unfold bind, get, guard.
    destruct (existsb _ _); [|done]. destruct (select_where _ _) as [|z l] eqn:E.
    + apply artifact_insert_sealed; [|done]. apply (other_session sid k n); [done|]. by apply named_artifact_spec.
    + cbn [forallb]. destruct (_ && _); [|exact Hs].
      apply (artifact_update_sealed (named sid k n) (fun x => x <| oa_payload := v |> <| oa_created_at := now |>)); [|done].
      intros w Hw. by split; apply (other_session sid k n).
  - revert Hs. apply preserves_tx, preserves_bind; [auto with platform|]. intros [z|]; [|auto with platform].
    do 4 (apply preserves_bind; [auto with platform|intros]). apply preserves_bind; [auto with platform|]. intros [q'|]; [|auto with platform].
    apply preserves_bind; [auto with platform|]. intros. apply preserves_bind; [apply put_payload_sealed; by right|auto with platform].
  - destruct (decide (sid = os_id x0)) as [->|Hn].
    + assert (Hsame : (tenant_session (edit_found str_of now ctx (os_id x0) yml r row) d).2 = d); [|by rewrite Hsame].
      unfold tenant_session, tx, edit_found. destruct row as [z|]; [|done]. unfold guard.
      destruct (bool_decide _) eqn:Eb; [exfalso|done]. cbn [undisturbed fresh_row] in Ht. rewrite Eb in Ht. cbn [negb orb] in Ht.
      rewrite forallb_forall in Ht. specialize (Ht y Hy). unfold by_id in Ht. by rewrite Hid, N.eqb_refl, Hset in Ht.
    + revert Hs. apply preserves_tx. unfold edit_found. destruct row as [z|]; [|auto with platform].
      do 3 (apply preserves_bind; [auto with platform|intros]). apply preserves_bind; [by apply retain_sealed|]. intros kept.
      apply preserves_bind; [by apply put_payload_sealed; left|]. intros _. apply preserves_bind.
      * unfold retype_instances. destruct (bool_decide _); [auto with platform|]. apply preserves_bind; [auto with platform|]. intros [v|]; [|auto with platform].
        apply preserves_bind; [by apply retain_sealed|]. intros _. do 3 (apply preserves_bind; [auto with platform|intros]).
        apply preserves_bind; [by apply put_payload_sealed; left|auto with platform].
      * intros n. apply preserves_bind; [|auto with platform]. apply update_sealed. intros w (H1 & _) Hw. apply by_session_id_spec in Hw as [_ Hw]. congruence.
  - revert Hs. apply preserves_bind; [|intros [z|]; auto with platform].
    apply preserves_tx, preserves_bind; [auto with platform|]. intros [z|]; [|auto with platform].
    do 3 (apply preserves_bind; [auto with platform|intros _]). apply preserves_bind.
    { apply update_sealed. intros w (_ & H2 & _) Hw. unfold visible, ready in Hw. rewrite !andb_true_iff in Hw. destruct Hw as (_ & _ & Hw).
      apply bool_decide_eq_true_1 in Hw. unfold settled, is_published in H2. rewrite Hw in H2. discriminate H2. }
    intros l. apply preserves_bind; [auto with platform|]. intros u. apply preserves_bind; [apply preserves_when, Ha|auto with platform].
  - revert Hs. apply preserves_tx, preserves_bind; [auto with platform|]. intros [z|]; [|auto with platform].
    apply preserves_bind; [auto with platform|]. intros _.
    do 2 (apply preserves_bind; [apply update_sealed; by intros w (H1 & H2 & H3) _|intros]).
    apply preserves_bind; [apply Ha|auto with platform].
  - revert Hs. apply preserves_tx, preserves_bind.
    { apply update_sealed. intros w (_ & H2 & _) Hw. unfold visible, cancellable in Hw. rewrite !andb_true_iff, orb_true_iff in Hw.
      destruct Hw as (_ & _ & [Hw|Hw]); apply bool_decide_eq_true_1 in Hw; unfold settled, is_published in H2; rewrite Hw in H2; discriminate H2. }
    intros l. apply preserves_bind; [auto with platform|]. intros u. apply preserves_bind; [apply preserves_when, Ha|auto with platform].
Qed.

End sealed.

(** * Signatures *)

Lemma update_signed p f : (∀ y, signed_row y → p y = true → signed_row (f y)) → preserves signed (update_sessions p f).
Proof.
  intros Hf d Hs. destruct (update_sessions p f d) as [r d'] eqn:E. cbn. pose proof E as E0.
  apply update_sessions_cases in E as [(e & -> & ->)|(l & ->)]; [done|]. apply update_sessions_ok in E0 as (_ & _ & _ & ->).
  intros y Hy. apply in_update_where in Hy as (x & Hx & ->). destruct (p x) eqn:Ep; auto.
Qed.

Lemma signed_same d d' : onboardings d' = onboardings d → artifacts d' = artifacts d → signed d → signed d'.
Proof. intros E _. unfold signed. by rewrite E. Qed.

Lemma insert_artifact_signed x : preserves signed (insert_artifact x).
Proof. intros d Hd. unfold insert_artifact, bind, get, guard. by destruct (select_where _ _). Qed.

Lemma retain_signed now ctx sid k : preserves signed (retain_original now ctx sid k).
Proof.
  apply preserves_bind; [by intros d|]. intros l. apply preserves_bind; [auto with platform|]. intros o. destruct (is_some o); [auto with platform|].
  apply preserves_bind; [by intros d|]. intros l'. apply preserves_bind; [|auto with platform]. apply preserves_for_each. intros. apply insert_artifact_signed.
Qed.

Lemma put_payload_signed touch ctx sid k v : preserves signed (put_payload touch ctx sid k v).
Proof. apply preserves_bind; [by intros d|auto with platform]. Qed.

#[local] Hint Resolve retain_signed put_payload_signed : platform.

(** The second UPDATE of [publish]: the row had its approver before the first. *)
Lemma publish_signed `{AuditEnv} now ctx sid d : onboarding_wf d → signed d → signed (publish now ctx sid d).2.
Proof.
  intros W Hs. destruct (publish now ctx sid d) as [[dom|e] d'] eqn:E; [|by apply tx_raise in E as ->]. cbn [snd]. apply (proj1 (tx_ok _ _ _ _)) in E.
  apply bind_ok in E as ([x|] & d1 & E1 & E); [|done]. apply find_session_spec in E1 as [-> H1]. destruct (H1 x eq_refl) as (Hx & _ & Hi).
  apply bind_ok in E as (u & d1 & Eg & E). unfold guard in Eg. destruct (bool_decide _) eqn:Eb; [|done]. injection Eg as _ <-.
  apply bool_decide_eq_true_1 in Eb.
  set (I := fun d => signed d ∧ ∀ y, In y (onboardings d) → os_id y = sid → is_some (os_approved_by y) = true).
  assert (H0 : I d). { split; [done|]. intros y Hy Hyi. assert (y = x) as -> by (apply (one_by_id d); congruence). apply Hs; [done|]. unfold settled. by rewrite Eb. }
  assert (Hu : ∀ p f, (∀ y, os_id (f y) = os_id y ∧ os_approved_by (f y) = os_approved_by y) →
    (∀ y, (signed_row y ∧ (os_id y = sid → is_some (os_approved_by y) = true)) → p y = true → signed_row (f y)) → preserves I (update_sessions p f)).
  { intros p f Hf Hp d0 [I1 I2]. destruct (update_sessions p f d0) as [r d2] eqn:E2. cbn. pose proof E2 as E3.
    apply update_sessions_cases in E2 as [(e & -> & ->)|(l & ->)]; [done|]. apply update_sessions_ok in E3 as (_ & _ & _ & ->). split.
    - intros y Hy. apply in_update_where in Hy as (z & Hz & ->). destruct (p z) eqn:Ep; [|by apply I1]. apply Hp; [|done]. split; [by apply I1|by apply I2].
    - intros y Hy. apply in_update_where in Hy as (z & Hz & ->). destruct (Hf z) as [F1 F2]. destruct (p z); rewrite ?F1, ?F2; by apply I2. }
  assert (HI : preserves I (update_sessions (visible (tenant_of ctx) (incumbent (os_domain x))) (set_demoted now) ;;
    update_sessions (visible (tenant_of ctx) (by_id sid)) (set_published now) ;;
    audit_session now ctx "onboarding.session.published" sid (JObj [("domain", JStr (os_domain x))]) ;; ret (os_domain x))).
  { apply preserves_bind; [apply Hu; [done|]|intros _].
    { intros y [S _] Hp _. apply S. unfold settled. unfold visible, incumbent in Hp. rewrite !andb_true_iff in Hp. destruct Hp as (_ & _ & ->). apply orb_true_r. }
    apply preserves_bind; [apply Hu; [done|]|intros _].
    { intros y [_ S] Hp _. apply S. apply by_session_id_spec in Hp. apply Hp. }
    apply preserves_bind; [|auto with platform]. apply audit_keeps. intros d1 d2 F1 _ [I1 I2]. split; [unfold signed; by rewrite F1|by rewrite F1]. }
  specialize (HI d H0). rewrite E in HI. apply HI.
Qed.

Lemma exec_signed `{AuditEnv} str_of now a d : onboarding_wf d → undisturbed a d = true → signed d → signed (exec str_of now a d).
Proof.
  intros W Ht Hs.
  assert (Ha : ∀ now ctx action sid detail, preserves signed (audit_session now ctx action sid detail)) by (intros; apply audit_keeps; apply signed_same).
  assert (Hk : ∀ p f, (∀ y, os_status (f y) = os_status y ∧ os_approved_by (f y) = os_approved_by y) → preserves signed (update_sessions p f)).
  { intros p f Hf. apply update_signed. intros y S _. unfold signed_row, settled, is_published in *. by destruct (Hf y) as [-> ->]. }
  destruct a as [fresh ctx domain c r|ctx sid e|ctx sid st e stats|ctx sid k n v|ctx sid q t a|row ctx sid yml r|ctx sid|ctx sid|ctx sid]; cbn [exec].
  - unfold create, bind, guard, get. destruct (_ && _); [|done]. cbn. destruct (existsb _ _); [done|]. cbn.
    intros z Hz. apply in_app_iff in Hz as [Hz|[<-|[]]]; [by apply Hs|done].
  - revert Hs. apply preserves_tx, preserves_bind; [by apply Hk|auto with platform].
  - cbn [undisturbed] in Ht. apply andb_true_iff in Ht as [_ Ht]. revert Hs.
    apply preserves_tx, preserves_bind; [|auto with platform]. apply update_signed. intros z _ _ Hz.
    apply orb_true_iff in Ht as [Ht|Ht]; apply bool_decide_eq_true_1 in Ht as ->; discriminate Hz.
  - revert Hs. apply preserves_tx, preserves_bind; [auto with platform|]. intros _ d0 Hs. unfold bind, get, guard.
    destruct (existsb _ _); [|done]. destruct (select_where _ _) as [|z l]; [done|]. cbn [forallb]. by destruct (_ && _).
  - revert Hs. apply preserves_tx, preserves_bind; [auto with platform|]. intros [z|]; [|auto with platform].
    do 4 (apply preserves_bind; [auto with platform|intros]). apply preserves_bind; [auto with platform|]. intros [q'|]; [|auto with platform].
    do 2 (apply preserves_bind; [auto with platform|intros]). auto with platform.
  - revert Hs. apply preserves_tx. unfold edit_found. destruct row as [z|]; [|auto with platform].
    do 5 (apply preserves_bind; [auto with platform|intros]).
    apply preserves_bind; [|intros; apply preserves_bind; [by apply Hk|auto with platform]].
    unfold retype_instances. destruct (bool_decide _); [auto with platform|]. apply preserves_bind; [auto with platform|]. intros [v|]; [|auto with platform].
    do 5 (apply preserves_bind; [auto with platform|intros]). auto with platform.
  - revert Hs. apply preserves_bind; [|intros [z|]; auto with platform].
    apply preserves_tx, preserves_bind; [auto with platform|]. intros [z|]; [|auto with platform].
    do 3 (apply preserves_bind; [auto with platform|intros _]). apply preserves_bind; [by apply update_signed|].
    intros l. apply preserves_bind; [auto with platform|]. intros u. apply preserves_bind; [apply preserves_when, Ha|auto with platform].
  - by apply publish_signed.
  - revert Hs. apply preserves_tx, preserves_bind; [by apply update_signed|].
    intros l. apply preserves_bind; [auto with platform|]. intros u. apply preserves_bind; [apply preserves_when, Ha|auto with platform].
Qed.

(** C25: what is published is what somebody else approved.  However the operations of the
    store interleave, as long as drafting runs write only while their session is drafting and
    no approval of a session commits between the SELECT and the writes of an edit of it
    (neither is enforced: [late_draft_overwrites_approved_bytes],
    [an_edit_outlives_its_status_check]): every approved or published session carries an
    approver who neither created the session nor was the last to edit its schema; and from
    its approval on, whatever is attempted (editing, re-approving, cancelling, publishing
    this or another session, curating questions), a session stays approved or published with
    that approval, and not one byte of the schema, instance table, predicate map or
    extraction cache that was approved changes. *)
Theorem what_is_published_was_approved `{AuditEnv} str_of h d :
  onboarding_wf d → signed d → all_undisturbed str_of h d = true →
  let d' := exec_all str_of h d in
  (∀ x, In x (onboardings d') → settled x = true →
     ∃ a, os_approved_by x = Some a ∧ os_created_by x ≠ Some a ∧ os_schema_edited_by x ≠ Some a) ∧
  ∀ x, In x (onboardings d) → settled x = true →
    (∃ x', In x' (onboardings d') ∧ os_id x' = os_id x ∧ settled x' = true ∧ approval x' = approval x) ∧
    select_where (reviewed (os_id x)) (artifacts d') = select_where (reviewed (os_id x)) (artifacts d).
Proof.
  intros W Hs Ht d'.
  assert (Hall : onboarding_wf d' ∧ signed d' ∧ ∀ x F, sealed x F d → sealed x F d').
  { unfold d'. clear d'. revert d W Hs Ht. induction h as [|[now a] h IH]; intros d W Hs Ht; [done|]. cbn [exec_all all_undisturbed] in *.
    apply andb_true_iff in Ht as [T1 T2]. destruct (IH (exec str_of now a d)) as (W' & S' & H'); [by apply exec_wf|by apply exec_signed|done|].
    split; [done|split; [done|]]. intros x F HF. by apply H', exec_sealed. }
  destruct Hall as (W' & S' & Hseal). split.
  - intros x Hx Hset. specialize (S' x Hx Hset). destruct (os_approved_by x) as [a|] eqn:Ea; [|done]. exists a. split; [done|].
    pose proof (ow_checks _ W') as Hc. rewrite forallb_forall in Hc. specialize (Hc x Hx). unfold session_ok in Hc. rewrite Ea in Hc.
    rewrite !andb_true_iff in Hc. destruct Hc as (((H1 & _) & _) & H4). split; intros E; rewrite E in *; by rewrite N.eqb_refl in *.
  - intros x Hx Hset. apply (Hseal x (select_where (reviewed (os_id x)) (artifacts d))). split; [|done]. by exists x.
Qed.

(** * Publication *)

Lemma one_published_spec l : List.NoDup (map os_id l) → one_published l = true ↔
  (∀ x y, In x l → In y l → is_published x = true → is_published y = true → live_slot x = live_slot y → x = y).
Proof.
  intros Hn. unfold one_published. rewrite bool_decide_eq_true. split.
  - intros H x y Hx Hy Px Py E. apply (key_unique live_slot (select_where is_published l)); try done; [by apply NoDup_ListNoDup| |]; by apply filter_In.
  - intros H. apply NoDup_ListNoDup. assert (Hl : List.NoDup l) by (by apply NoDup_map_inv in Hn).
    unfold select_where. revert H Hl. clear Hn. induction l as [|x l IH]; intros H Hl; [constructor|]. invc Hl. cbn.
    assert (IH' : List.NoDup (map live_slot (List.filter is_published l))) by (apply IH; [intros; apply H; try (by right); done|done]).
    destruct (is_published x) eqn:Px; [|done]. cbn. constructor; [|done]. intros Hin. apply in_map_iff in Hin as (y & Hy & Hin).
    apply filter_In in Hin as [Hin Py]. assert (x = y) as -> by (apply H; [by left|by right|done..]). done.
Qed.

Lemma update_sessions_run p f d : forallb session_ok (update_where p f (onboardings d)) = true → one_published (update_where p f (onboardings d)) = true →
  update_sessions p f d = (Ok (map f (select_where p (onboardings d))), d <| onboardings := update_where p f (onboardings d) |>).
Proof. intros H1 H2. unfold update_sessions, bind, get, guard. rewrite H1, H2. done. Qed.

Lemma checks_same p f l : (∀ x, session_ok (f x) = session_ok x) → forallb session_ok l = true → forallb session_ok (update_where p f l) = true.
Proof.
  intros Hf. rewrite !forallb_forall. intros H y Hy. apply in_update_where in Hy as (x & Hx & ->). destruct (p x); rewrite ?Hf; by apply H.
Qed.

Definition after_publication (now : timestamp) (t : uuid) (x : onboarding_session) (l : list onboarding_session) : list onboarding_session :=
  update_where (visible t (by_id (os_id x))) (set_published now) (update_where (visible t (incumbent (os_domain x))) (set_demoted now) l).

Lemma publish_run `{AuditEnv} now ctx x d : onboarding_wf d → In x (onboardings d) → os_tenant x = tenant_of ctx → os_status x = on_approved →
  let d2 := d <| onboardings := after_publication now (tenant_of ctx) x (onboardings d) |> in
  publish now ctx (os_id x) d =
    match audit_session now ctx "onboarding.session.published" (os_id x) (JObj [("domain", JStr (os_domain x))]) d2 with
    | (Ok _, d3) => (Ok (os_domain x), d3)
    | (Raise e, _) => (Raise e, d)
    end ∧ select_where (visible (tenant_of ctx) (incumbent (os_domain x))) (onboardings d2) = [set_published now x] ∧
  one_published (onboardings d2) = true.
Proof.
  intros W Hx Ht Hst d2. set (p1 := visible (tenant_of ctx) (incumbent (os_domain x))) in *. set (p2 := visible (tenant_of ctx) (by_id (os_id x))).
  set (l1 := update_where p1 (set_demoted now) (onboardings d)). set (l2 := update_where p2 (set_published now) l1).
  assert (Hn1 : List.NoDup (map os_id l1)) by (unfold l1; rewrite map_update_where by done; apply W).
  assert (Hn2 : List.NoDup (map os_id l2)) by (unfold l2; rewrite map_update_where by done; exact Hn1).
  assert (Hp1x : p1 x = false).
  { unfold p1, visible, incumbent, is_published. rewrite Hst. by rewrite !andb_false_r. }
  assert (Hx1 : In x l1) by (apply in_update_where; exists x; by rewrite Hp1x).
  assert (Hl1 : ∀ y, In y l1 → is_published y = true → In y (onboardings d) ∧ p1 y = false).
  { intros y Hy Py. apply in_update_where in Hy as (z & Hz & ->). destruct (p1 z) eqn:Ep; [|done]. discriminate Py. }
  assert (Ho1 : one_published l1 = true).
  { apply one_published_spec; [done|]. intros y z Hy Hz Py Pz E. apply Hl1 in Hy as [Hy _], Hz as [Hz _]; [|done..].
    by apply (proj1 (one_published_spec _ (ow_ids d W)) (ow_one d W)). }
  assert (Hl2 : ∀ y, In y l2 → is_published y = true → y = set_published now x ∨ (In y l1 ∧ p2 y = false)).
  { intros y Hy Py. apply in_update_where in Hy as (z & Hz & ->). destruct (p2 z) eqn:Ep; [|by right]. left. f_equal.
    apply by_session_id_spec in Ep as [_ Ep]. by apply (key_unique os_id l1). }
  assert (Hslot : ∀ y, In y l1 → is_published y = true → live_slot y ≠ live_slot x).
  { intros y Hy Py E. destruct (Hl1 y Hy Py) as [_ Hp]. injection E as E1 E2. apply not_true_iff_false in Hp. apply Hp.
    unfold p1, visible, incumbent, in_domain, row_tenant, tenant_onboardings. by rewrite E1, E2, Ht, N.eqb_refl, String.eqb_refl, Py. }
  assert (Ho2 : one_published l2 = true).
  { apply one_published_spec; [done|]. intros y z Hy Hz Py Pz E.
    destruct (Hl2 y Hy Py) as [->|[Hy1 _]], (Hl2 z Hz Pz) as [->|[Hz1 _]]; [done| | |].
    - by destruct (Hslot z Hz1 Pz).
    - by destruct (Hslot y Hy1 Py).
    - by apply (proj1 (one_published_spec _ Hn1) Ho1). }
  assert (Hc1 : forallb session_ok l1 = true) by (apply checks_same; [done|apply W]).
  assert (Hc2 : forallb session_ok l2 = true) by (by apply checks_same).
  assert (Hfind : find_session ctx (os_id x) d = (Ok (Some x), d)).
  { unfold find_session, bind, sql_select, gets, one_or_none. cbn [rows table_onboardings].
    rewrite (select_by_key os_id (visible (tenant_of ctx) (by_id (os_id x))) (onboardings d) x); [done|apply W|done| |].
    - by apply by_session_id_spec.
    - intros y _ Hy. apply by_session_id_spec in Hy. apply Hy. }
  split; [|split; [|done]].
  - assert (E1 := update_sessions_run p1 (set_demoted now) d Hc1 Ho1).
    assert (E2 := update_sessions_run p2 (set_published now) (d <| onboardings := l1 |>) Hc2 Ho2).
    unfold publish, tenant_session, tx. rewrite (run_bind _ _ _ _ _ Hfind). cbv beta iota. unfold guard. rewrite bool_decide_eq_true_2 by done.
    change ((ret tt ;; ?m) d) with (m d). rewrite (run_bind _ _ _ _ _ E1), (run_bind _ _ _ _ _ E2).
    change (d <| onboardings := l1 |> <| onboardings := update_where p2 (set_published now) (onboardings (d <| onboardings := l1 |>)) |>) with d2.
    unfold bind. by destruct (audit_session _ _ _ _ _ d2) as [[u|e] d3].
  - change (onboardings d2) with l2.
    assert (Hin : In (set_published now x) l2).
    { apply in_update_where. exists x. split; [done|]. assert (p2 x = true) as -> by by apply by_session_id_spec. done. }
    apply (select_by_key os_id); [done|done| |].
    + unfold p1, visible, incumbent, in_domain, row_tenant, tenant_onboardings. cbn. by rewrite Ht, N.eqb_refl, String.eqb_refl.
    + intros y Hy Hpy. unfold p1, visible, incumbent, in_domain, row_tenant, tenant_onboardings in Hpy. rewrite !andb_true_iff, N.eqb_eq, String.eqb_eq in Hpy.
      destruct Hpy as (E1 & E2 & Py). destruct (Hl2 y Hy Py) as [->|[Hy1 _]]; [done|]. exfalso. apply (Hslot y Hy1 Py). unfold live_slot. congruence.
Qed.

(** A domain has one live taxonomy.  Whatever sequence of operations the tables went
    through, disciplined or not, no tenant has two published sessions of one domain, and
    publishing an approved session is never refused by the unique index: in one
    transaction the incumbent goes back to approved, this session becomes the one live
    taxonomy of its domain, every other session keeps its row, and the artifacts are
    untouched; only a failing audit event undoes it, as a whole. *)
Theorem one_taxonomy_is_live `{AuditEnv} str_of h d :
  onboarding_wf d →
  let d' := exec_all str_of h d in
  (∀ x y, In x (onboardings d') → In y (onboardings d') → is_published x = true → is_published y = true → live_slot x = live_slot y → x = y) ∧
  ∀ now ctx x, In x (onboardings d') → os_tenant x = tenant_of ctx → os_status x = on_approved →
    match publish now ctx (os_id x) d' with
    | (Ok domain, d3) =>
        domain = os_domain x ∧ select_where (visible (tenant_of ctx) (incumbent (os_domain x))) (onboardings d3) = [set_published now x] ∧
        artifacts d3 = artifacts d' ∧
        ∀ y, In y (onboardings d') → os_id y ≠ os_id x →
          In (if visible (tenant_of ctx) (incumbent (os_domain x)) y then set_demoted now y else y) (onboardings d3)
    | (Raise e, d3) => d3 = d' ∧ ∃ d2 d4, audit_session now ctx "onboarding.session.published" (os_id x) (JObj [("domain", JStr (os_domain x))]) d2 = (Raise e, d4)
    end.
Proof.
  intros W d'. assert (W' : onboarding_wf d').
  { unfold d'. clear d'. revert d W. induction h as [|[now a] h IH]; intros d W; [done|]. cbn [exec_all]. by apply IH, exec_wf. }
  split; [by apply (one_published_spec _ (ow_ids d' W')), W'|]. intros now ctx x Hx Ht Hst.
  destruct (publish_run now ctx x d' W' Hx Ht Hst) as (-> & Hone & _). set (d2 := d' <| onboardings := _ |>) in *.
  destruct (audit_session _ _ _ _ _ d2) as [[u|e] d3] eqn:Ea; [|by split; [|exists d2, d3]]. split; [done|].
  assert (Ho : only_audit d2 d3).
  { apply bind_ok in Ea as (a & d4 & Ea & Er). injection Er as _ <-. by apply audit_in_session_only_audit in Ea. }
  assert (onboardings d3 = onboardings d2) as -> by (by apply (only_audit_keeps onboardings d2)).
  assert (artifacts d3 = artifacts d2) as -> by (by apply (only_audit_keeps artifacts d2)). split; [done|split; [done|]].
  intros y Hy Hne. unfold d2, after_publication. change (onboardings (d' <| onboardings := ?q |>)) with q. apply in_update_where.
  exists (if visible (tenant_of ctx) (incumbent (os_domain x)) y then set_demoted now y else y). split; [apply in_update_where; by exists y|].
  assert (Hno : ∀ z, os_id z = os_id y → visible (tenant_of ctx) (by_id (os_id x)) z = false).
  { intros z Hz. apply not_true_iff_false. intros Hv. apply by_session_id_spec in Hv as [_ Hv]. congruence. }
  rewrite Hno; [done|]. by destruct (visible _ _ y).
Qed.

(** * The drafter's original *)

(** The payload stored under a key. *)
Definition stored (sid : uuid) (kind name : string) (d : db) : option json :=
  option_map oa_payload (hd_error (select_where (named sid kind name) (artifacts d))).

(** The artifacts of a session belong to its tenant. *)
Definition owned (t : uuid) (sid : uuid) (d : db) : Prop := ∀ x, In x (artifacts d) → oa_session x = sid → oa_tenant x = t.

Lemma select_ext {A} (p q : A → bool) l : (∀ x, In x l → p x = q x) → select_where p l = select_where q l.
Proof. unfold select_where. intros H. induction l as [|x l IH]; [done|]. cbn. rewrite (H x) by (by left). rewrite IH; [done|]. intros y Hy. apply H. by right. Qed.

Lemma select_owned t sid k n d : owned t sid d → select_where (visible t (named sid k n)) (artifacts d) = select_where (named sid k n) (artifacts d).
Proof.
  intros Ho. apply select_ext. intros x Hx. unfold visible, row_tenant, tenant_artifacts. destruct (named sid k n x) eqn:E; [|apply andb_false_r].
  apply named_artifact_spec in E. unfold artifact_key in E. injection E as E _ _. by rewrite (Ho x Hx E), N.eqb_refl.
Qed.

Lemma stored_cases sid k n d : onboarding_wf d →
  (select_where (named sid k n) (artifacts d) = [] ∧ stored sid k n d = None) ∨
  ∃ x, select_where (named sid k n) (artifacts d) = [x] ∧ stored sid k n d = Some (oa_payload x) ∧ In x (artifacts d) ∧ artifact_key x = (sid, k, n).
Proof.
  intros W. unfold stored. destruct (select_where (named sid k n) (artifacts d)) as [|x l] eqn:E; [by left|]. right. exists x.
  assert (Hx : In x (artifacts d) ∧ named sid k n x = true) by (apply filter_In; unfold select_where in E; rewrite E; by left).
  destruct Hx as [Hx Hk]. apply named_artifact_spec in Hk as Hk'. split; [|done]. rewrite <- E.
  apply (select_by_key artifact_key); try done; [apply W|]. intros y _ Hy. apply named_artifact_spec in Hy. congruence.
Qed.

(** Rows the update's key does not name keep what is stored. *)
Lemma put_payload_run touch t ctx sid k v d : tenant_of ctx = t → onboarding_wf d → owned t sid d →
  ∃ d', put_payload touch ctx sid k v d = (Ok tt, d') ∧ onboarding_wf d' ∧ owned t sid d' ∧ onboardings d' = onboardings d ∧
    stored sid k k d' = option_map (fun _ => v) (stored sid k k d) ∧
    ∀ k' n, (k', n) ≠ (k, k) → stored sid k' n d' = stored sid k' n d.
Proof.
  intros Ht W Ho. set (p := visible (tenant_of ctx) (named sid k k)).
  set (f := fun x : onboarding_artifact => x <| oa_payload := v |> <| oa_created_at := coalesce touch (oa_created_at x) |>).
  exists (d <| artifacts := update_where p f (artifacts d) |>). split; [done|]. split; [|split; [|split; [done|split]]].
  - by apply (artifact_update_wf p f).
  - intros x Hx Hs. apply in_update_where in Hx as (y & Hy & ->). destruct (p y); exact (Ho y Hy Hs).
  - unfold stored. change (artifacts (d <| artifacts := ?q |>)) with q. rewrite select_update_comm by done.
    destruct (stored_cases sid k k d W) as [[-> _]|(x & -> & _ & Hx & Hk)]; [reflexivity|].
    unfold update_where. cbn [map hd_error option_map].
    assert (p x = true) as ->; [|done]. apply named_artifact_spec in Hk as Hk'. injection Hk as K1 _ _. unfold p, visible, row_tenant, tenant_artifacts. by rewrite (Ho x Hx K1), Ht, N.eqb_refl, Hk'.
  - intros k' n Hne. unfold stored. change (artifacts (d <| artifacts := ?q |>)) with q. rewrite select_update_same; [done|].
    intros y Hy. apply andb_true_iff in Hy as [_ Hy]. apply named_artifact_spec in Hy. assert (Hr : named sid k' n y = false).
    { apply not_true_iff_false. intros Hc. apply named_artifact_spec in Hc. apply Hne. congruence. }
    split; [done|exact Hr].
Qed.

Lemma drafted_differs k : drafted_name k ≠ k.
Proof. unfold drafted_name. intros E. apply (f_equal String.length) in E. rewrite length_sapp in E. cbn in E. lia. Qed.

Lemma retain_run now t ctx sid k d : tenant_of ctx = t → onboarding_wf d → owned t sid d →
  ∃ b d', retain_original now ctx sid k d = (Ok b, d') ∧ onboarding_wf d' ∧ owned t sid d' ∧ onboardings d' = onboardings d ∧
    stored sid k (drafted_name k) d' = coalesce_opt (stored sid k (drafted_name k) d) (stored sid k k d) ∧
    ∀ k' n, (k', n) ≠ (k, drafted_name k) → stored sid k' n d' = stored sid k' n d.
Proof.
  intros Ht W Ho. unfold retain_original, bind, sql_select, gets. cbn [rows table_artifacts]. rewrite Ht, !(select_owned t) by done.
  destruct (stored_cases sid k (drafted_name k) d W) as [[E Es]|(x & E & Es & _)]; rewrite E, Es.
  2: { exists false, d. split; [done|]. by repeat (split; [done|]). }
  unfold one_or_none, ret. cbn [is_some]. rewrite ?Ht, (select_owned t) by done. destruct (stored_cases sid k k d W) as [[Ek Eks]|(x & Ek & Eks & Hx & Hk)]; rewrite Ek, Eks; cbn [for_each].
  - exists true, d. split; [done|]. by repeat (split; [done|]).
  - set (y := mkArtifact (oa_tenant x) (oa_session x) (oa_kind x) (drafted_name k) (oa_payload x) now). injection Hk as K1 K2 _.
    assert (Hsel : select_where (named (oa_session y) (oa_kind y) (oa_name y)) (artifacts d) = []) by (cbn; by rewrite K1, K2).
    exists true, (d <| artifacts := artifacts d ++ [y] |>). split; [|split; [|split; [|split; [done|split]]]].
    + assert (Hi : insert_artifact y d = (Ok tt, d <| artifacts := artifacts d ++ [y] |>)) by (unfold insert_artifact, bind, get, guard; by rewrite Hsel).
      fold y. unfold bind. by rewrite Hi.
    + by apply artifact_insert_wf.
    + intros z Hz Hs. apply in_app_iff in Hz as [Hz|[<-|[]]]; [by apply Ho|]. exact (Ho x Hx K1).
    + unfold stored. change (artifacts (d <| artifacts := ?q |>)) with q. rewrite select_where_app, E. cbn [app].
      assert (select_where (named sid k (drafted_name k)) [y] = [y]) as ->; [|done]. unfold select_where. cbn [List.filter].
      assert (named sid k (drafted_name k) y = true) as ->; [|done]. apply named_artifact_spec. unfold artifact_key. cbn. by rewrite K1, K2.
    + intros k' n Hne. unfold stored. change (artifacts (d <| artifacts := ?q |>)) with q. rewrite select_where_app.
      assert (select_where (named sid k' n) [y] = []) as ->; [|by rewrite app_nil_r]. unfold select_where. cbn [List.filter].
      destruct (named sid k' n y) eqn:Ey; [|done]. apply named_artifact_spec in Ey. unfold artifact_key in Ey. cbn in Ey. exfalso. apply Hne. rewrite K2 in Ey. congruence.
Qed.

Lemma payload_run t ctx sid k d : tenant_of ctx = t → onboarding_wf d → owned t sid d →
  payload_of ctx sid k d = (Ok (match stored sid k k d with Some JNull => None | o => o end), d).
Proof.
  intros Ht W Ho. unfold payload_of, bind, sql_select, gets. cbn [rows table_artifacts]. rewrite Ht, (select_owned t) by done.
  destruct (stored_cases sid k k d W) as [[-> ->]|(x & -> & -> & _)]; [done|]. cbn. by destruct (oa_payload x).
Qed.

(** What [retype_instances] does to the stored artifacts when it succeeds. *)
Lemma retype_run str_of now t ctx sid r d n d' : tenant_of ctx = t → onboarding_wf d → owned t sid d →
  retype_instances str_of now ctx sid r d = (Ok n, d') →
  onboarding_wf d' ∧ owned t sid d' ∧ onboardings d' = onboardings d ∧
  (∀ name, stored sid "schema" name d' = stored sid "schema" name d) ∧
  (r = ∅ ∧ d' = d ∧ n = 0 ∨
   r ≠ ∅ ∧ ∃ v l, stored sid "instance_table" "instance_table" d = Some v ∧ members "instances" (Some v) = Ok l ∧
     stored sid "instance_table" "instance_table" d' = Some (jset "instances" (JArr (map (retyped str_of r) l)) v) ∧
     stored sid "instance_table" (drafted_name "instance_table") d' = coalesce_opt (stored sid "instance_table" (drafted_name "instance_table") d) (Some v) ∧
     n = retyped_count str_of r l).
Proof.
  intros Ht W Ho E. unfold retype_instances in E. destruct (bool_decide (r = ∅)) eqn:Er.
  { apply bool_decide_eq_true_1 in Er. injection E as <- <-. split; [done|split; [done|split; [done|split; [done|by left]]]]. }
  apply bool_decide_eq_false_1 in Er. rewrite (run_bind _ _ _ _ _ (payload_run t ctx sid "instance_table" d Ht W Ho)) in E.
  destruct (stored sid "instance_table" "instance_table" d) as [v|] eqn:Es; [|done].
  destruct (retain_run now t ctx sid "instance_table" d Ht W Ho) as (b & d1 & E1 & W1 & O1 & F1 & S1 & K1).
  assert (Hv : (retain_original now ctx sid "instance_table" ;;
    instances <- lift (members "instances" (Some v)) ;;
    guard (forallb (fun i => match i with JObj _ => true | _ => false end) instances) (OtherError "AttributeError") ;;
    guard (match v with JObj _ => true | _ => false end) (TypeError "list indices must be integers") ;;
    put_payload (Some now) ctx sid "instance_table" (jset "instances" (JArr (map (retyped str_of r) instances)) v) ;;
    ret (retyped_count str_of r instances)) d = (Ok n, d')) by (by destruct v). clear E.
  rewrite (run_bind _ _ _ _ _ E1) in Hv. apply bind_ok in Hv as (l & d2 & E2 & Hv). destruct (members "instances" (Some v)) as [l'|e] eqn:Em; [|done].
  injection E2 as <- <-. apply bind_ok in Hv as (u & d2 & E2 & Hv). unfold guard in E2. destruct (forallb _ _); [|done]. injection E2 as _ <-.
  apply bind_ok in Hv as (u' & d2 & E2 & Hv). destruct (match v with JObj _ => true | _ => false end); [|done]. injection E2 as _ <-.
  destruct (put_payload_run (Some now) t ctx sid "instance_table" (jset "instances" (JArr (map (retyped str_of r) l')) v) d1 Ht W1 O1)
    as (d3 & E3 & W3 & O3 & F3 & S3 & K3).
  rewrite (run_bind _ _ _ _ _ E3) in Hv. injection Hv as <- <-. split; [done|split; [done|split; [congruence|split]]].
  - intros name. rewrite K3, K1 by done. done.
  - right. split; [done|]. exists v, l'. split; [done|split; [done|]]. split.
    + rewrite S3, K1, Es; [done|]. intros [=]. 
    + split; [|done]. rewrite K3, S1, Es; [done|]. by intros [=].
Qed.

(** What a successful edit does. *)
Lemma edit_run str_of now t ctx sid yml r d res d' : tenant_of ctx = t → onboarding_wf d → owned t sid d →
  edit_schema str_of now id ctx sid yml r d = (Ok res, d') →
  onboarding_wf d' ∧ owned t sid d' ∧
  (∃ v, stored sid "schema" "schema" d = Some v ∧ stored sid "schema" "schema" d' = Some (JObj [("yaml", JStr yml)]) ∧
     stored sid "schema" (drafted_name "schema") d' = coalesce_opt (stored sid "schema" (drafted_name "schema") d) (Some v)) ∧
  (r = ∅ ∧ (∀ name, stored sid "instance_table" name d' = stored sid "instance_table" name d) ∧ ed_instances_retyped res = 0 ∨
   ∃ v l, stored sid "instance_table" "instance_table" d = Some v ∧ members "instances" (Some v) = Ok l ∧
     stored sid "instance_table" "instance_table" d' = Some (jset "instances" (JArr (map (retyped str_of r) l)) v) ∧
     stored sid "instance_table" (drafted_name "instance_table") d' = coalesce_opt (stored sid "instance_table" (drafted_name "instance_table") d) (Some v) ∧
     ed_instances_retyped res = retyped_count str_of r l) ∧
  ∃ x, In x (onboardings d') ∧ os_id x = sid ∧ os_status x = on_draft_ready ∧ os_schema_edited_by x = Some (principal_uuid (principal ctx)).
Proof.
  intros Ht W Ho E. apply bind_ok in E as (row & d1 & E1 & E). apply (proj1 (tx_ok _ _ _ _)) in E1.
  apply find_session_spec in E1 as [-> H1]. apply bind_ok in E as (u0 & d1 & Em & E). injection Em as _ <-. unfold id in E.
  apply (proj1 (tx_ok _ _ _ _)) in E. destruct row as [x|]; [|done]. cbn [edit_found] in E. destruct (H1 x eq_refl) as (Hx & Hxt & Hxi).
  apply bind_ok in E as (u & d1 & Eg & E). unfold guard in Eg. destruct (bool_decide (os_status x = on_draft_ready)) eqn:Eb; [|done]. injection Eg as _ <-.
  apply bool_decide_eq_true_1 in Eb. rewrite (run_bind _ _ _ _ _ (payload_run t ctx sid "schema" d Ht W Ho)) in E.
  apply bind_ok in E as (u' & d1 & Eg & E). destruct (stored sid "schema" "schema" d) as [v|] eqn:Es; [|done].
  assert (d1 = d) as -> by (by destruct v; injection Eg). clear Eg u u'.
  destruct (retain_run now t ctx sid "schema" d Ht W Ho) as (b & d1 & E1 & W1 & O1 & F1 & S1 & K1). rewrite (run_bind _ _ _ _ _ E1) in E.
  destruct (put_payload_run (Some now) t ctx sid "schema" (JObj [("yaml", JStr yml)]) d1 Ht W1 O1) as (d2 & E2 & W2 & O2 & F2 & S2 & K2).
  rewrite (run_bind _ _ _ _ _ E2) in E. apply bind_ok in E as (n & d3 & E3 & E). apply (retype_run str_of now t) in E3 as (W3 & O3 & F3 & S3 & H3); [|done..].
  apply bind_ok in E as (rows & d4 & E4 & E). injection E as <- <-. pose proof E4 as E5. apply update_sessions_ok in E4 as (_ & _ & _ & E4).
  assert (Hst : ∀ k n, stored sid k n d4 = stored sid k n d3) by (by rewrite E4).
  split; [|split; [|split; [|split]]].
  - apply (f_equal snd) in E5. cbn [snd] in E5. rewrite <- E5. by apply update_wf.
  - by rewrite E4.
  - exists v. rewrite !Hst, !S3, S2, K1, Es by done. split; [done|split; [done|]]. rewrite K2, S1, Es; [done|]. by intros [=].
  - cbn [ed_instances_retyped]. destruct H3 as [(-> & -> & ->)|(Hr & v' & l & H4 & H5 & H6 & H7 & ->)].
    + left. split; [done|split; [|done]]. intros name. by rewrite Hst, K2, K1.
    + right. exists v', l. rewrite !Hst, H6, H7. rewrite !K2, !K1 by done. rewrite !K2, !K1 in H4 by done. done.
  - exists ((fun x => x <| os_schema_edited_by := Some (principal_uuid (principal ctx)) |> <| os_schema_edited_at := Some now |> <| os_updated_at := now |>) x).
    split; [|done]. rewrite E4. apply in_update_where. exists x. split; [congruence|]. assert (visible (tenant_of ctx) (by_id sid) x = true) as -> by (by apply by_session_id_spec). done.
Qed.

(** Reading the artifacts: the row named like its kind, whatever the order of the rows. *)
Lemma artifact_set_lookup l s0 k : List.NoDup (map artifact_key l) → (∃ sid, Forall (fun x => oa_session x = sid) l) → mem SINGLETON_KINDS k = true →
  as_singletons (foldl add_artifact s0 l) !! k =
    match List.find (fun x => String.eqb (oa_kind x) k && String.eqb (oa_name x) k) l with
    | Some x => Some (oa_payload x)
    | None => as_singletons s0 !! k
    end.
Proof.
  intros Hn [sid Hs] Hk. revert s0. induction l as [|x l IH]; intros s0; [done|]. invc Hn. invc Hs. cbn [foldl]. rewrite IH by done. cbn [List.find].
  destruct (List.find _ l) as [y|] eqn:Ef.
  - destruct (String.eqb (oa_kind x) k && String.eqb (oa_name x) k) eqn:Ex; [|done]. exfalso.
    apply find_some in Ef as [Hy Ey]. rewrite andb_true_iff, !String.eqb_eq in Ex, Ey. destruct Ex as [X1 X2], Ey as [Y1 Y2]. apply H1, in_map_iff. exists y. split; [|done].
    unfold artifact_key. rewrite List.Forall_forall in H4. rewrite (H4 y Hy). congruence.
  - unfold add_artifact. destruct (String.eqb_spec (oa_kind x) "extraction_cache") as [Ec|Ec].
    { cbn [as_singletons]. destruct (String.eqb_spec (oa_kind x) k) as [E|E]; [|done]. exfalso. rewrite <- E, Ec in Hk. discriminate Hk. }
    destruct (String.eqb_spec (oa_kind x) k) as [E|E]; cbn [andb].
    + destruct (String.eqb_spec (oa_name x) k) as [E'|E'].
      * rewrite E, Hk, E', String.eqb_refl. cbn. apply lookup_insert_eq.
      * assert (String.eqb (oa_name x) (oa_kind x) = false) as -> by (by destruct (String.eqb_spec (oa_name x) (oa_kind x)); congruence). by rewrite andb_false_r.
    + destruct (mem SINGLETON_KINDS (oa_kind x) && String.eqb (oa_name x) (oa_kind x)); [|done]. cbn. by apply lookup_insert_ne.
Qed.

Lemma artifacts_for_run t ctx sid d : tenant_of ctx = t → onboarding_wf d → owned t sid d → ∃ s, artifacts_for ctx sid d = (Ok s, d) ∧
  ∀ k, mem SINGLETON_KINDS k = true → as_singletons s !! k = stored sid k k d.
Proof.
  intros Ht W Ho. eexists. split; [reflexivity|]. intros k Hk. cbn [rows table_artifacts]. unfold artifact_set_of.
  set (l := select_where (visible (tenant_of ctx) (of_session sid)) (artifacts d)).
  assert (Hl : ∀ x, In x l ↔ In x (artifacts d) ∧ oa_session x = sid).
  { intros x. unfold l, select_where. rewrite filter_In. unfold visible, of_session, row_tenant, tenant_artifacts. rewrite andb_true_iff, !N.eqb_eq.
    split; [intros (H1 & _ & H2); done|]. intros [H1 H2]. split; [done|]. split; [by rewrite (Ho x H1 H2)|done]. }
  rewrite artifact_set_lookup.
  - destruct (stored_cases sid k k d W) as [[E ->]|(x & E & -> & Hx & Hkx)].
    + destruct (List.find _ l) as [y|] eqn:Ef; [|apply lookup_empty]. exfalso. apply find_some in Ef as [Hy Ey]. apply Hl in Hy as [Hy Hs].
      rewrite andb_true_iff, !String.eqb_eq in Ey. destruct Ey as [Y1 Y2]. pose proof (proj1 (select_where_nil _ _) E y Hy) as Hn.
      apply not_true_iff_false in Hn. apply Hn, named_artifact_spec. unfold artifact_key. congruence.
    + destruct (List.find _ l) as [y|] eqn:Ef.
      * apply find_some in Ef as [Hy Ey]. apply Hl in Hy as [Hy Hs]. rewrite andb_true_iff, !String.eqb_eq in Ey. destruct Ey as [Y1 Y2].
        assert (y = x) as ->; [|done]. apply (key_unique artifact_key (artifacts d)); [apply W|done..|]. rewrite Hkx. unfold artifact_key. congruence.
      * exfalso. unfold artifact_key in Hkx. injection Hkx as K1 K2 K3. assert (Hin : In x l) by by apply Hl.
        pose proof (find_none _ _ Ef x Hin) as Hn. cbn in Hn. by rewrite K2, K3, !String.eqb_refl in Hn.
  - apply NoDup_map_filter, W.
  - exists sid. apply List.Forall_forall. intros x Hx. by apply Hl in Hx as [_ Hx].
  - done.
Qed.

(** Edits of one session one after another, by anybody of its tenant. *)
Definition edit : Type := timestamp * RequestContext * string * gmap string string.

Fixpoint edit_all (str_of : json → string) (sid : uuid) (l : list edit) (d : db) : db :=
  match l with
  | [] => d
  | (now, ctx, yml, r) :: l' => edit_all str_of sid l' (edit_schema str_of now id ctx sid yml r d).2
  end.

(** Correcting a draft never loses what the drafter wrote, and what is built is the
    correction.  However often the taxonomy and the types of a session's instances are
    edited one after another, by whomever of the tenant, each edit succeeding or failing as a whole: if an
    edit succeeded the drafter's schema is stored beside it, byte for byte, and the
    effective schema is that of one of the edits; if none did nothing changed; the same
    holds of the instance table once one of the edits retyped it.  The artifacts that are
    read for building are the effective ones, in whatever order the rows come.  A
    successful edit stores its text, retypes exactly the instances whose type it maps, and
    leaves the author's name on the session. *)
Theorem edits_keep_the_original str_of t sid l d :
  onboarding_wf d → owned t sid d → Forall (fun e : edit => tenant_of e.1.1.2 = t) l →
  let d' := edit_all str_of sid l d in
  (∀ kind v, kind = "schema" ∨ kind = "instance_table" → stored sid kind kind d = Some v → stored sid kind (drafted_name kind) d = None →
     stored sid kind (drafted_name kind) d' = Some v ∨ stored sid kind kind d' = Some v ∧ stored sid kind (drafted_name kind) d' = None) ∧
  (stored sid "schema" "schema" d' = stored sid "schema" "schema" d ∨
     ∃ e, In e l ∧ stored sid "schema" "schema" d' = Some (JObj [("yaml", JStr e.1.2)])) ∧
  (∀ ctx, tenant_of ctx = t → ∃ s, artifacts_for ctx sid d' = (Ok s, d') ∧
     ∀ k, mem SINGLETON_KINDS k = true → as_singletons s !! k = stored sid k k d') ∧
  ∀ now ctx yml r res d1, tenant_of ctx = t → edit_schema str_of now id ctx sid yml r d' = (Ok res, d1) →
    stored sid "schema" "schema" d1 = Some (JObj [("yaml", JStr yml)]) ∧
    (∃ x, In x (onboardings d1) ∧ os_id x = sid ∧ os_schema_edited_by x = Some (principal_uuid (principal ctx))) ∧
    (r ≠ ∅ → ∃ v instances, stored sid "instance_table" "instance_table" d' = Some v ∧ members "instances" (Some v) = Ok instances ∧
       stored sid "instance_table" "instance_table" d1 = Some (jset "instances" (JArr (map (retyped str_of r) instances)) v) ∧
       ed_instances_retyped res = retyped_count str_of r instances).
Proof.
  intros W Ho Hl d'.
  assert (H : onboarding_wf d' ∧ owned t sid d' ∧
    (∀ kind v, kind = "schema" ∨ kind = "instance_table" →
       (stored sid kind (drafted_name kind) d = Some v → stored sid kind (drafted_name kind) d' = Some v) ∧
       (stored sid kind kind d = Some v → stored sid kind (drafted_name kind) d = None →
        stored sid kind (drafted_name kind) d' = Some v ∨ stored sid kind kind d' = Some v ∧ stored sid kind (drafted_name kind) d' = None)) ∧
    (stored sid "schema" "schema" d' = stored sid "schema" "schema" d ∨ ∃ e, In e l ∧ stored sid "schema" "schema" d' = Some (JObj [("yaml", JStr e.1.2)]))).
  { unfold d'. clear d'. revert d W Ho. induction Hl as [|[[[now ctx] yml] r] l Ht _ IH]; intros d W Ho; cbn [edit_all].
    { split; [done|split; [done|split; [|by left]]]. intros kind v _. split; [done|]. by right. }
    cbn in Ht. destruct (edit_schema str_of now id ctx sid yml r d) as [[res|e] d1] eqn:E; cbn [snd].
    2: { assert (d1 = d) as ->.
         { apply bind_cases in E as [(e' & E & _)|(row & d2 & E1 & E)]; [by apply tx_raise in E|]. apply (proj1 (tx_ok _ _ _ _)) in E1.
           apply find_session_spec in E1 as [-> _]. by apply tx_raise in E. }
         destruct (IH d W Ho) as (I1 & I2 & I3 & I4). split; [done|split; [done|split; [done|]]].
         destruct I4 as [I4|(e' & He & I4)]; [by left|]. right. exists e'. split; [by right|done]. }
    apply (edit_run str_of now t) in E as (W1 & O1 & (v0 & S1 & S2 & S3) & Htab & _); [|done..].
    destruct (IH d1 W1 O1) as (I1 & I2 & I3 & I4). split; [done|split; [done|split]].
    - intros kind v Hk. destruct (I3 kind v Hk) as [J1 J2]. destruct Hk as [-> | ->].
      + split; [intros Hd; apply J1; by rewrite S3, Hd|]. intros Hv Hd. left. apply J1. rewrite S3, Hd. cbn. congruence.
      + destruct Htab as [(_ & Hsame & _)|(v1 & l1 & T1 & _ & T2 & T3 & _)].
        * split; [intros Hd; apply J1; by rewrite Hsame|]. intros Hv Hd. apply J2; by rewrite Hsame.
        * split; [intros Hd; apply J1; by rewrite T3, Hd|]. intros Hv Hd. left. apply J1. rewrite T3, Hd. cbn. congruence.
    - destruct I4 as [I4|(e' & He & I4)]; right; [|exists e'; split; [by right|done]]. exists (now, ctx, yml, r). split; [by left|]. by rewrite I4, S2. }
  destruct H as (W' & O' & H1 & H2). split; [|split; [done|split]].
  - intros kind v Hk. apply (H1 kind v Hk).
  - intros ctx Ht. by apply (artifacts_for_run t).
  - intros now ctx yml r res d1 Ht E. apply (edit_run str_of now t) in E as (W1 & O1 & (v0 & S1 & S2 & S3) & Htab & (x & X1 & X2 & X3 & X4)); [|done..].
    split; [done|split; [by exists x|]]. intros Hr. destruct Htab as [(-> & _)|(v1 & l1 & T1 & T2 & T3 & _ & T4)]; [done|]. by exists v1, l1.
Qed.


Module OnboardingDemo.
#[export] Instance env : AuditEnv := mkAuditEnv (fun s => "sha") (fun _ => "at") (fun j => j) (Some "r2").
Definition by_ (u : uuid) : RequestContext := Demo.ctx <| principal := (principal Demo.ctx) <| principal_uuid := u |> |>.
Definition alice : RequestContext := by_ 11.
Definition bob : RequestContext := by_ 12.
Definition carol : RequestContext := by_ 13.
Definition str_of (_ : json) : string := "".
Definition instance (ty : string) : json := JObj [("entity_type", JStr ty)].
(** Alice's draft finishes; Bob corrects it. *)
Definition drafted : list (timestamp * onboarding_step) :=
  [(1, Create 70 alice " Plant " "manuals" None); (2, Put alice 70 "schema" "schema" (JObj [("yaml", JStr "v1")]));
   (3, Put alice 70 "instance_table" "instance_table" (JObj [("instances", JArr [instance "raw:alarm"; instance "Pump"])]));
   (4, SetStatus alice 70 on_draft_ready None None)].
Definition after (h : list (timestamp * onboarding_step)) : db := exec_all str_of h empty_db.
Definition d0 : db := after drafted.
(** The row of the session, as a SELECT finds it. *)
Definition seen (d : db) : option onboarding_session := hd_error (select_where (by_id 70) (onboardings d)).
Definition corrected : list (timestamp * onboarding_step) := drafted ++ [(5, Edit (seen d0) bob 70 "v2" {["alarm" := "Alarm"]})].
(** Carol approves; everybody tries to change it, and it is published. *)
Definition signed_off : db := after (corrected ++ [(6, Approve carol 70)]).
Definition attempts : list (timestamp * onboarding_step) :=
  [(7, Edit (seen signed_off) bob 70 "v3" ∅); (7, Approve bob 70); (8, Cancel alice 70); (9, Publish carol 70);
   (10, Edit (seen signed_off) bob 70 "v4" ∅)].
End OnboardingDemo.

#[local] Existing Instance OnboardingDemo.env.

Lemma empty_onboarding_wf : onboarding_wf empty_db.
Proof. constructor; [constructor|reflexivity|apply bool_decide_eq_true_2; constructor|constructor]. Qed.

Lemma exec_all_wf `{AuditEnv} str_of h d : onboarding_wf d → onboarding_wf (exec_all str_of h d).
Proof. revert d. induction h as [|[now a] h IH]; intros d W; [done|]. cbn [exec_all]. by apply IH, exec_wf. Qed.

(** Cancelling a draft does not stop its run: when the run finishes, the session is back. *)
Example cancelled_draft_comes_back :
  map os_status (onboardings (OnboardingDemo.after
    [(1, Create 70 OnboardingDemo.alice "plant" "manuals" None); (2, Cancel OnboardingDemo.alice 70);
     (3, SetStatus OnboardingDemo.alice 70 on_draft_ready None None)])) = [on_draft_ready].
Proof. vm_compute. reflexivity. Qed.

(** Bob's correction is checked by Bob, once Carol has saved anything after him. *)
Example earlier_editor_approves :
  let d := OnboardingDemo.after (OnboardingDemo.corrected ++ [(6, Edit (OnboardingDemo.seen (OnboardingDemo.after OnboardingDemo.corrected)) OnboardingDemo.carol 70 "v2" ∅); (7, Approve OnboardingDemo.bob 70)]) in
  map (fun x => (os_status x, os_approved_by x)) (onboardings d) = [(on_approved, Some 12%N)] ∧
  stored 70 "instance_table" "instance_table" d =
    Some (JObj [("instances", JArr [OnboardingDemo.instance "Alarm"; OnboardingDemo.instance "Pump"])]).
Proof. vm_compute. split; reflexivity. Qed.

(** A second run of a draft that another finished overwrites what was approved. *)
Example late_draft_overwrites_approved_bytes :
  let d := (exec OnboardingDemo.str_of 8 (Put OnboardingDemo.alice 70 "schema" "schema" (JObj [("yaml", JStr "other")])) OnboardingDemo.signed_off) in
  map os_status (onboardings d) = [on_approved] ∧ stored 70 "schema" "schema" d = Some (JObj [("yaml", JStr "other")]).
Proof. vm_compute. split; reflexivity. Qed.

(** Bob's edit finds the session ready; Carol approves what she read before Bob's writes
    commit: what is approved is Bob's text, which she never saw. *)
Example an_edit_outlives_its_status_check :
  let ready := OnboardingDemo.after OnboardingDemo.corrected in
  let carol_approves d := (approve 6 OnboardingDemo.carol 70 d).2 in
  let (r, d) := edit_schema OnboardingDemo.str_of 6 carol_approves OnboardingDemo.bob 70 "unseen" ∅ ready in
  r = Ok (mkEditResult false 0) ∧ stored 70 "schema" "schema" (carol_approves ready) = Some (JObj [("yaml", JStr "v2")]) ∧
  map (fun x => (os_status x, os_approved_by x)) (onboardings d) = [(on_approved, Some 13%N)] ∧
  stored 70 "schema" "schema" d = Some (JObj [("yaml", JStr "unseen")]).
Proof. vm_compute. repeat split; reflexivity. Qed.

Lemma what_is_published_was_approved_witness :
  map os_status (onboardings (exec_all OnboardingDemo.str_of OnboardingDemo.attempts OnboardingDemo.signed_off)) = [on_published] ∧
  select_where (reviewed 70) (artifacts (exec_all OnboardingDemo.str_of OnboardingDemo.attempts OnboardingDemo.signed_off)) =
    select_where (reviewed 70) (artifacts OnboardingDemo.signed_off).
Proof.
  destruct (what_is_published_was_approved OnboardingDemo.str_of OnboardingDemo.attempts OnboardingDemo.signed_off) as [_ H].
  - apply exec_all_wf, empty_onboarding_wf.
  - computed (onboardings OnboardingDemo.signed_off) as E. intros x Hx _. rewrite E in Hx. destruct Hx as [<-|[]]. reflexivity.
  - vm_compute. reflexivity.
  - assert (Hx : existsb (fun x => N.eqb (os_id x) 70 && settled x) (onboardings OnboardingDemo.signed_off) = true) by (vm_compute; reflexivity).
    apply existsb_exists in Hx as (x & Hx & Hp). apply andb_true_iff in Hp as [Hi%N.eqb_eq Hs]. destruct (H x Hx Hs) as [_ Ha]. rewrite Hi in Ha. split; [vm_compute; reflexivity|exact Ha].
Defined.

Lemma one_taxonomy_is_live_witness :
  (∃ domain d3, publish 9 OnboardingDemo.carol 70 (exec_all OnboardingDemo.str_of [] OnboardingDemo.signed_off) = (Ok domain, d3) ∧ domain = "plant" ∧
     map os_status (onboardings d3) = [on_published]).
Proof.
  destruct (one_taxonomy_is_live OnboardingDemo.str_of [] OnboardingDemo.signed_off) as [_ H].
  - apply exec_all_wf, empty_onboarding_wf.
  - assert (Hx : existsb (fun x => N.eqb (os_id x) 70 && N.eqb (os_tenant x) 1 && bool_decide (os_status x = on_approved))
                   (onboardings OnboardingDemo.signed_off) = true) by (vm_compute; reflexivity).
    apply existsb_exists in Hx as (x & Hx & Hp). apply andb_true_iff in Hp as [[Hi%N.eqb_eq Ht%N.eqb_eq]%andb_true_iff Hs%bool_decide_eq_true]. specialize (H 9 OnboardingDemo.carol x Hx Ht Hs). rewrite Hi in H.
    computed (publish 9 OnboardingDemo.carol 70 (exec_all OnboardingDemo.str_of [] OnboardingDemo.signed_off)).1 as E1.
    computed (map os_status (onboardings (publish 9 OnboardingDemo.carol 70 (exec_all OnboardingDemo.str_of [] OnboardingDemo.signed_off)).2)) as E2.
    destruct (publish 9 OnboardingDemo.carol 70 _) as [r d3]. cbn [fst snd] in E1, E2. subst r. destruct H as (H1 & _).
    exists "plant", d3. split; [reflexivity|]. split; [reflexivity|exact E2].
Defined.

Lemma edits_keep_the_original_witness :
  let d' := edit_all OnboardingDemo.str_of 70 [(5, OnboardingDemo.bob, "v2", {["alarm" := "Alarm"]}); (6, OnboardingDemo.carol, "v3", ∅)] OnboardingDemo.d0 in
  stored 70 "schema" (drafted_name "schema") d' = Some (JObj [("yaml", JStr "v1")]) ∧ stored 70 "schema" "schema" d' = Some (JObj [("yaml", JStr "v3")]) ∧
  ∃ s, artifacts_for OnboardingDemo.alice 70 d' = (Ok s, d') ∧ as_singletons s !! "schema" = Some (JObj [("yaml", JStr "v3")]).
Proof.
  intros d'. destruct (edits_keep_the_original OnboardingDemo.str_of 1 70
    [(5, OnboardingDemo.bob, "v2", {["alarm" := "Alarm"]}); (6, OnboardingDemo.carol, "v3", ∅)] OnboardingDemo.d0) as (H1 & H2 & H3 & _).
  - apply exec_all_wf, empty_onboarding_wf.
  - computed (artifacts OnboardingDemo.d0) as E. intros x Hx _. rewrite E in Hx. destruct Hx as [<-|[<-|[]]]; reflexivity.
  - repeat constructor.
  - assert (Hs : stored 70 "schema" "schema" d' = Some (JObj [("yaml", JStr "v3")])) by (vm_compute; reflexivity).
    assert (Hd : stored 70 "schema" (drafted_name "schema") d' ≠ None) by (vm_compute; discriminate). split; [|split; [exact Hs|]].
    + destruct (H1 "schema" (JObj [("yaml", JStr "v1")])) as [H|[_ H]]; [by left|vm_compute; reflexivity|vm_compute; reflexivity|exact H|by destruct (Hd H)].
    + destruct (H3 OnboardingDemo.alice eq_refl) as (s & E & Hk). exists s. split; [exact E|]. rewrite <- Hs. by apply Hk.
Defined.
