(* ===== verification/Datasets.v ===== *)
(** Golden sets and the labels of their items ([platform_core/gates/datasets.py],
    [platform_core/gates/labels.py], and the routes of [platform_core/api/routes/eval.py]
    that write them).

    A raw item is the dictionary the request carries, an association list; [str_of] is
    [str()] on a value that is not a string.  The rows of [eval_dataset.items] hold what
    [save] wrote, so reading one that has another shape raises.  Two rows of one name with
    one creation time are read in physical order. *)
From Stdlib Require Import Ascii.
From stdpp Require Import pretty.
From S2P Require Import Prelude Identity Json Text Db AuditTrail Gaps.

(** * Items *)

Record EvalItem := mkItem {
  it_id : string;
  it_question : string;
  it_expected_answer : string;
  it_must_cite : list string
}.

#[export] Instance eta_item : Eta EvalItem := fun x => mkItem (it_id x) (it_question x) (it_expected_answer x) (it_must_cite x).

(** [to_dict]. *)
Definition item_fields (x : EvalItem) : list (string * json) :=
  [("id", JStr (it_id x)); ("question", JStr (it_question x)); ("expected_answer", JStr (it_expected_answer x));
   ("must_cite", JArr (map JStr (it_must_cite x)))].

Definition item_json (x : EvalItem) : json := JObj (item_fields x).

(** [EvalItem( **item )] on a stored item. *)
Definition text_of (v : json) : option string := match v with JStr s => Some s | _ => None end.

Fixpoint all_some {A} (l : list (option A)) : option (list A) :=
  match l with
  | [] => Some []
  | Some a :: l' => option_map (cons a) (all_some l')
  | None :: _ => None
  end.

Definition item_of_json (v : json) : option EvalItem :=
  match v with
  | JObj [("id", JStr i); ("question", JStr q); ("expected_answer", JStr a); ("must_cite", JArr l)] =>
      option_map (mkItem i q a) (all_some (map text_of l))
  | _ => None
  end.

Definition items_of_json (v : json) : option (list EvalItem) :=
  match v with JArr l => all_some (map item_of_json l) | _ => None end.

Record Dataset := mkDataset {
  ds_id : uuid;
  ds_name : string;
  ds_collection : string;
  ds_sha : string;
  ds_items : list EvalItem
}.

Definition cites (x : EvalItem) : bool := match it_must_cite x with [] => false | _ => true end.

Definition scoreable_items (d : Dataset) : list EvalItem := List.filter cites (ds_items d).

(** * Validation *)

Fixpoint all_hex (s : string) : bool :=
  match s with EmptyString => true | String c s' => hex_char c && all_hex s' end.

(** [$] matches at the end and before a final newline. *)
Fixpoint drop_final_newline (s : string) : string :=
  match s with
  | EmptyString => ""
  | String c EmptyString => if Ascii.eqb c newline then "" else s
  | String c s' => String c (drop_final_newline s')
  end.

(** [CANONICAL_ID.match], [^c_[0-9a-f]{6,32}$]. *)
Definition CANONICAL_ID (s : string) : bool :=
  match s with
  | String a (String b r) =>
      let body := drop_final_newline r in
      Ascii.eqb a "c" && Ascii.eqb b "_" && (6 <=? str_len body) && (str_len body <=? 32) && all_hex body
  | _ => false
  end.

Definition json_truthy (v : json) : bool :=
  match v with
  | JNull | JBool false | JStr "" | JArr [] | JObj [] => false
  | JInt n => negb (n =? 0)
  | JFloat r => negb (String.eqb r "0.0" || String.eqb r "-0.0")
  | _ => true
  end.

Definition dict_get (k : string) (kvs : list (string * json)) : option json :=
  option_map snd (List.find (fun kv => String.eqb kv.1 k) kvs).

Section validation.
Variable str_of : json → string.

Definition py_str (v : json) : string := match v with JStr s => s | _ => str_of v end.

(** [str(raw.get(k) or "").strip()]. *)
Definition stripped (k : string) (raw : list (string * json)) : string :=
  match dict_get k raw with
  | Some v => if json_truthy v then strip (py_str v) else ""
  | None => ""
  end.

(** Iterating over a value. *)
Definition iter_json (v : json) : result (list json) :=
  match v with
  | JArr l => Ok l
  | JStr s => Ok (map (fun c => JStr (String c "")) (String.list_ascii_of_string s))
  | JObj kvs => Ok (map (fun kv => JStr kv.1) kvs)
  | _ => Raise (TypeError "object is not iterable")
  end.

(** [[str(c) for c in (raw.get("must_cite") or [])]]. *)
Definition citations_of (raw : list (string * json)) : result (list string) :=
  match dict_get "must_cite" raw with
  | Some v =>
      if json_truthy v then match iter_json v with Ok l => Ok (map py_str l) | Raise e => Raise e end else Ok []
  | None => Ok []
  end.

Definition InvalidDataset : exn := OtherError "InvalidDataset".

Fixpoint build_items (seen : list string) (raws : list (list (string * json))) : result (list EvalItem) :=
  match raws with
  | [] => Ok []
  | raw :: raws' =>
      let item_id := stripped "id" raw in
      let question := stripped "question" raw in
      if String.eqb item_id "" then Raise InvalidDataset
      else if mem seen item_id then Raise InvalidDataset
      else if String.eqb question "" then Raise InvalidDataset
      else
        match citations_of raw with
        | Raise e => Raise e
        | Ok must_cite =>
            if negb (forallb CANONICAL_ID must_cite) then Raise InvalidDataset
            else
              match build_items (seen ++ [item_id]) raws' with
              | Raise e => Raise e
              | Ok built => Ok (mkItem item_id question (stripped "expected_answer" raw) must_cite :: built)
              end
        end
  end.

Definition build_dataset (raws : list (list (string * json))) : result (list EvalItem) :=
  match raws with [] => Raise InvalidDataset | _ => build_items [] raws end.

End validation.

(** * Versions *)

Definition id_le (x y : EvalItem) : bool := String.leb (it_id x) (it_id y).

Definition version_text (items : list EvalItem) : string :=
  utf8 (dumps true (canonical (JArr (map item_json (order_by id_le items))))).

Definition content_sha `{AuditEnv} (items : list EvalItem) : string := env_sha256 (version_text items).

Definition of_name (n : string) (x : eval_dataset) : bool := String.eqb (ed_name x) n.

Definition of_version (n sha : string) (x : eval_dataset) : bool := of_name n x && String.eqb (ed_sha x) sha.

Definition policy_of (n : string) (x : continuous_eval_policy) : bool := String.eqb (ep_dataset_name x) n.

(** The fields of the settings [save] reads. *)
Record eval_settings := mkEvalSettings {
  continuous_eval_interval_seconds : Z;
  continuous_eval_default_top_k : Z
}.

(** What [varchar(128)] and [jsonb] accept. *)
Definition item_storable (x : EvalItem) : bool :=
  no_nul (it_id x) && no_nul (it_question x) && no_nul (it_expected_answer x) && forallb no_nul (it_must_cite x).

Definition name_ok (n : string) : bool := (str_len n <=? 128) && no_nul n.

Definition set_collection (c : string) (x : eval_dataset) : eval_dataset := x <| ed_collection := c |>.

(** [INSERT INTO eval_dataset ... ON CONFLICT DO UPDATE SET collection ... RETURNING id]. *)
Definition upsert_version (now : timestamp) (fresh : uuid) (ctx : RequestContext) (n c sha : string) (built : list EvalItem) : M db uuid :=
  guard (name_ok n && name_ok c && forallb item_storable built) (OtherError "DataError") ;;
  updated <- sql_update (visible (tenant_of ctx) (of_version n sha)) (set_collection c) ;;
  match updated with
  | x :: _ => ret (ed_id x)
  | [] =>
      d <- get ;;
      guard (negb (existsb (fun x => N.eqb (ed_id x) fresh) (datasets d))) (IntegrityError "eval_dataset_pkey") ;;
      sql_insert (mkEvalDataset fresh (tenant_of ctx) n c sha (JArr (map item_json built)) (count built)
                    (Some (principal_uuid (principal ctx))) now) ;;
      ret fresh
  end.

Definition touch_policy (now : timestamp) (ctx : RequestContext) (x : continuous_eval_policy) : continuous_eval_policy :=
  x <| ep_updated_by := Some (principal_uuid (principal ctx)) |> <| ep_updated_at := now |>.

(** The checks of a schedule. *)
Definition policy_ok (interval_seconds top_k : Z) : bool :=
  (900 <=? interval_seconds) && (interval_seconds <=? 604800) && (1 <=? top_k) && (top_k <=? 50).

Definition upsert_policy (st : eval_settings) (now : timestamp) (fresh : uuid) (ctx : RequestContext) (n : string) : M db unit :=
  let by_ := Some (principal_uuid (principal ctx)) in
  guard (policy_ok (continuous_eval_interval_seconds st) (continuous_eval_default_top_k st)) (IntegrityError "continuous_eval_bounded") ;;
  updated <- sql_update (visible (tenant_of ctx) (policy_of n)) (touch_policy now ctx) ;;
  match updated with
  | _ :: _ => ret tt
  | [] =>
      d <- get ;;
      guard (negb (existsb (fun x => N.eqb (ep_id x) fresh) (policies d))) (IntegrityError "continuous_eval_policy_pkey") ;;
      sql_insert (mkEvalPolicy fresh (tenant_of ctx) n (continuous_eval_interval_seconds st) (continuous_eval_default_top_k st)
                    now None None by_ by_ now)
  end.

Section datasets.
Context `{AuditEnv}.
Variables (str_of : json → string) (st : eval_settings).

(** [fresh] are the ids drawn for the version and for its schedule. *)
Definition save (now : timestamp) (fresh : uuid * uuid) (ctx : RequestContext) (n c : string) (raws : list (list (string * json)))
    : M db Dataset :=
  match build_dataset str_of raws with
  | Raise e => raise e
  | Ok built =>
      let sha := content_sha built in
      i <- tenant_session (
        i <- upsert_version now fresh.1 ctx n c sha built ;;
        upsert_policy st now fresh.2 ctx n ;;
        audit_in_session now (tenant_of ctx) ctx "eval.dataset.version.saved" SUCCEEDED "eval_dataset" n
          (JObj [("content_sha256", JStr sha); ("collection", JStr c); ("item_count", JInt (count built))]) ;;
        ret i) ;;
      ret (mkDataset i n c sha built)
  end.

Definition newest (x y : eval_dataset) : bool := ed_created_at y <=? ed_created_at x.

Definition to_dataset (x : eval_dataset) : M db Dataset :=
  match items_of_json (ed_items x) with
  | Some l => ret (mkDataset (ed_id x) (ed_name x) (ed_collection x) (ed_sha x) l)
  | None => raise (TypeError "EvalItem")
  end.

Definition load (ctx : RequestContext) (n : string) (sha : option string) : M db (option Dataset) :=
  row <- tenant_session (
    if truthy sha then
      found <- sql_select (visible (tenant_of ctx) (of_version n (coalesce sha ""))) ;;
      one_or_none found
    else
      found <- sql_select (visible (tenant_of ctx) (of_name n)) ;;
      one_or_none (firstn 1 (order_by newest found))) ;;
  match row with
  | None => ret None
  | Some x => d <- to_dataset x ;; ret (Some d)
  end.

End datasets.

(** * Labels *)

Definition of_item (n i : string) (x : eval_item_label) : bool := String.eqb (il_dataset_name x) n && String.eqb (il_item x) i.

(** The columns' defaults. *)
Definition blank_label (now : timestamp) (t : uuid) (n i : string) : eval_item_label :=
  mkItemLabel t n i as_empty None None false None None false None "hand" now.

Definition for_dataset (ctx : RequestContext) (n : string) : M db (list eval_item_label) :=
  tenant_session (sql_select (visible (tenant_of ctx) (fun x => String.eqb (il_dataset_name x) n))).

(** [labels.get(i, {})]. *)
Definition label_of (labels : list eval_item_label) (i : string) : option eval_item_label :=
  List.find (fun x => String.eqb (il_item x) i) labels.

(** [HUMAN_AUTHORED]. *)
Definition human_authored (x : eval_item_label) : bool :=
  bool_decide (il_answer_source x = as_sme_edited) || bool_decide (il_answer_source x = as_sme_authored).

Definition set_drafted (now : timestamp) (model : string) (x : eval_item_label) : eval_item_label :=
  x <| il_answer_source := as_llm_drafted |> <| il_annotator_model := Some model |> <| il_annotated_at := Some now |> <| il_updated_at := now |>.

(** [INSERT ... SELECT unnest(ids) ... ON CONFLICT DO UPDATE ... WHERE], item by item; the
    number of rows touched. *)
Fixpoint upsert_labels (now : timestamp) (ctx : RequestContext) (n : string) (only : eval_item_label → bool)
    (set_ : eval_item_label → eval_item_label) (ids : list string) : M db Z :=
  match ids with
  | [] => ret 0
  | i :: ids' =>
      found <- sql_select (visible (tenant_of ctx) (of_item n i)) ;;
      touched <- match found with
                 | [] => sql_insert (set_ (blank_label now (tenant_of ctx) n i)) ;; ret 1
                 | _ => updated <- sql_update (visible (tenant_of ctx) (fun x => of_item n i x && only x)) set_ ;; ret (count updated)
                 end ;;
      rest <- upsert_labels now ctx n only set_ ids' ;;
      ret (touched + rest)
  end.

(** One statement may not touch a row twice; the callers pass the keys of a dictionary. *)
Definition batch_ok (n : string) (ids : list string) : M db unit :=
  guard (name_ok n && forallb name_ok ids) (OtherError "DataError") ;;
  guard (bool_decide (NoDup ids)) (OtherError "CardinalityViolation").

Definition record_drafted (now : timestamp) (ctx : RequestContext) (n : string) (ids : list string) (model : string) : M db Z :=
  match ids with
  | [] => ret 0
  | _ =>
      tenant_session (
        batch_ok n ids ;;
        guard ((str_len model <=? 64) && no_nul model) (OtherError "DataError") ;;
        upsert_labels now ctx n (fun x => negb (human_authored x)) (set_drafted now model) ids)
  end.

Definition set_origin_of (now : timestamp) (origin : string) (x : eval_item_label) : eval_item_label :=
  x <| il_origin := origin |> <| il_updated_at := now |>.

Definition ORIGINS : list string := ["hand"; "onboarding"; "mined"].

Definition set_origin (now : timestamp) (ctx : RequestContext) (n : string) (ids : list string) (origin : string) : M db Z :=
  match ids with
  | [] => ret 0
  | _ =>
      tenant_session (
        batch_ok n ids ;;
        guard (mem ORIGINS origin) (IntegrityError "eval_item_label_origin_valid") ;;
        upsert_labels now ctx n (fun _ => true) (set_origin_of now origin) ids)
  end.

(** The reviewer's verdict; [None] leaves a column alone. *)
Record verdict := mkVerdictOn {
  vd_answer_edited : bool;
  vd_confirmed : option bool;
  vd_requires_kg_hop : option bool;
  vd_unusable_reason : option string
}.

(** The assignments of the [UPDATE], in the order they are put together. *)
Definition apply_verdict (now : timestamp) (ctx : RequestContext) (v : verdict) (x : eval_item_label) : eval_item_label :=
  let x := x <| il_updated_at := now |> in
  let x := if vd_answer_edited v then x <| il_answer_source := as_sme_edited |> else x in
  let x := match vd_confirmed v with
           | Some c => x <| il_confirmed := c |> <| il_confirmed_by := if c then Some (principal_uuid (principal ctx)) else None |>
                         <| il_confirmed_at := if c then Some now else None |>
           | None => x
           end in
  let x := match vd_requires_kg_hop v with Some h => x <| il_requires_kg_hop := h |> | None => x end in
  match vd_unusable_reason v with
  | Some r => x <| il_unusable_reason := if String.eqb r "" then None else Some r |>
  | None => x
  end.

Definition set_label (now : timestamp) (ctx : RequestContext) (n i : string) (v : verdict) : M db eval_item_label :=
  tenant_session (
    guard (name_ok n && name_ok i && no_nul (coalesce (vd_unusable_reason v) "")) (OtherError "DataError") ;;
    found <- sql_select (visible (tenant_of ctx) (of_item n i)) ;;
    match found with [] => sql_insert (blank_label now (tenant_of ctx) n i) | _ => ret tt end ;;
    updated <- sql_update (visible (tenant_of ctx) (of_item n i)) (apply_verdict now ctx v) ;;
    match updated with
    | [x] => ret x
    | _ => raise MultipleResultsFound
    end).

Record review_summary := mkReviewSummary {
  rs_total : Z;
  rs_with_expected_answer : Z;
  rs_with_evidence : Z;
  rs_drafted : Z;
  rs_sme_authored : Z;
  rs_confirmed : Z;
  rs_accepted_unedited : Z;
  rs_requires_kg_hop : Z;
  rs_unusable : Z;
  rs_from_real_failures : Z
}.

Definition labelled (labels : list eval_item_label) (p : eval_item_label → bool) (x : EvalItem) : bool :=
  match label_of labels (it_id x) with Some l => p l | None => false end.

Definition drafted_by_model (l : eval_item_label) : bool := bool_decide (il_answer_source l = as_llm_drafted).

Definition summarise (items : list EvalItem) (labels : list eval_item_label) : review_summary :=
  let tally p := count (List.filter p items) in
  mkReviewSummary (count items)
    (tally (fun x => negb (blank (it_expected_answer x)))) (tally cites)
    (tally (labelled labels drafted_by_model))
    (tally (labelled labels human_authored))
    (tally (labelled labels il_confirmed))
    (tally (fun x => labelled labels il_confirmed x && labelled labels drafted_by_model x))
    (tally (labelled labels il_requires_kg_hop))
    (tally (labelled labels (fun l => truthy (il_unusable_reason l))))
    (tally (labelled labels (fun l => String.eqb (il_origin l) "mined"))).

(** * The routes that write a golden set *)

Section routes.
Context `{AuditEnv}.
Variables (str_of : json → string) (st : eval_settings).

Definition raws : Type := list (list (string * json)).

(** [except InvalidDataset: raise HTTPException(400)]. *)
Definition or_400 {A} (m : M db A) : M db A :=
  try_except m (fun e => match e with
                         | OtherError c => if String.eqb c "InvalidDataset" then Some (raise (HTTPException 400)) else None
                         | _ => None
                         end).

Definition valid_collection (c : string) : bool := (1 <=? str_len c) && (str_len c <=? 128).

Definition put_dataset (now : timestamp) (fresh : uuid * uuid) (ctx : RequestContext) (n c : string) (items : raws) : M db Dataset :=
  guard (valid_collection c && (1 <=? count items)) (HTTPException 422) ;;
  or_400 (save str_of st now fresh ctx n c items).

Record ItemReview := mkItemReview {
  ir_expected_answer : option string;
  ir_confirmed : option bool;
  ir_requires_kg_hop : option bool;
  ir_unusable_reason : option string
}.

Definition valid_review (p : ItemReview) : bool :=
  (str_len (coalesce (ir_expected_answer p) "") <=? 20000) && (str_len (coalesce (ir_unusable_reason p) "") <=? 2000).

Definition answered (i a : string) (x : EvalItem) : EvalItem := if String.eqb (it_id x) i then x <| it_expected_answer := a |> else x.

Definition verdict_of (p : ItemReview) : verdict :=
  mkVerdictOn (is_some (ir_expected_answer p)) (ir_confirmed p) (ir_requires_kg_hop p) (ir_unusable_reason p).

(** The hash that was saved, whether it is another version, and the label. *)
Definition review_item (now : timestamp) (fresh : uuid * uuid) (ctx : RequestContext) (n i : string) (p : ItemReview)
    : M db (option (string * bool) * eval_item_label) :=
  guard (valid_review p) (HTTPException 422) ;;
  found <- load ctx n None ;;
  match found with
  | None => raise (HTTPException 404)
  | Some ds =>
      guard (existsb (fun x => String.eqb (it_id x) i) (ds_items ds)) (HTTPException 404) ;;
      saved <- match ir_expected_answer p with
               | None => ret None
               | Some a =>
                   d <- or_400 (save str_of st now fresh ctx n (ds_collection ds) (map item_fields (map (answered i a) (ds_items ds)))) ;;
                   ret (Some (ds_sha d, negb (String.eqb (ds_sha d) (ds_sha ds))))
               end ;;
      label <- set_label now ctx n i (verdict_of p) ;;
      ret (saved, label)
  end.

(** [f"g_{gap_id.hex[:12]}"]. *)
Definition gap_item_id (u : uuid) : string := "g_" +:+ str_take 12 (hex_digits 32 u "").

Definition gap_fields (x : unanswered_question) : list (string * json) :=
  item_fields (mkItem (gap_item_id (uq_id x)) (uq_question x) "" []).

(** The loop over the chosen gaps: the items to add, those whose id is not among the ids
    that were there before the loop. *)
Definition added_gaps (seen : list string) (chosen : list unanswered_question) : list unanswered_question :=
  List.filter (fun g => negb (mem seen (gap_item_id (uq_id g)))) chosen.

Definition mine_gaps (now : timestamp) (fresh : uuid * uuid) (ctx : RequestContext) (n c : string) (gap_ids : list uuid)
    : M db (option Dataset * Z) :=
  guard (valid_collection c && (1 <=? count gap_ids) && (count gap_ids <=? 200)) (HTTPException 422) ;;
  existing <- load ctx n None ;;
  open_ <- backlog ctx (Some c) false 500 ;;
  let chosen := List.filter (fun g => existsb (N.eqb (uq_id g)) gap_ids) open_ in
  guard (forallb (fun i => existsb (fun g => N.eqb (uq_id g) i) chosen) gap_ids) (HTTPException 404) ;;
  let items := match existing with Some ds => ds_items ds | None => [] end in
  let added := added_gaps (map it_id items) chosen in
  match added with
  | [] => ret (None, 0)
  | _ =>
      d <- or_400 (save str_of st now fresh ctx n (match existing with Some ds => ds_collection ds | None => c end)
                     (map item_fields items ++ map gap_fields added)) ;;
      set_origin now ctx n (map (fun g => gap_item_id (uq_id g)) added) "mined" ;;
      mark_seeded now ctx (map uq_id chosen) n ;;
      audit_record now ctx "eval.dataset.mined" SUCCEEDED "eval_dataset" n
        (JObj [("added", JArr (map (fun g => JStr (gap_item_id (uq_id g))) added)); ("collection", JStr c)]) false ;;
      ret (Some d, count added)
  end.

End routes.

(** * Continuous evaluation: the schedule of every name *)

Definition set_cadence (now : timestamp) (ctx : RequestContext) (interval_seconds top_k : Z) (x : continuous_eval_policy) : continuous_eval_policy :=
  x <| ep_interval_seconds := interval_seconds |> <| ep_top_k := top_k |> <| ep_updated_by := Some (principal_uuid (principal ctx)) |>
    <| ep_updated_at := now |> <| ep_next_run_at := Z.min (ep_next_run_at x) (now + seconds interval_seconds) |>.

Definition update_policy `{AuditEnv} (now : timestamp) (ctx : RequestContext) (n : string) (interval_seconds top_k : Z)
    : M db (option continuous_eval_policy) :=
  tenant_session (
    found <- sql_select (visible (tenant_of ctx) (policy_of n)) ;;
    guard (is_none (hd_error found) || policy_ok interval_seconds top_k) (IntegrityError "continuous_eval_bounded") ;;
    updated <- sql_update (visible (tenant_of ctx) (policy_of n)) (set_cadence now ctx interval_seconds top_k) ;;
    row <- one_or_none updated ;;
    match row with
    | None => ret None
    | Some x =>
        audit_in_session now (tenant_of ctx) ctx "eval.continuous.policy.updated" SUCCEEDED "eval_dataset" n
          (JObj [("interval_seconds", JInt interval_seconds); ("top_k", JInt top_k)]) ;;
        ret (Some x)
    end).

(** The route: the bounds of the request, and 404 for a name that has no schedule. *)
Definition configure_continuous_policy `{AuditEnv} (now : timestamp) (ctx : RequestContext) (n : string) (interval_seconds top_k : Z)
    : M db continuous_eval_policy :=
  guard (policy_ok interval_seconds top_k) (HTTPException 422) ;;
  policy <- update_policy now ctx n interval_seconds top_k ;;
  match policy with None => raise (HTTPException 404) | Some x => ret x end.

Definition list_policies (ctx : RequestContext) : M db (list continuous_eval_policy) :=
  tenant_session (
    found <- sql_select (visible (tenant_of ctx) (fun _ => true)) ;;
    ret (order_by (fun x y => String.leb (ep_dataset_name x) (ep_dataset_name y)) found)).

(** [platform_schedule_due_continuous_evals]. *)
Definition due (now : timestamp) (x : continuous_eval_policy) : bool := ep_next_run_at x <=? now.

(** [ORDER BY next_run_at, tenant_id, dataset_name]. *)
Definition due_before (x y : continuous_eval_policy) : bool :=
  if ep_next_run_at x =? ep_next_run_at y then
    if (ep_tenant x =? ep_tenant y)%N then String.leb (ep_dataset_name x) (ep_dataset_name y) else (ep_tenant x <=? ep_tenant y)%N
  else ep_next_run_at x <=? ep_next_run_at y.

(** [extract(epoch from at)::bigint] rounds to the nearest second. *)
Definition epoch (at_ : timestamp) : Z := (at_ + 500000) / 1000000.

Definition schedule_key (x : continuous_eval_policy) : string :=
  "continuous-eval:" +:+ uuid_str (ep_id x) +:+ ":" +:+ pretty (epoch (ep_next_run_at x)).

Definition eval_input (x : continuous_eval_policy) (sha : string) : json :=
  JObj [("dataset", JStr (ep_dataset_name x)); ("content_sha256", JStr sha); ("top_k", JInt (ep_top_k x)); ("continuous", JBool true)].

Definition scheduled_run (now : timestamp) (fresh : uuid) (release : string) (x : continuous_eval_policy) (sha : string) : run :=
  mkRun fresh (ep_tenant x) "eval" pending (Some (schedule_key x)) (coalesce_opt (ep_updated_by x) (ep_created_by x))
    (eval_input x sha) None None None None 0 3 now None None None (-1) (Some release) None now None None None.

Definition scheduled_outbox (now : timestamp) (serial : Z) (x : continuous_eval_policy) (r : uuid) (sha : string) : outbox :=
  mkOutbox serial (ep_tenant x) r "eval" (eval_input x sha) (Some (JObj [])) now None 0 None.

Definition same_policy (x y : continuous_eval_policy) : bool := (ep_id y =? ep_id x)%N.

Definition back_off (now : timestamp) (y : continuous_eval_policy) : continuous_eval_policy :=
  y <| ep_next_run_at := now + seconds (ep_interval_seconds y) |> <| ep_updated_at := now |>.

Definition scheduled (now : timestamp) (r : option uuid) (y : continuous_eval_policy) : continuous_eval_policy :=
  back_off now (y <| ep_last_run := r |> <| ep_last_scheduled_at := Some now |>).

Definition dataset_of (x : continuous_eval_policy) (y : eval_dataset) : bool := (ed_tenant y =? ep_tenant x)%N && of_name (ep_dataset_name x) y.

Definition run_keyed (t : uuid) (k : string) (r : run) : bool := (r_tenant r =? t)%N && eqb_opt String.eqb (r_key r) k.

(** The body of the loop; [fresh] draws the ids of the run and of the outbox row of a
    policy. *)
Definition schedule_policy (now : timestamp) (fresh : uuid → uuid * Z) (release : string) (x : continuous_eval_policy) : M db Z :=
  versions <- sql_select (dataset_of x) ;;
  match firstn 1 (order_by newest versions) with
  | [] => sql_update (same_policy x) (back_off now) ;; ret 0
  | y :: _ =>
      existing <- sql_select (run_keyed (ep_tenant x) (schedule_key x)) ;;
      match existing with
      | [] =>
          sql_insert (scheduled_run now (fresh (ep_id x)).1 release x (ed_sha y)) ;;
          sql_insert (scheduled_outbox now (fresh (ep_id x)).2 x (fresh (ep_id x)).1 (ed_sha y)) ;;
          sql_update (same_policy x) (scheduled now (Some (fresh (ep_id x)).1)) ;;
          ret 1
      | r :: _ => sql_update (same_policy x) (scheduled now (Some (r_id r))) ;; ret 0
      end
  end.

Fixpoint schedule_all (now : timestamp) (fresh : uuid → uuid * Z) (release : string) (l : list continuous_eval_policy) : M db Z :=
  match l with
  | [] => ret 0
  | x :: l' => k <- schedule_policy now fresh release x ;; rest <- schedule_all now fresh release l' ;; ret (k + rest)
  end.

Definition schedule_due (now : timestamp) (fresh : uuid → uuid * Z) (release : string) (limit : Z) : M db Z :=
  relay_session (
    guard ((1 <=? str_len release) && (str_len release <=? 64)) (OtherError "RaiseException") ;;
    found <- sql_select (due now) ;;
    schedule_all now fresh release (firstn (Z.to_nat (Z.min (Z.max limit 1) 500)) (order_by due_before found))).

(** [platform_continuous_eval_health]. *)
Record eval_health := mkEvalHealth {
  eh_dataset_names : Z;
  eh_missing_policies : Z;
  eh_overdue_policies : Z;
  eh_ok : bool
}.

Definition named_sets (d : db) : list (uuid * string) := remove_dups (map (fun x => (ed_tenant x, ed_name x)) (datasets d)).

Definition scheduled_name (d : db) (k : uuid * string) : bool :=
  existsb (fun x => (ep_tenant x =? k.1)%N && policy_of k.2 x) (policies d).

Definition overdue (now : timestamp) (x : continuous_eval_policy) : bool := ep_next_run_at x <? now - seconds (ep_interval_seconds x).

Definition health (now : timestamp) (d : db) : eval_health :=
  let names := count (named_sets d) in
  let missing := count (List.filter (fun k => negb (scheduled_name d k)) (named_sets d)) in
  let late := count (List.filter (overdue now) (policies d)) in
  mkEvalHealth names missing late ((missing =? 0) && (late =? 0)).

(** * Histories *)

Inductive set_action :=
| PutSet (fresh : uuid * uuid) (ctx : RequestContext) (n c : string) (items : raws)
| Review (fresh : uuid * uuid) (ctx : RequestContext) (n i : string) (p : ItemReview)
| Mine (fresh : uuid * uuid) (ctx : RequestContext) (n c : string) (gap_ids : list uuid)
| Drafted (ctx : RequestContext) (n : string) (ids : list string) (model : string)
| Configure (ctx : RequestContext) (n : string) (interval_seconds top_k : Z)
| Schedule (fresh : uuid → uuid * Z) (release : string) (limit : Z).

Section histories.
Context `{AuditEnv}.
Variables (str_of : json → string) (st : eval_settings).

Definition exec (now : timestamp) (a : set_action) (d : db) : db :=
  match a with
  | PutSet fresh ctx n c items => (put_dataset str_of st now fresh ctx n c items d).2
  | Review fresh ctx n i p => (review_item str_of st now fresh ctx n i p d).2
  | Mine fresh ctx n c ids => (mine_gaps str_of st now fresh ctx n c ids d).2
  | Drafted ctx n ids model => (record_drafted now ctx n ids model d).2
  | Configure ctx n s k => (configure_continuous_policy now ctx n s k d).2
  | Schedule fresh release limit => (schedule_due now fresh release limit d).2
  end.

Fixpoint exec_all (h : list (timestamp * set_action)) (d : db) : db :=
  match h with [] => d | (now, a) :: h' => exec_all h' (exec now a d) end.
End histories.

(** * Lemmas: items *)

Lemma all_some_map {A B} (f : A → B) (g : B → option A) l : (∀ a, g (f a) = Some a) → all_some (map g (map f l)) = Some l.
Proof. intros H. induction l as [|a l IH]; [done|]. cbn. by rewrite H, IH. Qed.

Lemma item_roundtrip x : item_of_json (item_json x) = Some x.
Proof. destruct x. cbn. by rewrite all_some_map. Qed.

Lemma items_roundtrip l : items_of_json (JArr (map item_json l)) = Some l.
Proof. apply all_some_map, item_roundtrip. Qed.

(** What [build_dataset] lets through. *)
Definition well_formed (l : list EvalItem) : Prop :=
  l ≠ [] ∧ List.NoDup (map it_id l) ∧ Forall (fun x => it_id x ≠ "" ∧ it_question x ≠ "" ∧ forallb CANONICAL_ID (it_must_cite x) = true) l.

Lemma build_items_spec str_of raws : ∀ seen l, build_items str_of seen raws = Ok l →
  length l = length raws ∧ List.NoDup (map it_id l) ∧ (∀ i, In i seen → ¬ In i (map it_id l)) ∧
  Forall (fun x => it_id x ≠ "" ∧ it_question x ≠ "" ∧ forallb CANONICAL_ID (it_must_cite x) = true) l.
Proof.
  induction raws as [|raw raws IH]; intros seen l E; cbn [build_items] in E.
  { injection E as <-. split; [done|split; [constructor|split; [by intros i _ []|constructor]]]. }
  destruct (String.eqb_spec (stripped str_of "id" raw) "") as [|Hi]; [done|].
  destruct (mem seen (stripped str_of "id" raw)) eqn:Em; [done|].
  destruct (String.eqb_spec (stripped str_of "question" raw) "") as [|Hq]; [done|].
  destruct (citations_of str_of raw) as [must|]; [|done]. destruct (forallb CANONICAL_ID must) eqn:Ec; [|done]. cbn [negb] in E.
  destruct (build_items str_of (seen ++ [stripped str_of "id" raw]) raws) as [built|] eqn:E'; [|done]. injection E as <-.
  destruct (IH _ _ E') as (H1 & H2 & H3 & H4). cbn [length map it_id it_question it_must_cite]. split; [by rewrite H1|]. split.
  { constructor; [|done]. apply H3, in_app_iff. right. by left. }
  split; [|constructor; [done|done]]. intros i Hin [<-|Hr].
  - apply mem_spec in Hin. congruence.
  - apply (H3 i); [|done]. apply in_app_iff. by left.
Qed.

Lemma build_dataset_spec str_of raws l : build_dataset str_of raws = Ok l → well_formed l.
Proof.
  unfold build_dataset. destruct raws as [|raw raws]; [done|]. intros E. apply build_items_spec in E as (H1 & H2 & _ & H3).
  split; [|done]. by intros ->.
Qed.

(** * Lemmas: the hash of a version *)

Lemma wf_item x : wf_json (item_json x) = true.
Proof. cbn. induction (it_must_cite x) as [|c l IH]; [done|]. cbn in *. done. Qed.

Lemma map_inj {A B} (f : A → B) l l' : (∀ a b, f a = f b → a = b) → map f l = map f l' → l = l'.
Proof. intros H. revert l'. induction l as [|a l IH]; intros [|b l'] E; try done. injection E as E1 E2. f_equal; [by apply H|by apply IH]. Qed.

Lemma canonical_item x : canonical (item_json x) =
  JObj [("expected_answer", JStr (it_expected_answer x)); ("id", JStr (it_id x));
        ("must_cite", JArr (map canonical (map JStr (it_must_cite x)))); ("question", JStr (it_question x))].
Proof. by destruct x. Qed.

Lemma canonical_item_inj x y : canonical (item_json x) = canonical (item_json y) → x = y.
Proof.
  rewrite !canonical_item. destruct x as [i q a m], y as [i' q' a' m']. cbn [it_id it_question it_expected_answer it_must_cite].
  intros [= -> -> E ->]. f_equal. rewrite !map_map in E. revert E. apply map_inj. by intros u v [= ->].
Qed.

Lemma item_id_le_total x y : id_le x y = true ∨ id_le y x = true.
Proof. apply String.leb_total. Qed.

Lemma id_le_trans x y z : id_le x y = true → id_le y z = true → id_le x z = true.
Proof. apply leb_trans. Qed.

(** A set of items has one text, whatever the order they are listed in. *)
Lemma order_items_unique l l' : Permutation l l' → List.NoDup (map it_id l) → order_by id_le l = order_by id_le l'.
Proof.
  intros Hp Hn. apply (sorted_by_key_unique it_id id_le).
  - intros x y. apply String.leb_antisym.
  - apply order_by_sorted; [apply item_id_le_total|apply id_le_trans].
  - apply order_by_sorted; [apply item_id_le_total|apply id_le_trans].
  - by rewrite !order_by_perm.
  - apply (Permutation_NoDup (l := map it_id l)); [apply Permutation_map, Permutation_sym, order_by_perm|done].
Qed.

Lemma version_text_spec l l' : List.NoDup (map it_id l) → version_text l = version_text l' ↔ Permutation l l'.
Proof.
  intros Hn. split.
  - intros E. apply utf8_inj, dumps_inj in E; [|apply wf_canonical; cbn; apply forallb_forall; intros v Hv..].
    + cbn in E. injection E as E. rewrite !map_map in E. apply map_inj in E; [|apply canonical_item_inj].
      by rewrite <- (order_by_perm id_le l), E, order_by_perm.
    + apply in_map_iff in Hv as (x & <- & _). apply wf_item.
    + apply in_map_iff in Hv as (x & <- & _). apply wf_item.
  - intros Hp. unfold version_text. by rewrite (order_items_unique l l').
Qed.

(** * The invariant of the golden sets *)

Definition version_key (x : eval_dataset) : uuid * string * string := (ed_tenant x, ed_name x, ed_sha x).

Definition policy_key (x : continuous_eval_policy) : uuid * string := (ep_tenant x, ep_dataset_name x).

Section invariant.
Context `{AuditEnv}.

Definition version_ok (x : eval_dataset) : Prop := ∃ l, ed_items x = JArr (map item_json l) ∧ well_formed l ∧ ed_sha x = content_sha l.

Definition has_policy (d : db) (k : uuid * string) : Prop := ∃ p, In p (policies d) ∧ policy_key p = k.

(** Versions are distinct, valid and named by their content; every name has a schedule
    within its bounds. *)
Record sets_wf (d : db) : Prop := {
  sw_keys : List.NoDup (map version_key (datasets d));
  sw_versions : Forall version_ok (datasets d);
  sw_policy_ids : List.NoDup (map ep_id (policies d));
  sw_policy_keys : List.NoDup (map policy_key (policies d));
  sw_cadence : Forall (fun p => policy_ok (ep_interval_seconds p) (ep_top_k p) = true) (policies d);
  sw_scheduled : Forall (fun x => has_policy d (ed_tenant x, ed_name x)) (datasets d)
}.

(** The versions of [d] are versions of [d'], with the same items. *)
Definition kept (d d' : db) : Prop :=
  ∀ x, In x (datasets d) → ∃ x', In x' (datasets d') ∧ ed_id x' = ed_id x ∧ version_key x' = version_key x ∧ ed_items x' = ed_items x.

#[export] Instance kept_refl : Reflexive kept.
Proof. intros d x Hx. by exists x. Qed.

#[export] Instance kept_trans : Transitive kept.
Proof.
  intros d1 d2 d3 H1 H2 x Hx. destruct (H1 x Hx) as (y & Hy & E1 & E2 & E3). destruct (H2 y Hy) as (z & Hz & F1 & F2 & F3).
  exists z. split; [done|]. by rewrite F1, F2, F3.
Qed.

Definition sound (d0 d : db) : Prop := sets_wf d ∧ kept d0 d.

Lemma kept_same d d' : datasets d' = datasets d → kept d d'.
Proof. intros E x Hx. exists x. by rewrite E. Qed.

Lemma sets_wf_same d d' : datasets d' = datasets d → policies d' = policies d → sets_wf d → sets_wf d'.
Proof.
  intros E1 E2 [H1 H2 H3 H4 H5 H6]. constructor; rewrite ?E1, ?E2; try done.
  unfold has_policy in *. by rewrite E2.
Qed.

Lemma sound_same d0 d d' : datasets d' = datasets d → policies d' = policies d → sound d0 d → sound d0 d'.
Proof. intros E1 E2 [W K]. split; [by apply (sets_wf_same d)|]. transitivity d; [done|by apply kept_same]. Qed.

Lemma of_version_spec t n sha x : visible t (of_version n sha) x = true ↔ version_key x = (t, n, sha).
Proof.
  unfold visible, of_version, of_name, version_key, row_tenant, tenant_datasets. rewrite !andb_true_iff, N.eqb_eq, !String.eqb_eq.
  split; [by intros (-> & -> & ->)|]. by intros [= -> -> ->].
Qed.

Lemma policy_of_spec t n x : visible t (policy_of n) x = true ↔ policy_key x = (t, n).
Proof.
  unfold visible, policy_of, policy_key, row_tenant, tenant_policies. rewrite andb_true_iff, N.eqb_eq, String.eqb_eq.
  split; [by intros (-> & ->)|]. by intros [= -> ->].
Qed.

Lemma update_none {A} (p : A → bool) (f : A → A) l : map f (select_where p l) = [] → (∀ x, In x l → p x = false) ∧ update_where p f l = l.
Proof.
  intros E. apply map_eq_nil in E. assert (Hn : ∀ x, In x l → p x = false).
  { exact (proj1 (select_where_nil p l) E). }
  split; [done|by apply update_where_id].
Qed.

Lemma update_some {A} (p : A → bool) (f : A → A) l y r : map f (select_where p l) = y :: r → ∃ x, In x l ∧ p x = true ∧ y = f x.
Proof.
  intros E. assert (Hy : In y (map f (select_where p l))) by (rewrite E; by left).
  apply in_map_iff in Hy as (x & <- & Hx). apply filter_In in Hx as [Hx Hp]. by exists x.
Qed.

(** Storing a version: the row it is stored in, and what else it leaves alone. *)
Lemma upsert_version_run now fresh ctx n c sha l d i d' : upsert_version now fresh ctx n c sha l d = (Ok i, d') →
  policies d' = policies d ∧ item_labels d' = item_labels d ∧
  ((∃ x, In x (datasets d) ∧ version_key x = (tenant_of ctx, n, sha) ∧ i = ed_id x ∧
      datasets d' = update_where (visible (tenant_of ctx) (of_version n sha)) (set_collection c) (datasets d)) ∨
   (∀ x, In x (datasets d) → version_key x ≠ (tenant_of ctx, n, sha)) ∧ i = fresh ∧
   datasets d' = datasets d ++ [mkEvalDataset fresh (tenant_of ctx) n c sha (JArr (map item_json l)) (count l) (Some (principal_uuid (principal ctx))) now]).
Proof.
  unfold upsert_version. intros E. apply bind_ok in E as (u & d1 & E1 & E). unfold guard in E1. destruct (_ && _) in E1; [|done]. injection E1 as _ <-.
  unfold bind at 1, sql_update at 1 in E. destruct (map _ _) as [|y r] eqn:Em.
  - apply update_none in Em as [Hn Hu]. cbn [rows table_datasets put] in E, Hu. rewrite Hu in E.
    apply bind_ok in E as (d1 & d2 & E1 & E). injection E1 as <- <-. apply bind_ok in E as (u' & d2 & E1 & E). unfold guard in E1.
    destruct (negb _) in E1; [|done]. injection E1 as _ <-. apply bind_ok in E as (u'' & d2 & E1 & E). injection E1 as _ <-. injection E as <- <-.
    split; [done|split; [done|right]]. split; [|done]. intros x Hx Hk. apply of_version_spec in Hk. by rewrite (Hn x Hx) in Hk.
  - injection E as <- <-. apply update_some in Em as (x & Hx & Hp & ->). split; [done|split; [done|left]].
    exists x. split; [done|]. split; [by apply of_version_spec|]. done.
Qed.

Lemma upsert_policy_run st now fresh ctx n d d' : upsert_policy st now fresh ctx n d = (Ok tt, d') →
  datasets d' = datasets d ∧ item_labels d' = item_labels d ∧ policy_ok (continuous_eval_interval_seconds st) (continuous_eval_default_top_k st) = true ∧
  ((∃ x, In x (policies d) ∧ policy_key x = (tenant_of ctx, n)) ∧
     policies d' = update_where (visible (tenant_of ctx) (policy_of n)) (touch_policy now ctx) (policies d) ∨
   (∀ x, In x (policies d) → policy_key x ≠ (tenant_of ctx, n)) ∧ (∀ x, In x (policies d) → ep_id x ≠ fresh) ∧
   ∃ x, policies d' = policies d ++ [x] ∧ ep_id x = fresh ∧ policy_key x = (tenant_of ctx, n) ∧
     ep_interval_seconds x = continuous_eval_interval_seconds st ∧ ep_top_k x = continuous_eval_default_top_k st ∧ ep_next_run_at x = now).
Proof.
  unfold upsert_policy. intros E. apply bind_ok in E as (u & d1 & E1 & E). unfold guard in E1. destruct (policy_ok _ _); [|done]. injection E1 as _ <-.
  unfold bind at 1, sql_update at 1 in E. destruct (map _ _) as [|y r] eqn:Em.
  - apply update_none in Em as [Hn Hu]. cbn [rows table_policies put] in E, Hu. rewrite Hu in E.
    apply bind_ok in E as (d1 & d2 & E1 & E). injection E1 as <- <-. apply bind_ok in E as (u' & d2 & E1 & E). unfold guard in E1.
    destruct (negb _) eqn:Ef in E1; [|done]. injection E1 as _ <-. injection E as <-.
    split; [done|split; [done|split; [done|right]]]. split; [|split].
    + intros x Hx Hk. apply policy_of_spec in Hk. by rewrite (Hn x Hx) in Hk.
    + intros x Hx Hi. apply negb_true_iff, not_true_iff_false in Ef. apply Ef, existsb_exists. exists x. split; [done|by apply N.eqb_eq].
    + by eexists.
  - injection E as <-. apply update_some in Em as (x & Hx & Hp & ->). split; [done|split; [done|split; [done|left]]].
    split; [|done]. exists x. split; [done|by apply policy_of_spec].
Qed.

(** Appending a row with a new key. *)
Lemma NoDup_map_snoc {A K} (k : A → K) l x : List.NoDup (map k l) → (∀ y, In y l → k y ≠ k x) → List.NoDup (map k (l ++ [x])).
Proof.
  intros Hn Hx. rewrite map_app. apply NoDup_snoc; [done|]. intros (y & E & Hy)%in_map_iff. by apply (Hx y Hy).
Qed.

Lemma upsert_version_sound now fresh ctx n c l d i d' : upsert_version now fresh ctx n c (content_sha l) l d = (Ok i, d') →
  well_formed l → List.NoDup (map version_key (datasets d)) → Forall version_ok (datasets d) →
  kept d d' ∧ List.NoDup (map version_key (datasets d')) ∧ Forall version_ok (datasets d') ∧
  (∃ x, In x (datasets d') ∧ version_key x = (tenant_of ctx, n, content_sha l) ∧ ed_id x = i ∧ ed_collection x = c) ∧
  ∀ y, In y (datasets d') → (ed_tenant y, ed_name y) = (tenant_of ctx, n) ∨ ∃ x, In x (datasets d) ∧ (ed_tenant y, ed_name y) = (ed_tenant x, ed_name x).
Proof.
  intros E Hl W1 W2. apply upsert_version_run in E as (_ & _ & D). unfold kept. destruct D as [(x & Hx & Hk & -> & ->)|(Hn & -> & ->)].
  - split; [|split; [|split; [|split]]].
    + intros y Hy. exists (if visible (tenant_of ctx) (of_version n (content_sha l)) y then set_collection c y else y).
      split; [apply in_update_where; by exists y|]. by destruct (visible _ _ y).
    + by rewrite map_update_where.
    + apply Forall_update_where; [|done]. intros y (l' & Hy) _. by exists l'.
    + exists (set_collection c x). split; [|done]. apply in_update_where. exists x. split; [done|]. by rewrite (proj2 (of_version_spec _ _ _ _) Hk).
    + intros y Hy. apply in_update_where in Hy as (z & Hz & ->). right. exists z. split; [done|]. by destruct (visible _ _ z).
  - split; [|split; [|split; [|split]]].
    + intros y Hy. exists y. split; [apply in_app_iff; by left|done].
    + by apply NoDup_map_snoc.
    + apply List.Forall_app. split; [done|]. repeat constructor. by exists l.
    + eexists. split; [apply in_app_iff; right; by left|done].
    + intros y [Hy|[<-|[]]]%in_app_iff; [right; by exists y|by left].
Qed.

Lemma upsert_policy_sound st now fresh ctx n d d' : upsert_policy st now fresh ctx n d = (Ok tt, d') →
  List.NoDup (map ep_id (policies d)) → List.NoDup (map policy_key (policies d)) →
  Forall (fun p => policy_ok (ep_interval_seconds p) (ep_top_k p) = true) (policies d) →
  List.NoDup (map ep_id (policies d')) ∧ List.NoDup (map policy_key (policies d')) ∧
  Forall (fun p => policy_ok (ep_interval_seconds p) (ep_top_k p) = true) (policies d') ∧
  has_policy d' (tenant_of ctx, n) ∧ ∀ k, has_policy d k → has_policy d' k.
Proof.
  intros E W1 W2 W3. apply upsert_policy_run in E as (_ & _ & Hok & P). unfold has_policy.
  destruct P as [[(x & Hx & Hk) ->]|(Hn & Hi & x & -> & <- & Hk & Hs & Hk' & _)].
  - assert (Hg : ∀ k, (∃ p, In p (policies d) ∧ policy_key p = k) →
        ∃ p, In p (update_where (visible (tenant_of ctx) (policy_of n)) (touch_policy now ctx) (policies d)) ∧ policy_key p = k).
    { intros k (p & Hp & <-). exists (if visible (tenant_of ctx) (policy_of n) p then touch_policy now ctx p else p).
      split; [apply in_update_where; by exists p|]. by destruct (visible _ _ p). }
    split; [by rewrite map_update_where|]. split; [by rewrite map_update_where|]. split; [by apply Forall_update_where|].
    split; [apply Hg; by exists x|done].
  - split; [by apply NoDup_map_snoc|]. split; [apply NoDup_map_snoc; [done|by rewrite Hk]|].
    split; [apply List.Forall_app; split; [done|]; repeat constructor; by rewrite Hs, Hk'|].
    split; [exists x; split; [apply in_app_iff; right; by left|done]|].
    intros k (p & Hp & Hpk). exists p. split; [apply in_app_iff; by left|done].
Qed.

Lemma save_run str_of st now fresh ctx n c raws d r d' : save str_of st now fresh ctx n c raws d = (r, d') → sets_wf d →
  item_labels d' = item_labels d ∧ sound d d' ∧
  ∀ ds, r = Ok ds → well_formed (ds_items ds) ∧ ds_name ds = n ∧ ds_collection ds = c ∧ ds_sha ds = content_sha (ds_items ds) ∧
    ∃ x, In x (datasets d') ∧ version_key x = (tenant_of ctx, n, ds_sha ds) ∧ ed_id x = ds_id ds ∧ ed_collection x = c.
Proof.
  unfold save. intros E W. destruct (build_dataset str_of raws) as [l|e] eqn:Eb; [|by injection E as <- <-].
  apply build_dataset_spec in Eb.
  apply bind_cases in E as [(e & Et & ->)|(i & d1 & Et & E)]; [by apply tx_raise in Et as ->|injection E as <- <-].
  apply (proj1 (tx_ok _ _ _ _)) in Et. apply bind_ok in Et as (i' & d2 & E1 & Et). apply bind_ok in Et as ([] & d3 & E2 & Et).
  apply bind_ok in Et as (h & d4 & E3 & Et). injection Et as -> ->. apply audit_in_session_only_audit in E3.
  pose proof (only_audit_keeps datasets _ _ E3 ltac:(done)) as Ed. pose proof (only_audit_keeps policies _ _ E3 ltac:(done)) as Ep.
  pose proof (only_audit_keeps item_labels _ _ E3 ltac:(done)) as El.
  pose proof (upsert_version_run _ _ _ _ _ _ _ _ _ _ E1) as (P1 & L1 & _). pose proof (upsert_policy_run _ _ _ _ _ _ _ E2) as (D2 & L2 & _).
  destruct W as [W1 W2 W3 W4 W5 W6]. apply upsert_version_sound in E1 as (K & V1 & V2 & V3 & V4); [|done..].
  rewrite <- P1 in W3, W4, W5. apply upsert_policy_sound in E2 as (Q1 & Q2 & Q3 & Q4 & Q5); [|done..]. unfold has_policy in Q4, Q5.
  rewrite D2 in Ed. rewrite <- Ed in V1, V2, V3, V4. rewrite <- Ep in Q1, Q2, Q3, Q4, Q5. split; [by rewrite El, L2|]. split.
  - split; [|transitivity d2; [done|by apply kept_same]]. constructor; try done. rewrite List.Forall_forall in *. intros y Hy.
    destruct (V4 y Hy) as [->|(x & Hx & ->)]; [done|]. apply Q5. rewrite P1. by apply W6.
  - intros ds [= <-]. exact (conj Eb (conj eq_refl (conj eq_refl (conj eq_refl V3)))).
Qed.

End invariant.

(** * What every request keeps *)

(** A new cadence or a new due time; the name, the owner and the bounds stay. *)
Definition benign (now : timestamp) (f : continuous_eval_policy → continuous_eval_policy) : Prop :=
  ∀ y, ep_id (f y) = ep_id y ∧ policy_key (f y) = policy_key y ∧
    (policy_ok (ep_interval_seconds y) (ep_top_k y) = true → policy_ok (ep_interval_seconds (f y)) (ep_top_k (f y)) = true) ∧
    ep_next_run_at (f y) <= now + seconds (ep_interval_seconds (f y)).

Lemma back_off_benign now : benign now (back_off now).
Proof. intros y. split; [done|split; [done|split; [done|]]]. cbn. lia. Qed.

Lemma scheduled_benign now r : benign now (scheduled now r).
Proof. intros y. split; [done|split; [done|split; [done|]]]. cbn. lia. Qed.

Lemma set_cadence_benign now ctx s k : policy_ok s k = true → benign now (set_cadence now ctx s k).
Proof. intros Hok y. split; [done|split; [done|split; [done|]]]. cbn. lia. Qed.

Lemma load_dataset_same ctx n sha d : (load ctx n sha d).2 = d.
Proof.
  unfold load. unfold bind at 1, tenant_session, tx. destruct (truthy sha); unfold bind at 1, sql_select, gets;
    (destruct (one_or_none _ d) as [[[x|]|e] d'] eqn:E; apply one_or_none_same in E as ->; try done;
     unfold bind, to_dataset; by destruct (items_of_json _)).
Qed.

Lemma backlog_same ctx c seeded limit d : (backlog ctx c seeded limit d).2 = d.
Proof. unfold backlog, bind, guard. by destruct (0 <=? limit). Qed.

Section requests.
Context `{AuditEnv}.
Variables (str_of : json → string) (st : eval_settings) (I : db → Prop) (ok : timestamp → Prop).
Hypothesis I_other : ∀ d d', datasets d' = datasets d → policies d' = policies d → item_labels d' = item_labels d → I d → I d'.
Hypothesis I_save : ∀ now fresh ctx n c raws, ok now → preserves I (save str_of st now fresh ctx n c raws).
Hypothesis I_policies : ∀ now p f d, ok now → benign now f → I d → I (d <| policies := update_where p f (policies d) |>).
Hypothesis I_drafted : ∀ now ctx n ids model, ok now → preserves I (record_drafted now ctx n ids model).
Hypothesis I_origin : ∀ now ctx n ids origin, ok now → preserves I (set_origin now ctx n ids origin).
Hypothesis I_label : ∀ now ctx n i v, ok now → preserves I (set_label now ctx n i v).

Lemma elsewhere {A} (m : M db A) :
  (∀ d, datasets (m d).2 = datasets d ∧ policies (m d).2 = policies d ∧ item_labels (m d).2 = item_labels d) → preserves I m.
Proof using I_other. intros Hm d W. destruct (Hm d) as (E1 & E2 & E3). by apply (I_other d). Qed.

Lemma same_state_keeps {A} (m : M db A) : (∀ d, (m d).2 = d) → preserves I m.
Proof using I_other. intros Hm. apply elsewhere. intros d. by rewrite Hm. Qed.

Lemma audit_elsewhere {A} (m : M db A) : (∀ d, only_audit d (m d).2) → preserves I m.
Proof using I_other. intros Hm. apply elsewhere. intros d. split; [|split]; by apply (only_audit_keeps _ _ _ (Hm d)). Qed.

Lemma or_400_keeps {A} (m : M db A) : preserves I m → preserves I (or_400 m).
Proof using.
  intros Hm. apply preserves_try_except; [done|]. intros e k Hk. destruct e; try done. destruct (String.eqb _ _); [|done].
  injection Hk as <-. apply preserves_raise.
Qed.

Lemma mark_seeded_keeps now ctx ids n : preserves I (mark_seeded now ctx ids n).
Proof using I_other.
  unfold mark_seeded. destruct ids; [apply preserves_ret|]. apply preserves_tx. apply preserves_bind; [by apply same_state_keeps|]. intros x.
  apply preserves_bind; [apply preserves_guard|]. intros _. apply preserves_bind; [by apply elsewhere|auto with platform].
Qed.

Lemma put_dataset_keeps now fresh ctx n c items : ok now → preserves I (put_dataset str_of st now fresh ctx n c items).
Proof using I_save. intros Hok. apply preserves_bind; [apply preserves_guard|]. intros _. by apply or_400_keeps, I_save. Qed.

Lemma review_item_keeps now fresh ctx n i p : ok now → preserves I (review_item str_of st now fresh ctx n i p).
Proof using I_other I_save I_label.
  intros Hok. apply preserves_bind; [apply preserves_guard|]. intros _. apply preserves_bind; [apply same_state_keeps; apply load_dataset_same|]. intros [ds|]; [|apply preserves_raise].
  apply preserves_bind; [apply preserves_guard|]. intros _. apply preserves_bind.
  - destruct (ir_expected_answer p); [|apply preserves_ret]. apply preserves_bind; [by apply or_400_keeps, I_save|auto with platform].
  - intros saved. apply preserves_bind; [by apply I_label|auto with platform].
Qed.

Lemma mine_gaps_keeps now fresh ctx n c ids : ok now → preserves I (mine_gaps str_of st now fresh ctx n c ids).
Proof using I_other I_save I_origin.
  intros Hok. apply preserves_bind; [apply preserves_guard|]. intros _. apply preserves_bind; [apply same_state_keeps; apply load_dataset_same|]. intros existing.
  apply preserves_bind; [apply same_state_keeps; apply backlog_same|]. intros open_. apply preserves_bind; [apply preserves_guard|]. intros _.
  cbv zeta. match goal with |- context [added_gaps ?a ?b] => destruct (added_gaps a b) end; [apply preserves_ret|].
  apply preserves_bind; [by apply or_400_keeps, I_save|]. intros ds. apply preserves_bind; [by apply I_origin|]. intros _.
  apply preserves_bind; [apply mark_seeded_keeps|]. intros _. apply preserves_bind; [|intros _; apply preserves_ret].
  apply audit_elsewhere. intros d. destruct (audit_record _ _ _ _ _ _ _ _ d) as [r d'] eqn:E. by apply audit_record_only_audit in E.
Qed.

Lemma configure_keeps now ctx n s k : ok now → preserves I (configure_continuous_policy now ctx n s k).
Proof using I_other I_policies.
  intros Hnow d W. unfold configure_continuous_policy, bind at 1, guard. destruct (policy_ok s k) eqn:Hok; [|done]. cbn iota.
  revert d W. apply preserves_bind; [|intros [x|]; auto with platform]. apply preserves_tx.
  apply preserves_bind; [by apply same_state_keeps|]. intros found. apply preserves_bind; [apply preserves_guard|]. intros _.
  apply preserves_bind; [intros d W; apply (I_policies now); [done|by apply set_cadence_benign|done]|]. intros updated. apply preserves_bind; [apply preserves_one_or_none|].
  intros [x|]; [|apply preserves_ret]. apply preserves_bind; [|auto with platform]. apply audit_elsewhere. intros d.
  destruct (audit_in_session _ _ _ _ _ _ _ _ d) as [r d'] eqn:E. by apply audit_in_session_only_audit in E.
Qed.

Lemma schedule_all_keeps now fresh release l : ok now → preserves I (schedule_all now fresh release l).
Proof using I_other I_policies.
  intros Hok. induction l as [|x l IH]; [apply preserves_ret|]. cbn [schedule_all].
  apply preserves_bind; [|intros k; apply preserves_bind; [done|auto with platform]].
  apply preserves_bind; [by apply same_state_keeps|]. intros versions. destruct (firstn 1 _) as [|y r].
  - apply preserves_bind; [intros d W; apply (I_policies now); [done|apply back_off_benign|done]|auto with platform].
  - apply preserves_bind; [by apply same_state_keeps|]. intros [|z l'].
    + do 2 (apply preserves_bind; [by apply elsewhere|intros _]). apply preserves_bind; [intros d W; apply (I_policies now); [done|apply scheduled_benign|done]|auto with platform].
    + apply preserves_bind; [intros d W; apply (I_policies now); [done|apply scheduled_benign|done]|auto with platform].
Qed.

Lemma schedule_due_keeps now fresh release limit : ok now → preserves I (schedule_due now fresh release limit).
Proof using I_other I_policies.
  intros Hok. apply preserves_tx. apply preserves_bind; [apply preserves_guard|]. intros _. apply preserves_bind; [by apply same_state_keeps|].
  intros found. by apply schedule_all_keeps.
Qed.

Lemma exec_all_keeps h d : Forall (fun e : timestamp * set_action => ok e.1) h → I d → I (exec_all str_of st h d).
Proof using I_other I_save I_policies I_drafted I_origin I_label.
  intros Hh. revert d. induction Hh as [|[now a] h Hok _ IH]; intros d W; [done|]. cbn [exec_all]. apply IH. destruct a; cbn [exec].
  - by apply put_dataset_keeps.
  - by apply review_item_keeps.
  - by apply mine_gaps_keeps.
  - by apply I_drafted.
  - by apply configure_keeps.
  - by apply schedule_due_keeps.
Qed.

End requests.

(** Labelling leaves the rest alone. *)
Section label_writes.
Variable I : db → Prop.
Hypothesis I_labels : ∀ l d, I d → I (d <| item_labels := l |>).

Lemma upsert_labels_free now ctx n only set_ ids : preserves I (upsert_labels now ctx n only set_ ids).
Proof using I_labels.
  induction ids as [|i ids IH]; [apply preserves_ret|]. cbn [upsert_labels]. apply preserves_bind; [by intros d|]. intros found.
  apply preserves_bind; [|intros k; apply preserves_bind; [done|auto with platform]].
  destruct found; (apply preserves_bind; [intros d W; by apply I_labels|auto with platform]).
Qed.

Lemma batch_free {A} n ids (m : M db A) : preserves I m → preserves I (batch_ok n ids ;; m).
Proof using. intros Hm. apply preserves_bind; [|done]. apply preserves_bind; [apply preserves_guard|intros _; apply preserves_guard]. Qed.

Lemma record_drafted_free now ctx n ids model : preserves I (record_drafted now ctx n ids model).
Proof using I_labels.
  destruct ids; [apply preserves_ret|]. apply preserves_tx, batch_free. apply preserves_bind; [apply preserves_guard|intros _; apply upsert_labels_free].
Qed.

Lemma set_origin_free now ctx n ids origin : preserves I (set_origin now ctx n ids origin).
Proof using I_labels.
  destruct ids; [apply preserves_ret|]. apply preserves_tx, batch_free. apply preserves_bind; [apply preserves_guard|intros _; apply upsert_labels_free].
Qed.

Lemma set_label_free now ctx n i v : preserves I (set_label now ctx n i v).
Proof using I_labels.
  apply preserves_tx. apply preserves_bind; [apply preserves_guard|]. intros _. apply preserves_bind; [by intros d|]. intros found.
  apply preserves_bind; [destruct found; [intros d W; by apply I_labels|apply preserves_ret]|]. intros _.
  apply preserves_bind; [intros d W; by apply I_labels|]. intros [|x [|y l]]; auto with platform.
Qed.
End label_writes.

(** * The versions *)

Section versions.
Context `{AuditEnv}.
Variables (str_of : json → string) (st : eval_settings) (d0 : db).

Lemma sets_wf_update now f p d : benign now f → sound d0 d → sound d0 (d <| policies := update_where p f (policies d) |>).
Proof using.
  intros F [W K]. split; [|transitivity d; [done|by apply kept_same]]. destruct W as [H1 H2 H3 H4 H5 H6]. constructor; cbn; try done.
  - rewrite map_update_where; [done|]. apply F.
  - rewrite map_update_where; [done|]. apply F.
  - apply Forall_update_where; [|done]. intros y Hy _. by apply F.
  - eapply Forall_impl; [exact H6|]. intros x (q & Hq & E). exists (if p q then f q else q).
    split; [apply in_update_where; by exists q|]. destruct (p q); [|done]. by rewrite (proj1 (proj2 (F q))).
Qed.

Lemma save_keeps now fresh ctx n c raws : preserves (sound d0) (save str_of st now fresh ctx n c raws).
Proof using.
  intros d W. destruct (save _ _ _ _ _ _ _ _ d) as [r d'] eqn:E. cbn. apply save_run in E as (_ & [W' K'] & _); [|apply W].
  split; [done|]. transitivity d; [apply W|done].
Qed.

Lemma exec_all_sound h d : sound d0 d → sound d0 (exec_all str_of st h d).
Proof using.
  assert (Hl : ∀ l d, sound d0 d → sound d0 (d <| item_labels := l |>)) by (intros l a; by apply sound_same).
  apply (exec_all_keeps _ _ _ (fun _ => True)); [| | | | | |by apply List.Forall_forall].
  - intros a b E1 E2 _. by apply sound_same.
  - intros. apply save_keeps.
  - intros now p f a _. apply sets_wf_update.
  - intros. by apply record_drafted_free.
  - intros. by apply set_origin_free.
  - intros. by apply set_label_free.
Qed.

End versions.

(** * The labels *)

Definition label_key (x : eval_item_label) : uuid * string * string := (il_tenant x, il_dataset_name x, il_item x).

(** A confirmation carries its confirmer and its time. *)
Definition attributed (x : eval_item_label) : Prop :=
  il_confirmed x = true → is_some (il_confirmed_by x) = true ∧ is_some (il_confirmed_at x) = true.

Record labels_wf (d : db) : Prop := {
  lw_keys : List.NoDup (map label_key (item_labels d));
  lw_attributed : Forall attributed (item_labels d)
}.

(** The items a human wrote in [d] are items a human wrote in [d']. *)
Definition attested (d d' : db) : Prop :=
  ∀ x, In x (item_labels d) → human_authored x = true → ∃ x', In x' (item_labels d') ∧ label_key x' = label_key x ∧ human_authored x' = true.

#[export] Instance attested_refl : Reflexive attested.
Proof. intros d x Hx. by exists x. Qed.

(** The source of an item's answer; an item nobody touched has none. *)
Definition source_of (t : uuid) (n i : string) (d : db) : answer_source :=
  match List.find (visible t (of_item n i)) (item_labels d) with Some x => il_answer_source x | None => as_empty end.

Lemma of_item_spec t n i x : visible t (of_item n i) x = true ↔ label_key x = (t, n, i).
Proof.
  unfold visible, of_item, label_key, row_tenant, tenant_item_labels. rewrite !andb_true_iff, N.eqb_eq, !String.eqb_eq.
  split; [by intros (-> & -> & ->)|]. by intros [= -> -> ->].
Qed.

Lemma apply_verdict_key now ctx v x : label_key (apply_verdict now ctx v x) = label_key x.
Proof. destruct v as [[] [] [] []], x; reflexivity. Qed.

Lemma apply_verdict_source now ctx v x :
  il_answer_source (apply_verdict now ctx v x) = if vd_answer_edited v then as_sme_edited else il_answer_source x.
Proof. destruct v as [[] [] [] []], x; reflexivity. Qed.

Lemma apply_verdict_attributed now ctx v x : attributed x → attributed (apply_verdict now ctx v x).
Proof. unfold attributed. destruct v as [[] [[]|] [] []], x; cbn; auto. Qed.

Lemma apply_verdict_human now ctx v x : human_authored x = true → human_authored (apply_verdict now ctx v x) = true.
Proof. unfold human_authored. rewrite apply_verdict_source. by destruct (vd_answer_edited v). Qed.

Section labels.
Context `{AuditEnv}.
Variables (str_of : json → string) (st : eval_settings) (d0 : db).

Definition labels_sound (d : db) : Prop := labels_wf d ∧ attested d0 d.

Lemma label_same d d' : item_labels d' = item_labels d → labels_sound d → labels_sound d'.
Proof using.
  intros E [[W1 W2] A]. split; [constructor; by rewrite E|]. intros x Hx Hh. destruct (A x Hx Hh) as (x' & Hx' & R). exists x'. by rewrite E.
Qed.

Lemma label_update p f d : (∀ y, label_key (f y) = label_key y) → (∀ y, attributed y → attributed (f y)) →
  (∀ y, p y = true → human_authored y = true → human_authored (f y) = true) →
  labels_sound d → labels_sound (d <| item_labels := update_where p f (item_labels d) |>).
Proof using.
  intros F1 F2 F3 [[W1 W2] A]. split; [constructor; cbn|].
  - by rewrite map_update_where.
  - apply Forall_update_where; [|done]. intros y Hy _. by apply F2.
  - intros x Hx Hh. destruct (A x Hx Hh) as (y & Hy & Hk & Hyh). exists (if p y then f y else y).
    split; [cbn; apply in_update_where; by exists y|]. destruct (p y) eqn:E; [|done]. split; [by rewrite F1|by apply F3].
Qed.

Lemma label_insert x d : (∀ y, In y (item_labels d) → label_key y ≠ label_key x) → attributed x →
  labels_sound d → labels_sound (d <| item_labels := item_labels d ++ [x] |>).
Proof using.
  intros Hk Hx [[W1 W2] A]. split; [constructor; cbn|].
  - by apply NoDup_map_snoc.
  - apply List.Forall_app. split; [done|]. constructor; [done|constructor].
  - intros y Hy Hh. destruct (A y Hy Hh) as (z & Hz & R). exists z. split; [cbn; apply in_app_iff; by left|done].
Qed.

Lemma fresh_label t n i now d : select_where (visible t (of_item n i)) (item_labels d) = [] →
  ∀ y, In y (item_labels d) → label_key y ≠ label_key (blank_label now t n i).
Proof using.
  intros E y Hy Hk. apply (of_item_spec t n i) in Hk. by rewrite (proj1 (select_where_nil _ _) E y Hy) in Hk.
Qed.

Lemma upsert_labels_attest now ctx n only set_ ids :
  (∀ y, label_key (set_ y) = label_key y) → (∀ y, attributed y → attributed (set_ y)) →
  (∀ y, only y = true → human_authored y = true → human_authored (set_ y) = true) →
  preserves labels_sound (upsert_labels now ctx n only set_ ids).
Proof using.
  intros F1 F2 F3. induction ids as [|i ids IH]; [apply preserves_ret|]. cbn [upsert_labels].
  intros d W. unfold bind at 1, sql_select at 1, gets at 1.
  destruct (select_where _ _) as [|x l] eqn:E; unfold bind at 2.
  - unfold bind at 1, sql_insert at 1, modify at 1. revert IH. generalize (upsert_labels now ctx n only set_ ids). intros m IH.
    apply (preserves_bind labels_sound m); [done|intros; apply preserves_ret|]. cbn [rows put table_item_labels].
    apply label_insert; [|by apply F2|done]. rewrite F1. by apply fresh_label.
  - unfold bind at 1, sql_update at 1. revert IH. generalize (upsert_labels now ctx n only set_ ids). intros m IH.
    apply (preserves_bind labels_sound m); [done|intros; apply preserves_ret|]. cbn [rows put table_item_labels].
    apply label_update; [done|done| |done]. intros y Hp. unfold visible in Hp. apply andb_true_iff in Hp as [_ [_ Hp]%andb_true_iff]. by apply F3.
Qed.

Lemma set_label_run now ctx n i v d x d' : set_label now ctx n i v d = (Ok x, d') → labels_wf d →
  label_key x = (tenant_of ctx, n, i) ∧ In x (item_labels d') ∧
  il_answer_source x = (if vd_answer_edited v then as_sme_edited else source_of (tenant_of ctx) n i d) ∧
  ∀ y, In y (item_labels d) → label_key y ≠ (tenant_of ctx, n, i) → In y (item_labels d').
Proof using.
  intros E W. apply (proj1 (tx_ok _ _ _ _)) in E. apply bind_ok in E as (u & d1 & E1 & E). unfold guard in E1. destruct (_ && _) in E1; [|done]. injection E1 as _ <-.
  apply bind_ok in E as (found & d1 & E1 & E). injection E1 as <- <-. apply bind_ok in E as (u' & d1 & E1 & E).
  apply bind_ok in E as (updated & d2 & E2 & E). injection E2 as <- <-. cbn [rows table_item_labels put] in *.
  set (p := visible (tenant_of ctx) (of_item n i)) in *.
  assert (Hx : ∃ y, In y (item_labels d1) ∧ p y = true ∧ x = apply_verdict now ctx v y ∧ d' = d1 <| item_labels := update_where p (apply_verdict now ctx v) (item_labels d1) |>).
  { destruct (map _ _) as [|z [|z' l]] eqn:Em; [done| |done]. injection E as <- <-. apply update_some in Em as (y & Hy & Hp & ->). by exists y. }
  destruct Hx as (y & Hy & Hp & -> & ->).
  assert (Hd : il_answer_source y = source_of (tenant_of ctx) n i d ∧ ∀ z, In z (item_labels d) → In z (item_labels d1)).
  { unfold source_of. fold p. destruct (select_where p (item_labels d)) as [|z l] eqn:Es.
    - injection E1 as _ <-. cbn in Hy |- *. split; [|intros z Hz; apply in_app_iff; by left]. pose proof (proj1 (select_where_nil _ _) Es) as Hn.
      destruct (List.find p (item_labels d)) as [w|] eqn:Ef; [apply find_some in Ef as [Hw Hpw]; by rewrite (Hn w Hw) in Hpw|].
      apply in_app_iff in Hy as [Hy|[<-|[]]]; [by rewrite (Hn y Hy) in Hp|done].
    - injection E1 as _ <-. split; [|done]. destruct (List.find p (item_labels d)) as [w|] eqn:Ef.
      + apply find_some in Ef as [Hw Hpw]. f_equal. apply (key_unique label_key (item_labels d)); [apply W|done|done|].
        apply of_item_spec in Hp, Hpw. congruence.
      + pose proof (find_none _ _ Ef y Hy) as Hn. cbn in Hn. by rewrite Hp in Hn. }
  destruct Hd as [Hs Hd]. split; [rewrite apply_verdict_key; by apply of_item_spec|]. split; [|split].
  - cbn. apply in_update_where. exists y. split; [done|by rewrite Hp].
  - rewrite apply_verdict_source, Hs. done.
  - intros z Hz Hk. cbn. apply in_update_where. exists z. split; [by apply Hd|]. destruct (p z) eqn:Ez; [|done]. by apply of_item_spec in Ez.
Qed.

Lemma set_label_attest now ctx n i v : preserves labels_sound (set_label now ctx n i v).
Proof using.
  apply preserves_tx. apply preserves_bind; [apply preserves_guard|]. intros _ d W. unfold bind at 1, sql_select, gets.
  assert (Hrest : preserves labels_sound (updated <- sql_update (visible (tenant_of ctx) (of_item n i)) (apply_verdict now ctx v) ;;
    match updated with [] => raise MultipleResultsFound | [x] => ret x | x :: _ :: _ => raise MultipleResultsFound end)).
  { apply preserves_bind; [|intros [|x [|y l]]; auto with platform]. intros d1 W1. cbn.
    apply label_update; [apply apply_verdict_key|apply apply_verdict_attributed|intros; by apply apply_verdict_human|done]. }
  destruct (select_where _ _) as [|x l] eqn:E; unfold bind at 1; [|by apply Hrest].
  apply Hrest, label_insert; [by apply fresh_label|done|done].
Qed.
End labels.

(** * Histories *)

Section histories_sound.
Context `{AuditEnv}.
Variables (str_of : json → string) (st : eval_settings).

(** What a save commits: the version and its schedule, and an event. *)
Lemma save_parts now fresh ctx n c raws d r d' : save str_of st now fresh ctx n c raws d = (r, d') → d' = d ∨
  ∃ l i d1 d2, upsert_version now fresh.1 ctx n c (content_sha l) l d = (Ok i, d1) ∧ upsert_policy st now fresh.2 ctx n d1 = (Ok tt, d2) ∧ only_audit d2 d'.
Proof using.
  unfold save. intros E. destruct (build_dataset str_of raws) as [l|e]; [|left; by injection E as _ <-].
  apply bind_cases in E as [(e & Et & ->)|(i & d1 & Et & E)]; [left; by apply tx_raise in Et as ->|injection E as _ <-].
  apply (proj1 (tx_ok _ _ _ _)) in Et. apply bind_ok in Et as (i' & d2 & E1 & Et). apply bind_ok in Et as ([] & d3 & E2 & Et).
  apply bind_ok in Et as (h & d4 & E3 & Et). injection Et as -> ->. apply audit_in_session_only_audit in E3.
  right. by exists l, i, d2, d3.
Qed.

Lemma save_labels now fresh ctx n c raws d : item_labels (save str_of st now fresh ctx n c raws d).2 = item_labels d.
Proof using.
  destruct (save _ _ _ _ _ _ _ _ d) as [r d'] eqn:E. apply save_parts in E as [->|(l & i & d1 & d2 & E1 & E2 & E3)]; [done|]. cbn [snd].
  rewrite (only_audit_keeps item_labels _ _ E3) by done.
  apply upsert_version_run in E1 as (_ & E1 & _). apply upsert_policy_run in E2 as (_ & E2 & _). by rewrite E2.
Qed.

Lemma record_drafted_attest d0 now ctx n ids model : preserves (labels_sound d0) (record_drafted now ctx n ids model).
Proof using.
  destruct ids as [|i ids]; [apply preserves_ret|]. apply preserves_tx. apply preserves_bind.
  { apply preserves_bind; [apply preserves_guard|intros _; apply preserves_guard]. }
  intros _. apply preserves_bind; [apply preserves_guard|intros _]. apply upsert_labels_attest; [by intros []|by intros []|].
  intros y Hy Hh. by rewrite Hh in Hy.
Qed.

Lemma exec_all_attests d0 h d : labels_sound d0 d → labels_sound d0 (exec_all str_of st h d).
Proof using.
  apply (exec_all_keeps _ _ _ (fun _ => True)); [| | | | | |by apply List.Forall_forall].
  - intros a b _ _. apply label_same.
  - intros now fresh ctx n c raws _ a W. apply (label_same d0 a); [apply save_labels|done].
  - intros now p f a _ _ W. by apply (label_same d0 a).
  - intros now ctx n ids model _. apply record_drafted_attest.
  - intros now ctx n [|i ids] origin _; [apply preserves_ret|]. apply preserves_tx. apply preserves_bind.
    { apply preserves_bind; [apply preserves_guard|intros _; apply preserves_guard]. }
    intros _. apply preserves_bind; [apply preserves_guard|intros _]. by apply upsert_labels_attest; [intros []|intros []|intros []].
  - intros now ctx n i v _. apply set_label_attest.
Qed.

(** Nobody is asked again before the interval is over. *)
Definition timely (now : timestamp) (d : db) : Prop :=
  Forall (fun p => ep_next_run_at p <= now + seconds (ep_interval_seconds p)) (policies d).

Lemma save_timely t now fresh ctx n c raws d : now <= t → policy_ok (continuous_eval_interval_seconds st) (continuous_eval_default_top_k st) = true →
  timely t d → timely t (save str_of st now fresh ctx n c raws d).2.
Proof using.
  intros Hnow Hst T. destruct (save _ _ _ _ _ _ _ _ d) as [r d'] eqn:E. apply save_parts in E as [->|(l & i & d1 & d2 & E1 & E2 & E3)]; [done|]. cbn [snd].
  unfold timely in *. rewrite (only_audit_keeps policies _ _ E3) by done.
  apply upsert_version_run in E1 as (E1 & _). apply upsert_policy_run in E2 as (_ & _ & _ & E2). rewrite E1 in E2.
  destruct E2 as [[_ ->]|(_ & _ & x & -> & _ & _ & Hs & _ & Hn)].
  - apply Forall_update_where; [|done]. by intros y Hy _.
  - apply List.Forall_app. split; [done|]. constructor; [|constructor]. rewrite Hn, Hs. unfold policy_ok in Hst. unfold seconds. bool_to_prop. lia.
Qed.

Lemma exec_all_timely t h d : Forall (fun e : timestamp * set_action => e.1 <= t) h →
  policy_ok (continuous_eval_interval_seconds st) (continuous_eval_default_top_k st) = true → timely t d → timely t (exec_all str_of st h d).
Proof using.
  intros Hh Hst. apply (exec_all_keeps _ _ (timely t) (fun now => now <= t)); [| | | | | |exact Hh].
  - intros a b _ E _. unfold timely. by rewrite E.
  - intros now fresh ctx n c raws Hnow a. by apply save_timely.
  - intros now p f a Hnow Hf Ha. apply Forall_update_where; [|done]. intros y _ _. destruct (Hf y) as (_ & _ & _ & Hy). lia.
  - intros now ctx n ids model _. by apply record_drafted_free.
  - intros now ctx n ids origin _. by apply set_origin_free.
  - intros now ctx n i v _. by apply set_label_free.
Qed.

End histories_sound.

(** * Scheduling *)

(** How many runs there are under the key of a policy's due time. *)
Definition keyed (x : continuous_eval_policy) (d : db) : Z :=
  count (select_where (run_keyed (ep_tenant x) (schedule_key x)) (runs d)).

(** The version a run of the policy is pinned to. *)
Definition newest_version (x : continuous_eval_policy) (d : db) : option eval_dataset :=
  List.hd_error (order_by newest (select_where (dataset_of x) (datasets d))).

(** A run of a policy of [l] and its outbox row, waiting to be dispatched. *)
Definition waits (now : timestamp) (release : string) (l : list continuous_eval_policy) (d : db) (e : run * outbox) : Prop :=
  ∃ x v, In x l ∧ newest_version x d = Some v ∧ e.1 = scheduled_run now (r_id e.1) release x (ed_sha v) ∧
    e.2 = scheduled_outbox now (ob_id e.2) x (r_id e.1) (ed_sha v).

(** What serving the policies of [l] adds: [new], and at most one run under any key that
    had none. *)
Record adds (now : timestamp) (release : string) (l : list continuous_eval_policy) (new : list (run * outbox)) (d d' : db) : Prop := {
  ad_datasets : datasets d' = datasets d;
  ad_runs : runs d' = runs d ++ map fst new;
  ad_outboxes : outboxes d' = outboxes d ++ map snd new;
  ad_waits : Forall (waits now release l d) new;
  ad_keyed : ∀ y, keyed y d <= keyed y d' <= Z.max 1 (keyed y d);
  ad_measured : ∀ x, In x l → is_some (newest_version x d) = true → 1 <= keyed x d'
}.

Lemma adds_nothing now release l d d' :
  datasets d' = datasets d → runs d' = runs d → outboxes d' = outboxes d →
  (∀ x, In x l → is_some (newest_version x d) = true → 1 <= keyed x d') → adds now release l [] d d'.
Proof.
  intros E1 E2 E3 Hm. constructor; [done|by rewrite app_nil_r|by rewrite app_nil_r|constructor| |done].
  intros y. unfold keyed. rewrite E2. lia.
Qed.

Lemma adds_trans now release l1 l2 n1 n2 d1 d2 d3 :
  adds now release l1 n1 d1 d2 → adds now release l2 n2 d2 d3 → adds now release (l1 ++ l2) (n1 ++ n2) d1 d3.
Proof.
  intros [D1 R1 O1 W1 K1 M1] [D2 R2 O2 W2 K2 M2].
  assert (Hv : ∀ x, newest_version x d2 = newest_version x d1) by (intros x; unfold newest_version; by rewrite D1).
  constructor.
  - congruence.
  - by rewrite R2, R1, map_app, app_assoc.
  - by rewrite O2, O1, map_app, app_assoc.
  - apply Forall_app. split; eapply Forall_impl; try eassumption; intros e (x & v & Hx & Ev & He); exists x, v;
      (split; [apply in_app_iff; auto|]); [done|by rewrite <- Hv].
  - intros y. specialize (K1 y). specialize (K2 y). lia.
  - intros x [Hx|Hx]%in_app_iff Ev; [specialize (M1 x Hx Ev); specialize (K2 x); lia|]. apply M2; [done|by rewrite Hv].
Qed.

Lemma keyed_insert y d r ps os :
  keyed y (d <| runs := runs d ++ [r] |> <| outboxes := os |> <| policies := ps |>)
  = keyed y d + (if run_keyed (ep_tenant y) (schedule_key y) r then 1 else 0).
Proof.
  unfold keyed, select_where, count. cbn. rewrite List.filter_app, length_app. cbn.
  destruct (run_keyed _ _ r); cbn; lia.
Qed.

(** The table of schedules after one of them was served. *)
Definition served (now : timestamp) (ids : list uuid) (l l' : list continuous_eval_policy) : Prop :=
  ∀ y', In y' l' → ∃ y, In y l ∧ ep_id y' = ep_id y ∧ policy_key y' = policy_key y ∧ ep_interval_seconds y' = ep_interval_seconds y ∧
    (In (ep_id y) ids → ep_next_run_at y' = now + seconds (ep_interval_seconds y)) ∧ (¬ In (ep_id y) ids → ep_next_run_at y' = ep_next_run_at y).

Lemma served_update now x f l : (∀ y, ep_id (f y) = ep_id y ∧ policy_key (f y) = policy_key y ∧ ep_interval_seconds (f y) = ep_interval_seconds y ∧
    ep_next_run_at (f y) = now + seconds (ep_interval_seconds y)) →
  served now [ep_id x] l (update_where (same_policy x) f l).
Proof.
  intros Hf y' Hy. apply in_update_where in Hy as (y & Hy & ->). exists y. destruct (Hf y) as (F1 & F2 & F3 & F4).
  unfold same_policy. destruct (N.eqb_spec (ep_id y) (ep_id x)) as [E|E]; (split; [done|split; [done|split; [done|split; [done|split]]]]); try done.
  - intros Hn. exfalso. apply Hn. by left.
  - intros [Hi|[]]. by destruct E.
Qed.

Lemma served_trans now a b l1 l2 l3 : served now a l1 l2 → served now b l2 l3 → served now (a ++ b) l1 l3.
Proof.
  intros H1 H2 z Hz. destruct (H2 z Hz) as (y & Hy & E1 & E2 & E3 & E4 & E5). destruct (H1 y Hy) as (x & Hx & F1 & F2 & F3 & F4 & F5).
  exists x. split; [done|]. split; [congruence|]. split; [congruence|]. split; [congruence|]. rewrite F1 in E4, E5. split.
  - intros Hi. destruct (in_dec N.eq_dec (ep_id x) b) as [Hb|Hb]; [by rewrite E4, F3|]. apply in_app_iff in Hi as [Hi|Hi]; [|done]. by rewrite E5, F4.
  - intros Hi. rewrite in_app_iff in Hi. rewrite E5, F5; [done|tauto..].
Qed.

Lemma served_refl now l : served now [] l l.
Proof. intros y Hy. by exists y. Qed.

(** Serving one policy. *)
Lemma schedule_one now fresh release x d :
  ∃ new d', schedule_policy now fresh release x d = (Ok (count new), d') ∧ adds now release [x] new d d' ∧
    served now [ep_id x] (policies d) (policies d').
Proof.
  unfold schedule_policy, bind at 1, sql_select at 1, gets at 1. cbn [rows table_datasets].
  destruct (order_by newest (select_where (dataset_of x) (datasets d))) as [|y l] eqn:Eo; cbn [firstn].
  - exists [], (d <| policies := update_where (same_policy x) (back_off now) (policies d) |>). split; [done|]. split; [|by apply served_update].
    apply adds_nothing; try done. intros x' [<-|[]]. unfold newest_version. by rewrite Eo.
  - unfold bind at 1, sql_select at 1, gets at 1. cbn [rows table_runs].
    destruct (select_where (run_keyed (ep_tenant x) (schedule_key x)) (runs d)) as [|r l'] eqn:Er.
    + set (r := scheduled_run now (fresh (ep_id x)).1 release x (ed_sha y)). set (o := scheduled_outbox now (fresh (ep_id x)).2 x (fresh (ep_id x)).1 (ed_sha y)).
      eexists [(r, o)], (d <| runs := runs d ++ [r] |> <| outboxes := outboxes d ++ [o] |> <| policies := update_where (same_policy x) _ (policies d) |>).
      split; [reflexivity|]. split; [|by apply served_update].
      assert (Hx : run_keyed (ep_tenant x) (schedule_key x) r = true).
      { unfold run_keyed, eqb_opt. cbn. by rewrite N.eqb_refl, String.eqb_refl. }
      constructor; [done|done|done| | |].
      * constructor; [|constructor]. exists x, y. split; [by left|]. split; [unfold newest_version; by rewrite Eo|done].
      * intros z. rewrite keyed_insert. destruct (run_keyed (ep_tenant z) (schedule_key z) r) eqn:Ez; [|lia].
        assert (keyed z d = 0) as ->; [|lia]. unfold run_keyed, eqb_opt in Ez. cbn in Ez. bool_to_prop. unfold keyed. rewrite <- H, <- H0. by rewrite Er.
      * intros x' [<-|[]] _. rewrite keyed_insert, Hx. unfold keyed. rewrite Er. done.
    + eexists [], (d <| policies := update_where (same_policy x) _ (policies d) |>). split; [reflexivity|]. split; [|by apply served_update].
      apply adds_nothing; try done. intros x' [<-|[]] _. unfold keyed. cbn. rewrite Er. unfold count. cbn [length]. lia.
Qed.

Lemma schedule_all_run now fresh release l : ∀ d, ∃ new d', schedule_all now fresh release l d = (Ok (count new), d') ∧
  adds now release l new d d' ∧ served now (map ep_id l) (policies d) (policies d').
Proof.
  induction l as [|x l IH]; intros d; cbn [schedule_all map].
  { exists [], d. split; [done|split; [by apply adds_nothing|apply served_refl]]. }
  destruct (schedule_one now fresh release x d) as (n1 & d1 & E1 & A1 & S1).
  destruct (IH d1) as (n2 & d2 & E2 & A2 & S2). exists (n1 ++ n2), d2.
  rewrite (run_bind _ _ _ _ _ E1), (run_bind _ _ _ _ _ E2). split; [unfold ret, count; rewrite length_app; do 2 f_equal; lia|].
  split; [exact (adds_trans _ _ [_] _ _ _ _ _ _ A1 A2)|exact (served_trans _ [_] _ _ _ _ S1 S2)].
Qed.

Lemma schedule_due_run now fresh release limit d :
  1 <= str_len release <= 64 → count (select_where (due now) (policies d)) <= Z.min limit 500 →
  let l := order_by due_before (select_where (due now) (policies d)) in
  ∃ new d', schedule_due now fresh release limit d = (Ok (count new), d') ∧ adds now release l new d d' ∧
    served now (map ep_id l) (policies d) (policies d').
Proof.
  intros Hr Hn l.
  assert (Hl : length l = length (select_where (due now) (policies d))) by apply Permutation_length, order_by_perm.
  destruct (schedule_all_run now fresh release l d) as (new & d' & E & A & S). exists new, d'. split; [|by split].
  apply (proj2 (tx_ok _ _ _ _)). unfold bind at 1, guard. rewrite (proj2 (Z.leb_le _ _) (proj1 Hr)), (proj2 (Z.leb_le _ _) (proj2 Hr)). cbn [andb ret].
  unfold bind at 1, sql_select at 1, gets at 1. cbn [rows table_policies]. fold l. rewrite firstn_all2; [done|].
  rewrite Hl. unfold count in Hn. lia.
Qed.

Lemma no_missing_policy `{AuditEnv} now d : sets_wf d → eh_missing_policies (health now d) = 0.
Proof.
  intros W. cbn. unfold count. replace (List.filter _ _) with ([] : list (uuid * string)); [done|]. symmetry.
  apply select_where_nil. intros k Hk. apply negb_false_iff. unfold named_sets in Hk.
  apply list_elem_of_In in Hk. rewrite elem_of_remove_dups in Hk. apply list_elem_of_In in Hk.
  apply in_map_iff in Hk as (x & <- & Hx). pose proof (sw_scheduled d W) as Hs. rewrite List.Forall_forall in Hs. destruct (Hs x Hx) as (p & Hp & E).
  apply existsb_exists. exists p. split; [done|]. unfold policy_of. injection E as -> ->. cbn. by rewrite N.eqb_refl, String.eqb_refl.
Qed.

Section measured.
Context `{AuditEnv}.

(** C28: every golden set is measured within its interval, and measuring cannot be turned
    off.  After any requests to store, review, mine, label or reschedule golden sets, each
    succeeding or failing, every name of every tenant has a schedule; and when the scheduler
    then runs, with room for the policies that are due, it succeeds and adds exactly one run
    for every due set that has none under the key of its due time yet, and no other: what it
    adds to the table of runs is a list of waiting runs, each of a due policy and pinned to the
    newest version of its set, what it adds to the outbox is one row for each, and it reports
    how many.  No policy is due any more, each is due again within its interval, which is at
    most a week, and the readiness check passes. *)
Theorem every_golden_set_is_measured str_of st h d now fresh release limit :
  sets_wf d → timely now d → policy_ok (continuous_eval_interval_seconds st) (continuous_eval_default_top_k st) = true →
  Forall (fun e : timestamp * set_action => e.1 <= now) h → 1 <= str_len release <= 64 →
  let d' := exec_all str_of st h d in
  count (select_where (due now) (policies d')) <= Z.min limit 500 →
  ∃ new d1, schedule_due now fresh release limit d' = (Ok (count new), d1) ∧ datasets d1 = datasets d' ∧
    runs d1 = runs d' ++ map fst new ∧ outboxes d1 = outboxes d' ++ map snd new ∧
    Forall (waits now release (select_where (due now) (policies d')) d') new ∧
    (∀ p, keyed p d1 <= Z.max 1 (keyed p d')) ∧ eh_ok (health now d1) = true ∧
    ∀ v, In v (datasets d1) → ∃ p p', In p (policies d') ∧ In p' (policies d1) ∧
      policy_key p = (ed_tenant v, ed_name v) ∧ policy_key p' = (ed_tenant v, ed_name v) ∧
      (due now p = true → keyed p d1 = Z.max 1 (keyed p d')) ∧
      now < ep_next_run_at p' <= now + seconds (ep_interval_seconds p') ∧ 900 <= ep_interval_seconds p' <= 604800.
Proof.
  intros W T Hst Hh Hr d' Hn. destruct (exec_all_sound str_of st d h d) as [W' _]; [by split|]. fold d' in W'.
  assert (T' : timely now d') by by apply exec_all_timely.
  destruct (schedule_due_run now fresh release limit d' Hr Hn) as (new & d1 & E & [D R O Wt K M] & S).
  assert (W1 : sets_wf d1).
  { assert (Hk : preserves (sound d') (schedule_due now fresh release limit)).
    { apply (schedule_due_keeps _ (fun _ => True)); [|intros n p f a _; apply sets_wf_update|done]. intros a b E1 E2 _. by apply sound_same. }
    specialize (Hk d'). rewrite E in Hk. by apply Hk. }
  assert (Hs : ∀ p', In p' (policies d1) → ∃ p, In p (policies d') ∧ policy_key p' = policy_key p ∧
      now < ep_next_run_at p' <= now + seconds (ep_interval_seconds p') ∧ 900 <= ep_interval_seconds p' <= 604800).
  { intros p' Hp'. pose proof (sw_cadence d1 W1) as Hc. rewrite List.Forall_forall in Hc. specialize (Hc p' Hp').
    unfold policy_ok in Hc. destruct (S p' Hp') as (p & Hp & _ & Hk & Hi & Hin & Hout). exists p. split; [done|]. split; [done|].
    assert (Hb : 900 <= ep_interval_seconds p' <= 604800) by (bool_to_prop; lia). split; [|done].
    destruct (due now p) eqn:Ed.
    - rewrite Hin; [unfold seconds; lia|]. apply in_map, in_order_by, filter_In. by split.
    - rewrite Hout, Hi; [|].
      + unfold timely in T'. rewrite List.Forall_forall in T'. specialize (T' p Hp). unfold due in Ed. bool_to_prop. lia.
      + intros (q & Eq & Hq)%in_map_iff. apply in_order_by, filter_In in Hq as [Hq Hqd].
        assert (q = p) as -> by (apply (key_unique ep_id (policies d')); [apply W'|done..]). by rewrite Ed in Hqd. }
  exists new, d1. split; [done|split; [done|split; [done|split; [done|split; [|split; [apply K|split]]]]]].
  - eapply Forall_impl; [exact Wt|]. intros e (x & v & Hx & He). exists x, v. split; [by apply in_order_by in Hx|done].
  - cbn. change (count _ =? 0) with (eh_missing_policies (health now d1) =? 0) at 1. rewrite (no_missing_policy now d1 W1). cbn.
    replace (List.filter (overdue now) (policies d1)) with ([] : list continuous_eval_policy); [done|]. symmetry. apply select_where_nil.
    intros p' Hp'. destruct (Hs p' Hp') as (_ & _ & _ & Hb & Hi). unfold overdue, seconds. apply Z.ltb_ge. lia.
  - intros v Hv. pose proof (sw_scheduled d1 W1) as Hp. rewrite List.Forall_forall in Hp. destruct (Hp v Hv) as (p' & Hp' & Ek).
    destruct (Hs p' Hp') as (p & Hpp & Ekp & Hb & Hi). exists p, p'. rewrite <- Ekp, Ek. split; [done|split; [done|split; [done|split; [done|split; [|done]]]]].
    intros Hd. enough (1 <= keyed p d1) by (specialize (K p); lia). apply M; [by apply in_order_by, filter_In|].
    unfold newest_version. destruct (order_by newest (select_where (dataset_of p) (datasets d'))) eqn:Eo; [|done].
    exfalso. assert (Hin : In v (order_by newest (select_where (dataset_of p) (datasets d')))); [|by rewrite Eo in Hin].
    apply in_order_by, filter_In. rewrite <- D. split; [done|]. unfold dataset_of, of_name. rewrite Ek in Ekp.
    injection Ekp as -> ->. by rewrite N.eqb_refl, String.eqb_refl.
Qed.
End measured.

(** * Versions and provenance *)

Lemma or_400_ok {A} (m : M db A) d a d' : or_400 m d = (Ok a, d') → m d = (Ok a, d').
Proof.
  unfold or_400, try_except. destruct (m d) as [[x|e] d1]; [done|]. destruct e; try done. by destruct (String.eqb _ _).
Qed.

Section provenance.
Context `{AuditEnv}.

Lemma load_version t ctx n sha d x : tenant_of ctx = t → sets_wf d → sha ≠ "" → In x (datasets d) → version_key x = (t, n, sha) →
  ∃ l, load ctx n (Some sha) d = (Ok (Some (mkDataset (ed_id x) n (ed_collection x) sha l)), d) ∧ well_formed l ∧ content_sha l = sha.
Proof.
  intros Ht W Hs Hx Hk. assert (Hsel : select_where (visible (tenant_of ctx) (of_version n sha)) (datasets d) = [x]).
  { apply (select_by_key version_key).
    - apply W.
    - done.
    - apply of_version_spec. by rewrite Ht.
    - intros y _ Hy. apply of_version_spec in Hy. by rewrite Ht, <- Hk in Hy. }
  pose proof (sw_versions d W) as Hv. rewrite List.Forall_forall in Hv. destruct (Hv x Hx) as (l & El & Hl & Es).
  injection Hk as _ En Esha. exists l. split; [|split; [done|by rewrite <- Es]].
  unfold load, truthy. rewrite (proj2 (String.eqb_neq sha "") Hs). cbn [negb coalesce]. unfold bind at 1, tenant_session, tx.
  unfold bind at 1, sql_select, gets. cbn [rows table_datasets]. rewrite Hsel. cbn [one_or_none]. unfold ret at 1, bind, to_dataset.
  rewrite El, items_roundtrip, En, Esha. done.
Qed.

(** C26: a version of a golden set is its content, for good.  Whatever requests are served,
    in any order and each succeeding or failing, every version that was there is there,
    under its id, tenant, name and hash and with the same items (storing the same items again
    may file it under another collection); every version has an item, its item
    ids are distinct and not empty, each item has a question and cites canonical chunk ids
    only, and its hash is that of its items; no name has a version twice.  Storing a set and
    loading it by the hash that came back gives its items, up to their order, and the collection
    it was stored under, unless the two sets collide under SHA-256, and two sets have one text to hash exactly when
    they are the same items in some order.  Retention, which deletes old versions no run
    refers to, is not among the requests. *)
Theorem a_version_is_its_content str_of st h d :
  sets_wf d → let d' := exec_all str_of st h d in
  kept d d' ∧ List.NoDup (map version_key (datasets d')) ∧
  (∀ x, In x (datasets d') → ∃ l, items_of_json (ed_items x) = Some l ∧ well_formed l ∧ ed_sha x = content_sha l) ∧
  (∀ now fresh ctx n c items ds d1, put_dataset str_of st now fresh ctx n c items d' = (Ok ds, d1) → ds_sha ds ≠ "" →
     ∃ ds', load ctx n (Some (ds_sha ds)) d1 = (Ok (Some ds'), d1) ∧ ds_id ds' = ds_id ds ∧ ds_collection ds' = c ∧
       (Permutation (ds_items ds') (ds_items ds) ∨
        version_text (ds_items ds') ≠ version_text (ds_items ds) ∧ content_sha (ds_items ds') = content_sha (ds_items ds))) ∧
  ∀ l l', well_formed l → version_text l = version_text l' ↔ Permutation l l'.
Proof.
  intros W d'. destruct (exec_all_sound str_of st d h d) as [W' K]; [by split|]. fold d' in W', K. split; [done|split; [apply W'|split; [|split]]].
  - intros x Hx. pose proof (sw_versions d' W') as Hv. rewrite List.Forall_forall in Hv. destruct (Hv x Hx) as (l & E & Hl & Hs).
    exists l. rewrite E. by rewrite items_roundtrip.
  - intros now fresh ctx n c items ds d1 E Hs. apply bind_ok in E as (u & d2 & E1 & E). unfold guard in E1. destruct (_ && _) in E1; [|done]. injection E1 as _ <-.
    apply or_400_ok in E. apply save_run in E as (_ & [W1 _] & Hds); [|done]. destruct (Hds ds eq_refl) as (Hl & Hn & Hc & Hsha & x & Hx & Hk & Hi & Hxc).
    destruct (load_version (tenant_of ctx) ctx n (ds_sha ds) d1 x) as (l & El & Hwf & Esha); [done..|].
    eexists. split; [exact El|]. cbn. split; [done|split; [done|]].
    destruct (decide (version_text l = version_text (ds_items ds))) as [Et|Et].
    + left. apply version_text_spec; [apply Hwf|done].
    + right. split; [done|]. congruence.
  - intros l l' Hl. apply version_text_spec, Hl.
Qed.

End provenance.

Module DatasetsDemo.
#[export] Instance env : AuditEnv := mkAuditEnv (str_take 64) (fun _ => "at") (fun j => j) (Some "r2").
Definition str_of (_ : json) : string := "".
Definition st : eval_settings := mkEvalSettings 21600 5.
Definition item (i q a : string) (cited : list string) : list (string * json) := item_fields (mkItem i q a cited).
Definition set_a : raws := [item "q1" "What trips the pump?" "" ["c_0123abcd"]; item "q2" " Who resets it? " "The shift lead" []].
Definition set_b : raws := [item "q2" "Who resets it?" "The shift lead" []; item "q1" "What trips the pump?" "High pressure" ["c_0123abcd"]].
Definition put_ (fresh : uuid) (items : raws) : set_action := PutSet (fresh, fresh) Demo.ctx "golden" "manuals" items.
(** The set is stored, its answer is drafted by a model, and a reviewer confirms it. *)
Definition history : list (timestamp * set_action) :=
  [(1, put_ 50 set_a); (2, put_ 51 set_b); (3, Drafted Demo.ctx "golden" ["q1"] "annotator");
   (4, Review (52%N, 52%N) Demo.ctx "golden" "q1" (mkItemReview None (Some true) None None));
   (5, Configure Demo.ctx "golden" 900 5)].
Notation after h := (exec_all str_of st h empty_db).
Definition fresh (_ : uuid) : uuid * Z := (90%N, 7).
End DatasetsDemo.

#[local] Existing Instance DatasetsDemo.env.

(** Storing an earlier version again does not make it the version that is read, reviewed and
    scheduled: that is the one whose row was inserted last. *)
Example earlier_version_does_not_come_back :
  let d := DatasetsDemo.after [(1, DatasetsDemo.put_ 50 DatasetsDemo.set_a); (2, DatasetsDemo.put_ 51 DatasetsDemo.set_b); (3, DatasetsDemo.put_ 52 DatasetsDemo.set_a)] in
  match (load Demo.ctx "golden" None d).1 with Ok (Some ds) => ds_id ds | _ => 0%N end = 51%N.
Proof. vm_compute. reflexivity. Qed.

(** Sending the drafted answer back unchanged makes it a human's. *)
Example unchanged_answer_counts_as_an_edit :
  let d := DatasetsDemo.after (DatasetsDemo.history ++ [(6, Review (53%N, 53%N) Demo.ctx "golden" "q1" (mkItemReview (Some "High pressure") (Some true) None None))]) in
  count (datasets d) = 2 ∧ map il_answer_source (item_labels d) = [as_sme_edited].
Proof. vm_compute. split; reflexivity. Qed.

(** [$] lets an id with a final newline through, which no retriever returns. *)
Example newline_is_canonical : CANONICAL_ID ("c_0123abcd" +:+ nl) = true.
Proof. reflexivity. Qed.

Lemma empty_sets_wf : sets_wf empty_db.
Proof. constructor; constructor. Qed.

Lemma a_version_is_its_content_witness :
  count (datasets (DatasetsDemo.after DatasetsDemo.history)) = 2 ∧ List.NoDup (map version_key (datasets (DatasetsDemo.after DatasetsDemo.history))) ∧
  ∃ ds ds' d1, put_dataset DatasetsDemo.str_of DatasetsDemo.st 9 (60%N, 60%N) Demo.ctx "golden" "faq" (rev DatasetsDemo.set_a) (DatasetsDemo.after DatasetsDemo.history) = (Ok ds, d1) ∧
    load Demo.ctx "golden" (Some (ds_sha ds)) d1 = (Ok (Some ds'), d1) ∧ ds_id ds' = 50%N ∧ ds_collection ds' = "faq".
Proof.
  destruct (a_version_is_its_content DatasetsDemo.str_of DatasetsDemo.st DatasetsDemo.history empty_db empty_sets_wf) as (_ & H1 & _ & H2 & _).
  split; [vm_compute; reflexivity|]. split; [exact H1|].
  specialize (H2 9 (60%N, 60%N) Demo.ctx "golden" "faq" (rev DatasetsDemo.set_a)).
  computed (match (put_dataset DatasetsDemo.str_of DatasetsDemo.st 9 (60%N, 60%N) Demo.ctx "golden" "faq" (rev DatasetsDemo.set_a) (DatasetsDemo.after DatasetsDemo.history)).1 with
            | Ok ds => (ds_id ds, String.eqb (ds_sha ds) "") | Raise _ => (0%N, true) end) as E.
  destruct (put_dataset DatasetsDemo.str_of DatasetsDemo.st 9 (60%N, 60%N) Demo.ctx "golden" "faq" (rev DatasetsDemo.set_a) (DatasetsDemo.after DatasetsDemo.history)) as [[ds|e] d1]; cbn [fst] in E; [|discriminate].
  injection E as Ei Es. apply String.eqb_neq in Es. destruct (H2 ds d1 eq_refl Es) as (ds' & El & Hi & Hc & _).
  exists ds, ds', d1. split; [reflexivity|]. split; [exact El|]. split; [by rewrite Hi|exact Hc].
Defined.


Lemma every_golden_set_is_measured_witness :
  ∃ d1, schedule_due 10 DatasetsDemo.fresh "r2" 100 (DatasetsDemo.after DatasetsDemo.history) = (Ok 1, d1) ∧ map r_workload (runs d1) = ["eval"] ∧ eh_ok (health 10 d1) = true.
Proof.
  destruct (every_golden_set_is_measured DatasetsDemo.str_of DatasetsDemo.st DatasetsDemo.history empty_db 10 DatasetsDemo.fresh "r2" 100)
    as (new & d1 & E & _ & _ & _ & _ & _ & Hh & _).
  - apply empty_sets_wf.
  - constructor.
  - reflexivity.
  - repeat constructor; cbn; discriminate.
  - by vm_compute.
  - by vm_compute.
  - computed (schedule_due 10 DatasetsDemo.fresh "r2" 100 (DatasetsDemo.after DatasetsDemo.history)).1 as E1. computed (map r_workload (runs (schedule_due 10 DatasetsDemo.fresh "r2" 100 (DatasetsDemo.after DatasetsDemo.history)).2)) as E2.
    rewrite E in E1, E2. cbn [fst snd] in E1, E2. exists d1. split; [by rewrite E, E1|]. by split.
Defined.
