(* ===== verification/Metrics.v ===== *)
(** Deterministic answer-quality metrics ([platform_core/gates/metrics.py]).

    A metric that an item cannot have is [None].  Quotients are exact rationals rounded to
    four digits, as the code rounds its floats. *)
From Stdlib Require Import Ascii.
From S2P Require Import Prelude Json Text Gaps.

Definition STOP : gset string := list_to_set
  ["a"; "an"; "and"; "are"; "as"; "at"; "be"; "by"; "for"; "from"; "has"; "in"; "is"; "it"; "its"; "of"; "on"; "or"; "that";
   "the"; "this"; "to"; "was"; "were"; "when"; "which"; "with"; "what"; "how"; "why"; "does"; "do"].

(** [_TOKEN.findall]: the maximal runs of word characters and hyphens. *)
Definition tokens (text : string) : gset string := list_to_set (map lower (words text)) ∖ STOP.

Definition share (part whole : Z) : Q := round4 (inject_Z part / inject_Z whole).

Definition size_Z (s : gset string) : Z := Z.of_nat (size s).

Definition coverage (part whole : gset string) : Q :=
  if bool_decide (part = ∅) then 0 else share (size_Z (part ∩ whole)) (size_Z part).

Definition faithfulness (answer : string) (evidence_texts : list string) : Q :=
  if blank answer then 0 else coverage (tokens answer) (⋃ map tokens evidence_texts).

Definition answer_relevancy (answer question expected_answer : string) : Q :=
  coverage (tokens question ∪ tokens expected_answer) (tokens answer).

Definition context_precision (retrieved must_cite : list string) : option Q :=
  match must_cite, retrieved with
  | [], _ => None
  | _, [] => Some 0%Q
  | _, _ => Some (share (size_Z (list_to_set must_cite ∩ list_to_set retrieved)) (count retrieved))
  end.

(** ** Citations *)

(** The longest run of hexadecimal digits, and what follows it. *)
Fixpoint hex_run (s : string) : string * string :=
  match s with
  | String c s' => if hex_char c then let '(h, r) := hex_run s' in (String c h, r) else ("", s)
  | EmptyString => ("", "")
  end.

(** What follows ['['] in [_CITATION], [\[(c_[0-9a-f]{6,32})\]]: a longer or shorter run has
    no closing bracket at its place. *)
Definition citation_body (s : string) : option string :=
  match s with
  | String a (String b r) =>
      let '(h, rest) := hex_run r in
      if Ascii.eqb a "c" && Ascii.eqb b "_" && (6 <=? str_len h) && (str_len h <=? 32) && startswith "]" rest
      then Some ("c_" +:+ h) else None
  | _ => None
  end.

(** [findall]: a match holds no further opening bracket, so the scan may go on inside it. *)
Fixpoint cited (s : string) : list string :=
  match s with
  | EmptyString => []
  | String c s' =>
      match (if Ascii.eqb c "[" then citation_body s' else None) with
      | Some i => i :: cited s'
      | None => cited s'
      end
  end.

(** In order, without repetitions. *)
Definition citations (answer : string) : list string :=
  foldl (fun seen m => if mem seen m then seen else seen ++ [m]) [] (cited answer).

Definition citation_accuracy (answer : string) (retrieved : list string) : option Q :=
  match citations answer with
  | [] => None
  | l => Some (share (count (List.filter (mem retrieved) l)) (count l))
  end.

Record item_metrics := mkItemMetrics {
  im_faithfulness : Q;
  im_answer_relevancy : Q;
  im_context_precision : option Q;
  im_citation_accuracy : option Q;
  im_citations : list string
}.

Definition score (answer question expected_answer : string) (retrieved evidence_texts must_cite : list string) : item_metrics :=
  mkItemMetrics (faithfulness answer evidence_texts) (answer_relevancy answer question expected_answer)
    (context_precision retrieved must_cite) (citation_accuracy answer retrieved) (citations answer).

(** The mean of the values there are, and how many there are. *)
Definition mean (values : list (option Q)) : option Q * Z :=
  let present := omap id values in
  (match present with [] => None | _ => Some (round4 (sum_Q present / inject_Z (count present))) end, count present).

Definition aggregate (per_item : list item_metrics) : list (string * (option Q * Z)) :=
  [("faithfulness", mean (map (fun m => Some (im_faithfulness m)) per_item));
   ("answer_relevancy", mean (map (fun m => Some (im_answer_relevancy m)) per_item));
   ("context_precision", mean (map im_context_precision per_item));
   ("citation_accuracy", mean (map im_citation_accuracy per_item))].

(** * Lemmas *)

Lemma round4_mono a b : (a <= b)%Q → (round4 a <= round4 b)%Q.
Proof.
  intros H. unfold round4, Qle. cbn. apply Z.mul_le_mono_nonneg_r; [lia|]. apply round_half_even_mono.
  by apply Qmult_le_compat_r.
Qed.

Definition unit_interval (q : Q) : Prop := (0 <= q /\ q <= 1)%Q.

Lemma round4_unit q : unit_interval q → unit_interval (round4 q).
Proof. intros [H0 H1]. split.
  - apply (Qle_trans _ (round4 0)); [discriminate|by apply round4_mono].
  - apply (Qle_trans _ (round4 1)); [by apply round4_mono|discriminate]. Qed.

Lemma div_unit a b : 0 <= a <= b → 0 < b → unit_interval (inject_Z a / inject_Z b).
Proof.
  intros Ha Hb. assert (Hq : (0 < inject_Z b)%Q) by (unfold Qlt; cbn; lia). split.
  - apply Qle_shift_div_l; [done|]. unfold Qle. cbn. lia.
  - apply Qle_shift_div_r; [done|]. unfold Qle. cbn. lia.
Qed.

Lemma share_unit a b : 0 <= a <= b → 0 < b → unit_interval (share a b).
Proof. intros Ha Hb. by apply round4_unit, div_unit. Qed.

Lemma share_mono a a' b : a <= a' → 0 < b → (share a b <= share a' b)%Q.
Proof.
  intros Ha Hb. apply round4_mono. unfold Qdiv. apply Qmult_le_compat_r; [unfold Qle; cbn; lia|].
  apply Qinv_le_0_compat. unfold Qle. cbn. lia.
Qed.

Lemma share_self b : 0 < b → (share b b == 1)%Q.
Proof.
  intros Hb. unfold share. assert (E : (inject_Z b / inject_Z b == 1)%Q).
  { apply Qmult_inv_r. unfold Qeq. cbn. lia. }
  apply Qle_antisym.
  - apply (Qle_trans _ (round4 1)); [apply round4_mono; rewrite E; apply Qle_refl|discriminate].
  - apply (Qle_trans _ (round4 1)); [discriminate|apply round4_mono; rewrite E; apply Qle_refl].
Qed.

Lemma size_inter_le (a b : gset string) : 0 <= size_Z (a ∩ b) <= size_Z a.
Proof. unfold size_Z. pose proof (subseteq_size (a ∩ b) a ltac:(set_solver)). lia. Qed.

Lemma size_pos (a : gset string) : a ≠ ∅ → 0 < size_Z a.
Proof. intros H. unfold size_Z. assert (size a ≠ 0%nat) by (intros E; apply H, leibniz_equiv, size_empty_inv, E). lia. Qed.

Lemma coverage_unit a b : unit_interval (coverage a b).
Proof.
  unfold coverage. destruct (bool_decide_reflect (a = ∅)) as [->|H]; [by split|].
  apply share_unit; [apply size_inter_le|by apply size_pos].
Qed.

Lemma coverage_mono a b b' : a ∩ b ⊆ b' → (coverage a b <= coverage a b')%Q.
Proof.
  intros H. unfold coverage. destruct (bool_decide_reflect (a = ∅)) as [->|Ha]; [apply Qle_refl|].
  apply share_mono; [|by apply size_pos]. unfold size_Z. apply inj_le, subseteq_size. set_solver.
Qed.

Lemma coverage_full a b : a ≠ ∅ → a ⊆ b → (coverage a b == 1)%Q.
Proof.
  intros Ha H. unfold coverage. rewrite bool_decide_false by done. replace (a ∩ b) with a by set_solver. by apply share_self, size_pos.
Qed.

Lemma size_list_to_set (l : list string) : size_Z (list_to_set l) <= count l.
Proof.
  unfold size_Z, count. induction l as [|x l IH]; [done|]. cbn [list_to_set length]. pose proof (size_union_alt ({[x]} : gset string) (list_to_set l)) as E.
  change (list_to_set (x :: l)) with ({[x]} ∪ list_to_set l : gset string). rewrite E, size_singleton.
  pose proof (subseteq_size ((list_to_set l : gset string) ∖ {[x]}) (list_to_set l) ltac:(set_solver)). lia.
Qed.

Lemma hex_run_spec s : ∃ h r, hex_run s = (h, r) ∧ s = h +:+ r ∧ all_in hex_char h = true.
Proof.
  induction s as [|c s (h & r & E & -> & H)]; [by exists "", ""|]. cbn [hex_run]. destruct (hex_char c) eqn:Ec.
  - rewrite E. exists (String c h), r. split; [done|split; [done|]]. cbn. by rewrite Ec.
  - by exists "", (String c (h +:+ r)).
Qed.

(** What a citation is. *)
Definition citation_id (i : string) : Prop := ∃ h, i = "c_" +:+ h ∧ all_in hex_char h = true ∧ 6 <= str_len h <= 32.

Lemma citation_body_spec s i : citation_body s = Some i → citation_id i ∧ ∃ r, s = i +:+ "]" +:+ r.
Proof.
  destruct s as [|a [|b r]]; try done. cbn [citation_body]. destruct (hex_run_spec r) as (h & rest & -> & -> & H).
  destruct (_ && _) eqn:E; [|done]. intros [= <-]. rewrite !andb_true_iff, !Z.leb_le in E. destruct E as ((((Ea & Eb) & H1) & H2) & H3).
  apply Ascii.eqb_eq in Ea as ->. apply Ascii.eqb_eq in Eb as ->. apply startswith_spec in H3 as (r' & ->).
  split; [by exists h|]. exists r'. by rewrite <- !sapp_assoc.
Qed.

Lemma cited_spec s i : In i (cited s) → citation_id i ∧ infix ("[" +:+ i +:+ "]") s.
Proof.
  induction s as [|c s IH]; [done|]. cbn [cited]. intros Hi.
  assert (H : In i (cited s) ∨ c = "["%char ∧ citation_body s = Some i).
  { destruct (Ascii.eqb_spec c "[") as [->|]; [|by left]. destruct (citation_body s) as [j|]; [|by left].
    destruct Hi as [->|Hi]; [by right|by left]. }
  destruct H as [H|[-> H]].
  - destruct (IH H) as (Hc & a & b & ->). split; [done|]. by exists (String c a), b.
  - apply citation_body_spec in H as (Hc & r & ->). split; [done|]. exists "", r. cbn. by rewrite <- sapp_assoc.
Qed.

Lemma citations_spec answer : List.NoDup (citations answer) ∧ ∀ i, In i (citations answer) ↔ In i (cited answer).
Proof.
  unfold citations. assert (H : ∀ l seen, List.NoDup seen →
    List.NoDup (foldl (fun seen m => if mem seen m then seen else seen ++ [m]) seen l) ∧
    ∀ i, In i (foldl (fun seen m => if mem seen m then seen else seen ++ [m]) seen l) ↔ In i seen ∨ In i l).
  { induction l as [|m l IH]; intros seen Hn; cbn [foldl]; [split; [done|]; cbn; tauto|].
    destruct (mem seen m) eqn:E.
    - destruct (IH seen Hn) as [I1 I2]. split; [done|]. intros i. rewrite I2. cbn. apply mem_spec in E. split; [tauto|].
      intros [?|[<-|?]]; tauto.
    - destruct (IH (seen ++ [m])) as [I1 I2].
      { apply NoDup_snoc; [done|]. intros Hm. apply mem_spec in Hm. congruence. }
      split; [done|]. intros i. rewrite I2, in_app_iff. cbn. tauto. }
  destruct (H (cited answer) [] (List.NoDup_nil _)) as [H1 H2]. split; [done|]. intros i. rewrite H2. cbn. tauto.
Qed.

Lemma filter_count_le {A} (p : A → bool) l : 0 <= count (List.filter p l) <= count l.
Proof. unfold count. pose proof (List.filter_length_le p l). lia. Qed.

Lemma sum_unit l : Forall unit_interval l → (0 <= sum_Q l /\ sum_Q l <= inject_Z (count l))%Q.
Proof.
  induction 1 as [|q l [H0 H1] _ [I0 I1]]; [split; discriminate|]. unfold count in *. cbn [sum_Q foldr length].
  change (foldr Qplus 0%Q l) with (sum_Q l). split; [by apply (Qplus_le_compat 0 _ 0)|].
  rewrite Nat2Z.inj_succ, <- Z.add_1_l, inject_Z_plus. by apply Qplus_le_compat.
Qed.

Lemma mean_spec values : (∀ q, In (Some q) values → unit_interval q) →
  let '(m, n) := mean values in
  n = count (List.filter is_some values) ∧ (m = None ↔ n = 0) ∧ ∀ q, m = Some q → unit_interval q.
Proof.
  intros H. unfold mean. cbn zeta.
  assert (Hn : count (omap id values) = count (List.filter is_some values)).
  { unfold count. clear H. induction values as [|[q|] l IH]; cbn in *; lia. }
  assert (Hu : Forall unit_interval (omap id values)).
  { apply List.Forall_forall. intros q Hq. apply H. clear -Hq. induction values as [|[r|] l IH]; [done| |].
    - destruct Hq as [->|Hq]; [by left|right; by apply IH].
    - right. by apply IH. }
  split; [done|]. destruct (omap id values) as [|q l] eqn:E; [by split|]. split; [split; [done|unfold count; cbn; lia]|].
  intros r [= <-]. destruct (sum_unit (q :: l) Hu) as [S0 S1]. apply round4_unit.
  assert (Hp : (0 < inject_Z (count (q :: l)))%Q) by (unfold Qlt, count; cbn; lia). split.
  - apply Qle_shift_div_l; [done|]. by rewrite Qmult_0_l.
  - apply Qle_shift_div_r; [done|]. by rewrite Qmult_1_l.
Qed.

Lemma count_pos {A} (l : list A) : l ≠ [] → 0 < count l.
Proof. destruct l; [done|]. intros _. unfold count. cbn. lia. Qed.

Lemma faithfulness_unit answer evidence : unit_interval (faithfulness answer evidence).
Proof. unfold faithfulness. destruct (blank answer); [by split|apply coverage_unit]. Qed.

Lemma precision_spec retrieved must_cite q : context_precision retrieved must_cite = Some q →
  unit_interval q ∧ (retrieved ≠ [] → (q <= share (count must_cite) (count retrieved))%Q).
Proof.
  unfold context_precision. destruct must_cite as [|m ms]; [done|]. destruct retrieved as [|r rs]; [intros [= <-]; by split|]. intros [= <-].
  set (a := list_to_set (m :: ms) : gset string). set (b := list_to_set (r :: rs) : gset string).
  pose proof (size_inter_le a b) as H1. pose proof (size_list_to_set (m :: ms)) as H2. pose proof (size_list_to_set (r :: rs)) as H3. fold a in H2. fold b in H3.
  assert (H4 : size_Z (a ∩ b) <= size_Z b) by (apply inj_le, subseteq_size; set_solver).
  assert (Hp : 0 < count (r :: rs)) by by apply count_pos.
  change ({[m]} ∪ list_to_set ms) with a. change ({[r]} ∪ list_to_set rs) with b.
  split; [apply share_unit; [lia|done]|]. intros _. apply share_mono; [lia|done].
Qed.

Lemma accuracy_spec answer retrieved q : citation_accuracy answer retrieved = Some q →
  unit_interval q ∧ ((∀ i, In i (citations answer) → In i retrieved) → (q == 1)%Q).
Proof.
  unfold citation_accuracy. destruct (citations answer) as [|c l]; [done|]. remember (c :: l) as l' eqn:El. intros [= <-].
  assert (Hp : 0 < count l') by (apply count_pos; by rewrite El). split; [apply share_unit; [apply filter_count_le|done]|].
  intros H. replace (List.filter (mem retrieved) l') with l'; [by apply share_self|]. symmetry. clear El Hp. induction l' as [|x l' IH]; [done|].
  cbn. rewrite (proj2 (mem_spec retrieved x)) by (apply H; by left). f_equal. apply IH. intros i Hi. apply H. by right.
Qed.

Lemma score_scores a q e r v c : let x := score a q e r v c in
  unit_interval (im_faithfulness x) ∧ unit_interval (im_answer_relevancy x) ∧
  (∀ p, im_context_precision x = Some p → unit_interval p) ∧ ∀ p, im_citation_accuracy x = Some p → unit_interval p.
Proof.
  split; [apply faithfulness_unit|]. split; [apply coverage_unit|]. split; intros p H.
  - by apply precision_spec in H as [H _].
  - by apply accuracy_spec in H as [H _].
Qed.

(** The quality metrics are shares of what they are called after.  Every score lies
    between 0 and 1; an answer all of whose content words are in the evidence is fully
    faithful, and more evidence never lowers the score; relevancy depends only on which of
    the question's and the reference's words the answer has, so padding does not change it;
    precision exists exactly for the items that declare evidence and is at most the evidence
    declared per chunk retrieved; citation accuracy exists exactly for the answers that
    cite, and is 1 when everything cited was retrieved.  The citations are the canonical ids
    in brackets, each once.  A run's averages lie between 0 and 1, over exactly the items
    that have the score, and there is none without any. *)
Theorem scores_are_shares answer question expected retrieved evidence must_cite :
  let m := score answer question expected retrieved evidence must_cite in
  unit_interval (im_faithfulness m) ∧ unit_interval (im_answer_relevancy m) ∧
  (∀ more, (faithfulness answer evidence <= faithfulness answer (evidence ++ more))%Q) ∧
  (tokens answer ≠ ∅ → blank answer = false → tokens answer ⊆ ⋃ map tokens evidence → (im_faithfulness m == 1)%Q) ∧
  (∀ answer', (tokens question ∪ tokens expected) ∩ tokens answer' = (tokens question ∪ tokens expected) ∩ tokens answer →
     answer_relevancy answer' question expected = im_answer_relevancy m) ∧
  (im_context_precision m = None ↔ must_cite = []) ∧
  (∀ q, im_context_precision m = Some q → unit_interval q ∧ (retrieved ≠ [] → (q <= share (count must_cite) (count retrieved))%Q)) ∧
  (im_citation_accuracy m = None ↔ im_citations m = []) ∧
  (∀ q, im_citation_accuracy m = Some q → unit_interval q ∧ ((∀ i, In i (im_citations m) → In i retrieved) → (q == 1)%Q)) ∧
  List.NoDup (im_citations m) ∧ (∀ i, In i (im_citations m) → citation_id i ∧ infix ("[" +:+ i +:+ "]") answer) ∧
  ∀ l, Forall (fun x => ∃ a q e r v c, x = score a q e r v c) l →
    Forall (fun k : string * (option Q * Z) => k.2.2 <= count l ∧ (k.2.1 = None ↔ k.2.2 = 0) ∧ ∀ q, k.2.1 = Some q → unit_interval q) (aggregate l).
Proof.
  intros m. split; [apply faithfulness_unit|]. split; [apply coverage_unit|]. split.
  { intros more. unfold faithfulness. destruct (blank answer); [apply Qle_refl|]. apply coverage_mono. rewrite map_app, union_list_app. set_solver. }
  split; [intros H1 H2 H3; cbn; unfold faithfulness; rewrite H2; by apply coverage_full|].
  split; [intros answer' H; cbn; unfold answer_relevancy, coverage; by rewrite H|].
  split; [cbn; unfold context_precision; by destruct must_cite, retrieved|]. split; [apply precision_spec|].
  split; [cbn; unfold citation_accuracy; by destruct (citations answer)|]. split; [apply accuracy_spec|].
  destruct (citations_spec answer) as [C1 C2]. split; [done|]. split; [intros i Hi; by apply cited_spec, C2|].
  intros l Hl. rewrite List.Forall_forall in Hl.
  assert (Hm : ∀ f, (∀ x, In x l → ∀ q, f x = Some q → unit_interval q) →
    (mean (map f l)).2 <= count l ∧ ((mean (map f l)).1 = None ↔ (mean (map f l)).2 = 0) ∧ ∀ q, (mean (map f l)).1 = Some q → unit_interval q).
  { intros f Hf. pose proof (mean_spec (map f l)) as H. destruct (mean (map f l)) as [o n]. cbn. destruct H as (-> & H1 & H2).
    - intros q (x & E & Hx)%in_map_iff. by apply (Hf x).
    - split; [|done]. pose proof (filter_count_le is_some (map f l)) as Hc. unfold count in *. rewrite length_map in Hc. lia. }
  assert (Hs : ∀ x, In x l → unit_interval (im_faithfulness x) ∧ unit_interval (im_answer_relevancy x) ∧
    (∀ p, im_context_precision x = Some p → unit_interval p) ∧ ∀ p, im_citation_accuracy x = Some p → unit_interval p).
  { intros x Hx. destruct (Hl x Hx) as (a & q & e & r & v & c & ->). apply score_scores. }
  unfold aggregate. apply List.Forall_cons; [apply Hm; intros x Hx q [= <-]; by apply Hs|].
  apply List.Forall_cons; [apply Hm; intros x Hx q [= <-]; by apply Hs|].
  apply List.Forall_cons; [apply Hm; intros x Hx; by apply Hs|]. apply List.Forall_cons; [apply Hm; intros x Hx; by apply Hs|constructor].
Qed.

Example scores_of_an_answer :
  let m := score "Reset the SA-400 [c_0123abcd]." "How is the SA-400 reset?" "" ["c_0123abcd"; "c_ffffffff"] ["Reset the SA-400 at the panel."] ["c_0123abcd"] in
  im_citations m = ["c_0123abcd"] ∧ im_context_precision m = Some (5000 # 10000)%Q ∧ im_faithfulness m = (6667 # 10000)%Q.
Proof. vm_compute. split; [reflexivity|split; reflexivity]. Qed.
