(* ===== verification/Gate.v ===== *)
(** The evaluation gate: running a golden set and promoting a run
    ([platform_core/gates/runner.py], [platform_core/gates/promotion.py], and the routes of
    [platform_core/api/routes/eval.py] over them).

    The retriever, the answerer, the judge and the evidence lookup are arguments of [run], as
    in the code: computations over the database and a world [W].  A rate is an exact
    rational rounded to four digits; the code's floats compare as it does except where two
    rates differ by exactly a tolerance.  [elapsed] is what the clock measured; the texts of
    the reasons and the printing of a float are parameters. *)
From S2P Require Import Prelude Identity Json Text Db Leases AuditTrail Capabilities Outbox Metrics Datasets.

(** * Runs *)

Record ItemOutcome := mkOutcome {
  oc_item : string;
  oc_question : string;
  oc_must_cite : list string;
  oc_retrieved : list string;
  oc_recall : option Q;
  oc_passed : option bool;
  oc_answer : string;
  oc_evidence_found : list string;
  oc_reason : string;
  oc_error : string;
  oc_metrics : option item_metrics;
  oc_fix_surface : option string;
  oc_judge_unavailable : bool
}.

Record EvalRun := mkRunOf {
  rn_id : uuid;
  rn_dataset_sha : string;
  rn_code_rev : string;
  rn_model_id : string;
  rn_cassette_sha : option string;
  rn_answer_pass_rate : option Q;
  rn_retrieval_recall : option Q;
  rn_items_run : Z;
  rn_items_scoreable : Z;
  rn_outcomes : list ItemOutcome;
  rn_elapsed_s : Q;
  rn_quality : list (string * (option Q * Z));
  rn_judge_model : option string;
  rn_judge_unavailable : Z;
  rn_items_excluded : Z
}.

Record Verdict := mkVerdictBy {
  v_passed : bool;
  v_reason : string;
  v_fix_surface : string;
  v_judge_unavailable : bool
}.

(** The settings a run reads. *)
Record runner_settings := mkRunnerSettings {
  release : string;
  llm_model_cheap : string;
  llm_model_judge : string
}.

Definition class_and_text (e : exn) : string := exn_class e +:+ ": " +:+ exn_str e.

(** [len(set(must_cite) & set(retrieved)) / len(set(must_cite))]. *)
Definition recall_of (must_cite retrieved : list string) : option Q :=
  match must_cite with
  | [] => None
  | _ => Some (inject_Z (size_Z (list_to_set must_cite ∩ list_to_set retrieved)) / inject_Z (size_Z (list_to_set must_cite)))%Q
  end.

(** [sorted(wanted & got)]. *)
Definition found_evidence (must_cite retrieved : list string) : list string :=
  order_by String.leb (elements (list_to_set must_cite ∩ list_to_set retrieved : gset string)).

(** A reviewer judged the item's evidence unusable. *)
Definition excluded (labels : list eval_item_label) (x : EvalItem) : bool :=
  match label_of labels (it_id x) with Some l => negb (blank (coalesce (il_unusable_reason l) "")) | None => false end.

Definition failed_retrieval (x : EvalItem) (e : exn) : ItemOutcome :=
  mkOutcome (it_id x) (it_question x) (it_must_cite x) [] (if cites x then Some 0%Q else None) (Some false) "" [] "" (class_and_text e)
    None None false.

Definition scored (o : ItemOutcome) : bool := is_some (oc_recall o).

Definition judged (o : ItemOutcome) : bool := is_some (oc_passed o) && negb (oc_judge_unavailable o).

Definition passed (o : ItemOutcome) : bool := match oc_passed o with Some b => b | None => false end.

Definition mean_recall (l : list ItemOutcome) : option Q := (mean (map oc_recall l)).1.

Definition pass_rate_of (l : list ItemOutcome) : option Q :=
  match List.filter judged l with
  | [] => None
  | j => Some (share (count (List.filter passed j)) (count j))
  end.

(** What [varchar(64)], [text] and [jsonb] accept. *)
Definition outcome_storable (o : ItemOutcome) : bool :=
  (str_len (oc_item o) <=? 64) && forallb no_nul [oc_item o; oc_question o; oc_answer o; oc_reason o; oc_error o; coalesce (oc_fix_surface o) ""]
  && forallb no_nul (oc_must_cite o) && forallb no_nul (oc_retrieved o).

Definition result_row (t r : uuid) (o : ItemOutcome) : eval_result :=
  mkEvalResult t r (oc_item o) (oc_question o) (oc_passed o) (oc_must_cite o) (oc_retrieved o) (oc_recall o) (oc_answer o)
    (oc_evidence_found o) (oc_reason o) (oc_error o) (oc_fix_surface o) (oc_judge_unavailable o).

Definition insert_result (x : eval_result) : M db unit :=
  d <- get ;;
  guard (negb (existsb (fun y => N.eqb (vr_eval_run y) (vr_eval_run x) && String.eqb (vr_item y) (vr_item x)) (eval_results d)))
    (IntegrityError "eval_result_run_item_uniq") ;;
  sql_insert x.

Definition round2 (q : Q) : Q := (round_half_even (q * inject_Z 100) # 100)%Q.

Section runner.
Context {W : Type}.
Notation S := (db * W)%type.
Variable st : runner_settings.
Variable retrieve : RequestContext → string → string → Z → M S (list string).
Variable answer : option (RequestContext → string → EvalItem → list string → M S string).
Variable judge : option (EvalItem → string → list string → M S Verdict).
Variable evidence : option (list string → M S (gmap string string)).

(** [try: ... except RunCancelled: raise except Exception as exc: ...]. *)
Definition attempt {A} (m : M S A) : M S (A + exn) :=
  try_except (a <- m ;; ret (inl a)) (fun e => match e with RunCancelled => None | _ => Some (ret (inr e)) end).

(** The answer and the error of answering. *)
Definition answer_item (ctx : RequestContext) (c : string) (x : EvalItem) (retrieved : list string) : M S (string * string) :=
  match answer with
  | None => ret ("", "")
  | Some f =>
      a <- attempt (f ctx c x retrieved) ;;
      ret (match a with inl text => (text, "") | inr e => ("", "answerer: " +:+ class_and_text e) end)
  end.

Definition unjudged : option bool * string * option string * bool := (None, "", None, false).

Definition judge_item (x : EvalItem) (actual : string) (retrieved : list string) : M S (option bool * string * option string * bool) :=
  match judge, answer with
  | Some f, Some _ =>
      v <- attempt (f x actual retrieved) ;;
      ret (match v with
           | inl v => (Some (v_passed v), v_reason v, Some (v_fix_surface v), v_judge_unavailable v)
           | inr e => (Some false, "judge error: " +:+ exn_class e, None, true)
           end)
  | _, _ => ret unjudged
  end.

Definition measure_item (x : EvalItem) (actual : string) (retrieved : list string) : M S (option item_metrics) :=
  match evidence, answer with
  | Some f, Some _ =>
      texts <- f retrieved ;;
      ret (Some (score actual (it_question x) (it_expected_answer x) retrieved (omap (fun c => texts !! c) retrieved) (it_must_cite x)))
  | _, _ => ret None
  end.

Definition score_item (ctx : RequestContext) (c : string) (top_k : Z) (x : EvalItem) : M S ItemOutcome :=
  got <- attempt (retrieve ctx c (it_question x) top_k) ;;
  match got with
  | inr e => ret (failed_retrieval x e)
  | inl retrieved =>
      answered <- answer_item ctx c x retrieved ;;
      verdict <- judge_item x answered.1 retrieved ;;
      metrics <- measure_item x answered.1 retrieved ;;
      let '(passed, reason, fix_surface, judge_down) := verdict in
      ret (mkOutcome (it_id x) (it_question x) (it_must_cite x) retrieved (recall_of (it_must_cite x) retrieved) passed answered.1
             (found_evidence (it_must_cite x) retrieved) reason answered.2 metrics fix_surface judge_down)
  end.

(** The outcomes, and how many items were excluded. *)
Fixpoint score_all (ctx : RequestContext) (c : string) (top_k : Z) (labels : list eval_item_label) (items : list EvalItem)
    : M S (list ItemOutcome * Z) :=
  match items with
  | [] => ret ([], 0)
  | x :: items' =>
      on_db (cancellation_point ctx) ;;
      if excluded labels x then
        rest <- score_all ctx c top_k labels items' ;;
        ret (rest.1, rest.2 + 1)
      else
        o <- score_item ctx c top_k x ;;
        rest <- score_all ctx c top_k labels items' ;;
        ret (o :: rest.1, rest.2)
  end.

Definition new_run (now : timestamp) (fresh : uuid) (ctx : RequestContext) (ds : Dataset) (cassette_sha : option string) : eval_run :=
  mkEvalRun fresh (tenant_of ctx) (ds_id ds) (ds_sha ds) (release st) (llm_model_cheap st) cassette_sha ev_running None None 0 0 None now None.

Definition start_eval (now : timestamp) (fresh : uuid) (ctx : RequestContext) (ds : Dataset) (cassette_sha : option string) : M db unit :=
  d <- get ;;
  guard (negb (existsb (fun r => N.eqb (er_id r) fresh) (eval_runs d))) (IntegrityError "eval_run_pkey") ;;
  guard (existsb (fun x => N.eqb (ed_id x) (ds_id ds)) (datasets d)) (IntegrityError "eval_run_dataset_id_fkey") ;;
  sql_insert (new_run now fresh ctx ds cassette_sha).

Definition metrics_of (ctx : RequestContext) (elapsed : Q) (top_k : Z) (outcomes : list ItemOutcome) (n_excluded : Z) : eval_metrics :=
  mkEvalMetrics (round2 elapsed) (count (List.filter judged outcomes)) n_excluded (count (List.filter oc_judge_unavailable outcomes))
    (if is_some judge then Some (llm_model_judge st) else None) (aggregate (omap oc_metrics outcomes)) top_k.

Definition complete (now : timestamp) (outcomes : list ItemOutcome) (m : eval_metrics) (r : eval_run) : eval_run :=
  r <| er_status := ev_completed |> <| er_finished_at := Some now |> <| er_answer_pass_rate := pass_rate_of outcomes |>
    <| er_retrieval_recall := mean_recall outcomes |> <| er_items_run := count outcomes |>
    <| er_items_scoreable := count (List.filter scored outcomes) |> <| er_metrics := Some m |>.

Definition finish_eval (now : timestamp) (ctx : RequestContext) (i : uuid) (outcomes : list ItemOutcome) (m : eval_metrics) : M db unit :=
  for_each outcomes (fun o =>
    guard (outcome_storable o) (OtherError "DataError") ;;
    insert_result (result_row (tenant_of ctx) i o)) ;;
  sql_update (visible (tenant_of ctx) (fun r => (er_id r =? i)%N)) (complete now outcomes m) ;;
  ret tt.

(** [now] and [later] are the times of the two transactions. *)
Definition run (now later : timestamp) (fresh : uuid) (elapsed : Q) (ctx : RequestContext) (ds : Dataset) (labels : list eval_item_label)
    (top_k : Z) (cassette_sha : option string) : M S EvalRun :=
  on_db (tenant_session (start_eval now fresh ctx ds cassette_sha)) ;;
  scores <- score_all ctx (ds_collection ds) top_k labels (ds_items ds) ;;
  let '(outcomes, n_excluded) := scores in
  let m := metrics_of ctx elapsed top_k outcomes n_excluded in
  on_db (tenant_session (finish_eval later ctx fresh outcomes m)) ;;
  ret (mkRunOf fresh (ds_sha ds) (release st) (llm_model_cheap st) cassette_sha (pass_rate_of outcomes) (mean_recall outcomes)
         (count outcomes) (count (List.filter scored outcomes)) outcomes elapsed (em_quality m) (em_judge_model m) (em_judge_unavailable m) n_excluded).

End runner.

(** Rebuilding a run that was stored. *)
Definition outcome_of (x : eval_result) : ItemOutcome :=
  mkOutcome (vr_item x) (vr_question x) (vr_must_cite x) (vr_retrieved x) (vr_recall x) (vr_passed x) (vr_answer x) (vr_evidence_found x)
    (vr_reason x) (vr_error x) None None false.

Definition item_le (x y : eval_result) : bool := String.leb (vr_item x) (vr_item y).

Definition load_run (ctx : RequestContext) (i : uuid) (with_outcomes : bool) : M db (option EvalRun) :=
  tenant_session (
    found <- sql_select (visible (tenant_of ctx) (fun r => (er_id r =? i)%N)) ;;
    row <- one_or_none found ;;
    match row with
    | None => ret None
    | Some r =>
        outcomes <- (if with_outcomes then
                       results <- sql_select (visible (tenant_of ctx) (fun x => (vr_eval_run x =? i)%N)) ;;
                       ret (map outcome_of (order_by item_le results))
                     else ret []) ;;
        ret (Some (mkRunOf (er_id r) (er_dataset_sha r) (er_code_rev r) (er_model_id r) (er_cassette_sha r) (er_answer_pass_rate r)
                     (er_retrieval_recall r) (er_items_run r) (er_items_scoreable r) outcomes
                     (match er_metrics r with Some m => em_elapsed_s m | None => 0%Q end) [] None 0 0))
    end).

(** * The promotion decision *)

Definition DEFAULT_RECALL_TOLERANCE : Q := 2 # 100.
Definition DEFAULT_PASS_RATE_TOLERANCE : Q := 2 # 100.

Inductive gate_reason :=
| NoItems
| Unscoreable
| NoBaseline
| OtherDataset (baseline candidate : string)
| SmallerSample (candidate baseline : Z)
| NoLongerMeasured (metric : string) (baseline : Q)
| Fell (metric : string) (delta baseline candidate tolerance : Q)
| NoRegression
| Forced.

Record GateDecision := mkDecision {
  gd_promoted : bool;
  gd_reasons : list gate_reason;
  gd_candidate : EvalRun;
  gd_baseline : option eval_run;
  gd_deltas : list (string * Q)
}.

Definition baseline_named (n : string) (b : eval_baseline) : bool := String.eqb (eb_dataset_name b) n.

(** [FROM eval_baseline b JOIN eval_run r ON r.id = b.eval_run_id WHERE b.dataset_name = n]. *)
Definition baseline_of (t : uuid) (n : string) (d : db) : list eval_run :=
  flat_map (fun b => select_where (visible t (fun r => (er_id r =? eb_eval_run b)%N)) (eval_runs d))
    (select_where (visible t (baseline_named n)) (baselines d)).

Definition baseline_row (ctx : RequestContext) (n : string) : M db (option eval_run) :=
  tenant_session (rows <- gets (baseline_of (tenant_of ctx) n) ;; one_or_none rows).

(** One round of the loop over the metrics: the reasons and the deltas it adds. *)
Definition compare (metric : string) (tolerance : Q) (base cand : option Q) : list gate_reason * list (string * Q) :=
  match base, cand with
  | None, _ => ([], [])
  | Some b, None => ([NoLongerMeasured metric b], [])
  | Some b, Some c =>
      let delta := (c - b)%Q in
      (if Qltb delta (- tolerance) then [Fell metric delta b c tolerance] else [], [(metric, round4 delta)])
  end.

Record tolerances := mkTolerances { recall_tolerance : Q; pass_rate_tolerance : Q }.

Definition default_tolerances : tolerances := mkTolerances DEFAULT_RECALL_TOLERANCE DEFAULT_PASS_RATE_TOLERANCE.

(** The checks of the candidate alone. *)
Definition own_reasons (c : EvalRun) : list gate_reason :=
  (if rn_items_run c =? 0 then [NoItems] else [])
  ++ (if is_none (rn_retrieval_recall c) && is_none (rn_answer_pass_rate c) then [Unscoreable] else []).

Definition decide_against (th : tolerances) (c : EvalRun) (b : eval_run) : GateDecision :=
  if negb (String.eqb (er_dataset_sha b) (rn_dataset_sha c)) then
    mkDecision false (own_reasons c ++ [OtherDataset (er_dataset_sha b) (rn_dataset_sha c)]) c (Some b) []
  else
    let recall := compare "retrieval_recall" (recall_tolerance th) (er_retrieval_recall b) (rn_retrieval_recall c) in
    let pass := compare "answer_pass_rate" (pass_rate_tolerance th) (er_answer_pass_rate b) (rn_answer_pass_rate c) in
    let reasons := own_reasons c
      ++ (if rn_items_scoreable c <? er_items_scoreable b then [SmallerSample (rn_items_scoreable c) (er_items_scoreable b)] else [])
      ++ recall.1 ++ pass.1 in
    mkDecision (match reasons with [] => true | _ => false end) (match reasons with [] => [NoRegression] | _ => reasons end) c (Some b)
      (recall.2 ++ pass.2).

Definition evaluate (th : tolerances) (ctx : RequestContext) (c : EvalRun) (n : string) : M db GateDecision :=
  baseline <- baseline_row ctx n ;;
  match baseline with
  | None =>
      match own_reasons c with
      | [] => ret (mkDecision true [NoBaseline] c None [])
      | reasons => ret (mkDecision false reasons c None [])
      end
  | Some b => ret (decide_against th c b)
  end.

Section promotion.
Context `{AuditEnv}.
(** The reads of the grants may fail; [Capabilities.v]. *)
Variable db_fault : option exn.
Variables (explain : gate_reason → string) (repr_float : Q → string).

Definition opt_float (o : option Q) : json := match o with Some q => JFloat (repr_float q) | None => JNull end.

Definition opt_text (o : option string) : json := match o with Some s => JStr s | None => JNull end.

(** [EvalRun.summary]. *)
Definition summary (c : EvalRun) : json :=
  JObj [("run_id", JStr (uuid_str (rn_id c))); ("dataset_sha", JStr (str_take 12 (rn_dataset_sha c))); ("code_rev", JStr (rn_code_rev c));
        ("model_id", JStr (rn_model_id c)); ("judge_model", opt_text (rn_judge_model c)); ("answer_pass_rate", opt_float (rn_answer_pass_rate c));
        ("retrieval_recall", opt_float (rn_retrieval_recall c)); ("items_run", JInt (rn_items_run c)); ("items_scoreable", JInt (rn_items_scoreable c));
        ("items_excluded", JInt (rn_items_excluded c)); ("judge_unavailable", JInt (rn_judge_unavailable c));
        ("quality", JObj (flat_map (fun k => [(k.1, opt_float k.2.1); (k.1 +:+ "_n", JInt k.2.2)]) (rn_quality c)));
        ("elapsed_s", JFloat (repr_float (round2 (rn_elapsed_s c))))].

Definition deltas_json (l : list (string * Q)) : json := JObj (map (fun k => (k.1, JFloat (repr_float k.2))) l).

Definition reasons_json (l : list gate_reason) : json := JArr (map (fun r => JStr (explain r)) l).

Definition set_baseline (now : timestamp) (ctx : RequestContext) (i : uuid) (note : option string) (b : eval_baseline) : eval_baseline :=
  b <| eb_eval_run := i |> <| eb_promoted_by := Some (principal_uuid (principal ctx)) |> <| eb_promoted_at := now |> <| eb_note := note |>.

(** [INSERT ... ON CONFLICT (tenant_id, dataset_name) DO UPDATE]. *)
Definition upsert_baseline (now : timestamp) (ctx : RequestContext) (n : string) (i : uuid) (note : option string) : M db unit :=
  guard (name_ok n && no_nul (coalesce note "")) (OtherError "DataError") ;;
  d <- get ;;
  guard (existsb (fun r => N.eqb (er_id r) i) (eval_runs d)) (IntegrityError "eval_baseline_eval_run_id_fkey") ;;
  updated <- sql_update (visible (tenant_of ctx) (baseline_named n)) (set_baseline now ctx i note) ;;
  match updated with
  | [] => sql_insert (mkEvalBaseline (tenant_of ctx) n i (Some (principal_uuid (principal ctx))) now note)
  | _ => ret tt
  end.

(** [evaluate] reads the baseline in a transaction of its own: [between] is what others
    commit before the one that writes it. *)
Definition promote (th : tolerances) (now : timestamp) (between : db → db) (ctx : RequestContext) (c : EvalRun) (n : string) (note : option string)
    (force : bool) : M db GateDecision :=
  require db_fault now (principal ctx) RELEASE_PROMOTE None None ;;
  decision <- evaluate th ctx c n ;;
  modify between ;;
  if negb (gd_promoted decision) && negb force then
    audit_record now ctx "eval.promotion.blocked" DENIED "eval_dataset" n
      (JObj [("reasons", reasons_json (gd_reasons decision)); ("deltas", deltas_json (gd_deltas decision)); ("candidate", summary c)]) false ;;
    ret decision
  else
    let overridden := force && negb (gd_promoted decision) in
    tenant_session (
      upsert_baseline now ctx n (rn_id c) (if truthy note then note else if force then Some "forced" else None) ;;
      audit_in_session now (tenant_of ctx) ctx (if overridden then "eval.promotion.forced" else "eval.promotion.accepted") SUCCEEDED "eval_dataset" n
        (JObj [("run_id", JStr (uuid_str (rn_id c))); ("deltas", deltas_json (gd_deltas decision));
               ("overridden_reasons", reasons_json (if overridden then gd_reasons decision else [])); ("note", opt_text note)])) ;;
    ret (mkDecision true (gd_reasons decision ++ (if force then [Forced] else [])) (gd_candidate decision) (gd_baseline decision) (gd_deltas decision)).

(** [DEFAULT note max_length=1000, dataset 1..128]. *)
Definition valid_promotion (n : string) (note : option string) : bool :=
  (1 <=? str_len n) && (str_len n <=? 128) && (str_len (coalesce note "") <=? 1000).

(** [POST /api/eval/runs/{run_id}/promote]. *)
Definition promote_run (now : timestamp) (between : db → db) (ctx : RequestContext) (i : uuid) (n : string) (note : option string) (force : bool)
    : M db GateDecision :=
  guard (valid_promotion n note) (HTTPException 422) ;;
  completed <- load_run ctx i false ;;
  match completed with
  | None => raise (HTTPException 404)
  | Some c => promote default_tolerances now between ctx c n note force
  end.

(** [GET /api/eval/runs/{run_id}]: the run, the name it was scored under, and what the gate
    would say now. *)
Definition get_run (ctx : RequestContext) (i : uuid) : M db (EvalRun * option (string * GateDecision)) :=
  completed <- load_run ctx i true ;;
  match completed with
  | None => raise (HTTPException 404)
  | Some c =>
      name <- tenant_session (
        names <- gets (fun d => flat_map (fun r => map ed_name (select_where (visible (tenant_of ctx) (fun x => (ed_id x =? er_dataset r)%N)) (datasets d)))
                                  (select_where (visible (tenant_of ctx) (fun r => (er_id r =? i)%N)) (eval_runs d))) ;;
        one_or_none names) ;;
      match name with
      | Some n =>
          if nonempty n then decision <- evaluate default_tolerances ctx c n ;; ret (c, Some (n, decision)) else ret (c, None)
      | None => ret (c, None)
      end
  end.

(** [history]: the runs of a name, newest first, and which of them is the baseline. *)
Definition started_later (x y : eval_run * bool) : bool := er_started_at y.1 <=? er_started_at x.1.

Definition history (ctx : RequestContext) (n : string) (limit : Z) : M db (list (eval_run * bool)) :=
  tenant_session (
    rows <- gets (fun d =>
      flat_map (fun r =>
        flat_map (fun x =>
          match select_where (visible (tenant_of ctx) (fun b => baseline_named (ed_name x) b && (eb_tenant b =? er_tenant r)%N)) (baselines d) with
          | [] => [(r, false)]
          | bs => map (fun b => (r, N.eqb (eb_eval_run b) (er_id r))) bs
          end) (select_where (visible (tenant_of ctx) (fun x => (ed_id x =? er_dataset r)%N && of_name n x)) (datasets d)))
        (select_where (visible (tenant_of ctx) (fun _ => true)) (eval_runs d))) ;;
    ret (firstn (Z.to_nat limit) (order_by started_later rows))).

(** [GET /api/eval/datasets/{name}]: the latest version, its labels and their summary, and
    the runs of the name. *)
Definition get_dataset (ctx : RequestContext) (n : string) : M db (Dataset * list eval_item_label * review_summary * list (eval_run * bool)) :=
  found <- load ctx n None ;;
  match found with
  | None => raise (HTTPException 404)
  | Some ds =>
      labels <- for_dataset ctx n ;;
      labels' <- for_dataset ctx n ;;
      runs <- history ctx n 20 ;;
      ret (ds, labels, summarise (ds_items ds) labels', runs)
  end.

(** The names of the sets in order, each once: [DISTINCT ON (d.name) ... ORDER BY d.name]. *)
Definition names_in_order (l : list eval_dataset) : list string := order_by String.leb (remove_dups (map ed_name l)).

(** The run of the name that started last. *)
Definition latest_run (runs : list eval_run) (sets : list eval_dataset) : option eval_run :=
  head (order_by (fun x y => er_started_at y <=? er_started_at x)
          (List.filter (fun r => existsb (fun x => N.eqb (ed_id x) (er_dataset r)) sets) runs)).

(** [GET /api/eval]: each set's latest version, its baseline, its last run and whether that
    run is the baseline. *)
Definition list_datasets (ctx : RequestContext) : M db (list (eval_dataset * option eval_baseline * option (eval_run * bool))) :=
  tenant_session (
    sets <- sql_select (visible (tenant_of ctx) (fun _ => true)) ;;
    pointers <- sql_select (visible (tenant_of ctx) (fun _ => true)) ;;
    runs <- sql_select (visible (tenant_of ctx) (fun _ => true)) ;;
    ret (omap (fun n =>
      match order_by newest (List.filter (of_name n) sets) with
      | [] => None
      | x :: _ =>
          let baseline := List.find (baseline_named n) pointers in
          let is_baseline r := match baseline with Some b => N.eqb (er_id r) (eb_eval_run b) | None => false end in
          Some (x, baseline, option_map (fun r => (r, is_baseline r)) (latest_run runs (List.filter (of_name n) sets)))
      end) (names_in_order sets))).

(** [POST /api/eval/run]: queue an evaluation of a version. *)
Definition start_run (now : timestamp) (fresh : uuid) (serial : Z) (between : db → db) (release : string) (trace : json) (ctx : RequestContext)
    (n : string) (sha : option string) (top_k : Z) : M db (uuid * bool * string) :=
  guard ((1 <=? str_len n) && (str_len n <=? 128) && (str_len (coalesce sha "") <=? 64) && (1 <=? top_k) && (top_k <=? 50)) (HTTPException 422) ;;
  found <- load ctx n sha ;;
  match found with
  | None => raise (HTTPException 404)
  | Some ds =>
      queued <- tenant_session (enqueue_run now fresh serial between release trace ctx "eval"
        (JObj [("dataset", JStr n); ("content_sha256", JStr (ds_sha ds)); ("top_k", JInt top_k)]) (idempotency_key ctx) 3) ;;
      ret (queued.1, queued.2, ds_sha ds)
  end.

End promotion.

(** * Baselines *)

Definition baseline_key (b : eval_baseline) : uuid * string := (eb_tenant b, eb_dataset_name b).

Record gate_wf (d : db) : Prop := {
  gw_names : List.NoDup (map baseline_key (baselines d));
  gw_runs : List.NoDup (map er_id (eval_runs d));
  gw_owned : Forall (fun b => ∃ r, In r (eval_runs d) ∧ er_id r = eb_eval_run b ∧ er_tenant r = eb_tenant b) (baselines d);
  gw_measured : Forall (fun r => er_items_run r ≠ 0 → er_status r = ev_completed) (eval_runs d)
}.

(** A metric the baseline has is measured again, and has not fallen further than the
    tolerance. *)
Definition metric_held (tolerance : Q) (base cand : option Q) : Prop :=
  ∀ b, base = Some b → ∃ c, cand = Some c ∧ (b - tolerance <= c)%Q.

(** A run that scored something. *)
Definition worthy (r : eval_run) : Prop := er_items_run r ≠ 0 ∧ (er_retrieval_recall r ≠ None ∨ er_answer_pass_rate r ≠ None).

(** [r'] may take the place of [r] without force. *)
Definition no_worse (r r' : eval_run) : Prop :=
  er_dataset_sha r' = er_dataset_sha r ∧ er_items_scoreable r <= er_items_scoreable r' ∧
  metric_held DEFAULT_RECALL_TOLERANCE (er_retrieval_recall r) (er_retrieval_recall r') ∧
  metric_held DEFAULT_PASS_RATE_TOLERANCE (er_answer_pass_rate r) (er_answer_pass_rate r') ∧ worthy r'.

(** The run as it was loaded. *)
Definition loaded (r : eval_run) (c : EvalRun) : Prop :=
  rn_id c = er_id r ∧ rn_dataset_sha c = er_dataset_sha r ∧ rn_answer_pass_rate c = er_answer_pass_rate r ∧
  rn_retrieval_recall c = er_retrieval_recall r ∧ rn_items_run c = er_items_run r ∧ rn_items_scoreable c = er_items_scoreable r.

Lemma load_run_spec ctx i o d r d' : load_run ctx i o d = (r, d') →
  d' = d ∧ ∀ c, r = Ok (Some c) → ∃ x, In x (eval_runs d) ∧ er_id x = i ∧ er_tenant x = tenant_of ctx ∧ loaded x c.
Proof.
  unfold load_run, tenant_session, tx. unfold bind at 1, sql_select, gets. cbn [rows table_eval_runs].
  destruct (select_where _ (eval_runs d)) as [|x [|y l]] eqn:E; cbn [one_or_none].
  - by intros [= <- <-].
  - assert (Hx : In x (select_where (visible (tenant_of ctx) (fun r => (er_id r =? i)%N)) (eval_runs d))) by (rewrite E; by left).
    apply select_visible in Hx as (Ht & Hin & Hi). apply N.eqb_eq in Hi.
    destruct o; (intros [= <- <-]; split; [done|]; intros c [= <-]; exists x; by repeat split).
  - by intros [= <- <-].
Qed.

Section lookup.
Variable d : db.
Hypothesis W : gate_wf d.

Lemma baseline_of_intro t n b r : In b (baselines d) → baseline_key b = (t, n) → In r (eval_runs d) → er_id r = eb_eval_run b → er_tenant r = t →
  baseline_of t n d = [r].
Proof using W.
  intros Hb [= Ht Hn] Hr Hi Htr. unfold baseline_of.
  rewrite (select_by_key baseline_key _ _ b); [|apply W|done| |].
  - cbn [flat_map]. rewrite app_nil_r. apply (select_by_key er_id); [apply W|done| |].
    + unfold visible, row_tenant, tenant_eval_runs. by rewrite Htr, Hi, !N.eqb_refl.
    + intros y _ Hy. apply andb_true_iff in Hy as [_ Hy]. apply N.eqb_eq in Hy. congruence.
  - unfold visible, row_tenant, tenant_baselines, baseline_named. by rewrite Ht, Hn, N.eqb_refl, String.eqb_refl.
  - intros y _ Hy. unfold visible, row_tenant, tenant_baselines, baseline_named in Hy. bool_to_prop. unfold baseline_key. congruence.
Qed.

Lemma baseline_of_spec t n :
  baseline_of t n d = [] ∧ (∀ b, In b (baselines d) → baseline_key b ≠ (t, n))
  ∨ ∃ b r, In b (baselines d) ∧ baseline_key b = (t, n) ∧ In r (eval_runs d) ∧ er_id r = eb_eval_run b ∧ er_tenant r = t ∧ baseline_of t n d = [r].
Proof using W.
  destruct (select_where (visible t (baseline_named n)) (baselines d)) as [|b l] eqn:E.
  - left. split; [unfold baseline_of; by rewrite E|]. intros b Hb [= Ht Hn]. pose proof (proj1 (select_where_nil _ _) E b Hb) as H.
    unfold visible, row_tenant, tenant_baselines, baseline_named in H. by rewrite Ht, Hn, N.eqb_refl, String.eqb_refl in H.
  - right. assert (Hb : In b (select_where (visible t (baseline_named n)) (baselines d))) by (rewrite E; by left).
    apply select_visible in Hb as (Ht & Hb & Hn). apply String.eqb_eq in Hn. pose proof (gw_owned d W) as Ho. rewrite List.Forall_forall in Ho.
    destruct (Ho b Hb) as (r & Hr & Hi & Htr). exists b, r.
    assert (Hk : baseline_key b = (t, n)) by (unfold baseline_key; f_equal; [exact Ht|exact Hn]).
    assert (Htr' : er_tenant r = t) by (rewrite Htr; exact Ht). split; [done|split; [done|split; [done|split; [done|split; [done|]]]]].
    by apply (baseline_of_intro t n b r).
Qed.

(** What [evaluate] finds: with no baseline the checks of the candidate decide. *)
Lemma evaluate_run th ctx c n : evaluate th ctx c n d =
  (Ok (match baseline_of (tenant_of ctx) n d with
       | [] => match own_reasons c with [] => mkDecision true [NoBaseline] c None [] | l => mkDecision false l c None [] end
       | b :: _ => decide_against th c b
       end), d).
Proof using W.
  unfold evaluate, baseline_row, tenant_session, tx, bind, gets.
  destruct (baseline_of_spec (tenant_of ctx) n) as [[E _]|(b & r & _ & _ & _ & _ & _ & E)]; rewrite E; cbn; [|done]. by destruct (own_reasons c).
Qed.

End lookup.

Lemma compare_held metric tolerance base cand : (compare metric tolerance base cand).1 = [] → metric_held tolerance base cand.
Proof.
  intros H b ->. destruct cand as [c|]; [|done]. exists c. split; [done|]. cbn in H. destruct (Qltb _ _) eqn:E; [done|].
  apply Qltb_false in E. apply Qplus_le_l with (-b)%Q. replace (b - tolerance + - b)%Q with (b - tolerance - b)%Q by done.
  apply Qle_trans with (- tolerance)%Q; [|exact E]. ring_simplify. apply Qle_refl.
Qed.

Lemma own_reasons_worthy r c : loaded r c → own_reasons c = [] → worthy r.
Proof.
  intros (_ & _ & Ep & Er & Ei & _). unfold own_reasons, worthy. rewrite Ep, Er, Ei. destruct (er_items_run r =? 0) eqn:E; [done|].
  apply Z.eqb_neq in E. destruct (er_retrieval_recall r), (er_answer_pass_rate r); try done; intros _; (split; [done|]); auto.
Qed.

Lemma decide_promotes b r c : loaded r c → gd_promoted (decide_against default_tolerances c b) = true → no_worse b r.
Proof.
  intros Hl. pose proof Hl as (_ & Es & Ep & Er & _ & En). unfold decide_against. destruct (String.eqb _ _) eqn:E; [|done]. apply String.eqb_eq in E.
  cbn [negb]. cbn zeta. unfold gd_promoted. destruct (_ ++ _) as [|x l] eqn:El; [|done]. intros _.
  apply app_eq_nil in El as [E1 El]. apply app_eq_nil in El as [E2 El]. apply app_eq_nil in El as [E3 E4].
  destruct (_ <? _) eqn:E5; [done|]. apply Z.ltb_ge in E5. rewrite Er in E3. rewrite Ep in E4. rewrite En in E5. rewrite Es in E.
  split; [done|split; [done|split; [by apply compare_held in E3|split; [by apply compare_held in E4|]]]]. by apply (own_reasons_worthy r c).
Qed.

(** * Promotions *)

(** The runs are the same and so is the baseline of every other name. *)
Definition elsewhere_same (t : uuid) (n : string) (d d' : db) : Prop :=
  eval_runs d' = eval_runs d ∧ ∀ t' n', (t', n') ≠ (t, n) → baseline_of t' n' d' = baseline_of t' n' d.

Lemma gate_wf_same d d' : eval_runs d' = eval_runs d → baselines d' = baselines d → gate_wf d → gate_wf d'.
Proof. intros E1 E2 [H1 H2 H3 H4]. constructor; rewrite ?E1, ?E2; done. Qed.

Lemma baseline_of_same d d' : eval_runs d' = eval_runs d → baselines d' = baselines d → ∀ t n, baseline_of t n d' = baseline_of t n d.
Proof. intros E1 E2 t n. unfold baseline_of. by rewrite E1, E2. Qed.

Lemma named_other t n t' n' b : (t', n') ≠ (t, n) → visible t (baseline_named n) b = true → visible t' (baseline_named n') b = false.
Proof.
  intros Hne. unfold visible, row_tenant, tenant_baselines, baseline_named. intros [->%N.eqb_eq ->%String.eqb_eq]%andb_true_iff.
  destruct (N.eqb_spec t t') as [->|]; [|done]. destruct (String.eqb_spec n n') as [->|]; [done|done].
Qed.

Lemma upsert_baseline_run now ctx n r note d d1 :
  gate_wf d → In r (eval_runs d) → er_tenant r = tenant_of ctx → upsert_baseline now ctx n (er_id r) note d = (Ok tt, d1) →
  gate_wf d1 ∧ elsewhere_same (tenant_of ctx) n d d1 ∧ baseline_of (tenant_of ctx) n d1 = [r] ∧
  d1 = d <| baselines := baselines d1 |>.
Proof.
  intros W Hr Ht E. apply bind_ok in E as (u & d2 & E1 & E). unfold guard in E1. destruct (_ && _) in E1; [|done]. injection E1 as _ <-.
  apply bind_ok in E as (x & d2 & E1 & E). injection E1 as <- <-. apply bind_ok in E as (u' & d2 & E1 & E). unfold guard in E1. destruct (existsb _ _) in E1; [|done]. injection E1 as _ <-.
  set (p := visible (tenant_of ctx) (baseline_named n)) in *. set (f := set_baseline now ctx (er_id r) note) in *.
  assert (Hp : ∀ b, p b = true → baseline_key b = (tenant_of ctx, n)).
  { unfold p, visible, baseline_named, baseline_key. intros b [<-%N.eqb_eq <-%String.eqb_eq]%andb_true_iff. done. }
  assert (Hother : ∀ t' n', (t', n') ≠ (tenant_of ctx, n) → ∀ b, p b = true → visible t' (baseline_named n') b = false) by (intros; by eapply named_other).
  apply bind_ok in E as (upd & d2 & E1 & E). unfold sql_update in E1. cbn [rows table_baselines put] in E1. injection E1 as <- <-. destruct (select_where p (baselines d)) as [|b l] eqn:Es.
  - pose proof (proj1 (select_where_nil _ _) Es) as Hn. set (b := mkEvalBaseline (tenant_of ctx) n (er_id r) (Some (principal_uuid (principal ctx))) now note).
    injection E as <-. cbn [rows put table_baselines] in *. rewrite (update_where_id p f) by done.
    assert (W' : gate_wf (d <| baselines := baselines d ++ [b] |>)).
    { destruct W as [H1 H2 H3 H4]. constructor; try done; cbn.
      - rewrite map_app. apply NoDup_snoc; [done|]. intros (y & Hk & Hy)%in_map_iff. specialize (Hn y Hy). injection Hk as Hk1 Hk2.
        unfold p, visible, row_tenant, tenant_baselines, baseline_named in Hn. by rewrite Hk1, Hk2, N.eqb_refl, String.eqb_refl in Hn.
      - apply List.Forall_app. split; [done|]. constructor; [by exists r|constructor]. }
    replace (d <| baselines := baselines d |> <| baselines := baselines d ++ [b] |>) with (d <| baselines := baselines d ++ [b] |>) by by destruct d.
    split; [done|split; [|split; [|by destruct d]]].
    + split; [done|]. intros t' n' Hne. unfold baseline_of.
      change (baselines (d <| baselines := baselines d ++ [b] |>)) with (baselines d ++ [b]). rewrite select_where_app.
      assert (Hb : select_where (visible t' (baseline_named n')) [b] = []); [|by rewrite Hb, app_nil_r].
      apply select_where_nil. intros y [<-|[]]. apply (Hother t' n' Hne b). unfold p, visible, row_tenant, tenant_baselines, baseline_named. cbn. by rewrite N.eqb_refl, String.eqb_refl.
    + apply (baseline_of_intro _ W' _ _ b); [cbn; apply in_app_iff; right; by left|done..].
  - injection E as <-. assert (W' : gate_wf (d <| baselines := update_where p f (baselines d) |>)).
    { destruct W as [H1 H2 H3 H4]. constructor; try done; cbn.
      - rewrite map_update_where; done.
      - apply Forall_update_where; [|done]. intros y _ Hy. exists r. split; [done|split; [done|]]. apply Hp in Hy. injection Hy as Hy _. cbn. by rewrite Ht, Hy. }
    split; [done|split; [|split; [|by destruct d]]].
    + split; [done|]. intros t' n' Hne. unfold baseline_of.
      change (baselines (d <| baselines := update_where p f (baselines d) |>)) with (update_where p f (baselines d)). rewrite select_update_same; [done|]. intros y Hy. split; [by apply (Hother t' n')|].
      change (visible t' (baseline_named n') (f y)) with (visible t' (baseline_named n') y). by apply (Hother t' n').
    + assert (Hb : In b (select_where p (baselines d))) by (rewrite Es; by left). apply filter_In in Hb as [Hb Hpb].
      apply (baseline_of_intro _ W' _ _ (f b)); [cbn; apply in_update_where; exists b; by rewrite Hpb|by apply Hp|done..].
Qed.

Section promoting.
Context `{AuditEnv}.
Variable db_fault : option exn.
Variables (explain : gate_reason → string) (repr_float : Q → string).
Notation promotion := (promote_run db_fault explain repr_float).

(** What the gate says of a run against the baseline it found. *)
Definition verdict_on (c : EvalRun) (baseline : list eval_run) : GateDecision :=
  match baseline with
  | [] => match own_reasons c with [] => mkDecision true [NoBaseline] c None [] | l => mkDecision false l c None [] end
  | b :: _ => decide_against default_tolerances c b
  end.

(** Others may have completed runs and moved baselines, not deleted a run. *)
Definition runs_kept (d d2 : db) : Prop :=
  ∀ r, In r (eval_runs d) → ∃ r2, In r2 (eval_runs d2) ∧ er_id r2 = er_id r ∧ er_tenant r2 = er_tenant r ∧ (er_status r = ev_completed → r2 = r).

Lemma promote_run_cases now between ctx i n note force d res d1 : gate_wf d → gate_wf (between d) → runs_kept d (between d) →
  promotion now between ctx i n note force d = (res, d1) →
  (∃ e, res = Raise e) ∧ (d1 = d ∨ d1 = between d)
  ∨ permitted db_fault now (principal ctx) RELEASE_PROMOTE None None d ∧
    ∃ r c g r2, res = Ok g ∧ In r (eval_runs d) ∧ er_id r = i ∧ er_tenant r = tenant_of ctx ∧ loaded r c ∧
      er_id r2 = i ∧ (er_status r = ev_completed → r2 = r) ∧
      let v := verdict_on c (baseline_of (tenant_of ctx) n d) in
      (gd_promoted v = false ∧ force = false ∧ g = v ∧ only_audit (between d) d1
       ∨ (gd_promoted v = true ∨ force = true) ∧ gd_promoted g = true ∧ baseline_of (tenant_of ctx) n d1 = [r2] ∧
         elsewhere_same (tenant_of ctx) n (between d) d1 ∧ gate_wf d1 ∧
         event_added ctx (if gd_promoted v then "eval.promotion.accepted" else "eval.promotion.forced") SUCCEEDED "eval_dataset" n (between d) d1).
Proof.
  intros W Wb Hk E. apply bind_cases in E as [(e & E & ->)|(u & d2 & E1 & E)].
  { left. split; [by exists e|]. unfold guard in E. destruct (valid_promotion n note); [done|]. injection E as _ <-. by left. }
  unfold guard in E1. destruct (valid_promotion n note); [|done]. injection E1 as _ <-.
  apply bind_cases in E as [(e & E & ->)|(o & d2 & E1 & E)]; [left; split; [by exists e|]; left; by apply load_run_spec in E as [-> _]|].
  apply load_run_spec in E1 as [-> Hl]. destruct o as [c|]; [|injection E as <- <-; left; split; [by eexists|by left]].
  destruct (Hl c eq_refl) as (r & Hr & Hi & Ht & Hlc). clear Hl. unfold promote in E.
  destruct (require_eq db_fault now (principal ctx) RELEASE_PROMOTE None None d) as [[Hp Eq]|[_ (why & Eq)]].
  2: { left. unfold bind in E. rewrite Eq in E. injection E as <- <-. split; [by eexists|by left]. }
  rewrite (run_bind _ _ _ _ _ Eq) in E. rewrite (run_bind _ _ _ _ _ (evaluate_run d W _ ctx c n)) in E. cbn beta in E.
  change (match baseline_of (tenant_of ctx) n d with [] => _ | b :: _ => _ end) with (verdict_on c (baseline_of (tenant_of ctx) n d)) in E.
  set (v := verdict_on c (baseline_of (tenant_of ctx) n d)) in *. change (bind (modify between) ?k d) with (k tt (between d)) in E. cbn beta in E.
  destruct (Hk r Hr) as (r2 & Hr2 & Hi2 & Ht2 & Hc2). assert (Hi2' : er_id r2 = i) by congruence. destruct (negb (gd_promoted v) && negb force) eqn:Eb.
  - apply andb_true_iff in Eb as [E1%negb_true_iff E2%negb_true_iff]. right. split; [done|]. exists r, c, v, r2.
    match type of E with (bind (audit_record ?a ?b ?c ?d ?e ?f ?g false) _ ?s) = _ => destruct (audit_record_best_effort a b c d e f g s) as (h & d3 & E3) end.
    rewrite (run_bind _ _ _ _ _ E3) in E. injection E as <- <-. apply audit_record_only_audit in E3. split_and!; try done. by left.
  - assert (Hv : gd_promoted v = true ∨ force = true) by (destruct (gd_promoted v), force; auto). cbn zeta in E.
    apply bind_cases in E as [(e & E & ->)|(u' & d3 & E1 & E)]; [left; split; [by exists e|]; right; by apply tx_raise in E|]. injection E as <- <-. right. split; [done|].
    apply (proj1 (tx_ok _ _ _ _)) in E1. apply bind_ok in E1 as ([] & d2 & E2 & E1). destruct Hlc as (Hid & Hl). rewrite Hid, <- Hi2 in E2.
    apply upsert_baseline_run in E2 as (W2 & [R2 O2] & B2 & Ed); [|done|done|congruence]. pose proof (audit_in_session_only_audit _ _ _ _ _ _ _ _ _ _ _ E1) as A.
    pose proof (only_audit_keeps eval_runs _ _ A ltac:(done)) as Er. pose proof (only_audit_keeps baselines _ _ A ltac:(done)) as Eb'.
    exists r, c. eexists _, r2. split_and!; try done. right.
    split; [done|split; [done|split; [by rewrite (baseline_of_same d2 d3)|split; [|split; [by apply (gate_wf_same d2)|]]]]].
    + split; [congruence|]. intros t' n' Hne. rewrite (baseline_of_same d2 d3) by done. by apply O2.
    + apply audit_in_session_event in E1 as (ev & E1 & Rest). exists ev. split; [rewrite E1, Ed; by destruct (between d)|].
      fold v. destruct (gd_promoted v); [by rewrite andb_false_r in Rest|]. destruct Hv as [|Hf]; [done|]. by rewrite Hf in Rest.
Qed.
End promoting.

(** * The baseline over time *)

Section over_time.
Context `{AuditEnv}.
Variable db_fault : option exn.
Variables (explain : gate_reason → string) (repr_float : Q → string).

(** A run is started, a run that is running completes, or a promotion without force ends: it
    was judged in any earlier state of the tables, and no other of its name has committed
    since.  Each transaction may fail. *)
Inductive gate_step : db → db → Prop :=
| starts st now fresh ctx ds cassette d : gate_step d (tenant_session (start_eval st now fresh ctx ds cassette) d).2
| completes now ctx i outcomes m d : (∀ r, In r (eval_runs d) → er_id r = i → er_status r = ev_running) →
    gate_step d (tenant_session (finish_eval now ctx i outcomes m) d).2
| promotes now between ctx i n note d g d1 : gate_wf d → runs_kept d (between d) →
    baseline_of (tenant_of ctx) n (between d) = baseline_of (tenant_of ctx) n d →
    promote_run db_fault explain repr_float now between ctx i n note false d = (Ok g, d1) → gate_step (between d) d1.

(** The baselines are the same, and so is every run that has completed. *)
Definition settled (d d' : db) : Prop :=
  baselines d' = baselines d ∧ ∀ r, In r (eval_runs d) → er_status r = ev_completed → In r (eval_runs d').

Lemma settled_baseline d d' t n r : gate_wf d → gate_wf d' → settled d d' → baseline_of t n d = [r] → er_status r = ev_completed → baseline_of t n d' = [r].
Proof using.
  intros W W' [Eb Hr] E Hc. destruct (baseline_of_spec d W t n) as [[E' _]|(b & r0 & Hb & Hk & Hin & Hi & Ht & E')]; [by rewrite E' in E|].
  rewrite E in E'. injection E' as <-. apply (baseline_of_intro d' W' t n b); [by rewrite Eb|done|by apply Hr|done..].
Qed.

Lemma settled_none d d' t n : gate_wf d → settled d d' → baseline_of t n d = [] → baseline_of t n d' = [].
Proof using.
  intros W [Eb _] E. destruct (baseline_of_spec d W t n) as [[_ H0]|(b & r0 & _ & _ & _ & _ & _ & E')]; [|by rewrite E in E'].
  unfold baseline_of. destruct (select_where _ (baselines d')) as [|b l] eqn:Es; [done|]. exfalso.
  assert (Hb : In b (select_where (visible t (baseline_named n)) (baselines d'))) by (rewrite Es; by left). apply select_visible in Hb as (Ht & Hb & Hn).
  apply String.eqb_eq in Hn. apply (H0 b); [by rewrite <- Eb|]. unfold baseline_key. f_equal; [exact Ht|exact Hn].
Qed.

Lemma start_eval_cases st now fresh ctx ds cassette d r d' : tenant_session (start_eval st now fresh ctx ds cassette) d = (r, d') →
  (∃ e, r = Raise e) ∧ d' = d
  ∨ r = Ok tt ∧ ¬ In fresh (map er_id (eval_runs d)) ∧ d' = d <| eval_runs := eval_runs d ++ [new_run st now fresh ctx ds cassette] |>.
Proof using.
  intros E. destruct r as [u|e]; [right|left; split; [by exists e|by apply tx_raise in E]]. apply (proj1 (tx_ok _ _ _ _)) in E.
  apply bind_ok in E as (x & d1 & E1 & E). injection E1 as <- <-. apply bind_ok in E as (u' & d1 & E1 & E). unfold guard in E1.
  destruct (existsb _ (eval_runs d)) eqn:Ef in E1; [done|]. injection E1 as _ <-. apply bind_ok in E as (u2 & d1 & E1 & E). unfold guard in E1.
  destruct (existsb _ _) in E1; [|done]. injection E1 as _ <-. injection E as <- <-. split; [done|split; [|done]].
  intros (r & Hi & Hr)%in_map_iff. apply Bool.not_true_iff_false in Ef. apply Ef, existsb_exists. exists r. by rewrite Hi, N.eqb_refl.
Qed.

Lemma start_settles st now fresh ctx ds cassette d : gate_wf d →
  let d' := (tenant_session (start_eval st now fresh ctx ds cassette) d).2 in gate_wf d' ∧ settled d d'.
Proof using.
  intros W. destruct (tenant_session (start_eval st now fresh ctx ds cassette) d) as [r d'] eqn:E. apply start_eval_cases in E as [[_ ->]|(_ & Hf & ->)]; [done|].
  cbn. split; [|split; [done|]; intros r' Hr _; apply in_app_iff; by left]. destruct W as [H1 H2 H3 H4]. constructor; cbn; try done.
  - rewrite map_app. by apply NoDup_snoc.
  - eapply Forall_impl; [exact H3|]. intros b (r' & Hr & Hk). exists r'. split; [apply in_app_iff; by left|done].
  - apply List.Forall_app. split; [done|]. constructor; [done|constructor].
Qed.

Lemma results_keep {A} (f : db → A) t i outcomes : (∀ d l, f (d <| eval_results := l |>) = f d) → ∀ C, preserves (fun d => f d = C)
  (for_each outcomes (fun o => guard (outcome_storable o) (OtherError "DataError") ;; insert_result (result_row t i o))).
Proof using.
  intros Hf C. apply preserves_for_each. intros o. apply preserves_bind; [apply preserves_guard|]. intros _. apply preserves_bind; [apply preserves_get|].
  intros d0. apply preserves_bind; [apply preserves_guard|]. intros _ d' Hd'. by rewrite <- Hd'; apply Hf.
Qed.

Lemma finish_eval_settles now ctx i outcomes m d : gate_wf d → (∀ r, In r (eval_runs d) → er_id r = i → er_status r = ev_running) →
  let d' := (tenant_session (finish_eval now ctx i outcomes m) d).2 in gate_wf d' ∧ settled d d'.
Proof using.
  intros W Hi d'. assert (Hsame : gate_wf d ∧ settled d d) by done. subst d'. unfold tenant_session, tx. destruct (finish_eval now ctx i outcomes m d) as [[u|e] d'] eqn:E; [|exact Hsame].
  apply bind_ok in E as (u' & d1 & E1 & E). pose proof (results_keep eval_runs (tenant_of ctx) i outcomes ltac:(done) (eval_runs d) d eq_refl) as R.
  pose proof (results_keep baselines (tenant_of ctx) i outcomes ltac:(done) (baselines d) d eq_refl) as B. rewrite E1 in R, B. cbn [snd] in R, B. injection E as _ <-. cbn.
  pose proof (gate_wf_same d d1 R B W) as [H1 H2 H3 H4]. assert (Hk : ∀ r, er_id (complete now outcomes m r) = er_id r) by done. split.
  - constructor; cbn; try done.
    + by rewrite map_update_where.
    + eapply Forall_impl; [exact H3|]. intros b (r & Hr & Hk1 & Hk2). eexists. split; [apply in_update_where; by exists r|]. by destruct (visible _ _ r).
    + apply Forall_update_where; [|done]. by intros r _ _.
  - split; [done|]. intros r Hr Hc. cbn. apply in_update_where. exists r. rewrite R. split; [done|]. destruct (visible _ _ r) eqn:Ev; [|done].
    unfold visible in Ev. apply andb_true_iff in Ev as [_ Ev%N.eqb_eq]. by rewrite (Hi r Hr Ev) in Hc.
Qed.

Lemma verdict_promotes c r l : loaded r c → gd_promoted (verdict_on c l) = true → match l with [] => worthy r | b :: _ => no_worse b r end.
Proof using.
  intros Hl. destruct l as [|b l]; [|by apply decide_promotes]. cbn. destruct (own_reasons c) eqn:E; [|done]. intros _. by apply (own_reasons_worthy r c).
Qed.

(** What the gate lets through has completed. *)
Lemma promoted_run_completed d c r l : gate_wf d → In r (eval_runs d) → loaded r c → gd_promoted (verdict_on c l) = true → er_status r = ev_completed.
Proof using.
  intros W Hr Hl Hv. apply (verdict_promotes c r) in Hv; [|done]. pose proof (gw_measured d W) as H4. rewrite List.Forall_forall in H4. apply H4; [done|].
  destruct l as [|b l]; [apply Hv|]. destruct Hv as (_ & _ & _ & _ & Hw). apply Hw.
Qed.

(** One step: the baseline stays, or a run that is no worse takes its place. *)
Lemma gate_step_spec d d' t n : gate_wf d → gate_step d d' → gate_wf d' ∧
  (baseline_of t n d = [] → baseline_of t n d' = [] ∨ ∃ r', baseline_of t n d' = [r'] ∧ worthy r') ∧
  (∀ r, baseline_of t n d = [r] → er_status r = ev_completed → baseline_of t n d' = [r] ∨ ∃ r', baseline_of t n d' = [r'] ∧ no_worse r r').
Proof using.
  intros W S. assert (Hset : ∀ d', gate_wf d' ∧ settled d d' → gate_wf d' ∧
    (baseline_of t n d = [] → baseline_of t n d' = [] ∨ ∃ r', baseline_of t n d' = [r'] ∧ worthy r') ∧
    (∀ r, baseline_of t n d = [r] → er_status r = ev_completed → baseline_of t n d' = [r] ∨ ∃ r', baseline_of t n d' = [r'] ∧ no_worse r r')).
  { intros d1 [W1 S1]. split; [done|split]; [intros E; left; by apply (settled_none d)|intros r E Hc; left; by apply (settled_baseline d)]. }
  destruct S as [st now fresh ctx ds cassette d|now ctx i outcomes m d Hi|now between ctx i n' note d g d' W0 Hk Hsame E]; [by apply Hset, start_settles|by apply Hset, finish_eval_settles|].
  apply promote_run_cases in E as [[(e & He) _]|[_ (r & c & g' & r2 & _ & Hr & _ & Ht & Hl & _ & Hc & [(_ & _ & _ & A)|(Hv & _ & B & O & W' & _)])]]; [done| | |done..].
  - apply Hset. pose proof (only_audit_keeps eval_runs _ _ A ltac:(done)) as Er. pose proof (only_audit_keeps baselines _ _ A ltac:(done)) as Eb.
    split; [by apply (gate_wf_same (between d))|]. split; [done|]. by rewrite Er.
  - destruct Hv as [Hv|]; [|done]. split; [done|]. pose proof (promoted_run_completed d c r _ W0 Hr Hl Hv) as H2. rewrite (Hc H2) in B. destruct (decide ((t, n) = (tenant_of ctx, n'))) as [[= -> ->]|Hne].
    + apply (verdict_promotes c r) in Hv; [|done]. rewrite <- Hsame in Hv. split; [intros E'|intros r0 E' _]; rewrite E' in Hv; right; by exists r.
    + rewrite (proj2 O t n Hne). split; auto.
Qed.

(** However many steps. *)
Lemma gate_steps_spec d d' t n : gate_wf d → rtc gate_step d d' →
  gate_wf d' ∧ (baseline_of t n d = [] → baseline_of t n d' = [] ∨ ∃ r', baseline_of t n d' = [r'] ∧ worthy r') ∧
  ∀ r, baseline_of t n d = [r] → er_status r = ev_completed → ∃ r', baseline_of t n d' = [r'] ∧ rtc no_worse r r' ∧ er_status r' = ev_completed.
Proof using.
  intros W S. induction S as [d|d d1 d' S _ IH]; [split; [done|]; split; [by left|]; intros r E Hc; exists r; by split|].
  apply (gate_step_spec d d1 t n W) in S as (W1 & S1 & S2). destruct (IH W1) as (W' & I1 & I2). split; [done|].
  assert (Hc : ∀ r', baseline_of t n d1 = [r'] → worthy r' → er_status r' = ev_completed).
  { intros r' E [Hn _]. destruct (baseline_of_spec d1 W1 t n) as [[E' _]|(b & r0 & _ & _ & Hin & _ & _ & E')]; [by rewrite E' in E|]. rewrite E' in E. injection E as <-.
    pose proof (gw_measured d1 W1) as H4. rewrite List.Forall_forall in H4. by apply H4. }
  split.
  - intros E. destruct (S1 E) as [E1|(r1 & E1 & Hw)]; [by apply I1|]. right. destruct (I2 r1 E1 (Hc r1 E1 Hw)) as (r' & E' & Hr & _). exists r'. split; [done|].
    clear -Hr Hw. induction Hr as [r|r x r' Hx _ IH]; [done|]. apply IH, Hx.
  - intros r E Hr. destruct (S2 r E Hr) as [E1|(r1 & E1 & Hw)]; [by apply I2|]. pose proof Hw as (_ & _ & _ & _ & Hw1).
    destruct (I2 r1 E1 (Hc r1 E1 Hw1)) as (r' & E' & Hr' & Hc'). exists r'. split; [done|split; [by apply rtc_l with r1|done]].
Qed.

End over_time.

(** * Scoring *)

(** What an outcome says of its item. *)
Definition accounts (x : EvalItem) (o : ItemOutcome) : Prop :=
  oc_item o = it_id x ∧ oc_question o = it_question x ∧ oc_must_cite o = it_must_cite x ∧
  (oc_recall o = None ↔ it_must_cite x = []) ∧
  (∀ q, oc_recall o = Some q → unit_interval q ∧ ((∀ c, In c (it_must_cite x) → In c (oc_retrieved o)) → (q == 1)%Q)) ∧
  (∀ c, In c (oc_evidence_found o) ↔ In c (it_must_cite x) ∧ In c (oc_retrieved o)).

(** An outcome without what the row keeps in its detail only. *)
Definition stored (o : ItemOutcome) : ItemOutcome :=
  mkOutcome (oc_item o) (oc_question o) (oc_must_cite o) (oc_retrieved o) (oc_recall o) (oc_passed o) (oc_answer o) (oc_evidence_found o)
    (oc_reason o) (oc_error o) None None false.

Lemma recall_spec must_cite retrieved : (recall_of must_cite retrieved = None ↔ must_cite = []) ∧
  ∀ q, recall_of must_cite retrieved = Some q → unit_interval q ∧ ((∀ c, In c must_cite → In c retrieved) → (q == 1)%Q).
Proof.
  split; [by destruct must_cite|]. intros q H. assert (E : must_cite ≠ []) by by destruct must_cite.
  assert (q = (inject_Z (size_Z (list_to_set must_cite ∩ list_to_set retrieved)) / inject_Z (size_Z (list_to_set must_cite)))%Q) as ->.
  { destruct must_cite; [done|]. by injection H as <-. }
  assert (Hp : 0 < size_Z (list_to_set must_cite)) by (apply size_pos; destruct must_cite; [done|set_solver]). clear H.
  split; [apply div_unit; [apply size_inter_le|done]|]. intros H.
  replace (list_to_set must_cite ∩ list_to_set retrieved : gset string) with (list_to_set must_cite : gset string).
  - apply Qmult_inv_r. unfold Qeq. cbn. lia.
  - symmetry. apply leibniz_equiv. intros c. rewrite elem_of_intersection, !elem_of_list_to_set, !list_elem_of_In. naive_solver.
Qed.

Lemma found_spec must_cite retrieved c : In c (found_evidence must_cite retrieved) ↔ In c must_cite ∧ In c retrieved.
Proof.
  unfold found_evidence. rewrite in_order_by, <- list_elem_of_In, elem_of_elements, elem_of_intersection, !elem_of_list_to_set, !list_elem_of_In. done.
Qed.

Lemma failed_accounts x e : accounts x (failed_retrieval x e).
Proof.
  unfold accounts, failed_retrieval, cites. cbn. destruct (it_must_cite x) as [|m l] eqn:E; do 4 (split; [done|]); (split; [|cbn; tauto]).
  - by intros q.
  - intros q [= <-]. split; [by split|]. intros H. by destruct (H m (or_introl eq_refl)).
Qed.

Lemma pass_rate_spec l : (pass_rate_of l = None ↔ List.filter judged l = []) ∧ ∀ q, pass_rate_of l = Some q → unit_interval q.
Proof.
  unfold pass_rate_of. destruct (List.filter judged l) as [|o j]; [by split|]. split; [done|]. intros q [= <-].
  apply share_unit; [apply (filter_count_le passed (o :: j))|by apply count_pos].
Qed.

Lemma mean_recall_spec l : (∀ o q, In o l → oc_recall o = Some q → unit_interval q) →
  (mean_recall l = None ↔ List.filter scored l = []) ∧ ∀ q, mean_recall l = Some q → unit_interval q.
Proof.
  intros Hl. pose proof (mean_spec (map oc_recall l)) as H. unfold mean_recall. destruct (mean (map oc_recall l)) as [m n]. cbn.
  destruct H as (-> & H1 & H2); [by intros q (o & Ho & Hin)%in_map_iff; apply (Hl o)|]. split; [|done]. rewrite H1. clear. unfold count.
  assert (E : length (List.filter is_some (map oc_recall l)) = length (List.filter scored l)).
  { induction l as [|o l IH]; [done|]. cbn. unfold scored at 1. destruct (is_some (oc_recall o)); cbn; lia. }
  rewrite E. destruct (List.filter scored l); [done|]. cbn. split; [lia|done].
Qed.

Section scoring.
Context {W T : Type}.
Variable st : runner_settings.
Variable retrieve : RequestContext → string → string → Z → M (db * W) (list string).
Variable answer : option (RequestContext → string → EvalItem → list string → M (db * W) string).
Variable judge : option (EvalItem → string → list string → M (db * W) Verdict).
Variable evidence : option (list string → M (db * W) (gmap string string)).

Variable view : db → T.
Notation keeps m := (∀ C, preserves (fun s : db * W => view s.1 = C) m).

(** What the system under test leaves alone. *)
Hypothesis retrieve_keeps : ∀ ctx c q k, keeps (retrieve ctx c q k).
Hypothesis answer_keeps : ∀ f, answer = Some f → ∀ ctx c x l, keeps (f ctx c x l).
Hypothesis judge_keeps : ∀ f, judge = Some f → ∀ x a l, keeps (f x a l).
Hypothesis evidence_keeps : ∀ f, evidence = Some f → ∀ l, keeps (f l).

Lemma attempt_keeps {A} (m : M (db * W) A) : keeps m → keeps (attempt m).
Proof using.
  intros Hm C. apply preserves_try_except; [apply preserves_bind; [apply Hm|auto with platform]|]. intros e k Hk. destruct e; try discriminate; injection Hk as <-; apply preserves_ret.
Qed.

Lemma score_item_keeps ctx c k x : keeps (score_item retrieve answer judge evidence ctx c k x).
Proof using retrieve_keeps answer_keeps judge_keeps evidence_keeps.
  intros C. apply preserves_bind; [by apply attempt_keeps|]. intros [l|e]; [|apply preserves_ret].
  apply preserves_bind.
  { unfold answer_item. destruct answer as [f|] eqn:E; [|apply preserves_ret]. apply preserves_bind; [by apply attempt_keeps, answer_keeps|auto with platform]. }
  intros a. apply preserves_bind.
  { unfold judge_item. destruct judge as [f|] eqn:E; [|apply preserves_ret]. destruct answer; [|apply preserves_ret].
    apply preserves_bind; [by apply attempt_keeps, judge_keeps|auto with platform]. }
  intros v. apply preserves_bind; [|intros m; destruct v as [[[b r] fx] jd]; apply preserves_ret].
  unfold measure_item. destruct evidence as [f|] eqn:E; [|apply preserves_ret]. destruct answer; [|apply preserves_ret].
  apply preserves_bind; [by apply evidence_keeps|auto with platform].
Qed.

Lemma score_item_accounts ctx c k x s o s' : score_item retrieve answer judge evidence ctx c k x s = (Ok o, s') → accounts x o.
Proof using.
  intros E. apply bind_ok in E as ([l|e] & s1 & _ & E); [|injection E as <- _; apply failed_accounts].
  apply bind_ok in E as (a & s2 & _ & E). apply bind_ok in E as (v & s3 & _ & E). apply bind_ok in E as (m & s4 & _ & E).
  destruct v as [[[b r] fx] jd]. injection E as <- _. pose proof (recall_spec (it_must_cite x) l) as [R1 R2].
  unfold accounts. cbn. do 3 (split; [done|]). split; [done|]. split; [done|]. apply found_spec.
Qed.

Lemma attempt_raise {A} (m : M (db * W) A) s e s' : attempt m s = (Raise e, s') → e = RunCancelled.
Proof using.
  unfold attempt, try_except, bind. destruct (m s) as [[a|e'] s1]; [done|]. destruct e'; try done. by intros [= <- _].
Qed.

(** Nothing but a cancellation, or the lookup of the evidence, stops the scoring of an item. *)
Lemma score_item_raise ctx c k x s e s' : score_item retrieve answer judge evidence ctx c k x s = (Raise e, s') →
  e = RunCancelled ∨ ∃ f l s1 s2, evidence = Some f ∧ f l s1 = (Raise e, s2).
Proof using.
  clear retrieve_keeps answer_keeps judge_keeps evidence_keeps. intros E. apply bind_cases in E as [(e1 & E & [= ->])|([l|e1] & s1 & _ & E)]; [left; by apply attempt_raise in E| |done].
  apply bind_cases in E as [(e1 & E & [= ->])|(a & s2 & _ & E)].
  { left. unfold answer_item in E. destruct answer as [f|]; [|done]. apply bind_cases in E as [(e2 & E & [= ->])|(a & s2 & _ & E)]; [by apply attempt_raise in E|done]. }
  apply bind_cases in E as [(e1 & E & [= ->])|(v & s3 & _ & E)].
  { left. unfold judge_item in E. destruct judge as [f|]; [|done]. destruct answer as [g|]; [|done].
    apply bind_cases in E as [(e2 & E & [= ->])|(v & s3 & _ & E)]; [by apply attempt_raise in E|done]. }
  apply bind_cases in E as [(e1 & E & [= ->])|(m & s4 & _ & E)]; [|by destruct v as [[[b r] fx] jd]].
  right. unfold measure_item in E. destruct evidence as [f|]; [|done]. destruct answer; [|done].
  apply bind_cases in E as [(e2 & E & [= ->])|(t & s4 & _ & E)]; [by exists f, l, s3, s'|done].
Qed.

Lemma check_keeps ctx : keeps (on_db (W := W) (cancellation_point ctx)).
Proof using.
  intros C [d w] E. unfold on_db. cbn [fst snd]. pose proof (cancellation_point_same ctx d) as H.
  destruct (cancellation_point ctx d) as [r d']. cbn in *. by subst.
Qed.

Lemma score_all_keeps ctx c k labels items : keeps (score_all retrieve answer judge evidence ctx c k labels items).
Proof using retrieve_keeps answer_keeps judge_keeps evidence_keeps.
  intros C. induction items as [|x items IH]; [apply preserves_ret|]. cbn [score_all]. apply preserves_bind; [apply check_keeps|]. intros _.
  destruct (excluded labels x).
  - apply preserves_bind; [done|auto with platform].
  - apply preserves_bind; [apply score_item_keeps|]. intros o. apply preserves_bind; [done|auto with platform].
Qed.

Lemma score_all_accounts ctx c k labels items s outs n s' :
  score_all retrieve answer judge evidence ctx c k labels items s = (Ok (outs, n), s') →
  n = count (List.filter (excluded labels) items) ∧ Forall2 accounts (List.filter (fun x => negb (excluded labels x)) items) outs.
Proof using.
  revert s outs n s'. induction items as [|x items IH]; intros s outs n s' E; [by injection E as <- <- _|]. cbn [score_all] in E.
  apply bind_ok in E as (u & s1 & _ & E). cbn [List.filter]. destruct (excluded labels x); cbn [negb].
  - apply bind_ok in E as ([outs1 n1] & s2 & E1 & E). injection E as <- <- _. destruct (IH _ _ _ _ E1) as [-> H]. split; [unfold count; cbn; lia|done].
  - apply bind_ok in E as (o & s2 & E2 & E). apply bind_ok in E as ([outs1 n1] & s3 & E1 & E). injection E as <- <- _.
    destruct (IH _ _ _ _ E1) as [-> H]. split; [done|]. constructor; [by apply score_item_accounts in E2|done].
Qed.

End scoring.

(** * A run *)

Lemma insert_results_run t i outcomes d u d' :
  for_each outcomes (fun o => guard (outcome_storable o) (OtherError "DataError") ;; insert_result (result_row t i o)) d = (Ok u, d') →
  eval_results d' = eval_results d ++ map (result_row t i) outcomes ∧ List.NoDup (map oc_item outcomes) ∧
  Forall (fun o => ∀ y, In y (eval_results d) → vr_eval_run y = i → vr_item y ≠ oc_item o) outcomes.
Proof.
  revert d. induction outcomes as [|o outcomes IH]; intros d E; [injection E as _ <-; rewrite app_nil_r; split; [done|split; constructor]|].
  apply bind_ok in E as (u1 & d1 & E1 & E). apply bind_ok in E1 as (u2 & d2 & E1 & E2). unfold guard in E1. destruct (outcome_storable o); [|done]. injection E1 as _ <-.
  apply bind_ok in E2 as (x & d2 & E1 & E2). injection E1 as <- <-. apply bind_ok in E2 as (u3 & d2 & E1 & E2). unfold guard in E1.
  destruct (existsb _ _) eqn:Ex in E1; [done|]. injection E1 as _ <-. injection E2 as _ <-. apply IH in E as (E & Hn & Hf). cbn in E. rewrite List.Forall_forall in Hf.
  split; [rewrite E, <- app_assoc; done|]. split.
  - cbn. constructor; [|done]. intros (o' & Ho & Hin)%in_map_iff. apply (Hf o' Hin (result_row t i o)); [cbn; apply in_app_iff; right; by left|done|done].
  - constructor; [|apply List.Forall_forall; intros o' Hin y Hy; apply (Hf o' Hin y); cbn; apply in_app_iff; by left].
    intros y Hy Hr Hi. apply Bool.not_true_iff_false in Ex. apply Ex, existsb_exists. exists y. split; [done|]. cbn. by rewrite Hr, Hi, N.eqb_refl, String.eqb_refl.
Qed.

Lemma finish_eval_run now ctx i outcomes m d d' : tenant_session (finish_eval now ctx i outcomes m) d = (Ok tt, d') →
  datasets d' = datasets d ∧ eval_results d' = eval_results d ++ map (result_row (tenant_of ctx) i) outcomes ∧ List.NoDup (map oc_item outcomes) ∧
  eval_runs d' = update_where (visible (tenant_of ctx) (fun r => (er_id r =? i)%N)) (complete now outcomes m) (eval_runs d).
Proof.
  intros E. apply (proj1 (tx_ok _ _ _ _)) in E. apply bind_ok in E as (u & d1 & E1 & E).
  pose proof (results_keep eval_runs (tenant_of ctx) i outcomes ltac:(done) (eval_runs d) d eq_refl) as R.
  pose proof (results_keep datasets (tenant_of ctx) i outcomes ltac:(done) (datasets d) d eq_refl) as D. rewrite E1 in R, D. cbn [snd] in R, D.
  apply insert_results_run in E1 as (E1 & Hn & _). injection E as <-. cbn. by rewrite R.
Qed.

(** The tables of the gate. *)
Definition gate_view (d : db) : list eval_dataset * list eval_run * list eval_result := (datasets d, eval_runs d, eval_results d).

(** The results a run has are those of runs that exist. *)
Definition results_wf (d : db) : Prop := Forall (fun x => In (vr_eval_run x) (map er_id (eval_runs d))) (eval_results d).

(** Loading the run that completed last. *)
Lemma load_completed ctx i r outcomes d d' :
  results_wf d → ¬ In i (map er_id (eval_runs d)) → er_id r = i → er_tenant r = tenant_of ctx →
  eval_runs d' = eval_runs d ++ [r] → eval_results d' = eval_results d ++ map (result_row (tenant_of ctx) i) outcomes →
  ∃ y, load_run ctx i true d' = (Ok (Some y), d') ∧ loaded r y ∧ Permutation (rn_outcomes y) (map stored outcomes).
Proof.
  intros Wr Hf Hi Ht Er Ev. assert (Hs : select_where (visible (tenant_of ctx) (fun r => (er_id r =? i)%N)) (eval_runs d') = [r]).
  { rewrite Er, select_where_app, (proj2 (select_where_nil _ (eval_runs d))).
    { unfold select_where, visible, row_tenant, tenant_eval_runs. cbn [List.filter app]. by rewrite Ht, Hi, !N.eqb_refl. }
    intros x Hx. unfold visible. apply andb_false_iff. right. apply N.eqb_neq. intros E. apply Hf. rewrite <- E. by apply in_map. }
  assert (Hr : select_where (visible (tenant_of ctx) (fun x => (vr_eval_run x =? i)%N)) (eval_results d') = map (result_row (tenant_of ctx) i) outcomes).
  { rewrite Ev, select_where_app, (proj2 (select_where_nil _ (eval_results d))).
    - unfold select_where, visible, row_tenant, tenant_eval_results. cbn [app]. clear. induction outcomes as [|o l IH]; [done|]. cbn [map List.filter].
      unfold result_row at 1 2. cbn [vr_tenant vr_eval_run]. rewrite !N.eqb_refl. cbn [andb]. by rewrite IH.
    - intros x Hx. unfold visible. apply andb_false_iff. right. apply N.eqb_neq. intros E. apply Hf. rewrite <- E.
      unfold results_wf in Wr. rewrite List.Forall_forall in Wr. by apply Wr. }
  unfold load_run, tenant_session, tx, bind, sql_select, gets. cbn [rows table_eval_runs table_eval_results]. rewrite Hs. cbn [one_or_none]. unfold ret. cbn [rows table_eval_results].
  rewrite Hr. eexists. split; [reflexivity|]. split; [by repeat split|]. cbn. rewrite order_by_perm, map_map. done.
Qed.

Section whole_run.
Context {W : Type}.
Variable st : runner_settings.
Variable retrieve : RequestContext → string → string → Z → M (db * W) (list string).
Variable answer : option (RequestContext → string → EvalItem → list string → M (db * W) string).
Variable judge : option (EvalItem → string → list string → M (db * W) Verdict).
Variable evidence : option (list string → M (db * W) (gmap string string)).

Notation keeps m := (∀ C, preserves (fun s : db * W => gate_view s.1 = C) m).
Notation scored_run := (run st retrieve answer judge evidence).

(** Every item was either scored, once, or excluded by a reviewer. *)
Definition complete_run (labels : list eval_item_label) (ds : Dataset) (x : EvalRun) : Prop :=
  Forall2 accounts (List.filter (fun i => negb (excluded labels i)) (ds_items ds)) (rn_outcomes x) ∧ List.NoDup (map oc_item (rn_outcomes x)) ∧
  rn_items_run x = count (rn_outcomes x) ∧ rn_items_run x + rn_items_excluded x = count (ds_items ds) ∧
  rn_items_excluded x = count (List.filter (excluded labels) (ds_items ds)) ∧
  rn_items_scoreable x = count (List.filter (fun i => cites i && negb (excluded labels i)) (ds_items ds)).

Lemma count_split {A} (p : A → bool) l : count (List.filter (fun x => negb (p x)) l) + count (List.filter p l) = count l.
Proof using. unfold count. induction l as [|x l IH]; [done|]. cbn. destruct (p x); cbn [negb length] in *; lia. Qed.

Lemma scoreable_items labels items outs :
  Forall2 accounts (List.filter (fun i => negb (excluded labels i)) items) outs →
  count (List.filter scored outs) = count (List.filter (fun i => cites i && negb (excluded labels i)) items).
Proof using.
  unfold count. intros H. f_equal. revert outs H. induction items as [|x items IH]; intros outs H; cbn [List.filter] in *; [by inversion H|].
  destruct (excluded labels x); cbn [negb] in *; [rewrite andb_false_r; by apply IH|]. rewrite andb_true_r. inversion H as [|? o ? outs' Ho Ht]; subst.
  assert (Hc : scored o = cites x).
  { destruct Ho as (_ & _ & _ & R & _). unfold cites, scored. destruct (it_must_cite x), (oc_recall o); try done; [discriminate (proj2 R eq_refl)|discriminate (proj1 R eq_refl)]. }
  cbn [List.filter]. rewrite Hc. destruct (cites x); cbn [length]; by rewrite (IH _ Ht).
Qed.

(** What the scoring does not touch, a run does not touch, the runs and results apart. *)
Lemma run_keeps {T} (view : db → T) now later fresh elapsed ctx ds labels top_k cassette :
  (∀ d l, view (d <| eval_runs := l |>) = view d) → (∀ d l, view (d <| eval_results := l |>) = view d) →
  (∀ C, preserves (fun s => view s.1 = C) (score_all retrieve answer judge evidence ctx (ds_collection ds) top_k labels (ds_items ds))) →
  ∀ C, preserves (fun s => view s.1 = C) (scored_run now later fresh elapsed ctx ds labels top_k cassette).
Proof using.
  intros V1 V2 Hs C. assert (Hdb : ∀ A (m : M db A), (∀ d, view (m d).2 = view d) → preserves (fun s : db * W => view s.1 = C) (on_db m)).
  { intros A m Hm [d w] E. unfold on_db. cbn [fst snd] in *. specialize (Hm d). destruct (m d) as [r d']. cbn in *. congruence. }
  apply preserves_bind.
  { apply Hdb. intros d. destruct (tenant_session _ d) as [r d'] eqn:E. apply start_eval_cases in E as [[_ ->]|(_ & _ & ->)]; [done|by apply V1]. }
  intros _. apply preserves_bind; [apply Hs|]. intros [outs n]. apply preserves_bind; [|auto with platform].
  apply Hdb. intros d. unfold tenant_session, tx. destruct (finish_eval later ctx fresh outs _ d) as [[u|e] d'] eqn:E; [|done].
  apply bind_ok in E as (u' & d1 & E1 & E). pose proof (results_keep view (tenant_of ctx) fresh outs V2 (view d) d eq_refl) as R. rewrite E1 in R.
  injection E as _ <-. cbn [snd] in R. cbn. rewrite <- R. apply V1.
Qed.

Lemma scored_complete labels ds outs n x :
  n = count (List.filter (excluded labels) (ds_items ds)) →
  Forall2 accounts (List.filter (fun i => negb (excluded labels i)) (ds_items ds)) outs → List.NoDup (map oc_item outs) →
  rn_outcomes x = outs → rn_items_run x = count outs → rn_items_excluded x = n → rn_items_scoreable x = count (List.filter scored outs) →
  rn_retrieval_recall x = mean_recall outs → rn_answer_pass_rate x = pass_rate_of outs →
  complete_run labels ds x ∧ (rn_retrieval_recall x = None ↔ rn_items_scoreable x = 0) ∧
  (rn_answer_pass_rate x = None ↔ List.filter judged (rn_outcomes x) = []) ∧
  ∀ q, rn_retrieval_recall x = Some q ∨ rn_answer_pass_rate x = Some q → unit_interval q.
Proof using.
  intros -> HF Hn Eo Er Ex Es Em Ep. assert (Hl : count outs = count (List.filter (fun i => negb (excluded labels i)) (ds_items ds))) by (unfold count; by rewrite (Forall2_length _ _ _ HF)).
  destruct (mean_recall_spec outs) as [M1 M2].
  { intros o q Ho Hq. apply list_elem_of_In, list_elem_of_lookup in Ho as [j Hj]. destruct (Forall2_lookup_r _ _ _ _ _ HF Hj) as (i & _ & _ & _ & _ & _ & Ha & _). by apply Ha. }
  destruct (pass_rate_spec outs) as [P1 P2]. rewrite Em, Ep, Es, Eo, M1, P1. split; [|split; [|split; [done|]]].
  - unfold complete_run. rewrite Eo, Er, Ex, Es, (scoreable_items labels (ds_items ds) outs HF). split; [done|split; [done|split; [done|split; [|done]]]].
    rewrite Hl. apply count_split.
  - unfold count. destruct (List.filter scored outs); cbn; [done|split; [done|lia]].
  - intros q [Hq|Hq]; auto.
Qed.

Hypothesis retrieve_keeps : ∀ ctx c q k, keeps (retrieve ctx c q k).
Hypothesis answer_keeps : ∀ f, answer = Some f → ∀ ctx c x l, keeps (f ctx c x l).
Hypothesis judge_keeps : ∀ f, judge = Some f → ∀ x a l, keeps (f x a l).
Hypothesis evidence_keeps : ∀ f, evidence = Some f → ∀ l, keeps (f l).

(** How a run ends, and what it leaves. *)
Lemma run_cases now later fresh elapsed ctx ds labels top_k cassette s res s' :
  results_wf s.1 → scored_run now later fresh elapsed ctx ds labels top_k cassette s = (res, s') →
  match res with
  | Ok x =>
      complete_run labels ds x ∧ (rn_retrieval_recall x = None ↔ rn_items_scoreable x = 0) ∧
      (rn_answer_pass_rate x = None ↔ List.filter judged (rn_outcomes x) = []) ∧
      (∀ q, rn_retrieval_recall x = Some q ∨ rn_answer_pass_rate x = Some q → unit_interval q) ∧
      eval_results s'.1 = eval_results s.1 ++ map (result_row (tenant_of ctx) fresh) (rn_outcomes x) ∧
      ∃ r y, eval_runs s'.1 = eval_runs s.1 ++ [r] ∧ er_id r = fresh ∧ ¬ In fresh (map er_id (eval_runs s.1)) ∧ er_dataset_sha r = ds_sha ds ∧ er_status r = ev_completed ∧ loaded r x ∧
        load_run ctx fresh true s'.1 = (Ok (Some y), s'.1) ∧ loaded r y ∧ Permutation (rn_outcomes y) (map stored (rn_outcomes x))
  | Raise _ =>
      eval_results s'.1 = eval_results s.1 ∧
      (eval_runs s'.1 = eval_runs s.1 ∨ ∃ r, eval_runs s'.1 = eval_runs s.1 ++ [r] ∧ er_status r = ev_running ∧ er_items_run r = 0)
  end.
Proof using retrieve_keeps answer_keeps judge_keeps evidence_keeps.
  intros Wr E.
  apply bind_cases in E as [(e & E & ->)|(u & s1 & E1 & E)]; apply on_db_inv in E as [E _] || apply on_db_inv in E1 as [E1 _].
  { apply start_eval_cases in E as [[_ ->]|(? & _)]; [|done]. split; [done|by left]. }
  apply start_eval_cases in E1 as [[(e & ?) _]|(_ & Hf & E1)]; [done|]. set (r := new_run st now fresh ctx ds cassette) in *.
  pose proof (score_all_keeps retrieve answer judge evidence gate_view retrieve_keeps answer_keeps judge_keeps evidence_keeps ctx (ds_collection ds) top_k labels (ds_items ds) _ s1 eq_refl) as K.
  assert (Hview : ∀ d, gate_view d = gate_view s1.1 → eval_runs d = eval_runs s.1 ++ [r] ∧ eval_results d = eval_results s.1).
  { intros d [= _ -> ->]. by rewrite E1. }
  apply bind_cases in E as [(e & E & ->)|([outs n] & s2 & E2 & E)].
  { rewrite E in K. cbn [snd] in K. destruct (Hview _ K) as [-> ->]. split; [done|]. right. by exists r. }
  rewrite E2 in K. cbn [snd] in K. apply score_all_accounts in E2 as [-> HF]. apply bind_cases in E as [(e & E & ->)|([] & s3 & E3 & E)].
  { apply on_db_inv in E as [E _]. apply tx_raise in E as ->. destruct (Hview _ K) as [-> ->]. split; [done|]. right. by exists r. }
  apply on_db_inv in E3 as [E3 _]. injection E as <- <-. apply finish_eval_run in E3 as (_ & Ev & Hn & Er). destruct (Hview _ K) as [Kr Kv]. rewrite Kr in Er. rewrite Kv in Ev.
  set (m := metrics_of st judge ctx elapsed top_k outs _) in *.
  assert (Er' : eval_runs s3.1 = eval_runs s.1 ++ [complete later outs m r]).
  { rewrite Er. unfold update_where. rewrite map_app. f_equal.
    - apply update_where_id. intros x Hx. unfold visible. apply andb_false_iff. right. apply N.eqb_neq. intros Ex. apply Hf. rewrite <- Ex. by apply in_map.
    - cbn [map]. unfold visible, row_tenant, tenant_eval_runs, r. cbn [er_tenant er_id new_run]. by rewrite !N.eqb_refl. }
  destruct (load_completed ctx fresh (complete later outs m r) outs s.1 s3.1) as (y & Ey & Hy & Hp); [done..|].
  match goal with |- complete_run _ _ ?x ∧ _ => destruct (scored_complete labels ds outs _ x eq_refl HF Hn) as (C1 & C2 & C3 & C4); [done..|] end.
  split; [done|split; [done|split; [done|split; [done|split; [done|]]]]]. exists (complete later outs m r), y.
  split; [done|split; [done|split; [done|split; [done|split; [done|split; [by repeat split|split; [done|by split]]]]]]].
Qed.

(** C30: scoring a golden set accounts for every item, and never writes over a score.  With
    a retriever, an answerer, a judge and a lookup of evidence that write no set, run or
    result: a run that completes has one outcome for each item no reviewer excluded, in the
    order of the set and carrying the item's question and citations, and the excluded ones
    are counted; an item has a recall exactly when it cites evidence, between 0 and 1, and 1
    when all of it came back (a failed retrieval brought nothing back); the run has a recall
    exactly when some item does, and a pass rate exactly when some outcome is recorded as
    passed or not by a judge that answered - a failed retrieval is recorded as not passed,
    whether or not there is a judge.  It adds one row per outcome and one completed run, which reads back with the
    same rates and counts and, in some order, the same outcomes less the quality scores;
    what the row does not keep (judge model, quality, excluded and unavailable counts) does
    not come back.  Every earlier run and result stays.  One that fails adds no result and
    at most a run that is still running and scored nothing.  Nothing the retriever, the
    answerer or the judge raises stops it, a cancellation apart. *)
Theorem every_item_is_scored_once now later fresh elapsed ctx ds labels top_k cassette s res s' :
  results_wf s.1 → scored_run now later fresh elapsed ctx ds labels top_k cassette s = (res, s') →
  match res with
  | Ok x =>
      complete_run labels ds x ∧ (rn_retrieval_recall x = None ↔ rn_items_scoreable x = 0) ∧
      (rn_answer_pass_rate x = None ↔ List.filter judged (rn_outcomes x) = []) ∧
      (∀ q, rn_retrieval_recall x = Some q ∨ rn_answer_pass_rate x = Some q → unit_interval q) ∧
      eval_results s'.1 = eval_results s.1 ++ map (result_row (tenant_of ctx) fresh) (rn_outcomes x) ∧
      ∃ r y, eval_runs s'.1 = eval_runs s.1 ++ [r] ∧ er_id r = fresh ∧ ¬ In fresh (map er_id (eval_runs s.1)) ∧ er_dataset_sha r = ds_sha ds ∧ er_status r = ev_completed ∧ loaded r x ∧
        load_run ctx fresh true s'.1 = (Ok (Some y), s'.1) ∧ loaded r y ∧ Permutation (rn_outcomes y) (map stored (rn_outcomes x))
  | Raise _ =>
      eval_results s'.1 = eval_results s.1 ∧
      (eval_runs s'.1 = eval_runs s.1 ∨ ∃ r, eval_runs s'.1 = eval_runs s.1 ++ [r] ∧ er_status r = ev_running ∧ er_items_run r = 0)
  end ∧
  ∀ c k x s e s', score_item retrieve answer judge evidence ctx c k x s = (Raise e, s') →
    e = RunCancelled ∨ ∃ f l s1 s2, evidence = Some f ∧ f l s1 = (Raise e, s2).
Proof using retrieve_keeps answer_keeps judge_keeps evidence_keeps.
  intros Wr E. split; [by apply (run_cases now later fresh elapsed ctx ds labels top_k cassette)|].
  intros c k x s0 e s1 Hr. by apply score_item_raise in Hr.
Qed.
End whole_run.

Module GateDemo.
#[export] Instance env : AuditEnv := mkAuditEnv (str_take 64) (fun _ => "at") (fun j => j) (Some "r2").
Definition explain (r : gate_reason) : string := match r with NoRegression => "no regression" | _ => "refused" end.
Definition repr_float (q : Q) : string := "f".
Definition st : runner_settings := mkRunnerSettings "r2" "cheap" "judge".
Definition golden : eval_dataset := mkEvalDataset 50 1 "golden" "manuals" "sha" JNull 2 None 1.
(** A run of [golden] that measured the recall [q] over two items. *)
Definition measured (i : uuid) (q : Q) : eval_run :=
  mkEvalRun i 1 50 "sha" "r2" "cheap" None ev_completed None (Some q) 2 2 None 5 (Some 6).
Definition runs : list eval_run := [measured 70 (900 # 1000); measured 71 (885 # 1000); measured 72 (870 # 1000); measured 73 (500 # 1000); measured 75 (950 # 1000)].
Notation start := (empty_db <| datasets := [golden] |> <| eval_runs := runs |> <| baselines := [mkEvalBaseline 1 "golden" 70 None 7 None] |>).
Notation promotion := (promote_run None explain repr_float).
Notation promoted i n d := (promotion 8 id Demo.ctx i n None false d).2.
(** The retriever finds one chunk, except for the question that breaks it. *)
Definition retrieve (_ : RequestContext) (_ q : string) (_ : Z) : M (db * unit) (list string) :=
  if String.eqb q "broken" then raise (OtherError "Timeout") else ret ["c_0123abcd"].
Definition ds : Dataset := mkDataset 50 "golden" "manuals" "sha"
  [mkItem "q1" "Who resets it?" "The shift lead" ["c_0123abcd"]; mkItem "q2" "broken" "" ["c_0123abcd"]; mkItem "q3" "page residue" "" []].
Definition labels : list eval_item_label :=
  [mkItemLabel 1 "golden" "q3" as_empty None None false None None false (Some "page residue") "manual" 3].
End GateDemo.

#[local] Existing Instance GateDemo.env.

(** Each promotion is within the tolerance of the last, and the baseline drifts by more. *)
Example tolerance_adds_up :
  let d := GateDemo.promoted 72 "golden" (GateDemo.promoted 71 "golden" GateDemo.start) in
  (map er_retrieval_recall (baseline_of 1 "golden" GateDemo.start), map er_retrieval_recall (baseline_of 1 "golden" d)) =
    ([Some (900 # 1000)%Q], [Some (870 # 1000)%Q]).
Proof. vm_compute. reflexivity. Qed.

(** A promotion judged against 0.9 commits after another has moved the baseline to 0.95: it
    falls to 0.885, without force and on the trail as accepted. *)
Example concurrent_promotions_regress :
  let better d := GateDemo.promoted 75 "golden" d in
  let (r, d) := GateDemo.promotion 8 better Demo.ctx 71 "golden" None false GateDemo.start in
  (map er_retrieval_recall (baseline_of 1 "golden" (better GateDemo.start)), map er_retrieval_recall (baseline_of 1 "golden" d)) =
    ([Some (950 # 1000)%Q], [Some (885 # 1000)%Q]) ∧
  match r with Ok g => gd_promoted g = true | Raise _ => False end ∧ map ae_action (audit_events d) = ["eval.promotion.accepted"; "eval.promotion.accepted"].
Proof. vm_compute. repeat split; reflexivity. Qed.

(** A name nobody ever scored takes its first baseline from a run of another set. *)
Example baseline_of_another_set :
  map er_id (baseline_of 1 "safety" (GateDemo.promoted 73 "safety" GateDemo.start)) = [73%N].
Proof. vm_compute. reflexivity. Qed.

(** With the judge out for all but one item, the one verdict is the pass rate, and the gate
    compares it with a rate over all. *)
Example judge_outage_goes_unseen :
  let o p down := mkOutcome "q" "q" [] [] None p "" [] "" "" None None down in
  let outcomes := o (Some true) false :: repeat (o (Some false) true) 24 in
  let candidate := mkRunOf 81 "sha" "r2" "cheap" None (pass_rate_of outcomes) (mean_recall outcomes) (count outcomes) (count (List.filter scored outcomes)) outcomes 0 [] None 24 0 in
  let baseline := mkEvalRun 80 1 50 "sha" "r2" "cheap" None ev_completed (Some (96 # 100)%Q) None 25 0 None 5 (Some 6) in
  gd_promoted (decide_against default_tolerances candidate baseline) = true.
Proof. vm_compute. reflexivity. Qed.

(** A retrieval that failed counts as a failed answer where nothing was judged. *)
Example failed_retrieval_is_judged :
  pass_rate_of [failed_retrieval (mkItem "q2" "broken" "" ["c_0123abcd"]) (OtherError "Timeout")] = Some (0 # 10000)%Q.
Proof. vm_compute. reflexivity. Qed.

Lemma start_wf : gate_wf GateDemo.start.
Proof.
  constructor; cbn.
  - repeat constructor. by intros [].
  - repeat constructor; cbn; set_solver.
  - repeat constructor. exists (GateDemo.measured 70 (900 # 1000)). split; [by left|by split].
  - by repeat constructor.
Qed.

Lemma runs_kept_refl d : runs_kept d d.
Proof. intros r Hr. by exists r. Qed.

(** A promotion during which nobody else commits is a step. *)
Lemma promotes_alone i n : ∀ d, gate_wf d → (∃ g, (GateDemo.promotion 8 id Demo.ctx i n None false d).1 = Ok g) →
  gate_step None GateDemo.explain GateDemo.repr_float d (GateDemo.promoted i n d) ∧ gate_wf (GateDemo.promoted i n d).
Proof.
  intros d W (g & Hg). assert (S : gate_step None GateDemo.explain GateDemo.repr_float d (GateDemo.promoted i n d)).
  { apply (promotes None GateDemo.explain GateDemo.repr_float 8 id Demo.ctx i n None d g); [done|apply runs_kept_refl|done|]. rewrite <- Hg. apply surjective_pairing. }
  split; [done|]. by apply (gate_step_spec None GateDemo.explain GateDemo.repr_float d _ 1 n).
Qed.


Lemma every_item_is_scored_once_witness :
  ∃ x s', run GateDemo.st GateDemo.retrieve None None None 5 9 74 0 Demo.ctx GateDemo.ds GateDemo.labels 5 None (GateDemo.start, tt) = (Ok x, s') ∧
    map oc_item (rn_outcomes x) = ["q1"; "q2"] ∧ map oc_error (rn_outcomes x) = [""; "Timeout: "] ∧
    complete_run GateDemo.labels GateDemo.ds x ∧ eval_results s'.1 = map (result_row 1 74) (rn_outcomes x).
Proof.
  pose proof (every_item_is_scored_once GateDemo.st GateDemo.retrieve None None None) as H.
  specialize (H ltac:(intros ctx c q k C [d w] E; unfold GateDemo.retrieve; by destruct (String.eqb q "broken")) ltac:(done) ltac:(done) ltac:(done)
    5 9 74%N 0%Q Demo.ctx GateDemo.ds GateDemo.labels 5 None (GateDemo.start, tt)).
  computed (match (run GateDemo.st GateDemo.retrieve None None None 5 9 74 0 Demo.ctx GateDemo.ds GateDemo.labels 5 None (GateDemo.start, tt)).1 with
            | Ok x => (map oc_item (rn_outcomes x), map oc_error (rn_outcomes x)) | Raise _ => ([], []) end) as E.
  destruct (run GateDemo.st GateDemo.retrieve None None None 5 9 74 0 Demo.ctx GateDemo.ds GateDemo.labels 5 None (GateDemo.start, tt)) as [[x|e] s']; cbn [fst] in E; [|discriminate].
  destruct (H (Ok x) s' ltac:(constructor) eq_refl) as [(Hc & _ & _ & _ & Hv & _) _]. injection E as E1 E2. exists x, s'.
  split; [reflexivity|]. split; [exact E1|]. split; [exact E2|]. split; [exact Hc|exact Hv].
Defined.
