(* ===== verification/Judge.v ===== *)
(** The models of an evaluation: the judge ([platform_core/gates/judge.py]), the annotator
    ([platform_core/gates/annotator.py] and the draft route of
    [platform_core/api/routes/eval.py]), and the workload that scores a set against the live
    corpus ([workloads/eval/workload.py], [runner.pgvector_retriever]).

    The model client is used through an interface, [EvalClient]; the instance of the platform
    is the client of [Llm.v].  [json.loads], the scan of the vector index and the contexts'
    fresh ids are parameters. *)
From S2P Require Import Prelude Identity Json Text Db Leases AuditTrail Builds Metrics Datasets Gate.
From S2P Require Chat Cache Ledger Llm Frame.

(** What the scoring reads and writes of the database, and the client must leave alone. *)
Definition eval_view (d : db) :=
  (gate_view d, builds d, chunks d, item_labels d, (baselines d, policies d)).

Class EvalClient (V : Type) := mkEvalClient {
  eval_embed : RequestContext → list string → M (db * V) (list (list Q));
  eval_chat : RequestContext → Cache.ChatRequest → M (db * V) Cache.ChatResponse;
  embed_keeps_eval : ∀ ctx l C, preserves (fun s => eval_view s.1 = C) (eval_embed ctx l);
  chat_keeps_eval : ∀ ctx r C, preserves (fun s => eval_view s.1 = C) (eval_chat ctx r)
}.

(** * Reading a model's JSON *)

Definition FENCE : string := "```".

(** What follows [p] in [s]. *)
Fixpoint after (p s : string) : option string :=
  match p, s with
  | EmptyString, _ => Some s
  | String a p', String b s' => if Ascii.eqb a b then after p' s' else None
  | String _ _, EmptyString => None
  end.

(** [^\s*```(?:json)?\s*]. *)
Definition drop_opening (s : string) : string :=
  match after FENCE (lstrip s) with
  | Some r => lstrip (match after "json" r with Some r' => r' | None => r end)
  | None => s
  end.

(** [\s*```\s*$]. *)
Definition drop_closing (s : string) : string :=
  match after FENCE (string_rev (rstrip s)) with Some r => rstrip (string_rev r) | None => s end.

(** [_FENCE.sub("", raw or "").strip()]. *)
Definition unfenced (raw : string) : string := strip (drop_closing (drop_opening raw)).

(** ** The verdict *)

Inductive FixSurface := ANSWER_PROMPT | RETRIEVAL | KG_INSTANCE_TABLE | KG_ENTITY_TYPE | CORPUS_GAP | EXPECTED_ANSWER | NO_SURFACE.

Definition surface_str (x : FixSurface) : string :=
  match x with
  | ANSWER_PROMPT => "prompts:answer"
  | RETRIEVAL => "retrieval:top_k"
  | KG_INSTANCE_TABLE => "kg:instance_table"
  | KG_ENTITY_TYPE => "kg:entity_type"
  | CORPUS_GAP => "corpus:gap"
  | EXPECTED_ANSWER => "eval:expected_answer"
  | NO_SURFACE => "none"
  end.

Definition surfaces : list FixSurface :=
  [ANSWER_PROMPT; RETRIEVAL; KG_INSTANCE_TABLE; KG_ENTITY_TYPE; CORPUS_GAP; EXPECTED_ANSWER; NO_SURFACE].

(** [FixSurface(text)], an unknown value being [NONE]. *)
Definition surface_of (text : string) : FixSurface :=
  match List.find (fun x => String.eqb (surface_str x) text) surfaces with Some x => x | None => NO_SURFACE end.

Record judge_settings := mkJudgeSettings {
  js_judge : string;
  js_annotator : string;
  js_cheap : string
}.

Section models.
Context {V : Type} {client : EvalClient V}.
Variable str_of : json → string.
(** [json.loads]. *)
Variable loads : string → option json.
Variable st : judge_settings.
(** The rubrics. *)
Variables (judge_prompt annotator_prompt : string) (verdict_schema : json).

(** [str(data.get(k) or default)]. *)
Definition get_text (k default : string) (kvs : list (string * json)) : string :=
  match dict_get k kvs with Some v => if json_truthy v then py_str str_of v else default | None => default end.

Definition parse_verdict (raw : string) : option Verdict :=
  let text := unfenced raw in
  if negb (nonempty text) then None
  else match loads text with
       | Some (JObj kvs) =>
           match dict_get "passed" kvs with
           | Some v => Some (mkVerdictBy (json_truthy v) (str_take 1000 (get_text "reason" "" kvs)) (surface_str (surface_of (get_text "fix_surface" "none" kvs))) false)
           | None => None
           end
       | _ => None
       end.

Definition or_none (s : string) (default : string) : string := if nonempty s then s else default.

Definition judge_question (x : EvalItem) (actual : string) (retrieved : list string) : string :=
  "QUESTION:" +:+ nl +:+ it_question x +:+ nl +:+ nl +:+
  "EXPECTED_ANSWER:" +:+ nl +:+ it_expected_answer x +:+ nl +:+ nl +:+
  "ACTUAL_ANSWER:" +:+ nl +:+ or_none actual "(the system produced no answer)" +:+ nl +:+ nl +:+
  "MUST_CITE:" +:+ nl +:+ or_none (join ", " (it_must_cite x)) "(none)" +:+ nl +:+ nl +:+
  "RETRIEVED_CHUNK_IDS:" +:+ nl +:+ or_none (join ", " (firstn 20 retrieved)) "(none)".

Definition json_object : json := JObj [("type", JStr "json_object")].

(** The three formats, in the order they are tried. *)
Definition formats : list (option json) := [Some verdict_schema; Some json_object; None].

Definition judge_request (x : EvalItem) (actual : string) (retrieved : list string) (format : option json) : Cache.ChatRequest :=
  Cache.mkChatRequest
    [Chat.message (JStr "system") (JStr judge_prompt); Chat.message (JStr "user") (JStr (judge_question x actual retrieved))]
    (js_judge st) (Some (JInt 0)) (Some 300) None format false.

Definition unavailable (last : option exn) : Verdict :=
  mkVerdictBy false ("judge unavailable: " +:+ match last with Some e => exn_class e | None => "unparseable output" end) (surface_str NO_SURFACE) true.

Definition no_reference : Verdict :=
  mkVerdictBy false "no expected answer on this item — draft or write one first" (surface_str EXPECTED_ANSWER) true.

Fixpoint try_formats (ctx : RequestContext) (x : EvalItem) (actual : string) (retrieved : list string) (last : option exn) (l : list (option json))
    : M (db * V) Verdict :=
  match l with
  | [] => ret (unavailable last)
  | format :: l' =>
      on_db (cancellation_point ctx) ;;
      response <- attempt (eval_chat ctx (judge_request x actual retrieved format)) ;;
      match response with
      | inr e => try_formats ctx x actual retrieved (Some e) l'
      | inl response =>
          match parse_verdict (Cache.rs_content response) with
          | Some v => ret v
          | None => try_formats ctx x actual retrieved last l'
          end
      end
  end.

(** [judge.verdict]. *)
Definition grade (ctx : RequestContext) (x : EvalItem) (actual : string) (retrieved : list string) : M (db * V) Verdict :=
  if blank (it_expected_answer x) then ret no_reference else try_formats ctx x actual retrieved None formats.

(** * Evidence *)

(** [{r.canonical_id: r.text for r in rows}]. *)
Definition texts_of (rows : list chunk) : gmap string string := foldl (fun m x => <[ch_canonical_id x := ch_text x]> m) ∅ rows.

(** [_chunk_texts] and [_evidence_texts]: from the build being served. *)
Definition chunk_texts (ctx : RequestContext) (c : string) (ids : list string) : M db (gmap string string) :=
  match ids with
  | [] => ret ∅
  | _ =>
      tenant_session (
        version <- live_version_or_none ctx c ;;
        match version with
        | None => ret ∅
        | Some v => rows <- sql_select (visible (tenant_of ctx) (fun x => in_build c v x && mem ids (ch_canonical_id x))) ;; ret (texts_of rows)
        end)
  end.

(** * The annotator *)

Definition BATCH : nat := 4.
Definition MAX_ITEMS : Z := 50.

(** [[pending[i : i + BATCH] for i in range(0, len(pending), BATCH)]]. *)
Fixpoint groups {A} (fuel : nat) (l : list A) : list (list A) :=
  match fuel, l with
  | O, _ | _, [] => []
  | S n, _ => firstn BATCH l :: groups n (skipn BATCH l)
  end.

(** [d[k] = v], the keys in the order they came. *)
Definition assign (k v : string) (d : list (string * string)) : list (string * string) :=
  if existsb (fun kv => String.eqb kv.1 k) d then map (fun kv => if String.eqb kv.1 k then (k, v) else kv) d else d ++ [(k, v)].

(** [d.get(k)]. *)
Definition lookup_text (k : string) (d : list (string * string)) : option string := option_map snd (List.find (fun kv => String.eqb kv.1 k) d).

(** [{str(k): str(v or "").strip() for k, v in data.items()}]. *)
Definition parse_answers (raw : string) : list (string * string) :=
  let text := unfenced raw in
  if negb (nonempty text) then []
  else match loads text with
       | Some (JObj kvs) => foldl (fun d kv => assign kv.1 (if json_truthy kv.2 then strip (py_str str_of kv.2) else "") d) [] kvs
       | _ => []
       end.

(** Nobody has answered it, and its evidence is usable. *)
Definition pending (labels : list eval_item_label) (x : EvalItem) : bool :=
  blank (it_expected_answer x)
  && match label_of labels (it_id x) with
     | Some l => negb (human_authored l) && negb (truthy (il_unusable_reason l))
     | None => true
     end.

Definition passages (evidence : gmap string string) (x : EvalItem) : list string := omap (fun c => evidence !! c) (it_must_cite x).

Definition block (evidence : gmap string string) (x : EvalItem) : string :=
  "ITEM " +:+ it_id x +:+ nl +:+ "QUESTION: " +:+ it_question x +:+ nl +:+ "PASSAGES:" +:+ nl +:+
  join (nl +:+ nl +:+ "---" +:+ nl +:+ nl) (passages evidence x).

Definition has_passages (evidence : gmap string string) (x : EvalItem) : bool := match passages evidence x with [] => false | _ => true end.

Definition annotator_request (model : string) (blocks : list string) : Cache.ChatRequest :=
  Cache.mkChatRequest
    [Chat.message (JStr "system") (JStr annotator_prompt); Chat.message (JStr "user") (JStr (join (nl +:+ nl +:+ "====" +:+ nl +:+ nl) blocks))]
    model (Some (JInt 0)) (Some 1200) None (Some json_object) false.

Record draft_report := mkDraftReport {
  dr_drafted : list (string * string);
  dr_model : string;
  dr_attempted : Z;
  dr_skipped_no_evidence : Z
}.

(** The non-empty answers of a reply. *)
Definition keep_answers (drafted : list (string * string)) (answers : list (string * string)) : list (string * string) :=
  foldl (fun d kv => if nonempty kv.2 then assign kv.1 kv.2 d else d) drafted answers.

Fixpoint draft_batches (ctx : RequestContext) (evidence : gmap string string) (r : draft_report) (l : list (list EvalItem)) : M (db * V) draft_report :=
  match l with
  | [] => ret r
  | batch :: l' =>
      on_db (cancellation_point ctx) ;;
      let usable := List.filter (has_passages evidence) batch in
      let r1 := mkDraftReport (dr_drafted r) (dr_model r) (dr_attempted r + count usable) (dr_skipped_no_evidence r + (count batch - count usable)) in
      match usable with
      | [] => draft_batches ctx evidence r1 l'
      | _ =>
          response <- attempt (eval_chat ctx (annotator_request (dr_model r) (map (block evidence) usable))) ;;
          match response with
          | inr _ => draft_batches ctx evidence r1 l'
          | inl response =>
              draft_batches ctx evidence
                (mkDraftReport (keep_answers (dr_drafted r) (parse_answers (Cache.rs_content response))) (dr_model r1) (dr_attempted r1) (dr_skipped_no_evidence r1)) l'
          end
      end
  end.

(** [annotator.draft], with the model of the settings. *)
Definition draft (ctx : RequestContext) (ds : Dataset) (labels : list eval_item_label) (limit : Z) : M (db * V) draft_report :=
  let limit := Z.max 1 (Z.min (if limit =? 0 then 15 else limit) MAX_ITEMS) in
  let todo := firstn (Z.to_nat limit) (List.filter (pending labels) (ds_items ds)) in
  match todo with
  | [] => ret (mkDraftReport [] (js_annotator st) 0 0)
  | _ =>
      evidence <- on_db (chunk_texts ctx (ds_collection ds) (flat_map it_must_cite todo)) ;;
      draft_batches ctx evidence (mkDraftReport [] (js_annotator st) 0 0) (groups (length todo) todo)
  end.

(** The item with its draft, if it has none. *)
Definition filled (drafted : list (string * string)) (x : EvalItem) : EvalItem :=
  match lookup_text (it_id x) drafted with
  | Some a => if blank (it_expected_answer x) && nonempty a then x <| it_expected_answer := a |> else x
  | None => x
  end.

(** [annotator.apply]. *)
Definition apply_drafts (ds : Dataset) (drafted : list (string * string)) : list EvalItem := map (filled drafted) (ds_items ds).

Section draft_route.
Context `{AuditEnv}.
Variable settings : eval_settings.

(** [POST /api/eval/datasets/{name}/draft]; [scope] is the derived context's id. *)
Definition draft_answers (now : timestamp) (fresh : uuid * uuid) (scope : uuid) (ctx : RequestContext) (n : string) (limit : Z)
    : M (db * V) (draft_report * option Dataset) :=
  guard ((1 <=? limit) && (limit <=? 50)) (HTTPException 422) ;;
  found <- on_db (load ctx n None) ;;
  match found with
  | None => raise (HTTPException 404)
  | Some ds =>
      existing <- on_db (for_dataset ctx n) ;;
      report <- draft (child ctx scope "annotate" {["task" := "eval"]}) ds existing limit ;;
      match dr_drafted report with
      | [] => ret (report, None)
      | _ =>
          saved <- on_db (save str_of settings now fresh ctx n (ds_collection ds) (map item_fields (apply_drafts ds (dr_drafted report)))) ;;
          on_db (record_drafted now ctx n (map fst (dr_drafted report)) (dr_model report)) ;;
          on_db (audit_record now ctx "eval.answers.drafted" SUCCEEDED "eval_dataset" n
            (JObj [("items", JArr (map (fun kv => JStr kv.1) (dr_drafted report))); ("model", JStr (dr_model report)); ("content_sha256", JStr (ds_sha saved))]) false) ;;
          ret (report, Some saved)
      end
  end.
End draft_route.

(** * The evaluation workload *)

(** The first [k] of the scan of matching rows. *)
Variable nearest : Z → list Q → list chunk → result (list (chunk * Q)).

(** [pgvector_retriever]. *)
Definition retriever (scoped : RequestContext) (ctx : RequestContext) (c question : string) (top_k : Z) : M (db * V) (list string) :=
  vectors <- eval_embed scoped [question] ;;
  probe <- (match vectors with v :: _ => ret v | [] => raise (LookupError "list index out of range") end) ;;
  on_db (tenant_session (
    version <- live_version_or_none ctx c ;;
    match version with
    | None => ret []
    | Some v =>
        rows <- sql_select (visible (tenant_of ctx) (Chat.searchable c v)) ;;
        match nearest top_k probe rows with Ok l => ret (map (fun x => ch_canonical_id x.1) l) | Raise e => raise e end
    end)).

Definition context_lines (texts : gmap string string) (retrieved : list string) : list string :=
  omap (fun c => option_map (fun t => "[" +:+ c +:+ "] " +:+ t) (texts !! c)) retrieved.

Definition answer_request (texts : gmap string string) (x : EvalItem) (retrieved : list string) : Cache.ChatRequest :=
  Cache.mkChatRequest
    [Chat.message (JStr "system") (JStr Chat.SYSTEM_PROMPT);
     Chat.message (JStr "user") (JStr ("Sources:" +:+ nl +:+ join (nl +:+ nl) (context_lines texts retrieved) +:+ nl +:+ nl +:+ "Question: " +:+ it_question x))]
    (js_cheap st) (Some (JInt 0)) (Some 400) None None true.

(** [_make_answerer]. *)
Definition answerer (ctx : RequestContext) (c : string) (x : EvalItem) (retrieved : list string) : M (db * V) string :=
  match retrieved with
  | [] => ret Chat.NO_SOURCES
  | _ =>
      texts <- on_db (chunk_texts ctx c retrieved) ;;
      response <- eval_chat ctx (answer_request texts x retrieved) ;;
      ret (Cache.rs_content response)
  end.

(** [surfaces[s] = surfaces.get(s, 0) + 1], over the failures. *)
Definition tally (l : list (string * Z)) (s : string) : list (string * Z) :=
  if existsb (fun kv => String.eqb kv.1 s) l then map (fun kv => if String.eqb kv.1 s then (s, kv.2 + 1) else kv) l else l ++ [(s, 1)].

Definition failed_at (o : ItemOutcome) : option string :=
  match oc_passed o, oc_fix_surface o with
  | Some false, Some s => if nonempty s then Some s else None
  | _, _ => None
  end.

Record eval_report := mkEvalReport {
  ev_completed_run : EvalRun;
  ev_dataset : string;
  ev_collection : string;
  ev_surfaces : list (string * Z);
  ev_review : review_summary;
  ev_gate : GateDecision
}.

Definition DEFAULT_TOP_K : Z := 5.

Section workload.
Variable release : string.

(** [workloads/eval/workload.run], the payload's fields as they are read. *)
Definition evaluation (now later : timestamp) (fresh scope : uuid) (elapsed : Q) (ctx : RequestContext) (n : string) (sha : option string) (top_k : option Z)
    : M (db * V) eval_report :=
  let sha := if truthy sha then sha else None in
  let top_k := match top_k with Some k => if k =? 0 then DEFAULT_TOP_K else k | None => DEFAULT_TOP_K end in
  found <- on_db (load ctx n sha) ;;
  match found with
  | None => raise (ValueError "no dataset")
  | Some ds =>
      let scoped := child ctx scope "score" {["task" := "eval"]} in
      labels <- on_db (for_dataset ctx n) ;;
      completed <- run (mkRunnerSettings release (js_cheap st) (js_judge st)) (retriever scoped) (Some answerer) (Some (grade scoped))
        (Some (fun ids => on_db (chunk_texts scoped (ds_collection ds) ids))) now later fresh elapsed scoped ds labels top_k None ;;
      decision <- on_db (evaluate default_tolerances ctx completed n) ;;
      ret (mkEvalReport completed n (ds_collection ds) (foldl tally [] (omap failed_at (rn_outcomes completed))) (summarise (ds_items ds) labels) decision)
  end.
End workload.

End models.

(** * Lemmas *)

Lemma surface_roundtrip x : surface_of (surface_str x) = x.
Proof. by destruct x. Qed.

Section calls.
Context {V : Type} {client : EvalClient V}.
Variable str_of : json → string.
Variable loads : string → option json.
Variable st : judge_settings.
Variables (judge_prompt annotator_prompt : string) (verdict_schema : json).

Notation keeps m := (∀ C, preserves (fun s : db * V => eval_view s.1 = C) m).
Notation try_ := (try_formats str_of loads st judge_prompt).
Notation grades := (grade str_of loads st judge_prompt verdict_schema).

(** ** The judge *)

(** A call of the judge in this format, which gave no verdict. *)
Definition no_verdict (ctx : RequestContext) (x : EvalItem) (actual : string) (retrieved : list string) (format : option json) : Prop :=
  ∃ s r s', eval_chat ctx (judge_request st judge_prompt x actual retrieved format) s = (r, s') ∧
    match r with Ok response => parse_verdict str_of loads (Cache.rs_content response) = None | Raise _ => True end.

Lemma attempt_cases {A} (m : M (db * V) A) s r s' : attempt m s = (r, s') →
  (∃ a, r = Ok (inl a) ∧ m s = (Ok a, s')) ∨ (∃ e, r = Ok (inr e) ∧ m s = (Raise e, s')) ∨ r = Raise RunCancelled ∧ m s = (Raise RunCancelled, s').
Proof using.
  unfold attempt, try_except, bind. destruct (m s) as [[a|e] s1]; [intros [= <- <-]; left; by exists a|].
  destruct e; intros [= <- <-]; right; (by right) || (left; by eexists).
Qed.

Lemma try_formats_cases ctx x actual retrieved l last s r s' : try_ ctx x actual retrieved last l s = (r, s') →
  match r with
  | Raise e => e = RunCancelled ∨ ∃ d, (cancellation_point ctx d).1 = Raise e
  | Ok v =>
      (∃ format response s1 s2, In format l ∧ eval_chat ctx (judge_request st judge_prompt x actual retrieved format) s1 = (Ok response, s2) ∧
         parse_verdict str_of loads (Cache.rs_content response) = Some v)
      ∨ ∃ last', v = unavailable last' ∧ Forall (no_verdict ctx x actual retrieved) l
  end.
Proof using.
  revert last s. induction l as [|format l IH]; intros last s E; [injection E as <- <-; right; by exists last|]. cbn [try_formats] in E.
  apply bind_cases in E as [(e & E & ->)|(u & s1 & _ & E)]; [apply on_db_inv in E as [E _]; right; exists s.1; by rewrite E|].
  apply bind_cases in E as [(e & E & ->)|(response & s2 & E1 & E)].
  { left. apply attempt_cases in E as [(a & ? & _)|[(e' & ? & _)|[[= ->] _]]]; done. }
  assert (Hnext : ∀ last', no_verdict ctx x actual retrieved format → try_ ctx x actual retrieved last' l s2 = (r, s') →
    match r with
    | Raise e => e = RunCancelled ∨ ∃ d, (cancellation_point ctx d).1 = Raise e
    | Ok v =>
        (∃ format0 response0 s1 s2, In format0 (format :: l) ∧ eval_chat ctx (judge_request st judge_prompt x actual retrieved format0) s1 = (Ok response0, s2) ∧
           parse_verdict str_of loads (Cache.rs_content response0) = Some v)
        ∨ ∃ last', v = unavailable last' ∧ Forall (no_verdict ctx x actual retrieved) (format :: l)
    end).
  { intros last' Hn Et. apply IH in Et. destruct r as [v|e]; [|done]. destruct Et as [(f & rs & t1 & t2 & Hf & R)|(l' & -> & Hl)].
    - left. exists f, rs, t1, t2. split; [by right|done].
    - right. exists l'. split; [done|by constructor]. }
  apply attempt_cases in E1 as [(a & [= ->] & Ec)|[(e & [= ->] & Ec)|[? _]]]; [| |done].
  - destruct (parse_verdict str_of loads (Cache.rs_content a)) as [v|] eqn:Ep.
    + injection E as <- <-. left. exists format, a, s1, s2. split; [by left|done].
    + apply (Hnext last); [|done]. exists s1, (Ok a), s2. by split.
  - apply (Hnext (Some e)); [|done]. by exists s1, (Raise e), s2.
Qed.

Lemma parsed_available raw v : parse_verdict str_of loads raw = Some v → v_judge_unavailable v = false ∧ ∃ x, v_fix_surface v = surface_str x.
Proof using.
  unfold parse_verdict. destruct (negb _); [done|]. destruct (loads _) as [[| | | | | |kvs]|]; try done. destruct (dict_get "passed" kvs); [|done].
  intros [= <-]. split; [done|]. by eexists.
Qed.

Lemma on_db_keeps {A} (m : M db A) : (∀ d, eval_view (m d).2 = eval_view d) → keeps (on_db (W := V) m).
Proof using. intros Hm C [d w] E. unfold on_db. cbn [fst snd] in *. specialize (Hm d). destruct (m d) as [r d']. cbn [fst snd] in *. congruence. Qed.

Lemma check_keeps_eval ctx : keeps (on_db (W := V) (cancellation_point ctx)).
Proof using. apply on_db_keeps. intros d. by rewrite cancellation_point_same. Qed.

Lemma attempt_keeps_eval {A} (m : M (db * V) A) : keeps m → keeps (attempt m).
Proof using. apply attempt_keeps. Qed.

Lemma try_formats_keeps ctx x actual retrieved l last : keeps (try_ ctx x actual retrieved last l).
Proof using.
  intros C. revert last. induction l as [|format l IH]; intros last; [apply preserves_ret|]. cbn [try_formats]. apply preserves_bind; [apply check_keeps_eval|]. intros _.
  apply preserves_bind; [apply attempt_keeps_eval; intros; apply chat_keeps_eval|]. intros [response|e]; [|apply IH].
  destruct (parse_verdict _ _ _); [apply preserves_ret|apply IH].
Qed.

Lemma grade_keeps ctx x actual retrieved : keeps (grades ctx x actual retrieved).
Proof using. intros C. unfold grade. destruct (blank _); [apply preserves_ret|apply try_formats_keeps]. Qed.

(** C31: a verdict is the judge's or says that there is none.  Grading an answer returns,
    whatever the model's client raises, a cancellation apart.  A verdict that counts was read
    off a reply of the judge's model to a request in one of the three formats, asked about
    this answer, and points at one of the seven surfaces.  Otherwise the verdict is marked
    unavailable and does not pass: either every format was tried and gave none, or the item
    has no reference, and then the model is not asked. *)
Theorem a_verdict_is_the_judges ctx x actual retrieved s r s' : grades ctx x actual retrieved s = (r, s') →
  match r with
  | Raise e => e = RunCancelled ∨ ∃ d, (cancellation_point ctx d).1 = Raise e
  | Ok v =>
      (∃ surface, v_fix_surface v = surface_str surface) ∧
      if v_judge_unavailable v then
        v_passed v = false ∧
        if blank (it_expected_answer x) then v = no_reference ∧ s' = s else Forall (no_verdict ctx x actual retrieved) (formats verdict_schema)
      else
        blank (it_expected_answer x) = false ∧
        ∃ format response s1 s2, In format (formats verdict_schema) ∧
          eval_chat ctx (judge_request st judge_prompt x actual retrieved format) s1 = (Ok response, s2) ∧
          parse_verdict str_of loads (Cache.rs_content response) = Some v
  end.
Proof using.
  unfold grade. destruct (blank (it_expected_answer x)) eqn:Eb.
  - intros [= <- <-]. split; [by exists EXPECTED_ANSWER|]. by split.
  - intros E. apply try_formats_cases in E. destruct r as [v|e]; [|done]. destruct E as [(f & rs & s1 & s2 & Hf & Ec & Ep)|(last & -> & Hn)].
    + apply parsed_available in Ep as Hv. destruct Hv as [-> Hv]. split; [done|]. split; [done|]. by exists f, rs, s1, s2.
    + split; [by exists NO_SURFACE|]. cbn. by split.
Qed.

(** ** What is read of the corpus *)

Lemma live_version_same ctx c d : (live_version_or_none ctx c d).2 = d.
Proof using.
  unfold live_version_or_none, try_except, live_version, query_live, bind, tenant_session, tx, sql_select, gets, one_or_none.
  by destruct (select_where _ _) as [|b [|b' l]].
Qed.

Lemma live_read_same {A} ctx c (k : option Z → M db A) d : (∀ o d', (k o d').2 = d') →
  (tenant_session (version <- live_version_or_none ctx c ;; k version) d).2 = d.
Proof using.
  intros Hk. unfold tenant_session, tx. destruct (bind _ _ d) as [[a|e] d'] eqn:E; [|done]. cbn [snd].
  apply bind_ok in E as (o & d1 & E1 & E). pose proof (live_version_same ctx c d) as H1. rewrite E1 in H1. cbn [snd] in H1. subst d1.
  specialize (Hk o d). by rewrite E in Hk.
Qed.

Lemma chunk_texts_same ctx c ids d : (chunk_texts ctx c ids d).2 = d.
Proof using. unfold chunk_texts. destruct ids; [done|]. apply live_read_same. by intros [v|]. Qed.

Lemma texts_of_spec rows c t : texts_of rows !! c = Some t → ∃ x, In x rows ∧ ch_canonical_id x = c ∧ ch_text x = t.
Proof using.
  unfold texts_of. assert (H : ∀ m : gmap string string, foldl (fun m x => <[ch_canonical_id x := ch_text x]> m) m rows !! c = Some t →
    m !! c = Some t ∨ ∃ x, In x rows ∧ ch_canonical_id x = c ∧ ch_text x = t).
  { induction rows as [|x rows IH]; intros m Hm; [by left|]. cbn [foldl] in Hm. apply IH in Hm as [Hm|(y & Hy & R)].
    - apply lookup_insert_Some in Hm as [[E1 E2]|[_ Hm]]; [right; exists x; split; [by left|done]|by left].
    - right. exists y. split; [by right|done]. }
  intros Hm. apply H in Hm as [Hm|Hm]; [by rewrite lookup_empty in Hm|done].
Qed.

(** The texts are those of the build being served. *)
Definition served (ctx : RequestContext) (c : string) (d : db) (texts : gmap string string) : Prop :=
  ∀ i t, texts !! i = Some t → ∃ v x, serving (tenant_of ctx) c v d ∧ In x (content (tenant_of ctx) c v d) ∧ ch_canonical_id x = i ∧ ch_text x = t.

Lemma chunk_texts_served ctx c ids d m d' : builds_wf d → chunk_texts ctx c ids d = (Ok m, d') → served ctx c d m.
Proof using.
  intros W E i t Ht. unfold chunk_texts in E. destruct ids as [|i0 ids]; [injection E as <- _; by rewrite lookup_empty in Ht|].
  apply (proj1 (tx_ok _ _ _ _)) in E. destruct (live_version_or_none_spec ctx c d W) as (o & El & Ho). rewrite (run_bind _ _ _ _ _ El) in E.
  destruct o as [v|]; [|injection E as <- _; by rewrite lookup_empty in Ht]. apply bind_ok in E as (rows & d1 & E1 & E). injection E1 as <- <-. injection E as <- _.
  apply texts_of_spec in Ht as (x & Hx & Hi & Hxt). exists v, x. split; [by apply Ho|]. split; [|done].
  apply filter_In in Hx as [Hx Hp]. apply filter_In. split; [done|]. unfold visible in *. apply andb_true_iff in Hp as [-> Hp]. by apply andb_true_iff in Hp as [-> _].
Qed.

Section scoring_with_models.
Variable nearest : Z → list Q → list chunk → result (list (chunk * Q)).

Lemma retriever_keeps scoped ctx c q k : keeps (retriever nearest scoped ctx c q k).
Proof using.
  intros C. apply preserves_bind; [apply embed_keeps_eval|]. intros vectors. apply preserves_bind; [destruct vectors; auto with platform|]. intros probe.
  apply on_db_keeps. intros d. f_equal. apply live_read_same. intros [v|] d'; [|done]. cbn. by destruct (nearest _ _ _).
Qed.

Lemma answerer_keeps ctx c x l : keeps (answerer st ctx c x l).
Proof using.
  intros C. unfold answerer. destruct l as [|i l]; [apply preserves_ret|]. apply preserves_bind; [apply on_db_keeps; intros; by rewrite chunk_texts_same|].
  intros texts. apply preserves_bind; [apply chat_keeps_eval|auto with platform].
Qed.

Lemma keeps_part {T A} (view : db → T) (m : M (db * V) A) : (∀ d d', eval_view d = eval_view d' → view d = view d') → keeps m →
  ∀ C, preserves (fun s => view s.1 = C) m.
Proof using. intros Hv Hm C s E. rewrite <- E. apply Hv. by apply (Hm (eval_view s.1)). Qed.

(** Everything but the runs and their results. *)
Definition unscored (d : db) := (datasets d, builds d, chunks d, item_labels d, (baselines d, policies d)).

Lemma baseline_of_appended t n d d' r : gate_wf d → ¬ In (er_id r) (map er_id (eval_runs d)) →
  eval_runs d' = eval_runs d ++ [r] → baselines d' = baselines d → baseline_of t n d' = baseline_of t n d.
Proof using.
  intros W Hf Er Eb. unfold baseline_of. rewrite Eb. rewrite !flat_map_concat_map. f_equal. apply map_ext_in. intros b Hb. rewrite Er, select_where_app.
  assert (Hb' : In b (baselines d)) by (by apply filter_In in Hb as [Hb _]).
  rewrite (proj2 (select_where_nil _ [r])); [by rewrite app_nil_r|]. intros x [<-|[]]. unfold visible. apply andb_false_iff. right. apply N.eqb_neq. intros E.
  pose proof (gw_owned d W) as Ho. rewrite List.Forall_forall in Ho. destruct (Ho b Hb') as (y & Hy & Hi & _). apply Hf. rewrite E, <- Hi. by apply in_map.
Qed.

Lemma gate_wf_appended d d' r : gate_wf d → ¬ In (er_id r) (map er_id (eval_runs d)) → er_status r = ev_completed →
  eval_runs d' = eval_runs d ++ [r] → baselines d' = baselines d → gate_wf d'.
Proof using.
  intros [H1 H2 H3 H4] Hf Hc Er Eb. constructor; rewrite ?Er, ?Eb; [done| | |].
  - rewrite map_app. by apply NoDup_snoc.
  - eapply Forall_impl; [exact H3|]. intros b (x & Hx & R). exists x. split; [apply in_app_iff; by left|done].
  - apply List.Forall_app. split; [done|]. constructor; [done|constructor].
Qed.

(** The decision reads only what is stored. *)
Definition same_decision (g g' : GateDecision) : Prop := gd_promoted g = gd_promoted g' ∧ gd_reasons g = gd_reasons g' ∧ gd_deltas g = gd_deltas g'.

Lemma verdict_on_loaded r c c' l : loaded r c → loaded r c' → same_decision (verdict_on c l) (verdict_on c' l).
Proof using.
  intros (_ & E1 & E2 & E3 & E4 & E5) (_ & F1 & F2 & F3 & F4 & F5).
  assert (Ho : own_reasons c = own_reasons c') by (unfold own_reasons; by rewrite E2, E3, E4, F2, F3, F4).
  unfold verdict_on, decide_against. rewrite Ho, E1, E2, E3, E5, F1, F2, F3, F5. destruct l as [|b l]; [by destruct (own_reasons c')|].
  by destruct (negb _).
Qed.

Notation evaluates := (evaluation str_of loads st judge_prompt verdict_schema nearest).

(** C32: an evaluation measures and does not decide.  However it ends, it changes no set, no
    label, no schedule, no baseline and nothing of the corpus.  One that completes has scored,
    of the version it was asked for, every item no reviewer labelled unusable, once, and counted
    the others as excluded; it added its results and one completed run, and reports what the
    gate says of that run against the baseline there is: the verdict a promotion of the stored
    run would be given.  One that does not adds no result and at most a run that is still
    running. *)
Theorem evaluation_does_not_promote release now later fresh scope elapsed ctx n sha top_k s r s' :
  gate_wf s.1 → results_wf s.1 → evaluates release now later fresh scope elapsed ctx n sha top_k s = (r, s') →
  unscored s'.1 = unscored s.1 ∧
  match r with
  | Ok report => ∃ ds labels row stored_run,
      load ctx n (if truthy sha then sha else None) s.1 = (Ok (Some ds), s.1) ∧ for_dataset ctx n s.1 = (Ok labels, s.1) ∧
      complete_run labels ds (ev_completed_run report) ∧
      eval_results s'.1 = eval_results s.1 ++ map (result_row (tenant_of ctx) fresh) (rn_outcomes (ev_completed_run report)) ∧
      eval_runs s'.1 = eval_runs s.1 ++ [row] ∧ er_id row = fresh ∧ er_dataset_sha row = ds_sha ds ∧
      load_run ctx fresh true s'.1 = (Ok (Some stored_run), s'.1) ∧
      same_decision (ev_gate report) (verdict_on stored_run (baseline_of (tenant_of ctx) n s.1))
  | Raise _ => eval_results s'.1 = eval_results s.1 ∧
      (eval_runs s'.1 = eval_runs s.1 ∨ ∃ row, eval_runs s'.1 = eval_runs s.1 ++ [row] ∧ er_status row = ev_running ∧ er_items_run row = 0)
  end.
Proof using.
  intros Wg Wr E. apply bind_cases in E as [(e & E & ->)|(found & s1 & E1 & E)].
  { apply on_db_inv in E as [E _]. pose proof (load_dataset_same ctx n (if truthy sha then sha else None) s.1) as H. rewrite E in H. cbn [snd] in H. rewrite H. by repeat split; left. }
  apply on_db_inv in E1 as [El Hw]. pose proof (load_dataset_same ctx n (if truthy sha then sha else None) s.1) as H. rewrite El in H. cbn [snd] in H. rewrite H in El.
  assert (s1 = s) as -> by (destruct s, s1; cbn in *; congruence). clear H Hw. destruct found as [ds|]; [|injection E as <- <-; by repeat split; left].
  cbn zeta in E. set (scoped := child ctx scope "score" _) in *. apply bind_cases in E as [(e & E & ->)|(labels & s1 & E1 & E)]; [apply on_db_inv in E as [E _]; discriminate|].
  apply on_db_inv in E1 as [Ef Hw]. injection Ef as El1 El2. assert (s1 = s) as -> by (destruct s, s1; cbn in *; congruence).
  set (evidence_ := Some (fun ids => on_db (W := V) (chunk_texts scoped (ds_collection ds) ids))) in *.
  assert (K : ∀ T (view : db → T), (∀ d d', eval_view d = eval_view d' → view d = view d') →
    (∀ c0 c q k C, preserves (fun s => view s.1 = C) (retriever nearest scoped c0 c q k)) ∧
    (∀ f, Some (answerer st) = Some f → ∀ c0 c x l C, preserves (fun s : db * V => view s.1 = C) (f c0 c x l)) ∧
    (∀ f, Some (grades scoped) = Some f → ∀ x a l C, preserves (fun s => view s.1 = C) (f x a l)) ∧
    ∀ f, evidence_ = Some f → ∀ l C, preserves (fun s => view s.1 = C) (f l)).
  { intros T view Hv. split; [|split; [|split]]; [| | |]; [intros c0 c q k; by apply keeps_part, retriever_keeps|intros f [= <-] c0 c x l; by apply keeps_part, answerer_keeps|intros f [= <-] x a l; by apply keeps_part, grade_keeps|].
    intros f [= <-] l. apply keeps_part; [done|]. apply on_db_keeps. intros d. by rewrite chunk_texts_same. }
  set (settings_ := mkRunnerSettings _ _ _) in *. set (k := match top_k with Some _ => _ | None => _ end) in *.
  assert (Hu : ∀ C, preserves (fun s : db * V => unscored s.1 = C) (run settings_ (retriever nearest scoped) (Some (answerer st)) (Some (grades scoped)) evidence_ now later fresh elapsed scoped ds labels k None)).
  { destruct (K _ unscored) as (K1 & K2 & K3 & K4); [by intros d d' [= E1 E2 E3 E4 E5 E6 E7]; unfold unscored; congruence|]. apply run_keeps; [done|done|].
    by apply score_all_keeps. }
  destruct (K _ gate_view) as (K1 & K2 & K3 & K4); [by intros d d' [= E1 E2 E3 E4 E5 E6 E7]; unfold gate_view; congruence|]. clear K.
  apply bind_cases in E as [(e & E & ->)|(completed & s1 & E1 & E)].
  { pose proof (Hu _ s eq_refl) as Hs. rewrite E in Hs. split; [done|]. by apply (run_cases _ _ _ _ _ K1 K2 K3 K4) in E. }
  pose proof (Hu _ s eq_refl) as Hs. rewrite E1 in Hs. cbn [snd] in Hs. apply (run_cases _ _ _ _ _ K1 K2 K3 K4) in E1; [|done].
  destruct E1 as (Hc & _ & _ & _ & Ev & row & y & Er & Hi & Hf & Hsha & Hst & Hl & Ey & Hly & _). rewrite <- Hi in Hf.
  assert (Eb : baselines s1.1 = baselines s.1) by (by injection Hs).
  rewrite (run_bind _ _ _ (verdict_on completed (baseline_of (tenant_of ctx) n s1.1)) s1) in E.
  2: { unfold on_db. rewrite (evaluate_run s1.1); [by destruct s1|]. by apply (gate_wf_appended s.1 _ row). }
  injection E as <- <-. split; [done|]. exists ds, labels, row, y. split; [done|]. split; [by rewrite <- El1|].
  split; [done|split; [done|split; [done|split; [done|split; [done|split; [done|]]]]]]. cbn [ev_gate].
  rewrite (baseline_of_appended _ _ s.1 s1.1 row) by done. by apply (verdict_on_loaded row).
Qed.
End scoring_with_models.

(** ** The annotator *)

Section drafting.
Context `{AuditEnv}.
Variable settings : eval_settings.

Lemma assign_in i a k v l : In (i, a) (assign k v l) → In (i, a) l ∨ (i, a) = (k, v).
Proof using.
  unfold assign. destruct (existsb _ l); [|intros [Hi|[Hi|[]]]%in_app_iff; auto].
  intros (kv & E & Hi)%in_map_iff. destruct (String.eqb kv.1 k); [right|left]; by subst.
Qed.

Lemma keep_answers_in i a l answers : In (i, a) (keep_answers l answers) → In (i, a) l ∨ In (i, a) answers ∧ a ≠ "".
Proof using.
  unfold keep_answers. revert l. induction answers as [|[k v] answers IH]; intros l Hi; [by left|]. cbn [foldl] in Hi.
  apply IH in Hi as [Hi|[Hi Hn]]; [|right; split; [by right|done]]. cbn [fst snd] in Hi. destruct (nonempty v) eqn:Ev; [|by left].
  apply assign_in in Hi as [Hi|[= -> ->]]; [by left|]. right. split; [by left|]. by intros ->.
Qed.

Lemma groups_in {A} fuel (l g : list A) x : In g (groups fuel l) → In x g → In x l.
Proof using.
  revert l. induction fuel as [|fuel IH]; intros l Hg Hx; [done|]. destruct l as [|y l]; [done|]. cbn [groups] in Hg.
  destruct Hg as [<-|Hg]; [by apply firstn_subset in Hx|]. apply (IH _ Hg) in Hx. rewrite <- (firstn_skipn BATCH (y :: l)). apply in_app_iff. by right.
Qed.

(** An answer was read off a reply to a request about these items. *)
Definition replied (ctx : RequestContext) (evidence : gmap string string) (ok : EvalItem → Prop) (i a : string) : Prop :=
  ∃ items response s1 s2, Forall (fun x => ok x ∧ has_passages evidence x = true) items ∧
    eval_chat (V := V) ctx (annotator_request annotator_prompt (js_annotator st) (map (block evidence) items)) s1 = (Ok response, s2) ∧
    In (i, a) (parse_answers str_of loads (Cache.rs_content response)) ∧ a ≠ "".

Lemma draft_batches_spec ctx evidence (ok : EvalItem → Prop) l r s r' s' :
  dr_model r = js_annotator st → (∀ g x, In g l → In x g → ok x) →
  draft_batches str_of loads annotator_prompt ctx evidence r l s = (Ok r', s') →
  dr_model r' = js_annotator st ∧ ∀ i a, In (i, a) (dr_drafted r') → In (i, a) (dr_drafted r) ∨ replied ctx evidence ok i a.
Proof using.
  revert r s. induction l as [|batch l IH]; intros r s Hm Hok E; [injection E as <- _; split; [done|by left]|]. cbn [draft_batches] in E.
  apply bind_ok in E as (u & s1 & _ & E). cbv zeta in E. set (r1 := mkDraftReport _ _ (_ + _) _) in E.
  assert (Hok' : ∀ g x, In g l → In x g → ok x) by (intros g x Hg; apply Hok; by right).
  destruct (List.filter (has_passages evidence) batch) as [|x0 usable] eqn:Ef; [by apply (IH r1 s1)|].
  apply bind_ok in E as ([response|er] & s2 & E1 & E); [|by apply (IH r1 s2)].
  apply attempt_cases in E1 as [(a & [= <-] & Ec)|[(e' & ? & _)|[? _]]]; [|done|done].
  apply IH in E as [Hm' Hd]; [|done|done]. split; [done|]. intros i a Hi. cbn [dr_drafted] in Hd. apply Hd in Hi as [Hi|Hi]; [|by right].
  apply keep_answers_in in Hi as [Hi|[Hi Hn]]; [by left|]. right. exists (x0 :: usable), response, s1, s2. split; [|by rewrite <- Hm].
  apply List.Forall_forall. rewrite <- Ef. intros x [Hx Hp]%filter_In. split; [|done]. apply (Hok batch); [by left|done].
Qed.

Lemma draft_batches_keeps ctx evidence r l : keeps (draft_batches str_of loads annotator_prompt ctx evidence r l).
Proof using.
  intros C. revert r. induction l as [|batch l IH]; intros r; [apply preserves_ret|]. cbn [draft_batches]. apply preserves_bind; [apply check_keeps_eval|]. intros _.
  cbv zeta. destruct (List.filter _ batch) as [|x0 us]; [apply IH|]. apply preserves_bind; [apply attempt_keeps_eval; intros; apply chat_keeps_eval|]. intros [response|e]; apply IH.
Qed.

Notation drafts := (draft str_of loads st annotator_prompt).

Lemma draft_keeps ctx ds labels limit : keeps (drafts ctx ds labels limit).
Proof using.
  intros C. unfold draft. cbv zeta. destruct (firstn _ _); [apply preserves_ret|].
  apply preserves_bind; [apply on_db_keeps; intros; by rewrite chunk_texts_same|]. intros evidence. apply draft_batches_keeps.
Qed.

Lemma draft_spec ctx ds labels limit s r s' : builds_wf s.1 → drafts ctx ds labels limit s = (Ok r, s') →
  dr_model r = js_annotator st ∧ ∃ evidence, served ctx (ds_collection ds) s.1 evidence ∧
    ∀ i a, In (i, a) (dr_drafted r) → replied ctx evidence (fun x => In x (ds_items ds) ∧ pending labels x = true) i a.
Proof using.
  intros W E. unfold draft in E. cbv zeta in E. set (todo := firstn _ _) in E.
  assert (Ht : ∀ x, In x todo → In x (ds_items ds) ∧ pending labels x = true) by (intros x Hx; by apply firstn_subset, filter_In in Hx).
  destruct todo as [|x0 todo'] eqn:Et.
  { injection E as <- _. split; [done|]. exists ∅. split; [intros i t Hi; by rewrite lookup_empty in Hi|done]. }
  apply bind_ok in E as (evidence & s1 & E1 & E). apply on_db_inv in E1 as [E1 _].
  apply (draft_batches_spec _ _ (fun x => In x (ds_items ds) ∧ pending labels x = true)) in E as [Hm Hd]; [|done|intros g x Hg Hx; apply Ht; by apply (groups_in _ _ _ _ Hg)].
  split; [done|]. exists evidence. split; [by apply (chunk_texts_served _ _ _ _ _ _ W) in E1|]. intros i a Hi. by apply Hd in Hi as [|].
Qed.

(** The item as it was, tidied, with a drafted answer at most where it had none. *)
Definition drafted_from (drafted : list (string * string)) (x y : EvalItem) : Prop :=
  it_id y = strip (it_id x) ∧ it_question y = strip (it_question x) ∧ it_must_cite y = it_must_cite x ∧
  (it_expected_answer y = strip (it_expected_answer x)
   ∨ blank (it_expected_answer x) = true ∧ ∃ a, In (it_id x, a) drafted ∧ it_expected_answer y = strip a).

Lemma stripped_fields k v x : In (k, v) [("id", it_id x); ("question", it_question x); ("expected_answer", it_expected_answer x)] →
  stripped str_of k (item_fields x) = strip v.
Proof using. intros [[= <- <-]|[[= <- <-]|[[= <- <-]|[]]]]; unfold stripped; cbn; by destruct (_ x). Qed.

Lemma citations_of_fields x : citations_of str_of (item_fields x) = Ok (it_must_cite x).
Proof using.
  unfold citations_of. cbn. destruct (it_must_cite x) as [|m l]; [done|]. cbn. rewrite map_map. cbn. by rewrite map_id.
Qed.

Lemma build_items_tidy items : ∀ seen built, build_items str_of seen (map item_fields items) = Ok built →
  Forall2 (fun x y => y = mkItem (strip (it_id x)) (strip (it_question x)) (strip (it_expected_answer x)) (it_must_cite x)) items built.
Proof using.
  induction items as [|x items IH]; intros seen built E; cbn [map build_items] in E; [injection E as <-; constructor|].
  rewrite (stripped_fields "id" (it_id x)), (stripped_fields "question" (it_question x)), (stripped_fields "expected_answer" (it_expected_answer x)), citations_of_fields in E by (cbn; auto).
  cbv zeta in E. destruct (String.eqb _ ""); [done|]. destruct (mem _ _); [done|]. destruct (String.eqb _ ""); [done|]. destruct (negb _); [done|].
  destruct (build_items _ _ _) as [l|e] eqn:El; [|done]. injection E as <-. constructor; [done|by apply IH in El].
Qed.

Lemma lookup_text_in k v l : lookup_text k l = Some v → In (k, v) l.
Proof using.
  unfold lookup_text. destruct (List.find _ l) as [[k' v']|] eqn:E; [|done]. apply find_some in E as [Hi E%String.eqb_eq]. cbn in E. subst. by intros [= ->].
Qed.

Lemma saved_drafts now fresh ctx n c items drafted d ds d' :
  save str_of settings now fresh ctx n c (map item_fields (map (filled drafted) items)) d = (Ok ds, d') → Forall2 (drafted_from drafted) items (ds_items ds).
Proof using.
  unfold save. intros E. destruct (build_dataset _ _) as [l|e] eqn:Eb; [|done].
  apply bind_ok in E as (i & d1 & _ & E). injection E as <- _. cbn [ds_items].
  assert (Eb' : build_items str_of [] (map item_fields (map (filled drafted) items)) = Ok l) by (unfold build_dataset in Eb; by destruct (map item_fields _)).
  apply build_items_tidy in Eb'. clear Eb. revert l Eb'. induction items as [|x items IH]; intros l Hl; inversion Hl as [|? y ? l' Hy Hl']; subst; [constructor|].
  constructor; [|by apply IH]. unfold drafted_from, filled. destruct (lookup_text (it_id x) drafted) as [a|] eqn:El; [|cbn; auto].
  destruct (blank (it_expected_answer x) && nonempty a) eqn:Eb; [|cbn; auto]. apply andb_true_iff in Eb as [Eb _]. cbn.
  do 3 (split; [done|]). right. split; [done|]. exists a. split; [by apply lookup_text_in|done].
Qed.

Notation drafts_answers := (draft_answers str_of loads st annotator_prompt settings).

(** The labels and the versions a person relies on. *)
Definition respected (d0 d : db) : Prop := labels_sound d0 d ∧ sound d0 d.

Lemma respected_keeps {A} d0 (m : M (db * V) A) : keeps m → preserves (fun s => respected d0 s.1) m.
Proof using.
  intros Hm s [L S]. pose proof (Hm (eval_view s.1) s eq_refl) as E. injection E as E1 E2 E3 E4 E5 E6 E7 E8.
  split; [by apply (label_same d0 s.1)|by apply (sound_same d0 s.1)].
Qed.

Lemma respected_db {A} d0 (m : M db A) : preserves (respected d0) m → preserves (fun s : db * V => respected d0 s.1) (on_db m).
Proof using. intros Hm [d w] H0. unfold on_db. cbn [fst snd] in *. specialize (Hm d H0). by destruct (m d) as [r d']. Qed.

Lemma respected_both {A} d0 (m : M db A) : preserves (labels_sound d0) m → preserves (sound d0) m → preserves (respected d0) m.
Proof using. intros H1 H2 d [L S]. by split; [apply H1|apply H2]. Qed.

Lemma draft_answers_respects d0 now fresh scope ctx n limit : preserves (fun s => respected d0 s.1) (drafts_answers now fresh scope ctx n limit).
Proof using.
  apply preserves_bind; [apply preserves_guard|]. intros _.
  apply preserves_bind; [apply respected_keeps, on_db_keeps; intros; by rewrite load_dataset_same|]. intros [ds|]; [|apply preserves_raise].
  apply preserves_bind; [by apply respected_keeps, on_db_keeps|]. intros existing.
  apply preserves_bind; [apply respected_keeps, draft_keeps|]. intros report. destruct (dr_drafted report) as [|kv l]; [apply preserves_ret|].
  apply preserves_bind.
  { apply respected_db, respected_both; [|apply save_keeps]. intros d L. apply (label_same d0 d); [apply save_labels|done]. }
  intros saved. apply preserves_bind.
  { apply respected_db, respected_both; [apply record_drafted_attest|]. apply record_drafted_free. intros l' d. by apply sound_same. }
  intros k. apply preserves_bind; [|auto with platform]. apply respected_keeps, on_db_keeps. intros d.
  match goal with |- context [audit_record ?a ?b ?c ?d0 ?e ?f ?g ?h d] => destruct (audit_record a b c d0 e f g h d) as [r d'] eqn:E end.
  apply audit_record_only_audit in E. cbn [snd]. by apply (only_audit_keeps eval_view _ _ E).
Qed.

(** Drafting fills blanks, from the evidence, and takes nothing from a person.  However
    a request to draft answers ends, an item a human answered is labelled a human's as
    before and every version there was is there, unchanged.  What it drafted was read off
    replies of the annotator's model to requests made of items nobody had answered or set
    aside, their questions and the passages they cite, in the build that is being served:
    nothing the retriever returned.  The version it saves has the items of the one it read,
    in the same order, each with its id, its question, its citations and its answer, a
    drafted answer at most where there was none. *)
Theorem drafts_fill_blanks now fresh scope ctx n limit s res s' :
  labels_wf s.1 → sets_wf s.1 → builds_wf s.1 → drafts_answers now fresh scope ctx n limit s = (res, s') →
  attested s.1 s'.1 ∧ kept s.1 s'.1 ∧
  ∀ report saved, res = Ok (report, saved) → ∃ ds labels evidence,
    load ctx n None s.1 = (Ok (Some ds), s.1) ∧ for_dataset ctx n s.1 = (Ok labels, s.1) ∧ served ctx (ds_collection ds) s.1 evidence ∧
    (∀ i a, In (i, a) (dr_drafted report) →
       replied (child ctx scope "annotate" {["task" := "eval"]}) evidence (fun x => In x (ds_items ds) ∧ pending labels x = true) i a) ∧
    match saved with
    | Some ds' => Forall2 (drafted_from (dr_drafted report)) (ds_items ds) (ds_items ds')
    | None => dr_drafted report = [] ∧ datasets s'.1 = datasets s.1 ∧ item_labels s'.1 = item_labels s.1
    end.
Proof using.
  intros Wl Ws Wb E. pose proof (draft_answers_respects s.1 now fresh scope ctx n limit s ltac:(split; [by split|by split])) as HR. rewrite E in HR. destruct HR as [[_ HA] [_ HK]].
  split; [done|split; [done|]]. intros report saved ->. apply bind_ok in E as (u & s1 & E1 & E). unfold guard in E1. destruct (_ && _) in E1; [|done]. injection E1 as _ <-.
  apply bind_ok in E as ([ds|] & s1 & E1 & E); [|done]. apply on_db_inv in E1 as [El Hw]. pose proof (load_dataset_same ctx n None s.1) as H1. rewrite El in H1. cbn [snd] in H1. rewrite H1 in El.
  assert (s1 = s) as -> by (destruct s, s1; cbn in *; congruence). clear H1 Hw.
  apply bind_ok in E as (labels & s1 & E1 & E). apply on_db_inv in E1 as [Ef Hw]. injection Ef as Ef1 Ef2.
  assert (s1 = s) as -> by (destruct s, s1; cbn in *; congruence). clear Ef2 Hw.
  apply bind_ok in E as (rep & s1 & E1 & E). pose proof (draft_keeps (child ctx scope "annotate" {["task" := "eval"]}) ds labels limit (eval_view s.1) s eq_refl) as Kd. rewrite E1 in Kd. cbn [snd] in Kd.
  apply draft_spec in E1 as (Hm & evidence & Hs & Hd); [|done]. exists ds, labels, evidence. split; [done|]. split; [by rewrite <- Ef1|].
  destruct (dr_drafted rep) as [|kv l] eqn:Er.
  - injection E as <- <- <-. rewrite Er. injection Kd as K1 K2 K3 K4 K5 K6 K7 K8. split; [done|]. split; [done|]. by split.
  - rewrite <- Er in E, Hd. apply bind_ok in E as (ds' & s2 & E2 & E). apply on_db_inv in E2 as [E2 _]. apply saved_drafts in E2.
    apply bind_ok in E as (k & s3 & _ & E). apply bind_ok in E as (h & s4 & _ & E). injection E as <- <- _. done.
Qed.
End drafting.
End calls.

(** * The client of the platform *)

Section platform.
Import Cache Ledger Llm.
Context {P : Type}.
Variable chat_create : ChatRequest → P → (raw_response + failure) * P.
Variable embed_create : string → list string → P → (option (option Z) * list (list Q) + exn) * P.
Variable encoding_for_model : string → option encoder.
Variable base_encoding : option encoder.
Variables (str_of : json → string) (sha256 : string → string).
Variable month_start : timestamp → timestamp.
Variable st : ledger_settings.
Variables (default_max_output_tokens : Z) (has_cache : bool) (cache_ttl : Z).
Variable during : Z → db → db.
(** While a request is out, nobody else touches what is being scored. *)
Hypothesis during_keeps : ∀ n d, eval_view (during n d) = eval_view d.
Variables (now done_at : timestamp) (fault fault' : option exn) (down : bool) (reserved reserved' : uuid) (rnd : Z → Q).
Variable embedding_model : string.

#[export] Instance evaluator_client : EvalClient (world P).
Proof using chat_create embed_create encoding_for_model base_encoding str_of sha256 month_start st default_max_output_tokens has_cache cache_ttl
  during during_keeps now done_at fault fault' down reserved reserved' rnd embedding_model.
  refine (mkEvalClient (world P)
    (fun ctx texts => embed P embed_create encoding_for_model base_encoding month_start st during now done_at fault fault' reserved ctx texts embedding_model)
    (chat P chat_create encoding_for_model base_encoding str_of sha256 month_start st default_max_output_tokens has_cache cache_ttl
       during now done_at fault fault' down reserved' rnd) _ _).
  - intros ctx l. by apply (Frame.embed_leaves eval_view).
  - intros ctx r. by apply (Frame.chat_leaves eval_view).
Defined.

End platform.

Module EvalDemo.
#[export] Instance env : AuditEnv := mkAuditEnv (str_take 64) (fun _ => "at") (fun j => j) (Some "r2").
#[export] Instance client : EvalClient (Llm.world Z) :=
  evaluator_client Llm.LlmDemo.create Chat.ChatDemo.embed_create (fun _ => None) (Some (fun s => Ok (str_len s))) (fun _ => "") Cache.CacheDemo.sha (fun x => x)
    Chat.ChatDemo.st 100 true 3600 (fun _ d => d) (fun _ _ => eq_refl) 5 9 None None false 77 78 (fun _ => 0%Q) "text-embedding-3-small".
Definition str_of (_ : json) : string := "".
(** The model says "ok"; this is what it means here, to the judge and to the annotator. *)
Definition verdicts (s : string) : option json := if String.eqb s "ok" then Some (JObj [("passed", JBool true); ("reason", JStr "same facts")]) else None.
Definition answers (s : string) : option json := if String.eqb s "ok" then Some (JObj [("q1", JStr " Open the bleed valve. ")]) else None.
Definition st : judge_settings := mkJudgeSettings "gpt-4.1" "gpt-4o" "gpt-4o-mini".
Definition settings : eval_settings := mkEvalSettings 21600 5.
Definition items : list EvalItem :=
  [mkItem "q1" "How do I bleed the pump?" "" ["c_0123abcd"]; mkItem "q2" "Who resets it?" "The shift lead" []].
Definition golden : eval_dataset := mkEvalDataset 50 1 "golden" "manuals" (content_sha items) (JArr (map item_json items)) 2 None 1.
Definition chunk_a : chunk := mkChunk 1 50 "manuals" "c_0123abcd" 0 4 "Open the bleed valve." JNull (Some [1%Q]) None.
Definition d0 : db := empty_db <| builds := [BuildsDemo.build 4 live] |> <| chunks := [chunk_a] |> <| datasets := [golden] |>
  <| policies := [mkEvalPolicy 51 1 "golden" 21600 5 1 None None None None 1] |>.
Definition s0 : db * Llm.world Z := (d0, Llm.mkWorld Z (Ledger.mkMemory ∅ ∅) Cache.CacheDemo.c0 0).
Notation graded x s := (grade (client := client) str_of verdicts st "rubric" JNull Demo.ctx x "The shift lead resets it." ["c_0123abcd"] s).
Notation evaluated s := (evaluation (client := client) str_of verdicts st "rubric" JNull Chat.ChatDemo.nearest "r2" 5 9 74%N 75%N 0%Q Demo.ctx "golden" None None s).
Notation drafted s := (draft_answers (client := client) str_of answers st "annotate" settings 6 (80%N, 81%N) 76%N Demo.ctx "golden" 15 s).
End EvalDemo.

#[local] Existing Instance EvalDemo.env.
#[local] Existing Instance EvalDemo.client.

(** A reply with the text "false" passes. *)
Example text_false_passes :
  option_map v_passed (parse_verdict EvalDemo.str_of (fun _ => Some (JObj [("passed", JStr "false")])) "{...}") = Some true.
Proof. reflexivity. Qed.

(** An item a person blanked and set aside is never sent, and still takes an answer the
    model volunteers under its id. *)
Example volunteered_draft_is_taken :
  let x := mkItem "q3" "Which valve?" "" ["c_0123abcd"] in
  let l := mkItemLabel 1 "golden" "q3" as_sme_edited None None false None None false (Some "page residue") "hand" 3 in
  pending [l] x = false ∧ it_expected_answer (filled (parse_answers EvalDemo.str_of (fun _ => Some (JObj [("q3", JStr "The red one")])) "{...}") x) = "The red one".
Proof. by vm_compute. Qed.

(** An answer the model volunteers for an item that has one is dropped, and the item is
    labelled as drafted by the model all the same. *)
Example kept_answer_labelled_drafted :
  let drafts := parse_answers EvalDemo.str_of (fun _ => Some (JObj [("q2", JStr "The night guard")])) "{...}" in
  map (fun x => it_expected_answer (filled drafts x)) EvalDemo.items = [""; "The shift lead"] ∧
  map (fun l => (il_item l, il_answer_source l)) (item_labels (record_drafted 6 Demo.ctx "golden" (map fst drafts) "gpt-4o" EvalDemo.d0).2) = [("q2", as_llm_drafted)].
Proof. by vm_compute. Qed.

Lemma demo_gate_wf : gate_wf EvalDemo.s0.1.
Proof. constructor; constructor. Qed.

Lemma eval_demo_builds_wf : builds_wf EvalDemo.s0.1.
Proof. constructor; [apply NoDup_ListNoDup, (bool_decide_unpack _); vm_compute; done|]. intros b b' [<-|[]] [<-|[]] _ _ _. reflexivity. Qed.

Lemma demo_sets_wf : sets_wf EvalDemo.s0.1.
Proof.
  constructor; cbn.
  - by apply NoDup_ListNoDup, NoDup_singleton.
  - repeat constructor. exists EvalDemo.items. split; [done|]. split; [|done]. split; [done|]. split.
    + apply NoDup_ListNoDup, (bool_decide_unpack _). by vm_compute.
    + by repeat constructor.
  - by apply NoDup_ListNoDup, NoDup_singleton.
  - by apply NoDup_ListNoDup, NoDup_singleton.
  - by repeat constructor.
  - repeat constructor. eexists. split; [by left|done].
Qed.

Lemma a_verdict_is_the_judges_witness :
  ∃ v v' s s', EvalDemo.graded (mkItem "q2" "Who resets it?" "The shift lead" []) EvalDemo.s0 = (Ok v, s) ∧ v_passed v = true ∧ v_judge_unavailable v = false ∧
    EvalDemo.graded (mkItem "q1" "How do I bleed the pump?" "" []) EvalDemo.s0 = (Ok v', s') ∧ v' = no_reference ∧ s' = EvalDemo.s0.
Proof.
  pose proof (a_verdict_is_the_judges EvalDemo.str_of EvalDemo.verdicts EvalDemo.st "rubric" JNull Demo.ctx (mkItem "q2" "Who resets it?" "The shift lead" [])
    "The shift lead resets it." ["c_0123abcd"] EvalDemo.s0) as H1.
  pose proof (a_verdict_is_the_judges EvalDemo.str_of EvalDemo.verdicts EvalDemo.st "rubric" JNull Demo.ctx (mkItem "q1" "How do I bleed the pump?" "" [])
    "The shift lead resets it." ["c_0123abcd"] EvalDemo.s0) as H2.
  computed (match (EvalDemo.graded (mkItem "q2" "Who resets it?" "The shift lead" []) EvalDemo.s0).1 with
            | Ok v => (v_passed v, v_judge_unavailable v) | Raise _ => (false, true) end) as E1.
  computed (match (EvalDemo.graded (mkItem "q1" "How do I bleed the pump?" "" []) EvalDemo.s0).1 with
            | Ok v => v_judge_unavailable v | Raise _ => false end) as E2.
  destruct (EvalDemo.graded (mkItem "q2" "Who resets it?" "The shift lead" []) EvalDemo.s0) as [[v|e] s]; cbn [fst] in E1; [|discriminate]. injection E1 as E1 E1'.
  destruct (EvalDemo.graded (mkItem "q1" "How do I bleed the pump?" "" []) EvalDemo.s0) as [[v'|e] s']; cbn [fst] in E2; [|discriminate].
  specialize (H1 (Ok v) s eq_refl). specialize (H2 (Ok v') s' eq_refl). cbn beta iota in H2. rewrite E2 in H2. destruct H2 as (_ & _ & Hv & Hs).
  exists v, v', s, s'. split; [reflexivity|]. split; [exact E1|]. split; [exact E1'|]. split; [reflexivity|]. split; [exact Hv|exact Hs].
Defined.

Lemma evaluation_does_not_promote_witness :
  ∃ report s' ds labels row, EvalDemo.evaluated EvalDemo.s0 = (Ok report, s') ∧ baselines s'.1 = [] ∧
    complete_run labels ds (ev_completed_run report) ∧ eval_runs s'.1 = [row] ∧ er_id row = 74%N ∧
    rn_retrieval_recall (ev_completed_run report) = Some (10000 # 10000)%Q ∧ rn_answer_pass_rate (ev_completed_run report) = Some (10000 # 10000)%Q ∧
    rn_judge_unavailable (ev_completed_run report) = 1 ∧ gd_promoted (ev_gate report) = true.
Proof.
  pose proof (evaluation_does_not_promote EvalDemo.str_of EvalDemo.verdicts EvalDemo.st "rubric" JNull Chat.ChatDemo.nearest "r2" 5 9 74%N 75%N 0%Q Demo.ctx "golden" None None
    EvalDemo.s0) as H.
  computed (match (EvalDemo.evaluated EvalDemo.s0).1 with
            | Ok r => Some (rn_retrieval_recall (ev_completed_run r), rn_answer_pass_rate (ev_completed_run r), rn_judge_unavailable (ev_completed_run r), gd_promoted (ev_gate r))
            | Raise _ => None end) as E.
  destruct (EvalDemo.evaluated EvalDemo.s0) as [[r|e] s']; cbn [fst] in E; [|discriminate]. injection E as E1 E2 E3 E4.
  destruct (H (Ok r) s' demo_gate_wf ltac:(constructor) eq_refl) as (Hu & ds & labels & row & y & _ & _ & Hc & _ & Hr & Hi & _).
  exists r, s', ds, labels, row. split; [reflexivity|]. split; [by injection Hu|]. split; [exact Hc|]. split; [exact Hr|]. split; [exact Hi|].
  split; [exact E1|]. split; [exact E2|]. split; [exact E3|exact E4].
Defined.

Lemma drafts_fill_blanks_witness :
  ∃ report ds' s', EvalDemo.drafted EvalDemo.s0 = (Ok (report, Some ds'), s') ∧ map it_expected_answer (ds_items ds') = ["Open the bleed valve."; "The shift lead"] ∧
    Forall2 (drafted_from (dr_drafted report)) EvalDemo.items (ds_items ds') ∧ count (datasets s'.1) = 2.
Proof.
  pose proof (drafts_fill_blanks EvalDemo.str_of EvalDemo.answers EvalDemo.st "annotate" EvalDemo.settings 6 (80%N, 81%N) 76%N Demo.ctx "golden" 15 EvalDemo.s0) as H.
  computed (match (EvalDemo.drafted EvalDemo.s0).1 with Ok (_, Some d) => map it_expected_answer (ds_items d) | _ => [] end) as E1.
  computed (count (datasets (EvalDemo.drafted EvalDemo.s0).2.1)) as E2.
  destruct (EvalDemo.drafted EvalDemo.s0) as [[[report [ds'|]]|e] s']; cbn [fst snd] in E1, E2; [|discriminate|discriminate].
  destruct (H (Ok (report, Some ds')) s') as (_ & _ & Hd); [constructor; constructor|exact demo_sets_wf|exact eval_demo_builds_wf|reflexivity|].
  destruct (Hd report (Some ds') eq_refl) as (ds & labels & evidence & El & _ & _ & _ & HF).
  computed (load Demo.ctx "golden" None EvalDemo.d0).1 as E3. change (EvalDemo.s0.1) with EvalDemo.d0 in El. rewrite El in E3. cbn [fst] in E3. injection E3 as E3.
  rewrite E3 in HF. exists report, ds', s'. split; [reflexivity|]. split; [exact E1|]. split; [exact HF|exact E2].
Defined.
