(* ===== verification/Access.v ===== *)
(** Signing in, signing out and membership: [platform_core/api/routes/auth.py],
    [platform_core/api/routes/members.py] and the keys of
    [platform_core/security/rate_limit.py].

    The state of a sign-in is the database and the limiter's in-process windows; [redis] is
    the reply of the window script.  [casefold] is [str.casefold] and [hmac] the hexadecimal
    HMAC-SHA-256.  Telemetry is not modelled; a response's headers are its status. *)
From stdpp Require Import pretty.
From S2P Require Import Prelude Text Json Identity Db AuditTrail Capabilities Auth RateLimit Settings.
From S2P Require Checkpoint.
From S2P Require Api.

(** * Signing in *)

Record LoginRequest := mkLoginRequest {
  lq_tenant : string;
  lq_subject : string;
  lq_password : string;
  lq_browser_session : bool
}.

Definition length_within (lo hi : Z) (s : string) : bool := (lo <=? str_len s) && (str_len s <=? hi).

Definition valid_login (q : LoginRequest) : bool :=
  length_within 1 64 (lq_tenant q) && length_within 1 320 (lq_subject q) && length_within 1 1024 (lq_password q).

Record LoginResponse := mkLoginResponse {
  lr_access_token : option string;
  lr_tenant : string;
  lr_subject : string;
  lr_roles : list string
}.

Record session_cookie := mkCookie {
  ck_value : string;
  ck_max_age : Z;
  ck_httponly : bool;
  ck_secure : bool;
  ck_samesite : string
}.

Section access.
Context `{AuditEnv}.
Variables (casefold : string → string) (hmac : string → string → string).
Variable jwt_encode : claims → string.
Variable verify_hash : string → string → bool.
Variable needs_rehash : string → bool.
Variable hasher_hash : string → string.
Variable st : Settings.

(** [RateLimiter._key]. *)
Definition limit_key (bucket subject : string) (window_seconds : Z) : string :=
  "platform:limit:" +:+ bucket +:+ ":" +:+ pretty window_seconds +:+ ":" +:+ hmac (utf8 (jwt_secret st)) (utf8 subject).

Definition login_subject (client_ip : option string) (q : LoginRequest) : string :=
  coalesce client_ip "unknown" +:+ ":" +:+ casefold (lq_tenant q) +:+ ":" +:+ casefold (lq_subject q).

Definition on_windows {A} (m : M windows A) : M (db * windows) A :=
  fun s => let '(r, w) := m s.2 in (r, (s.1, w)).

(** The attempt is counted, whoever it is for. *)
Definition count_attempt (now : timestamp) (client_ip : option string) (q : LoginRequest) (redis : option (Z * Z))
    : M (db * windows) LimitDecision :=
  try_except
    (on_windows (limiter_check (limiter_of st) redis now (login_attempts_per_window st) (login_window_seconds st)
       (limit_key "login" (login_subject client_ip q) (login_window_seconds st))))
    (fun e => match e with
              | OtherError c => if String.eqb c "RateLimitUnavailable" then Some (raise (HTTPException 503)) else None
              | _ => None
              end).

Definition authenticated_or_401 (q : LoginRequest) : M db Principal :=
  try_except (authenticate verify_hash needs_rehash hasher_hash (lq_tenant q) (lq_subject q) (lq_password q))
    (fun e => match e with
              | OtherError c => if String.eqb c "AuthenticationError" then Some (raise (HTTPException 401)) else None
              | _ => None
              end).

(** [audit.record(None, principal=principal, ...)]. *)
Definition record_login (now : timestamp) (p : Principal) : M db unit :=
  try_except
    (record env_sha256 env_isoformat env_jsonb now env_release None "authentication.login" SUCCEEDED (Some p)
       (Some "principal") (Some (uuid_str (principal_uuid p))) None (audit_fail_closed st) ;; ret tt)
    (fun e => match e with AuditUnavailable => Some (raise (HTTPException 503)) | _ => None end).

Definition cookie_of (token : string) : session_cookie :=
  mkCookie token (access_token_ttl_seconds st) true (deployed (environment st)) "strict".

Definition sorted_roles (p : Principal) : list string := order_by String.leb (map role_value (roles p)).

Definition response_to (q : LoginRequest) (p : Principal) (token : string) : LoginResponse * option session_cookie :=
  (mkLoginResponse (if lq_browser_session q then None else Some token) (slug (principal_tenant p)) (subject p) (sorted_roles p),
   if lq_browser_session q then Some (cookie_of token) else None).

Definition login (now : timestamp) (jti : uuid) (client_ip : option string) (q : LoginRequest) (redis : option (Z * Z))
    : M (db * windows) (LoginResponse * option session_cookie) :=
  guard (valid_login q) (HTTPException 422) ;;
  decision <- count_attempt now client_ip q redis ;;
  guard (ld_allowed decision) (HTTPException 429) ;;
  p <- on_db (authenticated_or_401 q) ;;
  on_db (record_login now p) ;;
  ret (response_to q p (issue_token jwt_encode (access_token_ttl_seconds st) now jti None p)).

(** The cookie is deleted; the audit event is best effort. *)
Definition logout (now : timestamp) (ctx : RequestContext) : M db unit :=
  record env_sha256 env_isoformat env_jsonb now env_release (Some ctx) "authentication.logout" SUCCEEDED None
    (Some "principal") (Some (uuid_str (principal_uuid (principal ctx)))) None false ;;
  ret tt.

Record MeResponse := mkMe {
  me_principal_id : string;
  me_tenant : string;
  me_subject : string;
  me_roles : list string;
  me_actor_type : string;
  me_capabilities : list string
}.

(** [capabilities_of] is a set: a capability two roles give is listed once. *)
Definition me (ctx : RequestContext) : MeResponse :=
  let p := principal ctx in
  mkMe (uuid_str (principal_uuid p)) (slug (principal_tenant p)) (subject p) (sorted_roles p) (actor_type_value (actor_type p))
    (order_by String.leb (map capability_str (remove_dups (capabilities_of p)))).

(** * Membership *)

Record member := mkMember {
  mb_id : uuid;
  mb_subject : string;
  mb_roles : list string;
  mb_actor_type : string;
  mb_disabled : bool;
  mb_grants : list capability_grant
}.

Definition unrevoked (g : capability_grant) : bool := is_none (cg_revoked_at g).

(** The order of [created_at], which the row type leaves out. *)
Variable older : principal_row → principal_row → bool.

Definition member_of (grants : list capability_grant) (p : principal_row) : member :=
  mkMember (pr_id p) (pr_subject p) (pr_roles p) (pr_actor_type p) (is_some (pr_disabled_at p))
    (List.filter (fun g => cg_principal g =? pr_id p)%N grants).

Definition list_members (ctx : RequestContext) : M db (list member) :=
  tenant_session (
    rows <- sql_select (visible (tenant_of ctx) (fun _ => true)) ;;
    grants <- sql_select (visible (tenant_of ctx) unrevoked) ;;
    ret (map (member_of grants) (firstn 200 (order_by older rows)))).

Record GrantRequest := mkGrantRequest {
  gq_principal_id : uuid;
  gq_capability : Capability;
  gq_resource : string;
  gq_expires_at : option timestamp
}.

Variable db_fault : option exn.

(** A refusal is put on the trail, best effort, before it is answered with 403. *)
Definition audited_refusal {A} (now : timestamp) (ctx : RequestContext) (action rt rid : string) (detail : string → json) (m : M db A) : M db A :=
  try_except m
    (fun e => match e with
              | NotAuthorized why =>
                  Some (audit_record now ctx action DENIED rt rid (detail why) false ;; raise (HTTPException 403))
              | _ => None
              end).

Definition create_grant (now : timestamp) (fresh : uuid) (q : GrantRequest) (ctx : RequestContext) : M db uuid :=
  guard (str_len (gq_resource q) <=? 200) (HTTPException 422) ;;
  audited_refusal now ctx "member.capability.grant" "principal" (uuid_str (gq_principal_id q))
    (fun why => JObj [("capability", JStr (capability_str (gq_capability q))); ("reason", JStr why)])
    (grant db_fault now fresh (principal ctx) (gq_principal_id q) (gq_capability q) (gq_resource q) (gq_expires_at q) (Some ctx)).

Definition revoke_grant (now : timestamp) (id : uuid) (ctx : RequestContext) : M db unit :=
  revoked <- audited_refusal now ctx "member.capability.revoke" "capability_grant" (uuid_str id)
    (fun why => JObj [("reason", JStr why)]) (revoke db_fault now (principal ctx) id (Some ctx)) ;;
  guard revoked (HTTPException 404).

End access.

(** * Lemmas *)

(** What the constraints of the two tables give. *)
Record identities_ok (d : db) : Prop := {
  io_slugs : List.NoDup (map tn_slug (tenants d));
  io_tenants : ∀ t, In t (tenants d) → new_Tenant (tn_id t) (tn_slug t) = Ok (mkTenant (tn_id t) (tn_slug t)) ∧ (tn_id t < 2 ^ 128)%N;
  io_subjects : List.NoDup (map (fun r => (pr_tenant r, pr_subject r)) (principals d));
  io_ids : List.NoDup (map pr_id (principals d));
  io_uuids : ∀ r, In r (principals d) → (pr_id r < 2 ^ 128)%N
}.

(** The rows the credentials name, and that they open. *)
Definition signs_in (verify_hash : string → string → bool) (q : LoginRequest) (d : db) (t : tenant_row) (row : principal_row) : Prop :=
  In t (tenants d) ∧ tn_slug t = lq_tenant q ∧ In row (principals d) ∧ pr_tenant row = tn_id t ∧
  pr_subject row = lq_subject q ∧ pr_disabled_at row = None ∧
  ∃ h, pr_password_hash row = Some h ∧ h ≠ "" ∧ verify_hash h (lq_password q) = true.

(** Rows but for their password hashes. *)
Definition hashless (p : principal_row) : principal_row := p <| pr_password_hash := None |>.

Lemma run_ret_bind {S A B} (a : A) (k : A → M S B) s : bind (ret a) k s = k a s.
Proof. done. Qed.

Lemma run_guard_bind {S B} b e (k : unit → M S B) s : bind (guard b e) k s = if b then k tt s else (Raise e, s).
Proof. by destruct b. Qed.

Section signing_in.
Variable verify_hash : string → string → bool.
Variable needs_rehash : string → bool.
Variable hasher_hash : string → string.

Notation authenticate_ := (authenticate verify_hash needs_rehash hasher_hash).

Lemma find_tenant d slug_ : identities_ok d →
  (∀ t, In t (tenants d) → tn_slug t ≠ slug_) ∧ (found <- sql_select (fun t => String.eqb (tn_slug t) slug_) ;; one_or_none found) d = (Ok None, d)
  ∨ ∃ t, In t (tenants d) ∧ tn_slug t = slug_ ∧ (found <- sql_select (fun t => String.eqb (tn_slug t) slug_) ;; one_or_none found) d = (Ok (Some t), d).
Proof.
  intros W. destruct (select_by_key_one (T := table_tenants) tn_slug (fun t => String.eqb (tn_slug t) slug_) slug_ d (io_slugs d W)) as [[H E]|(t & H1 & H2 & E)].
  - intros t. apply String.eqb_eq.
  - left. split; [|exact E]. intros t Ht. by apply String.eqb_neq, H.
  - right. exists t. split; [done|]. split; [by apply String.eqb_eq|exact E].
Qed.

Lemma find_principal d tid sub : identities_ok d →
  (∀ r, In r (principals d) → pr_tenant r = tid → pr_subject r ≠ sub) ∧
    tenant_session (found <- sql_select (visible tid (fun p => String.eqb (pr_subject p) sub)) ;; one_or_none found) d = (Ok None, d)
  ∨ ∃ r, In r (principals d) ∧ pr_tenant r = tid ∧ pr_subject r = sub ∧
    tenant_session (found <- sql_select (visible tid (fun p => String.eqb (pr_subject p) sub)) ;; one_or_none found) d = (Ok (Some r), d).
Proof.
  intros W. unfold tenant_session, tx.
  assert (Hk : ∀ r : principal_row, visible tid (fun p => String.eqb (pr_subject p) sub) r = true ↔ (pr_tenant r, pr_subject r) = (tid, sub)).
  { intros r. unfold visible, row_tenant, tenant_principal. rewrite andb_true_iff, N.eqb_eq, String.eqb_eq.
    split; [by intros [-> ->]|by intros [= -> ->]]. }
  destruct (select_by_key_one (T := table_principals) (fun r => (pr_tenant r, pr_subject r))
    (visible tid (fun p => String.eqb (pr_subject p) sub)) (tid, sub) d (io_subjects d W)) as [[H E]|(r & H1 & H2 & E)].
  - intros r. apply Hk.
  - left. cbv zeta in E. rewrite E. split; [|done]. intros r Hr <- <-. specialize (H r Hr). apply not_true_iff_false in H. by apply H, Hk.
  - right. cbv zeta in E. rewrite E. exists r. apply Hk in H2. by injection H2 as <- <-.
Qed.

Lemma one_tenant d t t' : identities_ok d → In t (tenants d) → In t' (tenants d) → tn_slug t = tn_slug t' → t = t'.
Proof. intros W H1 H2 E. by apply (key_unique tn_slug (tenants d)); [apply W| | |]. Qed.

Lemma one_principal d r r' : identities_ok d → In r (principals d) → In r' (principals d) →
  pr_tenant r = pr_tenant r' → pr_subject r = pr_subject r' → r = r'.
Proof.
  intros W H1 H2 E1 E2. apply (key_unique (fun r => (pr_tenant r, pr_subject r)) (principals d)); [apply W|done|done|]. by rewrite E1, E2.
Qed.

Definition entered (t : tenant_row) (row : principal_row) : result Principal :=
  match roles_of_values (pr_roles row), actor_type_of_value (pr_actor_type row) with
  | Some rs, Some a => Ok (mkPrincipal (pr_id row) (mkTenant (tn_id t) (tn_slug t)) (pr_subject row) rs a)
  | _, _ => Raise (ValueError "not a valid Role or ActorType")
  end.

(** Credentials open an account or they do not, and then nothing is written. *)
Lemma authenticate_run q d : identities_ok d →
  (∃ t row d1, signs_in verify_hash q d t row ∧ authenticate_ (lq_tenant q) (lq_subject q) (lq_password q) d = (entered t row, d1) ∧
     d1 = d <| principals := principals d1 |> ∧ map hashless (principals d1) = map hashless (principals d)) ∨
  (∀ t row, ¬ signs_in verify_hash q d t row) ∧
    authenticate_ (lq_tenant q) (lq_subject q) (lq_password q) d = (Raise AuthenticationError, d) ∨
  no_nul (lq_tenant q) && no_nul (lq_subject q) = false ∧
    authenticate_ (lq_tenant q) (lq_subject q) (lq_password q) d = (Raise (OtherError "DataError"), d).
Proof.
  intros W. unfold authenticate. rewrite run_guard_bind. destruct (no_nul (lq_tenant q)); [|right; right; by split]. cbn [andb].
  assert (Hl : ∀ {A B C} (m : M db A) (k : A → M db B) (f : B → M db C), (x <- m ;; y <- k x ;; f y) d = (y <- (x <- m ;; k x) ;; f y) d).
  { intros. unfold bind. destruct (m d) as [[a|e] s1]; [|done]. by destruct (k a s1) as [[b|e] s2]. }
  rewrite Hl. destruct (find_tenant d (lq_tenant q) W) as [[Hno E]|(t & Ht & Hs & E)]; rewrite (run_bind _ _ _ _ _ E).
  { right; left. split; [|done]. intros t row (H1 & H2 & _). by apply (Hno t). }
  rewrite (proj1 (io_tenants d W t Ht)). unfold Checkpoint.lift_result. rewrite run_ret_bind.
  rewrite run_guard_bind. destruct (no_nul (lq_subject q)); [|right; right; by split].
  destruct (find_principal d (tn_id t) (lq_subject q) W) as [[Hno' E']|(row & Hr & Hrt & Hrs & E')]; rewrite (run_bind _ _ _ _ _ E').
  { right; left. split; [|done]. intros t' row (H1 & H2 & H3 & H4 & H5 & _). rewrite (one_tenant d t' t) in H4 by congruence.
    by apply (Hno' row). }
  assert (Huniq : ∀ t' row', signs_in verify_hash q d t' row' → t' = t ∧ row' = row).
  { intros t' row' (H1 & H2 & H3 & H4 & H5 & _). assert (t' = t) as -> by (apply (one_tenant d); congruence).
    split; [done|]. apply (one_principal d); congruence. }
  destruct (truthy (pr_password_hash row)) eqn:Eh; [|right; left; split; [|done]].
  2: { intros t' row' Hin. pose proof Hin as Hin0. apply Huniq in Hin0 as [-> ->]. destruct Hin as (_ & _ & _ & _ & _ & _ & h & Hh & Hne & _).
    rewrite Hh in Eh. cbn in Eh. destruct h; done. }
  destruct (pr_password_hash row) as [h|] eqn:Ehash; [|done]. unfold guard at 1. rewrite run_ret_bind. cbn [coalesce].
  unfold verify_password. destruct (verify_hash h (lq_password q)) eqn:Ev; cbn [negb].
  2: { right; left. split; [|done]. intros t' row' Hin. pose proof Hin as Hin0. apply Huniq in Hin0 as [-> ->].
    destruct Hin as (_ & _ & _ & _ & _ & _ & h' & Hh & _ & Hv). rewrite Ehash in Hh. injection Hh as <-. congruence. }
  destruct (pr_disabled_at row) as [z|] eqn:Edis.
  { right; left. split; [|by destruct (needs_rehash h)]. intros t' row' Hin. pose proof Hin as Hin0. apply Huniq in Hin0 as [-> ->].
    destruct Hin as (_ & _ & _ & _ & _ & Hd & _). congruence. }
  left. assert (Hsign : signs_in verify_hash q d t row).
  { repeat split; try done. exists h. split; [done|]. split; [|done]. intros ->. done. }
  exists t, row. destruct (needs_rehash h); cbn [andb is_none is_some negb].
  - exists (d <| principals := update_where (visible (tn_id t) (fun x => pr_id x =? pr_id row)%N)
      (set_password (hasher_hash (lq_password q))) (principals d) |>).
    split; [done|]. split; [unfold entered; by destruct (roles_of_values (pr_roles row)), (actor_type_of_value (pr_actor_type row))|].
    split; [by destruct d|]. cbn. by rewrite map_update_where.
  - exists d. split; [done|]. split; [|by destruct d]. unfold entered. by destruct (roles_of_values (pr_roles row)), (actor_type_of_value (pr_actor_type row)).
Qed.

End signing_in.

(** The event of a sign-in: in the name of the one who signed in. *)
Definition signed_in_event (p : Principal) (d d' : db) : Prop :=
  ∃ e, audit_events d' = audit_events d ++ [e] ∧ ae_tenant e = tenant_uuid (principal_tenant p) ∧
    ae_principal e = Some (principal_uuid p) ∧ ae_action e = "authentication.login" ∧ ae_outcome e = outcome_str SUCCEEDED.

Lemma record_login_run `{AuditEnv} st now p d r d' : record_login st now p d = (r, d') →
  only_audit d d' ∧
  (r = Raise (HTTPException 503) ∧ audit_fail_closed st = true ∨
   r = Ok tt ∧ (audit_fail_closed st = true → signed_in_event p d d')).
Proof.
  unfold record_login, record, try_except at 1. cbn [actor_of coalesce_opt]. intros E.
  pose proof (append_link_only_audit env_sha256 env_isoformat env_jsonb now env_release None p "authentication.login" SUCCEEDED
    (Some "principal") (Some (uuid_str (principal_uuid p))) (detail_or None) d) as Hf.
  unfold bind at 1, try_except, tenant_session, tx, bind in E.
  destruct (append_link env_sha256 env_isoformat env_jsonb now env_release None p "authentication.login" SUCCEEDED
    (Some "principal") (Some (uuid_str (principal_uuid p))) (detail_or None) d) as [[h|e] d1] eqn:Ea.
  - injection E as <- <-. split; [exact Hf|]. right. split; [done|]. intros _. revert Ea.
    unfold append_link, insert_audit, chain_tail, bind, sql_select, gets, guard. unfold ret at 1 2 3. cbv beta zeta iota.
    match goal with |- context [columns_fit ?e] => destruct (columns_fit e) end; [|done].
    unfold modify, sql_insert, ret. intros [= _ <-]. eexists. split; [by destruct d|]. by cbn.
  - destruct (audit_fail_closed st); injection E as <- <-; (split; [reflexivity|]); [by left|by right].
Qed.

Lemma count_attempt_run `{AuditEnv} hmac casefold st now ip q redis d w r s' :
  count_attempt casefold hmac st now ip q redis (d, w) = (r, s') →
  let counted := limiter_check (limiter_of st) redis now (login_attempts_per_window st) (login_window_seconds st)
    (limit_key hmac st "login" (login_subject casefold ip q) (login_window_seconds st)) w in
  s'.1 = d ∧ ((∃ dec, r = Ok dec ∧ counted = (Ok dec, s'.2)) ∨ (r = Raise (HTTPException 503) ∧ ∃ e, counted.1 = Raise e)).
Proof.
  unfold count_attempt, try_except, on_windows. cbn [fst snd]. unfold limiter_check.
  destruct (negb (ls_rate_limit_enabled (limiter_of st))); [intros [= <- <-]; split; [done|]; left; by eexists|].
  destruct redis as [[n ttl]|]; [intros [= <- <-]; split; [done|]; left; by eexists|].
  destruct (deployed _).
  - destruct (ls_rate_limit_fail_closed _); intros [= <- <-]; (split; [done|]); [right; split; [done|by eexists]|left; by eexists].
  - destruct (check_local _ _ _ _ _) as [dec w1] eqn:E. intros [= <- <-]. split; [done|]. left. by eexists.
Qed.

Lemma hashless_map {A} (f : principal_row → A) l l' : (∀ x, f (hashless x) = f x) → map hashless l = map hashless l' → map f l = map f l'.
Proof.
  intros Hf E. assert (Hm : ∀ k, map f k = map f (map hashless k)) by (intros k; rewrite map_map; by apply map_ext).
  by rewrite (Hm l), (Hm l'), E.
Qed.

Lemma hashless_in l l' x : map hashless l = map hashless l' → In x l' → ∃ y, In y l ∧ hashless y = hashless x.
Proof. intros E Hx. apply (in_map hashless) in Hx. rewrite <- E in Hx. apply in_map_iff in Hx as (y & Hy & Hin). by exists y. Qed.

(** The principal a sign-in enters as is one its tables vouch for. *)
Lemma entered_current verify_hash q d t row p d' : identities_ok d → signs_in verify_hash q d t row → entered t row = Ok p →
  map hashless (principals d') = map hashless (principals d) →
  well_formed p ∧ List.NoDup (map pr_id (principals d')) ∧ ∃ row', current_row p p d' row'.
Proof.
  intros W (Ht & Hs & Hr & Hrt & Hrs & Hd & _) E Hh. unfold entered in E.
  destruct (roles_of_values (pr_roles row)) as [rs|] eqn:Er; [|done]. destruct (actor_type_of_value (pr_actor_type row)) as [a|] eqn:Ea; [|done].
  injection E as <-. split; [|split].
  - split; [by apply W|]. cbn. destruct (io_tenants d W t Ht) as [H1 H2]. by split.
  - rewrite (hashless_map pr_id _ _ (fun _ => eq_refl) Hh). apply W.
  - destruct (hashless_in _ _ row Hh Hr) as (row' & Hin & Eq). exists row'. destruct row', row. cbv in Eq. injection Eq as <- <- <- <- <- <-.
    cbn in *. repeat split; try done; [by apply actor_type_of_value_sound|by apply roles_of_values_map].
Qed.

(** C35: only the password signs in.  A sign-in that succeeds was counted and admitted by the
    limiter under a key of the client, the tenant and the subject together; its credentials
    name a row of the tenant that is not disabled and whose stored hash the password
    verifies; where the trail is required ([audit_fail_closed]) its event is on the trail in
    that principal's name; and its token, in the body for a program and in an HttpOnly cookie
    (with TLS where deployed) for a browser, decodes to exactly that principal until it
    expires.  Credentials that name no such row change nothing and are refused with one of
    four statuses, or with the driver's error where the tenant or the subject has a NUL;
    once admitted, a missing tenant, a missing or disabled account and a wrong password are
    all the same 401.  No sign-in, refused or not, changes anything of an account but the
    encoding of its password, which the right password may renew before the trail refuses
    it. *)
Theorem only_the_password_signs_in `{AuditEnv} casefold hmac jwt_encode jwt_decode verify_hash needs_rehash hasher_hash st now jti ip
    q redis d w r d' w' :
  identities_ok d →
  login casefold hmac jwt_encode verify_hash needs_rehash hasher_hash st now jti ip q redis (d, w) = (r, (d', w')) →
  let counted := limiter_check (limiter_of st) redis now (login_attempts_per_window st) (login_window_seconds st)
    (limit_key hmac st "login" (login_subject casefold ip q) (login_window_seconds st)) w in
  (∀ resp ck, r = Ok (resp, ck) →
     (∃ dec, counted = (Ok dec, w') ∧ ld_allowed dec = true) ∧
     ∃ t row p, signs_in verify_hash q d t row ∧ entered t row = Ok p ∧
       let token := issue_token jwt_encode (access_token_ttl_seconds st) now jti None p in
       (if lq_browser_session q then lr_access_token resp = None ∧ ∃ c, ck = Some c ∧ ck_value c = token ∧
            ck_httponly c = true ∧ (deployed (environment st) = true → ck_secure c = true)
        else lr_access_token resp = Some token ∧ ck = None) ∧
       (audit_fail_closed st = true → signed_in_event p d d') ∧
       (jwt_reads_back jwt_encode jwt_decode (claims_of (access_token_ttl_seconds st) now jti None p) →
        ∀ now', seconds (unix now) <= now' < seconds (unix (now + seconds (access_token_ttl_seconds st))) →
          decode_token jwt_decode true None now' token d' = (Ok p, d'))) ∧
  ((∀ t row, ¬ signs_in verify_hash q d t row) →
     d' = d ∧
     ((∃ c, r = Raise (HTTPException c) ∧ In c [401; 422; 429; 503]) ∨
      r = Raise (OtherError "DataError") ∧ no_nul (lq_tenant q) && no_nul (lq_subject q) = false) ∧
     (valid_login q = true → no_nul (lq_tenant q) && no_nul (lq_subject q) = true → (∃ dec w1, counted = (Ok dec, w1) ∧ ld_allowed dec = true) → r = Raise (HTTPException 401))) ∧
  map hashless (principals d') = map hashless (principals d).
Proof.
  intros W E counted. unfold login in E. unfold guard at 1 in E. destruct (valid_login q) eqn:Ev; [rewrite run_ret_bind in E|].
  2: { injection E as <- <- <-. split; [done|]. split; [|done]. intros _. split; [done|]. split; [|done]. left. exists 422. cbn. tauto. }
  unfold bind at 1 in E. destruct (count_attempt casefold hmac st now ip q redis (d, w)) as [cr [d0 w1]] eqn:Ec.
  apply count_attempt_run in Ec as [Hd Hc]. fold counted in Hc. cbn [fst snd] in *. subst d0.
  destruct Hc as [(dec & -> & Hc)|[-> [x Hc]]].
  2: { injection E as <- <- <-. split; [done|]. split; [|done]. intros _. split; [done|]. split; [left; exists 503; cbn; tauto|].
       intros _ _ (dec & w2 & Hc' & _). rewrite Hc' in Hc. done. }
  unfold guard at 1 in E. destruct (ld_allowed dec) eqn:Ea; [rewrite run_ret_bind in E|].
  2: { injection E as <- <- <-. split; [done|]. split; [|done]. intros _. split; [done|]. split; [left; exists 429; cbn; tauto|].
       intros _ _ (dec' & w2 & Hc' & Ha). rewrite Hc in Hc'. injection Hc' as <- _. congruence. }
  unfold bind at 1, on_db at 1, authenticated_or_401, try_except in E. cbn [fst snd] in E.
  destruct (authenticate_run verify_hash needs_rehash hasher_hash q d W) as [(t & row & d1 & Hin & Er & Hd1 & Hh)|[[Hno Er]|[Hnul Er]]]; rewrite Er in E.
  2: { injection E as <- <- <-. split; [done|]. split; [|done]. intros _. split; [done|]. split; [left; exists 401; cbn; tauto|done]. }
  2: { injection E as <- <- <-. split; [done|]. split; [|done]. intros _. split; [done|]. split; [by right|]. intros _ Hok. congruence. }
  assert (Hyes : (∀ t row, ¬ signs_in verify_hash q d t row) → False) by (intros Hno; by apply (Hno t row)).
  destruct (entered t row) as [p|e] eqn:Ep.
  2: { unfold entered in Ep. assert (e = ValueError "not a valid Role or ActorType") as -> by (destruct (roles_of_values (pr_roles row)), (actor_type_of_value (pr_actor_type row)); congruence).
       injection E as <- <- <-. split; [done|]. split; [|done]. by intros Hno; destruct (Hyes Hno). }
  unfold bind at 1, on_db at 1 in E. cbn [fst snd] in E. destruct (record_login st now p d1) as [rr d2] eqn:El.
  apply record_login_run in El as [Ho Hl]. assert (Hp2 : principals d2 = principals d1) by by rewrite (only_audit_keeps principals d1 d2).
  destruct Hl as [[-> _]|[-> Hl]]; injection E as <- <- <-; rewrite Hp2.
  { split; [done|]. split; [|done]. by intros Hno; destruct (Hyes Hno). }
  split; [|split; [by intros Hno; destruct (Hyes Hno)|done]].
  intros resp ck [= <- <-]. split; [by exists dec|]. exists t, row, p. split; [done|]. split; [done|]. split; [|split].
  - cbn. destruct (lq_browser_session q); [|done]. split; [done|]. by eexists.
  - intros Hf. specialize (Hl Hf) as (ev & H1 & H2). exists ev. rewrite H1, Hd1. by split.
  - intros Hjwt now' Ht. rewrite <- Hp2 in Hh. destruct (entered_current verify_hash q d t row p d2 W Hin Ep Hh) as (H1 & H2 & row' & H3).
    by apply (issued_token_decodes _ _ _ _ _ _ _ _ _ row').
Qed.

Module AccessDemo.
Definition encode (c : claims) : string := "signed for " +:+ cl_sbj c.
Definition row : principal_row := mkPrincipalRow 11 1 "alice@acme.test" "human" ["owner"] (Some "hash of secret") None.
Definition d0 : db := empty_db <| tenants := [mkTenantRow 1 "acme" None None] |> <| principals := [row] |>.
Definition verify_hash (h p : string) : bool := String.eqb h ("hash of " +:+ p).
Definition alice : Principal := mkPrincipal 11 (mkTenant 1 "acme") "alice@acme.test" [OWNER] HUMAN.
Definition decode (t : timestamp) (token : string) : option claims :=
  let c := claims_of 3600 5000000 77 None alice in if in_force c t then Some c else None.
Definition sign_in (q : LoginRequest) : result (LoginResponse * option session_cookie) * (db * windows) :=
  @login Api.ApiDemo.env lower (fun k m => m) encode verify_hash (fun _ => false) (fun p => p) SettingsDemo.s 5000000 77 (Some "10.0.0.1") q (Some (1, 300)) (d0, ∅).
Definition good : LoginRequest := mkLoginRequest "acme" "alice@acme.test" "secret" true.
Definition bad : LoginRequest := mkLoginRequest "acme" "alice@acme.test" "guess" true.

Lemma identities : identities_ok d0.
Proof.
  constructor; cbn.
  - repeat constructor. by intros [].
  - intros t [<-|[]]. by split.
  - repeat constructor. by intros [].
  - repeat constructor. by intros [].
  - by intros r [<-|[]].
Qed.
End AccessDemo.

(** Not every failure is the same 401. *)
Example a_nul_is_no_401 :
  (AccessDemo.sign_in (mkLoginRequest "acme" (String (Ascii.ascii_of_nat 0) "alice@acme.test") "secret" true)).1 = Raise (OtherError "DataError").
Proof. vm_compute. reflexivity. Qed.

Lemma only_the_password_signs_in_witness :
  (∃ resp ck d' w', AccessDemo.sign_in AccessDemo.good = (Ok (resp, Some ck), (d', w')) ∧ lr_access_token resp = None ∧
     decode_token AccessDemo.decode true None 6000000 (ck_value ck) d' = (Ok AccessDemo.alice, d') ∧ length (audit_events d') = 1%nat) ∧
  (AccessDemo.sign_in AccessDemo.bad).1 = Raise (HTTPException 401).
Proof.
  split.
  - destruct (AccessDemo.sign_in AccessDemo.good) as [r [d' w']] eqn:E. pose proof E as E1. apply (f_equal fst) in E1. vm_compute in E1.
    cbn [fst] in E1. subst r. eexists _, _, d', w'. split; [reflexivity|].
    destruct (@only_the_password_signs_in Api.ApiDemo.env lower (fun k m => m) AccessDemo.encode AccessDemo.decode AccessDemo.verify_hash
      (fun _ => false) (fun p => p) SettingsDemo.s 5000000 77 (Some "10.0.0.1") AccessDemo.good (Some (1, 300)) AccessDemo.d0 ∅ _ d' w'
      AccessDemo.identities E) as [H _].
    destruct (H _ _ eq_refl) as (_ & t & row & p & Hin & He & Hb & Ha & Hd). cbn in Hb. destruct Hb as [_ (c & [= <-] & Ht & _)].
    destruct Hin as ([<-|[]] & _ & [<-|[]] & _). injection He as <-. split; [done|]. split.
    + rewrite Ht. apply Hd; [|by vm_compute]. intros z. reflexivity.
    + destruct Ha as (ev & -> & _); done.
  - destruct (AccessDemo.sign_in AccessDemo.bad) as [r [d' w']] eqn:E.
    destruct (@only_the_password_signs_in Api.ApiDemo.env lower (fun k m => m) AccessDemo.encode AccessDemo.decode AccessDemo.verify_hash
      (fun _ => false) (fun p => p) SettingsDemo.s 5000000 77 (Some "10.0.0.1") AccessDemo.bad (Some (1, 300)) AccessDemo.d0 ∅ _ d' w'
      AccessDemo.identities E) as (_ & H & _).
    apply H; [|done|done|by eexists _, _].
    intros t row (_ & _ & [<-|[]] & _ & _ & _ & h & [= <-] & _ & Hv). by vm_compute in Hv.
Defined.
