(* ===== verification/Artifacts.v ===== *)
(** The artifacts of a taxonomy on disk, and what a taxonomy covers
    ([workloads/graphrag/artifacts.py]).

    The disk is a map from paths, as lists of components, to texts; directories are not
    modelled.  What [install] rebinds in the engine is modelled by where each rebound
    function looks, given the calling thread's root.  [loads] is [json.loads],
    [load_schema] the engine's parser of a taxonomy and [str_of] is [str] of a value that
    is no string.  A domain is one component of a path. *)
From Stdlib Require Import Ascii.
From S2P Require Import Prelude Identity Json Text Db Onboarding.
From S2P Require Datasets ObjectStore.

Notation path := (list string).
Notation disk := (gmap path string).

(** * Paths *)

Definition domain_name (domain : string) : string := lower (strip domain).

Definition instance_table_path (root : path) (domain : string) : path :=
  root ++ ["data"; "instance_tables"; domain_name domain +:+ ".json"].

Definition predicate_map_path (root : path) (domain : string) : path :=
  root ++ ["data"; "predicate_maps"; domain_name domain +:+ ".json"].

Definition extraction_cache_dir (root : path) (domain : string) : path :=
  root ++ ["data"; "extraction_cache"; domain_name domain].

Definition schema_yaml_path (root : path) (domain : string) : path :=
  root ++ ["schemas"; domain_name domain +:+ ".yaml"].

(** [base] is the parent of the cassette directory, with [graphrag/onboarding]. *)
Definition tenant_root (base : path) (ctx : RequestContext) (domain : string) : path :=
  base ++ [uuid_str (tenant_of ctx); domain_name domain].

(** [Path(name).name]. *)
Definition basename (name : string) : string :=
  List.last (List.filter (fun p => negb (String.eqb p "" || String.eqb p ".")) (split_on "/"%char name)) "".

Definition endswith (suffix s : string) : bool := startswith (string_rev suffix) (string_rev s).

(** A file of a directory; the directory itself and its parent are none. *)
Definition write_in (dir : path) (name text : string) : M disk unit :=
  guard (negb (String.eqb name "" || String.eqb name "..")) (OtherError "IsADirectoryError") ;;
  modify (fun d => <[dir ++ [name] := text]> d).

(** * Materialise *)

Record written := mkWritten {
  wr_schema : bool;
  wr_instance_table : bool;
  wr_predicate_map : bool;
  wr_cache_files : Z;
  wr_relations_available : bool
}.

Section files.
Variable loads : string → option json.
Variable str_of : json → string.

(** [schema["yaml"]] of a dictionary that has one. *)
Definition yaml_of (schema : option json) : option json :=
  match schema with
  | Some (JObj kvs) => match jget "yaml" (JObj kvs) with Some y => if Datasets.json_truthy y then Some y else None | None => None end
  | _ => None
  end.

Definition truthy_json (v : option json) : option json :=
  match v with Some v => if Datasets.json_truthy v then Some v else None | None => None end.

Definition write_opt (p : path) (v : option json) : M disk unit :=
  match v with Some v => modify (fun d => <[p := dumps_default v]> d) | None => ret tt end.

Definition materialize (root : path) (domain : string) (artifacts : artifact_set) : M disk written :=
  let schema := yaml_of (as_singletons artifacts !! "schema") in
  let table := truthy_json (as_singletons artifacts !! "instance_table") in
  let pmap := truthy_json (as_singletons artifacts !! "predicate_map") in
  let cache := map_to_list (as_cache artifacts) in
  match schema with
  | Some y => modify (fun d => <[schema_yaml_path root domain := Datasets.py_str str_of y]> d)
  | None => ret tt
  end ;;
  write_opt (instance_table_path root domain) table ;;
  write_opt (predicate_map_path root domain) pmap ;;
  for_each cache (fun kv => write_in (extraction_cache_dir root domain) (basename kv.1) (dumps_default kv.2)) ;;
  ret (mkWritten (is_some schema) (is_some table) (is_some pmap) (count cache)
         (is_some table && is_some pmap && (0 <? count cache))).

(** * Capture *)

Record captured := mkCaptured {
  cp_instance_table : option json;
  cp_predicate_map : option json;
  cp_extraction_cache : gmap string json
}.

Definition read_json (p : path) (d : disk) : result (option json) :=
  match d !! p with
  | None => Ok None
  | Some text => match loads text with Some v => Ok (Some v) | None => Raise (OtherError "JSONDecodeError") end
  end.

(** The components of a path below a directory. *)
Fixpoint below (dir p : path) : option path :=
  match dir, p with
  | [], _ => Some p
  | x :: dir', y :: p' => if String.eqb x y then below dir' p' else None
  | _ :: _, [] => None
  end.

(** A file [*.json] of the directory that parses. *)
Definition cached_file (dir : path) (f : path * string) : option (string * json) :=
  match below dir f.1 with
  | Some [name] => if endswith ".json" name then option_map (pair name) (loads f.2) else None
  | _ => None
  end.

Definition capture (root : path) (domain : string) (d : disk) : result captured :=
  match read_json (instance_table_path root domain) d, read_json (predicate_map_path root domain) d with
  | Ok table, Ok pmap =>
      Ok (mkCaptured table pmap (list_to_map (omap (cached_file (extraction_cache_dir root domain)) (map_to_list d))))
  | Raise e, _ | _, Raise e => Raise e
  end.

End files.

(** * Where the engine looks *)

(** The redirect target of each thread that has one. *)
Notation roots := (gmap N path).

Definition set_root (thread : N) (root : option path) (m : roots) : roots :=
  match root with Some r => <[thread := r]> m | None => delete thread m end.

Definition using_root {A} (thread : N) (root : option path) (body : M roots A) : M roots A :=
  previous <- gets (fun m => m !! thread) ;;
  modify (set_root thread root) ;;
  try_finally body (modify (set_root thread previous)).

(** [name.rfind(".")]. *)
Fixpoint rfind_dot (name : string) : option nat :=
  match name with
  | "" => None
  | String c s => match rfind_dot s with Some i => Some (S i) | None => if Ascii.eqb c "." then Some 0%nat else None end
  end.

Definition stem (name : string) : string :=
  match rfind_dot name with
  | Some i => if (0 <? i)%nat && (i <? String.length name - 1)%nat then String.substring 0 i name else name
  | None => name
  end.

Section seams.
(** The root of the calling thread. *)
Variable root : option path.

Definition path_for (orig : string → option path → path) (domain : string) (repo_root : option path) : path :=
  match root, repo_root with Some r, None => instance_table_path r domain | _, _ => orig domain repo_root end.

(** [_CACHE_DIR / other]. *)
Definition cache_dir (orig_cache_dir : path) (other : string) : path :=
  match root with Some r => r ++ ["data"; "extraction_cache"] | None => orig_cache_dir end ++ [other].

(** The file [load_predicate_map] reads. *)
Definition predicate_map_read (p : path) : path :=
  match root with Some r => predicate_map_path r (stem (List.last p "")) | None => p end.

Definition redirect_save_to (path_fn : path → string → path) (domain : option string) (save_to : option path) : option path :=
  match root, save_to with
  | Some r, Some p => Some (path_fn r (coalesce (py_or domain (Some (stem (List.last p "")))) (stem (List.last p ""))))
  | _, _ => save_to
  end.

(** The file a schema is loaded from; [None] for the engine's own. *)
Definition schema_read (d : disk) (domain : string) : option path :=
  match root with
  | Some r => if is_some (d !! schema_yaml_path r domain) then Some (schema_yaml_path r domain) else None
  | None => None
  end.

End seams.

(** * Taxonomies *)

Record taxonomy := mkTaxonomy {
  tx_domain : string;
  tx_version : string;
  tx_entity_types : list string;
  tx_edge_types : list (string * (list string * list string))
}.

Definition InvalidSchema : exn := OtherError "InvalidSchema".

Record schema_report := mkSchemaReport {
  sr_domain : string;
  sr_version : string;
  sr_entity_types : list string;
  sr_edge_types : list string;
  sr_unreachable_edge_types : list (string * list string)
}.

(** [sorted] of a set of names. *)
Definition sorted_set (l : list string) : list string := order_by String.leb (remove_dups l).

Definition missing_endpoints (declared : list string) (e : string * (list string * list string)) : list string :=
  sorted_set (List.filter (fun t => negb (mem declared t)) (e.2.1 ++ e.2.2)).

Definition unreachable_edges (declared : list string) (edges : list (string * (list string * list string))) : list (string * list string) :=
  List.filter (fun u => match u.2 with [] => false | _ => true end) (map (fun e => (e.1, missing_endpoints declared e)) edges).

(** [engine] is the refusal of [prepare_imports], if it refuses. *)
Definition validate_schema_yaml (engine : option exn) (load_schema : string → result taxonomy) (yaml_text : string) : result schema_report :=
  if blank yaml_text then Raise InvalidSchema
  else match engine with
  | Some e => Raise e
  | None =>
      match load_schema yaml_text with
      | Raise _ => Raise InvalidSchema
      | Ok t =>
          match tx_entity_types t with
          | [] => Raise InvalidSchema
          | _ => Ok (mkSchemaReport (tx_domain t) (tx_version t) (order_by String.leb (tx_entity_types t))
                   (order_by String.leb (map fst (tx_edge_types t))) (unreachable_edges (tx_entity_types t) (tx_edge_types t)))
          end
      end
  end.

(** * Fit *)

Record fit := mkFit {
  ft_instances : Z;
  ft_instances_unclassified : Z;
  ft_unclassified_share : Q;
  ft_declared_entity_types : list string;
  ft_suggested_entity_types : list (string * Z)
}.

Definition round3 (q : Q) : Q := (round_half_even (q * inject_Z 1000) # 1000)%Q.

Section fitting.
Variable str_of : json → string.

(** [inst.get("entity_type") not in declared]: a list or an object cannot be looked up. *)
Definition undeclared (declared : list string) (inst : json) : result bool :=
  match jget "entity_type" inst with
  | Some (JStr s) => Ok (negb (mem declared s))
  | Some (JArr _) | Some (JObj _) => Raise (TypeError "unhashable type")
  | _ => Ok true
  end.

Definition unclassified (declared : list string) (inst : json) : result bool :=
  match inst with
  | JObj _ => if startswith "raw:" (type_of str_of inst) then Ok true else undeclared declared inst
  | _ => Raise (OtherError "AttributeError")
  end.

Fixpoint unclassified_of (declared : list string) (l : list json) : result (list json) :=
  match l with
  | [] => Ok []
  | i :: l' =>
      match unclassified declared i, unclassified_of declared l' with
      | Ok b, Ok us => Ok (if b then i :: us else us)
      | Raise e, _ | _, Raise e => Raise e
      end
  end.

(** The free-form type the classifier fell back to. *)
Definition raw_type (inst : json) : string :=
  strip (match jget "raw_type" inst with
         | Some v => if Datasets.json_truthy v then Datasets.py_str str_of v else removeprefix "raw:" (type_of str_of inst)
         | None => removeprefix "raw:" (type_of str_of inst)
         end).

(** [suggestions[raw] = suggestions.get(raw, 0) + 1], in order of first occurrence. *)
Fixpoint bump (k : string) (l : list (string * Z)) : list (string * Z) :=
  match l with
  | [] => [(k, 1)]
  | e :: l' => if String.eqb e.1 k then (k, e.2 + 1) :: l' else e :: bump k l'
  end.

Definition suggest (l : list (string * Z)) (inst : json) : list (string * Z) :=
  if nonempty (raw_type inst) then bump (raw_type inst) l else l.

Definition commoner (a b : string * Z) : bool := b.2 <=? a.2.

Definition taxonomy_fit (entity_types : list string) (instance_table : option json) : result fit :=
  match members "instances" instance_table with
  | Raise e => Raise e
  | Ok instances =>
      match unclassified_of entity_types instances with
      | Raise e => Raise e
      | Ok us =>
          let total := count instances in
          Ok (mkFit total (count us) (if total =? 0 then 0%Q else round3 (inject_Z (count us) / inject_Z total))
                (sorted_set entity_types) (firstn 20 (order_by commoner (foldl suggest [] us))))
      end
  end.

End fitting.

(** * Lemmas *)

Lemma below_app dir p : below dir (dir ++ p) = Some p.
Proof. induction dir as [|x dir IH]; [done|]. cbn. by rewrite String.eqb_refl. Qed.

Lemma below_some dir p q : below dir p = Some q ↔ p = dir ++ q.
Proof.
  split; [|intros ->; apply below_app]. revert p. induction dir as [|x dir IH]; intros p; cbn; [by intros [= ->]|].
  destruct p as [|y p]; [done|]. destruct (String.eqb_spec x y) as [->|]; [|done]. intros E. by rewrite (IH _ E).
Qed.

Lemma below_none dir p q : below dir p = None → p ≠ dir ++ q.
Proof. intros E ->. by rewrite below_app in E. Qed.

(** Writing the files of a cache: each is there, and nothing else changes. *)
Lemma write_cache dir l d : List.NoDup (map fst l) →
  (∀ n v, In (n, v) l → basename n = n ∧ n ≠ "" ∧ n ≠ "..") →
  ∃ d', for_each l (fun kv => write_in dir (basename kv.1) (dumps_default kv.2)) d = (Ok tt, d') ∧
    (∀ n v, In (n, v) l → d' !! (dir ++ [n]) = Some (dumps_default v)) ∧
    ∀ p, (∀ n v, In (n, v) l → p ≠ dir ++ [n]) → d' !! p = d !! p.
Proof.
  revert d. induction l as [|[n v] l IH]; intros d Hnd Hok; [by exists d|]. cbn [for_each fst snd]. apply NoDup_cons_iff in Hnd as [Hni Hnd].
  destruct (Hok n v (or_introl eq_refl)) as (Hb & H1 & H2). rewrite Hb.
  assert (E : write_in dir n (dumps_default v) d = (Ok tt, <[dir ++ [n] := dumps_default v]> d)).
  { unfold write_in, guard. apply String.eqb_neq in H1, H2. by rewrite H1, H2. }
  rewrite (run_bind _ _ _ _ _ E).
  destruct (IH (<[dir ++ [n] := dumps_default v]> d)) as (d' & E' & Hin & Hout); [done|intros n' v' Hin'; apply (Hok n' v'); by right|].
  exists d'. split; [exact E'|]. split.
  - intros n' v' [[= <- <-]|Hin']; [|by apply Hin]. rewrite Hout; [by rewrite lookup_insert_eq|].
    intros n' v' Hin' Eq. apply app_inv_head in Eq. injection Eq as <-. apply Hni, in_map_iff. by exists (n, v').
  - intros p Hp. rewrite Hout by (intros n' v' Hin'; apply (Hp n' v'); by right). rewrite lookup_insert_ne; [done|].
    intros Eq. by apply (Hp n v (or_introl eq_refl)).
Qed.

Definition with_file (p : path) (v : option json) (d : disk) : disk := match v with Some v => <[p := dumps_default v]> d | None => d end.

Lemma write_opt_run p v d : write_opt p v d = (Ok tt, with_file p v d).
Proof. by destruct v. Qed.

Lemma with_file_same p v d : d !! p = None → with_file p v d !! p = option_map dumps_default v.
Proof. destruct v; cbn; [by rewrite lookup_insert_eq|done]. Qed.

Lemma with_file_other p v d q : q ≠ p → with_file p v d !! q = d !! q.
Proof. destruct v; cbn; [intros; by rewrite lookup_insert_ne|done]. Qed.

Section capturing.
Variable loads : string → option json.

Lemma cached_file_some dir f n v : cached_file loads dir f = Some (n, v) →
  f.1 = dir ++ [n] ∧ endswith ".json" n = true ∧ loads f.2 = Some v.
Proof.
  unfold cached_file. destruct (below dir f.1) as [[|m [|]]|] eqn:E; try done. destruct (endswith ".json" m) eqn:Ee; [|done].
  destruct (loads f.2) as [w|] eqn:El; [|done]. intros [= -> ->]. by apply below_some in E.
Qed.

Lemma cached_nodup dir (k : list (path * string)) : NoDup k.*1 → NoDup (omap (cached_file loads dir) k).*1.
Proof.
  induction k as [|f k IH]; [constructor|]. cbn [omap list_omap fmap list_fmap]. intros [Hp Hd]%NoDup_cons. specialize (IH Hd).
  destruct (cached_file loads dir f) as [[m w]|] eqn:Ec; [|done]. cbn [fmap list_fmap]. apply NoDup_cons. split; [|done].
  intros Hm. apply Hp. apply list_elem_of_fmap in Hm as ([m' w'] & Em & Hm). cbn in Em. subst m'.
  apply list_elem_of_omap in Hm as (f' & Hf' & Ec'). apply list_elem_of_fmap. exists f'. split; [|done].
  apply cached_file_some in Ec as [-> _], Ec' as [-> _]. done.
Qed.

(** What is captured of the cache is what its files parse to. *)
Lemma captured_lookup (dir : path) (d : disk) (n : string) :
  (list_to_map (omap (cached_file loads dir) (map_to_list d)) : gmap string json) !! n =
  if endswith ".json" n then mbind loads (d !! (dir ++ [n])) else None.
Proof.
  set (l := omap (cached_file loads dir) (map_to_list d)).
  assert (Hin : ∀ v, (n, v) ∈ l ↔ endswith ".json" n = true ∧ mbind loads (d !! (dir ++ [n])) = Some v).
  { intros v. unfold l. rewrite list_elem_of_omap. split.
    - intros ([p t] & Hp & E). apply elem_of_map_to_list in Hp. apply cached_file_some in E as (E1 & E2 & E3). cbn [fst snd] in *.
      subst p. split; [done|]. by rewrite Hp.
    - intros [Ee E]. destruct (d !! (dir ++ [n])) as [t|] eqn:Ed; [|done]. exists (dir ++ [n], t). split; [by apply elem_of_map_to_list|].
      unfold cached_file. cbn [fst snd]. rewrite below_app, Ee. cbn in E. by rewrite E. }
  assert (Hnd : NoDup l.*1) by apply cached_nodup, NoDup_fst_map_to_list.
  destruct (list_to_map l !! n) as [v|] eqn:E.
  - apply elem_of_list_to_map_2, Hin in E as [-> ->]. done.
  - destruct (endswith ".json" n) eqn:Ee; [|done]. destruct (mbind loads (d !! (dir ++ [n]))) as [v|] eqn:El; [|done]. exfalso.
    assert (Hv : (n, v) ∈ l) by (by apply Hin). apply (elem_of_list_to_map_1 _ _ _ Hnd) in Hv.
    change ((list_to_map l : gmap string json) !! n = None) in E. congruence.
Qed.

End capturing.

(** * The seams *)

Lemma using_root_restores {A} thread root (body : M roots A) (m : roots) :
  (using_root thread root body m).2 !! thread = m !! thread ∧
  ∀ t, t ≠ thread → (using_root thread root body m).2 !! t = (body (set_root thread root m)).2 !! t.
Proof.
  unfold using_root, try_finally, bind, gets, modify, set_root. destruct (body _) as [[a|e] m'], (m !! thread) as [p|] eqn:E; cbn; split;
    intros; by rewrite ?lookup_insert_eq, ?lookup_delete_eq, ?lookup_insert_ne, ?lookup_delete_ne.
Qed.

Lemma rfind_dot_json n : rfind_dot (n +:+ ".json") = Some (String.length n).
Proof. induction n as [|c n IH]; [done|]. change (String c n +:+ ".json") with (String c (n +:+ ".json")). cbn [rfind_dot String.length]. by rewrite IH. Qed.

Lemma substring_app n m : String.substring 0 (String.length n) (n +:+ m) = n.
Proof. induction n as [|c n IH]; [by destruct m|]. change (String c n +:+ m) with (String c (n +:+ m)). cbn. by rewrite IH. Qed.

Lemma length_app_json n : String.length (n +:+ ".json") = (String.length n + 5)%nat.
Proof. induction n as [|c n IH]; [done|]. change (String c n +:+ ".json") with (String c (n +:+ ".json")). cbn [String.length]. by rewrite IH. Qed.

Lemma stem_json n : n ≠ "" → stem (n +:+ ".json") = n.
Proof.
  intros Hn. unfold stem. rewrite rfind_dot_json, length_app_json.
  assert (0 < String.length n)%nat by (destruct n; [done|cbn; lia]).
  rewrite (proj2 (Nat.ltb_lt _ _)), (proj2 (Nat.ltb_lt _ _)) by lia. apply substring_app.
Qed.

(** The files the engine asks for by its own paths are the ones under the thread's root. *)
Lemma seams_agree root orig orig_dir (engine : path) domain : domain_name domain = domain → domain ≠ "" →
  path_for (Some root) orig domain None = instance_table_path root domain ∧
  cache_dir (Some root) orig_dir domain = extraction_cache_dir root domain ∧
  predicate_map_read (Some root) (predicate_map_path engine domain) = predicate_map_path root domain.
Proof.
  intros Hd Hn. split; [done|]. split.
  - unfold cache_dir, extraction_cache_dir. by rewrite Hd, <- app_assoc.
  - unfold predicate_map_read. assert (E : List.last (predicate_map_path engine domain) "" = domain +:+ ".json").
    { unfold predicate_map_path. rewrite Hd. change ["data"; "predicate_maps"; domain +:+ ".json"] with (["data"; "predicate_maps"] ++ [domain +:+ ".json"]).
      by rewrite app_assoc, List.last_last. }
    by rewrite E, stem_json.
Qed.

(** A name the capture of a draft gives a file of the cache. *)
Definition plain_name (n : string) : Prop := basename n = n ∧ endswith ".json" n = true.

Lemma plain_name_ok n : plain_name n → basename n = n ∧ n ≠ "" ∧ n ≠ "..".
Proof. intros [H1 H2]. split; [done|]. by split; intros ->. Qed.

(** The documents of a set of artifacts. *)
Definition documents_of (a : artifact_set) (v : json) : Prop :=
  as_singletons a !! "instance_table" = Some v ∨ as_singletons a !! "predicate_map" = Some v ∨ ∃ n, as_cache a !! n = Some v.

Ltac other_path := intros; unfold schema_yaml_path, instance_table_path, predicate_map_path, extraction_cache_dir;
  rewrite <- ?app_assoc; let Eq := fresh in intros Eq; apply app_inv_head in Eq; discriminate Eq.

(** What the three writes before the cache leave on disk. *)
Lemma materialize_run str_of root domain a d :
  (∀ n v, as_cache a !! n = Some v → plain_name n) →
  let schema := yaml_of (as_singletons a !! "schema") in
  let table := truthy_json (as_singletons a !! "instance_table") in
  let pmap := truthy_json (as_singletons a !! "predicate_map") in
  ∃ w d', materialize str_of root domain a d = (Ok w, d') ∧
    wr_relations_available w = is_some table && is_some pmap && negb (bool_decide (as_cache a = ∅)) ∧
    d' !! schema_yaml_path root domain = coalesce_opt (option_map (Datasets.py_str str_of) schema) (d !! schema_yaml_path root domain) ∧
    d' !! instance_table_path root domain = coalesce_opt (option_map dumps_default table) (d !! instance_table_path root domain) ∧
    d' !! predicate_map_path root domain = coalesce_opt (option_map dumps_default pmap) (d !! predicate_map_path root domain) ∧
    (∀ n, d' !! (extraction_cache_dir root domain ++ [n]) =
       coalesce_opt (option_map dumps_default (as_cache a !! n)) (d !! (extraction_cache_dir root domain ++ [n]))) ∧
    ∀ p, below root p = None → d' !! p = d !! p.
Proof.
  intros Hn schema table pmap. unfold materialize. fold schema table pmap.
  set (d1 := match schema with Some y => <[schema_yaml_path root domain := Datasets.py_str str_of y]> d | None => d end).
  assert (E1 : (match schema with
    | Some y => modify (fun d => <[schema_yaml_path root domain := Datasets.py_str str_of y]> d) | None => ret tt end) d = (Ok tt, d1))
    by (unfold d1; by destruct schema).
  rewrite (run_bind _ _ _ _ _ E1), (run_bind _ _ _ _ _ (write_opt_run _ _ _)), (run_bind _ _ _ _ _ (write_opt_run _ _ _)).
  set (d3 := with_file _ pmap _).
  assert (Hnames : ∀ n v, In (n, v) (map_to_list (as_cache a)) → basename n = n ∧ n ≠ "" ∧ n ≠ "..").
  { intros n v Hin. apply plain_name_ok, (Hn n v). by apply elem_of_map_to_list, list_elem_of_In. }
  destruct (write_cache (extraction_cache_dir root domain) (map_to_list (as_cache a)) d3) as (d4 & E4 & Hin & Hout); [|done|].
  { apply NoDup_ListNoDup, (NoDup_fst_map_to_list (as_cache a)). }
  rewrite (run_bind _ _ _ _ _ E4). eexists _, d4. split; [reflexivity|]. split.
  { cbn. f_equal. destruct (decide (as_cache a = ∅)) as [Ee|Ee].
    - rewrite bool_decide_true by done. by rewrite Ee, map_to_list_empty.
    - rewrite bool_decide_false by done. rewrite <- map_to_list_empty_iff in Ee. destruct (map_to_list (as_cache a)); [done|].
      unfold count. cbn [length]. by rewrite (proj2 (Z.ltb_lt _ _)) by lia. }
  assert (Hother : ∀ p, (∀ n, p ≠ extraction_cache_dir root domain ++ [n]) → d4 !! p = d3 !! p) by (intros p Hp; apply Hout; intros n v _; apply Hp).
  split; [|split; [|split; [|split]]].
  - rewrite Hother by other_path. unfold d3. rewrite !with_file_other by other_path. unfold d1. destruct schema; [by rewrite lookup_insert_eq|done].
  - rewrite Hother by other_path. unfold d3. rewrite with_file_other by other_path. destruct table; cbn; [by rewrite lookup_insert_eq|].
    unfold d1. destruct schema; [|done]. rewrite lookup_insert_ne; [done|other_path].
  - rewrite Hother by other_path. unfold d3. destruct pmap; cbn; [by rewrite lookup_insert_eq|]. rewrite with_file_other by other_path.
    unfold d1. destruct schema; [|done]. rewrite lookup_insert_ne; [done|other_path].
  - intros n. destruct (as_cache a !! n) as [v|] eqn:Ev; cbn.
    + apply Hin, list_elem_of_In, elem_of_map_to_list, Ev.
    + rewrite Hout. 2: { intros m v Hm Eq. apply app_inv_head in Eq. injection Eq as <-. apply list_elem_of_In, elem_of_map_to_list in Hm. congruence. }
      unfold d3. rewrite !with_file_other by other_path. unfold d1. destruct schema; [|done]. rewrite lookup_insert_ne; [done|other_path].
  - intros p Hp. pose proof (fun q => below_none root p q Hp) as Hne. rewrite Hother. 2: { intros n. unfold extraction_cache_dir. rewrite <- app_assoc. apply Hne. }
    unfold d3. rewrite !with_file_other by apply Hne. unfold d1. destruct schema; [|done]. rewrite lookup_insert_ne; [done|]. intros Eq. by apply (Hne _ (eq_sym Eq)).
Qed.

Lemma read_written (loads : string → option json) (p : path) (v : option json) (d : disk) : (∀ x, v = Some x → loads (dumps_default x) = Some x) →
  d !! p = option_map dumps_default v → read_json loads p d = Ok v.
Proof. intros Hl E. unfold read_json. rewrite E. destruct v as [v|]; [|done]. cbn. by rewrite (Hl v eq_refl). Qed.

Lemma coalesce_opt_none {A} (o : option A) : coalesce_opt o None = o.
Proof. by destruct o. Qed.

Lemma truthy_json_some o v : truthy_json o = Some v → o = Some v.
Proof. unfold truthy_json. destruct o as [x|]; [|done]. by destruct (Datasets.json_truthy x); [intros [= ->]|]. Qed.

Lemma tenant_roots_apart (base : path) (ctx ctx' : RequestContext) (domain domain' : string) (p : path) :
  (tenant_of ctx < 2 ^ 128)%N → (tenant_of ctx' < 2 ^ 128)%N → tenant_of ctx ≠ tenant_of ctx' →
  below (tenant_root base ctx domain) (tenant_root base ctx' domain' ++ p) = None.
Proof.
  intros H1 H2 Hne. destruct (below _ _) as [q|] eqn:E; [|done]. exfalso. apply below_some in E. unfold tenant_root in E.
  rewrite <- !app_assoc in E. apply app_inv_head in E. apply (f_equal (List.hd "")) in E. cbn [List.hd app] in E. by apply ObjectStore.uuid_str_inj in E.
Qed.

(** C36: artifacts come back from the disk.  Stored artifacts written under a root that holds
    nothing yet are captured again as they were, the instance table and the predicate map
    unless they are empty, every file of the extraction cache under its own name; the
    taxonomy's text is where the engine looks for it; relations are reported available
    exactly when all three of their parts were written.  A thread that uses the root reads
    exactly these files, whatever path the engine asks for.  Nothing outside the root changes,
    so under a tenant's root no other tenant's files. *)
Theorem artifacts_come_back (loads : string → option json) (str_of : json → string) (base : path) (ctx : RequestContext)
  (domain : string) (a : artifact_set) (d : disk) :
  let root := tenant_root base ctx domain in
  let table := truthy_json (as_singletons a !! "instance_table") in
  let pmap := truthy_json (as_singletons a !! "predicate_map") in
  (∀ n v, as_cache a !! n = Some v → plain_name n) →
  (∀ v, documents_of a v → loads (dumps_default v) = Some v) →
  (∀ p, d !! (root ++ p) = None) →
  ∃ w d', materialize str_of root domain a d = (Ok w, d') ∧
    capture loads root domain d' = Ok (mkCaptured table pmap (as_cache a)) ∧
    d' !! schema_yaml_path root domain = option_map (Datasets.py_str str_of) (yaml_of (as_singletons a !! "schema")) ∧
    wr_relations_available w = is_some table && is_some pmap && negb (bool_decide (as_cache a = ∅)) ∧
    (domain_name domain = domain → domain ≠ "" → ∀ engine orig orig_dir name,
       d' !! path_for (Some root) orig domain None = option_map dumps_default table ∧
       d' !! predicate_map_read (Some root) (predicate_map_path engine domain) = option_map dumps_default pmap ∧
       d' !! (cache_dir (Some root) orig_dir domain ++ [name]) = option_map dumps_default (as_cache a !! name) ∧
       schema_read (Some root) d' domain = option_map (fun _ => schema_yaml_path root domain) (yaml_of (as_singletons a !! "schema"))) ∧
    (∀ p, below root p = None → d' !! p = d !! p) ∧
    ∀ ctx' domain' p, (tenant_of ctx < 2 ^ 128)%N → (tenant_of ctx' < 2 ^ 128)%N → tenant_of ctx' ≠ tenant_of ctx →
      d' !! (tenant_root base ctx' domain' ++ p) = d !! (tenant_root base ctx' domain' ++ p).
Proof.
  intros root table pmap Hn Hl He. destruct (materialize_run str_of root domain a d Hn) as (w & d' & E & Hr & Hs & Ht & Hp & Hc & Ho).
  assert (Hf : d !! schema_yaml_path root domain = None ∧ d !! instance_table_path root domain = None ∧ d !! predicate_map_path root domain = None)
    by (unfold schema_yaml_path, instance_table_path, predicate_map_path; by rewrite !He).
  destruct Hf as (F1 & F2 & F3). rewrite F1, coalesce_opt_none in Hs. rewrite F2, coalesce_opt_none in Ht. rewrite F3, coalesce_opt_none in Hp.
  assert (Hc' : ∀ n, d' !! (extraction_cache_dir root domain ++ [n]) = option_map dumps_default (as_cache a !! n))
    by (intros n; rewrite Hc; unfold extraction_cache_dir; by rewrite <- app_assoc, He, coalesce_opt_none).
  exists w, d'. split; [exact E|]. split; [|split; [done|split; [done|split; [|split; [done|]]]]].
  - unfold capture. rewrite (read_written loads _ table); [|intros v Hv; apply Hl; left; by apply truthy_json_some|done].
    rewrite (read_written loads _ pmap); [|intros v Hv; apply Hl; right; left; by apply truthy_json_some|done].
    do 2 f_equal. apply map_eq. intros n. rewrite captured_lookup, Hc'.
    destruct (as_cache a !! n) as [v|] eqn:Ev; cbn [option_map mbind option_bind].
    + rewrite (proj2 (Hn n v Ev)). apply Hl. right; right. by exists n.
    + by destruct (endswith ".json" n).
  - intros Hd Hne engine orig orig_dir name. destruct (seams_agree root orig orig_dir engine domain Hd Hne) as (-> & -> & ->).
    split; [done|split; [done|split; [by rewrite Hc'|]]]. unfold schema_read. rewrite Hs. by destruct (yaml_of _).
  - intros ctx' domain' p H1 H2 Hne. apply Ho, tenant_roots_apart; congruence.
Qed.

(** * What the fit says *)

Section fit_lemmas.
Variable str_of : json → string.

Definition total (l : list (string * Z)) : Z := sum_Z (map snd l).

Lemma bump_total k l : total (bump k l) = total l + 1.
Proof. unfold total, sum_Z. induction l as [|e l IH]; [done|]. cbn. destruct (e.1 =? k)%string; cbn in *; lia. Qed.

Lemma bump_keys k l x : In x (map fst (bump k l)) ↔ x = k ∨ In x (map fst l).
Proof.
  induction l as [|e l IH]; cbn; [by intuition|]. destruct (String.eqb_spec e.1 k) as [<-|Hne]; cbn; [intuition|]. rewrite IH. intuition.
Qed.

Lemma bump_positive k l : Forall (fun e => 0 < e.2) l → Forall (fun e => 0 < e.2) (bump k l).
Proof.
  induction 1 as [|e l He Hl IH]; cbn; [by repeat constructor|]. destruct (e.1 =? k)%string; constructor; cbn; try done. lia.
Qed.

Lemma suggest_spec us : ∀ l, Forall (fun e => 0 < e.2) l →
  let s := foldl (suggest str_of) l us in
  total s <= total l + count us ∧ Forall (fun e => 0 < e.2) s ∧
  ∀ x, In x (map fst s) ↔ In x (map fst l) ∨ ∃ i, In i us ∧ nonempty (raw_type str_of i) = true ∧ x = raw_type str_of i.
Proof.
  induction us as [|i us IH]; intros l Hl; cbv zeta.
  { cbn [foldl]. assert (count (@nil json) = 0) by done. split; [lia|]. split; [done|]. intros x. split; [by left|by intros [|(? & [] & _)]]. }
  assert (Hc : count (i :: us) = count us + 1) by (unfold count; cbn [length]; lia). rewrite Hc. cbn [foldl].
  destruct (nonempty (raw_type str_of i)) eqn:En;
    [assert (E : suggest str_of l i = bump (raw_type str_of i) l)|assert (E : suggest str_of l i = l)];
    try (by unfold suggest; rewrite En); rewrite E.
  - destruct (IH (bump (raw_type str_of i) l) (bump_positive _ _ Hl)) as (H1 & H2 & H3). rewrite bump_total in H1.
    split; [lia|]. split; [done|]. intros x. rewrite H3, bump_keys. split.
    + intros [[->|H]|(j & Hj & Hn & ->)]; [right; exists i; by repeat split; [left|]|by left|right; exists j; by repeat split; [right|]].
    + intros [H|(j & [->|Hj] & Hn & ->)]; [by left; right|by left; left|right; by exists j].
  - destruct (IH l Hl) as (H1 & H2 & H3). split; [lia|]. split; [done|]. intros x. rewrite H3. split.
    + intros [H|(j & Hj & Hn & ->)]; [by left|right; exists j; by repeat split; [right|]].
    + intros [H|(j & [->|Hj] & Hn & ->)]; [by left|congruence|right; by exists j].
Qed.

Lemma unclassified_of_spec declared l us : unclassified_of str_of declared l = Ok us →
  Forall (fun i => ∃ b, unclassified str_of declared i = Ok b) l ∧
  us = List.filter (fun i => match unclassified str_of declared i with Ok b => b | Raise _ => false end) l.
Proof.
  revert us. induction l as [|i l IH]; intros us; cbn [unclassified_of]; [by intros [= <-]|].
  destruct (unclassified str_of declared i) as [b|e] eqn:Eb; [|by destruct (unclassified_of _ _ _)].
  destruct (unclassified_of str_of declared l) as [us'|e]; [|done]. intros [= <-]. destruct (IH us' eq_refl) as [H1 ->].
  split; [constructor; [by exists b|done]|]. cbn [List.filter]. by rewrite Eb.
Qed.

Lemma unclassified_of_all declared l : (∀ i, In i l → unclassified str_of declared i = Ok false) → unclassified_of str_of declared l = Ok [].
Proof.
  induction l as [|i l IH]; intros H; [done|]. cbn. rewrite (H i (or_introl eq_refl)). by rewrite IH by (intros j Hj; apply H; by right).
Qed.

Lemma jget_jset k w kvs : jget k (jset k w (JObj kvs)) = Some w.
Proof.
  cbn [jset jget]. destruct (existsb (fun kv => String.eqb kv.1 k) kvs) eqn:Ex; cbn [jget].
  - induction kvs as [|[k' v] kvs IH]; [done|]. cbn in *. destruct (String.eqb k' k) eqn:E; cbn; rewrite E; [done|]. by apply IH.
  - induction kvs as [|[k' v] kvs IH]; cbn in *; [by rewrite String.eqb_refl|]. destruct (String.eqb k' k) eqn:E; [done|]. by apply IH.
Qed.

Lemma jset_obj k w kvs : ∃ kvs', jset k w (JObj kvs) = JObj kvs' ∧ kvs' ≠ [].
Proof.
  cbn [jset]. eexists. split; [reflexivity|]. destruct (existsb _ kvs) eqn:E; [by destruct kvs|]. by destruct kvs.
Qed.

Lemma members_jset k kvs l : members k (Some (jset k (JArr l) (JObj kvs))) = Ok l.
Proof.
  pose proof (jget_jset k (JArr l) kvs) as E. destruct (jset_obj k (JArr l) kvs) as ([|p kvs'] & Eo & Hne); [done|].
  rewrite Eo in *. cbn [members]. by rewrite E.
Qed.

(** An unclassified instance whose type is as the classifier writes it. *)
Definition placeable (i : json) : Prop :=
  ∃ kvs x, i = JObj kvs ∧ raw_type str_of i = x ∧ nonempty x = true ∧ startswith "raw:" x = false ∧
    (jget "entity_type" i = Some (JStr x) ∨ jget "entity_type" i = Some (JStr ("raw:" +:+ x))).

(** The correction that places every instance under the name suggested for it. *)
Definition accept_all (suggested : list (string * Z)) : gmap string string := list_to_map (map (fun e => (e.1, e.1)) suggested).

Lemma accept_all_lookup s k : accept_all s !! k = if mem (map fst s) k then Some k else None.
Proof.
  unfold accept_all, mem. induction s as [|e s IH]; [done|]. change (list_to_map (map _ (e :: s))) with (<[e.1 := e.1]> (list_to_map (map (fun e => (e.1, e.1)) s) : gmap string string)).
  cbn [map fst existsb]. destruct (String.eqb_spec k e.1) as [->|Hne]; [by rewrite lookup_insert_eq|]. by rewrite lookup_insert_ne, IH by done.
Qed.

Lemma removeprefix_app p x : removeprefix p (p +:+ x) = x.
Proof.
  unfold removeprefix. rewrite (proj2 (startswith_spec p (p +:+ x))) by (by exists x).
  induction p as [|c p IH]; [|exact IH]. change ("" +:+ x) with x. cbn [String.length]. rewrite Nat.sub_0_r.
  induction x as [|d x IH]; [done|]. cbn [String.length String.substring]. by rewrite IH.
Qed.

Lemma removeprefix_none p x : startswith p x = false → removeprefix p x = x.
Proof. intros E. unfold removeprefix. by rewrite E. Qed.

Lemma type_of_str s i : jget "entity_type" i = Some (JStr s) → type_of str_of i = s.
Proof. intros E. unfold type_of. by rewrite E. Qed.

Lemma classified_kvs declared kvs s : jget "entity_type" (JObj kvs) = Some (JStr s) →
  startswith "raw:" s = false → mem declared s = true → unclassified str_of declared (JObj kvs) = Ok false.
Proof. intros E Hr Hm. unfold unclassified, undeclared. rewrite (type_of_str s) by done. by rewrite Hr, E, Hm. Qed.

Lemma classified_inv declared i : unclassified str_of declared i = Ok false →
  ∃ kvs s, i = JObj kvs ∧ jget "entity_type" i = Some (JStr s) ∧ startswith "raw:" s = false ∧ mem declared s = true.
Proof.
  unfold unclassified, undeclared. destruct i as [| | | | | |kvs]; try done. destruct (startswith "raw:" (type_of str_of (JObj kvs))) eqn:Er; [done|].
  destruct (jget "entity_type" (JObj kvs)) as [[| | | |s| |]|] eqn:E; try done. intros [= Hm]. apply negb_false_iff in Hm.
  exists kvs, s. by rewrite (type_of_str s) in Er.
Qed.

(** Under the suggested names, every instance has a declared type. *)
Lemma placed declared s i :
  (∀ x, In x (map fst s) → startswith "raw:" x = false) →
  unclassified str_of declared i = Ok false ∨ placeable i ∧ In (raw_type str_of i) (map fst s) →
  unclassified str_of (declared ++ map fst s) (retyped str_of (accept_all s) i) = Ok false.
Proof.
  intros Hs [H|[(kvs & x & -> & Hx & Hne & Hr & Ht) Hin]].
  - apply classified_inv in H as (kvs & t & -> & E & Hr & Hm).
    assert (Em : mapped_type str_of (accept_all s) (JObj kvs) = None).
    { unfold mapped_type. rewrite (type_of_str t), (removeprefix_none _ _ Hr) by done. rewrite accept_all_lookup.
      destruct (mem (map fst s) t); unfold py_or; [|done]. destruct (truthy (Some t)); by rewrite String.eqb_refl, andb_false_r. }
    unfold retyped. rewrite Em. apply (classified_kvs _ _ t); [done|done|]. apply mem_spec, in_app_iff. left. by apply mem_spec.
  - rewrite Hx in Hin. assert (Hm : mem (declared ++ map fst s) x = true) by (by apply mem_spec, in_app_iff; right).
    assert (Hl : mem (map fst s) x = true) by (by apply mem_spec).
    assert (Htr : truthy (Some x) = true) by (unfold truthy; exact Hne).
    destruct Ht as [Ht|Ht].
    + assert (Em : mapped_type str_of (accept_all s) (JObj kvs) = None).
      { unfold mapped_type. rewrite (type_of_str x), accept_all_lookup, Hl by done. unfold py_or. by rewrite Htr, String.eqb_refl, andb_false_r. }
      unfold retyped. rewrite Em. by apply (classified_kvs _ _ x).
    + assert (Em : mapped_type str_of (accept_all s) (JObj kvs) = Some x).
      { unfold mapped_type. rewrite (type_of_str ("raw:" +:+ x)), !accept_all_lookup, removeprefix_app, Hl by done.
        assert (En : mem (map fst s) ("raw:" +:+ x) = false).
        { apply not_true_iff_false. intros Hm'. apply mem_spec, Hs in Hm'. by rewrite (proj2 (startswith_spec "raw:" ("raw:" +:+ x))) in Hm' by (by exists x). }
        rewrite En. cbn [py_or truthy]. rewrite Hne. cbn [andb]. assert (Ed : (x =? "raw:" +:+ x)%string = false).
        { apply String.eqb_neq. intros Ex. rewrite Ex in Hr. by rewrite (proj2 (startswith_spec "raw:" ("raw:" +:+ x))) in Hr by (by exists x). }
        by rewrite Ed. }
      unfold retyped. rewrite Em. destruct (jset_obj "entity_type" (JStr x) kvs) as (kvs' & Eo & _). rewrite Eo.
      apply (classified_kvs _ _ x); [|done|done]. rewrite <- Eo. apply jget_jset.
Qed.

Lemma total_firstn n l : Forall (fun e : string * Z => 0 < e.2) l → total (firstn n l) <= total l.
Proof.
  intros H. rewrite <- (firstn_skipn n l) at 2. unfold total. rewrite map_app, sum_Z_app.
  assert (0 <= sum_Z (map snd (skipn n l))); [|lia]. apply sum_Z_nonneg. rewrite <- (firstn_skipn n l) in H.
  apply Forall_app in H as [_ H]. induction H as [|e l' He _ IH]; cbn; constructor; [lia|done].
Qed.

Lemma total_perm l l' : Permutation l l' → total l = total l'.
Proof. unfold total, sum_Z. induction 1; cbn in *; lia. Qed.

Lemma share_bounds (u n : Z) : 0 <= u → u <= n → 0 < n → (0 <= round3 (inject_Z u / inject_Z n) <= 1)%Q.
Proof.
  intros H1 H2 H3. assert (Hq : (0 <= inject_Z u / inject_Z n <= 1)%Q).
  { split; [apply Qle_shift_div_l|apply Qle_shift_div_r]; try (change 0%Q with (inject_Z 0); rewrite <- Zlt_Qlt; lia).
    - rewrite Qmult_0_l. change 0%Q with (inject_Z 0). by rewrite <- Zle_Qle.
    - rewrite Qmult_1_l. by rewrite <- Zle_Qle. }
  unfold round3. split.
  - unfold Qle. cbn. rewrite Z.mul_1_r. apply round_half_even_nonneg. apply Qmult_le_0_compat; [apply Hq|done].
  - assert (A : round_half_even (inject_Z u / inject_Z n * inject_Z 1000) <= round_half_even (1 * inject_Z 1000)).
    { apply round_half_even_mono, Qmult_le_compat_r; [apply Hq|done]. }
    change (1 * inject_Z 1000)%Q with (inject_Z 1000) in A. rewrite round_half_even_int in A.
    unfold Qle. cbn [Qnum Qden]. lia.
Qed.

Lemma commoner_total a b : commoner a b = true ∨ commoner b a = true.
Proof. unfold commoner. rewrite !Z.leb_le. lia. Qed.

Lemma commoner_trans a b c : commoner a b = true → commoner b c = true → commoner a c = true.
Proof. unfold commoner. rewrite !Z.leb_le. lia. Qed.

(** The instances [taxonomy_fit] counts. *)
Definition misfits (declared : list string) (l : list json) : list json :=
  List.filter (fun i => match unclassified str_of declared i with Ok b => b | Raise _ => false end) l.

Lemma taxonomy_fit_inv types table f : taxonomy_fit str_of types table = Ok f → ∃ l,
  members "instances" table = Ok l ∧ Forall (fun i => ∃ b, unclassified str_of types i = Ok b) l ∧
  f = mkFit (count l) (count (misfits types l)) (if count l =? 0 then 0%Q else round3 (inject_Z (count (misfits types l)) / inject_Z (count l)))
        (sorted_set types) (firstn 20 (order_by commoner (foldl (suggest str_of) [] (misfits types l)))).
Proof.
  unfold taxonomy_fit. destruct (members "instances" table) as [l|] eqn:Em; [|done].
  destruct (unclassified_of str_of types l) as [us|] eqn:Eu; [|done]. intros [= <-]. apply unclassified_of_spec in Eu as [H ->]. by exists l.
Qed.

(** Declaring every name suggested for the misfits leaves none. *)
Lemma covered types l (kvs : list (string * json)) s :
  Forall (fun i => ∃ b, unclassified str_of types i = Ok b) l →
  (∀ i, In i (misfits types l) → placeable i) →
  (∀ x, In x (map fst s) ↔ ∃ i, In i (misfits types l) ∧ nonempty (raw_type str_of i) = true ∧ x = raw_type str_of i) →
  ∃ f, taxonomy_fit str_of (types ++ map fst s)
      (Some (jset "instances" (JArr (map (retyped str_of (accept_all s)) l)) (JObj kvs))) = Ok f ∧
    ft_instances f = count l ∧ ft_instances_unclassified f = 0.
Proof.
  intros Hall Hpl Hs. unfold taxonomy_fit. rewrite members_jset, unclassified_of_all.
  - eexists. split; [reflexivity|]. cbn [ft_instances ft_instances_unclassified]. split; [|done]. unfold count. by rewrite length_map.
  - intros i Hi. apply in_map_iff in Hi as (j & <- & Hj). apply placed.
    + intros x Hx. apply Hs in Hx as (i & Hi & _ & ->). apply Hpl in Hi as (? & ? & _ & -> & _ & Hr & _). exact Hr.
    + rewrite List.Forall_forall in Hall. destruct (Hall j Hj) as [[] Eb]; [|by left]. right.
      assert (Hm : In j (misfits types l)) by (apply filter_In; by rewrite Eb).
      split; [by apply Hpl|]. apply Hs. exists j. destruct (Hpl j Hm) as (? & ? & _ & -> & Hn & _). by repeat split.
Qed.

End fit_lemmas.

(** The fit names what the taxonomy misses.  The instances counted as unclassified are
    exactly those whose type is free-form or undeclared, and their share lies between none
    and all; the suggested types come most common first, each for at least one instance and
    together for no more than are unclassified.  When every unclassified instance carries
    its type as the classifier writes it and fewer than twenty are suggested, the one edit
    that declares the suggested types and moves the instances under them leaves no
    instance unclassified. *)
Theorem the_fit_names_the_gap (str_of : json → string) (types : list string) (table : option json) (f : fit) :
  taxonomy_fit str_of types table = Ok f →
  ∃ l, members "instances" table = Ok l ∧ ft_instances f = count l ∧
    ft_instances_unclassified f = count (misfits str_of types l) ∧
    (0 <= ft_unclassified_share f <= 1)%Q ∧
    StronglySorted (fun a b => b.2 <= a.2) (ft_suggested_entity_types f) ∧
    Forall (fun e => 0 < e.2) (ft_suggested_entity_types f) ∧
    total (ft_suggested_entity_types f) <= ft_instances_unclassified f ∧
    ∀ kvs, table = Some (JObj kvs) → (∀ i, In i (misfits str_of types l) → placeable str_of i) →
      (length (ft_suggested_entity_types f) < 20)%nat →
      ∃ f', taxonomy_fit str_of (types ++ map fst (ft_suggested_entity_types f))
              (Some (jset "instances" (JArr (map (retyped str_of (accept_all (ft_suggested_entity_types f))) l)) (JObj kvs))) = Ok f' ∧
        ft_instances f' = count l ∧ ft_instances_unclassified f' = 0.
Proof.
  intros E. apply taxonomy_fit_inv in E as (l & Em & Hall & ->). exists l. cbn [ft_instances ft_instances_unclassified ft_unclassified_share ft_suggested_entity_types].
  set (us := misfits str_of types l). destruct (suggest_spec str_of us []) as (H1 & H2 & H3); [constructor|]. cbv zeta in H1, H2, H3.
  set (s := foldl (suggest str_of) [] us) in *. pose proof (order_by_perm commoner s) as Hp.
  assert (Hpos : Forall (fun e => 0 < e.2) (order_by commoner s)) by (by rewrite Hp).
  assert (Hle : count us <= count l) by (apply inj_le, List.filter_length_le).
  split; [done|]. split; [done|]. split; [done|]. split; [|split; [|split; [|split]]].
  - destruct (count l =? 0) eqn:E0; [done|]. apply Z.eqb_neq in E0. apply share_bounds; unfold count in *; lia.
  - apply firstn_sorted. apply (StronglySorted_weaken (fun a b => commoner a b = true)); [intros a b; apply Z.leb_le|].
    apply order_by_sorted; [apply commoner_total|apply commoner_trans].
  - rewrite List.Forall_forall in *. intros e He. by apply Hpos, (firstn_subset 20).
  - pose proof (total_firstn 20 _ Hpos). rewrite (total_perm _ _ Hp) in *. change (total []) with 0 in H1. lia.
  - intros kvs -> Hpl Hlen. assert (Hfull : firstn 20 (order_by commoner s) = order_by commoner s).
    { rewrite length_firstn in Hlen. apply firstn_all2. lia. }
    rewrite Hfull. eapply covered; [done|done|]. intros x. rewrite Hp, H3. split; [intros [[]|H]; exact H|by right].
Qed.

Module ArtifactsDemo.
Definition table : json := JObj [("instances", JArr [
  JObj [("name", JStr "P-101"); ("entity_type", JStr "pump")];
  JObj [("name", JStr "E7"); ("entity_type", JStr "raw:alarm"); ("raw_type", JStr "alarm")];
  JObj [("name", JStr "E9"); ("entity_type", JStr "raw:alarm")];
  JObj [("name", JStr "bar"); ("entity_type", JStr "unit")]])].
Definition pmap : json := JObj [("predicate_map", JObj [("trips", JStr "CAUSES")])].
Definition stored : artifact_set :=
  mkArtifactSet {["schema" := JObj [("yaml", JStr "entity_types: [pump]")]; "instance_table" := table; "predicate_map" := pmap]}
    {["c1.json" := JArr [JInt 1]; "c2.json" := JArr []]}.
Definition loads (text : string) : option json :=
  List.find (fun v => String.eqb (dumps_default v) text) [table; pmap; JArr [JInt 1]; JArr []].
(** The taxonomy published afterwards, which was drafted without relations. *)
Definition later : artifact_set := mkArtifactSet {["schema" := JObj [("yaml", JStr "entity_types: [valve]")]]} ∅.
Definition base : path := ["var"; "graphrag"; "onboarding"].
Definition root : path := tenant_root base Demo.ctx "plant".
Definition after_first : disk := (materialize (fun _ => "") root "plant" stored ∅).2.
End ArtifactsDemo.
Import ArtifactsDemo.

(** A root is reused by every taxonomy of a domain: what a later one lacks is still there. *)
Example an_earlier_taxonomy_stays :
  let '(r, d) := materialize (fun _ => "") root "plant" later after_first in
  match r with Ok w => wr_schema w && negb (wr_instance_table w) && negb (wr_relations_available w) | Raise _ => false end = true ∧
  capture loads root "plant" d = Ok (mkCaptured (Some table) (Some pmap) (as_cache stored)).
Proof. split; [by vm_compute|]. vm_compute. reflexivity. Qed.

Lemma artifacts_come_back_witness : ∃ w d', materialize (fun _ => "") root "plant" stored ∅ = (Ok w, d') ∧
  capture loads root "plant" d' = Ok (mkCaptured (Some table) (Some pmap) (as_cache stored)) ∧ wr_relations_available w = true.
Proof.
  destruct (artifacts_come_back loads (fun _ => "") base Demo.ctx "plant" stored ∅) as (w & d' & E & Hc & _ & Hr & _).
  - intros n v E. unfold stored in E. cbn [as_cache] in E. apply lookup_insert_Some in E as [[<- _]|[_ E]]; [by split|].
    apply lookup_singleton_Some in E as [<- _]. by split.
  - intros v [E|[E|(n & E)]]; [by vm_compute in E; injection E as <-|by vm_compute in E; injection E as <-|].
    unfold stored in E. cbn [as_cache] in E. apply lookup_insert_Some in E as [[_ <-]|[_ E]]; [done|]. by apply lookup_singleton_Some in E as [_ <-].
  - intros p. apply lookup_empty.
  - exists w, d'. split; [exact E|]. split; [etransitivity; [exact Hc|by vm_compute]|]. etransitivity; [exact Hr|by vm_compute].
Defined.

Definition fitted : fit := mkFit 4 3 (750 # 1000) ["pump"] [("alarm", 2); ("unit", 1)].

Definition instances : list json := match members "instances" (Some table) with Ok l => l | Raise _ => [] end.

Lemma the_fit_names_the_gap_witness : taxonomy_fit (fun _ => "") ["pump"] (Some table) = Ok fitted ∧
  ∃ f', taxonomy_fit (fun _ => "") ["pump"; "alarm"; "unit"]
      (Some (jset "instances" (JArr (map (retyped (fun _ => "") (accept_all [("alarm", 2); ("unit", 1)])) instances)) table)) = Ok f' ∧
    ft_instances_unclassified f' = 0.
Proof.
  assert (E : taxonomy_fit (fun _ => "") ["pump"] (Some table) = Ok fitted) by (vm_compute; reflexivity).
  split; [exact E|]. destruct (the_fit_names_the_gap (fun _ => "") ["pump"] (Some table) fitted E) as (l & Em & _ & _ & _ & _ & _ & _ & H).
  assert (Hl : l = instances) by (assert (Em' : members "instances" (Some table) = Ok instances) by (vm_compute; reflexivity); congruence).
  subst l. destruct (H _ eq_refl) as (f' & E' & _ & E0); [|cbn; lia|by exists f'].
  intros i Hi. assert (Hm : misfits (fun _ => "") ["pump"] instances = skipn 1 instances) by (vm_compute; reflexivity). rewrite Hm in Hi.
  destruct Hi as [<-|[<-|[<-|[]]]]; eexists _, _; (split; [reflexivity|]); (split; [vm_compute; reflexivity|]); (split; [reflexivity|]); (split; [reflexivity|]).
  - by right.
  - by right.
  - by left.
Defined.
