(* ===== verification/Engine.v ===== *)
(** The borrowed GraphRAG engine's seams ([workloads/graphrag/engine.py]): preparing its
    imports, binding the platform's client, and the encoder and chat function it is given.

    The engine's own modules are not in the repository: importing one is a parameter that
    succeeds or raises, given the environment it snapshots.  [resolve] and [path_exists] are
    the file system's, [as_row] is the conversion of a vector to float32 with, when asked,
    its normalisation. *)
From S2P Require Import Prelude Identity Json Text Db Settings.
From S2P Require Cache Chat.

Definition GraphRAGDisabled : exn := OtherError "GraphRAGDisabled".

(** Of the process: [_installed], [_chat_patched], [_prepared_root], [_ctx] (bound together
    with the one client), [sys.modules] and [os.environ]. *)
Record engine_state := mkEngine {
  en_installed : bool;
  en_chat_patched : bool;
  en_prepared_root : option string;
  en_context : option RequestContext;
  en_modules : list string;
  en_environ : gmap string string
}.

#[export] Instance eta_engine : Eta engine_state := fun s =>
  mkEngine (en_installed s) (en_chat_patched s) (en_prepared_root s) (en_context s) (en_modules s) (en_environ s).

Definition STUB : string := "sentence_transformers".
Definition CONFIG : string := "config".

Definition setdefault (k v : string) (m : gmap string string) : gmap string string :=
  match m !! k with Some _ => m | None => <[k := v]> m end.

Definition set_context (ctx : RequestContext) : M engine_state unit := modify (fun s => s <| en_context := Some ctx |>).

Section engine.
Variable st : Settings.
Variable resolve : string → string.
Variable path_exists : string → bool.
(** What making the cache directory raises, and what the two imports do. *)
Variable mkdir_fault : option exn.
Variable cache_root : string.
Variable import_config : gmap string string → result unit.
Variables import_graph import_chat : result unit.

Definition engine_environ (m : gmap string string) : gmap string string :=
  setdefault "EMBEDDING_MODEL" (embedding_model st)
    (setdefault "USE_HITL" "false" (setdefault "QDRANT_URL" "" (setdefault "USE_RERANKER" "false" m))).

(** The first preparation of a process: the stub, the environment, then the import that
    snapshots it. *)
Definition first_preparation (root : string) : M engine_state string :=
  s <- get ;;
  guard (negb (mem (en_modules s) STUB)) (RuntimeError "the stub is too late to take effect") ;;
  guard (negb (mem (en_modules s) CONFIG)) (RuntimeError "the GraphRAG config module is already imported") ;;
  modify (fun s => s <| en_modules := STUB :: en_modules s |>) ;;
  modify (fun s => s <| en_environ := engine_environ (en_environ s) |>) ;;
  match mkdir_fault with Some e => raise e | None => ret tt end ;;
  modify (fun s => s <| en_environ := setdefault "DATA_DIR" cache_root (en_environ s) |>) ;;
  s <- get ;;
  match import_config (en_environ s) with Raise e => raise e | Ok _ => ret tt end ;;
  modify (fun s => s <| en_modules := CONFIG :: en_modules s |> <| en_prepared_root := Some root |>) ;;
  ret root.

Definition prepare_imports (engine_root : option string) : M engine_state string :=
  guard (graphrag_enabled st) GraphRAGDisabled ;;
  match engine_root, graphrag_engine_root st with
  | None, None => raise GraphRAGDisabled
  | given, configured =>
      let root := resolve (match given with Some r => r | None => coalesce configured "" end) in
      guard (path_exists root) (OtherError "FileNotFoundError") ;;
      s <- get ;;
      match en_prepared_root s with
      | Some bound => guard (String.eqb bound root) (RuntimeError "GraphRAG imports are already bound") ;; ret root
      | None => first_preparation root
      end
  end.

Definition install (engine_root : option string) : M engine_state unit :=
  s <- get ;;
  if en_installed s then ret tt
  else
    prepare_imports engine_root ;;
    match import_graph with Raise e => raise e | Ok _ => ret tt end ;;
    modify (fun s => s <| en_installed := true |>).

Definition install_metered_chat : M engine_state unit :=
  s <- get ;;
  if en_chat_patched s then ret tt
  else
    match import_chat with Raise e => raise e | Ok _ => ret tt end ;;
    modify (fun s => s <| en_chat_patched := true |>).

(** What a process does with the engine. *)
Inductive engine_op :=
| Prepare (engine_root : option string)
| Install (engine_root : option string)
| PatchChat
| Bind (ctx : RequestContext).

Definition perform (o : engine_op) (s : engine_state) : engine_state :=
  match o with
  | Prepare r => (prepare_imports r s).2
  | Install r => (install r s).2
  | PatchChat => (install_metered_chat s).2
  | Bind ctx => (set_context ctx s).2
  end.

Definition perform_all (l : list engine_op) (s : engine_state) : engine_state := foldl (fun s o => perform o s) s l.

End engine.

(** * What the engine is given *)

Section given.
Context {V : Type} {client : Chat.ChatClient V}.
Variable as_row : bool → list Q → list Q.
Variable llm_model_cheap : string.

Definition UNBOUND : exn := RuntimeError "the GraphRAG engine called with no platform context bound".

(** [PlatformEncoder.encode] of a list, with the context bound when it is called. *)
Definition encode (bound : option RequestContext) (texts : list string) (normalize_embeddings : bool) : M (db * V) (list (list Q)) :=
  match texts with
  | [] => ret []
  | _ =>
      match bound with
      | None => raise UNBOUND
      | Some ctx => vectors <- Chat.client_embed ctx texts ;; ret (map (as_row normalize_embeddings) vectors)
      end
  end.

(** [call_llm]. *)
Definition engine_request (system_prompt user_prompt : string) (temperature : json) (max_tokens : Z) (model : option string)
    (response_format : option json) : Cache.ChatRequest :=
  Cache.mkChatRequest [Chat.message (JStr "system") (JStr system_prompt); Chat.message (JStr "user") (JStr user_prompt)]
    (if truthy model then coalesce model "" else llm_model_cheap) (Some temperature) (Some max_tokens) None response_format false.

Definition call_llm (bound : option RequestContext) (system_prompt user_prompt : string) (temperature : json) (max_tokens : Z)
    (model : option string) (response_format : option json) : M (db * V) string :=
  match bound with
  | None => raise UNBOUND
  | Some ctx =>
      response <- Chat.client_chat ctx (engine_request system_prompt user_prompt temperature max_tokens model response_format) ;;
      ret (Cache.rs_content response)
  end.

Lemma encode_conversation bound texts n s : Chat.conversation (encode bound texts n s).2.1 = Chat.conversation s.1.
Proof.
  unfold encode. destruct texts as [|t l]; [done|]. destruct bound as [ctx|]; [|done]. unfold bind.
  pose proof (Chat.embed_keeps_conversation ctx (t :: l) s) as H. by destruct (Chat.client_embed ctx (t :: l) s) as [[v|e] s'].
Qed.

Lemma call_llm_conversation bound sp up t m model f s : Chat.conversation (call_llm bound sp up t m model f s).2.1 = Chat.conversation s.1.
Proof.
  unfold call_llm. destruct bound as [ctx|]; [|done]. unfold bind. set (r := engine_request _ _ _ _ _ _).
  pose proof (Chat.chat_keeps_conversation ctx r s) as H. by destruct (Chat.client_chat ctx r s) as [[v|e] s'].
Qed.

End given.

(** * One engine per process *)

Section lemmas.
Variable st : Settings.
Variable resolve : string → string.
Variable path_exists : string → bool.
Variable mkdir_fault : option exn.
Variable cache_root : string.
Variable import_config : gmap string string → result unit.
Variables import_graph import_chat : result unit.
Notation prepare := (prepare_imports st resolve path_exists mkdir_fault cache_root import_config).
Notation inst := (install st resolve path_exists mkdir_fault cache_root import_config import_graph).

(** The stub is there before the configuration is read, an installed engine is prepared, and
    a prepared one has both. *)
Record engine_wf (s : engine_state) : Prop := {
  wf_stub_first : mem (en_modules s) CONFIG = true → mem (en_modules s) STUB = true;
  wf_prepared : ∀ r, en_prepared_root s = Some r → mem (en_modules s) CONFIG = true ∧ path_exists r = true;
  wf_installed : en_installed s = true → is_some (en_prepared_root s) = true
}.

Lemma setdefault_lookup k v m : setdefault k v m !! k ≠ None.
Proof. unfold setdefault. destruct (m !! k) eqn:E; [by rewrite E|by rewrite lookup_insert_eq]. Qed.

(** What preparing leaves, whatever it raises. *)
Definition prepares (s s' : engine_state) : Prop :=
  s' = s ∨ en_prepared_root s = None ∧ mem (en_modules s) STUB = false ∧ mem (en_modules s') STUB = true ∧
    en_installed s' = en_installed s ∧ en_chat_patched s' = en_chat_patched s ∧ en_context s' = en_context s ∧
    (en_prepared_root s' = None ∧ mem (en_modules s') CONFIG = mem (en_modules s) CONFIG ∨
     ∃ r, en_prepared_root s' = Some r ∧ path_exists r = true ∧ mem (en_modules s') CONFIG = true).

Lemma first_preparation_cases root s : path_exists root = true → en_prepared_root s = None →
  prepares s (first_preparation st mkdir_fault cache_root import_config root s).2.
Proof.
  intros Hr Hp. unfold first_preparation, bind, get, guard, modify, ret, raise.
  destruct (mem (en_modules s) STUB) eqn:Es; [by left|]. destruct (mem (en_modules s) CONFIG) eqn:Ec; [by left|]. cbn [negb].
  right. split; [done|split; [done|]]. destruct mkdir_fault; [|destruct (import_config _)]; cbn; repeat (split; [done|]); try (by left).
  right. by exists root.
Qed.

Lemma prepare_cases r s : prepares s (prepare r s).2.
Proof.
  unfold prepare_imports, guard, bind at 1, ret, raise. destruct (graphrag_enabled st); [|by left].
  destruct r as [r|]; [|destruct (graphrag_engine_root st) as [r|]; [|by left]]; set (root := resolve _);
    unfold bind at 1, guard, ret, raise; destruct (path_exists root) eqn:Ee; try (by left);
    unfold bind at 1, get; destruct (en_prepared_root s) as [b|] eqn:Eb; try (by apply first_preparation_cases);
    left; unfold bind; by destruct (b =? root)%string.
Qed.

Lemma prepares_wf s s' : engine_wf s → prepares s s' → engine_wf s'.
Proof.
  intros [W1 W2 W3] [->|(H1 & H2 & H3 & H4 & H5 & _ & [[H6 H7]|(r & H6 & H7 & H8)])]; [done| |]; constructor; try done.
  - intros r. by rewrite H6.
  - rewrite H4, H6. intros Hi. by rewrite H1 in W3; apply W3 in Hi.
  - intros r'. rewrite H6. by intros [= <-].
  - by rewrite H6.
Qed.

Lemma prepare_ok r s root s' : prepare r s = (Ok root, s') → en_prepared_root s' = Some root.
Proof.
  unfold prepare_imports. intros E. apply bind_ok in E as ([] & s1 & _ & E).
  assert (H : ∀ x, (guard (path_exists x) (OtherError "FileNotFoundError") ;; s <- get ;;
    match en_prepared_root s with
    | Some bound => guard (String.eqb bound x) (RuntimeError "GraphRAG imports are already bound") ;; ret x
    | None => first_preparation st mkdir_fault cache_root import_config x end) s1 = (Ok root, s') → en_prepared_root s' = Some root).
  { clear E. intros x E. apply bind_ok in E as ([] & s2 & _ & E). apply bind_ok in E as (s3 & s4 & Eg & E). injection Eg as -> ->.
    destruct (en_prepared_root s4) as [b|] eqn:Eb.
    - unfold bind, guard, ret, raise in E. destruct (String.eqb_spec b x) as [->|]; [|done]. by injection E as <- <-.
    - unfold first_preparation in E. do 9 (apply bind_ok in E as (? & ? & ? & E)).
      apply bind_ok in E as (? & s9 & Em & E). injection E as <- <-. by injection Em as _ <-. }
  destruct r as [r|]; [|destruct (graphrag_engine_root st) as [r|]; [|done]]; exact (H _ E).
Qed.

Lemma install_cases r s : ∃ s1, prepares s s1 ∧ ((inst r s).2 = s1 ∨ (inst r s).2 = s1 <| en_installed := true |> ∧ is_some (en_prepared_root s1) = true).
Proof.
  assert (Hi : inst r s = if en_installed s then (Ok tt, s) else
    match prepare r s with
    | (Ok _, s1) => match import_graph with Raise e => (Raise e, s1) | Ok _ => (Ok tt, s1 <| en_installed := true |>) end
    | (Raise e, s1) => (Raise e, s1)
    end).
  { unfold install, bind at 1, get. destruct (en_installed s); [done|]. unfold bind. destruct (prepare r s) as [[root|e] s1]; [|done]. by destruct import_graph. }
  rewrite Hi. destruct (en_installed s); [exists s; split; by left|].
  exists (prepare r s).2. split; [apply prepare_cases|].
  destruct (prepare r s) as [[root|e] s1] eqn:E; [|by left]. cbn [snd]. apply prepare_ok in E.
  destruct import_graph; [right|by left]. by rewrite E.
Qed.

Notation perf := (perform st resolve path_exists mkdir_fault cache_root import_config import_graph import_chat).

Lemma perform_prepares o s : ∃ s1, prepares s s1 ∧ en_prepared_root (perf o s) = en_prepared_root s1 ∧ en_modules (perf o s) = en_modules s1 ∧
  (en_installed (perf o s) = en_installed s1 ∨ is_some (en_prepared_root s1) = true).
Proof.
  destruct o as [r|r| |ctx]; cbn [perform].
  - exists (prepare r s).2. split; [apply prepare_cases|]. by repeat split; [..|left].
  - destruct (install_cases r s) as (s1 & H & [->|[-> Hp]]); exists s1; split; try done; cbn; repeat split; [by left|by right].
  - exists s. split; [by left|]. unfold install_metered_chat, bind, get, modify, ret, raise.
    destruct (en_chat_patched s), import_chat; cbn; repeat split; by left.
  - exists s. split; [by left|]. cbn. repeat split; by left.
Qed.

Lemma perform_wf o s : engine_wf s → engine_wf (perf o s).
Proof.
  intros W. destruct (perform_prepares o s) as (s1 & H & E1 & E2 & E3). apply (prepares_wf _ _ W) in H as [W1 W2 W3].
  constructor; rewrite ?E1, ?E2; try done. destruct E3 as [->|E3]; [done|by intros _].
Qed.

Lemma perform_root o s r : en_prepared_root s = Some r → en_prepared_root (perf o s) = Some r.
Proof.
  intros E. destruct (perform_prepares o s) as (s1 & H & -> & _). destruct H as [->|(H & _)]; [done|congruence].
Qed.

(** A first import that failed is final: the stub it left behind refuses every later one. *)
Lemma failed_import_is_final r s e s' root : en_prepared_root s = None → prepare r s = (Raise e, s') →
  mem (en_modules s) STUB = false → mem (en_modules s') STUB = true → path_exists (resolve root) = true →
  prepare (Some root) s' = (Raise (RuntimeError "the stub is too late to take effect"), s').
Proof.
  intros Hn E Hs Hs' Hr. pose proof (prepare_cases r s) as H. rewrite E in H. cbn [snd] in H.
  assert (Hen : graphrag_enabled st = true).
  { destruct (graphrag_enabled st) eqn:Ee; [done|]. unfold prepare_imports, guard, bind, raise in E. rewrite Ee in E. injection E as _ <-. congruence. }
  assert (Hp : en_prepared_root s' = None).
  { destruct H as [->|(_ & _ & _ & _ & _ & _ & [[H _]|(x & H & _)])]; [done|done|]. exfalso.
    unfold prepare_imports in E. apply bind_cases in E as [(e' & E & _)|([] & s1 & E1 & E)]; [by unfold guard in E; rewrite Hen in E|].
    unfold guard in E1. rewrite Hen in E1. injection E1 as <-.
    assert (F : ∀ y, (guard (path_exists y) (OtherError "FileNotFoundError") ;; s <- get ;;
      match en_prepared_root s with
      | Some bound => guard (String.eqb bound y) (RuntimeError "GraphRAG imports are already bound") ;; ret y
      | None => first_preparation st mkdir_fault cache_root import_config y end) s = (Raise e, s') → False).
    { clear E. intros y E. unfold bind, guard, get, ret, raise in E. destruct (path_exists y); [|injection E as _ <-; congruence].
      rewrite Hn in E. unfold first_preparation, bind, get, guard, modify, ret, raise in E.
      destruct (negb (mem (en_modules s) STUB)), (negb (mem (en_modules s) CONFIG)); try (injection E as _ <-; congruence).
      destruct mkdir_fault; [injection E as _ <-; cbn in H; congruence|]. destruct (import_config _); [done|]. injection E as _ <-. cbn in H. congruence. }
    destruct r as [r|]; [|destruct (graphrag_engine_root st) as [r|]; [|by injection E as _ <-; congruence]]; exact (F _ E). }
  unfold prepare_imports, guard, bind, get, ret, raise. rewrite Hen, Hr, Hp.
  unfold first_preparation, bind, get, guard, raise. by rewrite Hs'.
Qed.

End lemmas.

(** A process has one engine.  Whatever a process asks of the engine and whatever fails,
    from a fresh start: the configuration is never read before the embedding stub is in
    place, an installed engine is a prepared one, and once prepared it stays bound to the one
    root, which exists.  While the deployment does not enable the engine, nothing of it is
    imported and every preparation is refused as disabled. *)
Theorem one_engine_per_process (st : Settings) (resolve : string → string) (path_exists : string → bool) (mkdir_fault : option exn)
    (cache_root : string) (import_config : gmap string string → result unit) (import_graph import_chat : result unit)
    (l l' : list engine_op) (s : engine_state) :
  mem (en_modules s) CONFIG = false → en_prepared_root s = None → en_installed s = false →
  let run := perform_all st resolve path_exists mkdir_fault cache_root import_config import_graph import_chat in
  engine_wf path_exists (run l s) ∧
  (∀ r, en_prepared_root (run l s) = Some r → en_prepared_root (run (l ++ l') s) = Some r) ∧
  (graphrag_enabled st = false →
     en_modules (run l s) = en_modules s ∧ en_prepared_root (run l s) = None ∧
     ∀ r, prepare_imports st resolve path_exists mkdir_fault cache_root import_config r (run l s) = (Raise GraphRAGDisabled, run l s)).
Proof.
  intros Hc Hp Hi run. assert (W0 : engine_wf path_exists s) by (constructor; [congruence|congruence|congruence]).
  split; [|split].
  - unfold run, perform_all. clear Hc Hp Hi. revert s W0. induction l as [|o l IH]; intros s W; [done|]. cbn [foldl]. by apply IH, perform_wf.
  - intros r E. unfold run, perform_all in *. rewrite foldl_app. revert E. generalize (foldl (fun s o => perform st resolve path_exists mkdir_fault cache_root
      import_config import_graph import_chat o s) s l). induction l' as [|o l' IH]; intros s1 E; [done|]. cbn [foldl]. by apply IH, perform_root.
  - intros He. assert (Hpr : ∀ r s, prepare_imports st resolve path_exists mkdir_fault cache_root import_config r s = (Raise GraphRAGDisabled, s))
      by (intros r s0; unfold prepare_imports, guard, bind, raise; by rewrite He).
    enough (en_modules (run l s) = en_modules s ∧ en_prepared_root (run l s) = None ∧ en_installed (run l s) = false) by (by intuition).
    unfold run, perform_all. clear Hc W0. revert s Hp Hi. induction l as [|o l IH]; intros s Hp Hi; [done|]. cbn [foldl].
    assert (Ho : en_modules (perform st resolve path_exists mkdir_fault cache_root import_config import_graph import_chat o s) = en_modules s ∧
      en_prepared_root (perform st resolve path_exists mkdir_fault cache_root import_config import_graph import_chat o s) = None ∧
      en_installed (perform st resolve path_exists mkdir_fault cache_root import_config import_graph import_chat o s) = false).
    { destruct o as [r|r| |ctx]; cbn [perform].
      - by rewrite Hpr.
      - unfold install, bind, get. rewrite Hi. by rewrite Hpr.
      - unfold install_metered_chat, bind, get, modify, ret, raise. by destruct (en_chat_patched s), import_chat.
      - done. }
    destruct Ho as (<- & Ho1 & Ho2). by apply IH.
Qed.

Module EngineDemo.
Definition st : Settings := (default_settings "") <| graphrag_enabled := true |> <| graphrag_engine_root := Some "/opt/engine" |>.
Definition fresh : engine_state := mkEngine false false None None [] ∅.
Definition present (p : string) : bool := String.eqb p "/opt/engine".
(** The configuration imports once the environment names no vector store of its own. *)
Definition import_config (env : gmap string string) : result unit := if bool_decide (env !! "QDRANT_URL" = Some "") then Ok tt else Raise (OtherError "ConnectionError").
Definition prepare (mkdir : option exn) := prepare_imports st (fun p => p) present mkdir "/var/graphrag" import_config None.
End EngineDemo.

(** The cache directory could not be made once: the process never prepares again. *)
Example a_failed_preparation_is_final :
  let '(r, s) := EngineDemo.prepare (Some (PermissionError "")) EngineDemo.fresh in
  r = Raise (PermissionError "") ∧ (EngineDemo.prepare None s).1 = Raise (RuntimeError "the stub is too late to take effect").
Proof. by vm_compute. Qed.

Lemma one_engine_per_process_witness :
  let s := perform_all EngineDemo.st (fun p => p) EngineDemo.present None "/var/graphrag" EngineDemo.import_config (Ok tt) (Ok tt)
    [Bind Demo.ctx; Install None; PatchChat] EngineDemo.fresh in
  engine_wf EngineDemo.present s ∧ en_prepared_root s = Some "/opt/engine" ∧ en_installed s = true.
Proof.
  split; [|by vm_compute].
  apply (one_engine_per_process EngineDemo.st (fun p => p) EngineDemo.present None "/var/graphrag" EngineDemo.import_config (Ok tt) (Ok tt)
    [Bind Demo.ctx; Install None; PatchChat] []); by vm_compute.
Defined.

(** The client's context is the process's, not the thread's: between one request's binding
    and its call another request binds its own, and the call is charged there. *)
Example the_last_caller_is_charged ctx ctx' s : en_context (perform_all EngineDemo.st (fun p => p) EngineDemo.present None "/var/graphrag" EngineDemo.import_config
  (Ok tt) (Ok tt) [Bind ctx; Bind ctx'] s) = Some ctx'.
Proof. done. Qed.
