(* ===== verification/Hybrid.v ===== *)
(** The graph mode of a chat turn: [workloads/graphrag/retriever.py],
    [workloads/graphrag/service.py] and the graph branch of [api/routes/query.py].

    The engine's knowledge graph is the class [GraphEngine]: what building, matching and
    traversing one gives is its own, that it may call the client it was bound to and leaves
    the conversation alone is the class's promise.  pgvector's scan and PostgreSQL's text
    search are parameters; a score is an exact rational.  The process's memory is part of the
    state: the engine, the disk of materialised artifacts and the cached graphs.  Times
    measured ([build_ms], latencies) are not modelled. *)
From S2P Require Import Prelude Identity Json Text Db Builds Settings.
From S2P Require Sessions Gaps Cache Llm Frame Onboarding Datasets Artifacts Engine.
From S2P Require Import Chat.

Definition WORKLOAD : string := "graphrag".
Definition DEFAULT_SCHEMA_DOMAIN : string := "manufacturing".

Definition SYSTEM_PROMPT : string :=
  "You answer questions about industrial equipment using ONLY the provided sources." +:+ nl +:+ nl +:+
  "Rules:" +:+ nl +:+
  "- Every factual claim must come from a source. Cite it inline as [c_xxxx]." +:+ nl +:+
  "- If the sources do not contain the answer, say so plainly. Do not infer or fill gaps from prior knowledge." +:+ nl +:+
  "- Be concise. Prefer the specific number or procedure over a paraphrase.".

(** * The retriever *)

Record ScoredChunk := mkScored {
  sc_text : string;
  sc_metadata : json;
  sc_score : Q;
  sc_chunk_id : string
}.

(** A document in the engine's shape. *)
Record passage := mkPassage {
  pa_chunk_id : string;
  pa_text : string;
  pa_metadata : json;
  pa_source : json
}.

(** [(r.meta or {}).get("source", "unknown")]. *)
Definition passage_of (x : chunk) : result passage :=
  match meta_or (ch_meta x) with
  | JObj kvs => Ok (mkPassage (ch_canonical_id x) (ch_text x) (JObj kvs) (coalesce (Onboarding.jget "source" (JObj kvs)) (JStr "unknown")))
  | _ => Raise (OtherError "AttributeError")
  end.

Fixpoint passages_of (l : list chunk) : result (list passage) :=
  match l with
  | [] => Ok []
  | x :: l' =>
      match passage_of x, passages_of l' with
      | Ok p, Ok ps => Ok (p :: ps)
      | Raise e, _ | _, Raise e => Raise e
      end
  end.

Definition by_canonical_id (x y : chunk) : bool := String.leb (ch_canonical_id x) (ch_canonical_id y).

Definition load_documents (ctx : RequestContext) (c : string) : M db (list passage) :=
  rows <- tenant_session (
    version <- live_version_or_none ctx c ;;
    match version with
    | None => ret []
    | Some v => found <- sql_select (visible (tenant_of ctx) (in_build c v)) ;; ret (order_by by_canonical_id found)
    end) ;;
  Onboarding.lift (passages_of rows).

Section retriever.
Context {V : Type} {client : ChatClient V}.
Variable nearest : Z → list Q → list chunk → result (list (chunk * Q)).
(** The rows that match the text query, best first, with their ranks. *)
Variable lexical : Z → string → list chunk → result (list (chunk * Q)).

(** [ctx] is that of the retriever. *)
Definition dense (ctx : RequestContext) (c question : string) (top_k : Z) : M (db * V) (list ScoredChunk) :=
  vectors <- client_embed ctx [question] ;;
  probe <- (match vectors with v :: _ => ret v | [] => raise (LookupError "list index out of range") end) ;;
  sources <- on_db (retrieve nearest ctx c probe top_k) ;;
  ret (map (fun s => mkScored (so_text s) (so_metadata s) (1 - so_distance s)%Q (so_canonical_id s)) sources).

Definition retrieve_sparse (ctx : RequestContext) (c question : string) (top_k : Z) : M db (list ScoredChunk) :=
  rows <- try_except (tenant_session (
      version <- live_version_or_none ctx c ;;
      match version with
      | None => ret []
      | Some v =>
          rows <- sql_select (visible (tenant_of ctx) (in_build c v)) ;;
          Onboarding.lift (lexical top_k question rows)
      end))
    (fun _ => Some (ret [])) ;;
  ret (map (fun x => mkScored (ch_text x.1) (meta_or (ch_meta x.1)) x.2 (ch_canonical_id x.1)) rows).

End retriever.

(** * Fusion *)

Record fused := mkFused {
  fu_id : string;
  fu_score : Q;
  fu_signals : list string
}.

(** [scores[id] = scores.get(id, 0.0) + weight] and the contributor, in the order of first
    contributions. *)
Fixpoint credit (id : string) (weight : Q) (signal : string) (l : list fused) : list fused :=
  match l with
  | [] => [mkFused id (0 + weight) [signal]]
  | f :: l' =>
      if String.eqb (fu_id f) id then mkFused id (fu_score f + weight) (fu_signals f ++ [signal]) :: l'
      else f :: credit id weight signal l'
  end.

Definition contribution : Type := string * Q * string.

Definition contribute (by_id : string → bool) (l : list fused) (c : contribution) : list fused :=
  if by_id c.1.1 then credit c.1.1 c.1.2 c.2 l else l.

(** [weight / (rank + 1)] for each hit; what is no hit (an item of the graph without an
    identifier) has its rank all the same. *)
Fixpoint ranked_from (rank : Z) (weight : Q) (signal : string) (hits : list (option string)) : list contribution :=
  match hits with
  | [] => []
  | None :: hits' => ranked_from (rank + 1) weight signal hits'
  | Some h :: hits' => (h, weight / inject_Z (rank + 1), signal)%Q :: ranked_from (rank + 1) weight signal hits'
  end.

Definition ranked : Q → string → list (option string) → list contribution := ranked_from 0.

Definition has_passage (documents : list passage) (id : string) : bool := existsb (fun p => String.eqb (pa_chunk_id p) id) documents.

(** The last document with the id: [{doc["chunk_id"]: doc for doc in documents}]. *)
Definition passage_by_id (documents : list passage) (id : string) : option passage :=
  List.find (fun p => String.eqb (pa_chunk_id p) id) (rev documents).

Definition fuse (documents : list passage) (dense_hits lexical_hits : list string) (graph_hits : list (option string)) : list fused :=
  let by_id := has_passage documents in
  let scores := foldl (contribute by_id) [] (ranked 1 "dense" (map Some dense_hits)) in
  let scores := foldl (contribute by_id) scores (ranked (7 # 10) "lexical" (map Some lexical_hits)) in
  foldl (contribute by_id) scores (ranked (8 # 10) "graph" graph_hits).

Definition better (a b : fused) : bool := Qle_bool (fu_score b) (fu_score a).

Definition best (l : list fused) : list fused := firstn (Z.to_nat MAX_CONTEXT_CHUNKS) (order_by better l).

Record graph_source := mkGraphSource {
  gs_chunk_id : string;
  gs_text : string;
  gs_score : Q;
  gs_signals : list string;
  gs_source : json
}.

Definition graph_source_of (documents : list passage) (f : fused) : option graph_source :=
  option_map (fun p => mkGraphSource (fu_id f) (pa_text p) (round4 (fu_score f)) (Artifacts.sorted_set (fu_signals f)) (pa_source p))
    (passage_by_id documents (fu_id f)).

Record retrieval_detail := mkDetail {
  rd_dense_hits : Z;
  rd_lexical_hits : Z;
  rd_graph_hits : Z;
  rd_entities_matched : list string;
  rd_fused_candidates : Z
}.

(** * Graphs *)

Class GraphEngine (V G : Type) := mkGraphEngine {
  ge_build : option RequestContext → option Artifacts.path → Artifacts.disk → string → list passage → M (db * V) G;
  ge_nodes : G → Z;
  ge_edges : G → Z;
  (** [_match_query_to_entities] and [GraphRetriever.retrieve_by_entity]. *)
  ge_match : option RequestContext → G → string → M (db * V) (list string);
  ge_by_entity : option RequestContext → G → string → Z → M (db * V) (list json);
  build_keeps_conversation : ∀ b r d s l x, conversation (ge_build b r d s l x).2.1 = conversation x.1;
  match_keeps_conversation : ∀ b g q x, conversation (ge_match b g q x).2.1 = conversation x.1;
  by_entity_keeps_conversation : ∀ b g q k x, conversation (ge_by_entity b g q k x).2.1 = conversation x.1
}.

Record GraphStats := mkStats {
  gr_nodes : Z;
  gr_edges : Z;
  gr_schema_domain : string;
  gr_documents : Z;
  gr_fingerprint : string
}.

Definition edgeless (g : GraphStats) : bool := (0 <? gr_nodes g) && (gr_edges g =? 0).

(** [(fingerprint, graph, retriever, stats)]; of the retriever, the context it was made with. *)
Record cached_graph (G : Type) := mkCachedGraph {
  cg_fingerprint : string;
  cg_graph : G;
  cg_retriever : RequestContext;
  cg_stats : GraphStats
}.
Arguments mkCachedGraph {G}. Arguments cg_fingerprint {G}. Arguments cg_graph {G}. Arguments cg_retriever {G}. Arguments cg_stats {G}.

(** What a process holds. *)
Record process (G : Type) := mkProcess {
  pc_engine : Engine.engine_state;
  pc_disk : Artifacts.disk;
  pc_graphs : gmap (uuid * string) (cached_graph G)
}.
Arguments mkProcess {G}. Arguments pc_engine {G}. Arguments pc_disk {G}. Arguments pc_graphs {G}.

#[export] Instance eta_process G : Eta (process G) := fun p => mkProcess (pc_engine p) (pc_disk p) (pc_graphs p).

Definition invalidate {G} (ctx : option RequestContext) : M (process G) Z :=
  p <- get ;;
  match ctx with
  | None => modify (fun p => p <| pc_graphs := ∅ |>) ;; ret (Z.of_nat (size (pc_graphs p)))
  | Some ctx =>
      let mine := base.filter (fun e : uuid * string * cached_graph G => e.1.1 = tenant_of ctx) (pc_graphs p) in
      modify (fun p => p <| pc_graphs := base.filter (fun e : uuid * string * cached_graph G => e.1.1 ≠ tenant_of ctx) (pc_graphs p) |>) ;;
      ret (Z.of_nat (size mine))
  end.

Section turn.
Context {V G : Type} {client : ChatClient V} {engine : GraphEngine V G}.
Notation state := (db * (V * process G))%type.

(** A step of the client, and one of the process, in the whole state. *)
Definition on_client {A} (m : M (db * V) A) : M state A :=
  fun s => let (r, s') := m (s.1, s.2.1) in (r, (s'.1, (s'.2, s.2.2))).

Definition on_process {A} (m : M (process G) A) : M state A :=
  fun s => let (r, p) := m s.2.2 in (r, (s.1, (s.2.1, p))).

Definition on_engine {A} (m : M Engine.engine_state A) : M (process G) A :=
  fun p => let (r, e) := m (pc_engine p) in (r, p <| pc_engine := e |>).

Definition on_disk {A} (m : M Artifacts.disk A) : M (process G) A :=
  fun p => let (r, d) := m (pc_disk p) in (r, p <| pc_disk := d |>).

Variable nearest : Z → list Q → list chunk → result (list (chunk * Q)).
Variable lexical : Z → string → list chunk → result (list (chunk * Q)).
(** [engine.install] of this process. *)
Variable install : M Engine.engine_state unit.
Variable base : Artifacts.path.
Variable str_of : json → string.
Variable sha256 : string → string.
Variable llm_model_cheap : string.

Definition _fingerprint (documents : list passage) : string :=
  String.substring 0 16 (sha256 (String.concat "" (map pa_chunk_id documents))).

(** The published artifacts on disk, if there are any and they can be written. *)
Definition materialized (ctx : RequestContext) (schema_domain : string) : M state bool :=
  try_except (
    stored <- on_db (Onboarding.published_artifacts ctx schema_domain) ;;
    if bool_decide (Onboarding.as_singletons stored = ∅) && bool_decide (Onboarding.as_cache stored = ∅) then ret false
    else on_process (on_disk (Artifacts.materialize str_of (Artifacts.tenant_root base ctx schema_domain) schema_domain stored)) ;; ret true)
    (fun _ => Some (ret false)).

Record graph_build := mkGraphBuild {
  gb_graph : option G;
  gb_retriever : RequestContext;
  gb_documents : list passage;
  gb_stats : GraphStats
}.

Definition built_graph (ctx : RequestContext) (c schema_domain : string) (documents : list passage) : M state graph_build :=
  found <- materialized ctx schema_domain ;;
  p <- on_process get ;;
  let root := if found then Some (Artifacts.tenant_root base ctx schema_domain) else None in
  g <- on_client (ge_build (Engine.en_context (pc_engine p)) root (pc_disk p) schema_domain documents) ;;
  let stats := mkStats (ge_nodes g) (ge_edges g) schema_domain (count documents) (_fingerprint documents) in
  on_process (modify (fun p => p <| pc_graphs := <[(tenant_of ctx, c) := mkCachedGraph (_fingerprint documents) g ctx stats]> (pc_graphs p) |>)) ;;
  ret (mkGraphBuild (Some g) ctx documents stats).

Definition build_graph (ctx : RequestContext) (c schema_domain : string) (force : bool) : M state graph_build :=
  on_process (on_engine install) ;;
  on_process (on_engine (Engine.set_context ctx)) ;;
  documents <- on_db (load_documents ctx c) ;;
  p <- on_process get ;;
  match pc_graphs p !! (tenant_of ctx, c) with
  | Some e =>
      if String.eqb (cg_fingerprint e) (_fingerprint documents) && negb force
      then ret (mkGraphBuild (Some (cg_graph e)) (cg_retriever e) documents (cg_stats e))
      else match documents with
           | [] => ret (mkGraphBuild None ctx [] (mkStats 0 0 schema_domain 0 (_fingerprint [])))
           | _ => built_graph ctx c schema_domain documents
           end
  | None =>
      match documents with
      | [] => ret (mkGraphBuild None ctx [] (mkStats 0 0 schema_domain 0 (_fingerprint [])))
      | _ => built_graph ctx c schema_domain documents
      end
  end.

(** [str(chunk_id)] of an item that has one. *)
Definition hit_of (item : json) : option string :=
  let id := match item with JObj _ => Onboarding.jget "chunk_id" item | _ => Some item end in
  match id with
  | Some v => if Datasets.json_truthy v then Some (Datasets.py_str str_of v) else None
  | None => None
  end.

(** The entities matched and, in the order of the graph's items, the hit of each, if it is
    one; what raises contributes nothing more. *)
Definition traverse (bound : option RequestContext) (graph : option G) (question : string)
    : M (db * V) (list string * list (option string)) :=
  match graph with
  | Some g =>
      if ge_nodes g =? 0 then ret ([], [])
      else
        matched <- try_except (e <- ge_match bound g question ;; ret (Some (order_by String.leb e))) (fun _ => Some (ret None)) ;;
        match matched with
        | None => ret ([], [])
        | Some entities =>
            items <- try_except (ge_by_entity bound g question (MAX_CONTEXT_CHUNKS * 2)) (fun _ => Some (ret [])) ;;
            ret (entities, map hit_of items)
        end
  | None => ret ([], [])
  end.

Definition _hybrid_retrieve (rctx : RequestContext) (c question : string) (graph : option G) (documents : list passage)
    : M state (list graph_source * retrieval_detail) :=
  ds <- on_client (dense nearest rctx c question (MAX_CONTEXT_CHUNKS * 2)) ;;
  ls <- on_db (retrieve_sparse lexical rctx c question (MAX_CONTEXT_CHUNKS * 2)) ;;
  p <- on_process get ;;
  gh <- on_client (traverse (Engine.en_context (pc_engine p)) graph question) ;;
  let scores := fuse documents (map sc_chunk_id ds) (map sc_chunk_id ls) gh.2 in
  ret (omap (graph_source_of documents) (best scores),
       mkDetail (count ds) (count ls) (count (remove_dups (omap (fun h => h) gh.2))) (firstn 10 gh.1) (count scores)).

Record GraphAnswer := mkGraphAnswer {
  ga_answer : string;
  ga_sources : list graph_source;
  ga_session_id : string;
  ga_grounded : bool;
  ga_graph : GraphStats;
  ga_retrieval : option retrieval_detail;
  ga_cost_usd : Q;
  ga_input_tokens : Z;
  ga_output_tokens : Z
}.

Definition NOT_INDEXED : string := "I don't have any indexed sources for that collection.".
Definition NO_MATCH : string := "Nothing in the indexed sources matches that question.".

Definition ungrounded_turn (message c : string) : json :=
  JObj [("role", JStr "assistant"); ("content", JStr message); ("grounded", JBool false); ("collection", JStr c)].

Definition grounded_turn (content c : string) (l : list graph_source) : json :=
  JObj [("role", JStr "assistant"); ("content", JStr content); ("grounded", JBool true); ("collection", JStr c);
        ("retrieved", JArr (map (fun s => JStr (gs_chunk_id s)) l))].

Definition graph_prompt (l : list graph_source) (question : string) : string :=
  "Sources:" +:+ nl +:+ join (nl +:+ nl) (map (fun s => "[" +:+ gs_chunk_id s +:+ "] " +:+ gs_text s) l) +:+ nl +:+ nl +:+ "Question: " +:+ question.

Definition graph_request (model : string) (history past : list json) (l : list graph_source) (question : string) : Cache.ChatRequest :=
  Cache.mkChatRequest
    ([message (JStr "system") (JStr SYSTEM_PROMPT)] ++ past ++ [message (JStr "user") (JStr (graph_prompt l question))])
    model (Some (JInt 0)) (Some 400) None None (match history with [] => true | _ => false end).

(** What a turn without a source leaves and answers. *)
Definition refuse (later : timestamp) (fresh_gap : uuid) (ctx : RequestContext) (question c sid text : string) (stats : GraphStats)
    (detail : option retrieval_detail) : M state GraphAnswer :=
  on_db (Gaps.record later fresh_gap ctx c question "graph") ;;
  on_db (append_turns later ctx sid [user_turn question; ungrounded_turn text c]) ;;
  ret (mkGraphAnswer text [] sid false stats detail 0 0 0).

Definition answer (now later : timestamp) (fresh_session : string) (fresh_gap : uuid) (ctx : RequestContext)
    (question c schema_domain : string) (session_id model : option string) : M state GraphAnswer :=
  let model := model_or llm_model_cheap model in
  session <- on_db (opening now fresh_session ctx session_id WORKLOAD) ;;
  let sid := Sessions.sn_id session in
  let history := history_of (Sessions.sn_state session) in
  built <- build_graph ctx c schema_domain false ;;
  match gb_documents built with
  | [] => refuse later fresh_gap ctx question c sid NOT_INDEXED (gb_stats built) None
  | documents =>
      on_process (on_engine (Engine.set_context ctx)) ;;
      found <- _hybrid_retrieve (gb_retriever built) c question (gb_graph built) documents ;;
      match found.1 with
      | [] => refuse later fresh_gap ctx question c sid NO_MATCH (gb_stats built) (Some found.2)
      | sources =>
          past <- (match turn_messages history with Ok l => ret l | Raise e => raise e end) ;;
          response <- on_client (client_chat ctx (graph_request model history past sources question)) ;;
          on_db (append_turns later ctx sid [user_turn question; grounded_turn (Cache.rs_content response) c sources]) ;;
          ret (mkGraphAnswer (Cache.rs_content response) sources sid true (gb_stats built) (Some found.2) (Cache.rs_cost_usd response)
                 (Cache.tu_input_tokens (Cache.rs_usage response)) (Cache.tu_output_tokens (Cache.rs_usage response)))
      end
  end.

(** [POST /api/query] in graph mode. *)
Definition graph_query (now later : timestamp) (fresh_session : string) (fresh_gap : uuid) (ctx : RequestContext) (p : QueryRequest)
    (schema_domain : string) : M state GraphAnswer :=
  guard (valid_query p && (str_len schema_domain <=? 64)) (HTTPException 422) ;;
  try_except (answer now later fresh_session fresh_gap (scoped now ctx) (qr_question p) (qr_collection p) schema_domain (qr_session_id p) None)
    (fun e => match e with
              | OtherError "GraphRAGDisabled" => Some (raise (HTTPException 501))
              | SessionNotFound => Some (raise (HTTPException 404))
              | BudgetExceededError => Some (raise (HTTPException 429))
              | TransientError _ => Some (raise (HTTPException 503))
              | _ => None
              end).

End turn.

(** * What fusion gives *)

(** The score and the signals an identifier has. *)
Definition score_in (l : list fused) (id : string) : Q :=
  match List.find (fun f => String.eqb (fu_id f) id) l with Some f => fu_score f | None => 0 end.

Definition signals_in (l : list fused) (id : string) : list string :=
  match List.find (fun f => String.eqb (fu_id f) id) l with Some f => fu_signals f | None => [] end.

Definition about (id : string) (c : contribution) : bool := String.eqb c.1.1 id.

Definition weight_of (cs : list contribution) (id : string) : Q := sum_Q (map (fun c => c.1.2) (List.filter (about id) cs)).

Definition signals_of (cs : list contribution) (id : string) : list string := map snd (List.filter (about id) cs).

Lemma credit_score id w sg l x : (score_in (credit id w sg l) x == score_in l x + if String.eqb id x then w else 0)%Q.
Proof.
  unfold score_in. induction l as [|f l IH]; cbn [credit List.find fu_id].
  - destruct (String.eqb_spec id x); cbn [fu_score]; ring.
  - destruct (String.eqb_spec (fu_id f) id) as [<-|Hne]; cbn [List.find fu_id].
    + destruct (String.eqb_spec (fu_id f) x); cbn [fu_score]; ring.
    + destruct (String.eqb_spec (fu_id f) x) as [<-|]; [|exact IH]. destruct (String.eqb_spec id (fu_id f)); [congruence|]. ring.
Qed.

Lemma credit_signals id w sg l x : signals_in (credit id w sg l) x = signals_in l x ++ if String.eqb id x then [sg] else [].
Proof.
  unfold signals_in. induction l as [|f l IH]; cbn [credit List.find fu_id].
  - by destruct (String.eqb_spec id x).
  - destruct (String.eqb_spec (fu_id f) id) as [<-|Hne]; cbn [List.find fu_id].
    + destruct (String.eqb_spec (fu_id f) x); cbn [fu_signals]; [done|by rewrite app_nil_r].
    + destruct (String.eqb_spec (fu_id f) x) as [<-|]; [|exact IH]. destruct (String.eqb_spec id (fu_id f)); [congruence|]. by rewrite app_nil_r.
Qed.

Lemma credit_ids id w sg l x : In x (map fu_id (credit id w sg l)) ↔ x = id ∨ In x (map fu_id l).
Proof.
  induction l as [|f l IH]; cbn [credit map In]; [by intuition|]. destruct (String.eqb_spec (fu_id f) id) as [->|Hne]; cbn [map In fu_id]; [by intuition|].
  rewrite IH. intuition.
Qed.

Lemma credit_nodup id w sg l : List.NoDup (map fu_id l) → List.NoDup (map fu_id (credit id w sg l)).
Proof.
  induction l as [|f l IH]; cbn [credit map]; [repeat constructor; by intros []|]. intros [Hf Hl]%NoDup_cons_iff.
  destruct (String.eqb_spec (fu_id f) id) as [<-|Hne]; cbn [map fu_id]; constructor; auto. rewrite credit_ids. by intros [|].
Qed.

Section fusing.
Variable by_id : string → bool.

Lemma contribute_spec c l : List.NoDup (map fu_id l) →
  List.NoDup (map fu_id (contribute by_id l c)) ∧
  (∀ x, In x (map fu_id (contribute by_id l c)) ↔ In x (map fu_id l) ∨ by_id x = true ∧ about x c = true) ∧
  ∀ x, by_id x = true → (score_in (contribute by_id l c) x == score_in l x + if about x c then c.1.2 else 0)%Q ∧
    signals_in (contribute by_id l c) x = signals_in l x ++ if about x c then [c.2] else [].
Proof.
  intros Hl. unfold contribute, about. destruct c as [[id w] sg]. cbn [fst snd]. destruct (by_id id) eqn:Eb.
  - split; [by apply credit_nodup|]. split; [|intros x _; split; [apply credit_score|apply credit_signals]].
    intros x. rewrite credit_ids, String.eqb_eq. intuition congruence.
  - split; [done|]. split; [|intros x Hx; destruct (String.eqb_spec id x) as [->|]; [congruence|split; [ring|by rewrite app_nil_r]]].
    intros x. rewrite String.eqb_eq. intuition congruence.
Qed.

Lemma fused_spec cs l : List.NoDup (map fu_id l) →
  List.NoDup (map fu_id (foldl (contribute by_id) l cs)) ∧
  (∀ x, In x (map fu_id (foldl (contribute by_id) l cs)) ↔ In x (map fu_id l) ∨ by_id x = true ∧ ∃ c, In c cs ∧ about x c = true) ∧
  ∀ x, by_id x = true → (score_in (foldl (contribute by_id) l cs) x == score_in l x + weight_of cs x)%Q ∧
    signals_in (foldl (contribute by_id) l cs) x = signals_in l x ++ signals_of cs x.
Proof.
  revert l. induction cs as [|c cs IH]; intros l Hl; cbn [foldl].
  - split; [done|]. split; [intros x; split; [by left|by intros [|(_ & ? & [] & _)]]|].
    intros x _. unfold weight_of, signals_of. cbn. split; [ring|by rewrite app_nil_r].
  - destruct (contribute_spec c l Hl) as (H1 & H2 & H3). destruct (IH _ H1) as (K1 & K2 & K3). split; [done|]. split.
    + intros x. rewrite K2, H2. cbn [In]. split; [|intros [?|(Hb & c' & [<-|Hc] & Ha)]; [by left; left|by left; right|right; split; [done|by exists c']]].
      intros [[?|[Hb Ha]]|(Hb & c' & Hc & Ha)]; [by left| |]; (right; split; [done|]); [exists c|exists c']; auto.
    + intros x Hx. destruct (H3 x Hx) as [E1 E2], (K3 x Hx) as [E3 E4]. unfold weight_of, signals_of in *. cbn [List.filter].
      rewrite E3, E1, E4, E2, <- app_assoc. destruct (about x c); cbn [map sum_Q foldr app]; split; try done; unfold sum_Q; cbn; ring.
Qed.

End fusing.

(** All the contributions to a turn. *)
Definition contributions (ds ls : list string) (gs : list (option string)) : list contribution :=
  ranked 1 "dense" (map Some ds) ++ ranked (7 # 10) "lexical" (map Some ls) ++ ranked (8 # 10) "graph" gs.

Lemma ranked_in id w sg weight signal hits r : In (id, w, sg) (ranked_from r weight signal hits) ↔
  sg = signal ∧ ∃ i : nat, hits !! i = Some (Some id) ∧ w = (weight / inject_Z (r + Z.of_nat i + 1))%Q.
Proof.
  revert r. induction hits as [|h hits IH]; intros r; cbn [ranked_from In].
  { split; [done|]. by intros (_ & i & H & _). }
  assert (Hstep : (sg = signal ∧ ∃ i : nat, (h :: hits) !! i = Some (Some id) ∧ w = (weight / inject_Z (r + Z.of_nat i + 1))%Q) ↔
    (sg = signal ∧ h = Some id ∧ w = (weight / inject_Z (r + 1))%Q) ∨ In (id, w, sg) (ranked_from (r + 1) weight signal hits)).
  { rewrite IH. split.
    - intros (-> & [|i] & Hi & ->); [left; injection Hi as ->; by rewrite Z.add_0_r|right].
      split; [done|]. exists i. split; [done|]. do 2 f_equal. lia.
    - intros [(-> & -> & ->)|(-> & i & Hi & ->)]; (split; [done|]); [exists 0%nat|exists (S i)]; (split; [done|]); do 2 f_equal; lia. }
  rewrite Hstep. destruct h as [h|]; cbn [In]; [|intuition congruence]. split.
  - intros [[= -> <- <-]|H]; [by left|by right].
  - intros [(-> & [= ->] & ->)|H]; [by left|by right].
Qed.

Lemma contributions_in ds ls gs id w sg : In (id, w, sg) (contributions ds ls gs) ↔
  ∃ i : nat, (sg = "dense" ∧ ds !! i = Some id ∧ w = (1 / inject_Z (Z.of_nat i + 1))%Q) ∨
    (sg = "lexical" ∧ ls !! i = Some id ∧ w = ((7 # 10) / inject_Z (Z.of_nat i + 1))%Q) ∨
    (sg = "graph" ∧ gs !! i = Some (Some id) ∧ w = ((8 # 10) / inject_Z (Z.of_nat i + 1))%Q).
Proof.
  unfold contributions, ranked. rewrite !in_app_iff, !ranked_in. cbn [Z.add].
  assert (Hm : ∀ (l : list string) i, map Some l !! i = Some (Some id) ↔ l !! i = Some id).
  { intros l i. change (map Some l) with (Some <$> l). rewrite list_lookup_fmap. destruct (l !! i); cbn; intuition congruence. }
  setoid_rewrite Hm. firstorder.
Qed.

Lemma fuse_contributions documents ds ls gs :
  fuse documents ds ls gs = foldl (contribute (has_passage documents)) [] (contributions ds ls gs).
Proof. unfold fuse, contributions. by rewrite !foldl_app. Qed.

Lemma find_fused l f : List.NoDup (map fu_id l) → In f l → List.find (fun g => String.eqb (fu_id g) (fu_id f)) l = Some f.
Proof.
  induction l as [|g l IH]; [done|]. cbn [map List.find]. intros [Hg Hl]%NoDup_cons_iff [->|Hin]; [by rewrite String.eqb_refl|].
  destruct (String.eqb_spec (fu_id g) (fu_id f)) as [E|]; [|by apply IH]. exfalso. apply Hg. rewrite E. by apply in_map.
Qed.

Lemma passage_by_id_some documents id : has_passage documents id = true → ∃ p, passage_by_id documents id = Some p ∧ In p documents ∧ pa_chunk_id p = id.
Proof.
  unfold has_passage, passage_by_id. intros H. apply existsb_exists in H as (p & Hp & E). destruct (List.find _ (rev documents)) as [q|] eqn:Ef.
  - apply find_some in Ef as [Hq Eq]. exists q. split; [done|]. split; [by apply in_rev|by apply String.eqb_eq].
  - exfalso. assert (Hr : In p (rev documents)) by (by apply -> in_rev). pose proof (find_none _ _ Ef p Hr) as F. cbn in F. congruence.
Qed.

Lemma better_total a b : better a b = true ∨ better b a = true.
Proof. unfold better. rewrite !Qle_bool_iff. destruct (Qlt_le_dec (fu_score a) (fu_score b)); [right; by apply Qlt_le_weak|by left]. Qed.

Lemma better_trans a b c : better a b = true → better b c = true → better a c = true.
Proof. unfold better. rewrite !Qle_bool_iff. intros H1 H2. by apply (Qle_trans _ (fu_score b)). Qed.

(** The sources made of candidates that are all documents. *)
Lemma sources_of_all documents l : (∀ f, In f l → has_passage documents (fu_id f) = true) →
  map gs_chunk_id (omap (graph_source_of documents) l) = map fu_id l ∧
  ∀ s, In s (omap (graph_source_of documents) l) → ∃ f, In f l ∧ graph_source_of documents f = Some s.
Proof.
  induction l as [|f l IH]; intros H; [split; [done|by intros s []]|]. destruct IH as [IH1 IH2]; [intros g Hg; apply H; by right|].
  destruct (passage_by_id_some documents (fu_id f)) as (p & Hp & _); [apply H; by left|].
  assert (E : graph_source_of documents f = Some (mkGraphSource (fu_id f) (pa_text p) (round4 (fu_score f)) (Artifacts.sorted_set (fu_signals f)) (pa_source p)))
    by (unfold graph_source_of; by rewrite Hp).
  change (omap (graph_source_of documents) (f :: l)) with (match graph_source_of documents f with
    | Some y => y :: omap (graph_source_of documents) l | None => omap (graph_source_of documents) l end). rewrite E.
  split; [cbn; by f_equal|]. intros s [<-|Hs]; [exists f; by split; [left|]|]. apply IH2 in Hs as (g & Hg & Eg). exists g. by split; [right|].
Qed.

#[export] Instance round4_proper : Proper (Qeq ==> eq) round4.
Proof. intros a b E. unfold round4. by rewrite E. Qed.

Lemma fuse_spec documents ds ls gs : let l := fuse documents ds ls gs in let cs := contributions ds ls gs in
  List.NoDup (map fu_id l) ∧
  (∀ x, In x (map fu_id l) ↔ has_passage documents x = true ∧ ∃ c, In c cs ∧ about x c = true) ∧
  ∀ f, In f l → has_passage documents (fu_id f) = true ∧ (fu_score f == weight_of cs (fu_id f))%Q ∧ fu_signals f = signals_of cs (fu_id f).
Proof.
  intros l cs. unfold l. rewrite fuse_contributions. destruct (fused_spec (has_passage documents) cs []) as (H1 & H2 & H3); [constructor|].
  assert (H2' : ∀ x, In x (map fu_id (foldl (contribute (has_passage documents)) [] cs)) ↔ has_passage documents x = true ∧ ∃ c, In c cs ∧ about x c = true)
    by (intros x; rewrite H2; cbn; intuition).
  split; [done|split; [done|]]. intros f Hf. assert (Hp : has_passage documents (fu_id f) = true) by (apply (H2' (fu_id f)), in_map, Hf).
  split; [done|]. destruct (H3 _ Hp) as [E1 E2]. unfold score_in, signals_in in E1, E2. rewrite (find_fused _ _ H1 Hf) in E1, E2. cbn in E1, E2.
  split; [rewrite E1; ring|done].
Qed.

Lemma in_signals cs id sg : In sg (Artifacts.sorted_set (signals_of cs id)) ↔ ∃ w, In (id, w, sg) cs.
Proof.
  unfold Artifacts.sorted_set, signals_of. rewrite in_order_by, <- list_elem_of_In, elem_of_remove_dups, list_elem_of_In, in_map_iff. split.
  - intros ([[i w] s] & <- & Hc). apply filter_In in Hc as [Hc Ha]. unfold about in Ha. cbn in Ha. apply String.eqb_eq in Ha as ->. by exists w.
  - intros (w & Hc). exists (id, w, sg). split; [done|]. apply filter_In. split; [done|]. apply String.eqb_refl.
Qed.

Lemma sorted_map {A B} (f : A → B) (R : A → A → Prop) (R' : B → B → Prop) l :
  (∀ a b, In a l → In b l → R a b → R' (f a) (f b)) → StronglySorted R l → StronglySorted R' (map f l).
Proof.
  intros H Hs. induction Hs as [|x l Hs IH Hx]; cbn; constructor; [apply IH; intros; apply H; auto; by right|].
  rewrite List.Forall_forall in *. intros y Hy. apply in_map_iff in Hy as (b & <- & Hb). apply H; [by left|by right|by apply Hx].
Qed.

(** What a prefix of an ordered list leaves out comes after all of it. *)
Lemma left_out {A} (R : A → A → Prop) n l x y : StronglySorted R l → In x l → ¬ In x (firstn n l) → In y (firstn n l) →
  R y x ∧ length (firstn n l) = n.
Proof.
  intros Hs Hx Hn Hy. rewrite <- (firstn_skipn n l) in Hx. apply in_app_iff in Hx as [|Hx]; [done|]. split.
  - apply in_split in Hx as (l1 & l2 & E). rewrite <- (firstn_skipn n l), E, app_assoc in Hs. apply StronglySorted_mid in Hs as [Hs _].
    rewrite List.Forall_forall in Hs. apply Hs, in_app_iff. by left.
  - rewrite length_firstn. destruct (skipn n l) eqn:E; [done|]. apply (f_equal length) in E. rewrite length_skipn in E. cbn in E. lia.
Qed.

(** C37: fusion ranks by the sum of its signals.  A hit at rank [i] of the dense, the lexical
    or the graph's list, counting every item of that list, weighs 1, 0.7 or 0.8 over [i + 1].
    The sources of a turn are distinct documents of the corpus, at most five; each has the
    document's own text and source, the sum of what the hits on it weigh, rounded to four
    digits, as its score, and names exactly the signals that hit it.  They come in descending
    order of the unrounded sum, and a document that was hit and left out has no greater sum than any of
    five that were kept. *)
Theorem fusion_ranks_by_the_sum (documents : list passage) (ds ls : list string) (gs : list (option string)) :
  let cs := contributions ds ls gs in
  let sources := omap (graph_source_of documents) (best (fuse documents ds ls gs)) in
  (∀ id w sg, In (id, w, sg) cs ↔ ∃ i : nat, (sg = "dense" ∧ ds !! i = Some id ∧ w = (1 / inject_Z (Z.of_nat i + 1))%Q) ∨
    (sg = "lexical" ∧ ls !! i = Some id ∧ w = ((7 # 10) / inject_Z (Z.of_nat i + 1))%Q) ∨
    (sg = "graph" ∧ gs !! i = Some (Some id) ∧ w = ((8 # 10) / inject_Z (Z.of_nat i + 1))%Q)) ∧
  List.NoDup (map gs_chunk_id sources) ∧ (length sources <= 5)%nat ∧
  (∀ s, In s sources → ∃ p, In p documents ∧ pa_chunk_id p = gs_chunk_id s ∧ gs_text s = pa_text p ∧ gs_source s = pa_source p ∧
     gs_score s = round4 (weight_of cs (gs_chunk_id s)) ∧ ∀ sg, In sg (gs_signals s) ↔ ∃ w, In (gs_chunk_id s, w, sg) cs) ∧
  StronglySorted (fun a b => weight_of cs b <= weight_of cs a)%Q (map gs_chunk_id sources) ∧
  ∀ p c, In p documents → In c cs → about (pa_chunk_id p) c = true → ¬ In (pa_chunk_id p) (map gs_chunk_id sources) →
    length sources = 5%nat ∧ ∀ s, In s sources → (weight_of cs (pa_chunk_id p) <= weight_of cs (gs_chunk_id s))%Q.
Proof.
  intros cs sources. split; [intros id w sg; apply contributions_in|].
  destruct (fuse_spec documents ds ls gs) as (H1 & H2 & H3). fold cs in H2, H3. set (l := fuse documents ds ls gs) in *.
  assert (Hin : ∀ f, In f (best l) → In f l) by (intros f Hf; apply firstn_subset in Hf; by apply in_order_by in Hf).
  destruct (sources_of_all documents (best l)) as [Hids Hs]; [intros f Hf; by apply H3, Hin|]. fold sources in Hids, Hs.
  assert (Hlen : length sources = length (best l)) by (rewrite <- (length_map gs_chunk_id), Hids; apply length_map).
  assert (Hsort : StronglySorted (fun a b => better a b = true) (order_by better l)) by (apply order_by_sorted; [apply better_total|apply better_trans]).
  assert (Hw : ∀ f g, In f l → In g l → better f g = true → (weight_of cs (fu_id g) <= weight_of cs (fu_id f))%Q).
  { intros f g Hf Hg Hb. apply Qle_bool_iff in Hb. destruct (H3 f Hf) as (_ & <- & _), (H3 g Hg) as (_ & <- & _). exact Hb. }
  split; [|split; [|split; [|split]]].
  - rewrite Hids. unfold best. rewrite <- firstn_map. apply NoDup_firstn.
    eapply Permutation_NoDup; [apply Permutation_map, Permutation_sym, order_by_perm|done].
  - rewrite Hlen. unfold best. rewrite length_firstn. apply Nat.le_min_l.
  - intros s Hsi. apply Hs in Hsi as (f & Hf & E). destruct (H3 f (Hin f Hf)) as (Hp & Hsc & Hsg).
    destruct (passage_by_id_some documents (fu_id f) Hp) as (p & Ep & Hpd & Epid). unfold graph_source_of in E. rewrite Ep in E. injection E as <-.
    exists p. cbn [gs_chunk_id gs_text gs_source gs_score gs_signals]. rewrite Hsg. repeat split; try done; [by rewrite Hsc|apply in_signals|apply in_signals].
  - rewrite Hids. unfold best. apply (sorted_map _ (fun a b => better a b = true)); [|by apply firstn_sorted].
    intros a b Ha Hb. apply Hw; by apply Hin.
  - intros p c Hp Hc Ha Hn. rewrite Hids in Hn. assert (Hx : In (pa_chunk_id p) (map fu_id l)).
    { apply H2. split; [|by exists c]. apply existsb_exists. exists p. split; [done|apply String.eqb_refl]. }
    apply in_map_iff in Hx as (f & Ef & Hf). assert (Hnf : ¬ In f (best l)) by (intros Hb; apply Hn; rewrite <- Ef; by apply in_map).
    assert (Hf' : In f (order_by better l)) by (by apply in_order_by).
    assert (Hlen5 : length (best l) = 5%nat).
    { assert (Hg : ∃ g, In g (best l)) by (unfold best; destruct (order_by better l) as [|g k]; [done|exists g; by left]).
      destruct Hg as [g Hg]. apply (left_out _ _ _ f g Hsort Hf' Hnf Hg). }
    split; [by rewrite Hlen|]. intros s Hsi. apply Hs in Hsi as (g & Hg & E). destruct (left_out _ _ _ f g Hsort Hf' Hnf Hg) as [Hb _].
    assert (Egid : gs_chunk_id s = fu_id g) by (unfold graph_source_of in E; destruct (passage_by_id _ _); [by injection E as <-|done]).
    rewrite <- Ef, Egid. apply Hw; [by apply Hin|done|done].
Qed.

(** * A turn *)

Lemma passages_of_spec l ps : passages_of l = Ok ps → ∀ p, In p ps → ∃ x, In x l ∧ passage_of x = Ok p.
Proof.
  revert ps. induction l as [|x l IH]; intros ps; cbn [passages_of]; [by intros [= <-] p []|].
  destruct (passage_of x) as [q|e] eqn:Ex; [|by destruct (passages_of l)]. destruct (passages_of l) as [qs|e]; [|done].
  intros [= <-] p [<-|Hp]; [exists x; by split; [left|]|]. destruct (IH qs eq_refl p Hp) as (y & Hy & Ey). exists y. by split; [right|].
Qed.

Lemma passage_of_spec x p : passage_of x = Ok p → pa_chunk_id p = ch_canonical_id x ∧ pa_text p = ch_text x.
Proof. unfold passage_of. destruct (meta_or (ch_meta x)); try done. by intros [= <-]. Qed.

Lemma load_documents_same ctx c d : (load_documents ctx c d).2 = d.
Proof.
  unfold load_documents, bind, tenant_session, tx, live_version_or_none, try_except, live_version, tenant_session, query_live, sql_select, gets, bind, tx, one_or_none.
  destruct (select_where _ _) as [|b [|b' l]]; cbn; try done; unfold Onboarding.lift; by destruct (passages_of _).
Qed.

(** What is loaded is the served build. *)
Definition from_live (ctx : RequestContext) (c : string) (ps : list passage) (d : db) : Prop :=
  ps = [] ∨ ∃ v, serving (tenant_of ctx) c v d ∧ ∀ p, In p ps → ∃ x, In x (content (tenant_of ctx) c v d) ∧
    pa_chunk_id p = ch_canonical_id x ∧ pa_text p = ch_text x.

Lemma load_documents_run ctx c d ps d' : builds_wf d → load_documents ctx c d = (Ok ps, d') → from_live ctx c ps d.
Proof.
  intros W E. unfold load_documents in E. destruct (live_version_or_none_spec ctx c d W) as (old & El & Hold).
  apply bind_ok in E as (rows & d1 & Et & E). apply (proj1 (tx_ok _ _ _ _)) in Et. rewrite (run_bind _ _ _ _ _ El) in Et.
  unfold Onboarding.lift in E. destruct (passages_of rows) as [qs|e] eqn:Ep; [|done]. injection E as <- <-. destruct old as [v|].
  - apply bind_ok in Et as (found & d2 & E1 & Et). injection E1 as <- <-. injection Et as <- <-. right. exists v. split; [by apply Hold|].
    intros p Hp. destruct (passages_of_spec _ _ Ep p Hp) as (x & Hx & E). exists x. apply in_order_by in Hx. split; [done|by apply passage_of_spec].
  - injection Et as <- <-. cbn in Ep. injection Ep as <-. by left.
Qed.

Lemma retrieve_sparse_same lexical ctx c q k d : (retrieve_sparse lexical ctx c q k d).2 = d.
Proof.
  unfold retrieve_sparse, bind, try_except, tenant_session, tx, live_version_or_none, try_except, live_version, tenant_session, query_live, sql_select, gets, bind, tx, one_or_none.
  destruct (select_where _ _) as [|b [|b' l]]; cbn; try done. unfold Onboarding.lift. by destruct (lexical _ _ _).
Qed.

Lemma conversation_eq d d' : conversation d' = conversation d → builds d' = builds d ∧ chunks d' = chunks d ∧ sessions d' = sessions d ∧ questions d' = questions d.
Proof. unfold conversation. by intros [= -> -> -> ->]. Qed.

Lemma conversation_live ctx c ps d d' : conversation d' = conversation d → from_live ctx c ps d' → from_live ctx c ps d.
Proof.
  intros H [->|(v & Hv & Hp)]; [by left|]. apply conversation_eq in H as (Hb & Hc & _). right. exists v.
  split; [by apply (serving_same _ _ _ d')|]. intros p Hi. apply Hp in Hi as (x & Hx & E). exists x. unfold content in *. by rewrite Hc in Hx.
Qed.

Lemma conversation_elsewhere ctx d d' : conversation d' = conversation d → elsewhere ctx d' = elsewhere ctx d.
Proof. intros H. apply conversation_eq in H as (Hb & Hc & Hs & _). unfold elsewhere. by rewrite Hb, Hc, Hs. Qed.

Section turn_lemmas.
Context {V G : Type} {client : ChatClient V} {engine : GraphEngine V G}.
Notation state := (db * (V * process G))%type.
Variable nearest : Z → list Q → list chunk → result (list (chunk * Q)).
Variable lexical : Z → string → list chunk → result (list (chunk * Q)).
Variable install : M Engine.engine_state unit.
Variable base : Artifacts.path.
Variable str_of : json → string.
Variable sha256 : string → string.
Variable llm_model_cheap : string.
Notation build := (build_graph install base str_of sha256).
Notation turn := (answer nearest lexical install base str_of sha256 llm_model_cheap).

(** The cached graphs of a process: each was built for the tenant it is kept for, and its
    statistics are those of the graph and the corpus it is kept with. *)
Definition graphs_wf (p : process G) : Prop :=
  ∀ t c e, pc_graphs p !! (t, c) = Some e → tenant_of (cg_retriever e) = t ∧ gr_fingerprint (cg_stats e) = cg_fingerprint e ∧
    gr_nodes (cg_stats e) = ge_nodes (cg_graph e) ∧ gr_edges (cg_stats e) = ge_edges (cg_graph e).

(** The graph a turn may put into the cache; those kept for others are what they were in [p0]. *)
Variable key : uuid * string.

Definition graphs_kept (p0 p : process G) : Prop :=
  graphs_wf p ∧ ∀ k, k ≠ key → pc_graphs p !! k = pc_graphs p0 !! k.

(** What a step of a turn that writes nothing of the conversation leaves alone. *)
Definition quiet {A} (m : M state A) : Prop :=
  (∀ C, preserves (fun s : state => conversation s.1 = C) m) ∧ ∀ p0, preserves (fun s : state => graphs_kept p0 s.2.2) m.

Lemma quiet_ret {A} (a : A) : quiet (ret a). Proof using. split; auto with platform. Qed.
Lemma quiet_raise {A} e : quiet (raise (A := A) e). Proof using. split; auto with platform. Qed.

Lemma quiet_bind {A B} (m : M state A) (k : A → M state B) : quiet m → (∀ a, quiet (k a)) → quiet (bind m k).
Proof using. intros [H1 H2] K. split; [intros C|intros p0]; apply preserves_bind; try done; intros a; apply K. Qed.

Lemma quiet_try {A} (m : M state A) h : quiet m → (∀ e k, h e = Some k → quiet k) → quiet (try_except m h).
Proof using. intros [H1 H2] K. split; [intros C|intros p0]; apply preserves_try_except; try done; intros e k E; by apply (K e k E). Qed.

Lemma quiet_db {A} (m : M db A) : (∀ d, conversation (m d).2 = conversation d) → quiet (on_db m).
Proof using.
  intros H. split; [intros C|intros p0]; intros [d w] E; unfold on_db; cbn [fst snd] in *; specialize (H d); destruct (m d) as [r d']; cbn in *; [congruence|done].
Qed.

Lemma quiet_client {A} (m : M (db * V) A) : (∀ s, conversation (m s).2.1 = conversation s.1) → quiet (on_client m).
Proof using.
  intros H. split; [intros C|intros p0]; intros [d [v p]] E; unfold on_client; cbn [fst snd] in *; specialize (H (d, v)); destruct (m (d, v)) as [r [d' v']]; cbn in *; [congruence|done].
Qed.

Lemma quiet_process {A} (m : M (process G) A) : (∀ p0, preserves (graphs_kept p0) m) → quiet (on_process m).
Proof using.
  intros H. split; [intros C|intros p0; specialize (H p0)]; intros [d [v p]] E; unfold on_process; cbn [fst snd] in *; specialize (H p);
    destruct (m p) as [r p']; cbn in *; [done|by apply H].
Qed.

Lemma engine_graphs {A} (m : M Engine.engine_state A) : ∀ p0, preserves (graphs_kept p0) (on_engine m).
Proof using. intros p0 p W. unfold on_engine. by destruct (m (pc_engine p)). Qed.

Lemma disk_graphs {A} (m : M Artifacts.disk A) : ∀ p0, preserves (graphs_kept p0) (on_disk m).
Proof using. intros p0 p W. unfold on_disk. by destruct (m (pc_disk p)). Qed.

Lemma get_graphs p0 : preserves (graphs_kept p0) get. Proof using. by intros p W. Qed.

Hint Resolve quiet_ret quiet_raise engine_graphs disk_graphs get_graphs : core.

Lemma published_same ctx domain d : conversation (Onboarding.published_artifacts ctx domain d).2 = conversation d.
Proof using.
  unfold Onboarding.published_artifacts, Onboarding.published_session, Onboarding.artifacts_for, bind, tenant_session, tx, sql_select, gets, one_or_none.
  destruct (select_where _ _) as [|b [|b' l]]; done.
Qed.

Lemma materialized_quiet ctx sd : quiet (materialized base str_of ctx sd).
Proof using.
  unfold materialized. apply quiet_try; [|intros e k [= <-]; auto]. apply quiet_bind; [apply quiet_db, published_same|]. intros stored.
  destruct (_ && _); [auto|]. apply quiet_bind; [apply quiet_process; auto|auto].
Qed.

Lemma built_quiet ctx c sd ps : key = (tenant_of ctx, c) → quiet (built_graph base str_of sha256 ctx c sd ps).
Proof using.
  intros Hkey. unfold built_graph. apply quiet_bind; [apply materialized_quiet|]. intros found. apply quiet_bind; [apply quiet_process; auto|]. intros p.
  apply quiet_bind; [apply quiet_client; intros; apply build_keeps_conversation|]. intros g. apply quiet_bind; [|auto].
  apply quiet_process. intros p0 q [W K]. split.
  - intros t c' e. cbn. destruct (decide ((tenant_of ctx, c) = (t, c'))) as [[= <- <-]|Hne].
    + rewrite lookup_insert_eq. by intros [= <-].
    + rewrite lookup_insert_ne by done. apply W.
  - intros k Hk. cbn. rewrite lookup_insert_ne by congruence. by apply K.
Qed.

Lemma build_quiet ctx c sd force : key = (tenant_of ctx, c) → quiet (build ctx c sd force).
Proof using.
  intros Hkey. unfold build_graph. do 2 (apply quiet_bind; [apply quiet_process; auto|]; intros _).
  apply quiet_bind; [apply quiet_db; intros; by rewrite load_documents_same|]. intros ps. apply quiet_bind; [apply quiet_process; auto|]. intros p.
  destruct (pc_graphs p !! _) as [e|]; [destruct (_ && _); [auto|]|]; destruct ps; auto using built_quiet.
Qed.

Lemma dense_conversation ctx c q k s : conversation (dense nearest ctx c q k s).2.1 = conversation s.1.
Proof using.
  enough (H : preserves (fun s0 : db * V => conversation s0.1 = conversation s.1) (dense nearest ctx c q k)) by by apply H.
  unfold dense. apply preserves_bind.
  { intros s0 E. pose proof (embed_keeps_conversation ctx [q] s0) as H. destruct (client_embed ctx [q] s0) as [r s1]. cbn in *. congruence. }
  intros vectors. apply preserves_bind; [destruct vectors; auto with platform|]. intros probe. apply preserves_bind; [|auto with platform].
  intros [d v] E. unfold on_db. cbn [fst snd] in *. pose proof (retrieve_same nearest ctx c probe k d) as H. destruct (retrieve nearest ctx c probe k d) as [r d']. cbn in *. congruence.
Qed.

Lemma traverse_conversation b g q s : conversation (traverse str_of b g q s).2.1 = conversation s.1.
Proof using.
  enough (H : preserves (fun s0 : db * V => conversation s0.1 = conversation s.1) (traverse str_of b g q)) by by apply H.
  unfold traverse. destruct g as [g|]; [|auto with platform]. destruct (ge_nodes g =? 0); [auto with platform|]. apply preserves_bind.
  { apply preserves_try_except; [|intros e k [= <-]; auto with platform]. apply preserves_bind; [|auto with platform].
    intros s0 E. pose proof (match_keeps_conversation b g q s0) as H. destruct (ge_match b g q s0) as [r s1]. cbn in *. congruence. }
  intros [es|]; [|auto with platform]. apply preserves_bind; [|auto with platform]. apply preserves_try_except; [|intros e k [= <-]; auto with platform].
  intros s0 E. pose proof (by_entity_keeps_conversation b g q (MAX_CONTEXT_CHUNKS * 2) s0) as H. destruct (ge_by_entity b g q _ s0) as [r s1]. cbn in *. congruence.
Qed.

Lemma hybrid_quiet rctx c q g ps : quiet (_hybrid_retrieve nearest lexical str_of rctx c q g ps).
Proof using.
  unfold _hybrid_retrieve. apply quiet_bind; [apply quiet_client, dense_conversation|]. intros ds.
  apply quiet_bind; [apply quiet_db; intros; by rewrite retrieve_sparse_same|]. intros ls. apply quiet_bind; [apply quiet_process; auto|]. intros p.
  apply quiet_bind; [apply quiet_client; intros; apply traverse_conversation|auto].
Qed.

(** The documents of a graph are those of the live build. *)
Lemma build_documents ctx c sd force s b s' : builds_wf s.1 → build ctx c sd force s = (Ok b, s') → from_live ctx c (gb_documents b) s.1.
Proof using.
  intros W E. unfold build_graph in E. apply bind_ok in E as ([] & s1 & E1 & E). apply bind_ok in E as ([] & s2 & E2 & E).
  apply bind_ok in E as (ps & s3 & E3 & E). apply on_db_inv in E3 as [E3 _].
  assert (Hd : s2.1 = s.1) by (unfold on_process in E1, E2; destruct (on_engine install s.2.2), (on_engine _ s1.2.2); injection E1 as _ <-; by injection E2 as _ <-).
  rewrite Hd in E3. apply load_documents_run in E3; [|done]. apply bind_ok in E as (p & s4 & _ & E).
  assert (Hb : gb_documents b = ps); [|by rewrite Hb].
  assert (Hbuilt : ∀ s5, built_graph base str_of sha256 ctx c sd ps s5 = (Ok b, s') → gb_documents b = ps).
  { intros s5 Eb. unfold built_graph in Eb. do 4 (apply bind_ok in Eb as (? & ? & _ & Eb)). by injection Eb as <- _. }
  destruct (pc_graphs p !! _) as [e|]; [destruct (_ && _); [by injection E as <- _|]|]; destruct ps as [|q ps]; try (by injection E as <- _); by apply (Hbuilt s4).
Qed.

Lemma hybrid_run rctx c q g ps s found s' : _hybrid_retrieve nearest lexical str_of rctx c q g ps s = (Ok found, s') →
  count found.1 <= MAX_CONTEXT_CHUNKS ∧
  ∀ so, In so found.1 → ∃ p, In p ps ∧ gs_chunk_id so = pa_chunk_id p ∧ gs_text so = pa_text p.
Proof using.
  unfold _hybrid_retrieve. intros E. apply bind_ok in E as (ds & s1 & _ & E). apply bind_ok in E as (ls & s2 & _ & E).
  apply bind_ok in E as (pr & s3 & _ & E). apply bind_ok in E as (gh & s4 & _ & E). injection E as <- _. cbn [fst].
  set (l := fuse ps _ _ _). destruct (fuse_spec ps (map sc_chunk_id ds) (map sc_chunk_id ls) gh.2) as (_ & _ & H3).
  assert (Hk : ∀ f, In f (best l) → has_passage ps (fu_id f) = true) by (intros f Hf; apply firstn_subset in Hf; apply in_order_by in Hf; by apply H3).
  destruct (sources_of_all ps (best l) Hk) as [Hids Hs]. split.
  - apply (f_equal (@length string)) in Hids. rewrite !length_map in Hids. unfold count. rewrite Hids. unfold best. rewrite length_firstn. change MAX_CONTEXT_CHUNKS with 5. lia.
  - intros so Hso. apply Hs in Hso as (f & Hf & E'). destruct (passage_by_id_some ps (fu_id f) (Hk f Hf)) as (p & Ep & Hp & Eid).
    unfold graph_source_of in E'. rewrite Ep in E'. injection E' as <-. by exists p.
Qed.

(** With nothing indexed nothing is asked of a provider. *)
Lemma build_empty ctx c sd force s b s' : build ctx c sd force s = (Ok b, s') → gb_documents b = [] → s'.2.1 = s.2.1.
Proof using.
  intros E Hb. unfold build_graph in E. apply bind_ok in E as ([] & s1 & E1 & E). apply bind_ok in E as ([] & s2 & E2 & E).
  apply bind_ok in E as (ps & s3 & E3 & E). apply on_db_inv in E3 as [_ E3].
  assert (Hw : s2.2.1 = s.2.1) by (unfold on_process in E1, E2; destruct (on_engine install s.2.2), (on_engine _ s1.2.2); injection E1 as _ <-; by injection E2 as _ <-).
  apply bind_ok in E as (p & s4 & E4 & E). injection E4 as _ <-.
  assert (Hbuilt : ∀ q qs s5, built_graph base str_of sha256 ctx c sd (q :: qs) s5 = (Ok b, s') → False).
  { intros q qs s5 Eb. unfold built_graph in Eb. do 4 (apply bind_ok in Eb as (? & ? & _ & Eb)). injection Eb as <- _. discriminate Hb. }
  rewrite <- Hw, <- E3.
  destruct (pc_graphs p !! _) as [e|]; [destruct (_ && _); [by injection E as _ <-|]|];
    (destruct ps as [|q ps]; [by injection E as _ <-|by apply Hbuilt in E]).
Qed.

(** A reply of the model, from passages of the served build, to a request of them and the newest
    turns of the session. *)
Definition graph_grounded (ctx : RequestContext) (model : string) (history : list json) (question c : string) (a : GraphAnswer) (d : db) (w : V) : Prop :=
  ga_sources a ≠ [] ∧ count (ga_sources a) <= MAX_CONTEXT_CHUNKS ∧
  (∃ v, serving (tenant_of ctx) c v d ∧ ∀ so, In so (ga_sources a) → ∃ x, In x (content (tenant_of ctx) c v d) ∧
     gs_chunk_id so = ch_canonical_id x ∧ gs_text so = ch_text x) ∧
  count history <= MAX_HISTORY_TURNS ∧
  ∃ past response s1 d2, turn_messages history = Ok past ∧
    client_chat ctx (graph_request model history past (ga_sources a) question) s1 = (Ok response, (d2, w)) ∧
    ga_answer a = Cache.rs_content response ∧ ga_cost_usd a = Cache.rs_cost_usd response.

(** A refusal, which reports no cost and keeps the gap. *)
Definition graph_refused (ctx : RequestContext) (question c : string) (a : GraphAnswer) (d : db) (w w' : V) : Prop :=
  ga_sources a = [] ∧ (ga_answer a = NOT_INDEXED ∧ w' = w ∨ ga_answer a = NO_MATCH) ∧ ga_cost_usd a = 0%Q ∧
  (nonempty (Gaps.normalise question) && Gaps.storable c question "graph" = true →
   ∃ g, In g (questions d) ∧ Gaps.gap_key g = (tenant_of ctx, c, Gaps.normalise question)).

Lemma refuse_ok later fg ctx q c session x text stats detail w (s : state) a s' :
  text = NOT_INDEXED ∧ s.2.1 = w ∨ text = NO_MATCH →
  List.NoDup (map ss_id (sessions s.1)) → In x (sessions s.1) → session = Sessions.to_session x →
  refuse later fg ctx q c (Sessions.sn_id session) text stats detail s = (Ok a, s') →
  ga_session_id a = Sessions.sn_id session ∧ ga_grounded a = false ∧ graph_refused ctx q c a s'.1 w s'.2.1 ∧
  turn_recorded ctx session q (ungrounded_turn (ga_answer a) c) s'.1.
Proof using.
  intros Ht Hn Hx Hsx E. unfold refuse in E. apply bind_ok in E as ([] & s1 & Eg & E). apply on_db_inv in Eg as [Eg Hw].
  apply bind_ok in E as ([] & s2 & Et & E). apply on_db_inv in Et as [Et Hw'].
  injection E as <- <-. cbn [ga_grounded ga_session_id ga_answer].
  pose proof (record_sessions later fg ctx c q "graph" s.1) as Hs. rewrite Eg in Hs. cbn [snd] in Hs.
  apply (turns_recorded _ _ _ _ _ _ x) in Et as [Ht' Hq]; [|by rewrite Hs|by rewrite Hs|done].
  split; [done|split; [done|split; [|done]]]. split; [done|split; [|split; [done|]]].
  - cbn [ga_answer]. destruct Ht as [[-> <-]| ->]; [left|by right]. split; [done|]. by rewrite Hw', Hw.
  - intros Hg. pose proof (record_keeps_gap later fg ctx c q "graph" s.1 Hg) as (g & Hin & Hk). rewrite Eg in Hin. exists g. by rewrite Hq.
Qed.

Lemma quiet_conversation {A} (m : M state A) s r s' : quiet m → m s = (r, s') → conversation s'.1 = conversation s.1.
Proof using. intros [H _] E. specialize (H _ s eq_refl). by rewrite E in H. Qed.

Lemma conversation_sessions d d' : conversation d' = conversation d → sessions d' = sessions d.
Proof using. by intros (_ & _ & ? & _)%conversation_eq. Qed.

Lemma graph_answer_ok now later fs fg ctx q c sd sid model s a s' : key = (tenant_of ctx, c) →
  builds_wf s.1 → List.NoDup (map ss_id (sessions s.1)) → turn now later fs fg ctx q c sd sid model s = (Ok a, s') →
  ∃ session, (opening now fs ctx sid WORKLOAD s.1).1 = Ok session ∧ ga_session_id a = Sessions.sn_id session ∧
    if ga_grounded a then
      graph_grounded ctx (model_or llm_model_cheap model) (history_of (Sessions.sn_state session)) q c a s.1 s'.2.1 ∧
      turn_recorded ctx session q (grounded_turn (ga_answer a) c (ga_sources a)) s'.1
    else graph_refused ctx q c a s'.1 s.2.1 s'.2.1 ∧ turn_recorded ctx session q (ungrounded_turn (ga_answer a) c) s'.1.
Proof using.
  intros Hkey W Hn E. unfold answer in E. apply bind_ok in E as (session & s1 & Eo & E). apply on_db_inv in Eo as [Eo Hw1].
  exists session. rewrite Eo. split; [done|].
  pose proof (open_elsewhere now fs ctx sid WORKLOAD s.1) as Ho. rewrite Eo in Ho. cbn [snd] in Ho. injection Ho as Hb Hc _.
  destruct (open_row _ _ _ _ _ _ _ _ Hn Eo) as (Hn1 & x & Hx & Hsx).
  apply bind_ok in E as (built & s2 & Eb & E). pose proof (quiet_conversation _ _ _ _ (build_quiet _ _ _ _ Hkey) Eb) as Q1%conversation_sessions.
  pose proof (build_empty _ _ _ _ _ _ _ Eb) as Hempty.
  apply build_documents in Eb; [|by apply (wf_same s.1)]. assert (Hlive : from_live ctx c (gb_documents built) s.1).
  { destruct Eb as [->|(v & Hv & Hp)]; [by left|]. right. exists v. split; [by apply (serving_same _ _ _ s1.1)|]. unfold content in *. by rewrite Hc in Hp. }
  rewrite <- Q1 in Hn1, Hx.
  destruct (gb_documents built) as [|p0 ps] eqn:Ed.
  - apply (refuse_ok _ _ _ _ _ _ x _ _ _ s.2.1) in E as (-> & -> & H1 & H2); [done| |done..]. left. split; [done|]. by rewrite Hempty, Hw1.
  - apply bind_ok in E as ([] & s3 & E3 & E). assert (Q2 : sessions s3.1 = sessions s2.1).
    { apply conversation_sessions. apply (quiet_conversation _ _ _ _ (quiet_process _ (engine_graphs _)) E3). }
    apply bind_ok in E as (found & s4 & Eh & E).
    pose proof (quiet_conversation _ _ _ _ (hybrid_quiet _ _ _ _ _) Eh) as Q3%conversation_sessions. apply hybrid_run in Eh as [Hcount Hs].
    rewrite <- Q2, <- Q3 in Hn1, Hx.
    destruct found.1 as [|so sources] eqn:Ef.
    + apply (refuse_ok _ _ _ _ _ _ x _ _ _ s.2.1) in E as (-> & -> & H1 & H2); [done|by right|done..].
    + apply bind_ok in E as (past & s5 & Em & E). destruct (turn_messages _) as [ms|e] eqn:Ems; [|done]. injection Em as <- <-.
      apply bind_ok in E as (response & s6 & Ec & E).
      assert (Q4 : sessions s6.1 = sessions s4.1).
      { apply conversation_sessions. refine (quiet_conversation _ _ _ _ (quiet_client _ _) Ec). intros; apply chat_keeps_conversation. }
      apply bind_ok in E as ([] & s7 & Et & E). apply on_db_inv in Et as [Et Hw].
      injection E as <- <-. cbn [ga_grounded ga_session_id ga_answer ga_sources]. split; [done|].
      apply (turns_recorded _ _ _ _ _ _ x) in Et as [Ht _]; [|by rewrite Q4|by rewrite Q4|done]. split; [|done].
      split; [done|split; [done|split]].
      * destruct Hlive as [[=]|(v & Hv & Hp)]. exists v. split; [done|]. intros s0 H0. apply Hs in H0 as (p & H1 & -> & ->). by apply Hp.
      * unfold on_client in Ec. destruct (client_chat ctx _ (s4.1, s4.2.1)) as [r [d2 w]] eqn:Ech. injection Ec as -> <-. cbn [fst snd] in Hw.
        split; [apply history_short|]. exists ms, response, (s4.1, s4.2.1), d2. rewrite Hw. split; [exact Ems|]. split; [exact Ech|done].
Qed.

(** Nothing of others changes, and the cached graphs stay as they should be. *)
Definition framed (ctx : RequestContext) {A} (m : M state A) : Prop :=
  (∀ C, preserves (fun s : state => elsewhere ctx s.1 = C) m) ∧ ∀ p0, preserves (fun s : state => graphs_kept p0 s.2.2) m.

Lemma framed_bind ctx {A B} (m : M state A) (k : A → M state B) : framed ctx m → (∀ a, framed ctx (k a)) → framed ctx (bind m k).
Proof using. intros [H1 H2] K. split; [intros C|intros p0]; apply preserves_bind; try done; intros a; apply K. Qed.

Lemma quiet_framed ctx {A} (m : M state A) : quiet m → framed ctx m.
Proof using. intros [H1 H2]. split; [|done]. intros C s E. rewrite <- E. by apply conversation_elsewhere, (H1 (conversation s.1)). Qed.

Lemma framed_db ctx {A} (m : M db A) : (∀ d, elsewhere ctx (m d).2 = elsewhere ctx d) → framed ctx (on_db m).
Proof using.
  intros H. split; [intros C; by apply on_db_elsewhere|]. intros p0 [d w] E; unfold on_db; cbn [fst snd] in *; destruct (m d) as [r d']; done.
Qed.

Lemma refuse_framed later fg ctx q c sid text stats detail : framed ctx (refuse (V := V) (G := G) later fg ctx q c sid text stats detail).
Proof using.
  unfold refuse. apply framed_bind; [apply framed_db; intros; apply record_elsewhere|]. intros _.
  apply framed_bind; [apply framed_db; intros; apply append_turns_elsewhere|]. intros _. apply quiet_framed; auto.
Qed.

Lemma answer_framed now later fs fg ctx q c sd sid model : key = (tenant_of ctx, c) → framed ctx (turn now later fs fg ctx q c sd sid model).
Proof using.
  intros Hkey. unfold answer. apply framed_bind; [apply framed_db; intros; apply open_elsewhere|]. intros session.
  apply framed_bind; [by apply quiet_framed, build_quiet|]. intros built. destruct (gb_documents built) as [|p0 ps]; [apply refuse_framed|].
  apply framed_bind; [apply quiet_framed, quiet_process; auto|]. intros _. apply framed_bind; [apply quiet_framed, hybrid_quiet|]. intros found.
  destruct found.1 as [|so sources]; [apply refuse_framed|]. apply framed_bind; [apply quiet_framed; destruct (turn_messages _); auto|]. intros past.
  apply framed_bind; [apply quiet_framed, quiet_client; intros; apply chat_keeps_conversation|]. intros response.
  apply framed_bind; [apply framed_db; intros; apply append_turns_elsewhere|]. intros _. apply quiet_framed; auto.
Qed.

(** An engine that refuses ends the turn. *)
Lemma build_refused ctx c sd force s e eng : install (pc_engine s.2.2) = (Raise e, eng) →
  build ctx c sd force s = (Raise e, (s.1, (s.2.1, s.2.2 <| pc_engine := eng |>))).
Proof using.
  intros Ei. unfold build_graph. apply run_bind_raise. unfold on_process, on_engine. by rewrite Ei.
Qed.

Lemma refused_engine now later fs fg ctx q c sd sid model s e eng r s' :
  install (pc_engine s.2.2) = (Raise e, eng) → turn now later fs fg ctx q c sd sid model s = (r, s') →
  (∃ e', r = Raise e') ∧ s'.2.1 = s.2.1.
Proof using.
  intros Ei E. unfold answer in E. apply bind_cases in E as [(e' & Eo & ->)|(session & s1 & Eo & E)]; apply on_db_inv in Eo as [_ Eo].
  { split; [by exists e'|by rewrite Eo]. }
  rewrite <- Eo in Ei. rewrite (run_bind_raise _ _ _ _ _ (build_refused _ _ _ _ _ _ _ Ei)) in E. injection E as <- <-.
  cbn [fst snd]. split; [by exists e|by rewrite Eo].
Qed.

End turn_lemmas.

(** C38: a turn over the graph is grounded or refused.  A turn in graph mode that returns was
    taken in the session it named, or a new one, and has put exactly the question and the reply
    after that session's newest turns.  A grounded reply
    rests on one to five documents, all chunks of the build of the collection that is being
    served to the caller's tenant and with their very text, whatever the graph or its cache
    hold, and is what the model answered to a request made of them, the question and the last
    turns of that session, at most six; otherwise the reply is one of the two fixed refusals
    and reports no cost - the one for a collection with nothing indexed asked nothing of a
    provider - and a question the backlog can hold is in the backlog.
    However a turn ends, nobody else's session, no build and no chunk changes, and of the
    graphs the process keeps only that of the caller's tenant and the collection may be another than
    before, each built for its own tenant.  An engine that refuses, as a disabled one does, ends the turn
    before anything is asked of a provider. *)
Theorem graph_turn_is_grounded_or_refused {V G} {client : ChatClient V} {engine : GraphEngine V G}
    (nearest : Z → list Q → list chunk → result (list (chunk * Q))) (lexical : Z → string → list chunk → result (list (chunk * Q)))
    (install : M Engine.engine_state unit) (base : Artifacts.path) (str_of : json → string) (sha256 : string → string) (llm_model_cheap : string)
    (now later : timestamp) (fresh_session : string) (fresh_gap : uuid) (ctx : RequestContext) (question c schema_domain : string)
    (session_id model : option string) (s : db * (V * process G)) r s' :
  builds_wf s.1 → List.NoDup (map ss_id (sessions s.1)) → graphs_wf s.2.2 →
  answer nearest lexical install base str_of sha256 llm_model_cheap now later fresh_session fresh_gap ctx question c schema_domain session_id model s = (r, s') →
  elsewhere ctx s'.1 = elsewhere ctx s.1 ∧ graphs_wf s'.2.2 ∧
  (∀ t c', (t, c') ≠ (tenant_of ctx, c) → pc_graphs s'.2.2 !! (t, c') = pc_graphs s.2.2 !! (t, c')) ∧
  (∀ e eng, install (pc_engine s.2.2) = (Raise e, eng) → (∃ e', r = Raise e') ∧ s'.2.1 = s.2.1) ∧
  ∀ a, r = Ok a → ∃ session, (opening now fresh_session ctx session_id WORKLOAD s.1).1 = Ok session ∧
    ga_session_id a = Sessions.sn_id session ∧
    if ga_grounded a then
      graph_grounded ctx (model_or llm_model_cheap model) (history_of (Sessions.sn_state session)) question c a s.1 s'.2.1 ∧
      turn_recorded ctx session question (grounded_turn (ga_answer a) c (ga_sources a)) s'.1
    else graph_refused ctx question c a s'.1 s.2.1 s'.2.1 ∧
      turn_recorded ctx session question (ungrounded_turn (ga_answer a) c) s'.1.
Proof.
  intros W Hn Wg E. destruct (answer_framed nearest lexical install base str_of sha256 llm_model_cheap (tenant_of ctx, c) now later fresh_session fresh_gap ctx question c
    schema_domain session_id model eq_refl) as [F1 F2]. specialize (F1 _ s eq_refl). specialize (F2 s.2.2 s (conj Wg (fun _ _ => eq_refl))).
  rewrite E in F1, F2. cbn [snd] in F1, F2. destruct F2 as [F2 F3].
  split; [done|split; [done|split; [intros; by apply F3|split]]].
  - intros e eng Ei. by apply (refused_engine nearest lexical install base str_of sha256 llm_model_cheap now later fresh_session fresh_gap ctx question c
      schema_domain session_id model s e eng).
  - intros a ->. by apply (graph_answer_ok nearest lexical install base str_of sha256 llm_model_cheap (tenant_of ctx, c) now later fresh_session fresh_gap ctx question c schema_domain session_id model).
Qed.

(** Dropping a tenant's graphs drops all of them and nobody else's. *)
Lemma invalidate_spec {G} (ctx : RequestContext) (p : process G) : let p' := (invalidate (Some ctx) p).2 in
  (∀ c, pc_graphs p' !! (tenant_of ctx, c) = None) ∧
  (∀ t c, t ≠ tenant_of ctx → pc_graphs p' !! (t, c) = pc_graphs p !! (t, c)) ∧ pc_engine p' = pc_engine p ∧ pc_disk p' = pc_disk p.
Proof.
  cbn. split; [|split; [|done]].
  - intros c. apply map_lookup_filter_None. right. by intros e _ [].
  - intros t c Hne. destruct (pc_graphs p !! (t, c)) as [e|] eqn:E; [by apply map_lookup_filter_Some|]. apply map_lookup_filter_None. by left.
Qed.

Module HybridDemo.
(** A graph that remembers the schema it was built for and whether it had artifacts. *)
Definition graph : Type := string * Z * bool.
#[export] Instance engine : GraphEngine (Llm.world Z) graph := {|
  ge_build _ r _ domain l := ret (domain, count l, is_some r);
  ge_nodes g := g.1.2;
  ge_edges g := if g.2 then 1 else 0;
  ge_match _ _ _ := ret ["pump"];
  ge_by_entity _ _ _ _ := ret [JObj [("chunk_id", JNull)]; JObj [("chunk_id", JStr "c_b")]; JStr "c_gone"];
  build_keeps_conversation _ _ _ _ _ _ := eq_refl;
  match_keeps_conversation _ _ _ _ := eq_refl;
  by_entity_keeps_conversation _ _ _ _ _ := eq_refl
|}.
Definition lexical (k : Z) (_ : string) (l : list chunk) : result (list (chunk * Q)) := Ok (map (fun x => (x, 1 # 2)%Q) (firstn (Z.to_nat k) l)).
Definition d0 : db := empty_db <| builds := [BuildsDemo.build 4 live] |> <| chunks := [ChatDemo.ch 4 "c_a"; ChatDemo.ch 4 "c_b"; ChatDemo.ch 5 "c_new"] |>.
Definition p0 : process graph := mkProcess Engine.EngineDemo.fresh ∅ ∅.
Definition s0 : db * (Llm.world Z * process graph) := (d0, (Llm.mkWorld Z (Ledger.mkMemory ∅ ∅) Cache.CacheDemo.c0 0, p0)).
Definition install (st : Settings) : M Engine.engine_state unit :=
  Engine.install st (fun p => p) Engine.EngineDemo.present None "/var/graphrag" Engine.EngineDemo.import_config (Ok tt) None.
Definition bob : RequestContext := Demo.ctx <| principal := Demo.bob |>.
Notation turn st ctx fresh c sd s := (answer (client := ChatDemo.client) ChatDemo.nearest lexical (install st) Artifacts.ArtifactsDemo.base (fun _ => "") (fun x => x) "gpt-4o-mini"
  5 9 fresh 60%N ctx "How do I bleed the pump?" c sd None None s).
Definition disabled : Settings := Engine.EngineDemo.st <| graphrag_enabled := false |>.
End HybridDemo.

#[local] Existing Instance ChatDemo.client.
#[local] Existing Instance HybridDemo.engine.

(** The graph of a collection is kept for one taxonomy: a question asked under another is
    answered from the first one's graph, through the first caller's retriever. *)
Example another_domain_is_served_the_first_graph :
  let s1 := (HybridDemo.turn Engine.EngineDemo.st Demo.ctx "s1" "manuals" "plant" HybridDemo.s0).2 in
  let '(r, s2) := HybridDemo.turn Engine.EngineDemo.st HybridDemo.bob "s2" "manuals" "office" s1 in
  match r with Ok a => gr_schema_domain (ga_graph a) = "plant" | Raise _ => False end ∧
  option_map (fun e => subject (principal (cg_retriever e))) (pc_graphs s2.2.2 !! (1%N, "manuals")) = Some "alice@acme.test".
Proof. by vm_compute. Qed.

(** An item of the graph without an identifier takes a rank: the hit after it weighs [0.8 / 2]. *)
Example a_nameless_item_takes_a_rank :
  ranked (8 # 10) "graph" (map (hit_of (fun _ => "")) [JObj [("chunk_id", JNull)]; JObj [("chunk_id", JStr "c_b")]]) =
  [("c_b", ((8 # 10) / inject_Z 2)%Q, "graph")].
Proof. reflexivity. Qed.

(** A deployment without the engine still opens a session for each question it refuses. *)
Example a_disabled_engine_leaves_a_session :
  let '(r, s') := HybridDemo.turn HybridDemo.disabled Demo.ctx "s1" "manuals" "plant" HybridDemo.s0 in
  r = Raise Engine.GraphRAGDisabled ∧ map ss_id (sessions s'.1) = ["s1"].
Proof. by vm_compute. Qed.

(** One turn over an indexed collection, and one with the engine disabled. *)
Lemma graph_turn_is_grounded_or_refused_witness :
  (∃ a s', HybridDemo.turn Engine.EngineDemo.st Demo.ctx "s1" "manuals" "plant" HybridDemo.s0 = (Ok a, s') ∧
     graph_grounded Demo.ctx "gpt-4o-mini" [] "How do I bleed the pump?" "manuals" a HybridDemo.d0 s'.2.1 ∧ graphs_wf s'.2.2 ∧
     map (fun x => (gs_chunk_id x, gs_signals x)) (ga_sources a) = [("c_a", ["dense"; "lexical"]); ("c_b", ["dense"; "graph"; "lexical"])]) ∧
  (∃ e s', HybridDemo.turn HybridDemo.disabled Demo.ctx "s1" "manuals" "plant" HybridDemo.s0 = (Raise e, s') ∧ s'.2.1 = HybridDemo.s0.2.1).
Proof.
  assert (W : builds_wf HybridDemo.s0.1).
  { constructor; [apply NoDup_ListNoDup, (bool_decide_unpack _); vm_compute; done|]. intros b b' [<-|[]] [<-|[]] _ _ _. reflexivity. }
  assert (Wg : graphs_wf HybridDemo.s0.2.2) by (intros t c e; cbn; by rewrite lookup_empty).
  split.
  - destruct (HybridDemo.turn Engine.EngineDemo.st Demo.ctx "s1" "manuals" "plant" HybridDemo.s0) as [r s'] eqn:E.
    pose proof (f_equal fst E) as Er. vm_compute in Er. cbn [fst] in Er. subst r.
    destruct (graph_turn_is_grounded_or_refused (client := ChatDemo.client) ChatDemo.nearest HybridDemo.lexical (HybridDemo.install Engine.EngineDemo.st)
      Artifacts.ArtifactsDemo.base (fun _ => "") (fun x => x) "gpt-4o-mini" 5 9 "s1" 60%N Demo.ctx "How do I bleed the pump?" "manuals" "plant" None None
      HybridDemo.s0 _ s' W (List.NoDup_nil _) Wg E) as (_ & Wg' & _ & _ & H).
    destruct (H _ eq_refl) as (session & Es & _ & H1 & _). vm_compute in Es. injection Es as <-.
    eexists _, s'. split; [reflexivity|]. split; [exact H1|]. split; [exact Wg'|reflexivity].
  - destruct (HybridDemo.turn HybridDemo.disabled Demo.ctx "s1" "manuals" "plant" HybridDemo.s0) as [r s'] eqn:E.
    destruct (graph_turn_is_grounded_or_refused (client := ChatDemo.client) ChatDemo.nearest HybridDemo.lexical (HybridDemo.install HybridDemo.disabled)
      Artifacts.ArtifactsDemo.base (fun _ => "") (fun x => x) "gpt-4o-mini" 5 9 "s1" 60%N Demo.ctx "How do I bleed the pump?" "manuals" "plant" None None
      HybridDemo.s0 _ s' W (List.NoDup_nil _) Wg E) as (_ & _ & _ & H & _).
    destruct (H Engine.GraphRAGDisabled Engine.EngineDemo.fresh) as [(e & ->) Hw]; [reflexivity|]. by exists e, s'.
Defined.
