(* ===== verification/Drafting.v ===== *)
(** Drafting a taxonomy and the routes around it: [workloads/onboarding/workload.py] and
    [platform_core/api/routes/onboarding.py], over the store of [Onboarding.v].

    The engine's analysis and its question generator are the class [DraftEngine]: they touch
    the session only through the progress callback they are given.  [int_of] is [int] of a
    JSON value that is no integer, [error_text] the text of an exception.  A run's payload is
    the one the route enqueues. *)
From Stdlib Require Import Ascii.
From stdpp Require Import pretty.
From S2P Require Import Prelude Identity Json Text Db Outbox AuditTrail Onboarding.
From S2P Require Leases Builds Datasets Artifacts Engine Hybrid.
From S2P Require Import Chat.

Definition WORKLOAD : string := "onboarding".
Definition DEFAULT_SAMPLE : Z := 120.
Definition DEFAULT_QUERIES : Z := 25.

Definition or_raise {S A} (r : result A) : M S A := match r with Ok a => ret a | Raise e => raise e end.

Lemma guard_ok {S} b e (s : S) u s' : guard b e s = (Ok u, s') → b = true ∧ s' = s.
Proof. unfold guard, ret, raise. destruct b; [by intros [= _ <-]|done]. Qed.

Lemma tx_cases {S A} (m : M S A) s r s' : tx m s = (r, s') → (∃ e, r = Raise e ∧ s' = s) ∨ ∃ a, r = Ok a ∧ m s = (Ok a, s').
Proof. unfold tx. destruct (m s) as [[a|e] s1]; intros [= <- <-]; eauto. Qed.

(** * What the engine is asked *)

Record chunk_view := mkView {
  cv_chunk_id : string;
  cv_content : string;
  cv_source_file : json;
  cv_page : Z
}.

Record proposed_query := mkProposed {
  pq_text : string;
  pq_evidence : list string;
  pq_source_file : json;
  pq_page : json;
  pq_hints : list string
}.

(** What [analyze] returns. *)
Record analysis := mkAnalysis {
  an_yaml : string;
  an_discovered : list (string * list json);
  an_repair_attempts : Z;
  an_validation : json
}.

(** What a draft may change of the database besides the ledger. *)
Definition drafts (d : db) : list onboarding_session * list onboarding_artifact := (onboardings d, artifacts d).

Definition scratch_root : Artifacts.path := ["scratch"].

Definition progress (V : Type) : Type := string → string → Z → Z → M (db * V) unit.

Class DraftEngine (V : Type) := mkDraftEngine {
  de_analyze : RequestContext → string → list string → progress V → M (db * V) (analysis * Artifacts.disk);
  de_propose : RequestContext → list chunk_view → Z → M (db * V) (list proposed_query);
  analyze_only_reports : ∀ (I : _ → Prop) ctx domain docs (cb : progress V),
    (∀ step note i n, preserves (fun s => I (drafts s.1)) (cb step note i n)) →
    preserves (fun s => I (drafts s.1)) (de_analyze ctx domain docs cb);
  propose_keeps_drafts : ∀ ctx views n s, drafts (de_propose ctx views n s).2.1 = drafts s.1
}.

Section run.
Context {V : Type} {engine : DraftEngine V}.
Variable int_of : json → result Z.
Variable loads : string → option json.
Variable sha256 : string → string.
Variable error_text : exn → string.
(** What the installation of the engine raises. *)
Variable install_fault : option exn.
(** What others commit while the engine works, a cancellation of the session included. *)
Variable meanwhile : db → db.
(** What the database answers to the status of the session, if not that it is written. *)
Variable status_fault : option exn.
(** The time until the analysis, and after it. *)
Variables now later : timestamp.

Definition truthy_of (v : option json) : option json := Artifacts.truthy_json v.

(** [int(v or 0)]. *)
Definition int_or_0 (v : option json) : result Z :=
  match truthy_of v with None => Ok 0 | Some (JInt n) => Ok n | Some (JBool _) => Ok 1 | Some v => int_of v end.

Definition view_of (p : Hybrid.passage) : result chunk_view :=
  match int_or_0 (jget "page" (Hybrid.pa_metadata p)) with
  | Ok page =>
      Ok (mkView (Hybrid.pa_chunk_id p) (Hybrid.pa_text p)
            (coalesce (coalesce_opt (truthy_of (Some (Hybrid.pa_source p))) (truthy_of (jget "source" (Hybrid.pa_metadata p)))) (JStr "")) page)
  | Raise e => Raise e
  end.

Fixpoint _chunk_views (documents : list Hybrid.passage) : result (list chunk_view) :=
  match documents with
  | [] => Ok []
  | p :: l =>
      match view_of p, _chunk_views l with
      | Ok v, Ok vs => Ok (v :: vs)
      | Raise e, _ | _, Raise e => Raise e
      end
  end.

Definition query_json (documents : list Hybrid.passage) (index : nat) (q : proposed_query) : json :=
  JObj [("id", JStr ("q" +:+ pretty (Z.of_nat index))); ("text", JStr (pq_text q));
        ("evidence_chunk_ids", JArr (map JStr (List.filter (Hybrid.has_passage documents) (pq_evidence q))));
        ("source_file", pq_source_file q); ("page", pq_page q); ("entity_hints", JArr (map JStr (pq_hints q)));
        ("approved", JBool false); ("edited", JBool false)].

(** The questions, or none and why. *)
Definition _propose_queries (ctx : RequestContext) (documents : list Hybrid.passage) (n_queries : Z) : M (db * V) (list json * option string) :=
  match documents with
  | [] => ret ([], None)
  | _ =>
      try_except (
        views <- or_raise (_chunk_views documents) ;;
        proposed <- de_propose ctx views n_queries ;;
        ret (imap (query_json documents) proposed, None))
        (fun e => Some (ret ([], Some (error_text e))))
  end.

Record draft_payload := mkDraftPayload {
  dp_session : uuid;
  dp_domain : string;
  dp_collection : string;
  dp_sample : Z;
  dp_n_queries : option Z
}.

Inductive draft_outcome :=
| SessionGone
| AlreadyDone (status : onboarding_status)
| EmptyCorpus
| DraftReady (stats : json).

(** [len((v or {}).get(k) or [])]. *)
Definition len_of (k : string) (v : option json) : result Z :=
  match truthy_of v with
  | None => Ok 0
  | Some (JObj kvs) =>
      match truthy_of (jget k (JObj kvs)) with
      | None => Ok 0
      | Some (JArr l) => Ok (count l)
      | Some (JObj kvs') => Ok (count kvs')
      | Some (JStr s) => Ok (str_len s)
      | Some _ => Raise (TypeError "object has no len()")
      end
  | Some _ => Raise (OtherError "AttributeError")
  end.

Definition put (ctx : RequestContext) (sid : uuid) (kind name : string) (v : json) : M (db * V) unit :=
  on_db (put_artifact later ctx sid kind name v).

Definition put_opt (ctx : RequestContext) (sid : uuid) (kind : string) (v : option json) : M (db * V) unit :=
  match v with Some v => put ctx sid kind kind v | None => ret tt end.

Definition yaml_json (yaml : string) : option json := if nonempty yaml then Some (JObj [("yaml", JStr yaml)]) else None.

(** Everything the analysis produced, written before the status says so. *)
Definition keep_produced (ctx : RequestContext) (sid : uuid) (yaml : string) (produced : Artifacts.captured) : M (db * V) unit :=
  put_opt ctx sid "schema" (yaml_json yaml) ;;
  put_opt ctx sid "instance_table" (Artifacts.cp_instance_table produced) ;;
  put_opt ctx sid "predicate_map" (Artifacts.cp_predicate_map produced) ;;
  for_each (map_to_list (Artifacts.cp_extraction_cache produced)) (fun e => put ctx sid "extraction_cache" e.1 e.2).

Definition opt_str (o : option string) : json := match o with Some s => JStr s | None => JNull end.
Definition opt_int (o : option Z) : json := match o with Some n => JInt n | None => JNull end.

Definition corpus_of (ctx : RequestContext) (c : string) : M db (option Z * option string) :=
  live_build <- Builds.live_version_or_none ctx c ;;
  match live_build with
  | None => ret (None, None)
  | Some v => f <- Builds.fingerprint sha256 ctx c v ;; ret (Some v, Some f)
  end.

Definition relations (instances predicates cache_files : Z) : bool :=
  negb (instances =? 0) && negb (predicates =? 0) && negb (cache_files =? 0).

Definition stats_of (instances predicates cache_files sampled : Z) (proposed : list json * option string) (corpus : option Z * option string)
    (a : analysis) : json :=
  JObj [("instances", JInt instances); ("predicates", JInt predicates); ("cache_files", JInt cache_files);
        ("candidate_queries", JInt (count proposed.1)); ("candidate_queries_error", opt_str proposed.2);
        ("corpus_fingerprint", opt_str corpus.2); ("corpus_build_version", opt_int corpus.1);
        ("relations_available", JBool (relations instances predicates cache_files)); ("chunks_sampled", JInt sampled);
        ("entities_discovered", JInt (sum_Z (map (fun e => count e.2) (an_discovered a))));
        ("repair_attempts", JInt (an_repair_attempts a)); ("validation", an_validation a)].

Definition step_json (step note : string) (index total : Z) : json :=
  JObj [("step", JStr step); ("detail", JStr (String.substring 0 2000 note)); ("index", JInt index); ("total", JInt total)].

Definition on_progress (ctx : RequestContext) (sid : uuid) : progress V := fun step note index total =>
  on_db (Leases.cancellation_point ctx) ;;
  on_db (append_progress now ctx sid (step_json step note index total)).

Definition write_status (at_ : timestamp) (ctx : RequestContext) (sid : uuid) (status : onboarding_status) (error : option string) (stats : option json)
    : M (db * V) unit :=
  match status_fault with Some e => raise e | None => on_db (set_status at_ ctx sid status error stats) end.

(** The guarded part of a run. *)
Definition draft (ctx : RequestContext) (p : draft_payload) (documents : list Hybrid.passage) (texts : list string) : M (db * V) draft_outcome :=
  let sid := dp_session p in
  analysed <- de_analyze ctx (lower (strip (dp_domain p))) texts (on_progress ctx sid) ;;
  produced <- or_raise (Artifacts.capture loads scratch_root (lower (strip (dp_domain p))) analysed.2) ;;
  keep_produced ctx sid (an_yaml analysed.1) produced ;;
  instances <- or_raise (len_of "instances" (Artifacts.cp_instance_table produced)) ;;
  predicates <- or_raise (len_of "predicate_map" (Artifacts.cp_predicate_map produced)) ;;
  let cache_files := Z.of_nat (size (Artifacts.cp_extraction_cache produced)) in
  corpus <- on_db (corpus_of ctx (dp_collection p)) ;;
  proposed <- _propose_queries ctx documents (match dp_n_queries p with Some n => if n =? 0 then DEFAULT_QUERIES else n | None => DEFAULT_QUERIES end) ;;
  (match proposed.1 with
   | [] => ret tt
   | qs => put ctx sid "candidate_queries" "candidate_queries" (JObj [("queries", JArr qs)])
   end) ;;
  let stats := stats_of instances predicates cache_files (count texts) proposed corpus analysed.1 in
  write_status later ctx sid on_draft_ready None (Some stats) ;;
  ret (DraftReady stats).

Definition sample_json (n total : Z) (c : string) : json :=
  JObj [("step", JStr "sample"); ("detail", JStr (pretty n +:+ " of " +:+ pretty total +:+ " chunks from " +:+ c))].

Definition run (ctx : RequestContext) (p : draft_payload) : M (db * V) draft_outcome :=
  let sid := dp_session p in
  on_db (Leases.cancellation_point ctx) ;;
  current <- on_db (get_session ctx sid) ;;
  match current with
  | None => ret SessionGone
  | Some x =>
      if negb (bool_decide (os_status x = on_drafting)) then ret (AlreadyDone (os_status x))
      else
        match install_fault with Some e => raise e | None => ret tt end ;;
        documents <- on_db (Hybrid.load_documents ctx (dp_collection p)) ;;
        match documents with
        | [] =>
            write_status now ctx sid on_failed (Some "Collection has no indexed documents.") None ;;
            ret EmptyCorpus
        | _ =>
            let texts := firstn (Z.to_nat (dp_sample p)) (map Hybrid.pa_text documents) in
            on_db (append_progress now ctx sid (sample_json (count texts) (count documents) (dp_collection p))) ;;
            on_db (modify meanwhile) ;;
            try_except (draft ctx p documents texts)
              (fun e => Some (write_status later ctx sid on_failed (Some (String.substring 0 2000 (error_text e))) None ;; raise e))
        end
  end.

End run.

(** * The routes *)

Record SessionCreate := mkSessionCreate {
  sc_domain : string;
  sc_collection : string;
  sc_sample : Z
}.

Definition lower_alnum (c : Ascii.ascii) : bool :=
  let n := Ascii.N_of_ascii c in ((97 <=? n) && (n <=? 122) || (48 <=? n) && (n <=? 57))%N.

Definition domain_char (c : Ascii.ascii) : bool := lower_alnum c || Ascii.eqb c "_"%char || Ascii.eqb c "-"%char.

(** [^[a-z0-9][a-z0-9_-]*$], of one to 64 characters. *)
Definition valid_domain (s : string) : bool :=
  match s with
  | EmptyString => false
  | String c s' => lower_alnum c && forallb domain_char (String.list_ascii_of_string s') && (str_len s <=? 64)
  end.

Definition valid_create (p : SessionCreate) : bool :=
  valid_domain (sc_domain p) && (str_len (sc_collection p) <=? 128) && (1 <=? sc_sample p) && (sc_sample p <=? 1000).

Definition drafting_of (domain : string) (x : onboarding_session) : bool := in_domain domain x && bool_decide (os_status x = on_drafting).

Record SessionStarted := mkSessionStarted {
  ss_session : uuid;
  ss_run : uuid;
  ss_run_created : bool
}.

Definition payload_json (sid : uuid) (domain c : string) (sample : Z) : json :=
  JObj [("session_id", JStr (uuid_str sid)); ("domain", JStr domain); ("collection", JStr c); ("sample", JInt sample)].

Inductive corpus_status := CorpusUnknown | CorpusGone | CorpusDrifted (build_version : Z) | CorpusCurrent (build_version : Z).

Record domain_entry := mkDomainEntry {
  de_domain : string;
  de_published : option (onboarding_session * bool * corpus_status);
  de_sessions : Z
}.

Section routes.
Context `{AuditEnv}.

(** [other] is what requests of others commit between the check and the insert, [between]
    what they commit inside [enqueue_run]. *)
Definition start_session (now : timestamp) (fresh_session fresh_run : uuid) (serial : Z) (other between : db → db) (rel : string) (trace : json)
    (ctx : RequestContext) (p : SessionCreate) : M db SessionStarted :=
  guard (valid_create p) (HTTPException 422) ;;
  let domain := lower (strip (sc_domain p)) in
  tenant_session (
    running <- sql_select (visible (tenant_of ctx) (drafting_of domain)) ;;
    guard (match running with [] => true | _ => false end) (HTTPException 409) ;;
    modify other ;;
    sid <- create now fresh_session ctx domain (sc_collection p) None ;;
    queued <- enqueue_run now fresh_run serial between rel trace ctx WORKLOAD (payload_json sid domain (sc_collection p) (sc_sample p))
      (py_or (Identity.idempotency_key ctx) (Some ("onboard:" +:+ domain +:+ ":" +:+ uuid_str sid))) 3 ;;
    update_sessions (visible (tenant_of ctx) (by_id sid)) (fun x => x <| os_run := Some queued.1 |>) ;;
    audit_session now ctx "onboarding.session.created" sid
      (JObj [("domain", JStr domain); ("collection", JStr (sc_collection p)); ("run_id", JStr (uuid_str queued.1))]) ;;
    ret (mkSessionStarted sid queued.1 queued.2)).

Variable sha256 : string → string.
Variable str_of : json → string.

(** Whether the corpus has moved since the taxonomy was drafted. *)
Definition _staleness (ctx : RequestContext) (c : string) (stats : json) : M db corpus_status :=
  match truthy_of (jget "corpus_fingerprint" stats) with
  | None => ret CorpusUnknown
  | Some drafted =>
      live_build <- Builds.live_version_or_none ctx c ;;
      match live_build with
      | None => ret CorpusGone
      | Some v =>
          current <- Builds.fingerprint sha256 ctx c v ;;
          ret (match drafted with
               | JStr f => if String.eqb f current then CorpusCurrent v else CorpusDrifted v
               | _ => CorpusDrifted v
               end)
      end
  end.

Definition relations_of (stats : json) : bool := is_some (truthy_of (jget "relations_available" stats)).

Definition bump_domain (x : onboarding_session) (published : option (onboarding_session * bool * corpus_status)) (e : domain_entry) : domain_entry :=
  mkDomainEntry (de_domain e) (coalesce_opt published (de_published e)) (de_sessions e + 1).

(** [domains.setdefault], in order of first occurrence. *)
Fixpoint add_domain (x : onboarding_session) (published : option (onboarding_session * bool * corpus_status)) (l : list domain_entry) : list domain_entry :=
  match l with
  | [] => [mkDomainEntry (os_domain x) published 1]
  | e :: l' => if String.eqb (de_domain e) (os_domain x) then bump_domain x published e :: l' else e :: add_domain x published l'
  end.

Fixpoint domains_from (ctx : RequestContext) (l : list onboarding_session) (acc : list domain_entry) : M db (list domain_entry) :=
  match l with
  | [] => ret acc
  | x :: l' =>
      published <- (if is_published x then status <- _staleness ctx (os_collection x) (os_stats x) ;; ret (Some (x, relations_of (os_stats x), status))
                    else ret None) ;;
      domains_from ctx l' (add_domain x published acc)
  end.

Definition list_domains (ctx : RequestContext) : M db (list domain_entry) :=
  l <- list_sessions ctx None 200 ;;
  entries <- domains_from ctx l [] ;;
  ret (order_by (fun a b => String.leb (de_domain a) (de_domain b)) entries).

(** [store]'s refusals as the routes answer them: 404, 403 and 409. *)
Definition http_of {A} (m : M db A) : M db A :=
  try_except m (fun e => match e with
                         | LookupError _ => Some (raise (HTTPException 404))
                         | ValueError _ => Some (raise (HTTPException 409))
                         | _ => None
                         end).

Definition valid_curate (text : option string) : bool := match text with Some t => (8 <=? str_len t) && (str_len t <=? 1000) | None => true end.

Definition curate_route (ctx : RequestContext) (sid : uuid) (query_id : string) (text : option string) (approved : option bool) : M db json :=
  guard (valid_curate text) (HTTPException 422) ;;
  http_of (curate_query ctx sid query_id text approved).

(** [q.get(k)] of what must be an object. *)
Definition approved_query (q : json) : result bool :=
  match q with JObj _ => Ok (is_some (truthy_of (jget "approved" q))) | _ => Raise (OtherError "AttributeError") end.

Fixpoint approved_of (l : list json) : result (list json) :=
  match l with
  | [] => Ok []
  | q :: l' =>
      match approved_query q, approved_of l' with
      | Ok b, Ok qs => Ok (if b then q :: qs else qs)
      | Raise e, _ | _, Raise e => Raise e
      end
  end.

Definition seed_item (q : json) : result (list (string * json)) :=
  match jget "id" q, jget "text" q with
  | Some i, Some t => Ok [("id", i); ("question", t); ("expected_answer", JStr ""); ("must_cite", coalesce (truthy_of (jget "evidence_chunk_ids" q)) (JArr []))]
  | _, _ => Raise (LookupError "text")
  end.

Fixpoint seed_items (l : list json) : result (list (list (string * json))) :=
  match l with
  | [] => Ok []
  | q :: l' =>
      match seed_item q, seed_items l' with
      | Ok i, Ok items => Ok (i :: items)
      | Raise e, _ | _, Raise e => Raise e
      end
  end.

Definition seed_eval_set (st : Datasets.eval_settings) (now : timestamp) (fresh : uuid * uuid) (ctx : RequestContext) (sid : uuid) (name : option string)
    : M db Datasets.Dataset :=
  guard (match name with Some n => str_len n <=? 128 | None => true end) (HTTPException 422) ;;
  session <- get_session ctx sid ;;
  match session with
  | None => raise (HTTPException 404)
  | Some x =>
      queries <- candidate_queries ctx sid ;;
      approved <- or_raise (approved_of queries) ;;
      guard (match approved with [] => false | _ => true end) (HTTPException 409) ;;
      items <- or_raise (seed_items approved) ;;
      let n := lower (strip (coalesce (py_or name (Some (os_domain x))) "")) in
      dataset <- try_except (Datasets.save str_of st now fresh ctx n (os_collection x) items)
        (fun e => match e with
                  | OtherError c => if String.eqb c "InvalidDataset" then Some (raise (HTTPException 409)) else None
                  | _ => None
                  end) ;;
      audit_record now ctx "eval.dataset.seeded" SUCCEEDED "eval_dataset" n
        (JObj [("session_id", JStr (uuid_str sid)); ("domain", JStr (os_domain x)); ("items", JInt (count approved))]) false ;;
      ret dataset
  end.

(** What the edit route answers with. *)
Record edited := mkEdited {
  ee_result : edit_result;
  ee_schema : Artifacts.schema_report;
  ee_fit : Artifacts.fit
}.

Definition undeclared_targets (retype : gmap string string) (entity_types : list string) : list string :=
  Artifacts.sorted_set (List.filter (fun t => negb (mem entity_types t)) (map snd (map_to_list retype))).

(** [load_schema] is the engine's parser and [engine] its refusal. *)
Definition edit_route (engine : option exn) (load_schema : string → result Artifacts.taxonomy) (now : timestamp) (between : db → db)
    (ctx : RequestContext) (sid : uuid) (yaml : string) (retype : gmap string string) : M db edited :=
  guard ((1 <=? str_len yaml) && (str_len yaml <=? 400000)) (HTTPException 422) ;;
  report <- try_except (or_raise (Artifacts.validate_schema_yaml engine load_schema yaml))
    (fun e => match e with OtherError "InvalidSchema" => Some (raise (HTTPException 400)) | _ => None end) ;;
  guard (match undeclared_targets retype (Artifacts.sr_entity_types report) with [] => true | _ => false end) (HTTPException 400) ;;
  res <- http_of (edit_schema str_of now between ctx sid yaml retype) ;;
  audit_record now ctx "onboarding.schema.edited" SUCCEEDED "onboarding_session" (uuid_str sid)
    (JObj [("entity_types", JArr (map JStr (Artifacts.sr_entity_types report))); ("edge_types", JArr (map JStr (Artifacts.sr_edge_types report)));
           ("original_retained", JBool (ed_original_retained res))]) false ;;
  stored <- artifacts_for ctx sid ;;
  fit <- or_raise (Artifacts.taxonomy_fit str_of (Artifacts.sr_entity_types report) (as_singletons stored !! "instance_table")) ;;
  ret (mkEdited res report fit).

Definition approve_route (now : timestamp) (ctx : RequestContext) (sid : uuid) : M db onboarding_status :=
  try_except (approve now ctx sid)
    (fun e => match e with
              | LookupError _ => Some (raise (HTTPException 404))
              | PermissionError why =>
                  Some (audit_record now ctx "onboarding.session.approve" DENIED "onboarding_session" (uuid_str sid) (JObj [("reason", JStr why)]) false ;;
                        raise (HTTPException 403))
              | ValueError _ => Some (raise (HTTPException 409))
              | _ => None
              end).

(** In the process that serves the request. *)
Definition publish_route {V G} (now : timestamp) (ctx : RequestContext) (sid : uuid) : M (db * (V * Hybrid.process G)) (string * Z) :=
  domain <- on_db (http_of (publish now ctx sid)) ;;
  dropped <- Hybrid.on_process (Hybrid.invalidate (Some ctx)) ;;
  ret (domain, dropped).

Definition cancel_route (now : timestamp) (ctx : RequestContext) (sid : uuid) : M db unit :=
  stopped <- cancel now ctx sid ;;
  guard stopped (HTTPException 409).

End routes.

(** * A draft and its session *)

Section session.
Variables (sid t : uuid) (d0 : db).

(** The rows of others, in both tables. *)
Definition others_kept (d : db) : Prop :=
  delete_where (by_id sid) (onboardings d) = delete_where (by_id sid) (onboardings d0) ∧
  delete_where (of_session sid) (artifacts d) = delete_where (of_session sid) (artifacts d0).

Definition in_state (status : onboarding_status) (d : db) : Prop :=
  ∃ x, In x (onboardings d) ∧ os_id x = sid ∧ os_tenant x = t ∧ os_status x = status.

Definition held (status : onboarding_status) (d : db) : Prop := onboarding_wf d ∧ owned t sid d ∧ others_kept d ∧ in_state status d.

(** The session as it was when the draft began, but for its progress and artifacts. *)
Definition at_work (d : db) : Prop := held on_drafting d.

Lemma at_work_same d d' : drafts d' = drafts d → at_work d → at_work d'.
Proof using.
  unfold drafts. intros [= E1 E2] (W & O & [K1 K2] & (x & S)). split; [by apply (onboarding_wf_same d)|]. split; [|split].
  - intros y. rewrite E2. apply O.
  - split; by rewrite ?E1, ?E2.
  - exists x. by rewrite E1.
Qed.

(** An update of the session's row that publishes nothing. *)
Lemma update_mine ctx f status d : tenant_of ctx = t → at_work d →
  (∀ x, os_id (f x) = os_id x ∧ os_tenant (f x) = os_tenant x ∧ session_ok (f x) = session_ok x) →
  (∀ x, os_status x = on_drafting → os_status (f x) = status) → status ≠ on_published →
  ∃ l d', update_sessions (visible (tenant_of ctx) (by_id sid)) f d = (Ok l, d') ∧ held status d' ∧ artifacts d' = artifacts d ∧
    ∃ x, In x (onboardings d) ∧ os_id x = sid ∧ os_status x = on_drafting ∧ In (f x) (onboardings d').
Proof using.
  intros Ht (W & O & [K1 K2] & (x & Hx & Hi & Hxt & Hs)) Hf Hst Hne. set (p := visible (tenant_of ctx) (by_id sid)).
  assert (Hp : ∀ y, In y (onboardings d) → p y = true → y = x).
  { intros y Hy Hpy. apply by_session_id_spec in Hpy as [_ Hpy]. apply (one_by_id d y x W Hy Hx). by rewrite Hpy. }
  assert (Hpx : p x = true) by (apply by_session_id_spec; by rewrite Ht).
  assert (Hids : map os_id (update_where p f (onboardings d)) = map os_id (onboardings d)) by (apply map_update_where; intros y; apply Hf).
  assert (Hone : one_published (update_where p f (onboardings d)) = true).
  { apply one_published_spec; [rewrite Hids; apply W|]. intros y z Hy Hz Py Pz E. apply in_update_where in Hy as (y0 & Hy & ->), Hz as (z0 & Hz & ->).
    assert (Hnp : ∀ w, In w (onboardings d) → is_published (if p w then f w else w) = true → p w = false).
    { intros w Hw Pw. destruct (p w) eqn:Ew; [|done]. apply Hp in Ew as ->; [|done]. unfold is_published in Pw. apply bool_decide_eq_true_1 in Pw.
      rewrite (Hst x Hs) in Pw. done. }
    pose proof (Hnp y0 Hy Py) as A1. pose proof (Hnp z0 Hz Pz) as A2. rewrite A1 in Py, E. rewrite A2 in Pz, E. rewrite A1, A2. apply (proj1 (one_published_spec _ (ow_ids d W)) (ow_one d W)); done. }
  eexists _, (d <| onboardings := update_where p f (onboardings d) |>). split.
  { apply update_sessions_run; [|done]. apply checks_same; [intros y; apply Hf|apply W]. }
  split; [split; [|split; [|split]]|split].
  - constructor; cbn; [rewrite Hids; apply W|apply checks_same; [intros y; apply Hf|apply W]|done|apply W].
  - exact O.
  - split; [|exact K2]. rewrite <- K1. apply delete_update_same.
    + intros y Hy. apply by_session_id_spec in Hy as [_ Hy]. by apply N.eqb_eq.
    + intros y. unfold by_id. by rewrite (proj1 (Hf y)).
  - exists (f x). destruct (Hf x) as (F1 & F2 & _). rewrite F1, F2, (Hst x Hs). split; [|done]. apply in_update_where. exists x. by rewrite Hpx.
  - done.
  - exists x. split; [done|split; [done|split; [done|]]]. apply in_update_where. exists x. by rewrite Hpx.
Qed.

Lemma at_work_artifacts d l : at_work d → List.NoDup (map artifact_key l) → (∀ y, In y l → oa_session y = sid → oa_tenant y = t) →
  delete_where (of_session sid) l = delete_where (of_session sid) (artifacts d) → at_work (d <| artifacts := l |>).
Proof using.
  intros (W & O & [K1 K2] & S) Hn Ho Hd. split; [|split; [exact Ho|split; [|exact S]]].
  - constructor; cbn; [apply W..|done].
  - split; [exact K1|]. rewrite <- K2. exact Hd.
Qed.

Lemma put_artifact_cases now ctx kind name v d r d' : tenant_of ctx = t → at_work d → put_artifact now ctx sid kind name v d = (r, d') →
  (∃ e, r = Raise e ∧ d' = d) ∨
  r = Ok tt ∧ at_work d' ∧ onboardings d' = onboardings d ∧ stored sid kind name d' = Some v ∧
  ∀ k n, (k, n) ≠ (kind, name) → stored sid k n d' = stored sid k n d.
Proof using.
  intros Ht A E. pose proof A as (W & O & _). unfold put_artifact in E. destruct (tx_cases _ _ _ _ E) as [(e & -> & ->)|(x & -> & Et)]; [left; by exists e|].
  right. destruct x. apply bind_ok in Et as ([] & d1 & E1 & Et). assert (d1 = d) as -> by (by apply guard_ok in E1 as [_ ->]). clear E1.
  apply bind_ok in Et as (d2 & d3 & E2 & Et). injection E2 as <- <-. apply bind_ok in Et as ([] & d4 & E4 & Et).
  assert (d4 = d) as -> by (by apply guard_ok in E4 as [_ ->]). clear E4. set (p := named sid kind name) in *.
  assert (Hns : ∀ y, p y = true → oa_session y = sid) by (intros y Hy; apply named_artifact_spec in Hy; unfold artifact_key in Hy; congruence).
  assert (Hof : ∀ y, p y = true → of_session sid y = true) by (intros y Hy; apply N.eqb_eq; by apply Hns).
  assert (Hne : ∀ k n y, (k, n) ≠ (kind, name) → p y = true → named sid k n y = false).
  { intros k n y Hk Hy. apply not_true_iff_false. intros Hy'. apply named_artifact_spec in Hy, Hy'. apply Hk. congruence. }
  split; [done|]. destruct (select_where p (artifacts d)) as [|y l] eqn:El.
  - set (y := mkArtifact (tenant_of ctx) sid kind name v now) in *. injection Et as <-. assert (Hy : p y = true) by (by apply named_artifact_spec).
    split; [|split; [done|split]].
    + apply at_work_artifacts; [done|apply (artifact_insert_wf y d W El)| |].
      * intros z Hz Hs. apply in_app_iff in Hz as [Hz|[<-|[]]]; [by apply O|exact Ht].
      * rewrite delete_where_app. unfold delete_where at 2. cbn. unfold of_session. cbn. rewrite N.eqb_refl. cbn. by rewrite app_nil_r.
    + unfold stored. change (artifacts (d <| artifacts := ?q |>)) with q. fold p. rewrite select_where_app, El. unfold select_where. cbn [List.filter]. by rewrite Hy.
    + intros k n Hk. unfold stored. change (artifacts (d <| artifacts := ?q |>)) with q. rewrite select_where_app. unfold select_where at 2. cbn [List.filter].
      by rewrite (Hne _ _ _ Hk Hy), app_nil_r.
  - apply bind_ok in Et as ([] & d5 & E5 & Et). assert (d5 = d) as -> by (by apply guard_ok in E5 as [_ ->]). injection Et as <-.
    set (f := fun x : onboarding_artifact => x <| oa_payload := v |> <| oa_created_at := now |>).
    split; [|split; [done|split]].
    + apply at_work_artifacts; [done| | |].
      * rewrite map_update_where by done. apply W.
      * intros z Hz Hs. apply in_update_where in Hz as (w & Hw & ->). destruct (p w); exact (O w Hw Hs).
      * by apply delete_update_same.
    + unfold stored. change (artifacts (d <| artifacts := ?q |>)) with q. fold p. rewrite select_update_comm by done. rewrite El.
      assert (Hy : p y = true) by (apply (filter_In p y (artifacts d)); unfold select_where in El; rewrite El; by left).
      unfold update_where. cbn [map hd_error option_map]. by rewrite Hy.
    + intros k n Hk. unfold stored. change (artifacts (d <| artifacts := ?q |>)) with q. rewrite select_update_same; [done|].
      intros z Hz. split; [by apply Hne|]. change (named sid k n (f z)) with (named sid k n z). by apply Hne.
Qed.

Context {V : Type} {engine : DraftEngine V}.
Variable ctx : RequestContext.
Hypothesis my_tenant : tenant_of ctx = t.

Lemma progress_at_work now entry : preserves at_work (append_progress now ctx sid entry).
Proof using my_tenant.
  intros d A. set (f := fun x : onboarding_session => x <| os_progress := os_progress x ++ [entry] |> <| os_updated_at := now |>).
  destruct (update_mine ctx f on_drafting d my_tenant A) as (l & d' & E & H & _); [done|done|done|].
  unfold append_progress, tenant_session, tx, bind. fold f. by rewrite E.
Qed.

Lemma set_status_run now status error stats d : at_work d → status ≠ on_published →
  ∃ d', set_status now ctx sid status error stats d = (Ok tt, d') ∧ held status d' ∧ artifacts d' = artifacts d ∧
    ∃ x, os_id x = sid ∧ In (with_status now status error stats x) (onboardings d').
Proof using my_tenant.
  intros A Hne. destruct (update_mine ctx (with_status now status error stats) status d my_tenant A) as (l & d' & E & H & Ha & (x & _ & Hx & _ & Hin)); [done|done|done|].
  exists d'. unfold set_status, tenant_session, tx, bind. rewrite E. split; [done|split; [done|split; [done|by exists x]]].
Qed.

Lemma write_status_run fault now status error stats (s : db * V) : at_work s.1 → status ≠ on_published →
  (∃ e, fault = Some e ∧ write_status fault now ctx sid status error stats s = (Raise e, s)) ∨
  fault = None ∧ ∃ d', write_status fault now ctx sid status error stats s = (Ok tt, (d', s.2)) ∧ held status d' ∧ artifacts d' = artifacts s.1 ∧
    ∃ x, os_id x = sid ∧ In (with_status now status error stats x) (onboardings d').
Proof using my_tenant.
  intros A Hne. unfold write_status. destruct fault as [e|]; [left; by exists e|]. right. split; [done|].
  destruct (set_status_run now status error stats s.1 A Hne) as (d' & E & H). exists d'. split; [|exact H]. unfold on_db. by rewrite E.
Qed.

Lemma db_at_work {A} (m : M db A) : preserves at_work m → preserves (fun s : db * V => at_work s.1) (on_db m).
Proof using. intros H [d v] A1. unfold on_db. cbn [fst snd] in *. specialize (H d A1). by destruct (m d). Qed.

Lemma same_at_work {A} (m : M db A) : (∀ d, (m d).2 = d) → preserves at_work m.
Proof using. intros H d A1. by rewrite H. Qed.

Lemma analyze_at_work now domain texts : preserves (fun s : db * V => at_work s.1) (de_analyze ctx domain texts (on_progress now ctx sid)).
Proof using my_tenant.
  set (view := fun v : list onboarding_session * list onboarding_artifact => empty_db <| onboardings := v.1 |> <| artifacts := v.2 |>).
  assert (Hv : ∀ d, at_work (view (drafts d)) ↔ at_work d) by (intros d; split; apply at_work_same; done).
  intros s A. apply Hv. apply (analyze_only_reports (fun v => at_work (view v)) ctx domain texts (on_progress now ctx sid)); [|by apply Hv].
  intros step note i n. assert (H : preserves (fun s : db * V => at_work s.1) (on_progress now ctx sid step note i n)).
  { unfold on_progress. apply preserves_bind; [apply db_at_work, same_at_work, Leases.cancellation_point_same|].
    intros _. apply db_at_work, progress_at_work. }
  intros s1 A1. apply Hv, H. by apply Hv.
Qed.

Lemma put_cases later kind name v (s : db * V) r s' : at_work s.1 → put later ctx sid kind name v s = (r, s') →
  at_work s'.1 ∧ (r = Ok tt → stored sid kind name s'.1 = Some v ∧ ∀ k n, (k, n) ≠ (kind, name) → stored sid k n s'.1 = stored sid k n s.1).
Proof using my_tenant.
  intros A E. apply on_db_inv in E as [E _]. apply put_artifact_cases in E as [(e & -> & ->)|(-> & H & _ & H1 & H2)]; done.
Qed.

Definition artifact : Type := string * string * json.

Definition put_each (later : timestamp) (e : artifact) : M (db * V) unit := put later ctx sid e.1.1 e.1.2 e.2.

Lemma puts_run later (l : list artifact) (s : db * V) r s' : List.NoDup (map fst l) → at_work s.1 → for_each l (put_each later) s = (r, s') →
  at_work s'.1 ∧ (r = Ok tt → (∀ e, In e l → stored sid e.1.1 e.1.2 s'.1 = Some e.2) ∧
    ∀ k n, ¬ In (k, n) (map fst l) → stored sid k n s'.1 = stored sid k n s.1).
Proof using my_tenant.
  revert s. induction l as [|[[k v] w] l IH]; intros s Hn A E; cbn [for_each] in E.
  - injection E as <- <-. done.
  - cbn [map] in Hn. apply NoDup_cons_iff in Hn as [Hk Hn]. cbn [fst] in Hk.
    apply bind_cases in E as [(e & E & ->)|([] & s1 & E1 & E)]; [by apply put_cases in E as [H _]|].
    apply put_cases in E1 as [A1 H1]; [|done]. destruct (H1 eq_refl) as [S1 O1]. cbn [fst snd] in S1, O1. apply IH in E as [A2 H2]; [|done|done].
    split; [done|]. intros Hr. destruct (H2 Hr) as [S2 O2]. split.
    + intros e [<-|He]; [|by apply S2]. cbn [fst snd]. by rewrite O2.
    + intros k' n' Hin. cbn [map fst] in Hin. rewrite O2 by (intros Hi; apply Hin; by right). apply O1. intros Eq. apply Hin. left. by rewrite Eq.
Qed.

(** What an analysis leaves to be kept. *)
Definition produced_list (yaml : string) (c : Artifacts.captured) : list artifact :=
  let opt (kind : string) (v : option json) : list artifact := match v with Some v => [(kind, kind, v)] | None => [] end in
  opt "schema" (yaml_json yaml) ++ opt "instance_table" (Artifacts.cp_instance_table c) ++ opt "predicate_map" (Artifacts.cp_predicate_map c) ++
  map (fun e => ("extraction_cache", e.1, e.2)) (map_to_list (Artifacts.cp_extraction_cache c)).

Lemma keep_as_list later yaml c (s : db * V) : keep_produced later ctx sid yaml c s = for_each (produced_list yaml c) (put_each later) s.
Proof using.
  assert (Hmap : ∀ (l : list (string * json)) (s : db * V), for_each l (fun e => put later ctx sid "extraction_cache" e.1 e.2) s =
    for_each (map (fun e => ("extraction_cache", e.1, e.2)) l) (put_each later) s).
  { induction l as [|e l IH]; intros s0; [done|]. cbn [for_each map]. unfold bind. change (put_each later ("extraction_cache", e.1, e.2) s0) with
      (put later ctx sid "extraction_cache" e.1 e.2 s0). destruct (put later ctx sid "extraction_cache" e.1 e.2 s0) as [[[]|]]; [apply IH|done]. }
  assert (Hopt : ∀ kind v (k : M (db * V) unit) l, (∀ s, k s = for_each l (put_each later) s) → ∀ s,
    (put_opt later ctx sid kind v ;; k) s = for_each (match v with Some v => [(kind, kind, v)] | None => [] end ++ l) (put_each later) s).
  { intros kind v k l Hk s0. destruct v as [v|]; [|apply Hk]. cbn [app for_each]. unfold bind, put_opt, put_each. cbn [fst snd].
    destruct (put later ctx sid kind kind v s0) as [[[]|]]; [apply Hk|done]. }
  unfold keep_produced, produced_list. apply Hopt. intros s1. apply Hopt. intros s2. apply Hopt. intros s3. apply Hmap.
Qed.

Lemma produced_nodup yaml c : List.NoDup (map fst (produced_list yaml c)).
Proof using.
  assert (Hc : List.NoDup (map fst (map (fun e : string * json => ("extraction_cache", e.1, e.2)) (map_to_list (Artifacts.cp_extraction_cache c))))).
  { rewrite map_map. cbn [fst]. rewrite <- (map_map fst (fun n => ("extraction_cache", n))). apply NoDup_ListNoDup.
    apply (NoDup_fmap_2_strong (fun n => ("extraction_cache", n))); [by intros a b _ _ [= ->]|apply (NoDup_fst_map_to_list (Artifacts.cp_extraction_cache c))]. }
  assert (Hk : ∀ k n, In (k, n) (map fst (map (fun e : string * json => ("extraction_cache", e.1, e.2)) (map_to_list (Artifacts.cp_extraction_cache c)))) → k = "extraction_cache").
  { intros k n Hin. rewrite map_map in Hin. by apply in_map_iff in Hin as (e & [= <- _] & _). }
  unfold produced_list. destruct (yaml_json yaml), (Artifacts.cp_instance_table c), (Artifacts.cp_predicate_map c); cbn [app map fst];
    repeat (apply List.NoDup_cons; [cbn [In]; intros Hin; repeat (destruct Hin as [[=]|Hin]); by apply Hk in Hin|]); exact Hc.
Qed.

(** The end of a draft: the questions, then the status. *)
Lemma finish_draft fault later (l : list artifact) (qs : list json) stats (s : db * V) r s' : at_work s.1 →
  (∀ e, In e l → stored sid e.1.1 e.1.2 s.1 = Some e.2 ∧ e.1 ≠ ("candidate_queries", "candidate_queries")) →
  ((match qs with [] => ret tt | q :: l' => put later ctx sid "candidate_queries" "candidate_queries" (JObj [("queries", JArr (q :: l'))]) end) ;;
   write_status fault later ctx sid on_draft_ready None (Some stats) ;; ret (DraftReady stats)) s = (r, s') →
  (∃ e, r = Raise e ∧ at_work s'.1) ∨
  fault = None ∧ r = Ok (DraftReady stats) ∧ held on_draft_ready s'.1 ∧ (∃ x, In x (onboardings s'.1) ∧ os_id x = sid ∧ os_stats x = stats) ∧
    ∀ e, In e l → stored sid e.1.1 e.1.2 s'.1 = Some e.2.
Proof using my_tenant.
  intros A Hl E. assert (H : ∀ r0 s0, (match qs with [] => ret tt | q :: l' => put later ctx sid "candidate_queries" "candidate_queries" (JObj [("queries", JArr (q :: l'))]) end) s = (r0, s0) →
    at_work s0.1 ∧ (r0 = Ok tt → ∀ e, In e l → stored sid e.1.1 e.1.2 s0.1 = Some e.2)).
  { intros r0 s0 Eq. destruct qs; [injection Eq as <- <-; split; [done|]; intros _ e He; exact (proj1 (Hl e He))|].
    apply put_cases in Eq as [A1 H1]; [|done]. split; [done|]. intros Hr e He. destruct (Hl e He) as [Hs Hne]. destruct (H1 Hr) as [_ Ho]. rewrite Ho; [done|]. by destruct e as [[k n] w]. }
  apply bind_cases in E as [(e & E & ->)|([] & s1 & E1 & E)]; [left; exists e; split; [done|apply (H _ _ E)]|].
  apply H in E1 as [A1 S1]. specialize (S1 eq_refl).
  destruct (write_status_run fault later on_draft_ready None (Some stats) s1 A1) as [(e & -> & Eo)|(-> & d' & Eo & Hh & Ha & (x & Hx & Hin))]; [done| |].
  { unfold bind in E. rewrite Eo in E. injection E as <- <-. left. by exists e. }
  rewrite (run_bind _ _ _ _ _ Eo) in E. injection E as <- <-. right. split; [done|]. split; [done|]. cbn [fst]. split; [done|]. split; [by eexists|].
  intros e He. unfold stored. rewrite Ha. by apply S1.
Qed.

Lemma produced_kinds yaml c e : In e (produced_list yaml c) → e.1 ≠ ("candidate_queries", "candidate_queries").
Proof using.
  unfold produced_list. intros Hin. rewrite !in_app_iff in Hin. destruct Hin as [Hin|[Hin|[Hin|Hin]]].
  - destruct (yaml_json yaml); [|done]. by destruct Hin as [<-|[]].
  - destruct (Artifacts.cp_instance_table c); [|done]. by destruct Hin as [<-|[]].
  - destruct (Artifacts.cp_predicate_map c); [|done]. by destruct Hin as [<-|[]].
  - by apply in_map_iff in Hin as (y & <- & _).
Qed.

Variables (int_of : json → result Z) (loads : string → option json) (sha256 : string → string) (error_text : exn → string).
Variables (install_fault : option exn) (meanwhile : db → db) (status_fault : option exn) (now later : timestamp).

(** The analysis that a finished draft rests on, all of it kept for review. *)
Definition kept_analysis (p : draft_payload) (texts : list string) (d : db) : Prop :=
  ∃ (s1 s2 : db * V) a disk produced, de_analyze ctx (lower (strip (dp_domain p))) texts (on_progress now ctx sid) s1 = (Ok (a, disk), s2) ∧
    Artifacts.capture loads scratch_root (lower (strip (dp_domain p))) disk = Ok produced ∧
    ∀ e, In e (produced_list (an_yaml a) produced) → stored sid e.1.1 e.1.2 d = Some e.2.

Lemma corpus_same c d : (corpus_of sha256 ctx c d).2 = d.
Proof using.
  unfold corpus_of, bind, Builds.fingerprint, Builds.live_version_or_none, try_except, Builds.live_version, tenant_session, Builds.query_live, tx, sql_select, gets, bind, one_or_none.
  destruct (select_where _ _) as [|b [|b' l]]; done.
Qed.

Lemma propose_drafts documents n (s : db * V) : drafts (_propose_queries int_of error_text ctx documents n s).2.1 = drafts s.1.
Proof using.
  unfold _propose_queries. destruct documents as [|p l]; [done|]. unfold try_except, bind, or_raise, ret, raise.
  destruct (_chunk_views int_of (p :: l)) as [views|e]; [|done]. pose proof (propose_keeps_drafts ctx views n s) as H.
  by destruct (de_propose ctx views n s) as [[q|e] s'].
Qed.

Lemma draft_run p documents texts (s : db * V) r s' : dp_session p = sid → at_work s.1 →
  draft int_of loads sha256 error_text status_fault now later ctx p documents texts s = (r, s') →
  (∃ e, r = Raise e ∧ at_work s'.1) ∨
  ∃ stats, status_fault = None ∧ r = Ok (DraftReady stats) ∧ held on_draft_ready s'.1 ∧ (∃ x, In x (onboardings s'.1) ∧ os_id x = sid ∧ os_stats x = stats) ∧
    kept_analysis p texts s'.1.
Proof using my_tenant.
  intros Hp A E. unfold draft in E. rewrite Hp in E.
  apply bind_cases in E as [(e & E & ->)|([a disk] & s1 & Ea & E)].
  { left. exists e. split; [done|]. pose proof (analyze_at_work now (lower (strip (dp_domain p))) texts s A) as H. by rewrite E in H. }
  pose proof (analyze_at_work now (lower (strip (dp_domain p))) texts s A) as A1. rewrite Ea in A1. cbn [snd fst] in A1, E.
  apply bind_cases in E as [(e & E & ->)|(produced & s2 & Ec & E)]; unfold or_raise in *.
  { left. exists e. split; [done|]. by destruct (Artifacts.capture _ _ _ _); injection E as _ <-. }
  destruct (Artifacts.capture loads scratch_root _ disk) as [c|e] eqn:Ecap; [|done]. injection Ec as -> <-.
  set (l := produced_list (an_yaml a) produced).
  apply bind_cases in E as [(e & E & ->)|([] & s3 & Ek & E)].
  { left. exists e. rewrite keep_as_list in E. by apply puts_run in E as [H _]; [|apply produced_nodup|]. }
  rewrite keep_as_list in Ek. apply puts_run in Ek as [A3 K3]; [|apply produced_nodup|done]. destruct (K3 eq_refl) as [S3 _]. clear K3. fold l in S3.
  apply bind_cases in E as [(e & E & ->)|(n1 & s4 & E4 & E)]; [left; exists e; destruct (len_of _ _); by injection E as _ <-|].
  assert (s4 = s3) as -> by (destruct (len_of _ _); by injection E4). clear E4.
  apply bind_cases in E as [(e & E & ->)|(n2 & s4 & E4 & E)]; [left; exists e; destruct (len_of _ _); by injection E as _ <-|].
  assert (s4 = s3) as -> by (destruct (len_of _ _); by injection E4). clear E4.
  assert (Hcorpus : ∀ r0 s0, on_db (corpus_of sha256 ctx (dp_collection p)) s3 = (r0, s0) → s0 = s3).
  { intros r0 s0 Eo. apply on_db_inv in Eo as [Eo Ew]. pose proof (corpus_same (dp_collection p) s3.1) as H. rewrite Eo in H. cbn in H. destruct s0, s3. cbn in *. congruence. }
  apply bind_cases in E as [(e & E & ->)|(corpus & s4 & E4 & E)]; [left; exists e; by apply Hcorpus in E as ->|]. apply Hcorpus in E4 as ->.
  apply bind_cases in E as [(e & E & ->)|(proposed & s4 & E4 & E)].
  { left. exists e. split; [done|]. pose proof (propose_drafts documents (match dp_n_queries p with Some n => if n =? 0 then DEFAULT_QUERIES else n | None => DEFAULT_QUERIES end) s3) as H.
    rewrite E in H. by apply (at_work_same s3.1). }
  assert (Hd : drafts s4.1 = drafts s3.1) by (etransitivity; [|apply propose_drafts]; by rewrite E4). clear E4.
  assert (A4 : at_work s4.1) by (by apply (at_work_same s3.1)).
  assert (S4 : ∀ e, In e l → stored sid e.1.1 e.1.2 s4.1 = Some e.2) by (unfold drafts in Hd; injection Hd as _ Hd; intros e He; unfold stored; rewrite Hd; by apply S3).
  apply (finish_draft status_fault later l proposed.1 _ s4) in E as [H|(-> & -> & H1 & H2 & H3)]; [by left| |done|].
  - right. eexists. split; [reflexivity|]. split; [reflexivity|]. split; [done|split; [done|]]. by exists s, s1, a, disk, produced.
  - intros e He. split; [by apply S4|]. by apply (produced_kinds (an_yaml a) produced).
Qed.

End session.

Section runs.
Context {V : Type} {engine : DraftEngine V}.
Variables (int_of : json → result Z) (loads : string → option json) (sha256 : string → string) (error_text : exn → string).
Variables (install_fault : option exn) (meanwhile : db → db) (status_fault : option exn) (now later : timestamp) (ctx : RequestContext) (p : draft_payload).
Notation sid := (dp_session p).
Notation t := (tenant_of ctx).
Notation drafting_run := (run int_of loads sha256 error_text install_fault meanwhile status_fault now later ctx p).

Lemma get_session_run d x : onboarding_wf d → In x (onboardings d) → os_id x = sid → os_tenant x = t → get_session ctx sid d = (Ok (Some x), d).
Proof using.
  intros W Hx Hi Ht. unfold get_session, tenant_session, tx, find_session, bind, sql_select, gets. cbn [rows table_onboardings].
  rewrite (select_by_key os_id (visible t (by_id sid)) _ x); [done|apply W|done|by apply by_session_id_spec|].
  intros y _ Hy. apply by_session_id_spec in Hy as [_ Hy]. congruence.
Qed.

Lemma cancellation_cases (s : db * V) r s' : on_db (Leases.cancellation_point ctx) s = (r, s') → s' = s.
Proof using.
  intros E. apply on_db_inv in E as [E Ew]. pose proof (Leases.cancellation_point_same ctx s.1) as H. rewrite E in H. cbn in H.
  destruct s, s'. cbn in *. congruence.
Qed.

(** A session that is not being drafted is left as it is, by every run. *)
Lemma run_elsewhere x s r s' : onboarding_wf s.1 → In x (onboardings s.1) → os_id x = sid → os_tenant x = t → os_status x ≠ on_drafting →
  drafting_run s = (r, s') → s' = s ∧ (r = Ok (AlreadyDone (os_status x)) ∨ ∃ e, r = Raise e).
Proof using.
  intros W Hx Hi Ht Hs E. unfold run in E. apply bind_cases in E as [(e & E & ->)|([] & s1 & E1 & E)].
  { apply cancellation_cases in E. split; [done|]. right. by exists e. }
  apply cancellation_cases in E1 as ->. assert (Eg : on_db (get_session ctx sid) s = (Ok (Some x), s)).
  { unfold on_db. rewrite (get_session_run s.1 x) by done. by destruct s. }
  rewrite (run_bind _ _ _ _ _ Eg) in E. rewrite bool_decide_false in E by done. injection E as <- <-. split; [done|by left].
Qed.

(** What a run of a session that is being drafted comes to; where the database refuses the
    status the run raises, and the session is left drafting. *)
Definition settles (s s' : db * V) (r : result draft_outcome) : Prop :=
  match r with
  | Ok (DraftReady stats) => status_fault = None ∧ held sid t s.1 on_draft_ready s'.1 ∧
      (∃ y, In y (onboardings s'.1) ∧ os_id y = sid ∧ os_stats y = stats) ∧
      ∃ texts, kept_analysis (V := V) sid ctx loads now p texts s'.1
  | Ok EmptyCorpus => status_fault = None ∧ held sid t s.1 on_failed s'.1
  | Ok _ => False
  | Raise _ => s' = s ∨ match status_fault with None => held sid t s.1 on_failed s'.1 | Some _ => at_work sid t s.1 s'.1 end
  end.

(** Others leave the sessions and their artifacts alone. *)
Hypothesis undisturbed : ∀ d, drafts (meanwhile d) = drafts d.

Lemma run_drafting x s r s' : onboarding_wf s.1 → owned t sid s.1 → In x (onboardings s.1) → os_id x = sid → os_tenant x = t → os_status x = on_drafting →
  drafting_run s = (r, s') → settles s s' r.
Proof using undisturbed.
  intros W O Hx Hi Ht Hs E. unfold run in E. apply bind_cases in E as [(e & E & ->)|([] & s1 & E1 & E)].
  { apply cancellation_cases in E. by left. }
  apply cancellation_cases in E1 as ->. assert (Eg : on_db (get_session ctx sid) s = (Ok (Some x), s)).
  { unfold on_db. rewrite (get_session_run s.1 x) by done. by destruct s. }
  rewrite (run_bind _ _ _ _ _ Eg) in E. rewrite bool_decide_true in E by done. cbn [negb] in E.
  apply bind_cases in E as [(e & E & ->)|([] & s1 & E1 & E)]; [destruct install_fault; injection E as _ <-; by left|].
  assert (s1 = s) as -> by (by destruct install_fault; injection E1). clear E1.
  assert (A : at_work sid t s.1 s.1) by (split; [done|split; [done|split; [done|by exists x]]]).
  assert (Hd : ∀ r0 s0, on_db (Hybrid.load_documents ctx (dp_collection p)) s = (r0, s0) → s0 = s).
  { intros r0 s0 Eo. apply on_db_inv in Eo as [Eo Ew]. pose proof (Hybrid.load_documents_same ctx (dp_collection p) s.1) as H. rewrite Eo in H. cbn in H.
    destruct s, s0. cbn in *. congruence. }
  apply bind_cases in E as [(e & E & ->)|(documents & s1 & E2 & E)]; [apply Hd in E as ->; by left|]. apply Hd in E2 as ->.
  assert (Hfail : ∀ at_ txt (k : M (db * V) draft_outcome) (s1 : db * V) r, at_work sid t s.1 s1.1 →
    (write_status status_fault at_ ctx sid on_failed (Some txt) None ;; k) s1 = (r, s') →
    match status_fault with None => ∃ s2, held sid t s.1 on_failed s2.1 ∧ k s2 = (r, s') | Some e => r = Raise e ∧ s' = s1 end).
  { intros at_ txt k s1 r0 A1 Ef. destruct (write_status_run sid t s.1 ctx eq_refl status_fault at_ on_failed (Some txt) None s1 A1) as [(e & He & Eo)|(He & d' & Eo & Hh & _)]; [done| |];
      rewrite He; [|rewrite (run_bind _ _ _ _ _ Eo) in Ef; by exists (d', s1.2)].
    unfold bind in Ef. rewrite Eo in Ef. by injection Ef as <- <-. }
  destruct documents as [|d0 documents].
  - apply Hfail in E; [|done]. destruct status_fault as [e|] eqn:Hf; [destruct E as [-> ->]; by left|]. destruct E as (s2 & Hh & E). injection E as <- <-. cbn. by rewrite Hf.
  - set (texts := firstn _ _) in E. set (entry := sample_json _ _ _) in E.
    apply bind_cases in E as [(e & E & ->)|([] & s1 & E1 & E)].
    { destruct (update_mine sid t s.1 ctx (fun x => x <| os_progress := os_progress x ++ [entry] |> <| os_updated_at := now |>) on_drafting s.1 eq_refl A)
        as (l & d' & Eu & _); [done|done|done|]. unfold on_db, append_progress, tenant_session, tx, bind in E. by rewrite Eu in E. }
    assert (A0 : at_work sid t s.1 s1.1) by (apply on_db_inv in E1 as [E1 _]; pose proof (progress_at_work sid t s.1 ctx eq_refl now entry s.1 A) as H; by rewrite E1 in H).
    set (s2 := (meanwhile s1.1, s1.2)). change (bind (on_db (modify meanwhile)) ?k s1) with (k tt s2) in E. cbv beta in E.
    assert (A1 : at_work sid t s.1 s2.1) by (apply (at_work_same sid t s.1 s1.1); [apply undisturbed|done]).
    unfold try_except in E. destruct (draft int_of loads sha256 error_text status_fault now later ctx p (d0 :: documents) texts s2) as [[o|e] s3] eqn:Ed.
    + injection E as <- <-. apply (draft_run sid t s.1 ctx eq_refl) in Ed as [(e & [=] & _)|(stats & Hf & [= ->] & H1 & H2 & H3)]; [|done|done].
      split; [done|split; [done|split; [done|by exists texts]]].
    + apply (draft_run sid t s.1 ctx eq_refl) in Ed as [(e' & _ & A2)|(stats & _ & [=] & _)]; [|done|done].
      apply Hfail in E; [|done]. destruct status_fault as [e0|] eqn:Hf; [destruct E as [-> ->]; right; by rewrite Hf|]. destruct E as (s4 & Hh & E). injection E as <- <-. right. by rewrite Hf.
Qed.

End runs.

(** C39: a draft settles its session.  A run over a session that is being drafted, as long as
    nobody else touches the sessions and their artifacts meanwhile, ends in one of five ways:
    the session is ready for review, with the statistics of the run and with everything the
    analysis produced (its taxonomy, instance table, predicate map and each file of its
    cache) stored for the reviewer; it failed on an empty corpus; it failed with the
    exception that is raised; the run raised before it began and nothing changed; or, only
    where the database refuses the status itself, the run raised and the session is still
    drafting.  Over any other session it changes nothing, so that once a draft is settled a
    further delivery of the run changes nothing, whoever delivers it.  Other sessions and
    their artifacts never change.  ([a_cancelled_draft_is_put_up_for_review] shows a session
    that somebody else touches.) *)
Theorem a_draft_settles_its_session {V} {engine : DraftEngine V} (int_of : json → result Z) (loads : string → option json)
    (sha256 : string → string) (error_text : exn → string) (install_fault : option exn) (meanwhile : db → db) (status_fault : option exn)
    (now later : timestamp) (ctx : RequestContext) (p : draft_payload) (s : db * V) r s' x :
  (∀ d, drafts (meanwhile d) = drafts d) →
  onboarding_wf s.1 → owned (tenant_of ctx) (dp_session p) s.1 →
  In x (onboardings s.1) → os_id x = dp_session p → os_tenant x = tenant_of ctx →
  run int_of loads sha256 error_text install_fault meanwhile status_fault now later ctx p s = (r, s') →
  others_kept (dp_session p) s.1 s'.1 ∧ onboarding_wf s'.1 ∧
  (os_status x ≠ on_drafting → s' = s ∧ (r = Ok (AlreadyDone (os_status x)) ∨ ∃ e, r = Raise e)) ∧
  (os_status x = on_drafting → settles loads status_fault now ctx p s s' r) ∧
  (∀ status, in_state (dp_session p) (tenant_of ctx) status s'.1 → status ≠ on_drafting →
     ∀ fault others refused now' later' r2 s2, run int_of loads sha256 error_text fault others refused now' later' ctx p s' = (r2, s2) →
       s2 = s' ∧ (r2 = Ok (AlreadyDone status) ∨ ∃ e, r2 = Raise e)).
Proof.
  intros U W O Hx Hi Ht E.
  assert (Hc : os_status x = on_drafting → settles loads status_fault now ctx p s s' r)
    by (intros Hs; by apply (run_drafting int_of loads sha256 error_text install_fault meanwhile status_fault now later ctx p U x)).
  assert (Hn : os_status x ≠ on_drafting → s' = s ∧ (r = Ok (AlreadyDone (os_status x)) ∨ ∃ e, r = Raise e))
    by (intros Hs; by apply (run_elsewhere int_of loads sha256 error_text install_fault meanwhile status_fault now later ctx p x)).
  assert (Hw : others_kept (dp_session p) s.1 s'.1 ∧ onboarding_wf s'.1).
  { destruct (decide (os_status x = on_drafting)) as [Hs|Hs]; [|by destruct (Hn Hs) as [-> _]].
    specialize (Hc Hs). destruct r as [[| | |]|e]; cbn in Hc; [done|done|by destruct Hc as (_ & ? & _ & ? & _)| |].
    - by destruct Hc as (_ & (? & _ & ? & _) & _).
    - destruct Hc as [-> |Hc]; [done|]. destruct status_fault; by destruct Hc as (? & _ & ? & _). }
  destruct Hw as [K W']. split; [done|split; [done|split; [done|split; [done|]]]].
  intros status (y & Hy & Hyi & Hyt & <-) Hne fault others refused now' later' r2 s2 E2.
  by apply (run_elsewhere int_of loads sha256 error_text fault others refused now' later' ctx p y).
Qed.

(** * Starting a draft *)

Lemma enqueue_onboardings now fresh serial between rel trace ctx wl payload key n d r d' : (∀ d, onboardings (between d) = onboardings d) →
  enqueue_run now fresh serial between rel trace ctx wl payload key n d = (r, d') → onboardings d' = onboardings d.
Proof.
  intros Hb E. set (C := onboardings d). enough (H : preserves (fun d => onboardings d = C) (enqueue_run now fresh serial between rel trace ctx wl payload key n))
    by (specialize (H d eq_refl); by rewrite E in H).
  unfold enqueue_run. apply preserves_bind; [destruct (truthy _); [|auto with platform]; apply preserves_bind; [by intros d1 H1|auto with platform]|].
  intros [x|]; [auto with platform|]. apply preserves_bind; [intros d1 H1; cbn; by rewrite Hb|]. intros _. apply preserves_bind.
  - unfold insert_run. apply preserves_bind; [by intros d1 H1|]. intros [|y l]; [|auto with platform]. apply preserves_bind; [by intros d1 H1|auto with platform].
  - intros [i b]. destruct (negb b); [auto with platform|]. apply preserves_bind; [by intros d1 H1|auto with platform].
Qed.

(** What an admission answers: the new run, queued, or the run that has the key. *)
Lemma enqueue_answers now fresh serial between rel trace ctx wl payload key n d i b d' :
  enqueue_run now fresh serial between rel trace ctx wl payload key n d = (Ok (i, b), d') →
  let k := py_or key (Identity.idempotency_key ctx) in
  if b then i = fresh ∧ In (new_run now fresh ctx wl payload k n rel) (runs d') ∧ In (new_outbox now serial ctx fresh wl payload trace) (outboxes d')
  else ∃ x, In x (runs d') ∧ r_id x = i ∧ same_key (tenant_of ctx) k x = true.
Proof.
  intros E k. unfold enqueue_run in E. fold k in E. apply bind_ok in E as (o & d1 & E1 & E).
  assert (Ho : d1 = d ∧ ∀ x, o = Some x → In x (runs d) ∧ same_key (tenant_of ctx) k x = true).
  { destruct (truthy k); [|by injection E1 as <- <-]. apply bind_ok in E1 as (l & d2 & E2 & E1). injection E2 as <- <-.
    split; [by apply one_or_none_same in E1|]. intros x ->. destruct (select_where _ (runs d)) as [|y [|z l]] eqn:El; [done| |done]. injection E1 as -> _.
    assert (Hx : In x [x]) by (by left). rewrite <- El in Hx. apply select_visible in Hx as (_ & Hx & Hk). done. }
  destruct Ho as [-> Ho]. destruct o as [x|]; [injection E as <- <- <-; destruct (Ho x eq_refl); by exists x|].
  apply bind_ok in E as ([] & d2 & E2 & E). injection E2 as <-. apply bind_ok in E as ([j c] & d3 & E3 & E). unfold insert_run in E3.
  apply bind_ok in E3 as (l & d4 & E4 & E3). injection E4 as <- <-. cbn [rows table_runs] in E3. destruct (select_where _ (runs (between d))) as [|x l] eqn:El.
  - apply bind_ok in E3 as (u & d5 & E5 & E3). injection E5 as <- <-. injection E3 as <- <- <-. cbn [negb] in E. apply bind_ok in E as (u' & d6 & E6 & E). injection E6 as <- <-.
    injection E as <- <- <-. split; [done|]. split; cbn; apply in_app_iff; right; by left.
  - injection E3 as <- <- <-. injection E as <- <- <-. assert (Hx : In x (x :: l)) by (by left). rewrite <- El in Hx. apply filter_In in Hx as [Hx Hk]. by exists x.
Qed.

(** A domain the schema accepts is in its normal form already. *)
Lemma domain_char_lower c : domain_char c = true → lower_char c = c ∧ isspace c = false.
Proof.
  destruct c as [b0 b1 b2 b3 b4 b5 b6 b7]. destruct b0, b1, b2, b3, b4, b5, b6, b7; vm_compute; intros H; try discriminate H; by split.
Qed.

Lemma lower_domain s : forallb domain_char (String.list_ascii_of_string s) = true → lower s = s ∧ rstrip s = s ∧ lstrip s = s.
Proof.
  induction s as [|c s IH]; [done|]. cbn [String.list_ascii_of_string forallb]. intros [Hc Hs]%andb_true_iff.
  destruct (IH Hs) as (H1 & H2 & H3). apply domain_char_lower in Hc as [Hl Hsp]. split; [cbn; by rewrite Hl, H1|]. split.
  - cbn. rewrite H2. destruct s; [by rewrite Hsp|done].
  - cbn. by rewrite Hsp.
Qed.

Lemma valid_domain_normal p : valid_create p = true → lower (strip (sc_domain p)) = sc_domain p.
Proof.
  unfold valid_create. intros H. apply andb_true_iff in H as [H _]. apply andb_true_iff in H as [H _]. apply andb_true_iff in H as [H _].
  unfold valid_domain in H. destruct (sc_domain p) as [|c s] eqn:E; [done|]. rewrite !andb_true_iff in H. destruct H as [[Hc Hs] _].
  destruct (lower_domain (String c s)) as (H1 & H2 & H3).
  { cbn. unfold domain_char at 1. by rewrite Hc, Hs. }
  unfold strip. by rewrite H3, H2, H1.
Qed.

Section starting.
Context `{AuditEnv}.

(** The key a start admits its run under: the request's own or, without one, one that no other
    session has. *)
Definition draft_key (ctx : RequestContext) (domain : string) (sid : uuid) : option string :=
  py_or (py_or (Identity.idempotency_key ctx) (Some ("onboard:" +:+ domain +:+ ":" +:+ uuid_str sid))) (Identity.idempotency_key ctx).

(** The run of a session that began: its own, with its outbox row, or the one that was
    admitted under the key before. *)
Definition run_of_draft (now : timestamp) (sid fresh : uuid) (serial : Z) (rel : string) (trace : json) (ctx : RequestContext) (p : SessionCreate)
    (domain : string) (begun : SessionStarted) (d : db) : Prop :=
  let key := draft_key ctx domain sid in
  let payload := payload_json sid domain (sc_collection p) (sc_sample p) in
  if ss_run_created begun then
    ss_run begun = fresh ∧ In (new_run now fresh ctx WORKLOAD payload key 3 rel) (runs d) ∧ In (new_outbox now serial ctx fresh WORKLOAD payload trace) (outboxes d)
  else ∃ x, In x (runs d) ∧ r_id x = ss_run begun ∧ same_key (tenant_of ctx) key x = true.

Lemma start_run now fs fr serial other between rel trace ctx p d r d' :
  (∀ d, onboardings (other d) = onboardings d) → (∀ d, onboardings (between d) = onboardings d) →
  start_session now fs fr serial other between rel trace ctx p d = (Ok r, d') →
  select_where (visible (tenant_of ctx) (drafting_of (lower (strip (sc_domain p))))) (onboardings d) = [] ∧
  ∃ x, os_id x = fs ∧ os_tenant x = tenant_of ctx ∧ os_domain x = lower (strip (lower (strip (sc_domain p)))) ∧ os_status x = on_drafting ∧ os_run x = Some (ss_run r) ∧
    os_created_by x = Some (principal_uuid (principal ctx)) ∧ onboardings d' = onboardings d ++ [x] ∧
    ss_session r = fs ∧ run_of_draft now fs fr serial rel trace ctx p (lower (strip (sc_domain p))) r d'.
Proof.
  intros Ho Hb E. unfold start_session in E. apply bind_ok in E as ([] & d1 & E1 & E). apply guard_ok in E1 as [_ ->].
  apply (proj1 (tx_ok _ _ _ _)) in E. apply bind_ok in E as (l & d2 & E2 & E). injection E2 as <- <-. apply bind_ok in E as ([] & d3 & E3 & E).
  apply guard_ok in E3 as [Hl ->]. cbn [rows table_onboardings] in Hl. destruct (select_where _ (onboardings d)) as [|y l] eqn:El; [|done]. clear Hl. split; [done|].
  apply bind_ok in E as ([] & d4 & E4 & E). injection E4 as <-. apply bind_ok in E as (sid & d5 & E5 & E).
  unfold create in E5. apply bind_ok in E5 as ([] & d6 & E6 & E5). apply guard_ok in E6 as [_ ->]. apply bind_ok in E5 as (d7 & d8 & E7 & E5). injection E7 as <- <-.
  apply bind_ok in E5 as ([] & d9 & E9 & E5). apply guard_ok in E9 as [Hfresh ->]. injection E5 as <- <-. rewrite Ho in Hfresh.
  apply bind_ok in E as ([i b] & d10 & E10 & E). pose proof (enqueue_answers _ _ _ _ _ _ _ _ _ _ _ _ _ _ _ E10) as Hq. cbn zeta in Hq.
  apply enqueue_onboardings in E10; [|done]. cbn [onboardings] in E10.
  apply bind_ok in E as (u & d11 & E11 & E). apply update_sessions_ok in E11 as (_ & _ & _ & ->).
  apply bind_ok in E as ([] & d12 & E12 & E). injection E as <- <-. cbn [ss_run ss_session fst snd].
  assert (Hrun : run_of_draft now fs fr serial rel trace ctx p (lower (strip (sc_domain p))) (mkSessionStarted fs i b) d12).
  { apply bind_ok in E12 as (h & d13 & E13 & Er). injection Er as <-. apply audit_in_session_only_audit in E13.
    unfold run_of_draft. rewrite (only_audit_keeps runs _ _ E13), (only_audit_keeps outboxes _ _ E13) by done. exact Hq. }
  assert (Hd : onboardings d12 = onboardings (d10 <| onboardings := update_where (visible (tenant_of ctx) (by_id fs)) (fun x => x <| os_run := Some i |>) (onboardings d10) |>)).
  { pose proof (audit_keeps (fun d => onboardings d = onboardings (d10 <| onboardings := update_where (visible (tenant_of ctx) (by_id fs)) (fun x => x <| os_run := Some i |>) (onboardings d10) |>))
      (fun a b E1 _ E2 => eq_trans E1 E2) now ctx "onboarding.session.created" fs) as K. match type of E12 with audit_session _ _ _ _ ?detail ?d1 = _ => specialize (K detail d1 eq_refl) end. by rewrite E12 in K. }
  set (x := mkOnboarding fs (tenant_of ctx) (lower (strip (lower (strip (sc_domain p))))) (sc_collection p) on_drafting [] (JObj []) None None
    (Some (principal_uuid (principal ctx))) now now None None None None None).
  exists (x <| os_run := Some i |>). do 6 (split; [done|]). split; [|by split]. change (onboardings (_ <| onboardings := ?q |>)) with q in E10.
  rewrite Ho in E10. rewrite Hd. change (onboardings (d10 <| onboardings := ?q |>)) with q. rewrite E10. change (onboardings d ++ [mkOnboarding _ _ _ _ _ _ _ _ _ _ _ _ _ _ _ _ _]) with (onboardings d ++ [x]).
  unfold update_where. rewrite map_app. cbn [map]. f_equal.
  - rewrite <- (map_id (onboardings d)) at 2. apply map_ext_in. intros y Hy. destruct (visible (tenant_of ctx) (by_id fs) y) eqn:Ev; [|done]. exfalso.
    apply negb_true_iff, not_true_iff_false in Hfresh. apply Hfresh, existsb_exists. exists y. split; [done|]. apply by_session_id_spec in Ev as [_ Ev]. by apply N.eqb_eq.
  - by rewrite (proj2 (by_session_id_spec _ _ x)).
Qed.


End starting.

Module DraftingDemo.
Definition table : json := JObj [("instances", JArr [JObj [("entity_type", JStr "pump")]])].
Definition pmap : json := JObj [("predicate_map", JObj [("trips", JStr "CAUSES")])].
Definition loads (text : string) : option json := List.find (fun v => String.eqb (dumps_default v) text) [table; pmap; JArr [JInt 1]].
(** What the engine leaves under the scratch root. *)
Definition written : Artifacts.disk :=
  {[Artifacts.instance_table_path scratch_root "plant" := dumps_default table; Artifacts.predicate_map_path scratch_root "plant" := dumps_default pmap;
    Artifacts.extraction_cache_dir scratch_root "plant" ++ ["c1.json"] := dumps_default (JArr [JInt 1])]}.
(** An analysis that reports one step and, for an even number of calls before, succeeds. *)
Definition analyze (_ : RequestContext) (_ : string) (_ : list string) (cb : progress Z) : M (db * Z) (analysis * Artifacts.disk) :=
  cb "extract" "done" 1 1 ;;
  s <- get ;;
  modify (fun s => (s.1, s.2 + 1)) ;;
  if Z.even s.2 then ret (mkAnalysis "entity_types: [pump]" [("pump", [JStr "P-101"])] 0 JNull, written) else raise (TransientError None).
Lemma analyze_reports (I : list onboarding_session * list onboarding_artifact → Prop) ctx domain docs (cb : progress Z) :
  (∀ step note i n, preserves (fun s => I (drafts s.1)) (cb step note i n)) → preserves (fun s => I (drafts s.1)) (analyze ctx domain docs cb).
Proof.
  intros H. unfold analyze. apply preserves_bind; [apply H|]. intros _. apply preserves_bind; [by intros s Hs|]. intros s.
  apply preserves_bind; [by intros s0 Hs|]. intros _. destruct (Z.even s.2); auto with platform.
Qed.
#[export] Instance engine : DraftEngine Z := {|
  de_analyze := analyze;
  de_propose _ _ _ := ret [mkProposed "Which pump trips?" ["c_a"; "c_gone"] (JStr "m.pdf") (JInt 3) []];
  analyze_only_reports := analyze_reports;
  propose_keeps_drafts _ _ _ _ := eq_refl
|}.
Definition session (i : uuid) : onboarding_session :=
  mkOnboarding i 1 "plant" "manuals" on_drafting [] (JObj []) None (Some 42%N) (Some 11%N) 1 1 None None None None None.
Definition d0 : db := empty_db <| builds := [Builds.BuildsDemo.build 4 live] |> <| chunks := [ChatDemo.ch 4 "c_a"; ChatDemo.ch 4 "c_b"] |> <| onboardings := [session 70] |>.
Definition payload : draft_payload := mkDraftPayload 70 "plant" "manuals" 120 None.
Notation go fault s := (run (fun _ => Ok 0) loads (fun x => x) exn_class fault id None 5 9 Demo.ctx payload s).
Definition create : SessionCreate := mkSessionCreate "plant" "manuals" 120.
Notation start now i r other d := (@start_session OnboardingDemo.env now i r now other (fun x => x) "r1" (JObj []) Demo.ctx create d).
Definition statuses (d : db) : list (uuid * onboarding_status) := map (fun x => (os_id x, os_status x)) (onboardings d).
End DraftingDemo.
Import DraftingDemo.

(** A request that repeats an idempotency key is given the run of the first one: its session
    has nobody to draft it, and the domain stays occupied. *)
Example a_repeated_key_blocks_the_domain :
  let d1 := (start 1 70 42 (fun d => d) empty_db).2 in
  let d2 := (@Onboarding.cancel OnboardingDemo.env 2 Demo.ctx 70 d1).2 in
  let '(r, d3) := start 3 71 43 (fun d => d) d2 in
  r = Ok (mkSessionStarted 71 42 false) ∧ statuses d3 = [(70%N, on_cancelled); (71%N, on_drafting)] ∧ length (outboxes d3) = 1%nat ∧
  (start 4 72 44 (fun d => d) d3).1 = Raise (HTTPException 409).
Proof. by vm_compute. Qed.

(** The check and the insert are two statements: two requests that overlap both draft. *)
Example overlapping_requests_both_draft :
  statuses (start 1 71 43 (fun d => d <| onboardings := onboardings d ++ [session 70] |>) empty_db).2 = [(70%N, on_drafting); (71%N, on_drafting)].
Proof. by vm_compute. Qed.

(** A run that cannot start the engine leaves its session drafting. *)
Example a_missing_engine_leaves_it_drafting :
  let '(r, s') := go (Some Engine.GraphRAGDisabled) (d0, 0) in r = Raise Engine.GraphRAGDisabled ∧ s' = (d0, 0).
Proof. by vm_compute. Qed.

(** Alice cancels while the engine works: the session is back, ready for review. *)
Example a_cancelled_draft_is_put_up_for_review :
  let cancelled d := (@Onboarding.cancel OnboardingDemo.env 7 Demo.ctx 70 d).2 in
  let (r, s') := run (fun _ => Ok 0) loads (fun x => x) exn_class None cancelled None 5 9 Demo.ctx payload (d0, 0) in
  statuses (cancelled d0) = [(70%N, on_cancelled)] ∧ match r with Ok (DraftReady _) => True | _ => False end ∧ statuses s'.1 = [(70%N, on_draft_ready)].
Proof. vm_compute. repeat split. Qed.

(** The database refuses the status: the handler's own write fails too. *)
Example an_unwritten_status_leaves_it_drafting :
  let (r, s') := run (fun _ => Ok 0) loads (fun x => x) exn_class None id (Some (TransientError None)) 5 9 Demo.ctx payload (d0, 0) in
  r = Raise (TransientError None) ∧ statuses s'.1 = [(70%N, on_drafting)].
Proof. vm_compute. repeat split. Qed.

(** A draft that failed for a transient reason is not drafted again: the retry of its run
    reports that there is nothing to do. *)
Example a_failed_draft_is_not_retried :
  let '(r, s1) := go None (d0, 1) in
  r = Raise (TransientError None) ∧ statuses s1.1 = [(70%N, on_failed)] ∧ (go None s1).1 = Ok (AlreadyDone on_failed).
Proof. by vm_compute. Qed.

Lemma a_draft_settles_its_session_witness : ∃ stats s', go None (d0, 0) = (Ok (DraftReady stats), s') ∧
  relations_of stats = true ∧ settles loads None 5 Demo.ctx payload (d0, 0) s' (Ok (DraftReady stats)) ∧
  (go None s').1 = Ok (AlreadyDone on_draft_ready) ∧ (go None s').2 = s'.
Proof.
  destruct (go None (d0, 0)) as [r s'] eqn:E. pose proof (f_equal fst E) as Er. vm_compute in Er. cbn [fst] in Er. subst r.
  assert (W : onboarding_wf (d0, 0).1)
    by (constructor; [apply NoDup_ListNoDup, (bool_decide_unpack _); vm_compute; done|reflexivity|apply bool_decide_eq_true_2; constructor|constructor]).
  assert (O : owned (tenant_of Demo.ctx) (dp_session payload) (d0, 0).1) by (by intros y []).
  destruct (a_draft_settles_its_session (fun _ => Ok 0) loads (fun x => x) exn_class None id None 5 9 Demo.ctx payload (d0, 0) _ s' (session 70)
    (fun _ => eq_refl) W O (or_introl eq_refl) eq_refl eq_refl E) as (_ & _ & _ & H & Hagain).
  specialize (H eq_refl). eexists _, s'. split; [reflexivity|]. split; [reflexivity|]. split; [exact H|].
  destruct H as (_ & (_ & _ & _ & Hin) & _). destruct (go None s') as [r2 s2] eqn:E2.
  assert (Hne : on_draft_ready ≠ on_drafting) by discriminate.
  pose proof (Hagain on_draft_ready Hin Hne None id None 5 9 r2 s2 E2) as [H1 H2].
  destruct H2 as [H2|[e H2]].
  { split; [exact H2|exact H1]. }
  exfalso.
  assert (Es : s' = (go None (d0, 0)).2) by (by rewrite E). pose proof (f_equal fst E2) as Er. cbn [fst] in Er. rewrite H2, Es in Er.
  vm_compute in Er. discriminate Er.
Defined.

