(* ===== verification/Cassette.v ===== *)
(** Recorded model calls: [platform_core/gates/cassette.py].

    The directory is a map from paths below it to texts, each written by [put] or placed
    there by hand; a text whose fields have other types than [put] writes raises.  [render]
    is [json.dumps(..., indent=2)] and [loads] is [json.loads].  The wrapped client is the
    interface [ChatClient] with its metering, [_record], beside it. *)
From Stdlib Require Import Ascii.
From S2P Require Import Prelude Identity Json Text Db.
From S2P Require Import Chat.
From S2P Require Onboarding Artifacts Llm Ledger.
From S2P Require Import Cache.

Notation path := (list string).

Inductive mode_name := mode_off | mode_record | mode_replay.

#[export] Instance mode_eq : EqDecision mode_name.
Proof. solve_decision. Defined.

Record Interaction := mkInteraction {
  it_key : string;
  it_model : string;
  it_content : string;
  it_input_tokens : Z;
  it_output_tokens : Z;
  it_finish_reason : string
}.

(** [Cassette]: the files below its directory and its counters. *)
Record cassette := mkCassette {
  cs_files : gmap path string;
  cs_misses : list string;
  cs_hits : Z;
  cs_recorded : Z
}.

#[export] Instance eta_cassette : Eta cassette := fun c => mkCassette (cs_files c) (cs_misses c) (cs_hits c) (cs_recorded c).

Definition CassetteMiss : exn := OtherError "CassetteMiss".

Section cassette.
Variable sha256 : string → string.
Variable render : json → string.
Variable loads : string → option json.
(** [sha256(bytes).digest()]. *)
Variable digest : string → string.

Definition key_payload (r : ChatRequest) : json :=
  JObj [("model", JStr (rq_model r)); ("messages", JArr (rq_messages r)); ("temperature", opt_json (rq_temperature r));
        ("max_tokens", opt_json (option_map JInt (rq_max_tokens r))); ("tools", opt_json (option_map JArr (rq_tools r)));
        ("response_format", opt_json (rq_response_format r))].

Definition interaction_key (r : ChatRequest) : string := sha256 (utf8 (dumps true (canonical (key_payload r)))).

(** [directory / key[:2] / f"{key}.json"]. *)
Definition _path (key : string) : path := [String.substring 0 2 key; key +:+ ".json"].

Definition entry_json (key : string) (r : ChatRequest) (a : ChatResponse) : json :=
  JObj [("key", JStr key); ("model", JStr (rs_model a)); ("content", JStr (rs_content a));
        ("input_tokens", JInt (tu_input_tokens (rs_usage a))); ("output_tokens", JInt (tu_output_tokens (rs_usage a)));
        ("finish_reason", JStr (rs_finish_reason a));
        ("request", JObj [("model", JStr (rq_model r)); ("messages", JArr (rq_messages r)); ("temperature", opt_json (rq_temperature r))])].

Definition interaction_of (key : string) (data : json) : option Interaction :=
  match Onboarding.jget "model" data, Onboarding.jget "content" data, Onboarding.jget "input_tokens" data, Onboarding.jget "output_tokens" data,
        coalesce (Onboarding.jget "finish_reason" data) (JStr "stop") with
  | Some (JStr m), Some (JStr c), Some (JInt i), Some (JInt o), JStr f => Some (mkInteraction key m c i o f)
  | _, _, _, _, _ => None
  end.

Definition get (r : ChatRequest) : M cassette (option Interaction) :=
  let key := interaction_key r in
  c <- Prelude.get ;;
  match cs_files c !! _path key with
  | None => modify (fun c => c <| cs_misses := cs_misses c ++ [key] |>) ;; ret None
  | Some text =>
      match loads text with
      | None => raise (OtherError "JSONDecodeError")
      | Some data =>
          modify (fun c => c <| cs_hits := cs_hits c + 1 |>) ;;
          match interaction_of key data with Some i => ret (Some i) | None => raise (LookupError "content") end
      end
  end.

Definition put (r : ChatRequest) (a : ChatResponse) : M cassette string :=
  let key := interaction_key r in
  c <- Prelude.get ;;
  if is_some (cs_files c !! _path key) then ret key
  else
    modify (fun c => c <| cs_files := <[_path key := render (entry_json key r a)]> (cs_files c) |> <| cs_recorded := cs_recorded c + 1 |>) ;;
    ret key.

(** The order of paths: by their parts. *)
Fixpoint path_le (p q : path) : bool :=
  match p, q with
  | [], _ => true
  | _ :: _, [] => false
  | a :: p', b :: q' => if String.eqb a b then path_le p' q' else String.leb a b
  end.

Definition json_files (c : cassette) : list (path * string) :=
  List.filter (fun f => Artifacts.endswith ".json" (List.last f.1 "")) (map_to_list (cs_files c)).

Definition content_sha (c : cassette) : string :=
  sha256 (String.concat "" (map (fun f => List.last f.1 "" +:+ digest f.2) (order_by (fun a b => path_le a.1 b.1) (json_files c)))).

(** [(hits, recorded, misses, interactions)]. *)
Definition stats (c : cassette) : Z * Z * Z * Z := (cs_hits c, cs_recorded c, count (cs_misses c), count (json_files c)).

Definition to_response (cost : Q) (i : Interaction) : ChatResponse :=
  mkChatResponse (it_content i) (it_model i) (mkTokenUsage (it_input_tokens i) (it_output_tokens i) true) cost (it_finish_reason i) [] false 1.

(** * The client around another *)

Section client.
Context {V : Type}.
Notation state := (db * V * cassette)%type.
Variable inner_chat : RequestContext → ChatRequest → M (db * V) ChatResponse.
(** [_record] of the wrapped client: model, tokens in and out, cost. *)
Variable inner_record : RequestContext → string → Z → Z → Q → M (db * V) unit.

Definition on_inner {A} (m : M (db * V) A) : M state A := fun s => let (r, s') := m s.1 in (r, (s', s.2)).
Definition on_cassette {A} (m : M cassette A) : M state A := fun s => let (r, c) := m s.2 in (r, (s.1, c)).

Definition price_of (i : Interaction) : Q := Llm.price (it_model i) (it_input_tokens i) (it_output_tokens i).

Definition chat (mode : mode_name) (ctx : RequestContext) (r : ChatRequest) : M state ChatResponse :=
  match mode with
  | mode_replay =>
      recorded <- on_cassette (get r) ;;
      match recorded with
      | None => raise CassetteMiss
      | Some i =>
          on_inner (inner_record ctx (it_model i) (it_input_tokens i) (it_output_tokens i) (price_of i)) ;;
          ret (to_response (price_of i) i)
      end
  | _ =>
      response <- on_inner (inner_chat ctx r) ;;
      (if bool_decide (mode = mode_record) then on_cassette (put r response) ;; ret tt else ret tt) ;;
      ret response
  end.

(** Any number of calls, in any modes. *)
Fixpoint calls (l : list (mode_name * RequestContext * ChatRequest)) (s : state) : state :=
  match l with
  | [] => s
  | c :: l' => calls l' (chat c.1.1 c.1.2 c.2 s).2
  end.

End client.

End cassette.

(** * Lemmas *)

Section lemmas.
Variable sha256 : string → string.
Variable render : json → string.
Variable loads : string → option json.
Notation key := (interaction_key sha256).

(** What can change an answer. *)
Definition same_prompt (r r' : ChatRequest) : Prop :=
  rq_model r' = rq_model r ∧ map canonical (rq_messages r') = map canonical (rq_messages r) ∧ rq_max_tokens r' = rq_max_tokens r ∧
  canonical (opt_json (rq_temperature r')) = canonical (opt_json (rq_temperature r)) ∧
  canonical (opt_json (option_map JArr (rq_tools r'))) = canonical (opt_json (option_map JArr (rq_tools r))) ∧
  canonical (opt_json (rq_response_format r')) = canonical (opt_json (rq_response_format r)).

Lemma sorted_key_payload (m ms te mt to rf : json) :
  order_by key_le [("model", m); ("messages", ms); ("temperature", te); ("max_tokens", mt); ("tools", to); ("response_format", rf)] =
  [("max_tokens", mt); ("messages", ms); ("model", m); ("response_format", rf); ("temperature", te); ("tools", to)].
Proof using. vm_compute. reflexivity. Qed.

Lemma canonical_payload r : canonical (key_payload r) =
  JObj [("max_tokens", opt_json (option_map JInt (rq_max_tokens r))); ("messages", JArr (map canonical (rq_messages r))); ("model", JStr (rq_model r));
        ("response_format", canonical (opt_json (rq_response_format r))); ("temperature", canonical (opt_json (rq_temperature r)));
        ("tools", canonical (opt_json (option_map JArr (rq_tools r))))].
Proof using. unfold key_payload. cbn [canonical map]. rewrite sorted_key_payload. by destruct (rq_max_tokens r). Qed.

(** One key, one prompt, and the other way around. *)
Lemma key_of_prompt r r' : same_prompt r r' → key r' = key r.
Proof using.
  intros (H1 & H2 & H3 & H4 & H5 & H6). unfold interaction_key. do 3 f_equal. rewrite !canonical_payload. congruence.
Qed.

Definition wf_prompt (r : ChatRequest) : bool := wf_request r && wf_json (opt_json (rq_response_format r)).

Lemma wf_key_payload r : wf_prompt r = true → wf_json (key_payload r) = true.
Proof using.
  unfold wf_prompt, wf_request. intros H. cbn. bool_to_prop. repeat (apply andb_true_iff; split); auto. by destruct (rq_max_tokens r).
Qed.

Lemma key_inj r r' : wf_prompt r = true → wf_prompt r' = true → key r' = key r → same_prompt r r' ∨ ∃ a b, a ≠ b ∧ sha256 a = sha256 b.
Proof using.
  intros Hw Hw' E. unfold interaction_key in E.
  destruct (String.string_dec (utf8 (dumps true (canonical (key_payload r')))) (utf8 (dumps true (canonical (key_payload r))))) as [Eq|Hne]; [left|right; by eexists _, _].
  apply utf8_inj, dumps_inj in Eq; [|by apply wf_canonical, wf_key_payload..]. rewrite !canonical_payload in Eq. injection Eq as E1 E2 E3 E4 E5 E6.
  unfold same_prompt. repeat split; try done. destruct (rq_max_tokens r), (rq_max_tokens r'); cbn in E1; congruence.
Qed.

Lemma get_files r c : cs_files (get sha256 loads r c).2 = cs_files c.
Proof using.
  unfold get, bind, Prelude.get. destruct (cs_files c !! _) as [text|]; [|done]. destruct (loads text) as [data|]; [|done]. unfold modify.
  by destruct (interaction_of _ _).
Qed.

Lemma put_files r a c : cs_files (put sha256 render r a c).2 =
  if is_some (cs_files c !! _path (key r)) then cs_files c else <[_path (key r) := render (entry_json (key r) r a)]> (cs_files c).
Proof using. unfold put, bind, Prelude.get. by destruct (is_some _). Qed.

Context {V : Type}.
Variable inner_chat : RequestContext → ChatRequest → M (db * V) ChatResponse.
Variable inner_record : RequestContext → string → Z → Z → Q → M (db * V) unit.
Notation chat := (chat sha256 render loads inner_chat inner_record).
Notation state := (db * V * cassette)%type.

Lemma put_run r a c : put sha256 render r a c = (Ok (key r), (put sha256 render r a c).2).
Proof using. unfold put, bind, Prelude.get, modify, ret. by destruct (is_some _). Qed.

Lemma recorded_run ctx r (s : state) : chat mode_record ctx r s =
  match inner_chat ctx r s.1 with
  | (Ok a, w) => (Ok a, (w, (put sha256 render r a s.2).2))
  | (Raise e, w) => (Raise e, (w, s.2))
  end.
Proof using.
  unfold Cassette.chat. rewrite bool_decide_true by done. unfold bind, on_inner, on_cassette, ret.
  destruct (inner_chat ctx r s.1) as [[a|e] w]; [|done]. cbn [fst snd]. by rewrite put_run.
Qed.

(** A recording is never changed. *)
Lemma chat_keeps m ctx r (s : state) p t : cs_files s.2 !! p = Some t → cs_files (chat m ctx r s).2.2 !! p = Some t.
Proof using.
  intros H. destruct m.
  - unfold Cassette.chat. rewrite bool_decide_false by done. unfold bind, on_inner, ret. by destruct (inner_chat ctx r s.1) as [[a|e] w].
  - rewrite recorded_run. destruct (inner_chat ctx r s.1) as [[a|e] w]; [|done]. cbn [snd]. rewrite put_files.
    destruct (is_some (cs_files s.2 !! _)) eqn:Ee; [done|]. rewrite lookup_insert_ne; [done|]. intros <-. by rewrite H in Ee.
  - unfold Cassette.chat, bind, on_inner, on_cassette. pose proof (get_files r s.2) as E. destruct (get sha256 loads r s.2) as [[[i|]|e] c]; cbn [snd] in E; subst.
    + cbn [fst snd]. destruct (inner_record ctx (it_model i) (it_input_tokens i) (it_output_tokens i) (price_of i) s.1) as [[[]|e] w]; cbn; by rewrite E.
    + cbn. by rewrite E.
    + cbn. by rewrite E.
Qed.

Lemma calls_keep l (s : state) p t : cs_files s.2 !! p = Some t → cs_files (calls sha256 render loads inner_chat inner_record l s).2 !! p = Some t.
Proof using. revert s. induction l as [|[[m ctx] r] l IH]; intros s H; [done|]. cbn [calls]. by apply IH, chat_keeps. Qed.

Definition recorded_as (k : string) (a : ChatResponse) : Interaction :=
  mkInteraction k (rs_model a) (rs_content a) (tu_input_tokens (rs_usage a)) (tu_output_tokens (rs_usage a)) (rs_finish_reason a).

(** Replaying a recording. *)
Lemma replay_found ctx r0 r a (s : state) : key r = key r0 → cs_files s.2 !! _path (key r0) = Some (render (entry_json (key r0) r0 a)) →
  loads (render (entry_json (key r0) r0 a)) = Some (entry_json (key r0) r0 a) →
  let i := recorded_as (key r0) a in let metered := inner_record ctx (it_model i) (it_input_tokens i) (it_output_tokens i) (price_of i) s.1 in
  chat mode_replay ctx r s = (match metered.1 with Ok _ => Ok (to_response (price_of i) i) | Raise e => Raise e end,
    (metered.2, s.2 <| cs_hits := cs_hits s.2 + 1 |>)).
Proof using.
  intros Hk Hf Hl i metered. assert (Hg : get sha256 loads r s.2 = (Ok (Some i), s.2 <| cs_hits := cs_hits s.2 + 1 |>)).
  { unfold get, bind, Prelude.get, modify, ret. rewrite Hk, Hf, Hl. done. }
  unfold Cassette.chat. rewrite (run_bind _ _ _ (Some i) (s.1, s.2 <| cs_hits := cs_hits s.2 + 1 |>)) by (unfold on_cassette; by rewrite Hg).
  unfold bind, on_inner, ret. cbn [fst snd]. fold metered. by destruct metered as [[[]|e] w].
Qed.

Lemma replay_missed ctx r (s : state) : cs_files s.2 !! _path (key r) = None →
  chat mode_replay ctx r s = (Raise CassetteMiss, (s.1, s.2 <| cs_misses := cs_misses s.2 ++ [key r] |>)).
Proof using. intros H. unfold Cassette.chat, bind, on_cassette, get, bind, Prelude.get, modify, ret, raise. by rewrite H. Qed.

End lemmas.

(** A recording is replayed.  The first answer recorded for a prompt is what every later
    replay of that prompt returns, in any tenant and after any calls in any mode: its text,
    model, token counts and finish reason, metered for the caller at the model's price.  What
    counts as the prompt is the model, the messages, the temperature, the limit, the tools
    and the format and, unless SHA-256 collides, nothing else.  A replay asks the provider
    nothing; of a prompt that was never recorded it is an error that changes nothing but the
    list of misses; and no call ever changes a recording, nor does a replay the digest of the
    whole. *)
Theorem a_recording_is_replayed (sha256 : string → string) (render : json → string) (loads : string → option json) (digest : string → string)
    {V} (inner_chat : RequestContext → ChatRequest → M (db * V) ChatResponse) (inner_record : RequestContext → string → Z → Z → Q → M (db * V) unit)
    (ctx : RequestContext) (r : ChatRequest) (s : db * V * cassette) (a : ChatResponse) s1 :
  let key := interaction_key sha256 in let call := chat sha256 render loads inner_chat inner_record in
  cs_files s.2 !! _path (key r) = None →
  loads (render (entry_json (key r) r a)) = Some (entry_json (key r) r a) →
  call mode_record ctx r s = (Ok a, s1) →
  inner_chat ctx r s.1 = (Ok a, s1.1) ∧
  (∀ l ctx' r', same_prompt r r' → let s2 := calls sha256 render loads inner_chat inner_record l s1 in
     let i := recorded_as (key r) a in let metered := inner_record ctx' (rs_model a) (it_input_tokens i) (it_output_tokens i) (price_of i) s2.1 in
     let out := call mode_replay ctx' r' s2 in
     out.1 = match metered.1 with Ok _ => Ok (to_response (price_of i) i) | Raise e => Raise e end ∧
     out.2.1 = metered.2 ∧ content_sha sha256 digest out.2.2 = content_sha sha256 digest s2.2) ∧
  (∀ r', wf_prompt r = true → wf_prompt r' = true → key r' = key r → same_prompt r r' ∨ ∃ x y, x ≠ y ∧ sha256 x = sha256 y) ∧
  (∀ ctx' r' s2, cs_files s2.2 !! _path (key r') = None → (call mode_replay ctx' r' s2).1 = Raise CassetteMiss ∧ (call mode_replay ctx' r' s2).2.1 = s2.1 ∧
     cs_files (call mode_replay ctx' r' s2).2.2 = cs_files s2.2) ∧
  ∀ l p t, cs_files s1.2 !! p = Some t → cs_files (calls sha256 render loads inner_chat inner_record l s1).2 !! p = Some t.
Proof.
  intros key call Hf Hl E. unfold call in E. rewrite recorded_run in E. destruct (inner_chat ctx r s.1) as [[b|e] w] eqn:Ei; [|done]. injection E as -> <-.
  pose proof (put_files sha256 render r a s.2) as Hput. set (c := (put sha256 render r a s.2).2) in *.
  fold key in Hput. rewrite Hf in Hput. cbn [is_some] in Hput.
  assert (Hin : cs_files c !! _path (key r) = Some (render (entry_json (key r) r a))) by (rewrite Hput; apply lookup_insert_eq).
  split; [done|split; [|split; [|split]]].
  - intros l ctx' r' Hr s2 i metered out. assert (H2 : cs_files s2.2 !! _path (key r) = Some (render (entry_json (key r) r a))) by (apply calls_keep; exact Hin).
    unfold out, call. rewrite (replay_found sha256 render loads inner_chat inner_record ctx' r r' a s2 (key_of_prompt sha256 r r' Hr) H2 Hl). done.
  - intros r'. apply key_inj.
  - intros ctx' r' s2 Hm. unfold call. by rewrite (replay_missed sha256 render loads inner_chat inner_record ctx' r' s2 Hm).
  - intros l p t. by apply calls_keep.
Qed.

Module CassetteDemo.
Definition V : Type := Z.
(** A provider that answers with the number of times it was asked, and calls a tool. *)
Definition inner_chat (_ : RequestContext) (r : ChatRequest) : M (db * V) ChatResponse :=
  fun s => (Ok (mkChatResponse "ok" (rq_model r) (mkTokenUsage 5 s.2 true) 1 "tool_calls" [JObj [("name", JStr "lookup")]] false 1), (s.1, s.2 + 1)).
Definition inner_record (_ : RequestContext) (_ : string) (_ _ : Z) (_ : Q) : M (db * V) unit := ret tt.
Definition rq : ChatRequest := mkChatRequest [JObj [("role", JStr "user"); ("content", JStr "hello")]] "gpt-4o" (Some (JInt 0)) (Some 16) None None true.
(** The same prompt, its keys in another order. *)
Definition rq' : ChatRequest := rq <| rq_messages := [JObj [("content", JStr "hello"); ("role", JStr "user")]] |> <| rq_cacheable := false |>.
Definition answer : ChatResponse := mkChatResponse "ok" "gpt-4o" (mkTokenUsage 5 7 true) 1 "tool_calls" [JObj [("name", JStr "lookup")]] false 1.
Definition key : string := interaction_key (fun s => s) rq.
Definition loads (text : string) : option json := if String.eqb text (dumps_default (entry_json key rq answer)) then Some (entry_json key rq answer) else None.
Definition s0 : db * V * cassette := (empty_db, 7, mkCassette ∅ [] 0 0).
Notation call m r s := (chat (fun x => x) dumps_default loads inner_chat inner_record m Demo.ctx r s).
End CassetteDemo.
Import CassetteDemo.

(** A replayed answer has lost the tools its recording called. *)
Example a_replay_forgets_the_tools :
  (∃ a, (call mode_record rq s0).1 = Ok a ∧ rs_tool_calls a ≠ []) ∧
  ∃ a, (call mode_replay rq' (call mode_record rq s0).2).1 = Ok a ∧ rs_finish_reason a = "tool_calls" ∧ rs_tool_calls a = [].
Proof. split; eexists; (split; [vm_compute; reflexivity|]); done. Qed.

Lemma a_recording_is_replayed_witness : ∃ s1, call mode_record rq s0 = (Ok answer, s1) ∧ s1.1.2 = 8 ∧
  let out := call mode_replay rq' s1 in (∃ a, out.1 = Ok a ∧ rs_content a = "ok") ∧ out.2.1 = s1.1.
Proof.
  destruct (call mode_record rq s0) as [r s1] eqn:E. pose proof (f_equal fst E) as Er. vm_compute in Er. cbn [fst] in Er. subst r.
  destruct (a_recording_is_replayed (fun s => s) dumps_default loads (fun s => s) inner_chat inner_record Demo.ctx rq s0 answer s1) as (H1 & H2 & _).
  - reflexivity.
  - unfold loads. by rewrite String.eqb_refl.
  - exact E.
  - assert (Hs : same_prompt rq rq') by (unfold same_prompt; repeat split; by vm_compute).
    destruct (H2 [] Demo.ctx rq' Hs) as (H3 & H4 & _). exists s1. split; [reflexivity|]. split.
    { apply (f_equal (fun x => x.2.2)) in H1. cbn in H1. by rewrite <- H1. }
    split; [|exact H4]. eexists. split; [exact H3|reflexivity].
Defined.
