(* ===== verification/Echo.v ===== *)
(** A workload that survives being killed: [platform_core/correctness/crash_points.py] and
    [workloads/echo/workload.py].

    A process that is killed commits what it had committed and runs nothing more, so a
    computation here either returns, as one of [Prelude.v], or dies at one of the named
    points.  Times, the process's name and fresh identifiers belong to the attempt.  [sha256]
    is the hexadecimal digest, [upper] is [str.upper], [str_of] is [str] of a value that is no
    string and [error_text] the recorded text of an exception. *)
From Stdlib Require Import Ascii.
From S2P Require Import Prelude Identity Json Text Db Leases SideEffects.
From S2P Require Builds Documents Datasets Onboarding.

(** * Processes that may be killed *)

Inductive ending (A : Type) :=
| Returned (r : result A)
| Died.
Arguments Returned {A}.
Arguments Died {A}.

(** [os.environ.get("PLATFORM_CRASH_AT") or None]. *)
Definition armed_at (environ : option string) : option string := if truthy environ then environ else None.

(** A computation of a process with an armed crash point. *)
Definition process (S A : Type) : Type := option string → S → ending A * S.

Definition of_code {S A} (m : M S A) : process S A := fun _ s => let (r, s') := m s in (Returned r, s').

Definition and_then {S A B} (m : process S A) (k : A → process S B) : process S B :=
  fun armed s => match m armed s with
                 | (Returned (Ok a), s') => k a armed s'
                 | (Returned (Raise e), s') => (Returned (Raise e), s')
                 | (Died, s') => (Died, s')
                 end.

(** [except Exception]: a signal is none. *)
Definition or_else {S A} (m : process S A) (h : exn → process S A) : process S A :=
  fun armed s => match m armed s with
                 | (Returned (Raise e), s') => h e armed s'
                 | o => o
                 end.

Definition maybe_crash {S} (point : string) : process S unit :=
  fun armed s => (if eqb_opt String.eqb armed point then Died else Returned (Ok tt), s).

(** Every boundary around a list of steps. *)
Definition crash_points_for (steps : list string) : list string :=
  flat_map (fun step => ["before:" +:+ step; "after:" +:+ step]) steps.

Declare Scope process_scope.
#[local] Open Scope process_scope.
Notation "x <~ m ;~ k" := (and_then m (fun x => k)) (at level 100, m at next level, right associativity) : process_scope.
Notation "m ;~ k" := (and_then m (fun _ => k)) (at level 100, right associativity) : process_scope.

(** [perform_once] of a process that may be killed after the effect has landed. *)
Definition perform (error_text : exn → string) (t_claim t_done : timestamp) (claimant : string) (ctx : RequestContext)
    (step : string) (effect : M db json) (policy : RetryPolicy) (ttl : interval) : process db EffectOutcome :=
  match run_id ctx with
  | None => of_code (raise (ValueError "perform_once requires a RequestContext with a durable run_id"))
  | Some run =>
      of_code (cancellation_point ctx) ;~
      c <~ of_code (claim t_claim (fun d => d) (tenant_of ctx) run step claimant policy ttl) ;~
      match c with
      | Stored o => of_code (ret o)
      | Proceed attempt =>
          res <~ or_else
            (v <~ of_code (cancellation_point ctx ;; effect) ;~ maybe_crash ("mid:" +:+ step) ;~ of_code (ret v))
            (fun e => of_code (record_failure (tenant_of ctx) run step (str_take 2000 (error_text e)) ;; raise e)) ;~
          of_code (record_success t_done (tenant_of ctx) run step res) ;~
          of_code (ret (mkOutcome res false attempt))
      end
  end.

(** * The workload *)

Definition WORKLOAD : string := "echo".
Definition STEPS : list string := ["reserve"; "transform"; "announce"].
Definition NOTIFICATIONS : string := "echo-notifications".

(** [s.replace("-", "")]. *)
Fixpoint drop_hyphens (s : string) : string :=
  match s with
  | EmptyString => ""
  | String c s' => if Ascii.eqb c "-"%char then drop_hyphens s' else String c (drop_hyphens s')
  end.

(** One delivery of the run: when its steps happen, by which process, with which fresh ids,
    and the crash point of its environment. *)
Record attempt := mkAttempt {
  at_claim : string → timestamp;
  at_effect : string → timestamp;
  at_done : string → timestamp;
  at_claimant : string;
  at_document : uuid;
  at_notification : uuid;
  at_environ : option string
}.

Section echo.
Variable sha256 : string → string.
Variable upper : string → string.
Variable str_of : json → string.
Variable error_text : exn → string.

Definition file_of (digest : string) : string := str_take 12 digest +:+ ".txt".

Definition reserved_row (now : timestamp) (fresh : uuid) (ctx : RequestContext) (message digest : string) : document :=
  mkDocument fresh (tenant_of ctx) "echo" (file_of digest) digest (str_len (utf8 message)) ("echo/" +:+ digest +:+ ".txt")
    (Some (principal_uuid (principal ctx))) now None None.

Definition set_sha (digest : string) (x : document) : document := x <| dc_sha := digest |>.

Definition reserved (i : uuid) : json := JObj [("document_id", JStr (uuid_str i))].

(** [ON CONFLICT (tenant_id, collection, filename) WHERE superseded_at IS NULL DO UPDATE]. *)
Definition _reserve (now : timestamp) (fresh : uuid) (ctx : RequestContext) (message digest : string) : M db json :=
  let mine := visible (tenant_of ctx) (Documents.named "echo" (file_of digest)) in
  tenant_session (
    clash <- sql_select mine ;;
    match clash with
    | [] => Documents.insert_document (reserved_row now fresh ctx message digest) ;; ret (reserved fresh)
    | y :: _ => sql_update mine (set_sha digest) ;; ret (reserved (dc_id y))
    end).

Definition transformed (message digest : string) : json :=
  JObj [("output", JStr (upper message)); ("key", JStr ("echo/" +:+ digest +:+ ".out"))].

Definition _transform (message digest : string) : M db json := ret (transformed message digest).

Definition canonical_of (run : option uuid) : string := "c_" +:+ String.substring 0 14 (drop_hyphens (run_id_str run)).

Definition notification (ctx : RequestContext) (document : uuid) (ordinal : Z) (output : string) : chunk :=
  mkChunk (tenant_of ctx) document NOTIFICATIONS (canonical_of (run_id ctx)) ordinal 1 (str_take 2000 output) (JObj []) None None.

Definition insert_row (x : chunk) : M db unit :=
  d <- get ;;
  guard (negb (existsb (Builds.same_chunk x) (chunks d))) (IntegrityError "chunk_tenant_collection_canonical_build_uniq") ;;
  sql_insert x.

Definition announced (i : uuid) : json := JObj [("notification_id", JStr (uuid_str i))].

Definition has_sha (digest : string) (x : document) : bool := String.eqb (dc_sha x) digest.
Definition notified (x : chunk) : bool := String.eqb (ch_collection x) NOTIFICATIONS.

(** One row for each document with the digest, in one INSERT. *)
Definition _announce (fresh : uuid) (ctx : RequestContext) (digest output : string) : M db json :=
  tenant_session (
    found <- sql_select (visible (tenant_of ctx) (has_sha digest)) ;;
    earlier <- sql_select (visible (tenant_of ctx) notified) ;;
    let ordinal := max_or (-1) (map ch_ordinal earlier) + 1 in
    for_each (map (fun x => notification ctx (dc_id x) ordinal output) found) insert_row ;;
    match found with
    | [] => raise (OtherError "NoResultFound")
    | [_] => ret (announced fresh)
    | _ => raise (OtherError "MultipleResultsFound")
    end).

(** [result[key]]. *)
Definition field (key : string) (v : json) : M db json :=
  match Onboarding.jget key v with Some x => ret x | None => raise (LookupError key) end.

Definition text_field (key : string) (v : json) : M db string :=
  x <- field key v ;; ret (Datasets.py_str str_of x).

Definition message_of (payload : json) : string :=
  match Onboarding.jget "message" payload with Some v => Datasets.py_str str_of v | None => "" end.

Definition repeated_steps (outcomes : list EffectOutcome) : list string :=
  map fst (List.filter (fun e => eo_repeated e.2) (combine STEPS outcomes)).

Definition echo_report (output : json) (digest : string) (document notification : json) (repeated : list string) : json :=
  JObj [("output", output); ("digest", JStr digest); ("document_id", document); ("notification_id", notification);
        ("repeated_steps", JArr (map JStr repeated))].

Definition step (a : attempt) (ctx : RequestContext) (name : string) (effect : M db json) (policy : RetryPolicy) : process db EffectOutcome :=
  maybe_crash ("before:" +:+ name) ;~
  o <~ perform error_text (at_claim a name) (at_done a name) (at_claimant a) ctx name effect policy DEFAULT_CLAIM_TTL ;~
  maybe_crash ("after:" +:+ name) ;~
  of_code (ret o).

Definition run (a : attempt) (ctx : RequestContext) (payload : json) : process db json :=
  let message := message_of payload in
  let digest := sha256 (utf8 message) in
  of_code (guard (nonempty message) (ValueError "echo workload requires a non-empty 'message'")) ;~
  r <~ step a ctx "reserve" (_reserve (at_effect a "reserve") (at_document a) ctx message digest) SAFE_TO_REPEAT ;~
  t <~ step a ctx "transform" (_transform message digest) SAFE_TO_REPEAT ;~
  n <~ step a ctx "announce" (output <- text_field "output" (eo_result t) ;; _announce (at_notification a) ctx digest output)
         NEEDS_RECONCILIATION ;~
  of_code (
    output <- field "output" (eo_result t) ;;
    document <- field "document_id" (eo_result r) ;;
    sent <- field "notification_id" (eo_result n) ;;
    ret (echo_report output digest document sent (repeated_steps [r; t; n]))).

Definition execute (ctx : RequestContext) (payload : json) (a : attempt) (d : db) : ending json * db :=
  run a ctx payload (armed_at (at_environ a)) d.

(** The deliveries of one run, each killed or not, one after the other. *)
Definition deliveries (ctx : RequestContext) (payload : json) (l : list attempt) (d : db) : db :=
  foldl (fun d a => (execute ctx payload a d).2) d l.

End echo.

(** * Lemmas *)

(** A process in which no crash point of the step is armed does what [perform_once] does. *)
Lemma perform_unarmed error_text t0 t1 who ctx name m policy ttl armed (d : db) :
  armed ≠ Some ("mid:" +:+ name) →
  perform error_text t0 t1 who ctx name m policy ttl armed d =
  let '(r, (d', _)) := perform_once unit error_text t0 t1 (fun d => d) who ctx name (on_db m) policy ttl (d, tt) in (Returned r, d').
Proof.
  intros Ha. unfold perform, perform_once. destruct (run_id ctx) as [run|]; [|done].
  unfold and_then, or_else, of_code, bind, on_db, try_except. cbn [fst snd].
  destruct (cancellation_point ctx d) as [[[]|e] d1]; cbn beta iota delta [fst snd]; [|done].
  destruct (claim _ _ _ _ _ _ _ _ d1) as [[[o|k]|e] d2]; cbn beta iota delta [fst snd]; [done| |done].
  destruct (cancellation_point ctx d2) as [[[]|e] d3]; cbn beta iota delta [fst snd]; [|done].
  destruct (m d3) as [[v|e] d4]; cbn beta iota delta [fst snd]; [|done].
  unfold maybe_crash. assert (eqb_opt String.eqb armed ("mid:" +:+ name) = false) as ->; [|done].
  destruct armed as [p|]; [|done]. cbn. apply String.eqb_neq. congruence.
Qed.

Section rows.
Variables t r : uuid.

Definition eff (name : string) (d : db) : option side_effect := List.hd_error (rows_of t r name d).

Definition run_ok (d : db) : Prop := ∀ name, effects_ok t r name (side_effects d).

(** The row of the step is now [x]; nothing else changed. *)
Record moved (name : string) (d d' : db) (x : side_effect) : Prop := {
  mv_frame : d' = d <| side_effects := side_effects d' |>;
  mv_ok : run_ok d';
  mv_row : eff name d' = Some x;
  mv_others : ∀ n, n ≠ name → eff n d' = eff n d;
  mv_runs : select_where (fun e => negb (se_run e =? r)%N) (side_effects d') = select_where (fun e => negb (se_run e =? r)%N) (side_effects d)
}.

Lemma eff_same name d d' : side_effects d' = side_effects d → eff name d' = eff name d.
Proof. intros E. unfold eff, rows_of. by rewrite E. Qed.

Lemma step_apart name n e : n ≠ name → of_step r n e = true → of_step r name e = false.
Proof. intros Hn H. destruct (of_step r name e) eqn:E; [|done]. apply of_step_key in H, E. congruence. Qed.

Lemma update_moved name d f x :
  (∀ e, se_run (f e) = se_run e ∧ se_step (f e) = se_step e ∧ se_tenant (f e) = se_tenant e) →
  run_ok d → eff name d = Some x →
  moved name d (d <| side_effects := update_where (visible t (of_step r name)) f (side_effects d) |>) (f x).
Proof.
  intros Hf Hok Hx. destruct (step_inv_update t r name d f x Hf (Hok name) Hx) as [_ H]. constructor; [done| |exact H| |].
  - intros n. cbn. by apply effects_ok_update.
  - intros n Hn. unfold eff, rows_of. cbn. rewrite select_update_comm.
    + rewrite update_where_id; [done|]. intros e [_ He]%filter_In. unfold visible in *. bool_to_prop.
      apply andb_false_iff. right. by apply (step_apart name n).
    + intros e _. unfold visible, of_step, row_tenant, tenant_side_effect. by destruct (Hf e) as (-> & -> & ->).
  - cbn. rewrite select_update_comm.
    + apply update_where_id. intros e [_ He]%filter_In. unfold visible, of_step. bool_to_prop.
      rewrite (proj2 (N.eqb_neq _ _) He), andb_false_r. done.
    + intros e _. by destruct (Hf e) as (-> & _).
Qed.

Lemma new_moved name d now who ttl :
  run_ok d → (∀ e, In e (side_effects d) → of_step r name e = false) →
  moved name d (d <| side_effects := side_effects d ++ [new_claim now t r name who ttl] |>) (new_claim now t r name who ttl).
Proof.
  intros Hok Hno. set (c := new_claim now t r name who ttl).
  assert (Hr : ∀ n, rows_of t r n (d <| side_effects := side_effects d ++ [c] |>) = rows_of t r n d ++ (if String.eqb name n then [c] else [])).
  { intros n. unfold rows_of. cbn. rewrite select_where_app. f_equal. unfold select_where, visible, of_step, row_tenant, tenant_side_effect. cbn.
    rewrite !N.eqb_refl. cbn. by destruct (name =? n)%string. }
  constructor; [done| | | |].
  - intros n. destruct (Hok n) as [Hu Ht]. constructor; cbn.
    + unfold effect_keys. rewrite map_app. apply (Permutation_NoDup (Permutation_cons_append _ _)). constructor; [|done].
      intros (x & Hk & Hx)%in_map_iff. apply of_step_key in Hk. rewrite Hno in Hk; done.
    + intros e [He|[<-|[]]]%in_app_iff; [by apply Ht|done].
  - unfold eff. rewrite Hr, String.eqb_refl. assert (rows_of t r name d = []) as ->; [|done].
    apply select_where_nil. intros e He. unfold visible. by rewrite (Hno e He), andb_false_r.
  - intros n Hn. unfold eff. rewrite Hr. rewrite (proj2 (String.eqb_neq _ _)) by congruence. by rewrite app_nil_r.
  - cbn. rewrite select_where_app. unfold select_where. cbn. by rewrite N.eqb_refl, app_nil_r.
Qed.

Definition takeable (policy : RetryPolicy) (e : option side_effect) : Prop :=
  match e with
  | None => True
  | Some e => se_status e = effect_failed ∨ se_status e = started ∧ policy = SAFE_TO_REPEAT
  end.

Definition stored (x : side_effect) : EffectOutcome := mkOutcome (coalesce (se_result x) JNull) true (se_attempt x).

Lemma claim_cases now name who policy ttl d res d1 : run_ok d → claim now (fun d => d) t r name who policy ttl d = (res, d1) →
  (d1 = d ∧ ((∃ e, res = Raise e) ∨ ∃ x, eff name d = Some x ∧ se_status x = completed ∧ res = Ok (Stored (stored x)))) ∨
  ∃ k x, res = Ok (Proceed k) ∧ takeable policy (eff name d) ∧ se_status x = started ∧ moved name d d1 x.
Proof.
  intros Hok. rewrite claim_eq by apply Hok. destruct (rows_of_cases t r name d (Hok name)) as [[Er Hno]|(e & Er & _)]; unfold eff; rewrite Er; cbn zeta.
  - assert (existsb (of_step r name) (side_effects d) = false) as ->.
    { apply not_true_iff_false. intros (x & Hx & Hsx)%existsb_exists. rewrite Hno in Hsx; done. }
    intros [= <- <-]. right. eexists _, _. split; [done|]. split; [done|]. split; [|by apply new_moved]. done.
  - assert (He : eff name d = Some e) by (unfold eff; by rewrite Er). assert (Hup : ∀ k, moved name d (d <| side_effects :=
      update_where (visible t (of_step r name)) (retake now k who ttl) (side_effects d) |>) (retake now k who ttl e)) by (intros; by apply update_moved).
    destruct (se_status e) eqn:Es; [destruct (claim_live now e); [|destruct (bool_decide _) eqn:Ep]| |]; intros [= <- <-]; eauto 10.
    + right. eexists _, _. split; [done|]. split; [|split; [|apply Hup]; done]. right. split; [done|]. apply bool_decide_eq_false in Ep. by destruct policy.
    + right. eexists _, _. split; [done|]. split; [|split; [|apply Hup]; done]. by left.
Qed.

Lemma claim_proceeds now name who policy ttl d : run_ok d → takeable policy (eff name d) →
  (∀ x, eff name d = Some x → claim_live now x = false) → ∃ k d1, claim now (fun d => d) t r name who policy ttl d = (Ok (Proceed k), d1).
Proof.
  intros Hok Ht Hl. rewrite claim_eq by apply Hok. unfold eff in *.
  destruct (rows_of_cases t r name d (Hok name)) as [[Er Hno]|(e & Er & _)]; rewrite Er in *; cbn in *.
  - assert (existsb (of_step r name) (side_effects d) = false) as ->; [|eauto].
    apply not_true_iff_false. intros (x & Hx & Hsx)%existsb_exists. rewrite Hno in Hsx; done.
  - rewrite (Hl e eq_refl). destruct Ht as [->|[-> ->]]; eauto.
Qed.

End rows.

(** ** One step of a process *)

Lemma and_then_cases {S A B} (m : process S A) (k : A → process S B) armed s o s' : and_then m k armed s = (o, s') →
  (m armed s = (Died, s') ∧ o = Died) ∨ (∃ e, m armed s = (Returned (Raise e), s') ∧ o = Returned (Raise e)) ∨
  ∃ a s1, m armed s = (Returned (Ok a), s1) ∧ k a armed s1 = (o, s').
Proof. unfold and_then. destruct (m armed s) as [[[a|e]|] s1]; [eauto 10| |]; intros [= <- <-]; eauto 10. Qed.

Lemma and_then_run {S A B} (m : process S A) (k : A → process S B) armed s a s1 :
  m armed s = (Returned (Ok a), s1) → and_then m k armed s = k a armed s1.
Proof. intros E. unfold and_then. by rewrite E. Qed.

Lemma of_code_run {S A} (m : M S A) armed s r s' : m s = (r, s') → of_code m armed s = (Returned r, s').
Proof. intros E. unfold of_code. by rewrite E. Qed.

Section performing.
Variable error_text : exn → string.
Variables (ctx : RequestContext) (r : uuid) (Hrun : run_id ctx = Some r).
Notation t := (tenant_of ctx).

(** How a step ends: without having been tried, raised and marked so, killed after its effect
    landed, or completed. *)
Definition kept (name : string) (d : db) (o : ending EffectOutcome) (d' : db) : Prop :=
  d' = d ∧ ((∃ e, o = Returned (Raise e)) ∨ ∃ x, eff t r name d = Some x ∧ se_status x = completed ∧ o = Returned (Ok (stored x))).

Definition ended (name : string) (m : M db json) (armed : option string) (d1 : db) (o : ending EffectOutcome) (d' : db) : Prop :=
  (∃ e x d2, o = Returned (Raise e) ∧ se_status x = effect_failed ∧ moved t r name d2 d' x ∧ (d2 = d1 ∨ m d1 = (Raise e, d2))) ∨
  ∃ v d2, m d1 = (Ok v, d2) ∧
    ((armed = Some ("mid:" +:+ name) ∧ o = Died ∧ d' = d2) ∨
     ∃ k x, o = Returned (Ok (mkOutcome v false k)) ∧ se_status x = completed ∧ se_result x = Some v ∧ moved t r name d2 d' x).

Lemma perform_cases t0 t1 who name m policy ttl armed d o d' :
  run_ok t r d → (∀ d, side_effects (m d).2 = side_effects d) →
  perform error_text t0 t1 who ctx name m policy ttl armed d = (o, d') →
  kept name d o d' ∨
  takeable policy (eff t r name d) ∧ ∃ d1 x, se_status x = started ∧ moved t r name d d1 x ∧ ended name m armed d1 o d'.
Proof using Hrun.
  intros Hok Hm E. unfold perform in E. rewrite Hrun in E. pose proof (cancellation_point_same ctx d) as Hc.
  unfold and_then, or_else, of_code in E. destruct (cancellation_point ctx d) as [[[]|e] d0]; cbn in Hc; subst d0; cbn beta iota in E;
    [|injection E as <- <-; left; split; eauto].
  destruct (claim _ _ _ _ _ _ _ _ d) as [res d1] eqn:Ec.
  destruct (claim_cases _ _ _ _ _ _ _ _ _ _ Hok Ec) as [(-> & [(e & ->)|(x & Hx & Hs & ->)])|(k & x & -> & Ht & Hs & Hmv)]; cbn beta iota in E.
  - injection E as <- <-. left. split; eauto.
  - injection E as <- <-. left. split; [done|]. right. eauto.
  - right. split; [done|]. exists d1, x. split; [done|]. split; [done|].
    assert (Hrow : ∀ d2 f, side_effects d2 = side_effects d1 →
      (∀ e, se_run (f e) = se_run e ∧ se_step (f e) = se_step e ∧ se_tenant (f e) = se_tenant e) →
      moved t r name d2 (d2 <| side_effects := update_where (visible t (of_step r name)) f (side_effects d2) |>) (f x)).
    { intros d2 f H2 Hf. apply update_moved; [done| |].
      - intros n. rewrite H2. apply Hmv.
      - rewrite (eff_same _ _ _ d1 d2 H2). apply Hmv. }
    pose proof (cancellation_point_same ctx d1) as Hc1. unfold bind at 1 in E.
    destruct (cancellation_point ctx d1) as [[[]|e] d2]; cbn in Hc1; subst d2; cbn beta iota in E.
    + pose proof (Hm d1) as H2. destruct (m d1) as [[v|e] d2] eqn:Em; cbn in H2; cbn beta iota in E.
      * right. exists v, d2. split; [done|]. unfold maybe_crash in E. destruct (eqb_opt String.eqb armed _) eqn:Ea; cbn beta iota in E.
        { injection E as <- <-. left. destruct armed as [p|]; [|done]. cbn in Ea. apply String.eqb_eq in Ea as ->. done. }
        injection E as <- <-. right. eexists k, (mark_completed t1 v x). split; [done|]. split; [done|]. split; [done|]. by apply Hrow.
      * injection E as <- <-. left. eexists e, (mark_effect_failed _ x), d2. split; [done|]. split; [done|]. split; [by apply Hrow|by right].
    + injection E as <- <-. left. eexists e, (mark_effect_failed _ x), d1. split; [done|]. split; [done|]. split; [by apply Hrow|by left].
Qed.

(** The row of the step after it was tried, whatever its effect did to other tables. *)
Record rows_moved (name : string) (d d' : db) (x : side_effect) : Prop := {
  rm_ok : run_ok t r d';
  rm_row : eff t r name d' = Some x;
  rm_others : ∀ n, n ≠ name → eff t r n d' = eff t r n d;
  rm_runs : select_where (fun e => negb (se_run e =? r)%N) (side_effects d') = select_where (fun e => negb (se_run e =? r)%N) (side_effects d)
}.

Lemma perform_ends t0 t1 who name m policy ttl armed d o d' :
  run_ok t r d → (∀ d, side_effects (m d).2 = side_effects d) →
  perform error_text t0 t1 who ctx name m policy ttl armed d = (o, d') →
  kept name d o d' ∨
  takeable policy (eff t r name d) ∧ ∃ d1 d2 x, d1 = d <| side_effects := side_effects d1 |> ∧ d' = d2 <| side_effects := side_effects d' |> ∧
    rows_moved name d d' x ∧
    ((∃ e, o = Returned (Raise e) ∧ se_status x = effect_failed ∧ (d2 = d1 ∨ m d1 = (Raise e, d2))) ∨
     ∃ v, m d1 = (Ok v, d2) ∧
       ((armed = Some ("mid:" +:+ name) ∧ o = Died ∧ se_status x = started) ∨
        ∃ k, o = Returned (Ok (mkOutcome v false k)) ∧ se_status x = completed ∧ se_result x = Some v)).
Proof using Hrun.
  intros Hok Hm E. destruct (perform_cases _ _ _ _ _ _ _ _ _ _ _ Hok Hm E) as [|(Ht & d1 & x & Hs & M & H)]; [by left|].
  assert (Hj : ∀ d2 y, side_effects d2 = side_effects d1 → moved t r name d2 d' y → rows_moved name d d' y).
  { intros d2 y H2 [_ Mo Mr Mn Mx]. constructor; [done|done| |].
    - intros n Hn. rewrite Mn by done. rewrite (eff_same _ _ _ _ _ H2). by apply (mv_others _ _ _ _ _ _ M).
    - rewrite Mx, H2. apply M. }
  right. split; [done|]. destruct H as [(e & y & d2 & -> & Hy & M2 & Hd)|(v & d2 & Em & H)].
  - exists d1, d2, y. split; [apply M|]. split; [apply M2|]. split; [|left; eauto].
    apply (Hj d2); [|done]. destruct Hd as [->|Hd]; [done|]. pose proof (Hm d1) as H2. by rewrite Hd in H2.
  - pose proof (Hm d1) as H2. rewrite Em in H2. cbn in H2. destruct H as [(-> & -> & ->)|(k & y & -> & Hy & Hr & M2)].
    + exists d1, d2, x. split; [apply M|]. split; [by destruct d2|]. split; [|right; eauto 10].
      destruct M as [_ Mo Mr Mn Mx]. constructor; [|by rewrite (eff_same _ _ _ _ _ H2)| |by rewrite H2].
      * intros n. rewrite H2. apply Mo.
      * intros n Hn. rewrite (eff_same _ _ _ _ _ H2). by apply Mn.
    + exists d1, d2, y. split; [apply M|]. split; [apply M2|]. split; [by apply (Hj d2)|right; eauto 10].
Qed.

(** Whether a run is cancelled is said by its row alone. *)
Lemma cancellation_runs d d' : runs d' = runs d → (cancellation_point ctx d').1 = (cancellation_point ctx d).1.
Proof using.
  clear Hrun. intros E. unfold cancellation_point. destruct (run_id ctx) as [i|]; [|done].
  unfold bind, tenant_session, tx, sql_select, gets. cbn [rows table_runs]. rewrite E.
  destruct (select_where _ _) as [|x [|y l]]; cbn; [done| |done]. by destruct (_ || _).
Qed.

(** A step that is free to run, in a run that is not cancelled, does. *)
Lemma perform_runs t0 t1 who name m policy ttl armed d :
  run_ok t r d → (∀ d, side_effects (m d).2 = side_effects d) → (cancellation_point ctx d).1 = Ok tt →
  takeable policy (eff t r name d) → (∀ x, eff t r name d = Some x → claim_live t0 x = false) → armed ≠ Some ("mid:" +:+ name) →
  (∀ d1 x, moved t r name d d1 x → ∃ v d2, m d1 = (Ok v, d2)) →
  ∃ v d', perform error_text t0 t1 who ctx name m policy ttl armed d = (Returned (Ok v), d') ∧ eo_repeated v = false.
Proof using Hrun.
  intros Hok Hm Hc Ht Hl Ha He. destruct (claim_proceeds t r t0 name who policy ttl d Hok Ht Hl) as (k & d1 & Ec).
  destruct (claim_cases _ _ _ _ _ _ _ _ _ _ Hok Ec) as [(_ & [(? & ?)|(? & _ & _ & ?)])|(k' & x & _ & _ & _ & Hmv)]; [done|done|].
  assert (Hcan : ∀ d', runs d' = runs d → cancellation_point ctx d' = (Ok tt, d')).
  { intros d' E. pose proof (cancellation_point_same ctx d') as Hs. pose proof (cancellation_runs d d' E) as Hr.
    rewrite Hc in Hr. destruct (cancellation_point ctx d') as [c d2]. cbn in Hr, Hs. by subst. }
  unfold perform. rewrite Hrun. unfold and_then, or_else, of_code. rewrite Hcan by done. cbn beta iota. rewrite Ec. cbn beta iota.
  unfold bind at 1. rewrite Hcan by (destruct Hmv as [-> _]; done). cbn beta iota. destruct (He d1 x Hmv) as (v & d2 & ->). cbn beta iota.
  unfold maybe_crash. assert (eqb_opt String.eqb armed ("mid:" +:+ name) = false) as ->.
  { destruct armed as [p|]; [|done]. cbn. apply String.eqb_neq. congruence. }
  cbn beta iota. eexists _, _. by split.
Qed.

(** A completed step returns what it stored, and one that needs reconciliation says so. *)
Lemma perform_stored t0 t1 who name m policy ttl armed d x :
  run_ok t r d → (cancellation_point ctx d).1 = Ok tt → eff t r name d = Some x → se_status x = completed →
  perform error_text t0 t1 who ctx name m policy ttl armed d = (Returned (Ok (stored x)), d).
Proof using Hrun.
  intros Hok Hc Hx Hs. unfold perform. rewrite Hrun. unfold and_then, of_code. pose proof (cancellation_point_same ctx d) as Hd.
  destruct (cancellation_point ctx d) as [c d0]; cbn in Hc, Hd; subst c d0; cbn beta iota.
  rewrite claim_eq by apply Hok. unfold eff in Hx. destruct (rows_of t r name d) as [|e l]; [done|]. injection Hx as ->. by rewrite Hs.
Qed.

Lemma perform_abandoned t0 t1 who name m ttl armed d x :
  run_ok t r d → (cancellation_point ctx d).1 = Ok tt → eff t r name d = Some x → se_status x = started → claim_live t0 x = false →
  perform error_text t0 t1 who ctx name m NEEDS_RECONCILIATION ttl armed d = (Returned (Raise (NeedsReconciliation name (se_attempt x))), d).
Proof using Hrun.
  intros Hok Hc Hx Hs Hl. unfold perform. rewrite Hrun. unfold and_then, of_code. pose proof (cancellation_point_same ctx d) as Hd.
  destruct (cancellation_point ctx d) as [c d0]; cbn in Hc, Hd; subst c d0; cbn beta iota.
  rewrite claim_eq by apply Hok. unfold eff in Hx. destruct (rows_of t r name d) as [|e l]; [done|]. injection Hx as ->. by rewrite Hs, Hl.
Qed.

End performing.

(** ** What the effects do *)

Section effects.
Variables (ctx : RequestContext) (digest : string).
Notation t := (tenant_of ctx).

Definition mine (x : document) : bool := visible t (Documents.named "echo" (file_of digest)) x.

(** The one current document of the message's file is [i] and has its bytes. *)
Definition held (i : uuid) (l : list document) : Prop :=
  ∃ x, select_where mine l = [x] ∧ dc_id x = i ∧ dc_sha x = digest.

Definition elsewhere (l : list document) : list document := select_where (fun x => negb (mine x)) l.

Lemma mine_set_sha x : mine (set_sha digest x) = mine x.
Proof. done. Qed.

Lemma reserve_cases now fresh message d r d' : count (select_where mine (documents d)) <= 1 →
  _reserve now fresh ctx message digest d = (r, d') →
  ((∃ e, r = Raise e) ∧ d' = d) ∨
  ∃ i, r = Ok (reserved i) ∧ d' = d <| documents := documents d' |> ∧ held i (documents d') ∧
       elsewhere (documents d') = elsewhere (documents d) ∧ (∀ j, held j (documents d) → i = j ∧ d' = d).
Proof.
  intros H1. unfold _reserve, tenant_session, tx. change (visible t (Documents.named "echo" (file_of digest))) with mine. unfold bind at 1, sql_select, gets. cbn [rows table_documents].
  destruct (select_where mine (documents d)) as [|y [|z l]] eqn:E; [| |unfold count in H1; cbn in H1; lia].
  - unfold Documents.insert_document, bind, get, guard. cbn beta iota.
    destruct (existsb _ _) eqn:Ex; cbn; intros [= <- <-]; [left; eauto|]. right. exists fresh. split; [done|]. split; [done|].
    assert (Hm : mine (reserved_row now fresh ctx message digest) = true).
    { unfold mine, visible, Documents.named. cbn. by rewrite N.eqb_refl, String.eqb_refl. }
    assert (Hd : ∀ q : document → bool, select_where q [reserved_row now fresh ctx message digest]
      = if q (reserved_row now fresh ctx message digest) then [reserved_row now fresh ctx message digest] else []) by done.
    unfold held, elsewhere.
    change (documents (d <| documents := documents d ++ [reserved_row now fresh ctx message digest] |>))
      with (documents d ++ [reserved_row now fresh ctx message digest]).
    rewrite !select_where_app, E, !Hd, Hm. cbn [negb].
    split; [eauto|]. split; [by rewrite app_nil_r|]. intros j (x & Hx & _). done.
  - unfold bind, sql_update. cbn. intros [= <- <-]. right. exists (dc_id y). split; [done|]. split; [done|].
    assert (Hu : select_where mine (update_where mine (set_sha digest) (documents d)) = [set_sha digest y]).
    { rewrite select_update_comm by (intros; apply mine_set_sha). rewrite E. unfold update_where. cbn.
      assert (mine y = true) as ->; [|done]. apply (proj1 (filter_In mine y (documents d))). fold (select_where mine (documents d)). rewrite E. by left. }
    split; [exists (set_sha digest y); done|]. split.
    + unfold elsewhere. cbn. rewrite select_update_comm by (intros; by rewrite mine_set_sha). apply update_where_id.
      intros x [_ Hx]%filter_In. by apply negb_true_iff in Hx.
    + intros j (x & Hx & <- & Hs). rewrite E in Hx. injection Hx as <-. split; [done|].
      assert (update_where mine (set_sha digest) (documents d) = documents d) as ->; [|by destruct d].
      unfold update_where. rewrite <- (map_id (documents d)) at 2. apply map_ext_in. intros x Hx. destruct (mine x) eqn:Em; [|done].
      assert (Hin : In x (select_where mine (documents d))) by (by apply filter_In). rewrite E in Hin. destruct Hin as [<-|[]].
      unfold set_sha. destruct y. cbn in *. by subst.
Qed.

Lemma reserve_effects now fresh message d : side_effects (_reserve now fresh ctx message digest d).2 = side_effects d.
Proof.
  unfold _reserve, tenant_session, tx. destruct (bind _ _ d) as [[v|e] d2] eqn:Eb; [|done]. cbn.
  apply bind_ok in Eb as (l & d3 & El & Eb). injection El as <- <-. destruct (select_where _ _) as [|y l'].
  - apply bind_ok in Eb as ([] & d3 & Ei & Eb). injection Eb as _ <-. unfold Documents.insert_document, bind, get, guard in Ei.
    destruct (negb _) in Ei; cbn in Ei; [|done]. by injection Ei as <-.
  - by injection Eb as _ <-.
Qed.

Lemma announce_cases fresh output d r d' : _announce fresh ctx digest output d = (r, d') →
  ((∃ e, r = Raise e) ∧ d' = d) ∨
  ∃ x o, select_where (visible t (has_sha digest)) (documents d) = [x] ∧ r = Ok (announced fresh) ∧
    d' = d <| chunks := chunks d ++ [notification ctx (dc_id x) o output] |>.
Proof.
  unfold _announce, tenant_session, tx. unfold bind at 1, sql_select at 1, gets at 1. cbn [rows table_documents].
  unfold bind at 1, sql_select, gets. cbn [rows table_chunks]. set (o := max_or _ _ + 1).
  destruct (select_where (visible t (has_sha digest)) (documents d)) as [|x [|y l]] eqn:E.
  - cbn. intros [= <- <-]. left. eauto.
  - cbn [map for_each]. unfold insert_row, bind, get, guard. cbn beta iota. destruct (existsb _ _); cbn; intros [= <- <-]; [left; eauto|].
    right. eauto 10.
  - match goal with |- context [bind ?m ?k d] => destruct (bind m k d) as [[v|e] d1] eqn:Eb end; [|intros [= <- <-]; left; eauto].
    exfalso. apply bind_ok in Eb as ([] & d2 & _ & Eb). done.
Qed.

Lemma announce_effects fresh output d : side_effects (_announce fresh ctx digest output d).2 = side_effects d.
Proof.
  destruct (_announce fresh ctx digest output d) as [r d'] eqn:E. by apply announce_cases in E as [[_ ->]|(x & o & _ & _ & ->)].
Qed.

Lemma announce_runs fresh output d x : select_where (visible t (has_sha digest)) (documents d) = [x] →
  (∀ y, In y (chunks d) → ch_canonical_id y ≠ canonical_of (run_id ctx)) → ∃ v d', _announce fresh ctx digest output d = (Ok v, d').
Proof.
  intros E Hno. unfold _announce, tenant_session, tx. unfold bind at 1, sql_select at 1, gets at 1. cbn [rows table_documents]. rewrite E.
  unfold bind at 1, sql_select, gets. cbn [rows table_chunks map for_each]. unfold insert_row, bind, get, guard. cbn beta iota.
  destruct (existsb _ _) eqn:Ex; cbn; [|eauto]. exfalso. apply existsb_exists in Ex as (y & Hy & Hs). apply (Hno y Hy).
  unfold Builds.same_chunk in Hs. cbn in Hs. bool_to_prop. done.
Qed.

End effects.

(** ** The run *)

Section survival.
Variables (sha256 upper : string → string) (str_of : json → string) (error_text : exn → string).
Variables (ctx : RequestContext) (r : uuid) (Hrun : run_id ctx = Some r) (payload : json) (d0 : db).
Notation t := (tenant_of ctx).
Notation message := (message_of str_of payload).
Notation digest := (sha256 (utf8 message)).
Notation output := (upper message).
Notation eff := (eff t r).
Notation held := (held ctx digest).
Notation execute := (execute sha256 upper str_of error_text ctx payload).

Definition settled (name : string) (v : json) (d : db) : Prop :=
  ∃ x, eff name d = Some x ∧ se_status x = completed ∧ se_result x = Some v.

(** The one notification of the run, of the held document. *)
Definition noted (d : db) : Prop := ∃ i o, held i (documents d) ∧ chunks d = chunks d0 ++ [notification ctx i o output].

Definition ready (d : db) : Prop := (∃ v, settled "reserve" v d) ∧ settled "transform" (transformed upper message digest) d.

(** What the rows of the run's steps say about what has landed. *)
Record echo_inv (d : db) : Prop := {
  ei_frame : d = d0 <| side_effects := side_effects d |> <| documents := documents d |> <| chunks := chunks d |>;
  ei_ok : run_ok t r d;
  ei_runs : select_where (fun e => negb (se_run e =? r)%N) (side_effects d) = select_where (fun e => negb (se_run e =? r)%N) (side_effects d0);
  ei_elsewhere : elsewhere ctx digest (documents d) = elsewhere ctx digest (documents d0);
  ei_mine : count (select_where (mine ctx digest) (documents d)) <= 1;
  ei_reserve : ∀ x, eff "reserve" d = Some x → se_status x = completed → ∃ i, se_result x = Some (reserved i) ∧ held i (documents d);
  ei_transform : ∀ x, eff "transform" d = Some x → se_status x = completed → se_result x = Some (transformed upper message digest);
  ei_announce :
    match eff "announce" d with
    | None => chunks d = chunks d0
    | Some x => ready d ∧ match se_status x with
                          | effect_failed => chunks d = chunks d0
                          | started => noted d
                          | completed => noted d ∧ ∃ j, se_result x = Some (announced j)
                          end
    end
}.

Lemma settled_moved name n v d d' x : rows_moved ctx r name d d' x → n ≠ name → settled n v d → settled n v d'.
Proof. intros M Hn (y & Hy & Hs & Hr). exists y. split; [|done]. by rewrite (rm_others _ _ _ _ _ _ M n Hn). Qed.

Lemma not_settled name v d policy : takeable policy (eff name d) → ¬ settled name v d.
Proof. intros Ht (x & Hx & Hs & _). rewrite Hx in Ht. cbn in Ht. rewrite Hs in Ht. destruct Ht as [|[? _]]; done. Qed.

(** An announcement that was tried has its other steps behind it. *)
Lemma unannounced d : echo_inv d → ¬ ready d → eff "announce" d = None ∧ chunks d = chunks d0.
Proof. intros I H. pose proof (ei_announce d I) as Ha. destruct (eff "announce" d) as [x|]; [|done]. by destruct Ha as [? _]. Qed.

Lemma kept_settled name d o d' v : kept ctx r name d o d' → o = Returned (Ok v) →
  (∀ x, eff name d = Some x → se_status x = completed → is_some (se_result x) = true) → settled name (eo_result v) d' ∧ eo_repeated v = true.
Proof.
  intros [-> [(e & ->)|(x & Hx & Hs & ->)]] [= <-] H. split; [|done]. exists x. split; [done|]. split; [done|].
  specialize (H x Hx Hs). unfold stored. cbn. by destruct (se_result x).
Qed.

(** However its effect ended, the first step leaves at most the one document. *)
Lemma reserve_lands now fresh d1 d2 :
  ((∃ e, d2 = d1 ∨ _reserve now fresh ctx message digest d1 = (Raise e, d2)) ∨ ∃ v, _reserve now fresh ctx message digest d1 = (Ok v, d2)) →
  count (select_where (mine ctx digest) (documents d1)) <= 1 →
  d2 = d1 <| documents := documents d2 |> ∧ elsewhere ctx digest (documents d2) = elsewhere ctx digest (documents d1) ∧
  count (select_where (mine ctx digest) (documents d2)) <= 1 ∧
  ∀ v, _reserve now fresh ctx message digest d1 = (Ok v, d2) → ∃ i, v = reserved i ∧ held i (documents d2).
Proof.
  intros H Hm. assert (Hok : ∀ v d, _reserve now fresh ctx message digest d1 = (Ok v, d) → ∃ i, v = reserved i ∧
    d = d1 <| documents := documents d |> ∧ held i (documents d) ∧ elsewhere ctx digest (documents d) = elsewhere ctx digest (documents d1)).
  { intros v d Ev. apply reserve_cases in Ev as [[(? & [=]) _]|(i & [= ->] & Hf & Hi & Hel & _)]; [|done]. eauto. }
  destruct H as [(e & Hd)|(v & Ev)].
  - assert (d2 = d1) as ->. { destruct Hd as [->|Er]; [done|]. by apply reserve_cases in Er as [[_ ->]|(i & [=] & _)]. }
    split; [by destruct d1|]. split; [done|]. split; [done|]. intros v Ev. destruct (Hok v d1 Ev) as (i & -> & _ & Hi & _). eauto.
  - pose proof (Hok v d2 Ev) as (i & -> & Hf & Hi & Hel). split; [exact Hf|]. split; [exact Hel|]. split; [by destruct Hi as (y & -> & _)|].
    intros v' Ev'. destruct (Hok v' d2 Ev') as (j & -> & _ & Hj & _). eauto.
Qed.

Definition ends_well (name : string) (d : db) (o : ending EffectOutcome) (d' : db) : Prop :=
  echo_inv d' ∧ (∀ v, o = Returned (Ok v) → settled name (eo_result v) d') ∧
  (∀ v, settled name v d → d' = d ∧ ∀ w, o = Returned (Ok w) → eo_repeated w = true) ∧
  ∀ n, n ≠ name → eff n d' = eff n d.

Lemma reserve_ends now fresh t0 t1 who armed d o d' : echo_inv d →
  perform error_text t0 t1 who ctx "reserve" (_reserve now fresh ctx message digest) SAFE_TO_REPEAT DEFAULT_CLAIM_TTL armed d = (o, d') →
  ends_well "reserve" d o d'.
Proof using Hrun.
  intros I E. apply (perform_ends _ _ _ Hrun) in E as [K|(Ht & d1 & d2 & x & F1 & F2 & M & H)]; [| |apply (ei_ok d I)|].
  - pose proof K as K'. destruct K' as [-> _]. split; [done|]. split; [|split; [|done]].
    + intros v Ev. eapply kept_settled; [exact K|exact Ev|]. intros x Hx Hs. by destruct (ei_reserve d I x Hx Hs) as (i & -> & _).
    + intros v _. split; [done|]. intros w Ew. eapply kept_settled; [exact K|exact Ew|]. intros x Hx Hs. by destruct (ei_reserve d I x Hx Hs) as (i & -> & _).
  - assert (Hnr : ¬ ready d) by (intros [(i & Hi) _]; by apply (not_settled _ _ _ _ Ht) in Hi).
    destruct (unannounced d I Hnr) as [Ha Hc]. assert (Hm1 : count (select_where (mine ctx digest) (documents d1)) <= 1) by (rewrite F1; apply I).
    destruct (reserve_lands now fresh d1 d2 ltac:(destruct H as [(e & _ & _ & Hd)|(v & Ev & _)]; eauto) Hm1) as (F3 & Hel & Hm2 & Hv).
    assert (Hd1 : documents d1 = documents d) by (by rewrite F1).
    assert (Hdocs : documents d' = documents d2) by (by rewrite F2).
    assert (Hchunks : chunks d' = chunks d) by (by rewrite F2, F3, F1).
    split; [|split; [|split; [|apply M]]].
    + constructor.
      * rewrite F2, F3, F1, (ei_frame d I). by destruct d0.
      * apply M.
      * rewrite (rm_runs _ _ _ _ _ _ M). apply I.
      * rewrite Hdocs, Hel, Hd1. apply I.
      * by rewrite Hdocs.
      * intros y Hy Hs. rewrite (rm_row _ _ _ _ _ _ M) in Hy. injection Hy as <-.
        destruct H as [(e & _ & Hx & _)|(v & Ev & [(_ & _ & Hx)|(k & _ & _ & Hr)])]; [congruence|congruence|].
        destruct (Hv v Ev) as (i & -> & Hi). exists i. by rewrite Hdocs.
      * intros y. rewrite (rm_others _ _ _ _ _ _ M) by done. apply I.
      * rewrite (rm_others _ _ _ _ _ _ M), Ha by done. congruence.
    + intros v ->. destruct H as [(e & [=] & _)|(w & Ev & [(_ & [=] & _)|(k & [= ->] & Hs & Hr)])].
      exists x. split; [apply M|]. done.
    + intros v Hv'. by apply (not_settled _ _ _ _ Ht) in Hv'.
  - intros d1. apply reserve_effects.
Qed.

Lemma transform_ends t0 t1 who armed d o d' : echo_inv d →
  perform error_text t0 t1 who ctx "transform" (_transform upper message digest) SAFE_TO_REPEAT DEFAULT_CLAIM_TTL armed d = (o, d') →
  ends_well "transform" d o d'.
Proof using Hrun.
  intros I E. assert (Hres : ∀ x, eff "transform" d = Some x → se_status x = completed → is_some (se_result x) = true).
  { intros x Hx Hs. by rewrite (ei_transform d I x Hx Hs). }
  apply (perform_ends _ _ _ Hrun) in E as [K|(Ht & d1 & d2 & x & F1 & F2 & M & H)]; [| |apply (ei_ok d I)|done].
  - pose proof K as K'. destruct K' as [-> _]. split; [done|]. split; [|split; [|done]].
    + intros v Ev. by eapply kept_settled.
    + intros v _. split; [done|]. intros w Ew. by eapply kept_settled.
  - assert (Hnr : ¬ ready d) by (intros [_ Hi]; by apply (not_settled _ _ _ _ Ht) in Hi).
    destruct (unannounced d I Hnr) as [Ha Hc]. assert (d2 = d1) as ->.
    { destruct H as [(e & _ & _ & [->|[=]])|(v & [= _ <-] & _)]; done. }
    assert (Hdocs : documents d' = documents d) by (by rewrite F2, F1). assert (Hchunks : chunks d' = chunks d) by (by rewrite F2, F1).
    split; [|split; [|split; [|apply M]]].
    + constructor.
      * rewrite F2, F1, (ei_frame d I). by destruct d0.
      * apply M.
      * rewrite (rm_runs _ _ _ _ _ _ M). apply I.
      * rewrite Hdocs. apply I.
      * rewrite Hdocs. apply I.
      * intros y. rewrite (rm_others _ _ _ _ _ _ M) by done. rewrite Hdocs. apply I.
      * intros y Hy Hs. rewrite (rm_row _ _ _ _ _ _ M) in Hy. injection Hy as <-.
        destruct H as [(e & _ & Hx & _)|(v & [= <-] & [(_ & _ & Hx)|(k & _ & _ & Hr)])]; [congruence|congruence|done].
      * rewrite (rm_others _ _ _ _ _ _ M), Ha by done. congruence.
    + intros v ->. destruct H as [(e & [=] & _)|(w & _ & [(_ & [=] & _)|(k & [= ->] & Hs & Hr)])].
      exists x. split; [apply M|]. done.
    + intros v Hv'. by apply (not_settled _ _ _ _ Ht) in Hv'.
Qed.

(** The announcement, over a state whose only change is the row of its step. *)
Lemma announce_lands fresh d d1 d2 i : d1 = d <| side_effects := side_effects d1 |> → chunks d = chunks d0 → held i (documents d) →
  ((∃ e, d2 = d1 ∨ _announce fresh ctx digest output d1 = (Raise e, d2)) ∨ ∃ v, _announce fresh ctx digest output d1 = (Ok v, d2)) →
  d2 = d1 <| chunks := chunks d2 |> ∧
  (∀ e, d2 = d1 ∨ _announce fresh ctx digest output d1 = (Raise e, d2) → chunks d2 = chunks d0) ∧
  ∀ v, _announce fresh ctx digest output d1 = (Ok v, d2) → v = announced fresh ∧ ∃ o, chunks d2 = chunks d0 ++ [notification ctx i o output].
Proof.
  intros F Hc (z & Hz & <- & Hsha) H. assert (Hc1 : chunks d1 = chunks d0) by (rewrite F; exact Hc).
  assert (Hok : ∀ v d3, _announce fresh ctx digest output d1 = (Ok v, d3) → v = announced fresh ∧ d3 = d1 <| chunks := chunks d3 |> ∧
    ∃ o, chunks d3 = chunks d0 ++ [notification ctx (dc_id z) o output]).
  { intros v d3 Ev. apply announce_cases in Ev as [[(? & [=]) _]|(x & q & Hx & [= ->] & ->)]. split; [done|]. split; [done|].
    exists q. assert (x = z) as ->; [|by rewrite <- Hc1]. assert (Hin : In z (select_where (mine ctx digest) (documents d))) by (rewrite Hz; by left).
    apply filter_In in Hin as [Hin Hm]. assert (Hzs : In z (select_where (visible t (has_sha digest)) (documents d1))).
    { apply filter_In. split; [by rewrite F|]. unfold mine, visible in *. bool_to_prop. unfold has_sha. by rewrite Hsha, String.eqb_refl, (proj2 (N.eqb_eq _ _) H0). }
    rewrite Hx in Hzs. destruct Hzs as [|[]]. done. }
  assert (Hraise : ∀ e, d2 = d1 ∨ _announce fresh ctx digest output d1 = (Raise e, d2) → d2 = d1).
  { intros e [->|Er]; [done|]. by apply announce_cases in Er as [[_ ->]|(x & q & _ & [=] & _)]. }
  split; [|split].
  - destruct H as [(e & Hd)|(v & Ev)]; [rewrite (Hraise e Hd); by destruct d1|]. by apply (Hok v d2 Ev).
  - intros e Hd. by rewrite (Hraise e Hd).
  - intros v Ev. destruct (Hok v d2 Ev) as (-> & _ & Hq). by split.
Qed.

(** The last step runs with the others behind it, and is marked as begun by a death only when
    it has landed. *)
Lemma announce_ends fresh t0 t1 who armed d o d' tr : echo_inv d → ready d → tr = transformed upper message digest →
  perform error_text t0 t1 who ctx "announce" (out <- text_field str_of "output" tr ;; _announce fresh ctx digest out)
    NEEDS_RECONCILIATION DEFAULT_CLAIM_TTL armed d = (o, d') →
  ends_well "announce" d o d' ∧ ready d' ∧
  (∀ x, eff "announce" d' = Some x → se_status x = started → d' = d ∨ armed = Some "mid:announce").
Proof using Hrun.
  intros I Hr -> E.
  assert (Hres : ∀ x, eff "announce" d = Some x → se_status x = completed → is_some (se_result x) = true).
  { intros x Hx Hs. pose proof (ei_announce d I) as Ha. rewrite Hx, Hs in Ha. by destruct Ha as (_ & _ & j & ->). }
  change (out <- text_field str_of "output" (transformed upper message digest) ;; _announce fresh ctx digest out)
    with (_announce fresh ctx digest output) in E.
  apply (perform_ends _ _ _ Hrun) in E as [K|(Ht & d1 & d2 & x & F1 & F2 & M & H)];
    [| |apply (ei_ok d I)|intros; apply announce_effects].
  - pose proof K as K'. destruct K' as [-> _]. split; [|split; [done|by left]]. split; [done|]. split; [|split; [|done]].
    + intros v Ev. by eapply kept_settled.
    + intros v _. split; [done|]. intros w Ew. by eapply kept_settled.
  - assert (Hc : chunks d = chunks d0).
    { pose proof (ei_announce d I) as Ha. destruct (eff "announce" d) as [y|]; [|done]. destruct Ht as [Hy|[_ [=]]]. rewrite Hy in Ha. apply Ha. }
    destruct Hr as [(v0 & Hv0) Htr]. assert (Hready : ready d') by (split; [exists v0|]; by apply (settled_moved "announce" _ _ _ _ _ M)).
    pose proof Hv0 as (y0 & Hy0 & Hs0 & _). destruct (ei_reserve d I y0 Hy0 Hs0) as (i & _ & Hi).
    destruct (announce_lands fresh d d1 d2 i F1 Hc Hi ltac:(destruct H as [(e & _ & _ & Hd)|(v & Ev & _)]; eauto)) as (F3 & Hraise & Hv).
    assert (Hdocs : documents d' = documents d) by (by rewrite F2, F3, F1). assert (Hchunks : chunks d' = chunks d2) by (by rewrite F2).
    assert (Hnoted : ∀ o, chunks d2 = chunks d0 ++ [notification ctx i o output] → noted d') by (intros q Hq; exists i, q; by rewrite Hdocs, Hchunks).
    split; [split; [|split; [|split; [|apply M]]]|split; [done|]].
    + constructor.
      * rewrite F2, F3, F1, (ei_frame d I). by destruct d0.
      * apply M.
      * rewrite (rm_runs _ _ _ _ _ _ M). apply I.
      * rewrite Hdocs. apply I.
      * rewrite Hdocs. apply I.
      * intros y. rewrite (rm_others _ _ _ _ _ _ M), Hdocs by done. apply I.
      * intros y. rewrite (rm_others _ _ _ _ _ _ M) by done. apply I.
      * rewrite (rm_row _ _ _ _ _ _ M). split; [done|]. destruct H as [(e & _ & -> & Hd)|(v & Ev & [(_ & _ & ->)|(k & _ & -> & Hr)])].
        { rewrite Hchunks. by apply (Hraise e). }
        { destruct (Hv v Ev) as (_ & q & Hq). by apply (Hnoted q). }
        { destruct (Hv v Ev) as (-> & q & Hq). split; [by apply (Hnoted q)|eauto]. }
    + intros v ->. destruct H as [(e & [=] & _)|(w & _ & [(_ & [=] & _)|(k & [= ->] & Hs & Hr)])].
      exists x. split; [apply M|]. done.
    + intros v Hv'. by apply (not_settled _ _ _ _ Ht) in Hv'.
    + intros y Hy Hs. rewrite (rm_row _ _ _ _ _ _ M) in Hy. injection Hy as <-.
      destruct H as [(e & _ & Hx & _)|(v & _ & [(-> & _)|(k & _ & Hx & _)])]; [congruence|by right|congruence].
Qed.

Lemma step_cases a name m policy armed d o d' : step error_text a ctx name m policy armed d = (o, d') →
  (o = Died ∧ d' = d) ∨
  ∃ p, perform error_text (at_claim a name) (at_done a name) (at_claimant a) ctx name m policy DEFAULT_CLAIM_TTL armed d = (p, d') ∧
       (o = p ∨ o = Died ∧ ∃ v, p = Returned (Ok v)).
Proof.
  unfold step, and_then, maybe_crash. destruct (eqb_opt _ _ _); [intros [= <- <-]; by left|]. cbn beta iota.
  destruct (perform _ _ _ _ _ _ _ _ _ _ _) as [[[v|e]|] d1]; cbn beta iota.
  - destruct (eqb_opt _ _ _); intros [= <- <-]; right; (eexists; split; [done|]); [right|left]; eauto.
  - intros [= <- <-]. right. eexists. split; [done|by left].
  - intros [= <- <-]. right. eexists. split; [done|by left].
Qed.

(** A step that ends well in a process that may also die around it. *)
Lemma step_ends a name m policy armed d o d' (Q : db → Prop) : echo_inv d →
  (∀ p d', perform error_text (at_claim a name) (at_done a name) (at_claimant a) ctx name m policy DEFAULT_CLAIM_TTL armed d = (p, d') →
     ends_well name d p d' ∧ Q d') → Q d →
  step error_text a ctx name m policy armed d = (o, d') → ends_well name d o d' ∧ Q d'.
Proof.
  intros I Hp Hq E. apply step_cases in E as [[-> ->]|(p & Ep & [->|[-> (v & ->)]])]; [|by apply Hp|].
  - split; [|done]. split; [done|]. split; [done|]. split; [|done]. intros v _. by split.
  - destruct (Hp _ _ Ep) as [(I' & _ & Hs & Ho) HQ]. split; [|done]. split; [done|]. split; [done|]. split; [|done].
    intros w Hw. split; [by apply (Hs w)|done].
Qed.

Lemma reserving_step a armed d o d' : echo_inv d →
  step error_text a ctx "reserve" (_reserve (at_effect a "reserve") (at_document a) ctx message digest) SAFE_TO_REPEAT armed d = (o, d') →
  ends_well "reserve" d o d'.
Proof using Hrun.
  intros I E. apply (step_ends _ _ _ _ _ _ _ _ (fun _ => True) I) in E as [? _]; [done| |done].
  intros p d2 Ep. split; [|done]. by apply reserve_ends in Ep.
Qed.

Lemma transform_step a armed d o d' : echo_inv d →
  step error_text a ctx "transform" (_transform upper message digest) SAFE_TO_REPEAT armed d = (o, d') → ends_well "transform" d o d'.
Proof using Hrun.
  intros I E. apply (step_ends _ _ _ _ _ _ _ _ (fun _ => True) I) in E as [? _]; [done| |done].
  intros p d2 Ep. split; [|done]. by apply transform_ends in Ep.
Qed.

Definition announcing (a : attempt) : M db json :=
  out <- text_field str_of "output" (transformed upper message digest) ;; _announce (at_notification a) ctx digest out.

Lemma announce_step a armed d o d' : echo_inv d → ready d →
  step error_text a ctx "announce" (announcing a) NEEDS_RECONCILIATION armed d = (o, d') →
  ends_well "announce" d o d' ∧ ready d' ∧
  ∀ x, eff "announce" d' = Some x → se_status x = started → eff "announce" d = Some x ∨ armed = Some "mid:announce".
Proof using Hrun.
  intros I Hready. apply (step_ends _ _ _ _ _ _ _ _ (fun d3 => ready d3 ∧ ∀ x, eff "announce" d3 = Some x → se_status x = started →
      eff "announce" d = Some x ∨ armed = Some "mid:announce") I); [|split; [done|by left]].
  intros p d4 Ep. destruct (announce_ends _ _ _ _ _ _ _ _ _ I Hready eq_refl Ep) as (W & R & Hx). split; [exact W|]. split; [exact R|].
  intros x H1 H2. destruct (Hx x H1 H2) as [->|]; [by left|by right].
Qed.

(** The run is over: every step has its result. *)
Definition over (i j : uuid) (d : db) : Prop :=
  settled "reserve" (reserved i) d ∧ settled "transform" (transformed upper message digest) d ∧ settled "announce" (announced j) d ∧
  held i (documents d) ∧ ∃ o, chunks d = chunks d0 ++ [notification ctx i o output].

Definition report_of (i j : uuid) (repeated : list string) : json :=
  echo_report (JStr output) digest (JStr (uuid_str i)) (JStr (uuid_str j)) repeated.

Lemma settled_unique name v w d : settled name v d → settled name w d → v = w.
Proof. intros (x & Hx & _ & Hv) (y & Hy & _ & Hw). congruence. Qed.

Lemma id_text k i j : JObj [(k, JStr (uuid_str i))] = JObj [(k, JStr (uuid_str j))] → uuid_str i = uuid_str j.
Proof. intros E. exact (f_equal (fun v => match v with JObj [(_, JStr s)] => s | _ => "" end) E). Qed.

Lemma settled_over d v w : echo_inv d → ready d → settled "reserve" v d → settled "announce" w d →
  ∃ i j, v = reserved i ∧ w = announced j ∧ over i j d.
Proof.
  intros I [_ Ht] Hv Hw. pose proof Hv as (x & Hx & Hs & Hr). destruct (ei_reserve d I x Hx Hs) as (i & Hi & Hh).
  pose proof Hw as (y & Hy & Hsy & Hry). pose proof (ei_announce d I) as Ha. rewrite Hy, Hsy in Ha. destruct Ha as (_ & (i' & o & Hh' & Hc) & j & Hj).
  assert (i' = i) as ->. { destruct Hh as (z & Hz & <- & _), Hh' as (z' & Hz' & <- & _). rewrite Hz in Hz'. by injection Hz' as <-. }
  assert (v = reserved i) as -> by congruence. assert (w = announced j) as -> by congruence. exists i, j. split; [done|]. split; [done|].
  split; [done|]. split; [done|]. split; [done|]. split; [done|]. by exists o.
Qed.


(** One delivery. *)
Definition delivered (armed : option string) (d : db) (o : ending json) (d' : db) : Prop :=
  echo_inv d' ∧
  (∀ v, o = Returned (Ok v) → ∃ i j repeated, v = report_of i j repeated ∧ over i j d') ∧
  (∀ i j, over i j d → d' = d ∧ ∀ v, o = Returned (Ok v) → v = report_of i j STEPS) ∧
  ∀ x, eff "announce" d' = Some x → se_status x = started → eff "announce" d = Some x ∨ armed = Some "mid:announce".

Lemma settled_kept name v d d' : eff name d' = eff name d → settled name v d → settled name v d'.
Proof. intros E (x & Hx & H). exists x. by rewrite E. Qed.

(** A delivery that stops at one of the first two steps. *)
Lemma delivered_stopped name armed d p d' (o : ending json) : ends_well name d p d' →
  name = "reserve" ∨ name = "transform" → o = Died ∨ (∃ e, o = Returned (Raise e)) → delivered armed d o d'.
Proof.
  intros (I & _ & Hs & Ho) Hn Hend. split; [exact I|]. split; [|split].
  - intros v ->. by destruct Hend as [|(e & ?)].
  - intros i j (Hr & Ht & _). split; [|intros v ->; by destruct Hend as [|(e & ?)]].
    destruct Hn as [-> | ->]; [by destruct (Hs _ Hr)|by destruct (Hs _ Ht)].
  - intros x Hx _. left. rewrite <- Ho; [done|]. by destruct Hn as [-> | ->].
Qed.

(** A delivery that stops later. *)
Lemma delivered_after name armed d p d1 (o : ending json) d' : ends_well name d p d1 → name = "reserve" ∨ name = "transform" →
  o = Died ∨ (∃ e, o = Returned (Raise e)) → delivered armed d1 o d' → delivered armed d o d'.
Proof.
  intros (_ & _ & Hs & Ho) Hn Hend (I' & H1 & H2 & H3). split; [exact I'|]. split; [exact H1|]. split.
  - intros i j Hover. assert (d1 = d) as ->; [|by apply H2]. destruct Hover as (Hr & Ht & _).
    destruct Hn as [-> | ->]; [by destruct (Hs _ Hr)|by destruct (Hs _ Ht)].
  - intros x Hx Hst. destruct (H3 x Hx Hst) as [Hx'|]; [|by right]. left. rewrite <- Ho; [done|]. by destruct Hn as [-> | ->].
Qed.

(** The last step of a delivery and its report. *)
Definition last_step (a : attempt) (r1 t1 : EffectOutcome) : process db json :=
  n <~ step error_text a ctx "announce" (out <- text_field str_of "output" (eo_result t1) ;; _announce (at_notification a) ctx digest out)
         NEEDS_RECONCILIATION ;~
  of_code (
    out <- field "output" (eo_result t1) ;;
    document <- field "document_id" (eo_result r1) ;;
    sent <- field "notification_id" (eo_result n) ;;
    ret (echo_report out digest document sent (repeated_steps [r1; t1; n]))).

Lemma last_step_ends a r1 t1 d o d' : echo_inv d → settled "reserve" (eo_result r1) d → settled "transform" (eo_result t1) d →
  last_step a r1 t1 (armed_at (at_environ a)) d = (o, d') →
  echo_inv d' ∧
  (∀ v, o = Returned (Ok v) → ∃ i j repeated, v = report_of i j repeated ∧ over i j d') ∧
  (∀ i j, over i j d → d' = d ∧ (eo_repeated r1 = true → eo_repeated t1 = true → ∀ v, o = Returned (Ok v) → v = report_of i j STEPS)) ∧
  ∀ x, eff "announce" d' = Some x → se_status x = started → eff "announce" d = Some x ∨ armed_at (at_environ a) = Some "mid:announce".
Proof using Hrun.
  intros I Hr Ht E. set (armed := armed_at (at_environ a)) in *.
  assert (Htr : eo_result t1 = transformed upper message digest).
  { destruct Ht as (x & Hx & Hs & Hv). rewrite (ei_transform d I x Hx Hs) in Hv. congruence. }
  unfold last_step in E. rewrite Htr in E, Ht. assert (Hready : ready d) by (split; [by exists (eo_result r1)|done]).
  apply and_then_cases in E as [[E ->]|[(e & E & ->)|(n & d3 & E & E4)]]; apply (announce_step _ _ _ _ _ I Hready) in E as ((I3 & Hok & Hs & Ho) & R3 & Hm).
  - split; [done|]. split; [done|]. split; [|done]. intros i j (_ & _ & Hn & _). split; [by destruct (Hs _ Hn)|done].
  - split; [done|]. split; [done|]. split; [|done]. intros i j (_ & _ & Hn & _). split; [by destruct (Hs _ Hn)|done].
  - specialize (Hok n eq_refl). apply (settled_kept _ _ _ d3) in Hr; [|by apply Ho].
    destruct (settled_over d3 _ _ I3 R3 Hr Hok) as (i & j & Ei & Ej & Hover). rewrite Ei, Ej in E4.
    unfold of_code in E4. cbn in E4. injection E4 as <- <-. split; [done|]. split; [|split; [|done]].
    + intros v [= <-]. exists i, j, (repeated_steps [r1; t1; n]). split; [done|exact Hover].
    + intros i' j' (Hr' & _ & Hn' & Hrest). destruct (Hs _ Hn') as [-> Hrep]. split; [done|]. intros R1 R2 v [= <-].
      rewrite Ei in Hr. rewrite Ej in Hok. unfold report_of.
      rewrite (id_text _ _ _ (settled_unique _ _ _ _ Hr Hr')), (id_text _ _ _ (settled_unique _ _ _ _ Hok Hn')). f_equal. unfold repeated_steps. cbn. by rewrite R1, R2, (Hrep n eq_refl).
Qed.

Lemma run_ends a d o d' : echo_inv d → execute a d = (o, d') → delivered (armed_at (at_environ a)) d o d'.
Proof using Hrun.
  unfold execute, run. intros I E. apply and_then_cases in E as [[E _]|[(e & E & ->)|(u & s & E & E1)]].
  { by unfold of_code in E; destruct (guard _ _ d). }
  { unfold of_code, guard in E. destruct (nonempty _) in E; [done|]. injection E as _ <-. split; [done|]. split; [done|]. split; [|by left]. by split. }
  assert (s = d) as -> by (unfold of_code, guard in E; destruct (nonempty _) in E; [by injection E as _ <-|done]). clear E u.
  set (armed := armed_at (at_environ a)) in *.
  apply and_then_cases in E1 as [[E1 ->]|[(e & E1 & ->)|(o1 & d1 & E1 & E2)]]; apply (reserving_step _ _ _ _ _ I) in E1;
    [apply (delivered_stopped _ _ _ _ _ _ E1); eauto..|].
  pose proof E1 as (I1 & Hr1 & Hs1 & Ho1). specialize (Hr1 o1 eq_refl).
  apply and_then_cases in E2 as [[E2 ->]|[(e & E2 & ->)|(o2 & d2 & E2 & E3)]]; apply (transform_step _ _ _ _ _ I1) in E2;
    [apply (delivered_after _ _ _ _ _ _ _ E1); [by left|eauto|apply (delivered_stopped _ _ _ _ _ _ E2); eauto]..|].
  pose proof E2 as (I2 & Ht2 & Hs2 & Ho2). specialize (Ht2 o2 eq_refl). apply (settled_kept _ _ _ d2) in Hr1; [|by apply Ho2].
  destruct (last_step_ends a o1 o2 d2 o d' I2 Hr1 Ht2 E3) as (I3 & H1 & H2 & H3). split; [exact I3|]. split; [exact H1|]. split.
  - intros i j Hover. pose proof Hover as (Hr & Ht & _). destruct (Hs1 _ Hr) as [-> Q1]. destruct (Hs2 _ Ht) as [-> Q2].
    destruct (H2 i j Hover) as [-> Hv]. split; [done|]. apply Hv; [by apply Q1|by apply Q2].
  - intros x Hx Hst. destruct (H3 x Hx Hst) as [Hx'|]; [|by right]. left. by rewrite <- Ho1, <- Ho2.
Qed.

(** ** Recovery *)

Definition uncancelled (d : db) : Prop := (cancellation_point ctx d).1 = Ok tt.
Definition released (a : attempt) (d : db) : Prop := ∀ n x, eff n d = Some x → claim_live (at_claim a n) x = false.
(** No other document of the tenant has the message's bytes. *)
Definition sole : Prop := ∀ x, In x (documents d0) → visible t (has_sha digest) x = true → mine ctx digest x = true.

Lemma uncancelled_inv d : echo_inv d → uncancelled d0 → uncancelled d.
Proof. intros I U. unfold uncancelled. rewrite (cancellation_runs ctx d0 d), U; [done|]. by rewrite (ei_frame d I). Qed.

Lemma step_unarmed a name m policy d o d' :
  perform error_text (at_claim a name) (at_done a name) (at_claimant a) ctx name m policy DEFAULT_CLAIM_TTL None d = (o, d') →
  step error_text a ctx name m policy None d = (o, d').
Proof. intros E. unfold step, and_then, maybe_crash. cbn beta iota delta [eqb_opt]. rewrite E. by destruct o as [[v|e]|]. Qed.

(** A step that may be repeated runs, or has been stored. *)
Lemma step_runs a name m d : echo_inv d → uncancelled d0 → (∀ x, eff name d = Some x → claim_live (at_claim a name) x = false) →
  (∀ d, side_effects (m d).2 = side_effects d) → (∀ d1 x, moved t r name d d1 x → ∃ v d2, m d1 = (Ok v, d2)) →
  ∃ v d', step error_text a ctx name m SAFE_TO_REPEAT None d = (Returned (Ok v), d').
Proof using Hrun.
  intros I U Hl Hm He. pose proof (uncancelled_inv d I U) as U'. destruct (eff name d) as [x|] eqn:Ex.
  - destruct (se_status x) eqn:Es.
    2: { eexists _, d. apply step_unarmed. by apply (perform_stored _ _ r Hrun _ _ _ _ _ _ _ _ _ _ (ei_ok d I) U' Ex Es). }
    all: edestruct (perform_runs error_text ctx r Hrun (at_claim a name) (at_done a name) (at_claimant a) name m SAFE_TO_REPEAT DEFAULT_CLAIM_TTL None d (ei_ok d I) Hm U')
      as (v & d' & E & _); [rewrite Ex; cbn; rewrite Es; tauto|by rewrite Ex|done|exact He|]; exists v, d'; by apply step_unarmed.
  - edestruct (perform_runs error_text ctx r Hrun (at_claim a name) (at_done a name) (at_claimant a) name m SAFE_TO_REPEAT DEFAULT_CLAIM_TTL None d (ei_ok d I) Hm U')
      as (v & d' & E & _); [by rewrite Ex|by rewrite Ex|done|exact He|]. exists v, d'. by apply step_unarmed.
Qed.

Lemma elsewhere_in d x : echo_inv d → In x (documents d) → mine ctx digest x = false → In x (documents d0).
Proof.
  intros I Hx Hm. assert (Hin : In x (elsewhere ctx digest (documents d))) by (apply filter_In; by rewrite Hm).
  rewrite (ei_elsewhere d I) in Hin. by apply (proj1 (filter_In _ _ _)) in Hin as [? _].
Qed.

Lemma reserve_runs now fresh d d1 : echo_inv d → documents d1 = documents d → (∀ x, In x (documents d0) → dc_id x ≠ fresh) →
  ∃ v d2, _reserve now fresh ctx message digest d1 = (Ok v, d2).
Proof.
  intros I E Hf. unfold _reserve, tenant_session, tx. change (visible t (Documents.named "echo" (file_of digest))) with (mine ctx digest).
  unfold bind at 1, sql_select, gets. cbn [rows table_documents]. rewrite E.
  destruct (select_where (mine ctx digest) (documents d)) as [|y l] eqn:Em; [|unfold bind, sql_update; cbn; eauto].
  unfold Documents.insert_document, bind, get, guard. cbn beta iota. rewrite E.
  destruct (existsb _ _) eqn:Ex; cbn; [|eauto]. exfalso. apply existsb_exists in Ex as (x & Hx & Hc).
  assert (Hm : mine ctx digest x = false) by exact (proj1 (select_where_nil _ _) Em x Hx).
  unfold Documents.document_clash in Hc. apply orb_true_iff in Hc as [Hc|Hc].
  - apply (Hf x); [by apply (elsewhere_in d)|]. unfold Documents.by_id in Hc. by apply N.eqb_eq in Hc.
  - apply andb_true_iff in Hc as [_ Hc]. unfold mine in Hm. cbn in Hc. congruence.
Qed.

(** Exactly the held document has the message's bytes. *)
Lemma sole_held d i : echo_inv d → sole → held i (documents d) → ∃ x, select_where (visible t (has_sha digest)) (documents d) = [x].
Proof.
  intros I Hs (x & Hx & _ & Hsha). exists x. rewrite <- Hx. apply List.filter_ext_in. intros y Hy.
  destruct (mine ctx digest y) eqn:Em.
  - assert (Hin : In y (select_where (mine ctx digest) (documents d))) by (by apply filter_In). rewrite Hx in Hin. destruct Hin as [<-|[]].
    unfold mine, visible in *. bool_to_prop. unfold has_sha. by rewrite Hsha, String.eqb_refl, (proj2 (N.eqb_eq _ _) H).
  - destruct (visible t (has_sha digest) y) eqn:Ev; [|done]. rewrite (Hs y) in Em; [done| |done]. by apply (elsewhere_in d).
Qed.

Lemma announce_recovers a d r1 t1 : echo_inv d → uncancelled d0 → (∀ x, eff "announce" d = Some x → claim_live (at_claim a "announce") x = false) →
  sole → (∀ y, In y (chunks d0) → ch_canonical_id y ≠ canonical_of (run_id ctx)) →
  settled "reserve" (eo_result r1) d → settled "transform" (eo_result t1) d →
  ∃ o d', last_step a r1 t1 None d = (o, d') ∧
    ((∃ v, o = Returned (Ok v)) ∨
     ∃ x, eff "announce" d = Some x ∧ se_status x = started ∧ o = Returned (Raise (NeedsReconciliation "announce" (se_attempt x)))).
Proof using Hrun.
  intros I U Hl Hsole Hno Hr Ht. pose proof (uncancelled_inv d I U) as U'.
  assert (Htr : eo_result t1 = transformed upper message digest).
  { destruct Ht as (x & Hx & Hs & Hv). rewrite (ei_transform d I x Hx Hs) in Hv. congruence. }
  assert (Hready : ready d) by (rewrite Htr in Ht; split; [by exists (eo_result r1)|done]).
  assert (Hfin : ∀ n d', step error_text a ctx "announce" (announcing a) NEEDS_RECONCILIATION None d = (Returned (Ok n), d') →
    ∃ v, last_step a r1 t1 None d = (Returned (Ok v), d')).
  { intros n d' E. unfold last_step. rewrite Htr, (and_then_run _ _ _ _ _ _ E).
    apply (announce_step _ _ _ _ _ I Hready) in E as ((I3 & Hok & _ & Ho) & R3 & _). specialize (Hok n eq_refl).
    apply (settled_kept _ _ _ d') in Hr; [|by apply Ho]. destruct (settled_over d' _ _ I3 R3 Hr Hok) as (i & j & -> & -> & _). by eexists. }
  assert (Htry : takeable NEEDS_RECONCILIATION (eff "announce" d) → chunks d = chunks d0 →
    ∃ v d', last_step a r1 t1 None d = (Returned (Ok v), d')).
  { intros Htk Hc. edestruct (perform_runs error_text ctx r Hrun (at_claim a "announce") (at_done a "announce") (at_claimant a) "announce"
      (announcing a)
      NEEDS_RECONCILIATION DEFAULT_CLAIM_TTL None d (ei_ok d I)) as (n & d' & E & _); [intros; apply announce_effects|exact U'|exact Htk|exact Hl|done| |].
    - intros d1 x M. change (∃ v d2, _announce (at_notification a) ctx digest output d1 = (Ok v, d2)).
      destruct Hr as (y & Hy & Hs & _). destruct (ei_reserve d I y Hy Hs) as (i & _ & Hh). destruct (sole_held d i I Hsole Hh) as (z & Hz).
      rewrite (mv_frame _ _ _ _ _ _ M). apply (announce_runs _ _ _ _ _ z); [exact Hz|]. intros q Hq. apply Hno. rewrite <- Hc. exact Hq.
    - apply step_unarmed in E. destruct (Hfin n d' E) as (v & Ev). eauto. }
  pose proof (ei_announce d I) as Ha. destruct (eff "announce" d) as [x|] eqn:Ex.
  - destruct Ha as [_ Ha]. destruct (se_status x) eqn:Es.
    + pose proof (perform_abandoned error_text ctx r Hrun (at_claim a "announce") (at_done a "announce") (at_claimant a) "announce"
        (announcing a)
        DEFAULT_CLAIM_TTL None d x (ei_ok d I) U' Ex Es (Hl x eq_refl)) as E.
      apply step_unarmed in E. eexists _, d. split; [|right; eauto]. unfold last_step, and_then. rewrite Htr. unfold announcing in E. by rewrite E.
    + pose proof (perform_stored error_text ctx r Hrun (at_claim a "announce") (at_done a "announce") (at_claimant a) "announce"
        (announcing a)
        NEEDS_RECONCILIATION DEFAULT_CLAIM_TTL None d x (ei_ok d I) U' Ex Es) as E.
      apply step_unarmed in E. destruct (Hfin _ _ E) as (v & Ev). eexists _, _. split; [exact Ev|]. left. eauto.
    + destruct (Htry ltac:(by left) Ha) as (v & d' & E). eexists _, _. split; [exact E|]. left. eauto.
  - destruct (Htry Logic.I Ha) as (v & d' & E). eexists _, _. split; [exact E|]. left. eauto.
Qed.

(** A delivery nobody kills completes the run, or finds an announcement to reconcile. *)
Lemma delivery_recovers a d : echo_inv d → nonempty message = true → uncancelled d0 → released a d → armed_at (at_environ a) = None → sole →
  (∀ x, In x (documents d0) → dc_id x ≠ at_document a) → (∀ y, In y (chunks d0) → ch_canonical_id y ≠ canonical_of (run_id ctx)) →
  ∃ o d', execute a d = (o, d') ∧
    ((∃ v, o = Returned (Ok v)) ∨
     ∃ x, eff "announce" d = Some x ∧ se_status x = started ∧ o = Returned (Raise (NeedsReconciliation "announce" (se_attempt x)))).
Proof using Hrun.
  intros I Hm U Hl Ha Hsole Hfresh Hno. unfold execute, run. rewrite Ha.
  rewrite (and_then_run _ _ _ _ tt d) by (unfold of_code, guard; by rewrite Hm).
  destruct (step_runs a "reserve" (_reserve (at_effect a "reserve") (at_document a) ctx message digest) d I U (Hl "reserve")) as (r1 & d1 & E1).
  { intros d1. apply reserve_effects. }
  { intros d1 x M. apply (reserve_runs _ _ d); [done| |done]. by rewrite (mv_frame _ _ _ _ _ _ M). }
  rewrite (and_then_run _ _ _ _ _ _ E1). apply (reserving_step _ _ _ _ _ I) in E1 as (I1 & Hr1 & _ & Ho1). specialize (Hr1 r1 eq_refl).
  destruct (step_runs a "transform" (_transform upper message digest) d1 I1 U) as (t1 & d2 & E2); [|done|by eexists _, _|].
  { intros x. rewrite Ho1 by done. apply Hl. }
  rewrite (and_then_run _ _ _ _ _ _ E2). apply (transform_step _ _ _ _ _ I1) in E2 as (I2 & Ht1 & _ & Ho2). specialize (Ht1 t1 eq_refl).
  apply (settled_kept _ _ _ d2) in Hr1; [|by apply Ho2].
  assert (Ha2 : eff "announce" d2 = eff "announce" d) by (by rewrite Ho2, Ho1).
  destruct (announce_recovers a d2 r1 t1 I2 U) as (o & d' & E & H); [rewrite Ha2; apply Hl|done|done|done|done|].
  rewrite Ha2 in H. exists o, d'. split; [exact E|exact H].
Qed.

Lemma deliveries_inv l d : echo_inv d → (∀ x, eff "announce" d = Some x → se_status x ≠ started) →
  let d' := deliveries sha256 upper str_of error_text ctx payload l d in
  echo_inv d' ∧ ∀ x, eff "announce" d' = Some x → se_status x = started → ∃ a, In a l ∧ armed_at (at_environ a) = Some "mid:announce".
Proof using Hrun.
  intros I Hx. cbn zeta. induction l as [|a l IH] using rev_ind; [split; [exact I|]; intros x H1 H2; by apply Hx in H1|].
  unfold deliveries. rewrite foldl_app. cbn [foldl]. destruct IH as [I' Hs]. destruct (execute a _) as [o d'] eqn:E. cbn [snd].
  apply run_ends in E as (I2 & _ & _ & Hm); [|exact I']. split; [exact I2|]. intros x H1 H2. destruct (Hm x H1 H2) as [H|H].
  - destruct (Hs x H H2) as (b & Hb & Hb'). exists b. split; [apply in_app_iff; by left|done].
  - exists a. split; [apply in_app_iff; right; by left|done].
Qed.

End survival.

(** * What a crash leaves *)

(** C14: a killed run loses nothing and repeats nothing.  Deliver a run with a text any number of
    times, each killed at any crash point or none, where the tenant began with at most one
    current document under the message's file name and the run with no recorded effect: its
    notification is there at most once, its document is the only one current under its name,
    and no other row of any table has changed.  A delivery that returns has announced exactly
    once, and any later one returns the same result, every step repeated, and changes nothing.
    And a delivery nobody kills, once the claims of the dead have expired, of a run that was
    not cancelled, in a tenant where no other document has the message's bytes ([sole];
    [a_twin_is_never_announced] shows why) and with new ids that are fresh, completes the run
    whatever was killed before it, except that a death between the announcement and its
    record leaves the announcement made and the run asking for reconciliation. *)
Theorem a_killed_run_recovers (sha256 upper : string → string) (str_of : json → string) (error_text : exn → string)
    (ctx : RequestContext) (r : uuid) (payload : json) (d0 : db) (l : list attempt) :
  let message := message_of str_of payload in let digest := sha256 (utf8 message) in
  let d := deliveries sha256 upper str_of error_text ctx payload l d0 in
  let final i j repeated := echo_report (JStr (upper message)) digest (JStr (uuid_str i)) (JStr (uuid_str j)) repeated in
  let announced_once d := ∃ i o, held ctx digest i (documents d) ∧ chunks d = chunks d0 ++ [notification ctx i o (upper message)] in
  run_id ctx = Some r → nonempty message = true → List.NoDup (effect_keys (side_effects d0)) →
  (∀ e, In e (side_effects d0) → se_run e ≠ r) → count (select_where (mine ctx digest) (documents d0)) <= 1 →
  (chunks d = chunks d0 ∨ announced_once d) ∧
  count (select_where (mine ctx digest) (documents d)) <= 1 ∧ elsewhere ctx digest (documents d) = elsewhere ctx digest (documents d0) ∧
  select_where (fun e => negb (se_run e =? r)%N) (side_effects d) = select_where (fun e => negb (se_run e =? r)%N) (side_effects d0) ∧
  d = d0 <| side_effects := side_effects d |> <| documents := documents d |> <| chunks := chunks d |> ∧
  ∀ a o d', execute sha256 upper str_of error_text ctx payload a d = (o, d') →
    (∀ v, o = Returned (Ok v) → ∃ i j repeated, v = final i j repeated ∧ held ctx digest i (documents d') ∧ announced_once d' ∧
       ∀ a' o' d'', execute sha256 upper str_of error_text ctx payload a' d' = (o', d'') →
         d'' = d' ∧ ∀ v', o' = Returned (Ok v') → v' = final i j STEPS) ∧
    (uncancelled ctx d0 → released ctx r a d → armed_at (at_environ a) = None → sole sha256 str_of ctx payload d0 →
     (∀ x, In x (documents d0) → dc_id x ≠ at_document a) → (∀ y, In y (chunks d0) → ch_canonical_id y ≠ canonical_of (run_id ctx)) →
     (∃ v, o = Returned (Ok v)) ∨
     ((∃ n, o = Returned (Raise (NeedsReconciliation "announce" n))) ∧ announced_once d ∧
      ∃ b, In b l ∧ armed_at (at_environ b) = Some "mid:announce")).
Proof.
  intros message digest d final announced_once Hrun Hm Hnd Hno H1.
  assert (Hnone : ∀ n, rows_of (tenant_of ctx) r n d0 = []).
  { intros n. apply select_where_nil. intros e He. unfold visible, of_step. rewrite (proj2 (N.eqb_neq _ _) (Hno e He)). by rewrite andb_false_r. }
  assert (I0 : echo_inv sha256 upper str_of ctx r payload d0 d0).
  { constructor; unfold eff; try (intros x; rewrite Hnone; done); try done; [by destruct d0| |by rewrite Hnone].
    intros n. split; [done|]. intros e He Hs. apply of_step_key in Hs. injection Hs as Hs _. by destruct (Hno e He). }
  assert (Hfirst : ∀ x, eff (tenant_of ctx) r "announce" d0 = Some x → se_status x ≠ started) by (intros x; unfold eff; by rewrite Hnone).
  destruct (deliveries_inv sha256 upper str_of error_text ctx r Hrun payload d0 l d0 I0 Hfirst) as [I Hmid]. fold d in I, Hmid.
  split; [|split; [apply I|split; [apply I|split; [apply I|split; [apply I|]]]]].
  { pose proof (ei_announce _ _ _ _ _ _ _ d I) as Ha. destruct (eff (tenant_of ctx) r "announce" d) as [x|]; [|left; exact Ha].
    destruct Ha as [_ Ha]. destruct (se_status x); [by right|right; apply Ha|by left]. }
  intros a o d' E. split.
  - intros v Hv. destruct (run_ends sha256 upper str_of error_text ctx r Hrun payload d0 a d o d' I E) as (I' & Hok & _).
    destruct (Hok v Hv) as (i & j & rep & -> & Hover). exists i, j, rep. split; [done|]. pose proof Hover as (_ & _ & _ & Hh & q & Hc).
    split; [exact Hh|]. split; [by exists i, q|]. intros a' o' d'' E'.
    apply (run_ends sha256 upper str_of error_text ctx r Hrun payload d0) in E' as (_ & _ & Hagain & _); [|exact I']. exact (Hagain i j Hover).
  - intros U Hl Ha Hsole Hfresh Hch.
    destruct (delivery_recovers sha256 upper str_of error_text ctx r Hrun payload d0 a d I Hm U Hl Ha Hsole Hfresh Hch) as (o2 & d2 & E2 & H).
    rewrite E in E2. injection E2 as <- <-. destruct H as [H|(x & Hx & Hs & ->)]; [by left|]. right. split; [eauto|].
    split; [|by apply (Hmid x)]. pose proof (ei_announce _ _ _ _ _ _ _ d I) as Hann. rewrite Hx, Hs in Hann. apply Hann.
Qed.

Module EchoDemo.
Definition ctx : RequestContext := Demo.ctx <| Identity.run_id := Some 42%N |>.
Definition payload : json := JObj [("message", JStr "hello")].
(** A delivery at time [s], armed at a point. *)
Definition delivery (s : Z) (environ : option string) : attempt :=
  mkAttempt (fun _ => seconds s) (fun _ => seconds s) (fun _ => seconds s) "w1" (N.of_nat (Z.to_nat (100 + s))) (N.of_nat (Z.to_nat (200 + s))) environ.
Definition sha (s : string) : string := "sha of " +:+ s.
Notation deliver a d := (execute sha (fun s => s +:+ "!") (fun _ => "") exn_class ctx payload a d).
Notation after l d := (deliveries sha (fun s => s +:+ "!") (fun _ => "") exn_class ctx payload l d).
Definition killed_early : list attempt := [delivery 1 (Some "mid:reserve"); delivery 2 (Some "after:transform")].
Definition killed_late : list attempt := killed_early ++ [delivery 400 (Some "mid:announce")].
(** Another document of the tenant with the same bytes. *)
Definition twin : document := mkDocument 7 1 "manuals" "hello.txt" (sha "hello") 5 "k" None 0 None None.
End EchoDemo.
Import EchoDemo.

(** A death before the announcement is recorded asks for reconciliation ever after. *)
Example a_lost_record_is_not_repeated :
  let d := after killed_late empty_db in
  count (chunks d) = 1 ∧ (deliver (delivery 800 None) d).1 = Returned (Raise (NeedsReconciliation "announce" 1)) ∧
  map se_step (incomplete_effects ctx 42 d) = ["announce"].
Proof. by vm_compute. Qed.

(** Where another document of the tenant has the same bytes the INSERT is refused, and the run
    fails at every delivery. *)
Example a_twin_is_never_announced :
  let d := empty_db <| documents := [twin] |> in
  (deliver (delivery 1 None) d).1 = Returned (Raise (IntegrityError "chunk_tenant_collection_canonical_build_uniq")) ∧
  let d1 := (deliver (delivery 1 None) d).2 in
  (deliver (delivery 400 None) d1).1 = Returned (Raise (IntegrityError "chunk_tenant_collection_canonical_build_uniq")).
Proof. by vm_compute. Qed.

Lemma a_killed_run_recovers_witness :
  (∃ v, (deliver (delivery 400 None) (after killed_early empty_db)).1 = Returned (Ok v)) ∧
  count (chunks (after killed_late empty_db)) = 1.
Proof.
  assert (Hd : released ctx 42 (delivery 400 None) (after killed_early empty_db)).
  { intros n x Hx. assert (Hall : forallb (fun x => negb (claim_live (seconds 400) x)) (side_effects (after killed_early empty_db)) = true) by (by vm_compute).
    apply negb_true_iff. apply (proj1 (forallb_forall _ _) Hall). unfold eff in Hx. destruct (rows_of _ _ _ _) as [|y l] eqn:E; [done|].
    injection Hx as ->. assert (In x (rows_of (tenant_of ctx) 42 n (after killed_early empty_db))) as Hin by (rewrite E; by left). exact (proj1 (proj1 (filter_In _ _ _) Hin)). }
  split; [|by vm_compute].
  destruct (deliver (delivery 400 None) (after killed_early empty_db)) as [o d'] eqn:E.
  destruct (a_killed_run_recovers sha (fun s => s +:+ "!") (fun _ => "") exn_class ctx 42 payload empty_db killed_early) as (_ & _ & _ & _ & _ & H);
    [done|done|constructor|done|done|].
  destruct (H _ _ _ E) as [_ Hr]. destruct Hr as [Hv|(_ & _ & b & [<-|[<-|[]]] & Hb)]; [by vm_compute|exact Hd|done|by intros x []|by intros x []|by intros x []|exact Hv|done|done].
Defined.
