(* ===== verification/Routes.v ===== *)
(** The thin routes: runs ([platform_core/api/routes/runs.py]), usage and budget caps
    ([routes/usage.py] and the function of [deploy/migrations/versions/0022_execution_controls.py]
    it calls), tools ([routes/tools.py]), the audit trail ([routes/audit.py]), and the reading
    routes of onboarding and of the backlog of gaps ([routes/onboarding.py], [routes/eval.py])
    over the operations of the components.

    A response is the record of what it carries; [isoformat] of its times belongs to the
    rendering.  The bounds of query parameters and bodies are the framework's 422. *)
From S2P Require Import Prelude Json Text Gaps Onboarding Artifacts Drafting Capabilities Tools Ledger AuditTrail Leases Identity Db.

(** * Runs *)

Record RunView := mkRunView {
  rv_id : uuid;
  rv_workload : string;
  rv_status : run_status;
  rv_attempt : Z;
  rv_available_at : timestamp;
  rv_cancel_requested_at : option timestamp;
  rv_created_at : timestamp;
  rv_started_at : option timestamp;
  rv_finished_at : option timestamp;
  rv_error : option string;
  rv_release : option string
}.

Definition _serialize (r : run) : RunView :=
  mkRunView (r_id r) (r_workload r) (r_status r) (r_attempt r) (r_available_at r) (r_cancel_requested_at r)
    (r_created_at r) (r_started_at r) (r_finished_at r) (r_error r) (r_release r).

Definition newest_run (a b : run) : bool := r_created_at b <=? r_created_at a.

Definition list_runs (ctx : RequestContext) (limit : Z) : M db (list RunView) :=
  tenant_session (
    found <- sql_select (visible (tenant_of ctx) (fun _ => true)) ;;
    ret (map _serialize (firstn (Z.to_nat (Z.min (Z.max limit 1) 200)) (order_by newest_run found)))).

Definition get_run (ctx : RequestContext) (i : uuid) : M db RunView :=
  row <- tenant_session (
    found <- sql_select (visible (tenant_of ctx) (fun r => (r_id r =? i)%N)) ;;
    one_or_none found) ;;
  match row with
  | None => raise (HTTPException 404)
  | Some r => ret (_serialize r)
  end.

Inductive cancel_outcome := run_cancelled | cancellation_requested.

Definition cancel_outcome_str (o : cancel_outcome) : string :=
  match o with run_cancelled => "cancelled" | cancellation_requested => "cancellation_requested" end.

Section cancelling.
Context `{AuditEnv}.

Definition cancel_run (now : timestamp) (ctx : RequestContext) (i : uuid)
    : M db (uuid * cancel_outcome * option timestamp) :=
  updated <- request_cancel now (tenant_of ctx) i (principal_uuid (principal ctx)) ;;
  match updated with
  | None => raise (HTTPException 404)
  | Some r =>
      let outcome := if bool_decide (r_status r = cancelled) then run_cancelled else cancellation_requested in
      audit_record now ctx "run.cancel" SUCCEEDED "run" (uuid_str (r_id r))
        (JObj [("status", JStr (cancel_outcome_str outcome))]) false ;;
      ret (r_id r, outcome, r_cancel_requested_at r)
  end.

End cancelling.

(** * Usage and caps *)

Record CapsUpdate := mkCapsUpdate {
  cu_daily_token_cap : option Z;
  cu_monthly_cost_cap_usd : option Q
}.

Definition valid_caps (p : CapsUpdate) : bool :=
  match cu_daily_token_cap p with Some n => 0 <=? n | None => true end
  && match cu_monthly_cost_cap_usd p with Some q => Qle_bool 0 q | None => true end
  && (is_some (cu_daily_token_cap p) || is_some (cu_monthly_cost_cap_usd p)).

Record UsageReport := mkUsageReport {
  up_tenant : string;
  up_daily_token_cap : Z;
  up_monthly_cost_cap_usd : Q;
  up_tokens_today : Z;
  up_cost_this_month_usd : Q;
  up_reserved_tokens : Z;
  up_reserved_cost_usd : Q;
  up_headroom_tokens : Z;
  up_from_cache : bool;
  up_fail_closed : bool
}.

Record CapsReport := mkCapsReport {
  cr_tenant : string;
  cr_daily_token_cap : Z;
  cr_monthly_cost_cap_usd : Q
}.

(** A [bigint] argument. *)
Definition bigint (n : Z) : bool := n <? 2 ^ 63.

Section usage.
Context `{AuditEnv}.
Variable month_start : timestamp → timestamp.
Variable st : ledger_settings.
Variable repr_float : Q → string.
(** Whether PostgreSQL resolves and answers a call of [platform_set_tenant_budget_caps] with
    this monthly argument, which the driver sends as a double precision or a null: the function
    is declared over [numeric] and returns a double precision column as [numeric]. *)
Variable served : option Q → bool.

Definition usage (now : timestamp) (fault : option exn) (ctx : RequestContext) : M (db * memory) UsageReport :=
  s <- status month_start st now fault ctx ;;
  ret (mkUsageReport (slug (ctx_tenant ctx)) (bs_daily_token_cap s) (bs_monthly_cost_cap_usd s) (bs_tokens_today s)
         (bs_cost_this_month_usd s) (bs_reserved_tokens s) (bs_reserved_cost_usd s) (headroom_tokens s)
         (bs_from_cache s) (ls_budget_fail_closed st)).

(** The function, in a session of the tenant [scope]: the row it leaves, unless there is none. *)
Definition platform_set_tenant_budget_caps (scope t : uuid) (daily : option Z) (monthly : option Q) : M db tenant_row :=
  guard (match daily with Some n => bigint n | None => true end) (OtherError "DataError") ;;
  guard (scope =? t)%N (OtherError "InsufficientPrivilege") ;;
  guard (match daily with Some n => 0 <=? n | None => true end) (OtherError "RaiseException") ;;
  guard (match monthly with Some q => Qle_bool 0 q | None => true end) (OtherError "RaiseException") ;;
  guard (served monthly) (OtherError "ProgrammingError") ;;
  updated <- sql_update (fun r => tn_id r =? t)%N (set_cap_columns daily monthly) ;;
  row <- one_or_none updated ;;
  match row with None => raise (OtherError "NoResultFound") | Some r => ret r end.

Definition caps_detail (previous : BudgetStatus) (r : tenant_row) : json :=
  JObj [("previous_daily_token_cap", JInt (bs_daily_token_cap previous));
        ("previous_monthly_cost_cap_usd", JFloat (repr_float (bs_monthly_cost_cap_usd previous)));
        ("daily_token_cap", JInt (coalesce (tn_daily_token_cap r) (bs_daily_token_cap previous)));
        ("monthly_cost_cap_usd", JFloat (repr_float (coalesce (tn_monthly_cost_cap_usd r) (bs_monthly_cost_cap_usd previous))))].

(** The transaction of the route. *)
Definition write_caps (now : timestamp) (ctx : RequestContext) (previous : BudgetStatus) (p : CapsUpdate) : M db unit :=
  tenant_session (
    updated <- platform_set_tenant_budget_caps (tenant_of ctx) (tenant_of ctx) (cu_daily_token_cap p) (cu_monthly_cost_cap_usd p) ;;
    audit_in_session now (tenant_of ctx) ctx "budget.caps.update" SUCCEEDED "tenant" (uuid_str (tenant_of ctx))
      (caps_detail previous updated) ;;
    ret tt).

Definition set_caps (now : timestamp) (fault : option exn) (p : CapsUpdate) (ctx : RequestContext) : M (db * memory) CapsReport :=
  guard (valid_caps p) (HTTPException 422) ;;
  previous <- status month_start st now fault ctx ;;
  on_db (write_caps now ctx previous p) ;;
  invalidate (Some (tenant_of ctx)) ;;
  current <- status month_start st now fault ctx ;;
  ret (mkCapsReport (slug (ctx_tenant ctx)) (bs_daily_token_cap current) (bs_monthly_cost_cap_usd current)).

End usage.

(** * Tools *)

Record InvocationRequest := mkInvocationRequest {
  ir_run_id : uuid;
  ir_arguments : json;
  ir_approval_id : option uuid
}.

Inductive tool_reply :=
| Invoked (result : ToolInvocation)
| AwaitingApproval (approval : uuid) (tool_name : string).

(** [status_code] of a reply. *)
Definition reply_status (r : tool_reply) : Z := match r with Invoked _ => 200 | AwaitingApproval _ _ => 202 end.

Definition run_context (ctx : RequestContext) (run : uuid) (idempotency_key tool_name : string) : RequestContext :=
  ctx <| run_id := Some run |> <| Identity.idempotency_key := Some idempotency_key |>
    <| labels := <["tool" := tool_name]> (<["task" := "tool"]> (labels ctx)) |>.

Definition list_tools (reg : registry) (_ : RequestContext) : M db (list (string * string * effect_class * bool * string)) :=
  ret (describe reg).

Definition tool_error (tool_name : string) (e : exn) : option (M db tool_reply) :=
  match e with
  | UnknownTool => Some (raise (HTTPException 404))
  | NotAuthorized _ => Some (raise (HTTPException 403))
  | ApprovalRequired i => Some (ret (AwaitingApproval i tool_name))
  | ApprovalInvalid | ToolConflict _ | RunCancelled => Some (raise (HTTPException 409))
  | ToolExecutionUnavailable _ => Some (raise (HTTPException 503))
  | ValueError _ => Some (raise (HTTPException 422))
  | _ => None
  end.

Section tools.
Context `{AuditEnv}.
Variable settings : tool_settings.

Definition invoke_tool (now done_at : timestamp) (fresh_approval fresh_execution : uuid) (reg : registry)
    (header : option string) (tool_name : string) (p : InvocationRequest) (ctx : RequestContext) : M db tool_reply :=
  guard (truthy header) (HTTPException 400) ;;
  let idempotency_key := coalesce header "" in
  try_except
    (r <- invoke settings now done_at fresh_approval fresh_execution reg
            (run_context ctx (ir_run_id p) idempotency_key tool_name) tool_name (ir_arguments p) (ir_run_id p)
            idempotency_key (ir_approval_id p) ;;
     ret (Invoked r))
    (tool_error tool_name).

End tools.

(** * The trail *)

Section trail.
Context `{AuditEnv}.

Definition audit_events (ctx : RequestContext) (limit : Z) : M db (ChainVerification * list audit_event) :=
  guard ((1 <=? limit) && (limit <=? 500)) (HTTPException 422) ;;
  events <- tenant_session (recent ctx limit) ;;
  verification <- tenant_session (verify_chain env_sha256 env_isoformat (tenant_of ctx) (slug (ctx_tenant ctx))) ;;
  ret (verification, events).

End trail.

(** * Reading a drafting session *)

(** The taxonomy of a session as a reviewer is shown it. *)
Inductive schema_section :=
| NoSchema
| SchemaError
| SchemaReport (report : schema_report) (covers : fit).

Record SessionView := mkSessionView {
  sv_session : onboarding_session;
  sv_artifact_counts : gmap string Z;
  sv_corpus : corpus_status;
  sv_schema_yaml : option json;
  sv_predicate_map : option json;
  sv_schema : schema_section
}.

Record QueryList := mkQueryList {
  ql_queries : list json;
  ql_approved : Z;
  ql_edited : Z;
  ql_without_evidence : Z
}.

(** [(artifacts.get("schema") or {}).get("yaml")]. *)
Definition stored_yaml (a : artifact_set) : result (option json) :=
  match truthy_json (as_singletons a !! "schema") with
  | None => Ok None
  | Some (JObj kvs) => Ok (jget "yaml" (JObj kvs))
  | Some _ => Raise (OtherError "AttributeError")
  end.

(** [sum(1 for q in queries if q.get(k))]; a query that is no object raises. *)
Fixpoint count_truthy (k : string) (l : list json) : result Z :=
  match l with
  | [] => Ok 0
  | JObj kvs :: l' =>
      match count_truthy k l' with
      | Ok n => Ok ((if is_some (truthy_json (jget k (JObj kvs))) then 1 else 0) + n)
      | Raise e => Raise e
      end
  | _ :: _ => Raise (OtherError "AttributeError")
  end.

Section sessions.
Context `{AuditEnv}.
Variable str_of : json → string.
(** What [prepare_imports] refuses with, if it refuses, and the engine's parser. *)
Variable engine : option exn.
Variable load_schema : string → result taxonomy.

Definition schema_section_of (schema_yaml : option json) (a : artifact_set) : M db schema_section :=
  match truthy_json schema_yaml with
  | None => ret NoSchema
  | Some (JStr yaml) =>
      match validate_schema_yaml engine load_schema yaml with
      | Raise (OtherError "InvalidSchema") => ret SchemaError
      | Raise e => raise e
      | Ok report =>
          covers <- lift (taxonomy_fit str_of (sr_entity_types report) (as_singletons a !! "instance_table")) ;;
          ret (SchemaReport report covers)
      end
  | Some _ => raise (OtherError "AttributeError")
  end.

Definition view_session (ctx : RequestContext) (sid : uuid) : M db SessionView :=
  session <- get_session ctx sid ;;
  match session with
  | None => raise (HTTPException 404)
  | Some x =>
      counts <- artifact_counts ctx sid ;;
      corpus <- _staleness env_sha256 ctx (os_collection x) (os_stats x) ;;
      artifacts <- artifacts_for ctx sid ;;
      schema_yaml <- lift (stored_yaml artifacts) ;;
      section <- schema_section_of schema_yaml artifacts ;;
      ret (mkSessionView x counts corpus schema_yaml (as_singletons artifacts !! "predicate_map") section)
  end.

Definition list_queries (ctx : RequestContext) (sid : uuid) : M db QueryList :=
  session <- get_session ctx sid ;;
  match session with
  | None => raise (HTTPException 404)
  | Some _ =>
      queries <- candidate_queries ctx sid ;;
      approved <- lift (count_truthy "approved" queries) ;;
      edited <- lift (count_truthy "edited" queries) ;;
      evidenced <- lift (count_truthy "evidence_chunk_ids" queries) ;;
      ret (mkQueryList queries approved edited (count queries - evidenced))
  end.

End sessions.

(** [GET /api/eval/gaps]: the store's default limit. *)
Definition list_gaps (ctx : RequestContext) (c : option string) (include_seeded : bool) : M db (list unanswered_question) :=
  backlog ctx c include_seeded 100.

(** * Cancelling a run *)

Section cancelled_runs.
Context `{AuditEnv}.

(** What cancelling leaves of the runs. *)
Definition with_cancelled (now : timestamp) (ctx : RequestContext) (i : uuid) (d : db) : db :=
  d <| runs := update_where (visible (tenant_of ctx) (cancellable i)) (set_cancel_requested now (principal_uuid (principal ctx))) (runs d) |>.

Lemma cancel_run_spec now ctx i d :
  List.NoDup (map r_id (runs d)) →
  let t := tenant_of ctx in
  (∀ r, In r (runs d) → visible t (cancellable i) r = false) ∧ cancel_run now ctx i d = (Raise (HTTPException 404), d)
  ∨ ∃ r d', In r (runs d) ∧ visible t (cancellable i) r = true ∧
      cancel_run now ctx i d =
        (Ok (i, if bool_decide (r_status r = leased) then cancellation_requested else run_cancelled,
             Some (coalesce (r_cancel_requested_at r) now)), d') ∧
      only_audit (with_cancelled now ctx i d) d'.
Proof.
  intros Hnd t. subst t. set (t := tenant_of ctx). unfold cancel_run. fold t.
  assert (Hp : ∀ r, visible t (cancellable i) r = true → r_id r = i).
  { intros r Hr. unfold visible, cancellable in Hr. by bool_to_prop. }
  assert (Hreq : request_cancel now t i (principal_uuid (principal ctx)) d =
    tx (updated <- sql_update (visible t (cancellable i)) (set_cancel_requested now (principal_uuid (principal ctx))) ;; one_or_none updated) d)
    by reflexivity.
  destruct (update_by_key (T := table_runs) r_id (visible t (cancellable i))
    (set_cancel_requested now (principal_uuid (principal ctx))) i d Hnd Hp) as [[Hn E]|(r & Hr & Hv & E)]; cbn zeta in E.
  - left. split; [done|]. unfold bind at 1. rewrite Hreq. unfold tx. by rewrite E.
  - right. exists r. unfold bind at 1. rewrite Hreq. unfold tx. rewrite E. unfold bind.
    match goal with |- context [audit_record ?a ?b ?c ?e ?f ?g ?h false ?x] =>
      destruct (audit_record_best_effort a b c e f g h x) as (o & d' & Ea) end.
    rewrite Ea. exists d'. split; [done|]. split; [done|]. split; [|by apply audit_record_only_audit in Ea].
    unfold ret. cbn. rewrite (Hp r Hv). unfold visible, cancellable in Hv.
    apply andb_prop in Hv as [_ Hv]. apply andb_prop in Hv as [_ Hv]. by destruct (r_status r).
Qed.

End cancelled_runs.

(** * Changing a cap *)

Section caps.
Context `{AuditEnv}.
Variable month_start : timestamp → timestamp.
Variable st : ledger_settings.

(** Reading a tenant's spend touches only its own window. *)
Definition only_window (t : uuid) (w w' : memory) : Prop :=
  mem_unmetered w' = mem_unmetered w ∧ ∀ u, u ≠ t → mem_cache w' !! u = mem_cache w !! u.

Lemma caps_in_session ctx d w :
  List.NoDup (map tn_id (tenants d)) →
  in_session None (caps st ctx) (d, w) =
    (Ok (daily_cap_of st (tenant_caps (tenant_of ctx) d), monthly_cap_of st (tenant_caps (tenant_of ctx) d)), (d, w)).
Proof.
  intros Hnd. unfold in_session, on_db, tenant_session, tx, caps, bind. cbn [fst snd].
  unfold tenant_session, tx. by rewrite caps_row_unique.
Qed.

Lemma gets_in_session {A} (f : db → A) d w : in_session None (gets f) (d, w) = (Ok (f d), (d, w)).
Proof. done. Qed.

Lemma status_answers now ctx d w :
  List.NoDup (map tn_id (tenants d)) →
  ∃ b w', status month_start st now None ctx (d, w) = (Ok b, (d, w')) ∧
    bs_daily_token_cap b = daily_cap_of st (tenant_caps (tenant_of ctx) d) ∧
    bs_monthly_cost_cap_usd b = monthly_cap_of st (tenant_caps (tenant_of ctx) d) ∧
    only_window (tenant_of ctx) w w'.
Proof.
  intros Hnd. unfold status. unfold bind at 1. unfold get. cbn beta iota zeta delta [snd].
  destruct (fresh_window st now (mem_cache w !! tenant_of ctx)) as [x|] eqn:E.
  - eexists _, w. rewrite (run_bind (ret _) _ _ _ _ eq_refl). rewrite (run_bind _ _ _ _ _ (gets_in_session _ _ _)), (run_bind _ _ _ _ _ (caps_in_session ctx d w Hnd)).
    split; [reflexivity|]. done.
  - eexists _, (w <| mem_cache := <[tenant_of ctx := _]> (mem_cache w) |>).
    erewrite run_bind by reflexivity.
    rewrite (run_bind _ _ _ _ _ (gets_in_session _ _ _)), (run_bind _ _ _ _ _ (caps_in_session ctx d _ Hnd)).
    split; [reflexivity|]. repeat (split; [done|]). intros u Hu. by apply lookup_insert_ne.
Qed.

Lemma status_fault now e ctx d w : ∃ w' e', status month_start st now (Some e) ctx (d, w) = (Raise e', (d, w')) ∧ only_window (tenant_of ctx) w w'.
Proof.
  exists w, e. split; [|done]. unfold status. unfold bind at 1. unfold get. cbn beta iota zeta delta [snd].
  by destruct (fresh_window st now (mem_cache w !! tenant_of ctx)).
Qed.

(** The row a tenant's caps are read from, once they are changed. *)
Definition with_caps (t : uuid) (p : CapsUpdate) (d : db) : db :=
  d <| tenants := update_where (fun r => tn_id r =? t)%N (set_cap_columns (cu_daily_token_cap p) (cu_monthly_cost_cap_usd p)) (tenants d) |>.

Lemma with_caps_ids t p d : map tn_id (tenants (with_caps t p d)) = map tn_id (tenants d).
Proof. apply map_update_where. done. Qed.

Lemma with_caps_read t p u d :
  tenant_caps u (with_caps t p d) =
    if (u =? t)%N then option_map (set_cap_columns (cu_daily_token_cap p) (cu_monthly_cost_cap_usd p)) (tenant_caps u d)
    else tenant_caps u d.
Proof.
  unfold tenant_caps, with_caps. cbn. unfold select_where, update_where.
  destruct (N.eqb_spec u t) as [->|Hut]; induction (tenants d) as [|r l IH]; cbn; [done| |done|].
  - destruct (tn_id r =? t)%N eqn:E; cbn; rewrite E; [done|exact IH].
  - destruct (tn_id r =? t)%N eqn:E; cbn; destruct (tn_id r =? u)%N eqn:E'; try done.
    bool_to_prop. congruence.
Qed.

Variable repr_float : Q → string.
Variable served : option Q → bool.

(** The caps a tenant lives under. *)
Definition caps_of (t : uuid) (d : db) : Z * Q := (daily_cap_of st (tenant_caps t d), monthly_cap_of st (tenant_caps t d)).

(** The function, answered: the tenant's row with the caps it now has. *)
Lemma function_answers t p d row d1 :
  platform_set_tenant_budget_caps served t t (cu_daily_token_cap p) (cu_monthly_cost_cap_usd p) d = (Ok row, d1) →
  served (cu_monthly_cost_cap_usd p) = true ∧ is_some (tenant_caps t d) = true ∧ d1 = with_caps t p d.
Proof.
  unfold platform_set_tenant_budget_caps. intros E.
  do 5 (apply bind_ok in E as ([] & ? & Eg & E); apply guard_ok in Eg as [? ->]).
  apply bind_ok in E as (updated & d2 & E2 & E). injection E2 as <- <-.
  apply bind_ok in E as (found & d3 & E3 & E). pose proof (one_or_none_same _ _ _ _ E3) as ->.
  destruct found as [r|]; [|done]. injection E as <- <-. split; [done|]. split; [|done].
  unfold tenant_caps, one_or_none in *. cbn [rows table_tenants] in E3. by destruct (select_where _ (tenants d)).
Qed.

Lemma write_caps_cases now ctx previous p d r d' :
  write_caps repr_float served now ctx previous p d = (r, d') →
  match r with
  | Raise _ => d' = d
  | Ok _ =>
      served (cu_monthly_cost_cap_usd p) = true ∧ is_some (tenant_caps (tenant_of ctx) d) = true ∧
      only_audit (with_caps (tenant_of ctx) p d) d' ∧
      event_added ctx "budget.caps.update" SUCCEEDED "tenant" (uuid_str (tenant_of ctx)) d d'
  end.
Proof.
  intros E. unfold write_caps, tenant_session in E. destruct r as [[]|e]; [|by apply tx_raise in E].
  apply (proj1 (tx_ok _ _ _ _)) in E. apply bind_ok in E as (row & d1 & E1 & E).
  apply bind_ok in E as (h & d2 & E2 & E). injection E as <-.
  apply function_answers in E1 as (Hs & Hr & ->). repeat (split; [done|]).
  split; [by apply audit_in_session_only_audit in E2|by apply audit_in_session_event in E2].
Qed.

(** ** A cap binds at once *)

(** A change of caps either changes nothing at all, or has put its event on the trail and
    from then on the tenant lives under the caps asked for, which the answer reports and the very
    next reservation is admitted by, whatever spend the process remembered; a cap not asked for
    stays, and no other tenant's caps or remembered spend change. *)
Theorem caps_bind_at_once now fault p ctx d w r d' w' :
  List.NoDup (map tn_id (tenants d)) →
  Routes.set_caps month_start st repr_float served now fault p ctx (d, w) = (r, (d', w')) →
  only_window (tenant_of ctx) w w' ∧
  match r with
  | Raise _ => d' = d
  | Ok answer =>
      valid_caps p = true ∧
      event_added ctx "budget.caps.update" SUCCEEDED "tenant" (uuid_str (tenant_of ctx)) d d' ∧
      only_audit (with_caps (tenant_of ctx) p d) d' ∧
      let c := caps_of (tenant_of ctx) d' in
      c = (coalesce (cu_daily_token_cap p) (caps_of (tenant_of ctx) d).1, coalesce (cu_monthly_cost_cap_usd p) (caps_of (tenant_of ctx) d).2) ∧
      (∀ u, u ≠ tenant_of ctx → caps_of u d' = caps_of u d) ∧
      answer = mkCapsReport (slug (ctx_tenant ctx)) c.1 c.2 ∧
      (∀ later fresh model tokens cost w2, 0 <= tokens → Qle_bool 0 cost = true →
        let d2 := swept later (tenant_of ctx) d' in
        c.1 <= tokens_today later (tenant_of ctx) d' + reserved_tokens later (tenant_of ctx) d2 + tokens
        ∨ (c.2 <= cost_month month_start later (tenant_of ctx) d' + reserved_cost later (tenant_of ctx) d2 + cost)%Q →
        reserve month_start st later None fresh ctx model tokens cost (d', w2) = (Raise BudgetExceededError, (d', w2)))
  end.
Proof.
  intros Hnd E. unfold Routes.set_caps in E. apply bind_cases in E as [(e & E1 & ->)|([] & s1 & E1 & E)].
  { unfold guard in E1. destruct (valid_caps p); [done|]. by injection E1 as _ <- <-. }
  apply guard_ok in E1 as [Hv ->].
  destruct fault as [f|].
  { destruct (status_fault now f ctx d w) as (w1 & e & Es & Hw). rewrite (run_bind_raise _ _ _ _ _ Es) in E. by injection E as <- <- <-. }
  destruct (status_answers now ctx d w Hnd) as (previous & w1 & Es & _ & _ & Hw1). rewrite (run_bind _ _ _ _ _ Es) in E. clear Es.
  unfold bind at 1, on_db in E. cbn [fst snd] in E.
  destruct (write_caps repr_float served now ctx previous p d) as [[u|e] d1] eqn:Ew; apply write_caps_cases in Ew.
  2: { injection E as <- <- <-. by subst. }
  destruct Ew as (_ & Hrow & Ha & He). rewrite (run_bind (invalidate _) _ _ _ _ eq_refl) in E. cbn [fst snd] in E.
  assert (Ht : tenants d1 = tenants (with_caps (tenant_of ctx) p d)) by (by apply (only_audit_keeps tenants _ _ Ha)).
  assert (Hnd1 : List.NoDup (map tn_id (tenants d1))) by (by rewrite Ht, with_caps_ids).
  match type of E with bind _ _ (_, ?m) = _ => destruct (status_answers now ctx d1 m Hnd1) as (current & w3 & Es & Hc1 & Hc2 & Hw3) end.
  rewrite (run_bind _ _ _ _ _ Es) in E. injection E as <- <- <-.
  assert (Hcaps : ∀ u, tenant_caps u d1 = tenant_caps u (with_caps (tenant_of ctx) p d)) by (intros x; unfold tenant_caps; by rewrite Ht).
  split.
  { destruct Hw1 as [? Hw1], Hw3 as [Hm Hw3]. split; [by rewrite Hm|]. intros x Hx. rewrite Hw3 by done.
    etrans; [by apply lookup_delete_ne|]. by apply Hw1. }
  repeat (split; [done|]). cbv zeta. unfold caps_of. split.
  { rewrite Hcaps, with_caps_read, N.eqb_refl. destruct (tenant_caps (tenant_of ctx) d) as [row|]; [|done]. cbn.
    by destruct p as [[?|] [?|]]. }
  split.
  { intros x Hx. rewrite Hcaps, with_caps_read. by rewrite (proj2 (N.eqb_neq _ _) Hx). }
  split; [by rewrite Hc1, Hc2|].
  intros later fresh model tokens cost w2 Hk Hq Hover. rewrite reserve_spec by done. cbn [is_some andb orb].
  assert ((tokens <? 0) || Qltb cost 0 = false) as -> by (apply orb_false_iff; unfold Qltb; rewrite Hq; split; [by apply Z.ltb_ge|done]).
  assert (has_room month_start st later (tenant_of ctx) tokens cost d1 = false) as ->; [|done].
  unfold has_room, Qltb. apply andb_false_iff. cbn [fst snd] in Hover. destruct Hover as [Hover|Hover]; [left; by apply Z.ltb_ge|right].
  apply negb_false_iff. by apply Qle_bool_iff.
Qed.

End caps.

(** * Tools *)

(** The route adds nothing to a call but the mapping of its outcome, and what the call left is
    there also where the answer is an error. *)
Lemma invoke_tool_spec `{AuditEnv} settings now done_at fresh_approval fresh_execution reg header tool_name p ctx d :
  let m := invoke settings now done_at fresh_approval fresh_execution reg
             (run_context ctx (ir_run_id p) (coalesce header "") tool_name) tool_name (ir_arguments p) (ir_run_id p)
             (coalesce header "") (ir_approval_id p) in
  invoke_tool settings now done_at fresh_approval fresh_execution reg header tool_name p ctx d =
    if truthy header then
      (match fst (m d) with
       | Ok i => Ok (Invoked i)
       | Raise e =>
           match e with
           | ApprovalRequired i => Ok (AwaitingApproval i tool_name)
           | UnknownTool => Raise (HTTPException 404)
           | NotAuthorized _ => Raise (HTTPException 403)
           | ApprovalInvalid | ToolConflict _ | RunCancelled => Raise (HTTPException 409)
           | ToolExecutionUnavailable _ => Raise (HTTPException 503)
           | ValueError _ => Raise (HTTPException 422)
           | e => Raise e
           end
       end, snd (m d))
    else (Raise (HTTPException 400), d).
Proof.
  cbv zeta. unfold invoke_tool, guard. destruct (truthy header); [|done].
  unfold try_except, bind, ret at 1. destruct (invoke _ _ _ _ _ _ _ _ _ _ _ _ d) as [[i|e] d']; [done|]. by destruct e.
Qed.

(** * Examples *)

Module RoutesDemo.
#[export] Instance env : AuditEnv := mkAuditEnv (str_take 64) (fun _ => "at") (fun j => j) (Some "r2").
Definition st : ledger_settings := mkLedgerSettings 100 25 false 5000000 900 None.
Definition d0 : db := empty_db <| tenants := [mkTenantRow 1 "acme" (Some 70) None; mkTenantRow 2 "globex" None None] |>.
Definition lower_cap : CapsUpdate := mkCapsUpdate (Some 40) None.
Definition repr_float (_ : Q) : string := "f".
(** Ten tokens spent, as the process remembers. *)
Definition w0 : memory := mkMemory {[1%N := mkWindow 5 10 0]} ∅.
Notation change served p := (Routes.set_caps (fun x => x) st repr_float served 10 None p Demo.ctx (d0, w0)).
End RoutesDemo.
#[local] Existing Instance RoutesDemo.env.

Lemma caps_bind_at_once_witness :
  let s := (RoutesDemo.change (fun _ => true) RoutesDemo.lower_cap).2 in
  caps_of RoutesDemo.st 1 RoutesDemo.d0 = (70, 25%Q) ∧ caps_of RoutesDemo.st 1 s.1 = (40, 25%Q) ∧
  caps_of RoutesDemo.st 2 s.1 = (100, 25%Q) ∧ map ae_action (Db.audit_events s.1) = ["budget.caps.update"] ∧
  reserve (fun x => x) RoutesDemo.st 11 None 91 Demo.ctx "gpt-4o" 40 0 s = (Raise BudgetExceededError, s).
Proof.
  assert (Hnd : List.NoDup (map tn_id (tenants RoutesDemo.d0))).
  { apply List.NoDup_cons; [by intros [|[]]|]. apply List.NoDup_cons; [by intros []|]. apply List.NoDup_nil. }
  assert (Er : fst (RoutesDemo.change (fun _ => true) RoutesDemo.lower_cap) = Ok (mkCapsReport "acme" 40 25)) by (vm_compute; reflexivity).
  assert (Eu : tokens_today 11 1 (RoutesDemo.change (fun _ => true) RoutesDemo.lower_cap).2.1
    + reserved_tokens 11 1 (swept 11 1 (RoutesDemo.change (fun _ => true) RoutesDemo.lower_cap).2.1) = 0) by (vm_compute; reflexivity).
  destruct (RoutesDemo.change (fun _ => true) RoutesDemo.lower_cap) as [r [d' w']] eqn:E. cbn [fst snd] in Er, Eu. subst r.
  destruct (caps_bind_at_once (fun x => x) RoutesDemo.st RoutesDemo.repr_float (fun _ => true) 10 None RoutesDemo.lower_cap Demo.ctx
    RoutesDemo.d0 RoutesDemo.w0 _ d' w' Hnd E) as (_ & _ & (e & He & _ & _ & Ha & _) & _ & Hc & Hother & _ & Hover).
  cbv zeta. cbn [fst snd]. split; [done|]. split; [exact Hc|]. split; [by rewrite (Hother 2%N)|]. split; [by rewrite He; cbn; rewrite Ha|].
  apply (Hover 11 91%N "gpt-4o" 40 0%Q w'); [lia|done|]. left. cbv zeta in Hc.
  change (tenant_of Demo.ctx) with 1%N in *. rewrite Hc, Eu. cbn. lia.
Defined.

(** Where the function is not answered, every change of a cap is an error and none takes effect. *)
Example an_unanswered_function_changes_no_cap :
  RoutesDemo.change (fun _ => false) RoutesDemo.lower_cap = (Raise (OtherError "ProgrammingError"), (RoutesDemo.d0, RoutesDemo.w0)).
Proof. vm_compute. reflexivity. Qed.
