(* ===== verification/Isolation.v ===== *)
(** What the reading routes can tell: every GET handler that [platform_core/api/policy.py]
    declares, answered over one database and one process, and the theorem that the answer is a
    function of the caller's own tenant.

    Two states agree for a tenant when row-level security would show a session of that tenant
    the same rows of every table ([agree]) and the process remembers the same of its spend
    ([near]); a computation only reads ([reads]) when it cannot tell such databases apart and
    changes nothing. *)
From S2P Require Import Prelude Json Text Gaps Onboarding Artifacts Drafting Capabilities Tools Ledger AuditTrail Leases Builds Datasets Gate Documents ObjectStore Access Api Routes Identity Db.

(** * What a tenant sees *)

Section views.
Context {R : Type} `{TenantRow R}.

Definition own (t : uuid) (l : list R) : list R := List.filter (fun r => row_tenant r =? t)%N l.

Lemma select_own t p l : select_where (visible t p) (own t l) = select_where (visible t p) l.
Proof.
  unfold select_where, own. induction l as [|r l IH]; cbn; [done|].
  unfold visible at 2. destruct (row_tenant r =? t)%N eqn:E; cbn; [|done].
  unfold visible at 1. rewrite E. cbn. by destruct (p r); rewrite IH.
Qed.

End views.
#[global] Arguments own : simpl never.

(** The database as a session of the tenant is shown it. Releases and their observations belong
    to no tenant and are the platform's; so does the sequence of the trail. *)
Definition seen_by (t : uuid) (d : db) : db :=
  mkDb (List.filter (fun r => tn_id r =? t)%N (tenants d)) (own t (runs d)) (own t (outboxes d)) (own t (side_effects d))
    (own t (checkpoints d)) (own t (approvals d)) (own t (executions d)) (own t (grants d)) (own t (Db.audit_events d))
    (own t (audit_anchors d)) (own t (usages d)) (own t (reservations d)) (own t (builds d)) (own t (chunks d)) [] []
    (own t (principals d)) (own t (documents d)) (own t (questions d)) (own t (sessions d)) (own t (datasets d))
    (own t (policies d)) (own t (eval_runs d)) (own t (baselines d)) (own t (onboardings d)) (own t (artifacts d))
    (own t (eval_results d)) (own t (item_labels d)) 1.

Definition agree (t : uuid) (d d' : db) : Prop := seen_by t d = seen_by t d'.

#[export] Instance agree_equivalence t : Equivalence (agree t).
Proof. unfold agree. split; [intros d|intros d d' ?|intros d d1 d2 ? ?]; congruence. Qed.

(** The tables under row-level security. *)
Class Scoped (R : Type) `{TenantRow R, Table R} := scoped : ∀ t d, rows (seen_by t d) = own t (rows d).

#[export] Instance scoped_run : Scoped run := fun _ _ => eq_refl.
#[export] Instance scoped_approval : Scoped tool_approval := fun _ _ => eq_refl.
#[export] Instance scoped_grant : Scoped capability_grant := fun _ _ => eq_refl.
#[export] Instance scoped_event : Scoped audit_event := fun _ _ => eq_refl.
#[export] Instance scoped_anchor : Scoped audit_chain_anchor := fun _ _ => eq_refl.
#[export] Instance scoped_usage : Scoped llm_usage := fun _ _ => eq_refl.
#[export] Instance scoped_reservation : Scoped budget_reservation := fun _ _ => eq_refl.
#[export] Instance scoped_build : Scoped collection_build := fun _ _ => eq_refl.
#[export] Instance scoped_chunk : Scoped chunk := fun _ _ => eq_refl.
#[export] Instance scoped_principal : Scoped principal_row := fun _ _ => eq_refl.
#[export] Instance scoped_document : Scoped document := fun _ _ => eq_refl.
#[export] Instance scoped_question : Scoped unanswered_question := fun _ _ => eq_refl.
#[export] Instance scoped_dataset : Scoped eval_dataset := fun _ _ => eq_refl.
#[export] Instance scoped_policy : Scoped continuous_eval_policy := fun _ _ => eq_refl.
#[export] Instance scoped_eval_run : Scoped Db.eval_run := fun _ _ => eq_refl.
#[export] Instance scoped_baseline : Scoped eval_baseline := fun _ _ => eq_refl.
#[export] Instance scoped_onboarding : Scoped onboarding_session := fun _ _ => eq_refl.
#[export] Instance scoped_artifact : Scoped onboarding_artifact := fun _ _ => eq_refl.
#[export] Instance scoped_result : Scoped eval_result := fun _ _ => eq_refl.
#[export] Instance scoped_label : Scoped eval_item_label := fun _ _ => eq_refl.

Lemma agree_select {R} `{Scoped R} t (p : R → bool) d d' :
  agree t d d' → select_where (visible t p) (rows d) = select_where (visible t p) (rows d').
Proof. intros E. by rewrite <- (select_own t p (rows d)), <- (select_own t p (rows d')), <- !scoped, E. Qed.

Lemma agree_tenant t d d' : agree t d d' → tenant_caps t d = tenant_caps t d'.
Proof. intros E. by apply (f_equal (fun x => List.hd_error (tenants x))) in E. Qed.

(** * Computations that only read *)

Definition reads {A} (t : uuid) (m : M db A) : Prop :=
  ∀ d d', agree t d d' → fst (m d) = fst (m d') ∧ snd (m d) = d.

Section closure.
Variable t : uuid.

Lemma reads_ret {A} (a : A) : reads t (ret a).
Proof. done. Qed.

Lemma reads_raise {A} e : reads (A := A) t (raise e).
Proof. done. Qed.

Lemma reads_guard b e : reads t (guard b e).
Proof. by destruct b. Qed.

Lemma reads_bind {A B} (m : M db A) (k : A → M db B) : reads t m → (∀ a, reads t (k a)) → reads t (bind m k).
Proof.
  intros Hm Hk d d' E. destruct (Hm d d' E) as [Ef Es]. destruct (Hm d' d') as [_ Es']; [done|].
  unfold bind. destruct (m d) as [[a|e] d1], (m d') as [[a'|e'] d1']; cbn in Ef, Es, Es'; subst; try done; injection Ef as ->; [|done].
  by apply Hk.
Qed.

Lemma reads_tx {A} (m : M db A) : reads t m → reads t (tenant_session m).
Proof.
  intros Hm d d' E. destruct (Hm d d' E) as [Ef Es]. unfold tenant_session, tx.
  by destruct (m d) as [[a|e] d1], (m d') as [[a'|e'] d1'].
Qed.

Lemma reads_try {A} (m : M db A) h : reads t m → (∀ e, match h e with Some k => reads t k | None => True end) → reads t (try_except m h).
Proof.
  intros Hm Hh d d' E. destruct (Hm d d' E) as [Ef Es]. destruct (Hm d' d') as [_ Es']; [done|]. unfold try_except.
  destruct (m d) as [[a|e] d1], (m d') as [[a'|e'] d1']; cbn in Ef, Es, Es'; subst; try done. injection Ef as ->.
  specialize (Hh e'). destruct (h e') as [k|]; [by apply Hh|done].
Qed.

Lemma reads_select {R} `{Scoped R} (p : R → bool) : reads t (sql_select (visible t p)).
Proof. intros d d' E. split; [|done]. unfold sql_select, gets. cbn. by rewrite (agree_select t p d d' E). Qed.

Lemma reads_one {A} (l : list A) : reads t (one_or_none l).
Proof. by destruct l as [|x [|y l]]. Qed.

Lemma reads_gets {A} (f : db → A) : (∀ d d', agree t d d' → f d = f d') → reads t (gets f).
Proof. intros Hf d d' E. split; [|done]. cbn. by rewrite (Hf d d' E). Qed.

End closure.

Create HintDb reads.
#[export] Hint Resolve reads_ret reads_raise reads_guard reads_one : reads.

Ltac reading :=
  repeat (intros;
    match goal with
    | |- reads _ (bind _ _) => apply reads_bind
    | |- reads _ (tenant_session _) => apply reads_tx
    | |- reads _ (sql_select _) => refine (reads_select _ _)
    | |- reads _ (match ?x with _ => _ end) => destruct x
    | |- reads _ (let '_ := ?x in _) => destruct x
    | |- reads _ _ => solve [auto with reads]
    end).

(** * The handlers *)

Section handlers.
Context `{AuditEnv}.
Variable ctx : RequestContext.
#[local] Notation t := (tenant_of ctx).

Lemma reads_lift {A} (r : result A) : reads t (Onboarding.lift r).
Proof. by destruct r. Qed.

Lemma reads_list_runs limit : reads t (list_runs ctx limit).
Proof. unfold list_runs. reading. Qed.

Lemma reads_get_run i : reads t (Routes.get_run ctx i).
Proof. unfold Routes.get_run. reading. Qed.

Lemma reads_audit_events limit : reads t (Routes.audit_events ctx limit).
Proof. unfold Routes.audit_events, recent, verify_chain. reading. Qed.

Lemma reads_list_approvals status : reads t (tenant_session (list_approvals status ctx)).
Proof. unfold list_approvals. reading. Qed.

Lemma reads_list_members older : reads t (list_members older ctx).
Proof. unfold list_members. reading. Qed.

Lemma reads_list_gaps c b : reads t (list_gaps ctx c b).
Proof. unfold list_gaps, backlog. reading. Qed.

Lemma reads_list_policies : reads t (list_policies ctx).
Proof. unfold list_policies. reading. Qed.

Lemma reads_list_datasets : reads t (list_datasets ctx).
Proof. unfold list_datasets. reading. Qed.

Lemma reads_load n sha : reads t (load ctx n sha).
Proof. unfold load, to_dataset. reading. Qed.

Lemma reads_for_dataset n : reads t (for_dataset ctx n).
Proof. unfold for_dataset. reading. Qed.

Lemma reads_load_run i b : reads t (load_run ctx i b).
Proof. unfold load_run. reading. Qed.

Lemma reads_baseline_row n : reads t (baseline_row ctx n).
Proof.
  unfold baseline_row. reading. apply reads_gets. intros d d' E. unfold baseline_of.
  pose proof (agree_select (R := eval_baseline) (tenant_of ctx) (baseline_named n) d d' E) as Eb. cbn [rows table_baselines] in Eb. rewrite Eb.
  apply flat_map_ext. intros b. exact (agree_select (R := Db.eval_run) (tenant_of ctx) _ d d' E).
Qed.

Lemma reads_history n limit : reads t (Gate.history ctx n limit).
Proof.
  unfold Gate.history. reading. apply reads_gets. intros d d' E.
  pose proof (agree_select (R := Db.eval_run) (tenant_of ctx) (fun _ => true) d d' E) as Er. cbn [rows table_eval_runs] in Er. rewrite Er.
  apply flat_map_ext. intros r.
  pose proof (agree_select (R := eval_dataset) (tenant_of ctx) (fun x => (ed_id x =? er_dataset r)%N && of_name n x) d d' E) as Ed.
  cbn [rows table_datasets] in Ed. rewrite Ed. apply flat_map_ext. intros x.
  pose proof (agree_select (R := eval_baseline) (tenant_of ctx) (fun b => baseline_named (ed_name x) b && (eb_tenant b =? er_tenant r)%N) d d' E) as Eb.
  cbn [rows table_baselines] in Eb. by rewrite Eb.
Qed.
#[local] Hint Resolve reads_lift reads_load reads_for_dataset reads_load_run reads_baseline_row reads_history : reads.

Lemma reads_get_dataset n : reads t (get_dataset ctx n).
Proof. unfold get_dataset. reading. Qed.

Lemma reads_get_eval_run i : reads t (Gate.get_run ctx i).
Proof.
  unfold Gate.get_run, evaluate. reading. apply reads_gets. intros d d' E.
  pose proof (agree_select (R := Db.eval_run) (tenant_of ctx) (fun r => (er_id r =? i)%N) d d' E) as Er. cbn [rows table_eval_runs] in Er. rewrite Er.
  apply flat_map_ext. intros r. f_equal. exact (agree_select (R := eval_dataset) (tenant_of ctx) _ d d' E).
Qed.

Lemma reads_list_sessions domain limit : reads t (Onboarding.list_sessions ctx domain limit).
Proof.
  unfold Onboarding.list_sessions. reading. apply reads_gets. intros d d' E. do 2 f_equal.
  exact (agree_select (R := onboarding_session) (tenant_of ctx) _ d d' E).
Qed.

Lemma reads_live_version c : reads t (live_version_or_none ctx c).
Proof.
  unfold live_version_or_none, live_version, query_live. apply reads_try; [reading|]. by intros [].
Qed.

Lemma reads_fingerprint sha c v : reads t (fingerprint sha ctx c v).
Proof.
  unfold fingerprint. reading. apply reads_gets. intros d d' E. unfold build_ids. do 4 f_equal.
  exact (agree_select (R := chunk) (tenant_of ctx) _ d d' E).
Qed.
#[local] Hint Resolve reads_list_sessions reads_live_version reads_fingerprint : reads.

Lemma reads_staleness c stats : reads t (_staleness env_sha256 ctx c stats).
Proof. unfold _staleness. reading. Qed.
#[local] Hint Resolve reads_staleness : reads.

Lemma reads_domains_from l acc : reads t (domains_from env_sha256 ctx l acc).
Proof.
  revert acc. induction l as [|x l IH]; intros acc; cbn [domains_from]; [apply reads_ret|].
  apply reads_bind; [destruct (is_published x); reading|auto].
Qed.
#[local] Hint Resolve reads_domains_from : reads.

Lemma reads_list_domains : reads t (list_domains env_sha256 ctx).
Proof. unfold list_domains. reading. Qed.

Lemma reads_session sid : reads t (Onboarding.get_session ctx sid).
Proof. unfold Onboarding.get_session, find_session. reading. Qed.

Lemma reads_artifact_counts sid : reads t (artifact_counts ctx sid).
Proof. unfold artifact_counts. reading. Qed.

Lemma reads_artifacts_for sid : reads t (artifacts_for ctx sid).
Proof. unfold artifacts_for. reading. Qed.

Lemma reads_candidate_queries sid : reads t (candidate_queries ctx sid).
Proof. unfold candidate_queries, Onboarding.payload_of. reading. Qed.
#[local] Hint Resolve reads_session reads_artifact_counts reads_artifacts_for reads_candidate_queries : reads.

Lemma reads_schema_section str_of engine load_schema yaml a : reads t (schema_section_of str_of engine load_schema yaml a).
Proof.
  unfold schema_section_of. destruct (truthy_json yaml) as [[]|]; try apply reads_raise; [|apply reads_ret].
  destruct (validate_schema_yaml _ _ _) as [r|e]; [reading|].
  repeat match goal with |- reads _ (match ?x with _ => _ end) => destruct x end; first [apply reads_ret|apply reads_raise].
Qed.
#[local] Hint Resolve reads_schema_section : reads.

Lemma reads_view_session str_of engine load_schema sid : reads t (view_session str_of engine load_schema ctx sid).
Proof. unfold view_session. reading. Qed.

Lemma reads_list_queries sid : reads t (list_queries ctx sid).
Proof. unfold list_queries. reading. Qed.

End handlers.

#[export] Hint Resolve reads_list_runs reads_get_run reads_audit_events reads_list_approvals reads_list_members reads_list_gaps
  reads_list_policies reads_list_datasets reads_get_dataset reads_get_eval_run reads_list_sessions reads_view_session
  reads_list_domains reads_list_queries : reads.

(** * The GET routes *)

(** A request to a route that [ROUTE_CAPABILITIES] declares under GET, by what it is answered with. *)
Inductive get_route : Type → Type :=
| GetMe : get_route MeResponse
| GetRuns (limit : Z) : get_route (list RunView)
| GetRun (i : uuid) : get_route RunView
| GetDocuments (c : option string) (include_superseded : bool) : get_route (list document)
| GetDocument (i : uuid) : get_route document
| GetUsage : get_route UsageReport
| GetAudit (limit : Z) : get_route (ChainVerification * list audit_event)
| GetTools : get_route (list (string * string * effect_class * bool * string))
| GetApprovals (status : string) : get_route (list (tool_approval * bool))
| GetMembers : get_route (list member)
| GetEval : get_route (list (eval_dataset * option eval_baseline * option (Db.eval_run * bool)))
| GetEvalDataset (n : string) : get_route (Dataset * list eval_item_label * review_summary * list (Db.eval_run * bool))
| GetEvalRun (i : uuid) : get_route (EvalRun * option (string * GateDecision))
| GetEvalContinuous : get_route (list continuous_eval_policy)
| GetEvalGaps (c : option string) (include_seeded : bool) : get_route (list unanswered_question)
| GetSessions (domain : option string) : get_route (list onboarding_session)
| GetSession (sid : uuid) : get_route SessionView
| GetDomains : get_route (list domain_entry)
| GetQueries (sid : uuid) : get_route QueryList.

Definition template_of {A} (q : get_route A) : string :=
  match q with
  | GetMe => "/auth/me"
  | GetRuns _ => "/api/runs"
  | GetRun _ => "/api/runs/{run_id}"
  | GetDocuments _ _ => "/api/documents"
  | GetDocument _ => "/api/documents/{document_id}"
  | GetUsage => "/api/usage"
  | GetAudit _ => "/api/audit"
  | GetTools => "/api/tools"
  | GetApprovals _ => "/api/approvals"
  | GetMembers => "/api/members"
  | GetEval => "/api/eval"
  | GetEvalDataset _ => "/api/eval/datasets/{name}"
  | GetEvalRun _ => "/api/eval/runs/{run_id}"
  | GetEvalContinuous => "/api/eval/continuous"
  | GetEvalGaps _ _ => "/api/eval/gaps"
  | GetSessions _ => "/api/onboard/sessions"
  | GetSession _ => "/api/onboard/sessions/{session_id}"
  | GetDomains => "/api/onboard/domains"
  | GetQueries _ => "/api/onboard/sessions/{session_id}/queries"
  end.

(** One request of every form. *)
Definition every_get : list { A & get_route A } :=
  [existT _ GetMe; existT _ (GetRuns 50); existT _ (GetRun 0%N); existT _ (GetDocuments None false); existT _ (GetDocument 0%N);
   existT _ GetUsage; existT _ (GetAudit 100); existT _ GetTools; existT _ (GetApprovals "pending"); existT _ GetMembers;
   existT _ GetEval; existT _ (GetEvalDataset ""); existT _ (GetEvalRun 0%N); existT _ GetEvalContinuous; existT _ (GetEvalGaps None false);
   existT _ (GetSessions None); existT _ (GetSession 0%N); existT _ GetDomains; existT _ (GetQueries 0%N)].

(** Exactly the templates declared under GET. *)
Lemma gets_are_the_declared_ones :
  map (fun q => template_of (projT2 q)) every_get =
  map (fun e => e.1.2) (List.filter (fun e => String.eqb e.1.1 "GET") ROUTE_CAPABILITIES).
Proof. vm_compute. reflexivity. Qed.

(** [WHERE status = :st] over a column of four values. *)
Definition approval_status_of (s : string) : option approval_status :=
  List.find (fun x => String.eqb (approval_status_str x) s) [ap_pending; ap_approved; ap_rejected; ap_expired].

(** What a request runs over beside the database: the ledger's memory and the bucket. *)
Abbreviation world := (memory * bucket)%type (only parsing).

Definition in_memory {A} (m : M (db * memory) A) : M (db * world) A :=
  fun s => let (r, x) := m (s.1, s.2.1) in (r, (x.1, (x.2, s.2.2))).

Definition in_bucket {A} (m : M (db * bucket) A) : M (db * world) A :=
  fun s => let (r, x) := m (s.1, s.2.2) in (r, (x.1, (s.2.1, x.2))).

Section answers.
Context `{AuditEnv}.
Variable older : principal_row → principal_row → bool.
Variable month_start : timestamp → timestamp.
Variable st : ledger_settings.
Variable str_of : json → string.
Variable engine : option exn.
Variable load_schema : string → result taxonomy.
Variable reg : gmap string ToolSpec.
Variable now : timestamp.
Variable fault : option exn.

Definition answer {A} (ctx : RequestContext) (q : get_route A) : M (db * world) A :=
  match q with
  | GetMe => ret (me ctx)
  | GetRuns limit => on_db (list_runs ctx limit)
  | GetRun i => on_db (Routes.get_run ctx i)
  | GetDocuments c b => in_bucket (list_documents ctx c b)
  | GetDocument i => in_bucket (get_document ctx i)
  | GetUsage => in_memory (usage month_start st now fault ctx)
  | GetAudit limit => on_db (Routes.audit_events ctx limit)
  | GetTools => on_db (list_tools reg ctx)
  | GetApprovals status =>
      on_db (tenant_session (match approval_status_of status with Some x => list_approvals x ctx | None => ret [] end))
  | GetMembers => on_db (list_members older ctx)
  | GetEval => on_db (list_datasets ctx)
  | GetEvalDataset n => on_db (get_dataset ctx n)
  | GetEvalRun i => on_db (Gate.get_run ctx i)
  | GetEvalContinuous => on_db (list_policies ctx)
  | GetEvalGaps c b => on_db (list_gaps ctx c b)
  | GetSessions domain => on_db (Onboarding.list_sessions ctx domain 50)
  | GetSession sid => on_db (view_session str_of engine load_schema ctx sid)
  | GetDomains => on_db (list_domains env_sha256 ctx)
  | GetQueries sid => on_db (list_queries ctx sid)
  end.

End answers.

(** * The answer is the tenant's own *)

(** The process remembers the same of the tenant's spend. *)
Definition near (t : uuid) (w w' : memory) : Prop := mem_cache w !! t = mem_cache w' !! t.

(** A computation over the process that only reads and remembers for the tenant alone. *)
Definition reads_with {A} (t : uuid) (m : M (db * memory) A) : Prop :=
  ∀ d d' w w', agree t d d' → near t w w' →
    fst (m (d, w)) = fst (m (d', w')) ∧ (snd (m (d, w))).1 = d ∧
    near t (snd (m (d, w))).2 (snd (m (d', w'))).2 ∧ only_window t w (snd (m (d, w))).2.

Section with_memory.
Variable t : uuid.

Lemma only_window_refl w : only_window t w w.
Proof. done. Qed.

Lemma only_window_trans w w1 w2 : only_window t w w1 → only_window t w1 w2 → only_window t w w2.
Proof. intros [Hm H] [Hm' H']. split; [congruence|]. intros u Hu. by rewrite H', H. Qed.

Lemma reads_with_ret {A} (a : A) : reads_with t (ret a).
Proof. done. Qed.

Lemma reads_with_bind {A B} (m : M (db * memory) A) (k : A → M (db * memory) B) :
  reads_with t m → (∀ a, reads_with t (k a)) → reads_with t (bind m k).
Proof.
  intros Hm Hk d d' w w' E N. destruct (Hm d d' w w' E N) as (Ef & Es & En & Ew).
  destruct (Hm d' d' w' w') as (_ & Es' & _ & _); [done|done|]. unfold bind.
  destruct (m (d, w)) as [r [d1 w1]], (m (d', w')) as [r' [d1' w1']]. cbn in *. subst.
  destruct r' as [a|e]; [|by cbn].
  destruct (Hk a d d' w1 w1' E En) as (Ef & Es & En' & Ew'). repeat (split; [done|]). by apply (only_window_trans w w1).
Qed.

Lemma reads_in_session {A} fault (m : M db A) : reads t m → reads_with t (in_session fault m).
Proof.
  intros Hm d d' w w' E N. destruct (Hm d d' E) as [Ef Es]. unfold in_session, on_db, tenant_session, tx. cbn [fst snd].
  destruct fault as [e|]; [by cbn|]. destruct (m d) as [[a|e] d1], (m d') as [[a'|e'] d1']; cbn in *; subst; done.
Qed.

Lemma reads_with_remember v : reads_with t (remember (fun m => m <| mem_cache := <[t := v]> (mem_cache m) |>)).
Proof.
  intros d d' w w' E N. split; [done|]. split; [done|]. split.
  - unfold near. change (<[t := v]> (mem_cache w) !! t = <[t := v]> (mem_cache w') !! t). by rewrite !lookup_insert_eq.
  - split; [done|]. intros u Hu. by apply lookup_insert_ne.
Qed.

Lemma reads_with_get {A} (k : db * memory → M (db * memory) A) :
  (∀ s s', near t s.2 s'.2 → k s = k s') → (∀ s, reads_with t (k s)) → reads_with t (s <- get ;; k s).
Proof.
  intros Hk Hr d d' w w' E N. unfold bind, get. rewrite (Hk (d', w') (d, w)) by (by symmetry). by apply Hr.
Qed.

Lemma reads_caps_row : reads t (caps_row t).
Proof.
  unfold caps_row. apply reads_bind; [|intros; apply reads_one]. intros d d' E. split; [|done].
  apply (f_equal tenants) in E. cbn in *. by f_equal.
Qed.

End with_memory.

Section usage.
Context `{AuditEnv}.
Variables (month_start : timestamp → timestamp) (st : ledger_settings) (now : timestamp) (fault : option exn) (ctx : RequestContext).
#[local] Notation t := (tenant_of ctx).

Lemma reads_status : reads_with t (status month_start st now fault ctx).
Proof.
  assert (Hu : ∀ d d' p, agree t d d' → select_where (visible t p) (usages d) = select_where (visible t p) (usages d')).
  { intros d d' p E. exact (agree_select (R := llm_usage) t p d d' E). }
  assert (Hr : ∀ d d' p, agree t d d' → select_where (visible t p) (reservations d) = select_where (visible t p) (reservations d')).
  { intros d d' p E. exact (agree_select (R := budget_reservation) t p d d' E). }
  unfold status. apply reads_with_get.
  { intros s s' N. unfold near in N. by rewrite N. }
  intros s. apply reads_with_bind.
  - destruct (fresh_window _ _ _) as [x|]; [apply reads_with_ret|]. apply reads_with_bind.
    + apply reads_in_session, reads_gets. intros d d' E. unfold cost_month. by rewrite !(Hu d d').
    + intros v. apply reads_with_bind; [apply reads_with_remember|]. intros _. apply reads_with_ret.
  - intros totals. apply reads_with_bind.
    + apply reads_in_session, reads_gets. intros d d' E. unfold reserved_tokens, reserved_cost. by rewrite !(Hr d d').
    + intros held. apply reads_with_bind; [|intros limits; apply reads_with_ret].
      apply reads_in_session. unfold caps. apply reads_bind; [apply reads_tx, reads_caps_row|]. intros row. apply reads_ret.
Qed.

Lemma reads_usage : reads_with t (usage month_start st now fault ctx).
Proof. unfold usage. apply reads_with_bind; [apply reads_status|]. intros. apply reads_with_ret. Qed.

End usage.

(** ** Lifting to the process *)

(** An answer that only depends on what the tenant owns, and leaves everything else alone. *)
Definition answers_for {A} (t : uuid) (m : M (db * world) A) : Prop :=
  ∀ d d' w w' b b', agree t d d' → near t w w' →
    fst (m (d, (w, b))) = fst (m (d', (w', b'))) ∧ (snd (m (d, (w, b)))).1 = d ∧
    only_window t w (snd (m (d, (w, b)))).2.1 ∧ (snd (m (d, (w, b)))).2.2 = b.

Lemma answers_on_db {A} t (m : M db A) : reads t m → answers_for t (on_db m).
Proof.
  intros Hm d d' w w' b b' E _. destruct (Hm d d' E) as [Ef Es]. unfold on_db. cbn [fst snd].
  by destruct (m d) as [r d1], (m d') as [r' d1']; cbn in *; subst.
Qed.

Lemma answers_in_bucket {A} t (m : M db A) : reads t m → answers_for t (in_bucket (on_db m)).
Proof.
  intros Hm d d' w w' b b' E _. destruct (Hm d d' E) as [Ef Es]. unfold in_bucket, on_db. cbn [fst snd].
  by destruct (m d) as [r d1], (m d') as [r' d1']; cbn in *; subst.
Qed.

Lemma answers_in_memory {A} t (m : M (db * memory) A) : reads_with t m → answers_for t (in_memory m).
Proof.
  intros Hm d d' w w' b b' E N. destruct (Hm d d' w w' E N) as (Ef & Es & _ & Ew). unfold in_memory. cbn [fst snd].
  by destruct (m (d, w)) as [r [d1 w1]], (m (d', w')) as [r' [d1' w1']]; cbn in *; subst.
Qed.

Section documents.
Variable ctx : RequestContext.
#[local] Notation t := (tenant_of ctx).

Lemma answers_list_documents c b : answers_for t (in_bucket (list_documents ctx c b)).
Proof. unfold list_documents. apply answers_in_bucket. reading. Qed.

Lemma answers_get_document i : answers_for t (in_bucket (get_document ctx i)).
Proof. unfold get_document. apply answers_in_bucket. reading. Qed.

End documents.

Lemma answer_stays `{AuditEnv} older month_start st str_of engine load_schema reg now fault {A} (q : get_route A) ctx :
  answers_for (tenant_of ctx) (answer older month_start st str_of engine load_schema reg now fault ctx q).
Proof.
  destruct q; cbn [answer]; try (apply answers_on_db; auto with reads); try done.
  - apply answers_list_documents.
  - apply answers_get_document.
  - apply answers_in_memory, reads_usage.
  - destruct (approval_status_of status); [auto with reads|]. apply reads_tx, reads_ret.
Qed.

(** C5: what a GET handler answers depends on the caller's tenant only.  For every GET route of the
    API, once a request has reached its handler: two databases and two processes that agree on
    the caller's tenant, however they differ in other tenants' rows, remembered spend and
    objects, give it the same answer or the same error; and the handler changes no row and no
    object, and remembers nothing but the spend of the caller's own tenant.  (What the
    middleware does before the handler, as counting the request and putting the decision of an
    audited capability on the trail, is in [Api.v].) *)
Theorem reading_shows_only_the_tenant `{AuditEnv} older month_start st str_of engine load_schema reg now fault {A} (q : get_route A) ctx
    d d' w w' b b' :
  agree (tenant_of ctx) d d' → near (tenant_of ctx) w w' →
  let m := answer older month_start st str_of engine load_schema reg now fault ctx q in
  fst (m (d, (w, b))) = fst (m (d', (w', b'))) ∧
  (snd (m (d, (w, b)))).1 = d ∧ (snd (m (d, (w, b)))).2.2 = b ∧ only_window (tenant_of ctx) w (snd (m (d, (w, b)))).2.1.
Proof.
  intros E N m. destruct (answer_stays older month_start st str_of engine load_schema reg now fault q ctx d d' w w' b b' E N) as (? & ? & ? & ?).
  done.
Qed.

Module IsolationDemo.
#[export] Instance env : AuditEnv := mkAuditEnv (str_take 64) (fun _ => "at") (fun j => j) (Some "r2").
Definition mine : run := LeaseDemo.row 42 pending None 0 None 0 10.
Definition theirs : run := (LeaseDemo.row 43 pending None 0 None 0 20) <| r_tenant := 2%N |>.
Definition alone : db := empty_db <| runs := [mine] |>.
Definition shared : db := empty_db <| runs := [theirs; mine] |> <| tenants := [mkTenantRow 2 "globex" (Some 5) None] |>.
Notation ask d q := (answer (fun _ _ => true) (fun x => x) RoutesDemo.st (fun _ => "") None (fun _ => Raise (ValueError "")) ∅ 30 None Demo.ctx q
                       (d, (mkMemory ∅ ∅, ∅))).
End IsolationDemo.
#[local] Existing Instance IsolationDemo.env.

(** Beside another tenant's run the answers are those of a database without it: one's own runs,
    and of the other's id that there is no such run. *)
Lemma reading_shows_only_the_tenant_witness :
  fst (IsolationDemo.ask IsolationDemo.shared (GetRuns 50)) = Ok [_serialize IsolationDemo.mine] ∧
  fst (IsolationDemo.ask IsolationDemo.shared (GetRun 43)) = Raise (HTTPException 404) ∧
  (snd (IsolationDemo.ask IsolationDemo.shared GetUsage)).1 = IsolationDemo.shared.
Proof.
  assert (E : agree (tenant_of Demo.ctx) IsolationDemo.shared IsolationDemo.alone) by (vm_compute; reflexivity).
  pose proof (fun A (q : get_route A) => reading_shows_only_the_tenant (fun _ _ => true) (fun x => x) RoutesDemo.st (fun _ => "") None
    (fun _ => Raise (ValueError "")) ∅ 30 None q Demo.ctx IsolationDemo.shared IsolationDemo.alone (mkMemory ∅ ∅) (mkMemory ∅ ∅) ∅ ∅ E eq_refl) as H.
  split; [|split].
  - destruct (H _ (GetRuns 50)) as [Ha _]. rewrite Ha. vm_compute. reflexivity.
  - destruct (H _ (GetRun 43)) as [Ha _]. rewrite Ha. vm_compute. reflexivity.
  - destruct (H _ GetUsage) as (_ & Hd & _). exact Hd.
Defined.
