(* ===== verification/Confined.v ===== *)
(** What the writing routes can touch: every handler under POST, PUT and DELETE that
    [platform_core/api/policy.py] declares, except the three named below, run by a principal of one
    tenant, leaves every other tenant's view of the database as it was ([agree] of
    [Isolation.v]), whether it answers or fails part way.

    A query and the drafting of answers call the model on the way, and what that leaves alone is
    [Frame.v]'s; a purge deletes what refers to the document by foreign keys, on which row-level
    security does not act. What other requests commit while a handler is between two statements is
    an argument of it, assumed to be of the handler's tenant, since other tenants' commits are
    theirs; so are the tools' own handlers. *)
From S2P Require Import Prelude Json Text Gaps Onboarding Artifacts Drafting Capabilities Checkpoint Tools Ledger AuditTrail Leases Builds Datasets Gate Documents ObjectStore Access Outbox Api Routes Isolation Identity Db.

(** * Tables and views *)

(** Rows of one tenant decide what that tenant sees of a table. *)
Class Owned (R : Type) `{TenantRow R, Table R} :=
  put_agrees : ∀ u l d, own u l = own u (rows d) → agree u (put l d) d.

Ltac owned := intros u l d E; unfold agree, seen_by; cbn in *; by rewrite E.

#[export] Instance owned_run : Owned run. Proof. owned. Qed.
#[export] Instance owned_outbox : Owned outbox. Proof. owned. Qed.
#[export] Instance owned_checkpoint : Owned agent_checkpoint. Proof. owned. Qed.
#[export] Instance owned_approval : Owned tool_approval. Proof. owned. Qed.
#[export] Instance owned_execution : Owned tool_execution. Proof. owned. Qed.
#[export] Instance owned_grant : Owned capability_grant. Proof. owned. Qed.
#[export] Instance owned_event : Owned audit_event. Proof. owned. Qed.
#[export] Instance owned_document : Owned document. Proof. owned. Qed.
#[export] Instance owned_question : Owned unanswered_question. Proof. owned. Qed.
#[export] Instance owned_dataset : Owned eval_dataset. Proof. owned. Qed.
#[export] Instance owned_policy : Owned continuous_eval_policy. Proof. owned. Qed.
#[export] Instance owned_baseline : Owned eval_baseline. Proof. owned. Qed.
#[export] Instance owned_onboarding : Owned onboarding_session. Proof. owned. Qed.
#[export] Instance owned_artifact : Owned onboarding_artifact. Proof. owned. Qed.
#[export] Instance owned_label : Owned eval_item_label. Proof. owned. Qed.

Section rows.
Context {R : Type} `{TenantRow R}.
Variables (t u : uuid).
Hypothesis Hu : u ≠ t.

Lemma own_snoc (l : list R) r : row_tenant r = t → own u (l ++ [r]) = own u l.
Proof using Hu.
  intros E. unfold own. rewrite List.filter_app. cbn. rewrite E, (proj2 (N.eqb_neq t u)) by congruence. apply app_nil_r.
Qed.

(** An update of one tenant's rows that leaves them with it. *)
Lemma own_update p f (l : list R) :
  (∀ r, p r = true → row_tenant r = t) → (∀ r, row_tenant (f r) = row_tenant r) → own u (update_where p f l) = own u l.
Proof using Hu.
  intros Hp Hf. unfold own, update_where. induction l as [|r l IH]; cbn; [done|].
  destruct (p r) eqn:E; [|by rewrite IH]. rewrite Hf, (Hp r E), (proj2 (N.eqb_neq t u)), IH by congruence. done.
Qed.

End rows.

(** * Computations that stay in their tenant *)

Definition confined {A} (t : uuid) (m : M db A) : Prop := ∀ d u, u ≠ t → agree u (snd (m d)) d.

Section closure.
Variable t : uuid.

Lemma confined_same {A} (m : M db A) : (∀ d, snd (m d) = d) → confined t m.
Proof. intros E d u _. by rewrite E. Qed.

Lemma confined_ret {A} (a : A) : confined t (ret a).
Proof. by apply confined_same. Qed.

Lemma confined_raise {A} e : confined (A := A) t (raise e).
Proof. by apply confined_same. Qed.

Lemma confined_guard b e : confined t (guard b e).
Proof. apply confined_same. by destruct b. Qed.

Lemma confined_get : confined t get.
Proof. by apply confined_same. Qed.

Lemma confined_gets {A} (f : db → A) : confined t (gets f).
Proof. by apply confined_same. Qed.

Lemma confined_select {R} `{Table R} (p : R → bool) : confined t (sql_select p).
Proof. by apply confined_same. Qed.

Lemma confined_one {A} (l : list A) : confined t (one_or_none l).
Proof. apply confined_same. intros d. by destruct l as [|x [|y l]]. Qed.

Lemma confined_bind {A B} (m : M db A) (k : A → M db B) : confined t m → (∀ a, confined t (k a)) → confined t (bind m k).
Proof.
  intros Hm Hk d u Hu. specialize (Hm d u Hu). unfold bind. destruct (m d) as [[a|e] d1]; [|done].
  etrans; [by apply Hk|exact Hm].
Qed.

(** What the first part returned may be relied on. *)
Lemma confined_bind_post {A B} (m : M db A) (k : A → M db B) (P : A → Prop) :
  confined t m → (∀ d a d', m d = (Ok a, d') → P a) → (∀ a, P a → confined t (k a)) → confined t (bind m k).
Proof.
  intros Hm HP Hk d u Hu. specialize (Hm d u Hu). specialize (HP d). unfold bind. destruct (m d) as [[a|e] d1]; [|done].
  etrans; [apply Hk; [by eapply HP|done]|exact Hm].
Qed.

Lemma confined_tx {A} (m : M db A) : confined t m → confined t (tenant_session m).
Proof. intros Hm d u Hu. specialize (Hm d u Hu). unfold tenant_session, tx. by destruct (m d) as [[a|e] d1]. Qed.

Lemma confined_try {A} (m : M db A) h : confined t m → (∀ e, match h e with Some k => confined t k | None => True end) → confined t (try_except m h).
Proof.
  intros Hm Hh d u Hu. specialize (Hm d u Hu). unfold try_except. destruct (m d) as [[a|e] d1]; [done|].
  specialize (Hh e). destruct (h e) as [k|]; [|done]. etrans; [by apply Hh|exact Hm].
Qed.

Lemma confined_insert {R} `{Owned R} (r : R) : row_tenant r = t → confined t (sql_insert r).
Proof. intros E d u Hu. apply put_agrees. by apply (own_snoc t). Qed.

Lemma confined_update_of {R} `{Owned R} (p : R → bool) f :
  (∀ r, p r = true → row_tenant r = t) → (∀ r, row_tenant (f r) = row_tenant r) → confined t (sql_update p f).
Proof. intros Hp Hf d u Hu. apply put_agrees. by apply (own_update t). Qed.

Lemma confined_update {R} `{Owned R} (p : R → bool) f : (∀ r, row_tenant (f r) = row_tenant r) → confined t (sql_update (visible t p) f).
Proof. intros Hf. apply confined_update_of; [|done]. intros r. apply visible_tenant. Qed.

(** Rows selected in the session are the tenant's. *)
Lemma confined_selected {R B} `{TR : TenantRow R} `{@Table R} (p : R → bool) (k : list R → M db B) :
  (∀ l, Forall (fun r => row_tenant r = t) l → confined t (k l)) → confined t (found <- sql_select (visible t p) ;; k found).
Proof.
  intros Hk d u Hu. unfold bind, sql_select, gets. apply Hk; [|done].
  apply List.Forall_forall. intros r Hr. apply filter_In in Hr as [_ Hr]. by apply visible_tenant in Hr.
Qed.

Lemma confined_each {A} (l : list A) (body : A → M db unit) : Forall (fun x => confined t (body x)) l → confined t (for_each l body).
Proof. induction 1 as [|x l Hx _ IH]; cbn; [apply confined_ret|]. by apply confined_bind. Qed.

End closure.

Create HintDb confined.
#[export] Hint Resolve confined_ret confined_raise confined_guard confined_get confined_gets confined_select confined_one : confined.

Ltac confining :=
  repeat (intros;
    match goal with
    | |- confined _ (bind _ _) => apply confined_bind
    | |- confined _ (tenant_session _) => apply confined_tx
    | |- confined _ (sql_update (visible _ _) _) => refine (confined_update _ _ _ _); intros; done
    | |- confined _ (sql_insert _) => refine (confined_insert _ _ _); done
    | |- confined _ (match ?x with _ => _ end) => destruct x
    | |- confined _ (when ?b _) => destruct b; cbn [when]
    | |- confined _ (try_except _ _) => apply confined_try
    | |- confined _ _ => solve [auto with confined]
    | |- True => exact I
    | |- match match ?x with _ => _ end with _ => _ end => destruct x
    | |- match _ with _ => _ end => progress cbn beta iota
    end); intros.

(** * The operations *)

Section operations.
Context `{AuditEnv}.
Variable ctx : RequestContext.
#[local] Notation t := (tenant_of ctx).

Lemma confined_lift {A} (r : result A) : confined t (Onboarding.lift r).
Proof. destruct r; [apply confined_ret|apply confined_raise]. Qed.

Lemma confined_or_raise {A} (r : result A) : confined t (or_raise r).
Proof. destruct r; [apply confined_ret|apply confined_raise]. Qed.

Lemma confined_lift_result {A} (r : result A) : confined t (lift_result r).
Proof. destruct r; [apply confined_ret|apply confined_raise]. Qed.
#[local] Hint Resolve confined_lift confined_or_raise confined_lift_result : confined.

(** ** The trail *)

Lemma confined_append_link now release actor action outcome rt rid detail :
  tenant_uuid (principal_tenant actor) = t →
  confined t (append_link env_sha256 env_isoformat env_jsonb now release (Some ctx) actor action outcome rt rid detail).
Proof.
  intros Ht. unfold append_link, insert_audit, chain_tail. confining. intros d u Hu. by destruct d.
Qed.

Lemma confined_audit_in_session now scope action outcome rt rid detail :
  confined t (audit_in_session now scope ctx action outcome rt rid detail).
Proof.
  unfold audit_in_session, append_in_session. cbn [actor_of coalesce_opt option_map]. apply confined_bind; [apply confined_guard|].
  intros _. by apply confined_append_link.
Qed.

Lemma confined_audit_record now action outcome rt rid detail required :
  confined t (audit_record now ctx action outcome rt rid detail required).
Proof.
  unfold audit_record, record. cbn [actor_of coalesce_opt option_map]. apply confined_try.
  - apply confined_bind; [apply confined_tx; by apply confined_append_link|]. intros. apply confined_ret.
  - intros e. destruct required; [apply confined_raise|apply confined_ret].
Qed.
#[local] Hint Resolve confined_audit_in_session confined_audit_record : confined.

Lemma confined_logout now : confined t (logout now ctx).
Proof.
  unfold logout, record. cbn [actor_of coalesce_opt option_map]. apply confined_bind; [|intros; apply confined_ret]. apply confined_try.
  - apply confined_bind; [apply confined_tx; by apply confined_append_link|]. intros. apply confined_ret.
  - intros e. apply confined_ret.
Qed.

(** ** Runs and their queue *)

Lemma confined_cancel_run now i : confined t (cancel_run now ctx i).
Proof. unfold cancel_run, request_cancel. confining. Qed.

Lemma confined_enqueue_run now fresh serial between release trace workload payload key attempts :
  confined t (modify between) →
  confined t (enqueue_run now fresh serial between release trace ctx workload payload key attempts).
Proof. intros Hb. unfold enqueue_run, insert_run. confining. Qed.

(** ** Authority *)

Lemma confined_require fault now c resource subject : confined t (require fault now (principal ctx) c resource subject).
Proof.
  unfold require, allows, has_grant. confining.
Qed.
#[local] Hint Resolve confined_require : confined.

Lemma confined_audited_refusal {A} now action rt rid detail (m : M db A) :
  confined t m → confined t (audited_refusal now ctx action rt rid detail m).
Proof. intros Hm. unfold audited_refusal. confining. Qed.

Lemma confined_create_grant fault now fresh q : confined t (create_grant fault now fresh q ctx).
Proof.
  unfold create_grant. confining. apply confined_audited_refusal. unfold grant, upsert_grant. confining.
  refine (confined_update_of _ _ _ _ _); [|by intros []].
  intros g. unfold same_grant. intros E. by bool_to_prop.
Qed.

Lemma confined_revoke_grant fault now i : confined t (revoke_grant fault now i ctx).
Proof. unfold revoke_grant. confining. apply confined_audited_refusal. unfold revoke. confining. Qed.

#[local] Hint Resolve confined_enqueue_run : confined.

(** ** Tools *)

Lemma confined_decide now i approved note : confined t (decide now ctx i approved note).
Proof. unfold decide, write_decision. confining. Qed.

Lemma confined_store_append settings now run state aw : confined t (store_append settings now ctx run state aw).
Proof. unfold store_append, append, insert_checkpoint. confining. Qed.

Lemma confined_finish_failure now i status error : confined t (finish_failure now ctx i status error).
Proof. unfold finish_failure. confining. Qed.

Lemma confined_cancellation_point : confined t (cancellation_point ctx).
Proof. unfold cancellation_point. confining. Qed.
#[local] Hint Resolve confined_store_append confined_finish_failure confined_cancellation_point : confined.

Lemma confined_execute settings done_at spec run i validated :
  (∀ arguments, confined t (ts_handler spec ctx arguments)) → confined t (execute settings done_at ctx spec run i validated).
Proof.
  intros Hs. unfold execute, attempt_handler, record_outcome, commit_result. confining.
Qed.

Lemma confined_start_execution now fresh spec run approval sha key : confined t (start_execution now fresh ctx spec run approval sha key).
Proof. unfold start_execution, insert_execution, run_visible. confining. Qed.

Lemma confined_request_approval settings now fresh spec run arguments sha :
  confined t (request_approval settings now fresh ctx spec run arguments sha).
Proof. unfold request_approval, insert_approval, run_visible. confining. Qed.
#[local] Hint Resolve confined_execute confined_start_execution confined_request_approval : confined.

Lemma confined_checked_call settings now reg tool arguments run key : confined t (checked_call settings now reg ctx tool arguments run key).
Proof. apply confined_same. intros d. destruct (checked_call _ _ _ _ _ _ _ _ d) as [r d'] eqn:E. by apply checked_call_inv in E as [-> _]. Qed.

Lemma confined_invoke settings now done_at fa fe reg tool arguments run key approval :
  (∀ name spec, reg !! name = Some spec → ∀ a, confined t (ts_handler spec ctx a)) →
  confined t (invoke settings now done_at fa fe reg ctx tool arguments run key approval).
Proof.
  intros Hreg. unfold invoke. apply (confined_bind_post _ _ _ (fun call => reg !! tool = Some call.1.1)).
  - apply confined_checked_call.
  - intros d [[spec v] sha] d' E. apply checked_call_inv in E as [_ Hs]. by eapply Hs.
  - intros [[spec validated] sha] Hs. cbn in Hs. pose proof (Hreg tool spec Hs). unfold existing, await_approval. confining.
Qed.

(** ** Evaluation *)

Lemma confined_load n sha : confined t (Datasets.load ctx n sha).
Proof. unfold Datasets.load, to_dataset. confining. Qed.

Lemma confined_save str_of st now fresh n c raws : confined t (Datasets.save str_of st now fresh ctx n c raws).
Proof. unfold Datasets.save, upsert_version, upsert_policy. confining. Qed.
#[local] Hint Resolve confined_load confined_save : confined.

Lemma confined_put_dataset str_of st now fresh n c items : confined t (put_dataset str_of st now fresh ctx n c items).
Proof. unfold put_dataset, or_400. confining. Qed.

Lemma apply_verdict_tenant now v x : il_tenant (apply_verdict now ctx v x) = il_tenant x.
Proof. unfold apply_verdict. destruct v as [[|] [[|]|] [?|] [?|]]; done. Qed.

Lemma confined_set_label now n i v : confined t (set_label now ctx n i v).
Proof.
  unfold set_label. confining. refine (confined_update _ _ _ _). intros x. apply apply_verdict_tenant.
Qed.
#[local] Hint Resolve confined_set_label : confined.

Lemma confined_review_item str_of st now fresh n i p : confined t (review_item str_of st now fresh ctx n i p).
Proof. unfold review_item, or_400. confining. Qed.

Lemma confined_upsert_labels now n only set_ ids :
  (∀ x, il_tenant (set_ x) = il_tenant x) → confined t (upsert_labels now ctx n only set_ ids).
Proof.
  intros Hs. induction ids as [|i ids IH]; cbn [upsert_labels]; [apply confined_ret|]. confining.
Qed.

Lemma confined_set_origin now n ids origin : confined t (set_origin now ctx n ids origin).
Proof. unfold set_origin, batch_ok. confining. by apply confined_upsert_labels. Qed.

Lemma confined_mark_seeded now ids n : confined t (mark_seeded now ctx ids n).
Proof. unfold mark_seeded. confining. Qed.

Lemma confined_backlog c b limit : confined t (Gaps.backlog ctx c b limit).
Proof. unfold Gaps.backlog. confining. Qed.
#[local] Hint Resolve confined_set_origin confined_mark_seeded confined_backlog : confined.

Lemma confined_mine_gaps str_of st now fresh n c ids : confined t (mine_gaps str_of st now fresh ctx n c ids).
Proof. unfold mine_gaps, or_400. confining. Qed.

Lemma confined_configure_policy now n interval_seconds top_k : confined t (configure_continuous_policy now ctx n interval_seconds top_k).
Proof. unfold configure_continuous_policy, update_policy. confining. Qed.

Lemma confined_promote_run fault explain repr_float now between i n note force : confined t (modify between) →
  confined t (promote_run fault explain repr_float now between ctx i n note force).
Proof. intros Hb. unfold promote_run, load_run, promote, evaluate, baseline_row, upsert_baseline. confining. Qed.

Lemma confined_start_run now fresh serial between release trace n sha top_k :
  confined t (modify between) → confined t (start_run now fresh serial between release trace ctx n sha top_k).
Proof. intros Hb. unfold start_run. confining. Qed.

(** ** Onboarding *)

Lemma confined_update_sessions p f :
  (∀ x, os_tenant (f x) = os_tenant x) → confined t (update_sessions (visible t p) f).
Proof. intros Hf. unfold update_sessions. confining. Qed.
#[local] Hint Extern 1 (confined _ (update_sessions _ _)) => (apply confined_update_sessions; done) : confined.

Lemma confined_find_session sid : confined t (find_session ctx sid).
Proof. unfold find_session. confining. Qed.

Lemma confined_payload_of sid kind : confined t (Onboarding.payload_of ctx sid kind).
Proof. unfold Onboarding.payload_of. confining. Qed.

Lemma confined_put_payload touch sid kind v : confined t (put_payload touch ctx sid kind v).
Proof. unfold put_payload. confining. Qed.

Lemma confined_audit_session now action sid detail : confined t (audit_session now ctx action sid detail).
Proof. unfold audit_session. confining. Qed.

(** The copy kept of an original is of the original's tenant, which is the caller's. *)
Lemma confined_retain_original now sid kind : confined t (retain_original now ctx sid kind).
Proof.
  unfold retain_original. apply confined_bind; [apply confined_select|]. intros found. apply confined_bind; [apply confined_one|].
  intros kept. destruct (is_some kept); [apply confined_ret|]. apply confined_selected. intros l Hl. apply confined_bind; [|intros; apply confined_ret].
  apply confined_each. eapply Forall_impl; [exact Hl|]. intros x Hx. cbn in Hx |- *. unfold insert_artifact. confining.
Qed.
#[local] Hint Resolve confined_find_session confined_payload_of confined_put_payload confined_audit_session confined_retain_original : confined.

Lemma confined_http_of {A} (m : M db A) : confined t m → confined t (http_of m).
Proof. intros Hm. unfold http_of. confining. Qed.
#[local] Hint Resolve confined_http_of : confined.

Lemma confined_curate sid q text approved : confined t (curate_route ctx sid q text approved).
Proof. unfold curate_route, curate_query. confining. all: apply confined_http_of; confining. Qed.

Lemma confined_edit_schema str_of now between sid yaml retype : confined t (modify between) →
  confined t (edit_schema str_of now between ctx sid yaml retype).
Proof. intros Hb. unfold edit_schema, edit_found, retype_instances. confining. Qed.
#[local] Hint Resolve confined_edit_schema : confined.

Lemma confined_edit_route str_of engine load_schema now between sid yaml retype : confined t (modify between) →
  confined t (edit_route str_of engine load_schema now between ctx sid yaml retype).
Proof. intros Hb. unfold edit_route, artifacts_for. confining. Qed.

Lemma confined_approve_route now sid : confined t (approve_route now ctx sid).
Proof. unfold approve_route, approve. confining. Qed.

Lemma confined_publish now sid : confined t (publish now ctx sid).
Proof. unfold publish. confining. Qed.
#[local] Hint Resolve confined_publish : confined.

Lemma confined_cancel_route now sid : confined t (cancel_route now ctx sid).
Proof. unfold cancel_route, cancel. confining. Qed.

Lemma confined_start_session now fs fr serial other between rel trace p :
  confined t (modify other) → confined t (modify between) →
  confined t (start_session now fs fr serial other between rel trace ctx p).
Proof. intros Ho Hb. unfold start_session, create. confining. Qed.

Lemma confined_seed str_of st now fresh sid name : confined t (seed_eval_set str_of st now fresh ctx sid name).
Proof. unfold seed_eval_set, get_session, candidate_queries. confining. Qed.

End operations.

(** * Handlers that also touch the process *)

(** [N u] is what is kept of the rest of the state for the tenant [u]. *)
Definition stays {V A} (N : uuid → V → V → Prop) (t : uuid) (m : M (db * V) A) : Prop :=
  ∀ s u, u ≠ t → agree u (snd (m s)).1 s.1 ∧ N u (snd (m s)).2 s.2.

Section staying.
Context {V : Type} (N : uuid → V → V → Prop).
Context {HN : ∀ u, PreOrder (N u)}.
Variable t : uuid.

Lemma stays_same {A} (m : M (db * V) A) : (∀ s, snd (m s) = s) → stays N t m.
Proof using HN. intros E s u _. by rewrite E. Qed.

Lemma stays_ret {A} (a : A) : stays N t (ret a).
Proof using HN. by apply stays_same. Qed.

Lemma stays_raise {A} e : stays (A := A) N t (raise e).
Proof using HN. by apply stays_same. Qed.

Lemma stays_guard b e : stays N t (guard b e).
Proof using HN. apply stays_same. by destruct b. Qed.

Lemma stays_bind {A B} (m : M (db * V) A) (k : A → M (db * V) B) : stays N t m → (∀ a, stays N t (k a)) → stays N t (bind m k).
Proof using HN.
  intros Hm Hk s u Hu. destruct (Hm s u Hu) as [Hd Hw]. unfold bind. destruct (m s) as [[a|e] s1]; [|done].
  destruct (Hk a s1 u Hu) as [Hd' Hw']. split; [by etrans|by etrans].
Qed.

Lemma stays_on_db {A} (m : M db A) : confined t m → stays N t (on_db m).
Proof using HN.
  intros Hm s u Hu. specialize (Hm s.1 u Hu). unfold on_db. destruct (m s.1) as [r d]. by split.
Qed.

(** A computation that leaves the database alone. *)
Lemma stays_beside {A} (m : M (db * V) A) : (∀ s, (snd (m s)).1 = s.1) → (∀ s u, u ≠ t → N u (snd (m s)).2 s.2) → stays N t m.
Proof using. intros Hd Hw s u Hu. rewrite Hd. split; [done|by apply Hw]. Qed.

End staying.

(** The state [V] as a part of the state [W]. *)
Definition inside {V W A} (part : W → V) (with_part : V → W → W) (m : M (db * V) A) : M (db * W) A :=
  fun s => let (r, x) := m (s.1, part s.2) in (r, (x.1, with_part x.2 s.2)).

Lemma stays_inside {V W A} (N : uuid → V → V → Prop) (N' : uuid → W → W → Prop) part with_part t (m : M (db * V) A) :
  (∀ u v w, N u v (part w) → N' u (with_part v w) w) → stays N t m → stays N' t (inside part with_part m).
Proof.
  intros HN Hm s u Hu. destruct (Hm (s.1, part s.2) u Hu) as [Hd Hw]. unfold inside.
  destruct (m (s.1, part s.2)) as [r x]. cbn in *. auto.
Qed.

(** Nothing need be kept of it. *)
Definition anything {V} (_ : uuid) (_ _ : V) : Prop := True.

#[export] Instance anything_preorder {V} u : PreOrder (@anything V u).
Proof. by split. Qed.

#[export] Instance near_preorder u : PreOrder (near u).
Proof. split; [by intros w|]. intros w w1 w2 E E'. unfold near in *. congruence. Qed.

(** ** Caps *)

Section caps.
Context `{AuditEnv}.
Variables (month_start : timestamp → timestamp) (st : ledger_settings) (repr_float : Q → string) (served : option Q → bool).
Variable ctx : RequestContext.
#[local] Notation t := (tenant_of ctx).

Lemma confined_caps_columns daily monthly : confined t (sql_update (fun r => tn_id r =? t)%N (set_cap_columns daily monthly)).
Proof.
  intros d u Hu. unfold agree, seen_by, sql_update. cbn. f_equal. unfold update_where.
  induction (tenants d) as [|r l IH]; cbn; [done|]. destruct (tn_id r =? t)%N eqn:E; cbn; [|by rewrite IH].
  apply N.eqb_eq in E. rewrite E, (proj2 (N.eqb_neq t u)), IH by congruence. done.
Qed.

Lemma confined_write_caps now previous p : confined t (write_caps repr_float served now ctx previous p).
Proof.
  unfold write_caps, platform_set_tenant_budget_caps. confining; [apply confined_caps_columns|apply confined_audit_in_session].
Qed.

Lemma stays_reads_with {A} (m : M (db * memory) A) : reads_with t m → stays near t m.
Proof.
  intros Hm [d w] u Hu. destruct (Hm d d w w) as (_ & Hd & _ & Hw); [done|done|]. cbn [fst snd]. rewrite Hd. split; [done|]. by apply Hw.
Qed.

Lemma stays_set_caps now fault p : stays near t (Routes.set_caps month_start st repr_float served now fault p ctx).
Proof.
  unfold Routes.set_caps. apply stays_bind; [apply _|by apply stays_guard, _|]. intros _.
  apply stays_bind; [apply _|apply stays_reads_with, reads_status|]. intros previous.
  apply stays_bind; [apply _|by apply stays_on_db, confined_write_caps; apply _|]. intros _.
  apply stays_bind; [apply _| |].
  - intros s u Hu. split; [done|]. by apply lookup_delete_ne.
  - intros _. apply stays_bind; [apply _|apply stays_reads_with, reads_status|]. intros current. by apply stays_ret, _.
Qed.

End caps.

(** ** Documents *)

Section documents.
Context `{AuditEnv}.
Variables (sha256 : string → string) (rel : string) (trace : json).
Variable ctx : RequestContext.
#[local] Notation t := (tenant_of ctx).

Lemma confined_no_others : confined t (modify (fun d => d)).
Proof. by apply confined_same. Qed.

Lemma confined_enqueue_reindex now fresh serial c key : confined t (enqueue_reindex rel trace now fresh serial ctx c key).
Proof.
  unfold enqueue_reindex. apply confined_bind; [apply confined_guard|]. intros _.
  apply confined_bind; [apply confined_enqueue_run, confined_no_others|]. intros r. apply confined_ret.
Qed.

Lemma confined_audit_document now action i detail : confined t (audit_document now ctx action i detail).
Proof. unfold audit_document. apply confined_bind; [apply confined_audit_in_session|]. intros. apply confined_ret. Qed.
#[local] Hint Resolve confined_enqueue_reindex confined_audit_document : confined.

Lemma confined_insert_document x : dc_tenant x = t → confined t (insert_document x).
Proof. intros E. unfold insert_document. confining. Qed.

Lemma confined_record_upload now f f' serial c name sha key size : confined t (record_upload rel trace now f f' serial ctx c name sha key size).
Proof. unfold record_upload. confining; by apply confined_insert_document. Qed.

Lemma stays_create_document now f f' serial fault p : stays anything t (create_document sha256 rel trace now f f' serial fault ctx p).
Proof.
  unfold create_document.
  repeat (apply stays_bind; [apply _|first [by apply stays_guard, _|idtac]|intros]).
  - destruct (b64decode _); [by apply stays_ret, _|by apply stays_raise, _].
  - destruct (storage_key_of _ _ _ _); [by apply stays_ret, _|by apply stays_raise, _].
  - apply stays_beside; [|done]. intros s. unfold on_store. by destruct (retain _ _ _ _ _ _ s.2).
  - apply stays_on_db; [apply _|]. apply confined_tx, confined_record_upload.
Qed.

Lemma stays_delete_document now fresh serial i : stays anything t (delete_document rel trace now fresh serial ctx i).
Proof. unfold delete_document. apply stays_on_db; [apply _|]. confining. Qed.

End documents.

(** ** Publishing *)

Lemma stays_publish_route `{AuditEnv} {G} now ctx sid :
  stays (V := unit * Hybrid.process G) anything (tenant_of ctx) (publish_route now ctx sid).
Proof.
  unfold publish_route. apply stays_bind; [apply _|apply stays_on_db; [apply _|apply confined_http_of, confined_publish]|].
  intros domain. apply stays_bind; [apply _| |intros; by apply stays_ret, _].
  apply stays_beside; [|done]. intros s. unfold Hybrid.on_process. by destruct (Hybrid.invalidate _ s.2.2).
Qed.

(** * The writing routes *)

Inductive write_route : Type → Type :=
| PostLogout (now : timestamp) : write_route unit
| PostCancelRun (now : timestamp) (i : uuid) : write_route (uuid * cancel_outcome * option timestamp)
| PostDocument (now : timestamp) (fresh fresh' : uuid) (serial : Z) (fault : option s3_fault) (p : DocumentCreate) : write_route uploaded
| DeleteDocument (now : timestamp) (fresh : uuid) (serial : Z) (i : uuid) : write_route (string * uuid)
| PutCaps (now : timestamp) (fault : option exn) (p : CapsUpdate) : write_route CapsReport
| PostInvoke (now done_at : timestamp) (fresh fresh' : uuid) (header : option string) (tool : string) (p : InvocationRequest) : write_route tool_reply
| PostDecide (now : timestamp) (i : uuid) (approved : bool) (note : option string) : write_route (uuid * approval_status)
| PostGrant (now : timestamp) (fresh : uuid) (q : GrantRequest) : write_route uuid
| DeleteGrant (now : timestamp) (i : uuid) : write_route unit
| PutEvalContinuous (now : timestamp) (n : string) (interval_seconds top_k : Z) : write_route continuous_eval_policy
| PostEvalRun (now : timestamp) (fresh : uuid) (serial : Z) (between : db → db) (n : string) (sha : option string) (top_k : Z)
    : write_route (uuid * bool * string)
| PutEvalDataset (now : timestamp) (fresh : uuid * uuid) (n c : string) (items : raws) : write_route Dataset
| PostPromote (now : timestamp) (between : db → db) (i : uuid) (n : string) (note : option string) (force : bool) : write_route GateDecision
| PostMine (now : timestamp) (fresh : uuid * uuid) (n c : string) (gap_ids : list uuid) : write_route (option Dataset * Z)
| PutEvalItem (now : timestamp) (fresh : uuid * uuid) (n i : string) (p : ItemReview) : write_route (option (string * bool) * eval_item_label)
| PostSession (now : timestamp) (fresh fresh' : uuid) (serial : Z) (other between : db → db) (p : SessionCreate) : write_route SessionStarted
| PostSchema (now : timestamp) (between : db → db) (sid : uuid) (yaml : string) (retype : gmap string string) : write_route edited
| PostApprove (now : timestamp) (sid : uuid) : write_route onboarding_status
| PostPublish (now : timestamp) (sid : uuid) : write_route (string * Z)
| PostCancelSession (now : timestamp) (sid : uuid) : write_route unit
| PostQueryReview (sid : uuid) (q : string) (text : option string) (approved : option bool) : write_route json
| PostSeedEval (now : timestamp) (fresh : uuid * uuid) (sid : uuid) (name : option string) : write_route Dataset.

Definition write_template {A} (q : write_route A) : string * string :=
  match q with
  | PostLogout _ => ("POST", "/auth/logout")
  | PostCancelRun _ _ => ("POST", "/api/runs/{run_id}/cancel")
  | PostDocument _ _ _ _ _ _ => ("POST", "/api/documents")
  | DeleteDocument _ _ _ _ => ("DELETE", "/api/documents/{document_id}")
  | PutCaps _ _ _ => ("PUT", "/api/usage/caps")
  | PostInvoke _ _ _ _ _ _ _ => ("POST", "/api/tools/{tool_name}/invoke")
  | PostDecide _ _ _ _ => ("POST", "/api/approvals/{approval_id}/decide")
  | PostGrant _ _ _ => ("POST", "/api/members/grants")
  | DeleteGrant _ _ => ("DELETE", "/api/members/grants/{grant_id}")
  | PutEvalContinuous _ _ _ _ => ("PUT", "/api/eval/continuous/{name}")
  | PostEvalRun _ _ _ _ _ _ _ => ("POST", "/api/eval/run")
  | PutEvalDataset _ _ _ _ _ => ("PUT", "/api/eval/datasets/{name}")
  | PostPromote _ _ _ _ _ _ => ("POST", "/api/eval/runs/{run_id}/promote")
  | PostMine _ _ _ _ _ => ("POST", "/api/eval/datasets/{name}/mine")
  | PutEvalItem _ _ _ _ _ => ("PUT", "/api/eval/datasets/{name}/items/{item_id}")
  | PostSession _ _ _ _ _ _ _ => ("POST", "/api/onboard/sessions")
  | PostSchema _ _ _ _ _ => ("POST", "/api/onboard/sessions/{session_id}/schema")
  | PostApprove _ _ => ("POST", "/api/onboard/sessions/{session_id}/approve")
  | PostPublish _ _ => ("POST", "/api/onboard/sessions/{session_id}/publish")
  | PostCancelSession _ _ => ("POST", "/api/onboard/sessions/{session_id}/cancel")
  | PostQueryReview _ _ _ _ => ("POST", "/api/onboard/sessions/{session_id}/queries/{query_id}")
  | PostSeedEval _ _ _ _ => ("POST", "/api/onboard/sessions/{session_id}/seed-eval")
  end.

(** One request of every form, in the order of the table. *)
Definition every_write : list { A & write_route A } :=
  [existT _ (PostLogout 0); existT _ (PostCancelRun 0 0%N); existT _ (PostDocument 0 0%N 0%N 0 None (mkDocumentCreate "" "" ""));
   existT _ (DeleteDocument 0 0%N 0 0%N); existT _ (PutCaps 0 None (mkCapsUpdate None None));
   existT _ (PostInvoke 0 0 0%N 0%N None "" (mkInvocationRequest 0%N JNull None)); existT _ (PostDecide 0 0%N true None);
   existT _ (PostGrant 0 0%N (mkGrantRequest 0%N RUN_READ "" None)); existT _ (DeleteGrant 0 0%N); existT _ (PutEvalContinuous 0 "" 0 0);
   existT _ (PostEvalRun 0 0%N 0 (fun d => d) "" None 0); existT _ (PutEvalDataset 0 (0%N, 0%N) "" "" []); existT _ (PostPromote 0 (fun d => d) 0%N "" None false);
   existT _ (PostMine 0 (0%N, 0%N) "" "" []); existT _ (PutEvalItem 0 (0%N, 0%N) "" "" (mkItemReview None None None None));
   existT _ (PostSession 0 0%N 0%N 0 (fun d => d) (fun d => d) (mkSessionCreate "" "" 0)); existT _ (PostSchema 0 (fun d => d) 0%N "" ∅); existT _ (PostApprove 0 0%N);
   existT _ (PostPublish 0 0%N); existT _ (PostCancelSession 0 0%N); existT _ (PostQueryReview 0%N "" None None);
   existT _ (PostSeedEval 0 (0%N, 0%N) 0%N None)].

(** The routes under POST, PUT and DELETE that are not modelled by a [write_route]. *)
Definition elsewhere : list (string * string) :=
  [("DELETE", "/api/documents/{document_id}/purge"); ("POST", "/api/query"); ("POST", "/api/eval/datasets/{name}/draft")].

Lemma writes_are_the_declared_ones :
  map (fun q => write_template (projT2 q)) every_write =
  List.filter (fun e => negb (existsb (fun x => String.eqb x.1 e.1 && String.eqb x.2 e.2) elsewhere))
    (map fst (List.filter (fun e => negb (String.eqb e.1.1 "GET")) ROUTE_CAPABILITIES)).
Proof. vm_compute. reflexivity. Qed.

(** What others commit while the handler is between two statements. *)
Definition meanwhile {A} (q : write_route A) : list (db → db) :=
  match q with
  | PostEvalRun _ _ _ between _ _ _ => [between]
  | PostPromote _ between _ _ _ _ => [between]
  | PostSchema _ between _ _ _ => [between]
  | PostSession _ _ _ _ other between _ => [other; between]
  | _ => []
  end.

Section writing.
Context `{AuditEnv}.
Context {G : Type}.
Variables (month_start : timestamp → timestamp) (st : ledger_settings) (repr_float : Q → string) (served : option Q → bool).
Variables (settings : tool_settings) (reg : gmap string ToolSpec).
Variables (sha256 : string → string) (rel : string) (trace : json).
Variables (str_of : json → string) (evals : eval_settings) (explain : gate_reason → string) (db_fault : option exn).
Variables (engine : option exn) (load_schema : string → result taxonomy).

(** The process: the ledger's memory and the bucket, and the graphs it holds. *)
#[local] Notation machine := (memory * bucket * (unit * Hybrid.process G))%type.

Definition with_memory (m : memory) (w : machine) : machine := (m, w.1.2, w.2).
Definition with_bucket (b : bucket) (w : machine) : machine := (w.1.1, b, w.2).
Definition with_graphs (g : unit * Hybrid.process G) (w : machine) : machine := (w.1, g).

Definition perform {A} (ctx : RequestContext) (q : write_route A) : M (db * machine) A :=
  match q with
  | PostLogout now => on_db (logout now ctx)
  | PostCancelRun now i => on_db (cancel_run now ctx i)
  | PostDocument now f f' serial fault p =>
      inside (fun w => w.1.2) with_bucket (create_document sha256 rel trace now f f' serial fault ctx p)
  | DeleteDocument now f serial i => inside (fun w => w.1.2) with_bucket (delete_document rel trace now f serial ctx i)
  | PutCaps now fault p => inside (fun w => w.1.1) with_memory (Routes.set_caps month_start st repr_float served now fault p ctx)
  | PostInvoke now done_at f f' header tool p => on_db (invoke_tool settings now done_at f f' reg header tool p ctx)
  | PostDecide now i approved note => on_db (decide now ctx i approved note)
  | PostGrant now f q => on_db (create_grant db_fault now f q ctx)
  | DeleteGrant now i => on_db (revoke_grant db_fault now i ctx)
  | PutEvalContinuous now n interval_seconds top_k => on_db (configure_continuous_policy now ctx n interval_seconds top_k)
  | PostEvalRun now f serial between n sha top_k => on_db (start_run now f serial between rel trace ctx n sha top_k)
  | PutEvalDataset now f n c items => on_db (put_dataset str_of evals now f ctx n c items)
  | PostPromote now between i n note force => on_db (promote_run db_fault explain repr_float now between ctx i n note force)
  | PostMine now f n c ids => on_db (mine_gaps str_of evals now f ctx n c ids)
  | PutEvalItem now f n i p => on_db (review_item str_of evals now f ctx n i p)
  | PostSession now f f' serial other between p => on_db (start_session now f f' serial other between rel trace ctx p)
  | PostSchema now between sid yaml retype => on_db (edit_route str_of engine load_schema now between ctx sid yaml retype)
  | PostApprove now sid => on_db (approve_route now ctx sid)
  | PostPublish now sid => inside (fun w => w.2) with_graphs (publish_route now ctx sid)
  | PostCancelSession now sid => on_db (cancel_route now ctx sid)
  | PostQueryReview sid qid text approved => on_db (curate_route ctx sid qid text approved)
  | PostSeedEval now f sid name => on_db (seed_eval_set str_of evals now f ctx sid name)
  end.

(** The process remembers the same of a tenant's spend. *)
Definition remembers (u : uuid) (w w' : machine) : Prop := near u w.1.1 w'.1.1.

#[local] Instance remembers_preorder u : PreOrder (remembers u).
Proof. split; [by intros w|]. intros w w1 w2 E E'. unfold remembers, near in *. congruence. Qed.

(** Every tool's handler stays in the tenant it is called for. *)
Definition handlers_stay : Prop :=
  ∀ name spec, reg !! name = Some spec → ∀ ctx arguments, confined (tenant_of ctx) (ts_handler spec ctx arguments).

Lemma perform_stays {A} ctx (q : write_route A) :
  handlers_stay → Forall (fun between => confined (tenant_of ctx) (modify between)) (meanwhile q) →
  stays remembers (tenant_of ctx) (perform ctx q).
Proof.
  intros Hreg Hb.
  destruct q; cbn [perform meanwhile] in *; try (apply stays_on_db; [apply _|]).
  - apply confined_logout.
  - apply confined_cancel_run.
  - apply (stays_inside anything); [done|]. apply stays_create_document.
  - apply (stays_inside anything); [done|]. apply stays_delete_document.
  - apply (stays_inside near); [done|]. apply stays_set_caps.
  - unfold invoke_tool. apply confined_bind; [apply confined_guard|]. intros _. apply confined_try.
    + apply confined_bind; [|intros; apply confined_ret].
      apply (confined_invoke (run_context ctx _ _ _)). intros name spec Hs a. exact (Hreg name spec Hs _ a).
    + intros e. destruct e; cbn [tool_error]; try done; first [apply confined_raise|apply confined_ret].
  - apply confined_decide.
  - apply confined_create_grant.
  - apply confined_revoke_grant.
  - apply confined_configure_policy.
  - apply confined_start_run. by inversion Hb.
  - apply confined_put_dataset.
  - apply confined_promote_run. by inversion Hb.
  - apply confined_mine_gaps.
  - apply confined_review_item.
  - inversion Hb as [|? ? Ho Hb']; subst. apply confined_start_session; [done|]. by inversion Hb'.
  - apply confined_edit_route. by inversion Hb.
  - apply confined_approve_route.
  - apply (stays_inside anything); [done|]. apply stays_publish_route.
  - apply confined_cancel_route.
  - apply confined_curate.
  - apply confined_seed.
Qed.

(** C6: a writing request stays in its tenant.  For every declared route under POST, PUT and DELETE
    but three (the purge of a document, POST /api/query and the drafting of answers), whatever
    its handler is asked by a principal of one tenant, answered or failed part way, no
    principal of another tenant can tell: it would be shown the same rows of every table, and
    every GET request of its has the same answer after as before.  The tools' handlers and what
    is committed meanwhile are taken to be of the request's tenant. *)
Theorem writing_stays_in_the_tenant {A} ctx (q : write_route A) s :
  handlers_stay → Forall (fun between => confined (tenant_of ctx) (modify between)) (meanwhile q) →
  let s' := snd (perform ctx q s) in
  ∀ ctx', tenant_of ctx' ≠ tenant_of ctx →
    agree (tenant_of ctx') s'.1 s.1 ∧
    ∀ older now fault B (g : get_route B),
      let see := answer older month_start st str_of engine load_schema reg now fault ctx' g in
      fst (see (s'.1, s'.2.1)) = fst (see (s.1, s.2.1)).
Proof.
  intros Hreg Hb s' ctx' Ht. destruct (perform_stays ctx q Hreg Hb s (tenant_of ctx') Ht) as [Hd Hw]. split; [exact Hd|].
  intros older now fault B g see. subst s'. destruct (snd (perform ctx q s)) as [d' [[m' b'] g']], s as [d [[m b] g0]].
  by destruct (answer_stays older month_start st str_of engine load_schema reg now fault g ctx' d' d m' m b' b Hd Hw).
Qed.

End writing.

Module ConfinedDemo.
#[export] Instance env : AuditEnv := mkAuditEnv (str_take 64) (fun _ => "at") (fun j => j) (Some "r2").
Definition process0 : unit * Hybrid.process unit := (tt, Hybrid.mkProcess (Engine.mkEngine false false None None [] ∅) ∅ ∅).
Definition s0 : db * (memory * bucket * (unit * Hybrid.process unit)) := (IsolationDemo.shared, (mkMemory ∅ ∅, ∅, process0)).
Definition globex : RequestContext :=
  Demo.ctx <| principal := mkPrincipal 21 (mkTenant 2 "globex") "gus@globex.test" [OWNER] HUMAN |>.
Notation act q := (perform (fun x => x) RoutesDemo.st RoutesDemo.repr_float (fun _ => true) (mkToolSettings 1000 1000 3600) ∅
  (fun s => s) "r2" JNull (fun _ => "") (mkEvalSettings 21600 5) (fun _ => "") None None (fun _ => Raise (ValueError "")) Demo.ctx q s0).
Notation see q s := (fst (answer (fun _ _ => true) (fun x => x) RoutesDemo.st (fun _ => "") None (fun _ => Raise (ValueError "")) ∅ 40 None globex q s)).
End ConfinedDemo.
#[local] Existing Instance ConfinedDemo.env.

(** Whether the other tenant's owner cancels its own run or names this tenant's, this tenant sees
    the run it has, pending as it was. *)
Lemma writing_stays_in_the_tenant_witness :
  ConfinedDemo.see (GetRuns 50) ((ConfinedDemo.act (PostCancelRun 30 42)).2.1, (ConfinedDemo.act (PostCancelRun 30 42)).2.2.1) =
    Ok [_serialize IsolationDemo.theirs] ∧
  ConfinedDemo.see (GetRun 43) ((ConfinedDemo.act (PostCancelRun 30 43)).2.1, (ConfinedDemo.act (PostCancelRun 30 43)).2.2.1) =
    Ok (_serialize IsolationDemo.theirs).
Proof.
  pose proof (fun A (q : write_route A) Hb => writing_stays_in_the_tenant (fun x => x) RoutesDemo.st RoutesDemo.repr_float (fun _ => true)
    (mkToolSettings 1000 1000 3600) ∅ (fun s => s) "r2" JNull (fun _ => "") (mkEvalSettings 21600 5) (fun _ => "") None None
    (fun _ => Raise (ValueError "")) Demo.ctx q ConfinedDemo.s0 (fun name spec E => ltac:(by rewrite lookup_empty in E)) Hb
    ConfinedDemo.globex ltac:(discriminate)) as H.
  split.
  - destruct (H _ (PostCancelRun 30 42) (List.Forall_nil _)) as [_ Hsee]. rewrite (Hsee _ 40 None _ (GetRuns 50)). vm_compute. reflexivity.
  - destruct (H _ (PostCancelRun 30 43) (List.Forall_nil _)) as [_ Hsee]. rewrite (Hsee _ 40 None _ (GetRun 43)). vm_compute. reflexivity.
Defined.

(** And the first request did cancel its own. *)
Example the_own_run_is_cancelled :
  fst (ConfinedDemo.act (PostCancelRun 30 42)) = Ok (42%N, run_cancelled, Some 30) ∧
  fst (ConfinedDemo.act (PostCancelRun 30 43)) = Raise (HTTPException 404).
Proof. vm_compute. split; reflexivity. Qed.
